(* ===== verification/_CoqProject ===== *)
-Q . S2P
Prelude.v
OrderedMap.v
Arrays.v
HashSet.v
IndirectReferenceTable.v
LockWord.v
Monitor.v
MonitorInvariant.v
MonitorFacts.v
Leb128.v
ClassData.v
Utf.v
DexFile.v
DexBuilder.v
Unpacker.v
DexInstruction.v
ShadowFrame.v
Floats.v
Runtime.v
Transaction.v
ParallelMove.v
TryCatch.v
DebugInfo.v
Descriptors.v
MirrorClass.v
RegType.v
RegTypeFacts.v
CacheInvariant.v
RegTypeSafety.v
RegisterLine.v
InstructionTypes.v
FlowFacts.v
FrameTypes.v
LineMerge.v
DexFileVerifier.v
VerifierLogic.v
VerifierInvariant.v
VerifiedFile.v
VerifiedCode.v
VerifierTermination.v
VerifierGaps.v
Calls.v
Interpreter.v
InterpreterFacts.v
InstructionSafety.v
MethodChecks.v
CodeFlow.v
MethodChecksFacts.v
IntArith.v
Control.v
Goto.v
Entry.v
