(* ===== verification/Prelude.v ===== *)
(** * Verification library for the Karl Gerat U fork of the Android Runtime (ART)

    ** The program

    The repository is ART (Android 6) with an unpacker built in.  A packed application decrypts
    its dex files in memory; the fork hooks [ArtMethod::Invoke] and dumps a loaded dex file when
    a method of the configured component runs.  Level 1 copies the file, level 2 copies it and
    resolves its methods, level 3 ("rebuild") initialises its classes, is meant to collect class
    data and code, and writes a new dex file.  The U-X part hooks the interpreter, which notices that a
    method has overwritten its own code.  All code is under [src/art]; paths below are relative
    to [src/art/runtime].

    ** Files

    - [Prelude]: fixed-width integers ([u], [s]), byte buffers ([store], [load], little-endian
      fields), tactics and hint databases, lemmas shared by the components.
    - [Leb128]: [leb128.h] and [gerat/util/leb128.cc].
    - [ClassData]: the collected items of [gerat/util/Defs.{h,cc}] (Module [Gerat]) and the
      runtime's [ClassDataItemIterator] ([dex_file.{h,cc}]).
    - [Utf]: modified UTF-8 ([utf.cc], [utf-inl.h]).
    - [DexFile]: header, tables, accessors and searches of a mapped dex file
      ([dex_file.{h,cc}], [dex_file-inl.h]).
    - [DebugInfo]: the debug info stream of a method, line numbers and local variables
      ([DexFile::DecodeDebugInfo0] and its callers in [dex_file.{h,cc}]).
    - [Descriptors]: the member name and descriptor grammars of [utils.cc].
    - [DexFileVerifier]: [dex_file_verifier.{h,cc}], the checks on a dex file before it is used.
      [VerifierLogic]: how the checks are reasoned about, and which of the verifier's state
      each check keeps; [VerifierInvariant]: the invariant of its type map.
      [VerifiedFile], [VerifiedCode]: what an accepted file guarantees to the searches of
      [DexFile] and the handler lists of [TryCatch].  [VerifierTermination]: [Verify] ends.
      [VerifierGaps]: sizes at the edge, and files that are accepted and should not be.
    - [MirrorClass]: the queries of [mirror/class.{h,cc}] on classes that are loaded:
      inheritance, assignability, access, and [RegType::ClassJoin].
    - [RegType]: the register types of the method verifier and their cache
      ([verifier/reg_type.{h,cc}], [reg_type_cache.{h,cc}] and their inline files) over the
      interface [ClassLinker]; [RegTypeFacts]: the invariant of the cache, the outcome of each of
      its operations, and which register contents a type describes ([has_type]);
      [CacheInvariant], [RegTypeSafety]: their properties, and a class linker that satisfies the
      interface's laws.  [RegisterLine]: the line of register types and its monitors
      ([verifier/register_line.{h,cc}]) with [MethodVerifier::Fail].
    - [InstructionTypes]: the cases of [MethodVerifier::CodeFlowVerifyInstruction] on the line
      ([verifier/method_verifier.cc]).  [FlowFacts]: runs that find no failure; [FrameTypes]:
      the frames that a line describes; [LineMerge]: merging; [InstructionSafety]: the checks
      against the steps of [Interpreter].
    - [MethodChecks]: the static checks of a method ([verifier/method_verifier.cc],
      [instruction_flags.h]); [MethodChecksFacts]: what they establish for the interpreter.
      [CodeFlow]: the work list of the code flow analysis ([verifier/method_verifier.cc]).
    - [DexBuilder]: the level 3 output pass, [ArtMethod::DexBuilder] and the end of [build_dex]
      ([art_method.{h,cc}]).
    - [Unpacker]: configuration and lists ([gerat/filter]), globals ([gerat/unpack]), the hook
      in [ArtMethod::Invoke], [dump_dex], [dump_dex_after_init], [build_dex], [write_file].
    - [DexInstruction]: the instruction list, formats, sizes, decoders and opcode classes
      ([dex_instruction*.{h,cc}]).
    - [ShadowFrame]: the interpreter's frame ([stack.h]) and [JValue] ([jvalue.h]).
    - [Floats]: the [float] and [double] operators on bit patterns, over the Standard Library's
      SpecFloat, and [art_float_to_integral] ([entrypoints/entrypoint_utils-inl.h]).
    - [Runtime]: the interface (classes [Runtime] and [RuntimeLaws]) through which the
      interpreter uses heap, class linker, monitors and calls; Module [Small] is a concrete
      heap that satisfies it.
    - [TryCatch]: try items, handler iterator, [FindCatchBlock], the dispatch of exceptions.
    - [Calls]: [DoInvoke], [DoCall] with both ways of passing arguments, filled arrays
      ([interpreter/interpreter_common.{h,cc}], [entrypoints/entrypoint_utils.cc]).
    - [Interpreter]: [ExecuteSwitchImpl] ([interpreter/interpreter_switch_impl.cc]) with
      [interpreter_common.{h,cc}] and [safe_math.h]; [Step] is one instruction, [Loop] the
      [while] loop.
    - [InterpreterFacts]: lemmas about steps; [IntArith] and [Control]: the interpreter's
      properties.
    - [Goto]: [ExecuteGotoImpl] ([interpreter/interpreter_goto_table_impl.cc]), handler by
      handler, and its equality with the steps of [Interpreter].  [Entry]: [Execute] and the ways
      into the interpreter ([interpreter/interpreter.cc]).
    - [OrderedMap]: ordered association lists for [std::map].  [Transaction]: the transactions
      of the compiler's runtime and the intern table ([transaction.{h,cc}], [intern_table.cc],
      [mirror/object-inl.h], [mirror/array-inl.h]).
    - [ParallelMove]: locations and the parallel move resolver
      ([compiler/optimizing/locations.h], [parallel_move_resolver.cc], [nodes.h]), with the
      meaning of the moves and swaps it emits.

    - [Arrays]: arrays indexed by machine integers.  [HashSet]: [base/hash_set.h].
      [IndirectReferenceTable]: [indirect_reference_table.{h,cc}] and the local reference frames
      of [jni_env_ext.cc].
    - [LockWord]: [lock_word.h].  [Monitor]: the lock of one object under any number of threads
      ([monitor.cc], [Object::IdentityHashCode] of [mirror/object.cc], [SuspendThreadByThreadId]
      of [thread_list.cc]), a labelled transition system whose steps are the code's atomic
      actions.  [MonitorInvariant], [MonitorFacts]: its specification, invariant and properties.

    The state of a component is a record whose fields carry the names of the C++ members;
    operations take and return it.  [None] is undefined or aborting behaviour: a read or store
    outside a buffer, [LOG(FATAL)], fuel that has run out.  Failures that the code handles are
    values (an option inside the result, a pending exception, a negative offset).

    ** What is shown

    - Encodings: LEB128, class data items, modified UTF-8, instruction operands and catch
      handler lists are read back as they were written; sizes and bounds of the decoders.
    - The dex file verifier: on a mapped file of any content it ends without reading outside the
      file; the tables of an accepted file are sorted as the binary searches need, so each search
      finds what is there; the handler lists of an accepted code item can be decoded.
    - Debug info: the line number of a pc is the one of the last position before it.  The checks
      of member names and descriptors accept exactly the grammar that their comments give.
    - Searches: the binary searches over string, type, field and method tables, try items and
      sparse switches are exact on sorted tables.
    - The dump: what the output pass writes is a dex file in which the runtime's own readers
      find the collected members and code, and nothing else of the loaded file changes; every
      dex file is captured at most once however invocations nest (an invariant of the step
      relation of [Unpacker]); what the configuration selects.
    - The interpreter: frames stay well formed for executions of any length; control flow agrees
      with the flags of the instruction list; [int] and [long] arithmetic is Java's; floating
      conversions saturate and comparisons order; array accesses, switches, exception dispatch
      and the U-X check behave as specified; a call, and an invocation from compiled code, finds its arguments in its frame.
      The goto interpreter of GCC builds and the switch interpreter of clang builds run a
      preverified method to the same end.
    - Transactions: rolling back any sequence of recorded writes restores heap and intern table.
    - Parallel moves: for 32-bit moves the resolver terminates (fuel quadratic in the number of
      moves) and the emitted sequence has the effect of moves that happen at once.
    - Containers: a hash set is a multiset, and is read back from memory as written; JNI local
      references are a stack of maps, and stale references are recognised.
    - Monitors: every interleaving of the atomic actions is a run of a reentrant lock with
      waiting threads and an identity hash; the hash never changes; a free lock is obtained.
    - The method verifier's types: assignability of classes is the language's subtype order, joins
      are least, the cache keeps entries distinct, and merged and assigned types describe the
      registers.
    - The method verifier's checks: an instruction or return whose checks find nothing runs
      inside its frame, and the line describes the frame before and after; merged lines describe
      the frames of both paths; a method that passes the static checks is left or goes on at the
      start of an instruction.
    - Defects: level 2 writes the code from before the dump; level 3 adds nothing for classes
      that are found; the UTF-16 overload of [FindStringId] searches the wrong way;
      a rollback truncates float array elements, and moves of the collector are not followed by
      the references it would restore; a parallel move of register pairs that goes wrong;
      the U-X check of the goto interpreter never leaves the method; a hash set shrunk to its
      maximum load has no free slot; exiting a thin lock of a running thread aborts; the verifier
      compares too little of two prototypes and accepts files that its readers cannot walk;
      [DBG_SET_FILE] is not biased as the comment says; a register one past the frame is accepted
      for a local variable; a merge of an object under construction with [java.lang.Object] or an
      unresolved type is an ordinary reference; the ids of register types wrap at 16 bits.

    ** Fuel and bounds

    Loops of the code that are not structural take fuel: 5 bytes for LEB128, the size of the
    table and one more for binary searches, the number of members or the length of the data for
    walks; the theorems show that it is enough.  [Loop] takes the number of instructions to execute,
    since methods need not terminate; its theorems hold for every fuel and do not claim that a
    method returns.  The verifier's walks take the length of the file, and none of them runs out.
    Machine integers are integers with [u w] or [s w] where the code wraps;
    signed overflow that C++ leaves undefined is wrapped, as the compilers of the code do.
    [wf_rebuild] bounds a dex file by 2^31 bytes and its class definitions by 2^16.

    ** Not modelled

    Instrumentation, logging, suspension and the moving of references by the collector; the
    entry points of called methods, allocation, class loading and monitors (operations of the
    [Runtime] interface, which also stands for the heap that [Transaction] records);
    [build_ClassDataItem2], which has no definition (a parameter); concurrent use of the unpacker's globals, which have no lock; the
    compilers, the collectors, JDWP, JNI and the tools.
    Of the method verifier: the cases of fields, calls, casts and allocations, which resolve
    through the class linker, the line of the signature, and the sharpening of types after
    [instance-of].

    ** Plan

    Next: the remaining instruction cases of the method verifier; encoded static values
    and signatures of [dex_file.cc]; then bit vectors and reference tables. *)
From stdpp Require Export base tactics list gmap numbers strings.
From Stdlib Require Export ZArith Lia.
Local Open Scope Z_scope.

(** ** Fixed-width integers *)

(** [u w x] is the value of [x] stored in a [w]-bit unsigned C++ integer. *)
Definition u (w x : Z) : Z := x mod 2 ^ w.

(** [s w x] is the value of [x] stored in a [w]-bit two's complement integer. *)
Definition s (w x : Z) : Z := (x + 2 ^ (w - 1)) mod 2 ^ w - 2 ^ (w - 1).

Abbreviation u8 := (u 8).
Abbreviation u16 := (u 16).
Abbreviation u32 := (u 32).
Abbreviation u64 := (u 64).
Abbreviation s4 := (s 4).
Abbreviation s8 := (s 8).
Abbreviation s16 := (s 16).
Abbreviation s32 := (s 32).
Abbreviation s64 := (s 64).

(** Values that fit a [w]-bit unsigned or signed integer. *)
Definition is_u (w x : Z) : Prop := 0 <= x < 2 ^ w.
Definition is_s (w x : Z) : Prop := - 2 ^ (w - 1) <= x < 2 ^ (w - 1).

#[export] Instance is_u_dec w x : Decision (is_u w x) := _.
#[export] Instance is_s_dec w x : Decision (is_s w x) := _.

(** ** Tactics *)

(** [closed_nat] and [closed_Z] succeed on numerals and sums of numerals. *)
Ltac closed_nat n :=
  lazymatch n with O => idtac | S ?m => closed_nat m end.

Ltac closed_Z n :=
  lazymatch n with
  | Z0 => idtac
  | Zpos _ => idtac
  | ?a + ?b => closed_Z a; closed_Z b
  | ?a - ?b => closed_Z a; closed_Z b
  | Z.of_nat ?k => closed_nat k
  end.

Ltac eval_pow a n :=
  let _ := match goal with _ => closed_Z a; closed_Z n end in
  eval vm_compute in (a ^ n).

(** [reduce_pow] evaluates the closed powers that [u] and [s] produce. *)
Ltac reduce_pow :=
  repeat match goal with
  | |- context [?a ^ ?n] => let v := eval_pow a n in change (a ^ n) with v
  | H : context [?a ^ ?n] |- _ => let v := eval_pow a n in change (a ^ n) with v in H
  end.

(** [div_lia] is [lia] with division and modulo by constants unfolded. *)
Ltac div_lia := Z.div_mod_to_equations; lia.

(** [word_lia] solves linear goals about [u], [s], [is_u] and [is_s] at constant widths. *)
Ltac word_unfold := unfold u, s, is_u, is_s in *; reduce_pow.
Ltac word_lia := intros; word_unfold; div_lia.

(** [case_Zcmp] splits on one boolean comparison of integers in the goal. *)
Ltac case_Zcmp :=
  match goal with
  | |- context [?x =? ?y] => destruct (Z.eqb_spec x y)
  | |- context [?x <? ?y] => destruct (Z.ltb_spec x y)
  | |- context [?x <=? ?y] => destruct (Z.leb_spec x y)
  end.

(** [split_all] splits conjunctions componentwise. *)
Lemma insert_middle {A} (l k : list A) (x y : A) : <[length l := y]> (l ++ x :: k) = l ++ y :: k.
Proof. by rewrite insert_app_r_alt, Nat.sub_diag by lia. Qed.

(** [step_inv] takes apart the equation of a successful computation. *)
Ltac step_inv :=
  repeat match goal with
  | E : None = Some _ |- _ => discriminate E
  | E : (_ ≫= _) = Some _ |- _ => apply bind_Some in E; destruct E as (? & ? & E)
  | E : (let (_, _) := ?x in _) = Some _ |- _ => destruct x eqn:?
  | E : (match ?x with pair _ _ => _ end) = Some _ |- _ => destruct x eqn:?
  | E : (if ?b then _ else _) = Some _ |- _ => destruct b eqn:?
  end.

Ltac split_all := repeat match goal with |- _ /\ _ => split end.

Create HintDb word discriminated.
Create HintDb art discriminated.
Create Rewrite HintDb word.

(** ** Facts about [u] and [s] *)

Lemma u_range w x : 0 <= w -> is_u w (u w x).
Proof. intros Hw. unfold is_u, u. apply Z.mod_pos_bound. lia. Qed.

Lemma u_small w x : is_u w x -> u w x = x.
Proof. intros H. by apply Z.mod_small. Qed.

Lemma u_u w x : 0 <= w -> u w (u w x) = u w x.
Proof. intros. by apply u_small, u_range. Qed.

Lemma pow2_half w : 0 < w -> 2 ^ w = 2 * 2 ^ (w - 1).
Proof. intros. rewrite <- Z.pow_succ_r by lia. f_equal. lia. Qed.

Lemma s_range w x : 0 < w -> is_s w (s w x).
Proof.
  intros Hw. unfold is_s, s. pose proof (pow2_half w Hw).
  pose proof (Z.mod_pos_bound (x + 2 ^ (w - 1)) (2 ^ w)). lia.
Qed.

Lemma s_small w x : 0 < w -> is_s w x -> s w x = x.
Proof.
  intros Hw H. unfold is_s, s in *. pose proof (pow2_half w Hw).
  rewrite Z.mod_small; lia.
Qed.

Lemma u_s w x : 0 < w -> u w (s w x) = u w x.
Proof.
  intros Hw. unfold u, s.
  rewrite Zminus_mod_idemp_l. f_equal. lia.
Qed.

Lemma s_u w x : 0 < w -> s w (u w x) = s w x.
Proof.
  intros Hw. unfold u, s. by rewrite Zplus_mod_idemp_l.
Qed.

Lemma s_s w x : 0 < w -> s w (s w x) = s w x.
Proof. intros. by apply s_small, s_range. Qed.

(** Two integers are congruent modulo [2 ^ w] exactly when they are the same word. *)
Lemma u_eq_s_eq w x y : 0 < w -> u w x = u w y -> s w x = s w y.
Proof. intros Hw H. by rewrite <- (s_u w x), <- (s_u w y), H. Qed.

#[export] Hint Resolve u_range s_range : word.
#[export] Hint Rewrite u_u u_s s_u s_s using lia : word.

(** ** Bit operations as arithmetic *)

Lemma land_ones_mod x k : 0 <= k -> Z.land x (Z.ones k) = x mod 2 ^ k.
Proof. apply Z.land_ones. Qed.

Lemma land_127 x : Z.land x 127 = x mod 128.
Proof. apply (Z.land_ones x 7). lia. Qed.

Lemma land_255 x : Z.land x 255 = x mod 256.
Proof. apply (Z.land_ones x 8). lia. Qed.

Lemma land_15 x : Z.land x 15 = x mod 16.
Proof. apply (Z.land_ones x 4). lia. Qed.

Lemma land_31 x : Z.land x 31 = x mod 32.
Proof. apply (Z.land_ones x 5). lia. Qed.

Lemma land_63 x : Z.land x 63 = x mod 64.
Proof. apply (Z.land_ones x 6). lia. Qed.

Lemma land_1 x : Z.land x 1 = x mod 2.
Proof. apply (Z.land_ones x 1). lia. Qed.

Lemma land_low_shiftl a b k :
  0 <= k -> 0 <= a < 2 ^ k -> Z.land a (Z.shiftl b k) = 0.
Proof.
  intros Hk Ha. apply Z.bits_inj'. intros n Hn.
  rewrite Z.land_spec, Z.bits_0, Z.shiftl_spec by lia.
  destruct (Z.lt_ge_cases n k) as [Hlt|Hge].
  - rewrite (Z.testbit_neg_r b) by lia. apply andb_false_r.
  - rewrite <- (Z.mod_small a (2 ^ k)) by done.
    by rewrite Z.mod_pow2_bits_high by lia.
Qed.

(** The bitwise or of disjoint fields is their sum. *)
Lemma lor_low_shiftl a b k :
  0 <= k -> 0 <= a < 2 ^ k -> Z.lor a (Z.shiftl b k) = a + b * 2 ^ k.
Proof.
  intros Hk Ha. rewrite <- Z.lxor_lor by (by apply land_low_shiftl).
  rewrite <- Z.add_nocarry_lxor by (by apply land_low_shiftl).
  by rewrite Z.shiftl_mul_pow2.
Qed.

Lemma lor_low_mul a b k :
  0 <= k -> 0 <= a < 2 ^ k -> Z.lor a (b * 2 ^ k) = a + b * 2 ^ k.
Proof.
  intros Hk Ha. pose proof (lor_low_shiftl a b k Hk Ha) as E.
  by rewrite Z.shiftl_mul_pow2 in E.
Qed.

Lemma lor_128 x : 0 <= x < 128 -> Z.lor x 128 = x + 128.
Proof. intros. by apply (lor_low_mul x 1 7). Qed.

Lemma lor_1 x : Z.lor x 1 = 2 * (x / 2) + 1.
Proof.
  apply Z.bits_inj'. intros n Hn. rewrite Z.lor_spec.
  destruct (decide (n = 0)) as [->|].
  - rewrite Z.testbit_odd_0. simpl. apply orb_true_r.
  - replace n with (Z.succ (n - 1)) by lia.
    rewrite Z.testbit_odd_succ, Z.div2_bits by lia.
    replace (Z.testbit 1 _) with false by (symmetry; apply (Z.pow2_bits_false 0); lia).
    apply orb_false_r.
Qed.

(** A set of flags, [a | b | c]. *)
Definition or_flags (l : list Z) : Z := foldr Z.lor 0 l.

(** ** Byte streams *)

(** Reading through a [const uint8_t*]: [None] is a read past the end of the data. *)
Definition read_u8 (p : list Z) : option (Z * list Z) :=
  match p with
  | [] => None
  | b :: p' => Some (b, p')
  end.

Definition is_byte (b : Z) : Prop := 0 <= b < 256.

(** Little-endian fields of a packed structure. *)
Fixpoint le_bytes (n : nat) (v : Z) : list Z :=
  match n with
  | O => []
  | S n' => v mod 256 :: le_bytes n' (v / 256)
  end.

Fixpoint le_value (bs : list Z) : Z :=
  match bs with
  | [] => 0
  | b :: bs' => b + 256 * le_value bs'
  end.

Lemma length_le_bytes n v : length (le_bytes n v) = n.
Proof. revert v. induction n; simpl; auto. Qed.

Lemma le_value_le_bytes n v :
  0 <= v < 256 ^ Z.of_nat n -> le_value (le_bytes n v) = v.
Proof.
  revert v. induction n as [|n IH]; intros v; simpl le_bytes; simpl le_value.
  - simpl. lia.
  - intros Hv. rewrite Nat2Z.inj_succ, Z.pow_succ_r in Hv by lia.
    rewrite IH; [div_lia|]. split; [div_lia|].
    apply Z.div_lt_upper_bound; lia.
Qed.

(** ** Buffers

    A heap block is the list of its bytes.  A store outside the block is undefined
    behaviour in C++; here it is [None]. *)

Definition store (off : Z) (bs buf : list Z) : option (list Z) :=
  if (0 <=? off) && (off + Z.of_nat (length bs) <=? Z.of_nat (length buf))
  then let n := Z.to_nat off in
       Some (take n buf ++ bs ++ drop (n + length bs) buf)
  else None.

Definition load (off : Z) (n : nat) (buf : list Z) : list Z :=
  take n (drop (Z.to_nat off) buf).

(** A little-endian [n]-byte field of a buffer, read and written through a pointer. *)
Definition get_le (n : nat) (off : Z) (buf : list Z) : Z := le_value (load off n buf).
Definition put_le (n : nat) (off v : Z) (buf : list Z) : option (list Z) :=
  store off (le_bytes n v) buf.

Lemma le_value_range bs : Forall is_byte bs -> 0 <= le_value bs < 256 ^ Z.of_nat (length bs).
Proof.
  induction 1 as [|b bs Hb _ IH]; [done|]. cbn [le_value length].
  rewrite Nat2Z.inj_succ, Z.pow_succ_r by lia. unfold is_byte in Hb. lia.
Qed.

Lemma get_le_range n off buf :
  Forall is_byte buf -> 0 <= get_le n off buf < 256 ^ Z.of_nat n.
Proof.
  intros H. unfold get_le, load.
  destruct (le_value_range (take n (drop (Z.to_nat off) buf))) as [Hlo Hhi].
  { by apply Forall_take, Forall_drop. }
  split; [done|]. eapply Z.lt_le_trans; [exact Hhi|].
  apply Z.pow_le_mono_r; [lia|]. rewrite length_take. lia.
Qed.

(** [holds buf off bs]: the bytes [bs] are in the buffer from offset [off] on. *)
Definition holds (buf : list Z) (off : Z) (bs : list Z) : Prop :=
  0 <= off /\ off + Z.of_nat (length bs) <= Z.of_nat (length buf) /\
  load off (length bs) buf = bs.

Lemma store_inv off bs buf buf' :
  store off bs buf = Some buf' ->
  0 <= off /\ off + Z.of_nat (length bs) <= Z.of_nat (length buf) /\
  buf' = take (Z.to_nat off) buf ++ bs ++ drop (Z.to_nat off + length bs) buf.
Proof.
  unfold store. destruct (Z.leb_spec 0 off), (Z.leb_spec (off + Z.of_nat (length bs))
    (Z.of_nat (length buf))); simpl; intros E; simplify_eq; auto.
Qed.

Lemma store_some off bs buf :
  0 <= off -> off + Z.of_nat (length bs) <= Z.of_nat (length buf) ->
  is_Some (store off bs buf).
Proof. intros. unfold store. repeat case_Zcmp; simpl; try lia. by eexists. Qed.

Lemma store_length off bs buf buf' :
  store off bs buf = Some buf' -> length buf' = length buf.
Proof.
  intros (H0 & H1 & ->)%store_inv. rewrite !length_app, length_take, length_drop. lia.
Qed.

Lemma store_lookup off bs buf buf' k :
  store off bs buf = Some buf' ->
  buf' !! k = if decide (off <= Z.of_nat k < off + Z.of_nat (length bs))
              then bs !! (k - Z.to_nat off)%nat else buf !! k.
Proof.
  intros (H0 & H1 & ->)%store_inv. case_decide.
  - rewrite lookup_app_r by (rewrite length_take; lia).
    rewrite length_take, lookup_app_l by lia. f_equal. lia.
  - destruct (decide (Z.of_nat k < off)).
    + rewrite lookup_app_l by (rewrite length_take; lia). by rewrite lookup_take_lt by lia.
    + rewrite lookup_app_r by (rewrite length_take; lia).
      rewrite length_take, lookup_app_r by lia. rewrite lookup_drop. f_equal. lia.
Qed.

Lemma store_outside off bs buf buf' k :
  store off bs buf = Some buf' ->
  Z.of_nat k < off \/ off + Z.of_nat (length bs) <= Z.of_nat k -> buf' !! k = buf !! k.
Proof. intros H Hk. rewrite (store_lookup _ _ _ _ k H), decide_False; [done|lia]. Qed.

Lemma load_lookup off n buf k :
  0 <= off -> load off n buf !! k = if decide (k < n)%nat then buf !! (Z.to_nat off + k)%nat else None.
Proof.
  intros H0. unfold load. case_decide.
  - by rewrite lookup_take_lt, lookup_drop.
  - by rewrite lookup_take_ge by lia.
Qed.

Lemma holds_store off bs buf buf' :
  store off bs buf = Some buf' -> holds buf' off bs.
Proof.
  intros H. pose proof (store_length _ _ _ _ H) as Hl. pose proof (store_inv _ _ _ _ H) as (?&?&_).
  unfold holds; split_all; [done|lia|]. apply list_eq. intros k. rewrite load_lookup by done.
  rewrite (store_lookup _ _ _ _ _ H). case_decide.
  - rewrite decide_True by lia. f_equal. lia.
  - symmetry. apply lookup_ge_None. lia.
Qed.

(** Loads that no byte of changed are unchanged. *)
Lemma load_ext off n buf buf' :
  0 <= off ->
  (forall k, off <= Z.of_nat k < off + Z.of_nat n -> buf' !! k = buf !! k) ->
  load off n buf' = load off n buf.
Proof.
  intros H0 Hk. apply list_eq. intros k. rewrite !load_lookup by done.
  case_decide; [|done]. apply Hk. lia.
Qed.

Lemma load_store_disjoint off n off' bs buf buf' :
  store off' bs buf = Some buf' -> 0 <= off ->
  off + Z.of_nat n <= off' \/ off' + Z.of_nat (length bs) <= off ->
  load off n buf' = load off n buf.
Proof.
  intros H H0 Hd. apply load_ext; [done|]. intros k Hk. eapply store_outside; [done|lia].
Qed.

Lemma holds_store_disjoint off bs off' bs' buf buf' :
  store off' bs' buf = Some buf' -> holds buf off bs ->
  off + Z.of_nat (length bs) <= off' \/ off' + Z.of_nat (length bs') <= off ->
  holds buf' off bs.
Proof.
  intros H (H0 & H1 & E) Hd. pose proof (store_length _ _ _ _ H). unfold holds; split_all; [done|lia|].
  by rewrite (load_store_disjoint off _ off' bs' buf).
Qed.

Lemma holds_drop buf off bs :
  holds buf off bs -> exists rest, drop (Z.to_nat off) buf = bs ++ rest.
Proof.
  intros (H0 & H1 & E). exists (drop (length bs) (drop (Z.to_nat off) buf)).
  rewrite <- E at 1. unfold load. symmetry. apply take_drop.
Qed.

(** A prefix, or an inner part, of what the buffer holds. *)
Lemma holds_part buf off a b c :
  holds buf off (a ++ b ++ c) -> holds buf (off + Z.of_nat (length a)) b.
Proof.
  intros (H0 & H1 & E). rewrite !length_app in *. unfold holds; split_all; [lia|lia|].
  unfold load in *. rewrite Z2Nat.inj_add, Nat2Z.id, <- drop_drop by lia.
  assert (E' : drop (length a) (take (length a + (length b + length c)) (drop (Z.to_nat off) buf))
               = b ++ c) by (by rewrite E, drop_app_length).
  rewrite <- take_drop_commute in E'.
  apply (f_equal (take (length b))) in E'.
  rewrite take_take, take_app_length in E'. rewrite <- E' at 2. f_equal. lia.
Qed.

Lemma get_put_le n off v buf buf' :
  put_le n off v buf = Some buf' -> 0 <= v < 256 ^ Z.of_nat n -> get_le n off buf' = v.
Proof.
  intros H Hv. pose proof (holds_store _ _ _ _ H) as (_ & _ & E).
  rewrite length_le_bytes in E. unfold get_le. by rewrite E, le_value_le_bytes.
Qed.

(** ** Finite checks

    A decidable fact about every value of a small range, by evaluation. *)

Definition all_below (n : Z) (P : Z -> bool) : bool := forallb P (seqZ 0 n).

Lemma all_below_spec n P : all_below n P = true -> forall x, 0 <= x < n -> P x = true.
Proof.
  intros H x Hx. unfold all_below in H. rewrite forallb_forall in H.
  apply H. apply list_elem_of_In, elem_of_seqZ. lia.
Qed.

(** [by_values n x] proves a boolean fact about [x], given [0 <= x < n], by trying every
    value. *)
Ltac by_values n x :=
  match goal with
  | H : 0 <= x < n |- _ =>
      revert x H; match goal with |- forall x, _ -> @?P x = true =>
        apply (all_below_spec n P); vm_compute; reflexivity end
  end.

(** [same_outside lo hi buf buf']: [buf'] differs from [buf] at most in the bytes
    [lo .. hi). *)
Definition same_outside (lo hi : Z) (buf buf' : list Z) : Prop :=
  length buf' = length buf /\
  forall k : nat, Z.of_nat k < lo \/ hi <= Z.of_nat k -> buf' !! k = buf !! k.

Lemma same_outside_refl lo hi buf : same_outside lo hi buf buf.
Proof. by split. Qed.

Lemma same_outside_trans lo hi a b c :
  same_outside lo hi a b -> same_outside lo hi b c -> same_outside lo hi a c.
Proof.
  intros [H1 H2] [H3 H4]. split; [congruence|]. intros k Hk. by rewrite H4, H2.
Qed.

Lemma same_outside_weaken lo hi lo' hi' a b :
  same_outside lo hi a b -> lo' <= lo -> hi <= hi' -> same_outside lo' hi' a b.
Proof. intros [H1 H2] ? ?. split; [done|]. intros k Hk. apply H2. lia. Qed.

Lemma store_same_outside off bs buf buf' :
  store off bs buf = Some buf' -> same_outside off (off + Z.of_nat (length bs)) buf buf'.
Proof.
  intros H. split; [by eapply store_length|]. intros k Hk. eapply store_outside; [done|lia].
Qed.

Lemma load_outside lo hi buf buf' off n :
  same_outside lo hi buf buf' -> 0 <= off ->
  off + Z.of_nat n <= lo \/ hi <= off -> load off n buf' = load off n buf.
Proof. intros [_ H] H0 Hd. apply load_ext; [done|]. intros k Hk. apply H. lia. Qed.

Lemma get_outside lo hi buf buf' off n :
  same_outside lo hi buf buf' -> 0 <= off ->
  off + Z.of_nat n <= lo \/ hi <= off -> get_le n off buf' = get_le n off buf.
Proof. intros. unfold get_le. by erewrite load_outside. Qed.

Lemma holds_outside lo hi buf buf' off bs :
  same_outside lo hi buf buf' -> holds buf off bs ->
  off + Z.of_nat (length bs) <= lo \/ hi <= off -> holds buf' off bs.
Proof.
  intros H (H0 & H1 & E) Hd. unfold holds. split_all; [done| |].
  - pose proof (proj1 H). lia.
  - by rewrite (load_outside lo hi buf).
Qed.

Lemma put_some n off v buf :
  0 <= off -> off + Z.of_nat n <= Z.of_nat (length buf) ->
  exists buf', put_le n off v buf = Some buf' /\
    same_outside off (off + Z.of_nat n) buf buf' /\
    (0 <= v < 256 ^ Z.of_nat n -> get_le n off buf' = v).
Proof.
  intros H0 H1. destruct (store_some off (le_bytes n v) buf) as [buf' E];
    [done|by rewrite length_le_bytes|].
  exists buf'. split_all; [done| |].
  - pose proof (store_same_outside _ _ _ _ E) as H. by rewrite length_le_bytes in H.
  - by apply (get_put_le n off v buf).
Qed.

(** Reading from the first [n] bytes of a buffer. *)
Lemma load_take n off k buf :
  0 <= off -> off + Z.of_nat k <= Z.of_nat n -> load off k (take n buf) = load off k buf.
Proof.
  intros H0 H1. apply list_eq. intros i. rewrite !load_lookup by done.
  case_decide; [|done]. rewrite lookup_take_lt by lia. done.
Qed.

Lemma holds_take n buf off bs :
  (n <= length buf)%nat -> holds buf off bs -> off + Z.of_nat (length bs) <= Z.of_nat n ->
  holds (take n buf) off bs.
Proof.
  intros Hn (H0 & H1 & E) H2. unfold holds. rewrite length_take.
  split_all; [done|lia|]. by rewrite load_take.
Qed.

(** Overwriting one byte. *)
Lemma store_byte pre x y post :
  store (Z.of_nat (length pre)) [y] (pre ++ x :: post) = Some (pre ++ y :: post).
Proof.
  unfold store. rewrite length_app. cbn [length].
  destruct (Z.leb_spec 0 (Z.of_nat (length pre))); [|lia].
  destruct (Z.leb_spec (Z.of_nat (length pre) + Z.of_nat 1)
    (Z.of_nat (length pre + S (length post)))); [|lia].
  cbn [andb]. rewrite Nat2Z.id, take_app_length.
  rewrite drop_app_ge by lia. by replace (length pre + 1 - length pre)%nat with 1%nat by lia.
Qed.
