(* ===== verification/OrderedMap.v ===== *)
(** [std::map] with integer (or pointer) keys: entries in the order of their keys, which is the
    order in which the code iterates over them. *)
From S2P Require Import Prelude.
From Stdlib Require Import Sorted.
Local Open Scope Z_scope.

Section OrderedMap.
Context {V : Type}.
Implicit Types (m : list (Z * V)) (k : Z) (v : V).

(** [m.find(k)]: [None] is [m.end()]. *)
Fixpoint om_find k m : option V :=
  match m with
  | [] => None
  | (k', v) :: m' => if k =? k' then Some v else om_find k m'
  end.

(** [m[k] = v]. *)
Fixpoint om_set k v m : list (Z * V) :=
  match m with
  | [] => [(k, v)]
  | (k', v') :: m' =>
      if k <? k' then (k, v) :: m
      else if k =? k' then (k, v) :: m' else (k', v') :: om_set k v m'
  end.

(** [m.insert(std::make_pair(k, v))]: an entry that exists stays. *)
Definition om_insert k v m : list (Z * V) :=
  match om_find k m with Some _ => m | None => om_set k v m end.

(** [m.erase(k)]. *)
Definition om_erase k m : list (Z * V) := filter (fun e => e.1 <> k) m.

Definition om_keys m : list Z := fst <$> m.

(** Keys in increasing order. *)
Definition om_ok m : Prop := StronglySorted Z.lt (om_keys m).

Lemma om_find_set k v m j :
  om_find j (om_set k v m) = if j =? k then Some v else om_find j m.
Proof.
  induction m as [|[k' v'] m IH]; cbn; [by destruct (j =? k)|].
  destruct (Z.ltb_spec k k'); cbn; [done|].
  destruct (Z.eqb_spec k k') as [->|]; cbn; [by destruct (j =? k')|].
  rewrite IH. destruct (Z.eqb_spec j k'), (Z.eqb_spec j k); congruence || done.
Qed.

Lemma om_find_insert k v m j :
  om_find j (om_insert k v m) =
    if j =? k then (match om_find k m with Some v' => Some v' | None => Some v end) else om_find j m.
Proof.
  unfold om_insert. destruct (om_find k m) eqn:E.
  - destruct (Z.eqb_spec j k) as [->|]; done.
  - rewrite om_find_set. by destruct (j =? k).
Qed.

Lemma om_find_erase k m j :
  om_find j (om_erase k m) = if j =? k then None else om_find j m.
Proof.
  unfold om_erase. induction m as [|[k' v'] m IH]; [by cbn; destruct (j =? k)|].
  rewrite filter_cons. case_decide as Hk; cbn [om_find fst] in *; rewrite IH.
  - destruct (Z.eqb_spec j k'), (Z.eqb_spec j k); congruence || done.
  - destruct (Z.eqb_spec j k'), (Z.eqb_spec j k); subst; done || lia || congruence.
Qed.

Lemma om_keys_set k v m x : x ∈ om_keys (om_set k v m) <-> x = k \/ x ∈ om_keys m.
Proof.
  unfold om_keys. induction m as [|[k' v'] m IH]; cbn; [set_solver|].
  destruct (k <? k'); cbn; [set_solver|].
  destruct (Z.eqb_spec k k') as [->|]; cbn; [set_solver|]. rewrite !elem_of_cons, IH. tauto.
Qed.

Lemma om_set_ok k v m : om_ok m -> om_ok (om_set k v m).
Proof.
  unfold om_ok. induction m as [|[k' v'] m IH]; cbn; intros H.
  { repeat constructor. }
  inversion H as [|? ? Hs HF]; subst. destruct (Z.ltb_spec k k'); cbn.
  - constructor; [done|]. constructor; [done|]. eapply Forall_impl; [exact HF|]. cbn. lia.
  - destruct (Z.eqb_spec k k') as [->|]; cbn; [done|]. constructor; [by apply IH|].
    apply Forall_forall. intros x Hx. apply om_keys_set in Hx as [->|Hx]; [lia|].
    rewrite Forall_forall in HF. by apply HF.
Qed.

Lemma om_insert_ok k v m : om_ok m -> om_ok (om_insert k v m).
Proof. unfold om_insert. destruct (om_find k m); [done|apply om_set_ok]. Qed.

Lemma om_keys_erase k m x : x ∈ om_keys (om_erase k m) <-> x <> k /\ x ∈ om_keys m.
Proof.
  unfold om_keys, om_erase. rewrite !list_elem_of_fmap. split.
  - intros ([y v] & -> & [H1 H2]%list_elem_of_filter). cbn in *. split; [done|]. by exists (y, v).
  - intros (H1 & [y v] & -> & H2). exists (y, v). split; [done|]. by apply list_elem_of_filter.
Qed.

Lemma om_erase_ok k m : om_ok m -> om_ok (om_erase k m).
Proof.
  unfold om_ok. induction m as [|[k' v'] m IH]; intros H; [done|].
  inversion H as [|? ? Hs HF]; subst. unfold om_erase. rewrite filter_cons.
  case_decide; [|by apply IH]. cbn [om_keys fmap list_fmap fst].
  constructor; [by apply IH|]. apply Forall_forall. intros x Hx.
  apply (om_keys_erase k m) in Hx as [_ Hx]. rewrite Forall_forall in HF. by apply HF.
Qed.

Lemma om_ok_nodup m : om_ok m -> NoDup (om_keys m).
Proof.
  unfold om_ok. induction (om_keys m) as [|k l IH]; intros H; [constructor|].
  inversion H as [|? ? Hs HF]; subst. constructor; [|by apply IH].
  intros Hin. rewrite Forall_forall in HF. apply HF in Hin. lia.
Qed.

Lemma om_find_keys k m : is_Some (om_find k m) <-> k ∈ om_keys m.
Proof.
  unfold om_keys. induction m as [|[k' v'] m IH]; cbn.
  - split; [by intros [? ?]|set_solver].
  - rewrite elem_of_cons. destruct (Z.eqb_spec k k'); [naive_solver|]. rewrite IH. naive_solver.
Qed.

Lemma om_find_in k v m : NoDup (om_keys m) -> (k, v) ∈ m -> om_find k m = Some v.
Proof.
  unfold om_keys. induction m as [|[k' v'] m IH]; cbn; [set_solver|].
  intros [Hk Hnd]%NoDup_cons. rewrite elem_of_cons. intros [E|Hin].
  - injection E as -> ->. by rewrite Z.eqb_refl.
  - destruct (Z.eqb_spec k k') as [->|]; [|by apply IH].
    exfalso. apply Hk. apply list_elem_of_fmap. by exists (k', v).
Qed.

Lemma om_find_some_in k v m : om_find k m = Some v -> (k, v) ∈ m.
Proof.
  induction m as [|[k' v'] m IH]; cbn; [done|]. destruct (Z.eqb_spec k k') as [->|].
  - intros [= ->]. set_solver.
  - intros E. apply elem_of_cons. right. by apply IH.
Qed.
End OrderedMap.
