(* ===== verification/Arrays.v ===== *)
(** * Arrays indexed by machine integers

    Reads and writes of [T* data] by an index that is a C++ integer: [None] is an access outside
    the array.  Used by the containers of [base/] and the reference tables. *)
From S2P Require Import Prelude.
Local Open Scope Z_scope.

Section Arrays.
Context {A : Type}.
Implicit Types (l : list A) (i j : Z) (x y : A).

Definition zlookup (l : list A) (i : Z) : option A :=
  if 0 <=? i then l !! Z.to_nat i else None.
Definition zset (l : list A) (i : Z) (x : A) : list A := <[Z.to_nat i := x]> l.
Definition zinsert (l : list A) (i : Z) (x : A) : option (list A) :=
  if (0 <=? i) && (i <? Z.of_nat (length l)) then Some (zset l i x) else None.

Lemma zlookup_range l i x : zlookup l i = Some x -> 0 <= i < Z.of_nat (length l).
Proof.
  unfold zlookup. destruct (Z.leb_spec 0 i); [|done].
  intros H1%lookup_lt_Some. lia.
Qed.

Lemma zlookup_some l i : 0 <= i < Z.of_nat (length l) -> exists x, zlookup l i = Some x.
Proof.
  intros Hi. unfold zlookup. rewrite (proj2 (Z.leb_le 0 i)) by lia.
  apply lookup_lt_is_Some. lia.
Qed.

Lemma zlookup_none l i : ~ 0 <= i < Z.of_nat (length l) -> zlookup l i = None.
Proof.
  intros Hi. unfold zlookup. destruct (Z.leb_spec 0 i); [|done].
  apply lookup_ge_None. lia.
Qed.

Lemma zlookup_nat l (n : nat) : zlookup l (Z.of_nat n) = l !! n.
Proof. unfold zlookup. by rewrite (proj2 (Z.leb_le _ _)), Nat2Z.id by lia. Qed.

Lemma zinsert_some l i x : 0 <= i < Z.of_nat (length l) -> zinsert l i x = Some (zset l i x).
Proof.
  intros Hi. unfold zinsert. by rewrite (proj2 (Z.leb_le 0 i)), (proj2 (Z.ltb_lt i _)) by lia.
Qed.

Lemma zinsert_inv l i x l' : zinsert l i x = Some l' ->
  0 <= i < Z.of_nat (length l) /\ l' = zset l i x.
Proof.
  unfold zinsert. destruct (Z.leb_spec 0 i), (Z.ltb_spec i (Z.of_nat (length l))); try done.
  by intros [= <-].
Qed.

Lemma length_zset l i x : length (zset l i x) = length l.
Proof. apply length_insert. Qed.

Lemma zlookup_zset l i j x : 0 <= i < Z.of_nat (length l) ->
  zlookup (zset l i x) j = if j =? i then Some x else zlookup l j.
Proof.
  intros Hi. unfold zlookup, zset. destruct (Z.eqb_spec j i) as [->|Hne].
  - rewrite (proj2 (Z.leb_le 0 i)) by lia. apply list_lookup_insert_eq. lia.
  - destruct (Z.leb_spec 0 j); [|done]. apply list_lookup_insert_ne. lia.
Qed.

Lemma zset_zset l i x y : zset (zset l i x) i y = zset l i y.
Proof. apply list_insert_insert_eq. Qed.

Lemma zset_id l i x : zlookup l i = Some x -> zset l i x = l.
Proof.
  unfold zlookup, zset. destruct (Z.leb_spec 0 i); [|done]. apply list_insert_id.
Qed.

Lemma zset_comm l i j x y : 0 <= i -> 0 <= j -> i <> j ->
  zset (zset l i x) j y = zset (zset l j y) i x.
Proof. intros. apply list_insert_insert_ne. lia. Qed.

Lemma zlookup_replicate n x i y : zlookup (replicate n x) i = Some y -> y = x.
Proof.
  unfold zlookup. destruct (Z.leb_spec 0 i); [|done].
  by intros [-> _]%lookup_replicate.
Qed.

Lemma zset_middle l k i x y : i = Z.of_nat (length l) -> zset (l ++ x :: k) i y = l ++ y :: k.
Proof. intros ->. unfold zset. rewrite Nat2Z.id. apply insert_middle. Qed.

Lemma zlookup_split l i x : zlookup l i = Some x ->
  exists l1 l2, l = l1 ++ x :: l2 /\ i = Z.of_nat (length l1).
Proof.
  intros Hx. pose proof (zlookup_range _ _ _ Hx). unfold zlookup in Hx.
  rewrite (proj2 (Z.leb_le 0 i)) in Hx by lia.
  apply list_elem_of_split_length in Hx as (l1 & l2 & -> & Hl). exists l1, l2. split; [done|lia].
Qed.

Lemma zlookup_ext (l l' : list A) : length l = length l' ->
  (forall i, 0 <= i < Z.of_nat (length l) -> zlookup l i = zlookup l' i) -> l = l'.
Proof.
  intros Hl He. apply list_eq. intros n.
  destruct (decide (n < length l)%nat).
  - rewrite <- !zlookup_nat. apply He. lia.
  - by rewrite !lookup_ge_None_2 by lia.
Qed.
End Arrays.
