(* ===== verification/HashSet.v ===== *)
(** * The hash set of the runtime ([base/hash_set.h])

    [art::HashSet]: open addressing with linear probing and erasure that shifts later elements
    back.  The element type with [IsEmpty], [MakeEmpty] and the hash function are parameters of
    the template and of this file.  [None] is undefined behaviour (an access outside [data_], a
    division by zero) or a loop that has run out of fuel; the theorems give the fuel that is
    enough. *)
From S2P Require Import Prelude Arrays.
From Stdlib Require Import Permutation.
Local Open Scope Z_scope.

(** ** Load factors

    Positive normal [double]s [mant * 2 ^ expo] with 53-bit [mant].  [to_size num den] is the [double] nearest to
    [num / den] (ties to even) converted to [size_t]; sizes below [2 ^ 53] are exact [double]s. *)
Record Double := mkDouble { mant : Z; expo : Z }.

Definition kDefaultMinLoadFactor : Double := mkDouble 4503599627370496 (-53).
Definition kDefaultMaxLoadFactor : Double := mkDouble 8106479329266893 (-53).
Definition kMinBuckets : Z := 1000.

Definition round_even (n d : Z) : Z :=
  let q := n / d in
  let r := n mod d in
  if 2 * r <? d then q
  else if d <? 2 * r then q + 1
  else if Z.even q then q else q + 1.

(** [num / den] with 53 significant bits: the quotient by [2 ^ e] lies in [2^52, 2^53). *)
Definition exponent_for (num den : Z) : Z :=
  let e := Z.log2 num - Z.log2 den - 53 in
  if (num * 2 ^ Z.max 0 (- e)) / (den * 2 ^ Z.max 0 e) <? 2 ^ 53 then e else e + 1.

Definition to_size (num den : Z) : Z :=
  if num =? 0 then 0
  else
    let e := exponent_for num den in
    let q := round_even (num * 2 ^ Z.max 0 (- e)) (den * 2 ^ Z.max 0 e) in
    q * 2 ^ Z.max 0 e / 2 ^ Z.max 0 (- e).

(** [static_cast<size_t>(size / factor)] and [static_cast<size_t>(size * factor)]. *)
Definition div_factor (size : Z) (d : Double) : Z :=
  to_size (size * 2 ^ Z.max 0 (- expo d)) (mant d * 2 ^ Z.max 0 (expo d)).
Definition mul_factor (size : Z) (d : Double) : Z :=
  to_size (size * mant d * 2 ^ Z.max 0 (expo d)) (2 ^ Z.max 0 (- expo d)).

(** ** The table *)

Record HashSet (T : Type) := mkHashSet {
  num_elements_ : Z;
  num_buckets_ : Z;
  elements_until_expand_ : Z;
  owns_data_ : bool;
  data_ : list T;   (* a null pointer is the empty list *)
  min_load_factor_ : Double;
  max_load_factor_ : Double;
}.
Arguments mkHashSet {T}.
Arguments num_elements_ {T}.
Arguments num_buckets_ {T}.
Arguments elements_until_expand_ {T}.
Arguments owns_data_ {T}.
Arguments data_ {T}.
Arguments min_load_factor_ {T}.
Arguments max_load_factor_ {T}.

Section HashSet.
Context {T : Type} (IsEmpty : T -> bool) (MakeEmpty : T) (hashfn_ : T -> Z).

Definition set_data (data : list T) (h : HashSet T) : HashSet T :=
  mkHashSet (num_elements_ h) (num_buckets_ h) (elements_until_expand_ h) (owns_data_ h) data
    (min_load_factor_ h) (max_load_factor_ h).
Definition set_counts (num_elements elements_until_expand : Z) (h : HashSet T) : HashSet T :=
  mkHashSet num_elements (num_buckets_ h) elements_until_expand (owns_data_ h) (data_ h)
    (min_load_factor_ h) (max_load_factor_ h).

Definition AllocateStorage (num_buckets : Z) (h : HashSet T) : HashSet T :=
  mkHashSet (num_elements_ h) num_buckets (elements_until_expand_ h) true
    (replicate (Z.to_nat num_buckets) MakeEmpty) (min_load_factor_ h) (max_load_factor_ h).

Definition DeallocateStorage (h : HashSet T) : HashSet T :=
  if num_buckets_ h =? 0 then h
  else mkHashSet (num_elements_ h) 0 (elements_until_expand_ h) false [] (min_load_factor_ h)
         (max_load_factor_ h).

Definition Clear (h : HashSet T) : HashSet T :=
  set_counts 0 0 (AllocateStorage 1 (DeallocateStorage h)).

(** The constructor [HashSet()]. *)
Definition HashSet_new : HashSet T :=
  Clear (mkHashSet 0 0 0 false [] kDefaultMinLoadFactor kDefaultMaxLoadFactor).

(** Copy assignment.  [data_] always holds [num_buckets_] elements. *)
Definition assign (other h : HashSet T) : HashSet T :=
  let h := AllocateStorage (num_buckets_ other) (DeallocateStorage h) in
  mkHashSet (num_elements_ other) (num_buckets_ h) (elements_until_expand_ other) (owns_data_ h)
    (data_ other) (min_load_factor_ other) (max_load_factor_ other).

Definition ElementForIndex (h : HashSet T) (index : Z) : option T := zlookup (data_ h) index.
Definition NumBuckets (h : HashSet T) : Z := num_buckets_ h.
Definition Size (h : HashSet T) : Z := num_elements_ h.
Definition Empty (h : HashSet T) : bool := Size h =? 0.

Definition IndexForHash (h : HashSet T) (hash : Z) : option Z :=
  if num_buckets_ h =? 0 then None else Some (hash mod num_buckets_ h).

Definition NextIndex (num_buckets index : Z) : Z :=
  if num_buckets <=? index + 1 then 0 else index + 1.

Definition IsFreeSlot (h : HashSet T) (index : Z) : option bool :=
  IsEmpty <$> ElementForIndex h index.

Fixpoint FirstAvailableSlot (fuel : nat) (h : HashSet T) (index : Z) : option Z :=
  match fuel with
  | O => None
  | S fuel' =>
      x ← ElementForIndex h index;
      if IsEmpty x then Some index else FirstAvailableSlot fuel' h (NextIndex (num_buckets_ h) index)
  end.

(** The loop of [FindIndex]; [pred_ slot] is [pred_(slot, element)]. *)
Fixpoint FindFrom (fuel : nat) (h : HashSet T) (pred_ : T -> bool) (index : Z) : option Z :=
  match fuel with
  | O => None
  | S fuel' =>
      slot ← ElementForIndex h index;
      if IsEmpty slot then Some (NumBuckets h)
      else if pred_ slot then Some index
      else FindFrom fuel' h pred_ (NextIndex (num_buckets_ h) index)
  end.

Definition FindIndex (fuel : nat) (h : HashSet T) (pred_ : T -> bool) (hash : Z) : option Z :=
  index ← IndexForHash h hash; FindFrom fuel h pred_ index.

(** The loop of [Resize] over the old data. *)
Fixpoint Reinsert (fuel : nat) (old_data : list T) (h : HashSet T) : option (HashSet T) :=
  match old_data with
  | [] => Some h
  | element :: old_data =>
      if IsEmpty element then Reinsert fuel old_data h
      else
        ideal ← IndexForHash h (hashfn_ element);
        index ← FirstAvailableSlot fuel h ideal;
        data ← zinsert (data_ h) index element;
        Reinsert fuel old_data (set_data data h)
  end.

Definition Resize (new_size : Z) (h : HashSet T) : option (HashSet T) :=
  Reinsert (Z.to_nat new_size) (data_ h) (AllocateStorage new_size h).

Definition Expand (h : HashSet T) : option (HashSet T) :=
  let min_index := div_factor (Size h) (min_load_factor_ h) in
  let min_index := if min_index <? kMinBuckets then kMinBuckets else min_index in
  h ← Resize min_index h;
  Some (set_counts (num_elements_ h) (mul_factor (NumBuckets h) (max_load_factor_ h)) h).

Definition ShrinkToMaximumLoad (h : HashSet T) : option (HashSet T) :=
  Resize (div_factor (Size h) (max_load_factor_ h)) h.

Definition InsertWithHash (element : T) (hash : Z) (h : HashSet T) : option (HashSet T) :=
  h ← (if elements_until_expand_ h <=? num_elements_ h then Expand h else Some h);
  ideal ← IndexForHash h hash;
  index ← FirstAvailableSlot (Z.to_nat (num_buckets_ h)) h ideal;
  data ← zinsert (data_ h) index element;
  Some (set_counts (num_elements_ h + 1) (elements_until_expand_ h) (set_data data h)).

Definition Insert (element : T) (h : HashSet T) : option (HashSet T) :=
  InsertWithHash element (hashfn_ element) h.

(** [NextNonEmptySlot] of the iterators: at least one step. *)
Fixpoint NextNonEmptySlot (fuel : nat) (index : Z) (h : HashSet T) : option Z :=
  match fuel with
  | O => None
  | S fuel' =>
      let index := index + 1 in
      if index <? NumBuckets h then
        free ← IsFreeSlot h index;
        if free : bool then NextNonEmptySlot fuel' index h else Some index
      else Some index
  end.

Definition begin (h : HashSet T) : option Z :=
  if num_buckets_ h =? 0 then Some 0
  else
    free ← IsFreeSlot h 0;
    if free : bool then NextNonEmptySlot (Z.to_nat (num_buckets_ h)) 0 h else Some 0.

Definition end_ (h : HashSet T) : Z := NumBuckets h.

(** The loop of [Erase]: the final data and [filled]. *)
Fixpoint EraseLoop (fuel : nat) (num_buckets : Z) (data : list T) (empty_index next_index : Z)
  (filled : bool) : option (list T * bool) :=
  match fuel with
  | O => None
  | S fuel' =>
      let next_index := NextIndex num_buckets next_index in
      next_element ← zlookup data next_index;
      if IsEmpty next_element then
        data ← zinsert data empty_index MakeEmpty;
        Some (data, filled)
      else
        let next_ideal_index := hashfn_ next_element mod num_buckets in
        let unwrapped_next_index :=
          if next_index <? empty_index then next_index + num_buckets else next_index in
        let unwrapped_next_ideal_index :=
          if next_ideal_index <? empty_index then next_ideal_index + num_buckets
          else next_ideal_index in
        if (unwrapped_next_ideal_index <=? empty_index)
           || (unwrapped_next_index <? unwrapped_next_ideal_index)
        then
          data ← zinsert data empty_index next_element;
          EraseLoop fuel' num_buckets data next_index next_index true
        else EraseLoop fuel' num_buckets data empty_index next_index filled
  end.

(** The set without the element at the iterator's index, and the iterator that is returned. *)
Definition Erase (index : Z) (h : HashSet T) : option (HashSet T * Z) :=
  '(data, filled) ←
    EraseLoop (Z.to_nat (num_buckets_ h)) (num_buckets_ h) (data_ h) index index false;
  let h := set_counts (num_elements_ h - 1) (elements_until_expand_ h) (set_data data h) in
  if filled : bool then Some (h, index)
  else
    next ← NextNonEmptySlot (Z.to_nat (num_buckets_ h)) index h;
    Some (h, next).

(** The distance of each element from its ideal slot. *)
Fixpoint ProbeDistance (h : HashSet T) (i : Z) (rest : list T) : Z :=
  match rest with
  | [] => 0
  | element :: rest =>
      let distance :=
        if IsEmpty element then 0
        else
          let ideal_location := hashfn_ element mod num_buckets_ h in
          if i <? ideal_location then i + NumBuckets h - ideal_location
          else i - ideal_location in
      distance + ProbeDistance h (i + 1) rest
  end.
Definition TotalProbeDistance (h : HashSet T) : Z := ProbeDistance h 0 (data_ h).

(** The loop of [Verify]; every element is taken out and looked for. *)
Fixpoint VerifyFrom (n : nat) (h : HashSet T) (i errors : Z) : option Z :=
  match n with
  | O => Some errors
  | S n' =>
      element ← ElementForIndex h i;
      if IsEmpty element then VerifyFrom n' h (i + 1) errors
      else
        ideal ← IndexForHash h (hashfn_ element);
        first_slot ← FirstAvailableSlot (Z.to_nat (num_buckets_ h))
          (set_data (zset (data_ h) i MakeEmpty) h) ideal;
        VerifyFrom n' h (i + 1) (if i =? first_slot then errors else errors + 1)
  end.
Definition Verify (h : HashSet T) : option Z := VerifyFrom (Z.to_nat (num_buckets_ h)) h 0 0.
End HashSet.

(** ** The serialized table

    [T] is copied byte for byte: [sizeof_T] bytes whose little-endian value is [to_bits].  [ptr]
    is the memory written to, if any. *)
Section Serialize.
Context {T : Type} (sizeof_T : nat) (to_bits : T -> Z) (of_bits : Z -> T).

(** The object representation of a normal positive [double]. *)
Definition double_bits (d : Double) : Z := (expo d + 1075) * 2 ^ 52 + (mant d - 2 ^ 52).
Definition double_of_bits (b : Z) : Double := mkDouble (2 ^ 52 + b mod 2 ^ 52) (b / 2 ^ 52 - 1075).

Definition WriteToBytes (ptr : option (list Z)) (offset : Z) (size : nat) (n : Z)
  : option (option (list Z) * Z) :=
  match ptr with
  | Some buf => buf ← put_le size offset n buf; Some (Some buf, offset + Z.of_nat size)
  | None => Some (None, offset + Z.of_nat size)
  end.

Definition ReadFromBytes (ptr : list Z) (offset : Z) (size : nat) : option (Z * Z) :=
  if (0 <=? offset) && (offset + Z.of_nat size <=? Z.of_nat (length ptr))
  then Some (get_le size offset ptr, offset + Z.of_nat size) else None.

Fixpoint WriteElements (ptr : option (list Z)) (offset : Z) (data : list T)
  : option (option (list Z) * Z) :=
  match data with
  | [] => Some (ptr, offset)
  | x :: data =>
      '(ptr, offset) ← WriteToBytes ptr offset sizeof_T (to_bits x);
      WriteElements ptr offset data
  end.

Definition WriteToMemory (ptr : option (list Z)) (h : HashSet T) : option (option (list Z) * Z) :=
  '(ptr, offset) ← WriteToBytes ptr 0 8 (u64 (num_elements_ h));
  '(ptr, offset) ← WriteToBytes ptr offset 8 (u64 (num_buckets_ h));
  '(ptr, offset) ← WriteToBytes ptr offset 8 (u64 (elements_until_expand_ h));
  '(ptr, offset) ← WriteToBytes ptr offset 8 (double_bits (min_load_factor_ h));
  '(ptr, offset) ← WriteToBytes ptr offset 8 (double_bits (max_load_factor_ h));
  WriteElements ptr offset (data_ h).

Fixpoint ReadElements (n : nat) (ptr : list Z) (offset : Z) : option (list T * Z) :=
  match n with
  | O => Some ([], offset)
  | S n' =>
      '(bits, offset) ← ReadFromBytes ptr offset sizeof_T;
      '(data, offset) ← ReadElements n' ptr offset;
      Some (of_bits bits :: data, offset)
  end.

(** The constructor from memory and [*read_count]; the elements are read now or, when
    [make_copy_of_data] is false, through the pointer later. *)
Definition HashSet_read (ptr : list Z) (make_copy_of_data : bool) : option (HashSet T * Z) :=
  '(num_elements, offset) ← ReadFromBytes ptr 0 8;
  '(num_buckets, offset) ← ReadFromBytes ptr offset 8;
  if negb (num_elements <=? num_buckets) then None
  else
    '(elements_until_expand, offset) ← ReadFromBytes ptr offset 8;
    '(min_load_factor, offset) ← ReadFromBytes ptr offset 8;
    '(max_load_factor, offset) ← ReadFromBytes ptr offset 8;
    '(data, offset) ← ReadElements (Z.to_nat num_buckets) ptr offset;
    Some (mkHashSet num_elements num_buckets elements_until_expand make_copy_of_data data
            (double_of_bits min_load_factor) (double_of_bits max_load_factor), offset).
End Serialize.

(** ** The rounding *)

Lemma round_even_error n d : 0 < d -> - d <= 2 * (n - d * round_even n d) <= d.
Proof.
  intros Hd. unfold round_even.
  pose proof (Z.div_mod n d ltac:(lia)). pose proof (Z.mod_pos_bound n d Hd).
  repeat case_match; lia.
Qed.

Lemma exponent_for_spec num den : 0 < num -> 0 < den ->
  let e := exponent_for num den in
  2 ^ 52 * (den * 2 ^ Z.max 0 e) <= num * 2 ^ Z.max 0 (- e).
Proof.
  intros Hn Hd. cbv zeta. unfold exponent_for. cbv zeta.
  set (k := Z.log2 num - Z.log2 den - 53).
  pose proof (Z.log2_spec num Hn) as [Hn1 _]. pose proof (Z.log2_spec den Hd) as [_ Hd1].
  pose proof (Z.log2_nonneg num). pose proof (Z.log2_nonneg den).
  rewrite Z.pow_succ_r in Hd1 by done.
  (* the quotient at [k] is above [2 ^ 52] *)
  assert (Hk : 2 ^ 52 * (den * 2 ^ Z.max 0 k) <= num * 2 ^ Z.max 0 (- k)).
  { destruct (Z.le_gt_cases 0 k) as [Hp|Hp].
    - rewrite (Z.max_r 0 k), (Z.max_l 0 (- k)), Z.mul_1_r by lia.
      assert (E : 2 ^ Z.log2 num = 2 ^ Z.log2 den * 2 ^ k * 2 ^ 53)
        by (rewrite <- !Z.pow_add_r by lia; f_equal; lia).
      pose proof (Z.pow_pos_nonneg 2 k ltac:(lia) Hp). nia.
    - rewrite (Z.max_l 0 k), (Z.max_r 0 (- k)), Z.mul_1_r by lia.
      assert (E : 2 ^ Z.log2 num * 2 ^ (- k) = 2 ^ Z.log2 den * 2 ^ 53)
        by (rewrite <- !Z.pow_add_r by lia; f_equal; lia).
      pose proof (Z.pow_pos_nonneg 2 (- k) ltac:(lia) ltac:(lia)). nia. }
  destruct (Z.ltb_spec (num * 2 ^ Z.max 0 (- k) / (den * 2 ^ Z.max 0 k)) (2 ^ 53)) as [|Hge]; [done|].
  assert (Hpos : 0 < den * 2 ^ Z.max 0 k) by (pose proof (Z.pow_pos_nonneg 2 (Z.max 0 k)); nia).
  pose proof (Z.mul_div_le (num * 2 ^ Z.max 0 (- k)) _ Hpos).
  destruct (Z.le_gt_cases 0 k) as [Hp|Hp].
  - rewrite (Z.max_r 0 (k + 1)), (Z.max_l 0 (- (k + 1))) by lia.
    rewrite (Z.max_r 0 k), (Z.max_l 0 (- k)) in * by lia. rewrite Z.pow_add_r by lia. nia.
  - rewrite (Z.max_l 0 (k + 1)), (Z.max_r 0 (- (k + 1))) by lia.
    rewrite (Z.max_l 0 k), (Z.max_r 0 (- k)) in * by lia.
    replace (- k) with (- (k + 1) + 1) in * by lia. rewrite Z.pow_add_r in * by lia. nia.
Qed.

(** The result of [to_size] is that of the exact quotient up to one part in [2 ^ 53]. *)
Lemma to_size_bounds num den : 0 < num -> 0 < den ->
  to_size num den * den * 2 ^ 53 <= num * (2 ^ 53 + 1) /\
  num * (2 ^ 53 - 1) < (to_size num den + 1) * den * 2 ^ 53.
Proof.
  intros Hn Hd. unfold to_size. rewrite (proj2 (Z.eqb_neq num 0)) by lia. cbv zeta.
  pose proof (exponent_for_spec num den Hn Hd) as Hq. cbv zeta in Hq.
  set (A := 2 ^ Z.max 0 (- exponent_for num den)) in *.
  set (B := 2 ^ Z.max 0 (exponent_for num den)) in *.
  assert (HA : 0 < A) by (apply Z.pow_pos_nonneg; lia).
  assert (HB : 0 < B) by (apply Z.pow_pos_nonneg; lia).
  pose proof (round_even_error (num * A) (den * B) ltac:(nia)) as He.
  set (q := round_even (num * A) (den * B)) in *.
  pose proof (Z.mul_div_le (q * B) A HA) as H1. pose proof (Z.mul_succ_div_gt (q * B) A HA) as H2.
  set (v := q * B / A) in *. clearbody A B q v.
  assert (E1 : 2 ^ 53 * (den * B * q) <= (num * A) * (2 ^ 53 + 1)) by lia.
  assert (E2 : (num * A) * (2 ^ 53 - 1) <= 2 ^ 53 * (den * B * q)) by lia.
  assert (F1 : A * (v * den * 2 ^ 53) <= 2 ^ 53 * (den * B * q)) by nia.
  assert (F2 : 2 ^ 53 * (den * B * q) < A * ((v + 1) * den * 2 ^ 53)) by nia.
  split; nia.
Qed.

(** An expanded table has room, and always a free slot. *)
Lemma expand_sizes size : 0 <= size < 2 ^ 52 ->
  let min_index := div_factor size kDefaultMinLoadFactor in
  let n := if min_index <? kMinBuckets then kMinBuckets else min_index in
  size < mul_factor n kDefaultMaxLoadFactor < n /\ size < n.
Proof.
  intros Hs. cbv zeta. set (d := div_factor size kDefaultMinLoadFactor).
  assert (Hd : 2 * size - 1 <= d).
  { destruct (decide (size = 0)) as [->|]; [unfold d; vm_compute; discriminate|].
    pose proof (to_size_bounds (size * 2 ^ 53) (4503599627370496 * 1) ltac:(lia) ltac:(lia)) as [_ Hb].
    change (to_size (size * 2 ^ 53) (4503599627370496 * 1)) with d in Hb. lia. }
  set (n := if d <? kMinBuckets then kMinBuckets else d).
  assert (Hn : 2 * size - 1 <= n /\ 1000 <= n).
  { unfold n, kMinBuckets. destruct (Z.ltb_spec d 1000); lia. }
  pose proof (to_size_bounds (n * 8106479329266893 * 1) (2 ^ 53) ltac:(lia) ltac:(lia)) as [H1 H2].
  change (to_size (n * 8106479329266893 * 1) (2 ^ 53)) with (mul_factor n kDefaultMaxLoadFactor) in *.
  set (v := mul_factor n kDefaultMaxLoadFactor) in *. clearbody v n d. lia.
Qed.

(** ** Probing

    [dist n a b] is the number of steps from slot [a] to slot [b]. *)
Definition dist (n a b : Z) : Z := if a <=? b then b - a else b - a + n.

Ltac dist_lia := unfold dist, NextIndex in *; repeat case_match; lia.

Lemma dist_next n i k : 0 <= i < n -> 0 <= k < n -> k <> i ->
  dist n (NextIndex n i) k = dist n i k - 1.
Proof. intros. dist_lia. Qed.

Lemma dist_range n i k : 0 <= i < n -> 0 <= k < n -> 0 <= dist n i k < n.
Proof. intros. dist_lia. Qed.

Lemma next_range n i : 0 <= i < n -> 0 <= NextIndex n i < n.
Proof. intros. dist_lia. Qed.

Section Probing.
Context {T : Type} (IsEmpty : T -> bool) (MakeEmpty : T) (hashfn_ : T -> Z).
Hypothesis MakeEmpty_empty : IsEmpty MakeEmpty = true.
Implicit Types (h : HashSet T) (data : list T) (n i k : Z) (x y : T).

Abbreviation free data i := (exists x, zlookup data i = Some x /\ IsEmpty x = true).
Abbreviation full data i := (exists x, zlookup data i = Some x /\ IsEmpty x = false).

(** The elements of the table, in the order of their slots. *)
Definition elements data : list T := filter (fun x => IsEmpty x = false) data.
#[local] Arguments elements : simpl never.

(** No free slot lies between the ideal slot of an element and its own. *)
Definition probe_ok n data : Prop :=
  forall i x, zlookup data i = Some x -> IsEmpty x = false ->
  forall k, 0 <= k < n -> dist n (hashfn_ x mod n) k < dist n (hashfn_ x mod n) i -> full data k.

(** The invariant of the class: a free slot always remains. *)
Record ok (h : HashSet T) : Prop := {
  ok_buckets : num_buckets_ h = Z.of_nat (length (data_ h));
  ok_elements : num_elements_ h = Z.of_nat (length (elements (data_ h)));
  ok_load : num_elements_ h <= elements_until_expand_ h < num_buckets_ h;
  ok_probe : probe_ok (num_buckets_ h) (data_ h);
  ok_factors : min_load_factor_ h = kDefaultMinLoadFactor /\
               max_load_factor_ h = kDefaultMaxLoadFactor;
}.

Lemma free_full data i : 0 <= i < Z.of_nat (length data) -> free data i \/ full data i.
Proof.
  intros [x Hx]%zlookup_some. destruct (IsEmpty x) eqn:E; eauto.
Qed.

Lemma not_free_full data i : free data i -> full data i -> False.
Proof. intros (x & Hx & Ex) (y & Hy & Ey). congruence. Qed.

Lemma free_slot data : (length (elements data) < length data)%nat ->
  exists i, 0 <= i < Z.of_nat (length data) /\ free data i.
Proof.
  induction data as [|x data IH]; cbn [length]; [lia|].
  unfold elements. rewrite filter_cons. fold (elements data). intros Hl.
  destruct (IsEmpty x) eqn:E.
  - exists 0. split; [lia|]. exists x. split; [done|exact E].
  - rewrite decide_True in Hl by done. cbn in Hl.
    destruct IH as (i & Hi & y & Hy & Ey); [lia|].
    exists (i + 1). split; [lia|]. exists y. split; [|done].
    unfold zlookup in *. rewrite (proj2 (Z.leb_le 0 i)) in Hy by lia.
    rewrite (proj2 (Z.leb_le 0 (i + 1))) by lia. by replace (Z.to_nat (i + 1)) with (S (Z.to_nat i)) by lia.
Qed.

Lemma elements_zset_full data i x : free data i -> IsEmpty x = false ->
  elements (zset data i x) ≡ₚ x :: elements data.
Proof.
  intros (y & (l1 & l2 & -> & ->)%zlookup_split & Ey) Ex. rewrite zset_middle by done.
  unfold elements. rewrite !filter_app, !filter_cons, decide_True, decide_False by congruence.
  by rewrite Permutation_middle.
Qed.

Lemma elements_zset_free data i y : zlookup data i = Some y -> IsEmpty y = false ->
  y :: elements (zset data i MakeEmpty) ≡ₚ elements data.
Proof.
  intros (l1 & l2 & -> & ->)%zlookup_split Ey. rewrite zset_middle by done.
  unfold elements. rewrite !filter_app, !filter_cons, decide_False, decide_True by congruence.
  by rewrite Permutation_middle.
Qed.

Lemma elements_full data x : x ∈ elements data <->
  IsEmpty x = false /\ exists i, zlookup data i = Some x.
Proof.
  unfold elements. rewrite list_elem_of_filter. apply and_iff_compat_l. split.
  - intros (n & Hn)%list_elem_of_lookup. exists (Z.of_nat n). by rewrite zlookup_nat.
  - intros (i & Hi). unfold zlookup in Hi. destruct (0 <=? i); [|done].
    by apply list_elem_of_lookup_2 in Hi.
Qed.

(** [FirstAvailableSlot] ends at the first free slot behind its start. *)
Lemma FirstAvailableSlot_spec fuel h i e :
  let n := num_buckets_ h in
  n = Z.of_nat (length (data_ h)) -> 0 <= i < n -> 0 <= e < n -> free (data_ h) e ->
  dist n i e < Z.of_nat fuel ->
  exists r, FirstAvailableSlot IsEmpty fuel h i = Some r /\ 0 <= r < n /\ free (data_ h) r /\
  forall k, 0 <= k < n -> dist n i k < dist n i r -> full (data_ h) k.
Proof.
  cbv zeta. set (n := num_buckets_ h). intros Hn.
  revert i. induction fuel as [|fuel IH]; intros i Hi He Hf Hd; [pose proof (dist_range n i e Hi He); lia|].
  cbn [FirstAvailableSlot]. unfold ElementForIndex.
  destruct (free_full (data_ h) i ltac:(lia)) as [(x & Hx & Ex)|(x & Hx & Ex)]; rewrite Hx; cbn;
    rewrite Ex.
  - exists i. split_all; [done|lia|lia|eauto|]. intros k Hk. pose proof (dist_range n i k Hi Hk). dist_lia.
  - assert (Hne : e <> i) by (intros ->; eapply not_free_full; eauto).
    pose proof (dist_next n i e Hi He Hne) as E.
    destruct (IH (NextIndex n i) (next_range n i Hi) He Hf ltac:(lia)) as (r & Hr & Hrn & Hrf & Hk).
    exists r. split_all; [done|lia|lia|done|]. intros k Hkn Hkd.
    destruct (decide (k = i)) as [->|Hki]; [eauto|].
    assert (Hri : r <> i) by (intros ->; eapply not_free_full; eauto).
    apply Hk; [done|]. rewrite !dist_next by done. lia.
Qed.

(** An element stored in the first free slot behind its ideal one. *)
Lemma probe_ok_put n data r x :
  n = Z.of_nat (length data) -> 0 < n -> probe_ok n data -> free data r -> IsEmpty x = false ->
  (forall k, 0 <= k < n -> dist n (hashfn_ x mod n) k < dist n (hashfn_ x mod n) r -> full data k) ->
  probe_ok n (zset data r x).
Proof.
  intros Hn Hpos Hok Hr Ex Hx.
  assert (Hrn : 0 <= r < n) by (destruct Hr as (? & ?%zlookup_range & _); lia).
  assert (Hfull : forall k, full data k -> full (zset data r x) k).
  { intros k (y & Hy & Ey). destruct (decide (k = r)) as [->|].
    - exfalso. eapply not_free_full; eauto.
    - exists y. rewrite zlookup_zset, (proj2 (Z.eqb_neq k r)) by (done || lia). done. }
  intros i y Hy Ey k Hk Hd. rewrite zlookup_zset in Hy by lia.
  destruct (Z.eqb_spec i r) as [->|].
  - injection Hy as <-. apply Hfull, Hx; done.
  - apply Hfull. eapply Hok; eauto.
Qed.

(** ** Insertion *)

Lemma place h x :
  let n := num_buckets_ h in
  n = Z.of_nat (length (data_ h)) -> probe_ok n (data_ h) ->
  (length (elements (data_ h)) < length (data_ h))%nat -> IsEmpty x = false ->
  exists r, IndexForHash h (hashfn_ x) = Some (hashfn_ x mod n) /\
    (forall fuel, n <= Z.of_nat fuel ->
       FirstAvailableSlot IsEmpty fuel h (hashfn_ x mod n) = Some r) /\
    zinsert (data_ h) r x = Some (zset (data_ h) r x) /\
    probe_ok n (zset (data_ h) r x) /\
    elements (zset (data_ h) r x) ≡ₚ x :: elements (data_ h).
Proof.
  cbv zeta. set (n := num_buckets_ h). intros Hn Hok Hl Ex.
  destruct (free_slot _ Hl) as (e & He & Hf).
  pose proof (Z.mod_pos_bound (hashfn_ x) n ltac:(lia)) as Ht.
  pose proof (dist_range n _ e Ht ltac:(lia)) as Hd.
  destruct (FirstAvailableSlot_spec (length (data_ h)) h _ e Hn Ht ltac:(fold n; lia) Hf ltac:(fold n; lia))
    as (r & _ & Hr & Hrf & Hk). fold n in Hr, Hk.
  exists r. split_all.
  - unfold IndexForHash. fold n. by rewrite (proj2 (Z.eqb_neq n 0)) by lia.
  - intros fuel Hfuel.
    destruct (FirstAvailableSlot_spec fuel h _ e Hn Ht ltac:(fold n; lia) Hf ltac:(fold n; lia))
      as (r' & -> & Hr' & Hrf' & Hk'). fold n in Hr', Hk'. f_equal.
    destruct (Z.lt_trichotomy (dist n (hashfn_ x mod n) r') (dist n (hashfn_ x mod n) r))
      as [Hlt|[Heq|Hlt]].
    + destruct (not_free_full _ r' Hrf' (Hk r' Hr' Hlt)).
    + dist_lia.
    + destruct (not_free_full _ r Hrf (Hk' r Hr Hlt)).
  - apply zinsert_some. lia.
  - by apply probe_ok_put; [|lia|..].
  - by apply elements_zset_full.
Qed.

Lemma Reinsert_spec old fuel h :
  let n := num_buckets_ h in
  n = Z.of_nat (length (data_ h)) -> probe_ok n (data_ h) -> n <= Z.of_nat fuel ->
  (length (elements old) + length (elements (data_ h)) <= length (data_ h))%nat ->
  exists data, Reinsert IsEmpty hashfn_ fuel old h = Some (set_data data h) /\
    length data = length (data_ h) /\ probe_ok n data /\
    elements data ≡ₚ elements old ++ elements (data_ h).
Proof.
  cbv zeta. revert h. induction old as [|x old IH]; intros h Hn Hok Hfuel Hl.
  - exists (data_ h). split_all; try done. by destruct h.
  - cbn [Reinsert]. unfold elements in *. rewrite filter_cons in *. destruct (IsEmpty x) eqn:Ex.
    + rewrite decide_False in * by done. by apply IH.
    + rewrite decide_True in * by done. cbn [length] in Hl.
      destruct (place h x Hn Hok ltac:(unfold elements; lia) Ex) as (r & E1 & E2 & E3 & Hok' & Hp).
      rewrite E1. cbn [mbind option_bind]. rewrite E2 by done. cbn [mbind option_bind].
      rewrite E3. cbn [mbind option_bind]. unfold elements in Hp. pose proof (Permutation_length Hp) as Hpl.
      cbn [length] in Hpl.
      destruct (IH (set_data (zset (data_ h) r x) h)) as (data & Hd & Hdl & Hdok & Hdp);
        cbn; rewrite ?length_zset; [done..|lia|].
      exists data. split_all.
      * rewrite Hd. by destruct h.
      * cbn in Hdl. by rewrite length_zset in Hdl.
      * done.
      * cbn in Hdp. rewrite Hdp, Hp. cbn. by rewrite Permutation_middle.
Qed.

Lemma probe_ok_empty n m : probe_ok n (replicate m MakeEmpty).
Proof. intros i x ->%zlookup_replicate. congruence. Qed.

Lemma elements_empty m : elements (replicate m MakeEmpty) = [].
Proof.
  unfold elements. induction m as [|m IH]; [done|]. cbn [replicate]. rewrite filter_cons.
  by rewrite decide_False by congruence.
Qed.

Lemma Resize_spec new_size h :
  (length (elements (data_ h)) <= Z.to_nat new_size)%nat -> 0 <= new_size ->
  exists data, Resize IsEmpty MakeEmpty hashfn_ new_size h =
      Some (set_data data (AllocateStorage MakeEmpty new_size h)) /\
    Z.of_nat (length data) = new_size /\ probe_ok new_size data /\
    elements data ≡ₚ elements (data_ h).
Proof.
  intros Hl Hpos. unfold Resize.
  destruct (Reinsert_spec (data_ h) (Z.to_nat new_size) (AllocateStorage MakeEmpty new_size h))
    as (data & Hr & Hdl & Hok & Hp); cbn; rewrite ?length_replicate, ?elements_empty; cbn; try lia.
  - apply probe_ok_empty.
  - exists data. cbn in *. rewrite length_replicate in Hdl. rewrite elements_empty, app_nil_r in Hp.
    split_all; try done. lia.
Qed.

Lemma ok_new : ok (HashSet_new MakeEmpty).
Proof.
  constructor; try done.
  - change (data_ _) with (replicate 1 MakeEmpty). by rewrite elements_empty.
  - apply (probe_ok_empty 1 1).
Qed.

Lemma ok_clear h : ok h -> ok (Clear MakeEmpty h) /\ elements (data_ (Clear MakeEmpty h)) = [].
Proof.
  intros H. split; [|apply (elements_empty 1)]. constructor; try done.
  - change (data_ _) with (replicate 1 MakeEmpty). by rewrite elements_empty.
  - apply (probe_ok_empty 1 1).
  - destruct H as [_ _ _ _ Hf]. unfold Clear, DeallocateStorage. destruct (num_buckets_ h =? 0); exact Hf.
Qed.

(** After the test for expansion there is room for one more. *)
Lemma Expand_spec h : ok h -> num_elements_ h < 2 ^ 52 ->
  exists h', Expand IsEmpty MakeEmpty hashfn_ h = Some h' /\ ok h' /\
    num_elements_ h' = num_elements_ h /\ num_elements_ h' < elements_until_expand_ h' /\
    elements (data_ h') ≡ₚ elements (data_ h).
Proof.
  intros [Hb He Hl Hp [Hmin Hmax]] Hs. unfold Expand, Size. rewrite Hmin.
  pose proof (expand_sizes (num_elements_ h) ltac:(lia)) as [Hv Hn]. cbv zeta in Hv, Hn.
  set (n := if div_factor (num_elements_ h) kDefaultMinLoadFactor <? kMinBuckets
            then kMinBuckets else _) in *.
  destruct (Resize_spec n h) as (data & -> & Hdl & Hok & Hpd); [lia..|].
  eexists. split; [reflexivity|]. unfold NumBuckets. cbn -[mul_factor]. rewrite Hmax.
  pose proof (Permutation_length Hpd). split_all; try done; [|lia].
  constructor; cbn -[mul_factor]; try done; lia.
Qed.

Lemma Insert_spec h x : ok h -> IsEmpty x = false -> num_elements_ h < 2 ^ 52 ->
  exists h', Insert IsEmpty MakeEmpty hashfn_ x h = Some h' /\ ok h' /\
    elements (data_ h') ≡ₚ x :: elements (data_ h).
Proof.
  intros Hok Ex Hs. unfold Insert, InsertWithHash.
  assert (exists h1, (if elements_until_expand_ h <=? num_elements_ h
      then Expand IsEmpty MakeEmpty hashfn_ h else Some h) = Some h1 /\ ok h1 /\
      num_elements_ h1 < elements_until_expand_ h1 /\
      elements (data_ h1) ≡ₚ elements (data_ h)) as (h1 & -> & Hok1 & Hroom & Hp1).
  { destruct (Z.leb_spec (elements_until_expand_ h) (num_elements_ h)).
    - destruct (Expand_spec h Hok Hs) as (h1 & ? & ? & ? & ? & ?). by exists h1.
    - by exists h. }
  destruct Hok1 as [Hb He Hl Hp Hf]. cbn [mbind option_bind].
  destruct (place h1 x Hb Hp ltac:(lia) Ex) as (r & E1 & E2 & E3 & Hok' & Hp').
  rewrite E1. cbn [mbind option_bind]. rewrite E2 by lia. cbn [mbind option_bind].
  rewrite E3. cbn [mbind option_bind]. eexists. split; [reflexivity|].
  pose proof (Permutation_length Hp') as Hpl. cbn [length] in Hpl. split.
  - constructor; cbn; rewrite ?length_zset; try done; lia.
  - cbn. by rewrite Hp', Hp1.
Qed.

(** ** Searching *)

Lemma FindFrom_spec fuel h pred_ i e :
  let n := num_buckets_ h in
  n = Z.of_nat (length (data_ h)) -> 0 <= i < n -> 0 <= e < n -> free (data_ h) e ->
  dist n i e < Z.of_nat fuel ->
  exists r, FindFrom IsEmpty fuel h pred_ i = Some r /\
  ((0 <= r < n /\ exists x, zlookup (data_ h) r = Some x /\ IsEmpty x = false /\ pred_ x = true) \/
   (r = n /\ exists e', 0 <= e' < n /\ free (data_ h) e' /\
    forall k x, 0 <= k < n -> dist n i k < dist n i e' -> zlookup (data_ h) k = Some x ->
      pred_ x = false)).
Proof.
  cbv zeta. set (n := num_buckets_ h). intros Hn.
  revert i. induction fuel as [|fuel IH]; intros i Hi He Hf Hd; [pose proof (dist_range n i e Hi He); lia|].
  cbn [FindFrom]. unfold ElementForIndex.
  destruct (free_full (data_ h) i ltac:(lia)) as [(x & Hx & Ex)|(x & Hx & Ex)]; rewrite Hx; cbn;
    rewrite Ex.
  - eexists. split; [reflexivity|]. right. split; [done|]. exists i. split_all; [lia|lia|eauto|].
    intros k y Hk. pose proof (dist_range n i k Hi Hk). dist_lia.
  - destruct (pred_ x) eqn:Ep.
    + exists i. split; [done|]. left. eauto.
    + assert (Hne : e <> i) by (intros ->; eapply not_free_full; eauto).
      pose proof (dist_next n i e Hi He Hne) as E.
      destruct (IH (NextIndex n i) (next_range n i Hi) He Hf ltac:(lia)) as (r & Hr & Hcase).
      exists r. split; [done|]. destruct Hcase as [|(-> & e' & He' & Hfe' & Hk)]; [by left|].
      right. split; [done|]. exists e'. split_all; [lia|lia|done|]. intros k y Hkn Hkd Hy.
      destruct (decide (k = i)) as [->|Hki]; [congruence|].
      assert (Hei : e' <> i) by (intros ->; eapply not_free_full; eauto).
      apply (Hk k); [done| |done]. rewrite !dist_next by done. lia.
Qed.

(** A key finds an equal element, or the end when there is none. *)
Lemma FindIndex_spec h (pred_ : T -> bool) hash : ok h ->
  (forall x, pred_ x = true -> hashfn_ x = hash) ->
  exists r, FindIndex IsEmpty (Z.to_nat (num_buckets_ h)) h pred_ hash = Some r /\
  ((0 <= r < end_ h /\ exists x, zlookup (data_ h) r = Some x /\ IsEmpty x = false /\ pred_ x = true) \/
   (r = end_ h /\ forall x, x ∈ elements (data_ h) -> pred_ x = false)).
Proof.
  intros [Hb He Hl Hp Hf] Hh. unfold FindIndex, IndexForHash, end_, NumBuckets.
  set (n := num_buckets_ h) in *.
  rewrite (proj2 (Z.eqb_neq n 0)) by lia. cbn [mbind option_bind].
  destruct (free_slot (data_ h) ltac:(lia)) as (e & Hen & Hfe).
  pose proof (Z.mod_pos_bound hash n ltac:(lia)) as Ht.
  pose proof (dist_range n _ e Ht ltac:(lia)) as Hd.
  destruct (FindFrom_spec (Z.to_nat n) h pred_ (hash mod n) e) as (r & Hr & Hcase);
    fold n; [lia|done|lia|done|lia|].
  exists r. split; [exact Hr|]. fold n in Hcase.
  destruct Hcase as [|(-> & e' & He' & Hfe' & Hk)]; [by left|].
  right. split; [done|]. intros x [Ex [i Hi]]%elements_full.
  destruct (pred_ x) eqn:Epx; [exfalso|done]. pose proof (zlookup_range _ _ _ Hi).
  rewrite <- (Hh x Epx) in *.
  destruct (Z.lt_trichotomy (dist n (hashfn_ x mod n) i) (dist n (hashfn_ x mod n) e'))
    as [Hlt|[Heq|Hlt]].
  - by rewrite (Hk i x) in Epx by (done || lia).
  - replace i with e' in Hi by dist_lia. eapply not_free_full; eauto.
  - exact (not_free_full _ e' Hfe' (Hp i x Hi Ex e' He' Hlt)).
Qed.

(** ** Erasure

    While [Erase] runs, slot [e] is the one that will become empty and [j] the last one looked
    at.  [logical data e] is the table as it will be. *)
Abbreviation logical data e := (zset data e MakeEmpty).

Definition passed n e j k : Prop := dist n e k <= dist n e j /\ k <> e.

Record erasing n data e j : Prop := {
  er_range : 0 <= e < n /\ 0 <= j < n;
  er_full : full data e;
  er_passed : forall k, 0 <= k < n -> passed n e j k -> full data k;
  er_probe : forall i y, zlookup (logical data e) i = Some y -> IsEmpty y = false ->
    forall k, 0 <= k < n -> dist n (hashfn_ y mod n) k < dist n (hashfn_ y mod n) i ->
    full (logical data e) k \/ (k = e /\ ~ passed n e j i);
}.

Lemma lookup_logical n data e k : n = Z.of_nat (length data) -> 0 <= e < n ->
  zlookup (logical data e) k = if k =? e then Some MakeEmpty else zlookup data k.
Proof. intros -> He. by apply zlookup_zset. Qed.

Lemma full_logical n data e k : n = Z.of_nat (length data) -> 0 <= e < n ->
  full (logical data e) k <-> full data k /\ k <> e.
Proof.
  intros Hn He. setoid_rewrite (lookup_logical n data e k Hn He).
  destruct (Z.eqb_spec k e) as [->|Hne].
  - split; [|by intros []]. intros (x & [= <-] & Ex). congruence.
  - split; [done|]. by intros [].
Qed.

Lemma erasing_start n data e : n = Z.of_nat (length data) -> probe_ok n data -> full data e ->
  erasing n data e e.
Proof.
  intros Hn Hok Hf. assert (He : 0 <= e < n) by (destruct Hf as (? & ?%zlookup_range & _); lia).
  constructor; [done|done| |].
  - intros k Hk [Hd Hne]. pose proof (dist_range n e k He Hk). dist_lia.
  - intros i y Hy Ey k Hk Hd. rewrite (lookup_logical n) in Hy by done.
    destruct (Z.eqb_spec i e) as [->|Hie]; [congruence|].
    destruct (decide (k = e)) as [->|Hke].
    + right. split; [done|]. intros [Hp _]. pose proof (zlookup_range _ _ _ Hy).
      pose proof (dist_range n e i He ltac:(lia)). dist_lia.
    + left. apply (full_logical n); [done..|]. split; [|done]. by apply (Hok i y).
Qed.

(** The loop ends at a free slot: no element needs slot [e]. *)
Lemma erasing_end n data e j : n = Z.of_nat (length data) -> erasing n data e j ->
  free data (NextIndex n j) -> probe_ok n (logical data e).
Proof.
  intros Hn [[He Hj] Hfe Hpass Hprobe] Hfree i y Hy Ey k Hk Hd.
  destruct (Hprobe i y Hy Ey k Hk Hd) as [|[-> Hnp]]; [done|exfalso].
  pose proof (next_range n j Hj) as Hj'.
  assert (Hne : NextIndex n j <> e) by (intros E; rewrite E in Hfree; exact (not_free_full _ _ Hfree Hfe)).
  assert (Hi : 0 <= i < n) by (pose proof (zlookup_range _ _ _ Hy); rewrite length_zset in *; lia).
  pose proof Hy as Hy'. rewrite (lookup_logical n) in Hy' by done.
  destruct (Z.eqb_spec i e) as [->|Hie]; [congruence|].
  assert (Hij : i <> NextIndex n j) by (intros ->; apply (not_free_full _ _ Hfree); eauto).
  pose proof (Z.mod_pos_bound (hashfn_ y) n ltac:(lia)) as Ht.
  set (t := hashfn_ y mod n) in *.
  destruct (Hprobe i y Hy Ey (NextIndex n j) Hj') as [Hfull|[E _]].
  - fold t. unfold passed in Hnp. clear - He Hj Hi Ht Hnp Hd Hij Hie Hne. dist_lia.
  - apply (full_logical n) in Hfull as [Hfull _]; [|done..]. exact (not_free_full _ _ Hfree Hfull).
  - done.
Qed.

(** An element whose ideal slot lies behind [e] stays where it is. *)
Lemma erasing_stay n data e j x : n = Z.of_nat (length data) -> erasing n data e j ->
  zlookup data (NextIndex n j) = Some x -> IsEmpty x = false -> NextIndex n j <> e ->
  0 < dist n e (hashfn_ x mod n) <= dist n e (NextIndex n j) ->
  erasing n data e (NextIndex n j).
Proof.
  intros Hn [[He Hj] Hfe Hpass Hprobe] Hx Ex Hne Ht.
  pose proof (next_range n j Hj) as Hj'.
  pose proof (Z.mod_pos_bound (hashfn_ x) n ltac:(lia)) as Hr.
  constructor; [done|done| |].
  - intros k Hk [Hd Hke]. destruct (decide (k = NextIndex n j)) as [->|Hkj]; [eauto|].
    apply Hpass; [done|]. split; [|done]. clear - He Hj Hk Hd Hkj Hne. dist_lia.
  - intros i y Hy Ey k Hk Hd. destruct (Hprobe i y Hy Ey k Hk Hd) as [|[-> Hnp]]; [by left|].
    right. split; [done|]. intros [Hp Hie].
    assert (Hi : 0 <= i < n) by (pose proof (zlookup_range _ _ _ Hy); rewrite length_zset in *; lia).
    destruct (decide (i = NextIndex n j)) as [->|Hij].
    + rewrite (lookup_logical n), (proj2 (Z.eqb_neq _ _) Hne), Hx in Hy by done.
      injection Hy as <-. clear - He Hj Hj' Hr Ht Hd Hne. dist_lia.
    + apply Hnp. split; [|done]. clear - He Hj Hi Hp Hij Hne. dist_lia.
Qed.

(** Any other element fills slot [e]. *)
Lemma erasing_move n data e j x : n = Z.of_nat (length data) -> erasing n data e j ->
  zlookup data (NextIndex n j) = Some x -> IsEmpty x = false -> NextIndex n j <> e ->
  ~ 0 < dist n e (hashfn_ x mod n) <= dist n e (NextIndex n j) ->
  erasing n (zset data e x) (NextIndex n j) (NextIndex n j).
Proof.
  intros Hn [[He Hj] Hfe Hpass Hprobe] Hx Ex Hne Ht.
  set (j' := NextIndex n j) in *. pose proof (next_range n j Hj) as Hj'. fold j' in Hj'.
  assert (Hn' : n = Z.of_nat (length (zset data e x))) by (by rewrite length_zset).
  pose proof (Z.mod_pos_bound (hashfn_ x) n ltac:(lia)) as Hr.
  assert (Hset : forall k, zlookup (zset data e x) k = if k =? e then Some x else zlookup data k)
    by (intros k; apply zlookup_zset; lia).
  assert (Hfull : forall k, k <> j' -> full (logical data e) k \/ k = e ->
    full (logical (zset data e x) j') k).
  { intros k Hkj Hk. apply (full_logical n); [done..|]. split; [|done]. rewrite Hset.
    destruct (Z.eqb_spec k e) as [->|Hke]; [eauto|].
    destruct Hk as [Hk|]; [|done]. by apply (full_logical n) in Hk as [Hk _]. }
  constructor; [done| | |].
  - rewrite Hset, (proj2 (Z.eqb_neq _ _) Hne). eauto.
  - intros k Hk [Hd Hkj]. exfalso. clear - Hk Hj' Hd Hkj. dist_lia.
  - intros i y Hy Ey k Hk Hd. rewrite (lookup_logical n), Hset in Hy by done.
    destruct (Z.eqb_spec i j') as [->|Hij]; [congruence|].
    assert (Hi : 0 <= i < n)
      by (destruct (Z.eqb_spec i e) as [->|]; [done|pose proof (zlookup_range _ _ _ Hy); lia]).
    assert (Hnp : ~ passed n j' j' i)
      by (intros [Hp _]; clear - Hp Hij Hj' Hi; dist_lia).
    destruct (decide (k = j')) as [->|Hkj]; [by right|]. left. apply Hfull; [done|].
    destruct (Z.eqb_spec i e) as [->|Hie].
    + injection Hy as <-.
      destruct (Hprobe j' x) with (k := k) as [|[-> _]]; try done; [| |by left|by right].
      * by rewrite (lookup_logical n), (proj2 (Z.eqb_neq _ _) Hne).
      * clear - He Hj' Hr Ht Hd Hne Hk. dist_lia.
    + destruct (Hprobe i y) with (k := k) as [|[-> _]]; try done; [|by left|by right].
      by rewrite (lookup_logical n), (proj2 (Z.eqb_neq _ _) Hie).
Qed.

(** The test of [Erase] on unwrapped indices. *)
Lemma unwrapped_test n e j t : 0 <= e < n -> 0 <= j < n -> 0 <= t < n -> j <> e ->
  ((if t <? e then t + n else t) <=? e) ||
    ((if j <? e then j + n else j) <? (if t <? e then t + n else t)) =
  negb (bool_decide (0 < dist n e t <= dist n e j)).
Proof.
  intros. unfold dist. case_bool_decide; cbn; repeat case_match; lia.
Qed.

Lemma EraseLoop_spec n f idx fuel data e j filled :
  n = Z.of_nat (length data) -> erasing n data e j -> free data f -> 0 <= f < n -> 0 <= idx < n ->
  dist n j f <= Z.of_nat fuel -> dist n idx j < dist n idx f ->
  (if filled : bool then full data idx /\ idx <> e else e = idx) ->
  exists data' filled', EraseLoop IsEmpty MakeEmpty hashfn_ fuel n data e j filled =
      Some (data', filled') /\
    length data' = length data /\ probe_ok n data' /\
    elements data' ≡ₚ elements (logical data e) /\
    (filled' = true -> full data' idx).
Proof.
  intros Hn. revert data e j filled Hn.
  induction fuel as [|fuel IH]; intros data e j filled Hn Her Hf Hfn Hidx Hfuel Hdist Hfill.
  all: pose proof (er_range _ _ _ _ Her) as [He Hj].
  { assert (f = j) as -> by (clear - Hfuel Hj Hfn; dist_lia). lia. }
  pose proof (next_range n j Hj) as Hj'. cbn [EraseLoop].
  set (j' := NextIndex n j) in *.
  destruct (free_full data j' ltac:(lia)) as [(x & Hx & Ex)|(x & Hx & Ex)]; rewrite Hx;
    cbn [mbind option_bind]; rewrite Ex.
  - rewrite zinsert_some by lia. cbn [mbind option_bind]. eexists _, _. split; [reflexivity|].
    split_all; [by rewrite length_zset|by apply (erasing_end n data e j); [..|exists x]|done|].
    intros ->. destruct Hfill as [(y & Hy & Ey) Hne]. exists y.
    by rewrite zlookup_zset, (proj2 (Z.eqb_neq _ _) Hne) by lia.
  - assert (Hne : j' <> e).
    { intros E. assert (passed n e j f) as Hp; [|by destruct (not_free_full _ _ Hf (er_passed _ _ _ _ Her f Hfn Hp))].
      assert (f <> e) by (intros ->; exact (not_free_full _ _ Hf (er_full _ _ _ _ Her))).
      split; [|done]. subst j'. clear - E He Hj Hfn H. dist_lia. }
    assert (Hjf : j' <> f) by (intros ->; destruct Hf as (z & Hz & Ez); congruence).
    assert (Hstep : dist n j' f <= Z.of_nat fuel /\ dist n idx j' < dist n idx f /\ j' <> idx)
      by (subst j'; clear - Hj Hfn Hidx Hfuel Hdist Hjf; dist_lia).
    destruct Hstep as (Hs1 & Hs2 & Hs3).
    pose proof (Z.mod_pos_bound (hashfn_ x) n ltac:(lia)) as Ht.
    rewrite unwrapped_test by done. case_bool_decide as Hb; cbn [negb].
    + apply IH; try done. by apply (erasing_stay n data e j x).
    + rewrite zinsert_some by lia. cbn [mbind option_bind].
      destruct (IH (zset data e x) j' j' true) as (data' & filled' & -> & Hl & Hok & Hp & Hfl);
        rewrite ?length_zset; try done.
      * by apply (erasing_move n data e j x).
      * destruct Hf as (z & Hz & Ez). exists z. rewrite zlookup_zset by lia.
        assert (f <> e) as ->%Z.eqb_neq; [|done].
        intros ->. destruct (er_full _ _ _ _ Her) as (z' & Hz' & Ez'). congruence.
      * split; [|done]. rewrite zlookup_zset by lia.
        destruct (Z.eqb_spec idx e); [eauto|]. destruct filled; [apply Hfill|congruence].
      * exists data', filled'. split_all; [done|by rewrite Hl, length_zset|done| |done].
        rewrite Hp. pose proof (er_full _ _ _ _ Her) as (y & Hy & Ey).
        assert (E1 : x :: elements (logical (zset data e x) j') ≡ₚ elements (zset data e x)).
        { apply elements_zset_free; [|done].
          by rewrite zlookup_zset, (proj2 (Z.eqb_neq _ _) Hne) by lia. }
        assert (E2 : elements (zset (logical data e) e x) ≡ₚ x :: elements (logical data e)).
        { apply elements_zset_full; [|done]. exists MakeEmpty.
          by rewrite zlookup_zset, Z.eqb_refl by lia. }
        rewrite zset_zset in E2. rewrite E2 in E1. by apply Permutation_cons_inv in E1.
Qed.

Lemma NextNonEmptySlot_spec fuel h i :
  num_buckets_ h = Z.of_nat (length (data_ h)) -> 0 <= i < num_buckets_ h ->
  num_buckets_ h - i <= Z.of_nat fuel ->
  exists r, NextNonEmptySlot IsEmpty fuel i h = Some r /\ i < r /\
    (r = end_ h \/ r < end_ h /\ full (data_ h) r) /\
    forall k, i < k < r -> free (data_ h) k.
Proof.
  intros Hn. revert i. induction fuel as [|fuel IH]; intros i Hi Hfuel; [lia|].
  cbn [NextNonEmptySlot]. unfold NumBuckets, end_, NumBuckets.
  destruct (Z.ltb_spec (i + 1) (num_buckets_ h)) as [Hlt|Hge].
  - unfold IsFreeSlot, ElementForIndex.
    destruct (free_full (data_ h) (i + 1) ltac:(lia)) as [(x & Hx & Ex)|(x & Hx & Ex)]; rewrite Hx;
      cbn [fmap option_fmap option_map mbind option_bind]; rewrite Ex.
    + destruct (IH (i + 1) ltac:(lia) ltac:(lia)) as (r & Hr & Hir & Hcase & Hk).
      exists r. split_all; [done|lia|done|]. intros k Hkr.
      destruct (decide (k = i + 1)) as [->|]; [eauto|apply Hk; lia].
    + exists (i + 1). split_all; [done|lia| |lia]. right. eauto.
  - exists (i + 1). split_all; [done|lia|left; lia|lia].
Qed.

(** [Erase] takes out the element at the iterator, and nothing else. *)
Lemma Erase_spec h i x : ok h -> zlookup (data_ h) i = Some x -> IsEmpty x = false ->
  exists h' it, Erase IsEmpty MakeEmpty hashfn_ i h = Some (h', it) /\ ok h' /\
    x :: elements (data_ h') ≡ₚ elements (data_ h) /\
    (it = end_ h' \/ it < end_ h' /\ full (data_ h') it).
Proof.
  intros [Hb He Hl Hp Hf] Hx Ex. set (n := num_buckets_ h) in *.
  pose proof (zlookup_range _ _ _ Hx) as Hi.
  destruct (free_slot (data_ h) ltac:(lia)) as (f & Hfn & Hff).
  assert (Hfi : f <> i) by (intros ->; apply (not_free_full _ _ Hff); eauto).
  destruct (EraseLoop_spec n f i (Z.to_nat n) (data_ h) i i false)
    as (data & filled & Hloop & Hdl & Hok & Hpd & Hfill); try done; try lia.
  - apply erasing_start; eauto.
  - pose proof (dist_range n i f ltac:(lia) ltac:(lia)). lia.
  - clear - Hi Hfn Hfi Hb. dist_lia.
  - pose proof (elements_zset_free (data_ h) i x Hx Ex) as Hperm. rewrite <- Hpd in Hperm.
    pose proof (Permutation_length Hperm) as Hpl. cbn [length] in Hpl.
    set (h' := set_counts (num_elements_ h - 1) (elements_until_expand_ h) (set_data data h)).
    assert (Hok' : ok h') by (constructor; cbn; fold n; try done; lia).
    unfold Erase. fold n. rewrite Hloop. cbn [mbind option_bind]. fold h'. destruct filled.
    + exists h', i. split_all; try done. right. split; [cbn; lia|by apply Hfill].
    + destruct (NextNonEmptySlot_spec (Z.to_nat (num_buckets_ h')) h' i) as (r & -> & Hr & Hcase & _);
        cbn; fold n; [lia..|]. by exists h', r.
Qed.
End Probing.

(** ** Serialization *)

Lemma WriteToBytes_spec buf offset size n : 0 <= offset ->
  offset + Z.of_nat size <= Z.of_nat (length buf) ->
  exists buf', WriteToBytes (Some buf) offset size n = Some (Some buf', offset + Z.of_nat size) /\
    same_outside offset (offset + Z.of_nat size) buf buf' /\
    (0 <= n < 256 ^ Z.of_nat size ->
     ReadFromBytes buf' offset size = Some (n, offset + Z.of_nat size)).
Proof.
  intros H0 H1. destruct (put_some size offset n buf H0 H1) as (buf' & E & Hs & Hg).
  exists buf'. cbn [WriteToBytes]. rewrite E. split_all; [done|done|].
  intros Hn. unfold ReadFromBytes. rewrite (proj1 Hs), (Hg Hn).
  by rewrite (proj2 (Z.leb_le 0 _) H0), (proj2 (Z.leb_le _ _) H1).
Qed.

Lemma ReadFromBytes_outside lo hi buf buf' offset size : same_outside lo hi buf buf' ->
  offset + Z.of_nat size <= lo -> ReadFromBytes buf' offset size = ReadFromBytes buf offset size.
Proof.
  intros Hs Hlo. unfold ReadFromBytes. rewrite (proj1 Hs).
  destruct (Z.leb_spec 0 offset); [|done]. by rewrite (get_outside lo hi buf buf') by (done || lia).
Qed.

Section SerializeFacts.
Context {T : Type} (sizeof_T : nat) (to_bits : T -> Z) (of_bits : Z -> T).
Hypothesis bits_roundtrip : forall x, of_bits (to_bits x) = x.

Lemma ReadElements_outside lo hi buf buf' n offset : same_outside lo hi buf buf' ->
  offset + Z.of_nat n * Z.of_nat sizeof_T <= lo ->
  ReadElements sizeof_T of_bits n buf' offset = ReadElements sizeof_T of_bits n buf offset.
Proof.
  intros Hs. revert offset. induction n as [|n IH]; intros offset Hlo; [done|].
  cbn [ReadElements]. rewrite (ReadFromBytes_outside lo hi buf buf') by (done || lia).
  unfold ReadFromBytes. case_match; [|done]. cbn [mbind option_bind]. by rewrite IH by lia.
Qed.

Lemma WriteElements_spec data buf offset :
  (forall x, x ∈ data -> 0 <= to_bits x < 256 ^ Z.of_nat sizeof_T) -> 0 <= offset ->
  offset + Z.of_nat (length data) * Z.of_nat sizeof_T <= Z.of_nat (length buf) ->
  let last := offset + Z.of_nat (length data) * Z.of_nat sizeof_T in
  exists buf', WriteElements sizeof_T to_bits (Some buf) offset data = Some (Some buf', last) /\
    same_outside offset last buf buf' /\
    ReadElements sizeof_T of_bits (length data) buf' offset = Some (data, last).
Proof.
  revert buf offset. induction data as [|x data IH]; intros buf offset Hx H0 H1; cbv zeta in *.
  - exists buf. cbn. rewrite Z.add_0_r. split_all; [done|apply same_outside_refl|done].
  - cbn [length] in *.
    destruct (WriteToBytes_spec buf offset sizeof_T (to_bits x)) as (buf1 & E1 & S1 & R1); [lia|lia|].
    destruct (IH buf1 (offset + Z.of_nat sizeof_T)) as (buf2 & E2 & S2 & R2);
      [intros; apply Hx; by right|lia|rewrite (proj1 S1); lia|].
    exists buf2. cbn [WriteElements ReadElements]. rewrite E1. cbn [mbind option_bind].
    replace (offset + Z.of_nat (S (length data)) * Z.of_nat sizeof_T)
      with (offset + Z.of_nat sizeof_T + Z.of_nat (length data) * Z.of_nat sizeof_T) by lia.
    split_all; [done| |].
    + eapply same_outside_trans; eapply same_outside_weaken; eassumption || lia.
    + rewrite (ReadFromBytes_outside _ _ _ _ _ _ S2), R1 by ((apply Hx; by left) || lia).
      cbn [mbind option_bind]. rewrite R2. cbn [mbind option_bind]. by rewrite bits_roundtrip.
Qed.

Lemma WriteElements_size data offset :
  WriteElements sizeof_T to_bits None offset data =
  Some (None, offset + Z.of_nat (length data) * Z.of_nat sizeof_T).
Proof.
  revert offset. induction data as [|x data IH]; intros offset; cbn [WriteElements WriteToBytes mbind option_bind length].
  - do 2 f_equal. lia.
  - rewrite IH. do 2 f_equal. lia.
Qed.
End SerializeFacts.

(** ** The set as its users see it *)
Section Client.
Context {T : Type} `{!EqDecision T} (IsEmpty : T -> bool) (MakeEmpty : T) (hashfn_ : T -> Z).

(** [Insert(x)]; [it = Find(x)] and [Erase(it)] unless [it] is [end()]; [Clear()]. *)
Inductive Op := OpInsert (x : T) | OpErase (x : T) | OpClear.

Definition Find (x : T) (h : HashSet T) : option Z :=
  FindIndex IsEmpty (Z.to_nat (num_buckets_ h)) h (fun slot => bool_decide (slot = x)) (hashfn_ x).

Definition apply_op (op : Op) (h : HashSet T) : option (HashSet T) :=
  match op with
  | OpInsert x => Insert IsEmpty MakeEmpty hashfn_ x h
  | OpErase x =>
      it ← Find x h;
      if it =? end_ h then Some h
      else '(h, _) ← Erase IsEmpty MakeEmpty hashfn_ it h; Some h
  | OpClear => Some (Clear MakeEmpty h)
  end.

Definition run (ops : list Op) (h : HashSet T) : option (HashSet T) :=
  foldl (fun r op => h ← r; apply_op op h) (Some h) ops.

(** The specification: a list without order. *)
Fixpoint remove_one (x : T) (l : list T) : list T :=
  match l with
  | [] => []
  | y :: l => if decide (y = x) then l else y :: remove_one x l
  end.

Definition spec_op (l : list T) (op : Op) : list T :=
  match op with OpInsert x => x :: l | OpErase x => remove_one x l | OpClear => [] end.

Definition inserts_element (op : Op) : Prop :=
  match op with OpInsert x => IsEmpty x = false | _ => True end.

Lemma remove_one_not_in x l : x ∉ l -> remove_one x l = l.
Proof.
  induction l as [|y l IH]; [done|]. intros [Hne Hl]%not_elem_of_cons. cbn.
  rewrite decide_False by congruence. by rewrite IH.
Qed.

Lemma remove_one_permutation x l : x ∈ l -> x :: remove_one x l ≡ₚ l.
Proof.
  induction l as [|y l IH]; [by intros ?%elem_of_nil|]. intros [->|Hl]%elem_of_cons; cbn.
  - by rewrite decide_True.
  - case_decide; [by subst|]. by rewrite Permutation_swap, IH.
Qed.

Lemma length_remove_one x l : (length (remove_one x l) <= length l)%nat.
Proof. induction l as [|y l IH]; cbn; [lia|]. case_decide; cbn; lia. Qed.

Hypothesis MakeEmpty_empty : IsEmpty MakeEmpty = true.
Abbreviation elems h := (elements IsEmpty (data_ h)).
Abbreviation set_ok := (ok IsEmpty hashfn_).

Lemma Find_spec x h : set_ok h ->
  exists it, Find x h = Some it /\
  ((0 <= it < end_ h /\ zlookup (data_ h) it = Some x /\ IsEmpty x = false) \/
   (it = end_ h /\ x ∉ elems h)).
Proof.
  intros Hok. unfold Find.
  destruct (FindIndex_spec IsEmpty MakeEmpty hashfn_ MakeEmpty_empty h
    (fun slot => bool_decide (slot = x)) (hashfn_ x) Hok)
    as (it & -> & Hcase); [by intros y ->%bool_decide_eq_true|].
  exists it. split; [done|]. destruct Hcase as [(Hr & y & Hy & Ey & ->%bool_decide_eq_true)|[-> Hn]].
  - by left.
  - right. split; [done|]. intros Hx. specialize (Hn x Hx). by rewrite bool_decide_true in Hn.
Qed.

Lemma apply_op_spec op h l : set_ok h -> elems h ≡ₚ l -> inserts_element op ->
  Z.of_nat (length l) < 2 ^ 52 ->
  exists h', apply_op op h = Some h' /\ set_ok h' /\ elems h' ≡ₚ spec_op l op.
Proof.
  intros Hok Hp Hin Hs. destruct op as [x|x|]; cbn [apply_op spec_op].
  - pose proof (ok_elements _ _ _ Hok) as He. rewrite Hp in He.
    destruct (Insert_spec IsEmpty MakeEmpty hashfn_ MakeEmpty_empty h x Hok Hin ltac:(lia))
      as (h' & ? & ? & Hp'). exists h'. by rewrite Hp', Hp.
  - destruct (Find_spec x h Hok) as (it & -> & [(Hit & Hx & Ex)|[-> Hn]]); cbn [mbind option_bind].
    + rewrite (proj2 (Z.eqb_neq it (end_ h))) by lia.
      destruct (Erase_spec IsEmpty MakeEmpty hashfn_ MakeEmpty_empty h it x Hok Hx Ex)
        as (h' & it' & -> & Hok' & Hp' & _). exists h'. split_all; [done..|].
      assert (Hxl : x ∈ l) by (rewrite <- Hp; apply elements_full; eauto).
      apply (Permutation_cons_inv (a := x)). by rewrite Hp', remove_one_permutation.
    + rewrite Z.eqb_refl. exists h. split_all; [done..|].
      rewrite remove_one_not_in; [done|]. by rewrite <- Hp.
  - destruct (ok_clear IsEmpty MakeEmpty hashfn_ MakeEmpty_empty h Hok) as [? E].
    exists (Clear MakeEmpty h). by rewrite E.
Qed.

Lemma run_spec ops h l : set_ok h -> elems h ≡ₚ l -> Forall inserts_element ops ->
  Z.of_nat (length l + length ops) <= 2 ^ 52 ->
  exists h', run ops h = Some h' /\ set_ok h' /\ elems h' ≡ₚ foldl spec_op l ops.
Proof.
  revert h l. induction ops as [|op ops IH]; intros h l Hok Hp HF Hs; [by exists h|].
  apply Forall_cons in HF as [Hop HF]. cbn [length] in Hs.
  destruct (apply_op_spec op h l Hok Hp Hop ltac:(lia)) as (h' & E & Hok' & Hp').
  unfold run. cbn [foldl mbind option_bind]. rewrite E. apply IH; try done.
  destruct op as [x|x|]; cbn [spec_op length]; [lia| |lia].
  pose proof (length_remove_one x l). lia.
Qed.
End Client.

(** ** Properties *)

(** C24: a hash set is a multiset.  After any sequence of insertions, erasures and clearings of a
    new set, every loop of which ends, the table holds exactly the elements that the operations
    leave, [Size] counts them, [Find] answers [end()] exactly for the values that are not among
    them, and the invariant (a free slot, no free slot between an element and its ideal slot)
    holds. *)
Theorem refines_multiset {T : Type} `{!EqDecision T} (IsEmpty : T -> bool) (MakeEmpty : T)
  (hashfn_ : T -> Z) (ops : list (Op (T := T)))
  (Hempty : IsEmpty MakeEmpty = true) (Hops : Forall (inserts_element IsEmpty) ops)
  (Hlen : Z.of_nat (length ops) <= 2 ^ 52) :
  exists h, run IsEmpty MakeEmpty hashfn_ ops (HashSet_new MakeEmpty) = Some h /\
    ok IsEmpty hashfn_ h /\
    elements IsEmpty (data_ h) ≡ₚ foldl spec_op [] ops /\
    Size h = Z.of_nat (length (foldl spec_op [] ops)) /\
    forall x, exists it, Find IsEmpty hashfn_ x h = Some it /\
      (it = end_ h <-> x ∉ foldl spec_op [] ops).
Proof.
  destruct (run_spec IsEmpty MakeEmpty hashfn_ Hempty ops (HashSet_new MakeEmpty) [])
    as (h & Hr & Hok & Hp); [by apply ok_new|by apply Permutation_refl'; apply (elements_empty _ _ Hempty 1)|done|done|].
  exists h. split_all; [done..| |].
  - unfold Size. rewrite (ok_elements _ _ _ Hok). by rewrite Hp.
  - intros x. destruct (Find_spec IsEmpty MakeEmpty hashfn_ Hempty x h Hok) as (it & -> & Hcase).
    exists it. split; [done|]. destruct Hcase as [(Hit & Hx & Ex)|[-> Hn]].
    + split; [lia|]. intros Hn. destruct Hn. rewrite <- Hp. apply elements_full. eauto.
    + by rewrite Hp in Hn.
Qed.

Lemma refines_multiset_witness :
  exists h, run (fun x => x =? 0) 0 (fun x => x)
    [OpInsert 7; OpInsert 1007; OpInsert 2007; OpErase 7; OpInsert 2007; OpErase 5] (HashSet_new 0)
    = Some h /\ Size h = 3.
Proof.
  destruct (refines_multiset (fun x => x =? 0) 0 (fun x => x)
    [OpInsert 7; OpInsert 1007; OpInsert 2007; OpErase 7; OpInsert 2007; OpErase 5])
    as (h & Hr & _ & _ & Hs & _).
  - reflexivity.
  - repeat constructor.
  - vm_compute. discriminate.
  - exists h. split; [exact Hr|exact Hs].
Defined.

Section Full.
Context {T : Type} (IsEmpty : T -> bool).

Lemma all_full (data : list T) : length (elements IsEmpty data) = length data ->
  forall i x, zlookup data i = Some x -> IsEmpty x = false.
Proof.
  unfold elements. intros Hl. assert (Forall (fun x => IsEmpty x = false) data) as HF.
  { induction data as [|x data IH]; [constructor|]. rewrite filter_cons in Hl.
    case_decide; cbn [length] in Hl.
    - constructor; [done|]. apply IH. lia.
    - pose proof (length_filter (fun x => IsEmpty x = false) data). lia. }
  intros i x. unfold zlookup. destruct (0 <=? i); [|done].
  intros Hx. by eapply Forall_lookup_1 in HF.
Qed.

Lemma full_search (h : HashSet T) pred_ fuel i :
  (forall i x, zlookup (data_ h) i = Some x -> IsEmpty x = false) ->
  (forall i x, zlookup (data_ h) i = Some x -> pred_ x = false) ->
  FindFrom IsEmpty fuel h pred_ i = None /\ FirstAvailableSlot IsEmpty fuel h i = None.
Proof.
  intros Hf Hp. revert i. induction fuel as [|fuel IH]; intros i; [done|].
  cbn [FindFrom FirstAvailableSlot]. unfold ElementForIndex.
  destruct (zlookup (data_ h) i) as [x|] eqn:E; [|done]. cbn [mbind option_bind].
  rewrite (Hf i x E), (Hp i x E). apply IH.
Qed.
End Full.

(** [ShrinkToMaximumLoad] leaves a set of at most eight elements in a table without a free
    slot (and an empty set without a table), and does not lower [elements_until_expand_]: the
    search for a value that is not in the set never ends, however long it runs (for the empty
    set it divides by zero), nor does the search for a free slot by the next insertion. *)
Theorem shrunk_set_never_answers {T : Type} (IsEmpty : T -> bool) (MakeEmpty : T)
  (hashfn_ : T -> Z) (h : HashSet T) (Hempty : IsEmpty MakeEmpty = true)
  (Hok : ok IsEmpty hashfn_ h) (Hsize : Size h <= 8) :
  exists h', ShrinkToMaximumLoad IsEmpty MakeEmpty hashfn_ h = Some h' /\
    NumBuckets h' = Size h /\ elements_until_expand_ h' = elements_until_expand_ h /\
    (forall fuel i, FirstAvailableSlot IsEmpty fuel h' i = None) /\
    (forall fuel pred_ hash, (forall x, x ∈ elements IsEmpty (data_ h) -> pred_ x = false) ->
       FindIndex IsEmpty fuel h' pred_ hash = None).
Proof.
  destruct Hok as [Hb He Hl Hp [_ Hmax]]. unfold ShrinkToMaximumLoad, Size in *. rewrite Hmax.
  assert (E : div_factor (num_elements_ h) kDefaultMaxLoadFactor = num_elements_ h).
  { assert (num_elements_ h = 0 \/ num_elements_ h = 1 \/ num_elements_ h = 2 \/ num_elements_ h = 3 \/
      num_elements_ h = 4 \/ num_elements_ h = 5 \/ num_elements_ h = 6 \/ num_elements_ h = 7 \/
      num_elements_ h = 8) as Hcases by lia.
    repeat destruct Hcases as [->|Hcases]; [by vm_compute..|]. rewrite Hcases. by vm_compute. }
  rewrite E.
  destruct (Resize_spec IsEmpty MakeEmpty hashfn_ Hempty (num_elements_ h) h)
    as (data & -> & Hdl & Hdok & Hdp); [lia|lia|].
  pose proof (Permutation_length Hdp) as Hpl.
  assert (Hfull : forall i x, zlookup data i = Some x -> IsEmpty x = false)
    by (apply all_full; lia).
  eexists. split_all; [reflexivity|done|done| |].
  - intros fuel i. by apply (full_search IsEmpty (set_data data _) (fun _ => false)).
  - intros fuel pred_ hash Hpred. unfold FindIndex. destruct (IndexForHash _ hash); [|done].
    apply full_search; [done|]. intros i x Hx. apply Hpred. rewrite <- Hdp.
    apply elements_full. split; [by eapply Hfull|eauto].
Qed.

Lemma shrunk_set_never_answers_witness :
  exists h h', run (fun x => x =? 0) 0 (fun x => x) [OpInsert 7; OpInsert 9] (HashSet_new 0) = Some h /\
  ShrinkToMaximumLoad (fun x => x =? 0) 0 (fun x => x) h = Some h' /\ NumBuckets h' = 2.
Proof.
  destruct (run (fun x => x =? 0) 0 (fun x => x) [OpInsert 7; OpInsert 9] (HashSet_new 0))
    as [h|] eqn:E; [|vm_compute in E; discriminate E].
  destruct (run_spec (fun x => x =? 0) 0 (fun x => x) eq_refl [OpInsert 7; OpInsert 9] (HashSet_new 0) [])
    as (h1 & E1 & Hok & _).
  - apply ok_new. reflexivity.
  - vm_compute. constructor.
  - repeat constructor.
  - vm_compute. discriminate.
  - rewrite E in E1. injection E1 as <-.
    destruct (shrunk_set_never_answers (fun x => x =? 0) 0 (fun x => x) h eq_refl Hok) as (h' & Hs & Hn & _).
    + vm_compute in E. injection E as <-. vm_compute. discriminate.
    + exists h, h'. split_all; [reflexivity|exact Hs|]. rewrite Hn.
      vm_compute in E. by injection E as <-.
Defined.

Definition set_owns {T} (owns_data : bool) (h : HashSet T) : HashSet T :=
  mkHashSet (num_elements_ h) (num_buckets_ h) (elements_until_expand_ h) owns_data (data_ h)
    (min_load_factor_ h) (max_load_factor_ h).

(** The five words before the elements. *)
Definition header {T} (h : HashSet T) : list Z :=
  [u64 (num_elements_ h); u64 (num_buckets_ h); u64 (elements_until_expand_ h);
   double_bits (min_load_factor_ h); double_bits (max_load_factor_ h)].

Lemma WriteToMemory_fields {T} sizeof_T (to_bits : T -> Z) ptr h :
  WriteToMemory sizeof_T to_bits ptr h =
  '(ptr, offset) ← WriteElements 8 id ptr 0 (header h);
  WriteElements sizeof_T to_bits ptr offset (data_ h).
Proof.
  unfold WriteToMemory, header. cbn [WriteElements].
  repeat (destruct (WriteToBytes _ _ _ _) as [[? ?]|]; cbn [mbind option_bind id]; [|done]). done.
Qed.

Lemma HashSet_read_fields {T} sizeof_T (of_bits : Z -> T) ptr copy a b c d e off data last :
  ReadElements 8 id 5 ptr 0 = Some ([a; b; c; d; e], off) -> a <= b ->
  ReadElements sizeof_T of_bits (Z.to_nat b) ptr off = Some (data, last) ->
  HashSet_read sizeof_T of_bits ptr copy =
  Some (mkHashSet a b c copy data (double_of_bits d) (double_of_bits e), last).
Proof.
  unfold HashSet_read. cbn [ReadElements].
  repeat (destruct (ReadFromBytes ptr _ 8) as [[? ?]|]; cbn [mbind option_bind id]; [|done]).
  intros [= -> -> -> -> -> ->] Hab ->. by rewrite (proj2 (Z.leb_le a b) Hab).
Qed.

(** A set written to memory is read back, copied or in place: the same buckets, counts and
    load factors; the size that [WriteToMemory] announces without writing is the size it writes
    and the size that is read, and nothing beyond it changes. *)
Theorem serialize_roundtrip {T : Type} (IsEmpty : T -> bool) (hashfn_ : T -> Z)
  (sizeof_T : nat) (to_bits : T -> Z) (of_bits : Z -> T) (h : HashSet T) (buf : list Z)
  (Hrange : forall x, 0 <= to_bits x < 256 ^ Z.of_nat sizeof_T)
  (Hbits : forall x, of_bits (to_bits x) = x)
  (Hok : ok IsEmpty hashfn_ h) (H64 : num_buckets_ h < 2 ^ 64)
  (Hbuf : 40 + num_buckets_ h * Z.of_nat sizeof_T <= Z.of_nat (length buf)) :
  let size := 40 + num_buckets_ h * Z.of_nat sizeof_T in
  WriteToMemory sizeof_T to_bits None h = Some (None, size) /\
  exists buf', WriteToMemory sizeof_T to_bits (Some buf) h = Some (Some buf', size) /\
    same_outside 0 size buf buf' /\
    forall make_copy_of_data, HashSet_read sizeof_T of_bits buf' make_copy_of_data =
      Some (set_owns make_copy_of_data h, size).
Proof.
  destruct Hok as [Hb He Hl Hp [Hmin Hmax]]. cbv zeta.
  assert (Hh : header h = [num_elements_ h; num_buckets_ h; elements_until_expand_ h;
    double_bits kDefaultMinLoadFactor; double_bits kDefaultMaxLoadFactor]).
  { unfold header. by rewrite Hmin, Hmax, !u_small by (unfold is_u; lia). }
  assert (Hu : forall x, x ∈ header h -> 0 <= id x < 256 ^ Z.of_nat 8).
  { rewrite Hh. apply Forall_forall. repeat constructor; unfold id; try lia; by vm_compute. }
  assert (Hpos : 0 <= num_buckets_ h * Z.of_nat sizeof_T) by lia.
  setoid_rewrite WriteToMemory_fields. split.
  { rewrite WriteElements_size. cbn [mbind option_bind]. by rewrite WriteElements_size, <- Hb. }
  destruct (WriteElements_spec 8 id id (fun _ => eq_refl) (header h) buf 0 Hu)
    as (buf1 & E1 & S1 & R1); [lia|cbn; lia|].
  change (0 + Z.of_nat (length (header h)) * Z.of_nat 8) with 40 in *.
  destruct (WriteElements_spec sizeof_T to_bits of_bits Hbits (data_ h) buf1 40 (fun x _ => Hrange x))
    as (buf2 & E2 & S2 & R2); [lia|rewrite (proj1 S1); lia|]. rewrite <- Hb in *.
  exists buf2. rewrite E1. cbn [mbind option_bind]. rewrite E2. split_all; [done| |].
  - eapply same_outside_trans; eapply same_outside_weaken; eassumption || lia.
  - intros copy. rewrite Hh in R1. cbn [length] in R1.
    rewrite <- (ReadElements_outside 8 id _ _ _ _ 5 0 S2) in R1 by (cbn; lia).
    erewrite HashSet_read_fields; [|exact R1|lia|]; [|rewrite Hb, Nat2Z.id; exact R2].
    unfold set_owns. by rewrite Hmin, Hmax.
Qed.

Lemma serialize_roundtrip_witness :
  exists h, run negb false (fun _ => 5) [OpInsert true; OpInsert true] (HashSet_new false) = Some h /\
  exists buf', WriteToMemory 1 Z.b2z (Some (replicate 1050 7)) h = Some (Some buf', 1040) /\
    HashSet_read 1 (Z.eqb 1) buf' true = Some (h, 1040).
Proof.
  destruct (run_spec negb false (fun _ => 5) eq_refl [OpInsert true; OpInsert true] (HashSet_new false) [])
    as (h & E & Hok & _).
  - apply ok_new. reflexivity.
  - vm_compute. constructor.
  - repeat constructor.
  - vm_compute. discriminate.
  - exists h. split; [exact E|]. vm_compute in E.
    destruct (serialize_roundtrip negb (fun _ => 5) 1 Z.b2z (Z.eqb 1) h (replicate 1050 7))
      as (_ & buf' & Hw & _ & Hr).
    + intros []; vm_compute; split; congruence.
    + intros []; reflexivity.
    + exact Hok.
    + injection E as <-. reflexivity.
    + injection E as <-. vm_compute. discriminate.
    + exists buf'. injection E as <-. split; [exact Hw|]. exact (Hr true).
Defined.

(** [Verify] finds no error in a set that satisfies the invariant. *)
Theorem verify_ok {T : Type} (IsEmpty : T -> bool) (MakeEmpty : T) (hashfn_ : T -> Z)
  (h : HashSet T) : IsEmpty MakeEmpty = true -> ok IsEmpty hashfn_ h ->
  Verify IsEmpty MakeEmpty hashfn_ h = Some 0.
Proof.
  intros Hempty [Hb He Hl Hp Hf]. unfold Verify. set (n := num_buckets_ h) in *.
  assert (H : forall m i, 0 <= i -> i + Z.of_nat m = n ->
    VerifyFrom IsEmpty MakeEmpty hashfn_ m h i 0 = Some 0); [|apply H; lia].
  induction m as [|m IH]; intros i Hi Hm; [done|]. cbn [VerifyFrom]. unfold ElementForIndex.
  destruct (zlookup_some (data_ h) i ltac:(lia)) as [x Hx]. rewrite Hx. cbn [mbind option_bind].
  destruct (IsEmpty x) eqn:Ex; [apply IH; lia|].
  unfold IndexForHash. fold n. rewrite (proj2 (Z.eqb_neq n 0)) by lia. cbn [mbind option_bind].
  pose proof (Z.mod_pos_bound (hashfn_ x) n ltac:(lia)) as Ht.
  pose proof (dist_range n _ i Ht ltac:(lia)) as Hd.
  assert (Hset : forall k, zlookup (zset (data_ h) i MakeEmpty) k =
    if k =? i then Some MakeEmpty else zlookup (data_ h) k) by (intros k; apply zlookup_zset; lia).
  destruct (FirstAvailableSlot_spec IsEmpty MakeEmpty Hempty (Z.to_nat n)
    (set_data (zset (data_ h) i MakeEmpty) h) (hashfn_ x mod n) i) as (r & -> & Hr & (y & Hy & Ey) & Hk);
    cbn; rewrite ?length_zset; fold n; [done|done|lia| |lia|].
  - exists MakeEmpty. by rewrite Hset, Z.eqb_refl.
  - destruct (Z.eqb_spec i r) as [->|Hne]; [apply IH; lia|exfalso].
    cbn in Hr, Hy, Hk. fold n in Hr, Hk. rewrite Hset, (proj2 (Z.eqb_neq r i)) in Hy by done.
    destruct (Z.lt_ge_cases (dist n (hashfn_ x mod n) r) (dist n (hashfn_ x mod n) i)) as [Hlt|Hge].
    + destruct (Hp i x Hx Ex r Hr Hlt) as (z & Hz & Ez). congruence.
    + destruct (Hk i ltac:(lia)) as (z & Hz & Ez); [clear - Hge Hne Hr Ht Hi Hm; dist_lia|].
      rewrite Hset, Z.eqb_refl in Hz. congruence.
Qed.
