(* ===== verification/IndirectReferenceTable.v ===== *)
(** * Indirect references ([indirect_reference_table.{h,cc}], [jni_env_ext.cc])

    The table behind JNI local and global references, its segments, and the frames of local
    references of a JNI environment.  Objects are their addresses, null is 0.  [None] is an
    abort: a failed [CHECK] or [LOG(FATAL)], a failed [DCHECK] of a debug build, or an access
    outside the table. *)
From S2P Require Import Prelude Arrays.
Local Open Scope Z_scope.

Inductive IndirectRefKind := kHandleScopeOrInvalid | kLocal | kGlobal | kWeakGlobal.
#[export] Instance IndirectRefKind_eq_dec : EqDecision IndirectRefKind.
Proof. solve_decision. Defined.

Definition kind_bits (k : IndirectRefKind) : Z :=
  match k with kHandleScopeOrInvalid => 0 | kLocal => 1 | kGlobal => 2 | kWeakGlobal => 3 end.

(** [static_cast<IndirectRefKind>(iref & 0x03)]. *)
Definition GetIndirectRefKind (iref : Z) : IndirectRefKind :=
  let k := Z.land iref 0x03 in
  if k =? 0 then kHandleScopeOrInvalid
  else if k =? 1 then kLocal
  else if k =? 2 then kGlobal
  else kWeakGlobal.

Definition IRT_FIRST_SEGMENT : Z := 0.

(** The bit fields of [IRTSegmentState]: [all] as an integer. *)
Definition topIndex (all : Z) : Z := Z.land all 0xffff.
Definition numHoles (all : Z) : Z := all ≫ 16.
Definition set_topIndex (v all : Z) : Z := Z.lor (u16 v) (numHoles all ≪ 16).
Definition set_numHoles (v all : Z) : Z := Z.lor (topIndex all) (u16 v ≪ 16).

Record IrtEntry := mkIrtEntry { serial_ : Z; references_ : list Z }.

Record IndirectReferenceTable := mkIRT {
  segment_state_ : Z;
  table_ : list IrtEntry;
  kind_ : IndirectRefKind;
  max_entries_ : Z;
}.

Definition set_segment (all : Z) (t : IndirectReferenceTable) : IndirectReferenceTable :=
  mkIRT all (table_ t) (kind_ t) (max_entries_ t).
Definition set_table (table : list IrtEntry) (t : IndirectReferenceTable) : IndirectReferenceTable :=
  mkIRT (segment_state_ t) table (kind_ t) (max_entries_ t).

(** [uref = (serial << 20) | (index << 2) | kind], all in 32 bits. *)
Definition MakeRef (serial tableIndex : Z) (k : IndirectRefKind) : Z :=
  Z.lor (Z.lor (u32 (serial ≪ 20)) (u32 (tableIndex ≪ 2))) (kind_bits k).

Definition ExtractIndex (iref : Z) : Z := Z.land (iref ≫ 2) 0xffff.

Section IRT.
Context (kIsDebugBuild IsCheckJniEnabled : bool) (HandleScopeContains : Z -> bool).

Definition kIRTPrevCount : Z := if kIsDebugBuild then 7 else 3.

Definition DCHECK (c : bool) : option unit := if kIsDebugBuild && negb c then None else Some tt.
(** A [DCHECK] whose condition reads the table. *)
Definition DCHECK_read (c : option bool) : option unit :=
  if kIsDebugBuild then c ← c; DCHECK c else Some tt.

(** ** [IrtEntry] *)

Definition EntryAdd (obj : Z) (e : IrtEntry) : option IrtEntry :=
  let serial := u32 (serial_ e + 1) in
  let serial := if serial =? kIRTPrevCount then 0 else serial in
  references ← zinsert (references_ e) serial obj;
  Some (mkIrtEntry serial references).

Definition GetReference (e : IrtEntry) : option Z :=
  _ ← DCHECK (serial_ e <? kIRTPrevCount); zlookup (references_ e) (serial_ e).

Definition SetReference (obj : Z) (e : IrtEntry) : option IrtEntry :=
  _ ← DCHECK (serial_ e <? kIRTPrevCount);
  references ← zinsert (references_ e) (serial_ e) obj;
  Some (mkIrtEntry (serial_ e) references).

(** ** The table *)

(** The constructor.  [mapped]: the memory could be mapped (it is then zero).  The inner [None]
    is an object for which [IsValid] is false. *)
Definition IndirectReferenceTable_new (initialCount maxCount : Z) (desiredKind : IndirectRefKind)
  (abort_on_error mapped : bool) : option (option IndirectReferenceTable) :=
  if negb (0 <? initialCount) || negb (initialCount <=? maxCount)
     || bool_decide (desiredKind = kHandleScopeOrInvalid) then None
  else if mapped then
    Some (Some (mkIRT IRT_FIRST_SEGMENT
      (replicate (Z.to_nat maxCount) (mkIrtEntry 0 (replicate (Z.to_nat kIRTPrevCount) 0)))
      desiredKind maxCount))
  else if abort_on_error then None
  else Some None.

Definition Capacity (t : IndirectReferenceTable) : Z := topIndex (segment_state_ t).
Definition GetSegmentState (t : IndirectReferenceTable) : Z := segment_state_ t.
Definition SetSegmentState (new_state : Z) (t : IndirectReferenceTable) : IndirectReferenceTable :=
  set_segment new_state t.

(** [table_[i].GetReference()]. *)
Definition ReferenceAt (t : IndirectReferenceTable) (i : Z) : option Z :=
  e ← zlookup (table_ t) i; GetReference e.

Definition ToIndirectRef (t : IndirectReferenceTable) (tableIndex : Z) : option Z :=
  _ ← DCHECK (tableIndex <? 65536);
  e ← zlookup (table_ t) tableIndex;
  Some (MakeRef (serial_ e) tableIndex (kind_ t)).

(** Aborts, or lets the caller return [false]. *)
Definition AbortIfNoCheckJNI : option unit := if IsCheckJniEnabled then Some tt else None.

Definition CheckEntry (t : IndirectReferenceTable) (iref idx : Z) : option bool :=
  checkRef ← ToIndirectRef t idx;
  if negb (checkRef =? iref) then _ ← AbortIfNoCheckJNI; Some false else Some true.

(** The search of [Add] for a hole, downwards. *)
Fixpoint Scan (fuel : nat) (t : IndirectReferenceTable) (bottom pScan : Z) : option Z :=
  match fuel with
  | O => None
  | S fuel' =>
      obj ← ReferenceAt t pScan;
      if obj =? 0 then Some pScan
      else _ ← DCHECK (bottom <=? pScan); Scan fuel' t bottom (pScan - 1)
  end.

(** [kind_] and the objects are the caller's business ([VerifyObject]). *)
Definition Add (cookie obj : Z) (t : IndirectReferenceTable)
  : option (IndirectReferenceTable * Z) :=
  let top := topIndex (segment_state_ t) in
  if obj =? 0 then None
  else
    _ ← DCHECK (numHoles cookie <=? numHoles (segment_state_ t));
    if top =? max_entries_ t then None
    else
      let holes := numHoles (segment_state_ t) - numHoles cookie in
      '(t, index) ←
        (if 0 <? holes then
           _ ← DCHECK (1 <? top);
           _ ← DCHECK_read (obj ← ReferenceAt t (top - 1); Some (negb (obj =? 0)));
           index ← Scan (Z.to_nat top) t (topIndex cookie) (top - 2);
           Some (set_segment (set_numHoles (numHoles (segment_state_ t) - 1) (segment_state_ t)) t,
                 index)
         else Some (set_segment (set_topIndex (top + 1) (segment_state_ t)) t, top));
      e ← zlookup (table_ t) index;
      e ← EntryAdd obj e;
      let t := set_table (zset (table_ t) index e) t in
      result ← ToIndirectRef t index;
      _ ← DCHECK (negb (result =? 0));
      Some (t, result).

(** [*table_[idx].GetReference() = nullptr]. *)
Definition ClearReference (idx : Z) (t : IndirectReferenceTable) : option IndirectReferenceTable :=
  e ← zlookup (table_ t) idx;
  e ← SetReference 0 e;
  Some (set_table (zset (table_ t) idx e) t).

(** The loop of [Remove] that consumes holes: the new [topIndex] and [numHoles]. *)
Fixpoint EatHoles (fuel : nat) (t : IndirectReferenceTable) (bottomIndex top holes : Z)
  : option (Z * Z) :=
  match fuel with
  | O => None
  | S fuel' =>
      let top := top - 1 in
      if (bottomIndex <? top) && negb (holes =? 0) then
        obj ← ReferenceAt t (top - 1);
        if negb (obj =? 0) then Some (top, holes) else EatHoles fuel' t bottomIndex top (holes - 1)
      else Some (top, holes)
  end.

Definition Remove (cookie iref : Z) (t : IndirectReferenceTable)
  : option (IndirectReferenceTable * bool) :=
  let top := topIndex (segment_state_ t) in
  let bottomIndex := topIndex cookie in
  _ ← DCHECK (numHoles cookie <=? numHoles (segment_state_ t));
  if bool_decide (GetIndirectRefKind iref = kHandleScopeOrInvalid) && HandleScopeContains iref
  then Some (t, true)
  else
    let idx := ExtractIndex iref in
    if idx <? bottomIndex then Some (t, false)
    else if top <=? idx then Some (t, false)
    else if idx =? top - 1 then
      ok ← CheckEntry t iref idx;
      if negb ok then Some (t, false)
      else
        t ← ClearReference idx t;
        let holes := numHoles (segment_state_ t) - numHoles cookie in
        if negb (holes =? 0) then
          '(top, holes) ← EatHoles (Z.to_nat top) t bottomIndex top holes;
          Some (set_segment
                  (set_topIndex top (set_numHoles (holes + numHoles cookie) (segment_state_ t))) t,
                true)
        else Some (set_segment (set_topIndex (top - 1) (segment_state_ t)) t, true)
    else
      obj ← ReferenceAt t idx;
      if obj =? 0 then Some (t, false)
      else
        ok ← CheckEntry t iref idx;
        if negb ok then Some (t, false)
        else
          t ← ClearReference idx t;
          Some (set_segment (set_numHoles (numHoles (segment_state_ t) + 1) (segment_state_ t)) t,
                true).

Definition GetChecked (t : IndirectReferenceTable) (iref : Z) : option bool :=
  if iref =? 0 then Some false
  else if bool_decide (GetIndirectRefKind iref = kHandleScopeOrInvalid) then
    _ ← AbortIfNoCheckJNI; Some false
  else
    let idx := ExtractIndex iref in
    if topIndex (segment_state_ t) <=? idx then _ ← AbortIfNoCheckJNI; Some false
    else
      obj ← ReferenceAt t idx;
      if obj =? 0 then _ ← AbortIfNoCheckJNI; Some false
      else CheckEntry t iref idx.

Definition Get (t : IndirectReferenceTable) (iref : Z) : option Z :=
  ok ← GetChecked t iref;
  if negb ok then Some 0 else ReferenceAt t (ExtractIndex iref).

Definition Update (iref obj : Z) (t : IndirectReferenceTable) : option IndirectReferenceTable :=
  ok ← GetChecked t iref;
  if negb ok then Some t
  else
    e ← zlookup (table_ t) (ExtractIndex iref);
    e ← SetReference obj e;
    Some (set_table (zset (table_ t) (ExtractIndex iref) e) t).

(** The loops over [begin()] to [end()]. *)
Definition AssertEmpty (t : IndirectReferenceTable) : option unit :=
  objs ← mapM (ReferenceAt t) (seqZ 0 (Capacity t));
  if forallb (fun obj => obj =? 0) objs then Some tt else None.

Definition VisitRoots (visit : Z -> Z) (t : IndirectReferenceTable)
  : option IndirectReferenceTable :=
  foldl (fun r i =>
    t ← r;
    e ← zlookup (table_ t) i;
    obj ← GetReference e;
    if obj =? 0 then Some t
    else
      e ← SetReference (visit obj) e;
      _ ← DCHECK (negb (visit obj =? 0));
      Some (set_table (zset (table_ t) i e) t)) (Some t) (seqZ 0 (Capacity t)).

(** ** The local references of a JNI environment *)

Record JNIEnvExt := mkEnv {
  local_ref_cookie : Z;
  locals : IndirectReferenceTable;
  stacked_local_ref_cookies : list Z;   (* the last one first *)
}.

Definition set_locals (t : IndirectReferenceTable) (env : JNIEnvExt) : JNIEnvExt :=
  mkEnv (local_ref_cookie env) t (stacked_local_ref_cookies env).

Definition kLocalsInitial : Z := 64.
Definition kLocalsMax : Z := 512.

(** [Create]: [None] inside is a null pointer. *)
Definition JNIEnvExt_Create (mapped : bool) : option (option JNIEnvExt) :=
  t ← IndirectReferenceTable_new kLocalsInitial kLocalsMax kLocal false mapped;
  Some (t ← t; Some (mkEnv IRT_FIRST_SEGMENT t [])).

Definition NewLocalRef (obj : Z) (env : JNIEnvExt) : option (JNIEnvExt * Z) :=
  if obj =? 0 then Some (env, 0)
  else
    '(t, ref) ← Add (local_ref_cookie env) obj (locals env);
    Some (set_locals t env, ref).

Definition AddLocalReference (obj : Z) (env : JNIEnvExt) : option (JNIEnvExt * Z) :=
  '(t, ref) ← Add (local_ref_cookie env) obj (locals env);
  Some (set_locals t env, ref).

Definition DeleteLocalRef (obj : Z) (env : JNIEnvExt) : option JNIEnvExt :=
  if negb (obj =? 0) then
    '(t, _) ← Remove (local_ref_cookie env) obj (locals env); Some (set_locals t env)
  else Some env.

Definition PushFrame (env : JNIEnvExt) : JNIEnvExt :=
  mkEnv (GetSegmentState (locals env)) (locals env)
    (local_ref_cookie env :: stacked_local_ref_cookies env).

(** [back] of an empty vector is undefined. *)
Definition PopFrame (env : JNIEnvExt) : option JNIEnvExt :=
  let t := SetSegmentState (local_ref_cookie env) (locals env) in
  match stacked_local_ref_cookies env with
  | [] => None
  | cookie :: cookies => Some (mkEnv cookie t cookies)
  end.

(** [PopLocalFrame] of the JNI; [survivor] is decoded before the frame is popped. *)
Definition PopLocalFrame (survivor : Z) (env : JNIEnvExt) : option (JNIEnvExt * Z) :=
  env ← PopFrame env;
  if survivor =? 0 then Some (env, 0) else AddLocalReference survivor env.
End IRT.

(** ** Bit fields *)

Lemma top_mod all : topIndex all = all mod 65536.
Proof. apply (Z.land_ones all 16). lia. Qed.

Lemma holes_div all : numHoles all = all / 65536.
Proof. unfold numHoles. by rewrite Z.shiftr_div_pow2 by lia. Qed.

Lemma set_top_arith v all : set_topIndex v all = v mod 65536 + all / 65536 * 65536.
Proof.
  unfold set_topIndex. rewrite lor_low_shiftl, holes_div; [done|lia|]. apply (u_range 16). lia.
Qed.

Lemma set_holes_arith v all : set_numHoles v all = all mod 65536 + v mod 65536 * 65536.
Proof.
  unfold set_numHoles. rewrite lor_low_shiftl, top_mod; [done|lia|].
  rewrite top_mod. apply Z.mod_pos_bound. lia.
Qed.

Ltac fields_lia := rewrite ?set_top_arith, ?set_holes_arith, ?top_mod, ?holes_div in *; div_lia.

Lemma top_set_top v all : 0 <= v < 65536 -> topIndex (set_topIndex v all) = v.
Proof. intros. fields_lia. Qed.
Lemma holes_set_top v all : numHoles (set_topIndex v all) = numHoles all.
Proof. fields_lia. Qed.
Lemma top_set_holes v all : topIndex (set_numHoles v all) = topIndex all.
Proof. fields_lia. Qed.
Lemma holes_set_holes v all : 0 <= v < 65536 -> numHoles (set_numHoles v all) = v.
Proof. intros. fields_lia. Qed.
Lemma top_range all : 0 <= topIndex all < 65536.
Proof. fields_lia. Qed.

#[export] Hint Rewrite top_set_top holes_set_top top_set_holes holes_set_holes using lia : word.

Lemma MakeRef_arith s i k : 0 <= s < 4096 -> 0 <= i < 65536 ->
  MakeRef s i k = kind_bits k + i * 4 + s * 2 ^ 20.
Proof.
  intros Hs Hi. unfold MakeRef.
  assert (Hk : 0 <= kind_bits k < 2 ^ 2) by (destruct k; cbn; lia).
  rewrite (Z.shiftl_mul_pow2 s), (Z.shiftl_mul_pow2 i) by lia.
  rewrite !u_small by (unfold is_u; lia).
  rewrite <- (Z.shiftl_mul_pow2 s), <- (Z.shiftl_mul_pow2 i) by lia.
  rewrite <- Z.lor_assoc, (Z.lor_comm (i ≪ 2)), (Z.lor_comm (s ≪ 20)).
  rewrite (lor_low_shiftl (kind_bits k)) by lia.
  rewrite lor_low_shiftl by lia. by rewrite Z.shiftl_mul_pow2 by lia.
Qed.

Lemma ExtractIndex_arith iref : ExtractIndex iref = iref / 4 mod 65536.
Proof.
  unfold ExtractIndex. rewrite Z.shiftr_div_pow2 by lia. apply (Z.land_ones _ 16). lia.
Qed.

Lemma GetIndirectRefKind_arith iref : kind_bits (GetIndirectRefKind iref) = iref mod 4.
Proof.
  unfold GetIndirectRefKind. change 0x03 with (Z.ones 2). rewrite Z.land_ones by lia.
  change (2 ^ 2) with 4. pose proof (Z.mod_pos_bound iref 4 ltac:(lia)).
  repeat case_Zcmp; cbn; lia.
Qed.

Lemma kind_bits_inj k k' : kind_bits k = kind_bits k' -> k = k'.
Proof. by destruct k, k'. Qed.

Lemma MakeRef_index s i k : 0 <= s < 4096 -> 0 <= i < 65536 -> ExtractIndex (MakeRef s i k) = i.
Proof.
  intros Hs Hi. rewrite ExtractIndex_arith, MakeRef_arith by done. destruct k; cbn; div_lia.
Qed.

Lemma MakeRef_kind s i k : 0 <= s < 4096 -> 0 <= i < 65536 -> GetIndirectRefKind (MakeRef s i k) = k.
Proof.
  intros Hs Hi. apply kind_bits_inj. rewrite GetIndirectRefKind_arith, MakeRef_arith by done.
  destruct k; cbn; div_lia.
Qed.

Lemma MakeRef_serial s s' i k : 0 <= s < 4096 -> 0 <= s' < 4096 -> 0 <= i < 65536 ->
  MakeRef s i k = MakeRef s' i k -> s = s'.
Proof. intros. rewrite !MakeRef_arith in * by done. lia. Qed.

Lemma MakeRef_nonzero s i k : 0 <= s < 4096 -> 0 <= i < 65536 -> k <> kHandleScopeOrInvalid ->
  MakeRef s i k <> 0.
Proof. intros. rewrite MakeRef_arith by done. destruct k; cbn; lia || done. Qed.

(** ** Holes *)

(** The number of [i] in [lo, lo + k) with [f i = 0]. *)
Fixpoint holes_from (f : Z -> Z) (lo : Z) (k : nat) : Z :=
  match k with
  | O => 0
  | S k' => holes_from f lo k' + (if f (lo + Z.of_nat k') =? 0 then 1 else 0)
  end.
Definition holes_in (f : Z -> Z) (lo hi : Z) : Z := holes_from f lo (Z.to_nat (hi - lo)).

Lemma holes_snoc f lo hi : lo <= hi ->
  holes_in f lo (hi + 1) = holes_in f lo hi + (if f hi =? 0 then 1 else 0).
Proof.
  intros. unfold holes_in. replace (Z.to_nat (hi + 1 - lo)) with (S (Z.to_nat (hi - lo))) by lia.
  cbn [holes_from]. by replace (lo + Z.of_nat (Z.to_nat (hi - lo))) with hi by lia.
Qed.

Lemma holes_nil f lo : holes_in f lo lo = 0.
Proof. unfold holes_in. by rewrite Z.sub_diag. Qed.

(** Induction on the upper end. *)
Lemma range_ind (P : Z -> Prop) lo : P lo -> (forall hi, lo <= hi -> P hi -> P (hi + 1)) ->
  forall hi, lo <= hi -> P hi.
Proof.
  intros H0 HS hi Hhi. replace hi with (lo + Z.of_nat (Z.to_nat (hi - lo))) by lia.
  induction (Z.to_nat (hi - lo)) as [|n IH]; [by rewrite Z.add_0_r|].
  replace (lo + Z.of_nat (S n)) with (lo + Z.of_nat n + 1) by lia. apply HS; [lia|done].
Qed.

Lemma holes_bounds f lo hi : lo <= hi -> 0 <= holes_in f lo hi <= hi - lo.
Proof.
  revert hi. apply range_ind; [rewrite holes_nil; lia|]. intros hi Hhi IH.
  rewrite holes_snoc by done. case_match; lia.
Qed.

Lemma holes_update f g i lo hi : lo <= hi -> (forall j, lo <= j < hi -> j <> i -> g j = f j) ->
  holes_in g lo hi = holes_in f lo hi +
    (if (lo <=? i) && (i <? hi)
     then (if g i =? 0 then 1 else 0) - (if f i =? 0 then 1 else 0) else 0).
Proof.
  intros Hlo. revert hi Hlo. apply (range_ind (fun hi => (forall j, lo <= j < hi -> j <> i -> g j = f j) -> _)).
  - intros _. rewrite !holes_nil. destruct (Z.leb_spec lo i), (Z.ltb_spec i lo); cbn; lia.
  - intros hi Hhi IH Hj. rewrite !holes_snoc, IH by (done || (intros; apply Hj; lia)).
    destruct (decide (hi = i)) as [->|Hne].
    + rewrite (proj2 (Z.leb_le lo i)), Z.ltb_irrefl, (proj2 (Z.ltb_lt i _)) by lia. cbn. lia.
    + rewrite (Hj hi) by lia.
      destruct (Z.leb_spec lo i), (Z.ltb_spec i hi), (Z.ltb_spec i (hi + 1)); cbn; lia.
Qed.

Lemma holes_ext f g lo hi : lo <= hi -> (forall j, lo <= j < hi -> g j = f j) ->
  holes_in g lo hi = holes_in f lo hi.
Proof.
  intros Hlo Hj. rewrite (holes_update f g (lo - 1)) by (done || (intros; by apply Hj)).
  destruct (Z.leb_spec lo (lo - 1)); [lia|]. cbn. lia.
Qed.

Lemma holes_none f lo hi : lo <= hi -> holes_in f lo hi = 0 -> forall j, lo <= j < hi -> f j <> 0.
Proof.
  revert hi. apply (range_ind (fun hi => holes_in f lo hi = 0 -> forall j, lo <= j < hi -> f j <> 0)).
  - intros _ j. lia.
  - intros hi Hhi IH E j Hj. rewrite holes_snoc in E by done.
    pose proof (holes_bounds f lo hi Hhi). destruct (Z.eqb_spec (f hi) 0); [lia|].
    destruct (decide (j = hi)) as [->|]; [done|]. apply IH; lia.
Qed.

Lemma holes_some f lo hi : lo <= hi -> holes_in f lo hi <> 0 -> exists j, lo <= j < hi /\ f j = 0.
Proof.
  revert hi. apply (range_ind (fun hi => holes_in f lo hi <> 0 -> exists j, lo <= j < hi /\ f j = 0)).
  - by rewrite holes_nil.
  - intros hi Hhi IH E. rewrite holes_snoc in E by done. destruct (Z.eqb_spec (f hi) 0).
    + exists hi. split; [lia|done].
    + destruct IH as (j & Hj & Hz); [lia|]. exists j. split; [lia|done].
Qed.

(** ** The table as functions of the index *)
Section Facts.
Context (kIsDebugBuild IsCheckJniEnabled : bool) (HandleScopeContains : Z -> bool).
Implicit Types (t : IndirectReferenceTable) (e : IrtEntry) (i j r o : Z).
Abbreviation prev := (kIRTPrevCount kIsDebugBuild).

Lemma prev_range : 3 <= prev <= 7.
Proof. unfold kIRTPrevCount. destruct kIsDebugBuild; lia. Qed.

Definition entry_ok e : Prop :=
  0 <= serial_ e < prev /\ Z.of_nat (length (references_ e)) = prev.

Definition obj_at t i : Z :=
  default 0 (e ← zlookup (table_ t) i; zlookup (references_ e) (serial_ e)).
Definition serial_at t i : Z := default 0 (serial_ <$> zlookup (table_ t) i).
Definition ref_of t i : Z := MakeRef (serial_at t i) i (kind_ t).
Definition next_serial (s : Z) : Z := if s + 1 =? prev then 0 else s + 1.

Record table_ok t : Prop := {
  table_length : Z.of_nat (length (table_ t)) = max_entries_ t;
  table_max : max_entries_ t < 65536;
  table_kind : kind_ t <> kHandleScopeOrInvalid;
  table_entries : Forall entry_ok (table_ t);
}.

Lemma dcheck c : c = true -> DCHECK kIsDebugBuild c = Some tt.
Proof. intros ->. unfold DCHECK. by rewrite andb_false_r. Qed.

Lemma entry_at t i : table_ok t -> 0 <= i < max_entries_ t ->
  exists e o, zlookup (table_ t) i = Some e /\ entry_ok e /\
    zlookup (references_ e) (serial_ e) = Some o /\ obj_at t i = o /\ serial_at t i = serial_ e.
Proof.
  intros [Hl _ _ HF] Hi. destruct (zlookup_some (table_ t) i ltac:(lia)) as [e He].
  assert (Hok : entry_ok e).
  { unfold zlookup in He. rewrite (proj2 (Z.leb_le 0 i)) in He by lia. by eapply Forall_lookup_1. }
  destruct (zlookup_some (references_ e) (serial_ e)) as [o Ho]; [destruct Hok; lia|].
  exists e, o. unfold obj_at, serial_at. rewrite He. cbn. rewrite Ho. by split_all.
Qed.

Lemma serial_range t i : table_ok t -> 0 <= i < max_entries_ t -> 0 <= serial_at t i < prev.
Proof. intros H Hi. destruct (entry_at t i H Hi) as (e & o & _ & [Hs _] & _ & _ & ->). done. Qed.

Lemma ReferenceAt_ok t i : table_ok t -> 0 <= i < max_entries_ t ->
  ReferenceAt kIsDebugBuild t i = Some (obj_at t i).
Proof.
  intros H Hi. destruct (entry_at t i H Hi) as (e & o & He & [Hs _] & Ho & -> & _).
  unfold ReferenceAt, GetReference. rewrite He. cbn [mbind option_bind].
  by rewrite dcheck by (apply Z.ltb_lt; lia).
Qed.

Lemma ToIndirectRef_ok t i : table_ok t -> 0 <= i < max_entries_ t ->
  ToIndirectRef kIsDebugBuild t i = Some (ref_of t i).
Proof.
  intros H Hi. pose proof (table_max _ H).
  destruct (entry_at t i H Hi) as (e & o & He & _ & _ & _ & Hs).
  unfold ToIndirectRef, ref_of. rewrite dcheck by (apply Z.ltb_lt; lia). rewrite Hs, He. done.
Qed.

Lemma ref_of_facts t i : table_ok t -> 0 <= i < max_entries_ t ->
  ExtractIndex (ref_of t i) = i /\ GetIndirectRefKind (ref_of t i) = kind_ t /\ ref_of t i <> 0.
Proof.
  intros H Hi. pose proof (serial_range t i H Hi). pose proof prev_range. pose proof (table_max _ H).
  unfold ref_of. rewrite MakeRef_index, MakeRef_kind by lia. split_all; [done..|].
  apply MakeRef_nonzero; [lia|lia|]. apply (table_kind _ H).
Qed.

(** Replacing one entry. *)
Lemma replace_entry t i e : table_ok t -> 0 <= i < max_entries_ t -> entry_ok e ->
  let t' := set_table (zset (table_ t) i e) t in
  table_ok t' /\
  (forall j, obj_at t' j = if j =? i then default 0 (zlookup (references_ e) (serial_ e)) else obj_at t j) /\
  (forall j, serial_at t' j = if j =? i then serial_ e else serial_at t j).
Proof.
  intros [Hl Hm Hk HF] Hi He. cbv zeta.
  assert (Hz : forall j, zlookup (zset (table_ t) i e) j = if j =? i then Some e else zlookup (table_ t) j)
    by (intros j; apply zlookup_zset; lia).
  split; [|split; intros j; unfold obj_at, serial_at; cbn; rewrite Hz; by destruct (j =? i)].
  constructor; cbn; rewrite ?length_zset; try done. unfold zset. by apply Forall_insert.
Qed.

Lemma EntryAdd_ok obj e : entry_ok e ->
  exists e', EntryAdd kIsDebugBuild obj e = Some e' /\ entry_ok e' /\
    serial_ e' = next_serial (serial_ e) /\ zlookup (references_ e') (serial_ e') = Some obj.
Proof.
  intros [Hs Hl]. pose proof prev_range. unfold EntryAdd, next_serial.
  rewrite u_small by (unfold is_u; lia).
  set (s := if serial_ e + 1 =? prev then 0 else serial_ e + 1).
  assert (Hr : 0 <= s < prev) by (unfold s; destruct (Z.eqb_spec (serial_ e + 1) prev); lia).
  rewrite zinsert_some by lia. eexists. split; [reflexivity|].
  split_all; cbn; [split; cbn; [lia|by rewrite length_zset]|done|].
  by rewrite zlookup_zset, Z.eqb_refl by lia.
Qed.

Lemma add_at t i obj : table_ok t -> 0 <= i < max_entries_ t ->
  exists e e', zlookup (table_ t) i = Some e /\ EntryAdd kIsDebugBuild obj e = Some e' /\
  let t' := set_table (zset (table_ t) i e') t in
  table_ok t' /\ (forall j, obj_at t' j = if j =? i then obj else obj_at t j) /\
  (forall j, serial_at t' j = if j =? i then next_serial (serial_at t i) else serial_at t j).
Proof.
  intros H Hi. destruct (entry_at t i H Hi) as (e & o & He & Hok & _ & _ & Hs).
  destruct (EntryAdd_ok obj e Hok) as (e' & E & Hok' & Hs' & Ho').
  exists e, e'. cbv zeta. destruct (replace_entry t i e' H Hi Hok') as (Ht & Hobj & Hser).
  rewrite Ho' in Hobj. split_all; [done..|]. intros j. by rewrite Hser, Hs', Hs.
Qed.

Lemma ClearReference_ok t i : table_ok t -> 0 <= i < max_entries_ t ->
  exists table, ClearReference kIsDebugBuild i t = Some (set_table table t) /\
  let t' := set_table table t in
  table_ok t' /\ (forall j, obj_at t' j = if j =? i then 0 else obj_at t j) /\
  (forall j, ref_of t' j = ref_of t j).
Proof.
  intros H Hi. destruct (entry_at t i H Hi) as (e & o & He & [Hs Hl] & _ & _ & Hser).
  unfold ClearReference, SetReference. rewrite He. cbn [mbind option_bind].
  rewrite dcheck by (apply Z.ltb_lt; lia). cbn [mbind option_bind]. rewrite zinsert_some by lia.
  eexists. split; [reflexivity|].
  destruct (replace_entry t i (mkIrtEntry (serial_ e) (zset (references_ e) (serial_ e) 0)) H Hi)
    as (Ht & Hobj & Hser'); [split; cbn; [done|by rewrite length_zset]|].
  split_all; [done| |].
  - intros j. rewrite Hobj. cbn. by rewrite zlookup_zset, Z.eqb_refl by lia.
  - intros j. unfold ref_of. rewrite Hser'. cbn. destruct (Z.eqb_spec j i) as [->|]; [by rewrite Hser|done].
Qed.

(** A new reference to a slot differs from the one before. *)
Lemma next_serial_fresh s : 0 <= s < prev -> 0 <= next_serial s < prev /\ next_serial s <> s.
Proof.
  pose proof prev_range. unfold next_serial. destruct (Z.eqb_spec (s + 1) prev); lia.
Qed.

(** ** Segments *)

(** [upper] is a state whose segment starts where [lower] ends. *)
Record segment_ok t (lower upper : Z) : Prop := {
  seg_order : topIndex lower <= topIndex upper <= max_entries_ t;
  seg_bound : 0 <= numHoles lower <= topIndex lower;
  seg_holes : numHoles upper = numHoles lower + holes_in (obj_at t) (topIndex lower) (topIndex upper);
  seg_top : topIndex lower < topIndex upper -> obj_at t (topIndex upper - 1) <> 0;
}.

Definition live t (lo hi r o : Z) : Prop :=
  exists i, lo <= i < hi /\ r = ref_of t i /\ obj_at t i = o /\ o <> 0.

(** A stack of frames, each a map from references to objects, describes the segments below the
    state [upper]. *)
Fixpoint refines t (upper : Z) (cookies : list Z) (frames : list (gmap Z Z)) : Prop :=
  match cookies, frames with
  | [], [] => upper = IRT_FIRST_SEGMENT
  | c :: cs, f :: fs =>
      segment_ok t c upper /\
      (forall r o, f !! r = Some o <-> live t (topIndex c) (topIndex upper) r o) /\
      refines t c cs fs
  | _, _ => False
  end.

Lemma refines_ext t t' upper cs fs : max_entries_ t' = max_entries_ t ->
  (forall i, 0 <= i < topIndex upper -> obj_at t' i = obj_at t i /\ ref_of t' i = ref_of t i) ->
  refines t upper cs fs -> refines t' upper cs fs.
Proof.
  intros Hm. revert upper fs. induction cs as [|c cs IH]; intros upper [|f fs] Hi; try done.
  cbn [refines]. intros ([Ho Hb Hh Ht] & Hf & Hr). pose proof (top_range c). split_all.
  - constructor; [lia|done| |].
    + rewrite Hh. f_equal. symmetry. apply holes_ext; [lia|]. intros j Hj. apply Hi. lia.
    + intros Hlt. destruct (Hi (topIndex upper - 1) ltac:(lia)) as [-> _]. by apply Ht.
  - intros r o. rewrite Hf. unfold live. split; intros (i & Hir & Hr' & Ho' & Hne);
      destruct (Hi i ltac:(lia)) as [E1 E2]; exists i; split_all; congruence || lia.
  - apply IH; [|done]. intros i Hir. apply Hi. lia.
Qed.

Lemma refines_bound t upper cs fs : refines t upper cs fs -> 0 <= numHoles upper <= topIndex upper.
Proof.
  destruct cs as [|c cs], fs as [|f fs]; try done; cbn [refines].
  - intros ->. rewrite top_mod, holes_div. by vm_compute.
  - intros ([Ho Hb Hh Ht] & _). pose proof (holes_bounds (obj_at t) (topIndex c) (topIndex upper) ltac:(lia)).
    lia.
Qed.

(** ** The operations *)

Lemma Scan_ok fuel t bottom p : table_ok t -> p < max_entries_ t -> 0 <= bottom ->
  (exists j, bottom <= j <= p /\ obj_at t j = 0) -> p - bottom < Z.of_nat fuel ->
  exists i, Scan kIsDebugBuild fuel t bottom p = Some i /\ bottom <= i <= p /\ obj_at t i = 0.
Proof.
  intros H. revert p. induction fuel as [|fuel IH]; intros p Hp Hb (j & Hj & Ho) Hf; [lia|].
  cbn [Scan]. rewrite ReferenceAt_ok by (done || lia). cbn [mbind option_bind].
  destruct (Z.eqb_spec (obj_at t p) 0) as [E|E]; [exists p; split_all; [done|lia|lia|done]|].
  rewrite dcheck by (apply Z.leb_le; lia). cbn [mbind option_bind].
  assert (j <> p) by congruence.
  destruct (IH (p - 1)) as (i & -> & Hi & Hz); [lia|done|exists j; split; [lia|done]|lia|].
  exists i. split_all; [done|lia|lia|done].
Qed.

Lemma EatHoles_ok fuel t bottom top holes : table_ok t -> 0 <= bottom < top -> top <= max_entries_ t ->
  holes = holes_in (obj_at t) bottom (top - 1) -> top - bottom <= Z.of_nat fuel ->
  exists top' holes', EatHoles kIsDebugBuild fuel t bottom top holes = Some (top', holes') /\
    bottom <= top' < top /\ holes' = holes_in (obj_at t) bottom top' /\
    (bottom < top' -> obj_at t (top' - 1) <> 0) /\
    (forall j, top' <= j < top - 1 -> obj_at t j = 0).
Proof.
  intros H. revert top holes. induction fuel as [|fuel IH]; intros top holes Hb Ht Hh Hf; [lia|].
  cbn [EatHoles]. destruct (Z.ltb_spec bottom (top - 1)) as [Hlt|Hge]; cbn [andb].
  - destruct (Z.eqb_spec holes 0) as [E|E]; cbn [negb].
    + exists (top - 1), holes. split_all; [done|lia|lia|done| |lia]. intros _.
      apply (holes_none _ bottom (top - 1)); lia.
    + rewrite ReferenceAt_ok by (done || lia). cbn [mbind option_bind].
      destruct (Z.eqb_spec (obj_at t (top - 1 - 1)) 0) as [E0|E0]; cbn [negb].
      * destruct (IH (top - 1) (holes - 1)) as (top' & holes' & -> & ? & ? & ? & Hj); [lia|lia| |lia|].
        { rewrite Hh. replace (top - 1) with (top - 1 - 1 + 1) at 1 by lia.
          rewrite holes_snoc, E0 by lia. cbn. lia. }
        exists top', holes'. split_all; [done|lia|lia|done|done|]. intros j Hjt.
        destruct (decide (j = top - 1 - 1)) as [->|]; [done|apply Hj; lia].
      * exists (top - 1), holes. split_all; [done|lia|lia|done|by intros _|lia].
  - replace (top - 1) with bottom in * by lia. exists bottom, holes. split_all; [done|lia|lia|done|lia|lia].
Qed.

(** A live reference names its slot. *)
Lemma live_index t lo hi r o : table_ok t -> 0 <= lo -> hi <= max_entries_ t -> live t lo hi r o ->
  lo <= ExtractIndex r < hi /\ r = ref_of t (ExtractIndex r) /\ obj_at t (ExtractIndex r) = o /\ o <> 0.
Proof.
  intros H Hlo Hhi (i & Hi & -> & Ho & Hne).
  destruct (ref_of_facts t i H ltac:(lia)) as (-> & _ & _). split_all; [lia|lia|done..].
Qed.

(** The frame of the current segment after slot [i] has got the reference [r] to [obj]. *)
Lemma live_add t t' lo hi hi' i r obj (f : gmap Z Z) : table_ok t -> table_ok t' ->
  max_entries_ t' = max_entries_ t -> 0 <= lo -> hi' <= max_entries_ t ->
  lo <= i < hi' -> (i < hi -> obj_at t i = 0) -> hi <= hi' ->
  (forall j, hi <= j < hi' -> j = i) ->
  (forall j, obj_at t' j = if j =? i then obj else obj_at t j) ->
  (forall j, j <> i -> ref_of t' j = ref_of t j) -> r = ref_of t' i -> obj <> 0 ->
  (forall r o, f !! r = Some o <-> live t lo hi r o) ->
  forall r' o, <[r := obj]> f !! r' = Some o <-> live t' lo hi' r' o.
Proof.
  intros H H' Hm Hlo Hhi Hi Hfree Hle Hnew Hobj Href -> Hne Hf r' o.
  destruct (decide (r' = ref_of t' i)) as [->|Hr].
  - rewrite lookup_insert_eq. split.
    + intros [= <-]. exists i. rewrite Hobj, Z.eqb_refl. split_all; done || lia.
    + intros Hl. apply live_index in Hl as (_ & _ & Ho & _); [|done|done|lia].
      destruct (ref_of_facts t' i H' ltac:(lia)) as (E & _). by rewrite E, Hobj, Z.eqb_refl in Ho; subst.
  - rewrite lookup_insert_ne, Hf by done. split.
    + intros (j & Hj & -> & Ho & Hno). assert (j <> i) by (intros ->; rewrite Hfree in Ho; lia).
      exists j. rewrite Hobj, (proj2 (Z.eqb_neq j i)), Href by done. split_all; done || lia.
    + intros (j & Hj & -> & Ho & Hno). assert (Hji : j <> i) by congruence.
      exists j. rewrite Hobj, (proj2 (Z.eqb_neq j i)) in Ho by done. rewrite Href by done.
      destruct (Z.lt_ge_cases j hi); [split_all; done || lia|].
      destruct Hji. apply Hnew. lia.
Qed.

Lemma Add_ok t c cs f fs obj : table_ok t -> refines t (segment_state_ t) (c :: cs) (f :: fs) ->
  obj <> 0 -> topIndex (segment_state_ t) < max_entries_ t ->
  exists t' r, Add kIsDebugBuild c obj t = Some (t', r) /\ table_ok t' /\
    max_entries_ t' = max_entries_ t /\
    refines t' (segment_state_ t') (c :: cs) (<[r := obj]> f :: fs) /\ r <> 0 /\
    f !! r = None /\ r <> ref_of t (ExtractIndex r) /\
    topIndex (segment_state_ t') <= topIndex (segment_state_ t) + 1.
Proof.
  intros H Href Hne Htop. pose proof (refines_bound _ _ _ _ Href) as Hbnd.
  pose proof (top_range (segment_state_ t)) as Htr. pose proof (top_range c) as Hcr.
  destruct Href as ([Ho Hb Hh Ht] & Hf & Hr). set (top := topIndex (segment_state_ t)) in *.
  pose proof (table_max _ H) as Hmax.
  pose proof (holes_bounds (obj_at t) (topIndex c) top ltac:(lia)) as Hhb.
  unfold Add. fold top. rewrite (proj2 (Z.eqb_neq obj 0)), (proj2 (Z.eqb_neq top _)) by lia.
  rewrite (dcheck (numHoles c <=? _)) by (apply Z.leb_le; lia). cbn [mbind option_bind].
  (* the slot and the new state *)
  assert (exists i all, (if 0 <? numHoles (segment_state_ t) - numHoles c then
       _ ← DCHECK kIsDebugBuild (1 <? top);
       _ ← DCHECK_read kIsDebugBuild (obj ← ReferenceAt kIsDebugBuild t (top - 1); Some (negb (obj =? 0)));
       index ← Scan kIsDebugBuild (Z.to_nat top) t (topIndex c) (top - 2);
       Some (set_segment (set_numHoles (numHoles (segment_state_ t) - 1) (segment_state_ t)) t, index)
     else Some (set_segment (set_topIndex (top + 1) (segment_state_ t)) t, top)) =
     Some (set_segment all t, i) /\
     topIndex c <= i < topIndex all /\ top <= topIndex all <= max_entries_ t /\
     (forall j, top <= j < topIndex all -> j = i) /\
     (i < top -> obj_at t i = 0 /\ i <> top - 1) /\
     numHoles all = numHoles (segment_state_ t) - (if i <? top then 1 else 0))
    as (i & all & -> & Hi & Hall & Hnew & Hfree & Hholes).
  { destruct (Z.ltb_spec 0 (numHoles (segment_state_ t) - numHoles c)) as [Hpos|Hnp].
    - assert (Hlt : topIndex c < top) by (destruct (Z.eq_dec (topIndex c) top) as [E|];
        [rewrite E, holes_nil in Hh|]; lia).
      destruct (holes_some (obj_at t) (topIndex c) top ltac:(lia) ltac:(lia)) as (j & Hj & Hz).
      assert (Hjt : j <> top - 1) by (intros ->; by apply Ht).
      rewrite dcheck by (apply Z.ltb_lt; lia). cbn [mbind option_bind].
      assert (DCHECK_read kIsDebugBuild (obj ← ReferenceAt kIsDebugBuild t (top - 1);
        Some (negb (obj =? 0))) = Some tt) as ->.
      { unfold DCHECK_read. rewrite ReferenceAt_ok by (done || lia). cbn [mbind option_bind].
        rewrite dcheck; [by destruct kIsDebugBuild|]. by rewrite (proj2 (Z.eqb_neq _ 0)) by auto. }
      cbn [mbind option_bind].
      destruct (Scan_ok (Z.to_nat top) t (topIndex c) (top - 2)) as (i & -> & Hi & Hiz);
        [done|lia|lia|exists j; split; [lia|done]|lia|].
      eexists i, _. split; [reflexivity|]. autorewrite with word. fold top.
      split_all; [lia|lia|lia|lia|lia|split; [done|lia]|].
      by rewrite (proj2 (Z.ltb_lt i top)) by lia.
    - eexists top, _. split; [reflexivity|]. rewrite top_set_top, holes_set_top by lia.
      split_all; [lia|lia|lia|lia|lia|lia|]. rewrite Z.ltb_irrefl. lia. }
  cbn [mbind option_bind].
  destruct (add_at (set_segment all t) i obj) as (e & e' & He & E' & Ht' & Hobj & Hser);
    [by destruct H|cbn; lia|]. rewrite He. cbn [mbind option_bind]. rewrite E'. cbn [mbind option_bind].
  assert (Hcase : i < top /\ topIndex all = top \/ i = top /\ topIndex all = top + 1).
  { destruct (Z.lt_ge_cases i top) as [Hlt|Hge]; [left|right].
    - split; [done|]. destruct (Z.lt_ge_cases top (topIndex all)) as [Hl|]; [|lia].
      rewrite <- (Hnew top ltac:(lia)) in Hlt. lia.
    - assert (Hit : top = i) by (apply Hnew; lia). split; [done|].
      destruct (Z.lt_ge_cases (top + 1) (topIndex all)) as [Hl|]; [|lia].
      pose proof (Hnew (top + 1) ltac:(lia)). lia. }
  set (t' := set_table (zset (table_ (set_segment all t)) i e') (set_segment all t)) in *.
  change (serial_at (set_segment all t)) with (serial_at t) in Hser.
  change (obj_at (set_segment all t)) with (obj_at t) in Hobj.
  rewrite ToIndirectRef_ok by (done || (cbn; lia)). cbn [mbind option_bind].
  destruct (ref_of_facts t' i Ht' ltac:(cbn; lia)) as (Hidx & _ & Hnz).
  rewrite dcheck by (by rewrite (proj2 (Z.eqb_neq _ 0))). cbn [mbind option_bind].
  assert (Hro : forall j, j <> i -> ref_of t' j = ref_of t j).
  { intros j Hj. unfold ref_of. by rewrite Hser, (proj2 (Z.eqb_neq j i)). }
  assert (Hnewref : ref_of t' i <> ref_of t i).
  { pose proof (serial_range t i H ltac:(lia)) as Hsr. destruct (next_serial_fresh _ Hsr).
    pose proof prev_range. unfold ref_of. rewrite Hser, Z.eqb_refl.
    intros E%MakeRef_serial; [done|lia|lia|lia]. }
  assert (Hmt : max_entries_ t' = max_entries_ t) by reflexivity.
  exists t', (ref_of t' i). split_all; [done|done|done| |done| |by rewrite Hidx|cbn; lia].
  - change (segment_state_ t') with all. cbn [refines]. split_all.
    + constructor; [lia|done| |].
      * rewrite Hholes, Hh.
        rewrite (holes_update (obj_at t) (obj_at t') i) by (lia || (intros j ? Hj; by rewrite Hobj, (proj2 (Z.eqb_neq j i)))).
        rewrite Hobj, Z.eqb_refl, (proj2 (Z.eqb_neq obj 0)) by done.
        rewrite (proj2 (Z.leb_le _ i)), (proj2 (Z.ltb_lt i (topIndex all))) by lia. cbn [andb].
        destruct (Z.ltb_spec i top) as [Hlt|Hge].
        -- destruct Hcase as [[_ ->]|]; [|lia]. destruct (Hfree Hlt) as [-> _]. cbn. lia.
        -- destruct Hcase as [|[-> ->]]; [lia|]. rewrite holes_snoc by lia. lia.
      * intros _. rewrite Hobj. case_Zcmp; [done|].
        destruct Hcase as [[? ->]|]; [apply Ht|]; lia.
    + apply (live_add t t' (topIndex c) top (topIndex all) i _ obj); try done; try lia.
    + apply (refines_ext t); [done| |done]. intros j Hj. assert (j <> i) by lia.
      rewrite Hobj, (proj2 (Z.eqb_neq j i)) by done. split; [done|by apply Hro].
  - destruct (f !! ref_of t' i) as [o|] eqn:E; [|done]. exfalso.
    apply Hf in E. apply live_index in E as (_ & E & _); [|done|lia|lia].
    by rewrite Hidx in E.
Qed.

(** The frame of the current segment without slot [i] and without the holes at its end. *)
Lemma live_remove t t' lo hi hi' i (f : gmap Z Z) : table_ok t -> table_ok t' ->
  max_entries_ t' = max_entries_ t -> 0 <= lo -> hi <= max_entries_ t -> lo <= i < hi -> hi' <= hi ->
  (forall j, hi' <= j < hi -> obj_at t' j = 0) ->
  (forall j, obj_at t' j = if j =? i then 0 else obj_at t j) ->
  (forall j, ref_of t' j = ref_of t j) ->
  (forall r o, f !! r = Some o <-> live t lo hi r o) ->
  forall r o, delete (ref_of t i) f !! r = Some o <-> live t' lo hi' r o.
Proof.
  intros H H' Hm Hlo Hhi Hi Hle Hend Hobj Href Hf r o. rewrite lookup_delete_Some, Hf. split.
  - intros [Hne (j & Hj & -> & Ho & Hno)]. assert (Hji : j <> i) by congruence.
    assert (Hoj : obj_at t' j = o) by (by rewrite Hobj, (proj2 (Z.eqb_neq j i))).
    exists j. rewrite Href. split_all; try done; [lia|].
    destruct (Z.lt_ge_cases j hi'); [done|]. rewrite (Hend j) in Hoj by lia. congruence.
  - intros (j & Hj & -> & Ho & Hno). rewrite Hobj in Ho.
    destruct (Z.eqb_spec j i) as [->|Hji]; [congruence|]. rewrite Href. split.
    + intros E. destruct (ref_of_facts t i H ltac:(lia)) as (E1 & _).
      destruct (ref_of_facts t j H ltac:(lia)) as (E2 & _). congruence.
    + exists j. split_all; done || lia.
Qed.

Hypothesis check_jni : IsCheckJniEnabled = true.

Lemma CheckEntry_ok t iref i : table_ok t -> 0 <= i < max_entries_ t ->
  CheckEntry kIsDebugBuild IsCheckJniEnabled t iref i = Some (bool_decide (iref = ref_of t i)).
Proof.
  intros H Hi. unfold CheckEntry. rewrite ToIndirectRef_ok by done. cbn [mbind option_bind].
  unfold AbortIfNoCheckJNI. rewrite check_jni.
  destruct (Z.eqb_spec (ref_of t i) iref) as [->|Hne]; cbn [negb].
  - by rewrite bool_decide_true.
  - by rewrite bool_decide_false by congruence.
Qed.

(** Nothing is found in the wrong segment, in an empty slot or under a stale reference. *)
Lemma not_live t lo hi (f : gmap Z Z) iref : table_ok t -> 0 <= lo -> hi <= max_entries_ t ->
  (forall r o, f !! r = Some o <-> live t lo hi r o) ->
  (lo <= ExtractIndex iref < hi -> obj_at t (ExtractIndex iref) <> 0 ->
   iref = ref_of t (ExtractIndex iref) -> False) -> f !! iref = None.
Proof.
  intros H Hlo Hhi Hf Hno. destruct (f !! iref) as [o|] eqn:E; [exfalso|done].
  apply Hf in E. apply live_index in E as (Hi & Hr & Ho & Hne); [|done..].
  apply Hno; [done|congruence|done].
Qed.

Lemma Remove_ok t c cs f fs iref : table_ok t -> refines t (segment_state_ t) (c :: cs) (f :: fs) ->
  bool_decide (GetIndirectRefKind iref = kHandleScopeOrInvalid) && HandleScopeContains iref = false ->
  exists t', Remove kIsDebugBuild IsCheckJniEnabled HandleScopeContains c iref t =
      Some (t', bool_decide (is_Some (f !! iref))) /\
    table_ok t' /\ max_entries_ t' = max_entries_ t /\
    topIndex (segment_state_ t') <= topIndex (segment_state_ t) /\
    refines t' (segment_state_ t') (c :: cs) (delete iref f :: fs) /\
    forall j, ref_of t' j = ref_of t j.
Proof.
  intros H Href Hkind. pose proof (refines_bound _ _ _ _ Href) as Hbnd.
  pose proof (top_range (segment_state_ t)) as Htr. pose proof (top_range c) as Hcr.
  pose proof Href as ([Ho Hb Hh Ht] & Hf & Hr). set (top := topIndex (segment_state_ t)) in *.
  pose proof (table_max _ H) as Hmax.
  pose proof (holes_bounds (obj_at t) (topIndex c) top ltac:(lia)) as Hhb.
  assert (Hnone : f !! iref = None -> exists t', Some (t, false) = Some (t', bool_decide (is_Some (f !! iref))) /\
    table_ok t' /\ max_entries_ t' = max_entries_ t /\ topIndex (segment_state_ t') <= top /\
    refines t' (segment_state_ t') (c :: cs) (delete iref f :: fs) /\
    forall j, ref_of t' j = ref_of t j).
  { intros E. exists t. rewrite E, delete_id by done. by split_all. }
  unfold Remove. fold top. rewrite (dcheck (numHoles c <=? _)) by (apply Z.leb_le; lia).
  cbn [mbind option_bind]. rewrite Hkind. set (idx := ExtractIndex iref).
  destruct (Z.ltb_spec idx (topIndex c)).
  { apply Hnone, (not_live t (topIndex c) top); [done|lia|lia|done|]. fold idx. lia. }
  destruct (Z.leb_spec top idx).
  { apply Hnone, (not_live t (topIndex c) top); [done|lia|lia|done|]. fold idx. lia. }
  rewrite CheckEntry_ok by (done || lia). rewrite ReferenceAt_ok by (done || lia).
  cbn [mbind option_bind].
  assert (Hstale : iref <> ref_of t idx -> f !! iref = None)
    by (intros; apply (not_live t (topIndex c) top); [done|lia|lia|done|by fold idx]).
  (* a live entry *)
  assert (Hlive : iref = ref_of t idx -> obj_at t idx <> 0 ->
    bool_decide (is_Some (f !! iref)) = true).
  { intros E Hne. apply bool_decide_true. exists (obj_at t idx). apply Hf. exists idx.
    split_all; done || lia. }
  destruct (ClearReference_ok t idx H ltac:(lia)) as (table & Hclear & Hok' & Hobj & Hro).
  set (t1 := set_table table t) in *.
  assert (Hfin : forall all, iref = ref_of t idx -> obj_at t idx <> 0 ->
    topIndex c <= topIndex all <= top ->
    numHoles all = numHoles c + holes_in (obj_at t1) (topIndex c) (topIndex all) ->
    (topIndex c < topIndex all -> obj_at t1 (topIndex all - 1) <> 0) ->
    (forall j, topIndex all <= j < top -> obj_at t1 j = 0) ->
    exists t', Some (set_segment all t1, true) = Some (t', bool_decide (is_Some (f !! iref))) /\
    table_ok t' /\ max_entries_ t' = max_entries_ t /\ topIndex (segment_state_ t') <= top /\
    refines t' (segment_state_ t') (c :: cs) (delete iref f :: fs) /\
    forall j, ref_of t' j = ref_of t j).
  { intros all E Hne Hall Hh' Ht' Hend. exists (set_segment all t1). rewrite Hlive by done.
    split_all; [done|by destruct Hok'|done|cbn; lia| |exact Hro]. cbn [refines]. split_all.
    - constructor; [cbn; lia|done|exact Hh'|exact Ht'].
    - rewrite E.
      apply (live_remove t (set_segment all t1) (topIndex c) top); try done; [by destruct Hok'|lia|lia|].
      cbn. lia.
    - apply (refines_ext t); [done| |done]. intros j Hj. split; [|apply Hro].
      change (obj_at t1 j = obj_at t j). rewrite Hobj. case_Zcmp; [lia|done]. }
  assert (Hsub : obj_at t idx <> 0 ->
    holes_in (obj_at t1) (topIndex c) top = holes_in (obj_at t) (topIndex c) top + 1).
  { intros Hne. rewrite (holes_update (obj_at t) (obj_at t1) idx)
      by (lia || (intros j ? Hj; by rewrite Hobj, (proj2 (Z.eqb_neq j idx)))).
    rewrite Hobj, Z.eqb_refl, (proj2 (Z.eqb_neq _ 0) Hne).
    rewrite (proj2 (Z.leb_le _ idx)), (proj2 (Z.ltb_lt idx top)) by lia. done. }
  destruct (Z.eqb_spec idx (top - 1)) as [Hlast|Hlast].
  - assert (Hne : obj_at t idx <> 0) by (rewrite Hlast; apply Ht; lia).
    destruct (decide (iref = ref_of t idx)) as [E|E].
    2: { rewrite bool_decide_false by done. by apply Hnone, Hstale. }
    rewrite (bool_decide_true (iref = _)) by done. cbn [negb]. rewrite Hclear. cbn [mbind option_bind].
    change (segment_state_ t1) with (segment_state_ t).
    assert (Hlow : holes_in (obj_at t1) (topIndex c) (top - 1) = numHoles (segment_state_ t) - numHoles c).
    { specialize (Hsub Hne). replace top with (top - 1 + 1) in Hsub at 1 by lia.
      rewrite holes_snoc, Hobj, Hlast, Z.eqb_refl in Hsub by lia. cbn in Hsub. lia. }
    assert (Hz : obj_at t1 (top - 1) = 0) by (by rewrite Hobj, Hlast, Z.eqb_refl).
    destruct (Z.eqb_spec (numHoles (segment_state_ t) - numHoles c) 0) as [E0|E0]; cbn [negb].
    + apply Hfin; rewrite ?top_set_top, ?holes_set_top by lia; try done; try lia.
      * intros Hlt. apply (holes_none (obj_at t1) (topIndex c) (top - 1)); lia.
      * intros j Hj. by replace j with (top - 1) by lia.
    + destruct (EatHoles_ok (Z.to_nat top) t1 (topIndex c) top
        (numHoles (segment_state_ t) - numHoles c)) as (top' & holes' & -> & Htop' & Hh' & Hlast' & Hend);
        [done|lia|cbn; lia|done|lia|].
      cbn [mbind option_bind].
      pose proof (holes_bounds (obj_at t1) (topIndex c) top' ltac:(lia)).
      apply Hfin; rewrite ?top_set_top, ?holes_set_top, ?holes_set_holes by lia; try done; try lia.
      intros j Hj. destruct (decide (j = top - 1)) as [->|]; [done|apply Hend; lia].
  - destruct (Z.eqb_spec (obj_at t idx) 0) as [E0|E0].
    { apply Hnone, (not_live t (topIndex c) top); [done|lia|lia|done|]. by fold idx. }
    destruct (decide (iref = ref_of t idx)) as [E|E].
    2: { rewrite bool_decide_false by done. by apply Hnone, Hstale. }
    rewrite (bool_decide_true (iref = _)) by done. cbn [negb]. rewrite Hclear. cbn [mbind option_bind].
    change (segment_state_ t1) with (segment_state_ t).
    pose proof (holes_bounds (obj_at t1) (topIndex c) top ltac:(lia)) as Hhb1. specialize (Hsub E0).
    apply Hfin; rewrite ?top_set_holes, ?holes_set_holes by lia; fold top; try done; try lia.
    intros Hlt. rewrite Hobj, (proj2 (Z.eqb_neq _ idx)) by lia. by apply Ht.
Qed.

(** ** Looking up *)

(** The object of a reference in a stack of frames, 0 if there is none. *)
Definition spec_get (frames : list (gmap Z Z)) (r : Z) : Z :=
  foldr (fun f o => default o (f !! r)) 0 frames.

Lemma live_frames t upper cs fs r o : refines t upper cs fs ->
  (exists f, f ∈ fs /\ f !! r = Some o) <-> live t 0 (topIndex upper) r o.
Proof.
  revert upper fs. induction cs as [|c cs IH]; intros upper [|f fs]; try done; cbn [refines].
  - intros ->. split; [by intros (f & ?%elem_of_nil & _)|].
    intros (i & Hi & _). rewrite top_mod in Hi. change (IRT_FIRST_SEGMENT mod 65536) with 0 in Hi. lia.
  - intros ([Ho _ _ _] & Hf & Hr). pose proof (top_range c). split.
    + intros (g & [->|Hg]%elem_of_cons & E).
      * apply Hf in E as (i & Hi & E). exists i. split; [lia|done].
      * destruct (proj1 (IH c fs Hr) (ex_intro _ g (conj Hg E))) as (i & Hi & E'). exists i.
        split; [lia|done].
    + intros (i & Hi & E). destruct (Z.lt_ge_cases i (topIndex c)).
      * destruct (proj2 (IH c fs Hr)) as (g & Hg & Eg); [exists i; split; [lia|done]|].
        exists g. split; [by right|done].
      * exists f. split; [by left|]. apply Hf. exists i. split; [lia|done].
Qed.

Lemma spec_get_some fs r o : (exists f, f ∈ fs /\ f !! r = Some o) ->
  (forall f o', f ∈ fs -> f !! r = Some o' -> o' = o) -> spec_get fs r = o.
Proof.
  unfold spec_get. induction fs as [|f fs IH]; [by intros (f & ?%elem_of_nil & _)|].
  intros (g & [->|Hg]%elem_of_cons & E) Hall; cbn.
  - by rewrite E.
  - destruct (f !! r) as [o'|] eqn:Ef; cbn; [by apply (Hall f); [left|]|].
    apply IH; [eauto|]. intros h o' Hh. apply (Hall h). by right.
Qed.

Lemma spec_get_none fs r : (forall f, f ∈ fs -> f !! r = None) -> spec_get fs r = 0.
Proof.
  unfold spec_get. induction fs as [|f fs IH]; intros Hall; [done|]. cbn.
  rewrite (Hall f) by (by left). apply IH. intros g Hg. apply Hall. by right.
Qed.

Lemma Get_ok t cs fs iref : table_ok t -> topIndex (segment_state_ t) <= max_entries_ t ->
  refines t (segment_state_ t) cs fs ->
  Get kIsDebugBuild IsCheckJniEnabled t iref = Some (spec_get fs iref).
Proof.
  intros H Hmax Href. pose proof (top_range (segment_state_ t)) as Htr.
  assert (Hnone : (forall o, ~ live t 0 (topIndex (segment_state_ t)) iref o) ->
    spec_get fs iref = 0).
  { intros Hno. apply spec_get_none. intros f Hf. destruct (f !! iref) as [o|] eqn:E; [|done].
    destruct (Hno o). apply (live_frames t _ cs fs iref o Href). eauto. }
  assert (Hindex : forall o, live t 0 (topIndex (segment_state_ t)) iref o ->
    0 <= ExtractIndex iref < topIndex (segment_state_ t) /\ iref = ref_of t (ExtractIndex iref) /\
    obj_at t (ExtractIndex iref) = o /\ o <> 0)
    by (intros o; by apply live_index).
  assert (Habort : AbortIfNoCheckJNI IsCheckJniEnabled = Some tt)
    by (unfold AbortIfNoCheckJNI; by rewrite check_jni).
  unfold Get, GetChecked. rewrite Habort. set (idx := ExtractIndex iref) in *.
  assert (Hidx : 0 <= idx) by (unfold idx; rewrite ExtractIndex_arith; apply Z.mod_pos_bound; lia).
  destruct (Z.eqb_spec iref 0) as [E|Hz].
  { rewrite Hnone; [done|]. intros o (Hi & Er & _)%Hindex.
    destruct (ref_of_facts t idx H ltac:(lia)) as (_ & _ & Hnz). congruence. }
  case_bool_decide as Hk.
  { rewrite Hnone; [done|]. intros o (Hi & Er & _)%Hindex.
    destruct (ref_of_facts t idx H ltac:(lia)) as (_ & Hk' & _). rewrite <- Er in Hk'.
    destruct (table_kind _ H). congruence. }
  destruct (Z.leb_spec (topIndex (segment_state_ t)) idx).
  { rewrite Hnone; [done|]. intros o (Hi & _)%Hindex. lia. }
  rewrite ReferenceAt_ok by (done || lia). cbn [mbind option_bind].
  destruct (Z.eqb_spec (obj_at t idx) 0) as [E|Hne].
  { rewrite Hnone; [done|]. intros o (_ & _ & Ho & Hn)%Hindex. congruence. }
  rewrite CheckEntry_ok by (done || lia). cbn [mbind option_bind].
  case_bool_decide as Hr; cbn [negb].
  - f_equal. symmetry.
    assert (Hl : live t 0 (topIndex (segment_state_ t)) iref (obj_at t idx))
      by (exists idx; split_all; done || lia).
    apply spec_get_some; [exact (proj2 (live_frames t _ cs fs iref _ Href) Hl)|].
    intros f o' Hf Eo.
    assert (Hl' : live t 0 (topIndex (segment_state_ t)) iref o')
      by (apply (live_frames t _ cs fs iref o' Href); eauto).
    by destruct (Hindex o' Hl') as (_ & _ & <- & _).
  - rewrite Hnone; [done|]. intros o (_ & Er & _)%Hindex. congruence.
Qed.
End Facts.

(** ** Local references as a stack of maps *)
Section LocalReferences.
Context (kIsDebugBuild : bool) (HandleScopeContains : Z -> bool).

Inductive JniOp :=
  | OpNewLocalRef (obj : Z)
  | OpDeleteLocalRef (ref : Z)
  | OpPushFrame
  | OpPopLocalFrame (survivor : Z).

(** The environment after the call and the reference that the call returns, if any.  CheckJNI is
    on, so that an invalid reference is reported and does not abort. *)
Definition call (op : JniOp) (env : JNIEnvExt) : option (JNIEnvExt * Z) :=
  match op with
  | OpNewLocalRef obj => NewLocalRef kIsDebugBuild obj env
  | OpDeleteLocalRef ref =>
      env ← DeleteLocalRef kIsDebugBuild true HandleScopeContains ref env; Some (env, 0)
  | OpPushFrame => Some (PushFrame env, 0)
  | OpPopLocalFrame survivor => PopLocalFrame kIsDebugBuild survivor env
  end.

(** The specification: a new reference is one that no frame has; deletion only affects the frame
    on top; [PopLocalFrame] drops it and hands the survivor to the frame below. *)
Inductive spec_new : list (gmap Z Z) -> Z -> Z -> list (gmap Z Z) -> Prop :=
  | new_null frames : spec_new frames 0 0 frames
  | new_ref f fs obj r : obj <> 0 -> r <> 0 -> spec_get (f :: fs) r = 0 ->
      spec_new (f :: fs) obj r (<[r := obj]> f :: fs).

Inductive spec_call : list (gmap Z Z) -> JniOp -> Z -> list (gmap Z Z) -> Prop :=
  | call_new frames obj r frames' : spec_new frames obj r frames' ->
      spec_call frames (OpNewLocalRef obj) r frames'
  | call_delete f fs ref : spec_call (f :: fs) (OpDeleteLocalRef ref) 0 (delete ref f :: fs)
  | call_push frames : spec_call frames OpPushFrame 0 (∅ :: frames)
  | call_pop f fs survivor r frames' : spec_new fs survivor r frames' ->
      spec_call (f :: fs) (OpPopLocalFrame survivor) r frames'.

Fixpoint calls (ops : list JniOp) (env : JNIEnvExt) : option (JNIEnvExt * list Z) :=
  match ops with
  | [] => Some (env, [])
  | op :: ops =>
      '(env, r) ← call op env;
      '(env, rs) ← calls ops env;
      Some (env, r :: rs)
  end.

Inductive spec_calls : list (gmap Z Z) -> list JniOp -> list Z -> list (gmap Z Z) -> Prop :=
  | calls_nil frames : spec_calls frames [] [] frames
  | calls_cons frames op ops r rs frames1 frames2 : spec_call frames op r frames1 ->
      spec_calls frames1 ops rs frames2 -> spec_calls frames (op :: ops) (r :: rs) frames2.

(** Every pop has its push; [depth] frames have been pushed before. *)
Fixpoint nested (depth : nat) (ops : list JniOp) : bool :=
  match ops with
  | [] => true
  | OpPushFrame :: ops => nested (S depth) ops
  | OpPopLocalFrame _ :: ops => match depth with O => false | S d => nested d ops end
  | _ :: ops => nested depth ops
  end.

Record env_ok (env : JNIEnvExt) (frames : list (gmap Z Z)) (size : Z) : Prop := {
  env_table : table_ok kIsDebugBuild (locals env);
  env_max : max_entries_ (locals env) = kLocalsMax;
  env_frames : refines (locals env) (segment_state_ (locals env))
                 (local_ref_cookie env :: stacked_local_ref_cookies env) frames;
  env_size : Capacity (locals env) <= size;
}.

Lemma NewLocalRef_ok env frames size obj : env_ok env frames size -> size < kLocalsMax ->
  exists env' r frames', NewLocalRef kIsDebugBuild obj env = Some (env', r) /\
    spec_new frames obj r frames' /\ env_ok env' frames' (size + 1) /\
    stacked_local_ref_cookies env' = stacked_local_ref_cookies env.
Proof.
  intros [Ht Hm Hf Hs] Hsize. unfold NewLocalRef. destruct (Z.eqb_spec obj 0) as [->|Hne].
  { exists env, 0, frames. split_all; [done|constructor| |done]. constructor; try done. lia. }
  destruct frames as [|f fs]; [done|]. unfold Capacity in Hs.
  destruct (Add_ok kIsDebugBuild (locals env) _ _ f fs obj Ht Hf Hne ltac:(lia))
    as (t' & r & -> & Ht' & Hm' & Hf' & Hr & _ & Hfresh & Htop).
  exists (set_locals t' env), r, (<[r := obj]> f :: fs). split_all; [done| | |done].
  - constructor; [done..|]. apply spec_get_none. intros g Hg.
    destruct (g !! r) as [o|] eqn:E; [exfalso|done].
    assert (Hl : live (locals env) 0 (topIndex (segment_state_ (locals env))) r o)
      by (apply (live_frames _ _ _ (f :: fs) r o Hf); eauto).
    apply (live_index kIsDebugBuild) in Hl as (_ & Er & _); [done|done|lia|]. unfold kLocalsMax in *. lia.
  - constructor; cbn; [done|congruence|done|]. unfold Capacity. lia.
Qed.

Lemma frame_ref env f fs size r o : env_ok env (f :: fs) size -> f !! r = Some o ->
  r <> 0 /\ GetIndirectRefKind r <> kHandleScopeOrInvalid.
Proof.
  intros [Ht Hm ([Ho _ _ _] & Hl & _) Hs] E. pose proof (top_range (local_ref_cookie env)).
  apply Hl, (live_index kIsDebugBuild) in E as (Hi & -> & _); [|done|lia|lia].
  destruct (ref_of_facts kIsDebugBuild (locals env) (ExtractIndex r) Ht ltac:(lia)) as (_ & -> & Hnz).
  split; [done|]. apply (table_kind _ _ Ht).
Qed.

Lemma DeleteLocalRef_ok env f fs size ref : env_ok env (f :: fs) size ->
  exists env', DeleteLocalRef kIsDebugBuild true HandleScopeContains ref env = Some env' /\
    env_ok env' (delete ref f :: fs) size /\
    stacked_local_ref_cookies env' = stacked_local_ref_cookies env.
Proof.
  intros Hok. pose proof Hok as [Ht Hm Hf Hs].
  assert (Hsame : f !! ref = None -> env_ok env (delete ref f :: fs) size)
    by (intros E; by rewrite delete_id).
  unfold DeleteLocalRef. destruct (Z.eqb_spec ref 0) as [->|Hne]; cbn [negb].
  { exists env. split_all; [done| |done]. apply Hsame. destruct (f !! 0) eqn:E; [exfalso|done].
    by destruct (frame_ref env f fs size _ _ Hok E). }
  destruct (bool_decide (GetIndirectRefKind ref = kHandleScopeOrInvalid) && HandleScopeContains ref) eqn:Ek.
  - unfold Remove. rewrite Ek. destruct (refines_bound _ _ _ _ Hf) as [_ Hle].
    destruct Hf as ([Ho Hb Hh _] & _).
    pose proof (holes_bounds (obj_at (locals env)) _ _ (proj1 Ho)).
    rewrite (dcheck _ (numHoles (local_ref_cookie env) <=? _)) by (apply Z.leb_le; lia).
    exists env. split_all; [by destruct env| |done]. apply Hsame.
    destruct (f !! ref) eqn:E; [exfalso|done].
    destruct (frame_ref env f fs size _ _ Hok E) as [_ Hk].
    apply andb_true_iff in Ek as [Ek%bool_decide_eq_true _]. done.
  - destruct (Remove_ok kIsDebugBuild true HandleScopeContains eq_refl (locals env) _ _ f fs ref Ht Hf Ek)
      as (t' & -> & Ht' & Hm' & Htop & Hf' & _).
    exists (set_locals t' env). split_all; [done| |done]. unfold Capacity in Hs.
    constructor; cbn; [done|congruence|done|]. unfold Capacity. lia.
Qed.

Lemma call_ok op env frames size ops : env_ok env frames size -> size < kLocalsMax ->
  nested (length (stacked_local_ref_cookies env)) (op :: ops) = true ->
  exists env' r frames', call op env = Some (env', r) /\ spec_call frames op r frames' /\
    env_ok env' frames' (size + 1) /\
    nested (length (stacked_local_ref_cookies env')) ops = true.
Proof.
  intros Hok Hsize Hn. pose proof Hok as [Ht Hm Hf Hs]. destruct frames as [|f fs]; [done|].
  destruct op as [obj|ref| |survivor]; cbn [call].
  - destruct (NewLocalRef_ok env (f :: fs) size obj Hok Hsize) as (env' & r & frames' & -> & ? & ? & E).
    exists env', r, frames'. rewrite E. split_all; try done. by constructor.
  - destruct (DeleteLocalRef_ok env f fs size ref Hok) as (env' & -> & [] & E).
    exists env', 0, (delete ref f :: fs). rewrite E. split_all; [done|constructor| |done].
    constructor; try done. lia.
  - exists (PushFrame env), 0, (∅ :: f :: fs). split_all; [done|constructor| |done].
    destruct (refines_bound _ _ _ _ Hf). pose proof (top_range (segment_state_ (locals env))).
    unfold PushFrame, GetSegmentState.
    constructor; [done|done| |unfold Capacity in *; cbn; lia].
    cbn [refines local_ref_cookie stacked_local_ref_cookies locals].
    split; [|split; [intros r o; rewrite lookup_empty; split; [done|intros (i & Hi & _)]|exact Hf]].
    + constructor; [|done|by rewrite holes_nil, Z.add_0_r|lia].
      unfold Capacity, kLocalsMax in *. rewrite Hm. destruct Hf as ([Ho _ _ _] & _). lia.
    + lia.
  - cbn [nested] in Hn. unfold PopLocalFrame, PopFrame.
    destruct (stacked_local_ref_cookies env) as [|c cs] eqn:Ec; [done|]. cbn [length mbind option_bind] in *.
    set (env1 := mkEnv c _ cs).
    assert (Hok1 : env_ok env1 fs size).
    { destruct Hf as ([Ho _ _ _] & _ & Hf).
      constructor; [by destruct Ht|done| |unfold Capacity in *; cbn; lia].
      by apply (refines_ext (locals env)). }
    destruct (NewLocalRef_ok env1 fs size survivor Hok1 Hsize) as (env' & r & frames' & Hnew & ? & ? & E).
    exists env', r, frames'. rewrite E. split_all; [exact Hnew|by constructor|done|done].
Qed.

Lemma calls_ok ops env frames size : env_ok env frames size ->
  size + Z.of_nat (length ops) <= kLocalsMax ->
  nested (length (stacked_local_ref_cookies env)) ops = true ->
  exists env' rs frames' size', calls ops env = Some (env', rs) /\ spec_calls frames ops rs frames' /\
    env_ok env' frames' size'.
Proof.
  revert env frames size. induction ops as [|op ops IH]; intros env frames size Hok Hs Hn.
  { exists env, [], frames, size. split_all; [done|constructor|done]. }
  cbn [length] in Hs.
  destruct (call_ok op env frames size ops Hok ltac:(lia) Hn) as (env1 & r & frames1 & E1 & S1 & Hok1 & Hn1).
  destruct (IH env1 frames1 (size + 1) Hok1 ltac:(lia) Hn1) as (env2 & rs & frames2 & size2 & E2 & S2 & Hok2).
  exists env2, (r :: rs), frames2, size2. cbn [calls]. rewrite E1. cbn [mbind option_bind].
  rewrite E2. split_all; [done|by econstructor|done].
Qed.

Lemma JNIEnvExt_Create_ok : exists env, JNIEnvExt_Create kIsDebugBuild true = Some (Some env) /\
  env_ok env [∅] 0 /\ stacked_local_ref_cookies env = [].
Proof.
  eexists. split_all; [reflexivity| |done]. constructor; [|done| |].
  - constructor; cbn -[Z.to_nat replicate]; [by rewrite length_replicate|done|done|].
    apply Forall_replicate. pose proof (prev_range kIsDebugBuild).
    split; cbn; [lia|]. rewrite length_replicate. lia.
  - cbn [refines local_ref_cookie stacked_local_ref_cookies locals segment_state_].
    split_all; [|intros r o; rewrite lookup_empty; split; [done|intros (i & Hi & _)]|done].
    + constructor; [by vm_compute|by vm_compute|by rewrite holes_nil, Z.add_0_r|lia].
    + lia.
  - by vm_compute.
Qed.
End LocalReferences.

(** ** Properties *)


(** Two references in two frames; the first cannot be deleted from the inner frame. *)
Definition sample_calls : list JniOp :=
  [OpNewLocalRef 80; OpPushFrame; OpNewLocalRef 96; OpNewLocalRef 112; OpDeleteLocalRef 1048581;
   OpDeleteLocalRef 1048577; OpNewLocalRef 128; OpPopLocalFrame 96].


(** The use of a reference after its deletion is noticed although its slot is used again:
    the reference that takes the slot next has another serial number, and the old one still
    yields null. *)
Theorem stale_reference (kIsDebugBuild : bool) (HandleScopeContains : Z -> bool)
  (env : JNIEnvExt) (f : gmap Z Z) (fs : list (gmap Z Z)) (size ref o obj : Z)
  (Hok : env_ok kIsDebugBuild env (f :: fs) size) (Hsize : size < kLocalsMax)
  (Href : f !! ref = Some o) (Hobj : obj <> 0) :
  exists env1 env2 r, DeleteLocalRef kIsDebugBuild true HandleScopeContains ref env = Some env1 /\
    NewLocalRef kIsDebugBuild obj env1 = Some (env2, r) /\ r <> ref /\
    Get kIsDebugBuild true (locals env1) ref = Some 0 /\
    Get kIsDebugBuild true (locals env2) ref = Some 0 /\
    Get kIsDebugBuild true (locals env2) r = Some obj.
Proof.
  destruct (frame_ref kIsDebugBuild env f fs size ref o Hok Href) as [Hnz Hkind].
  destruct Hok as [Ht Hm Hf Hs].
  pose proof Hf as ([Ho _ _ _] & Hl & Hlow). pose proof (top_range (local_ref_cookie env)).
  pose proof (proj1 (Hl ref o) Href) as Hlive.
  apply (live_index kIsDebugBuild) in Hlive as (Hi & Er & _); [|done|lia|lia].
  assert (Hfs : spec_get fs ref = 0).
  { apply spec_get_none. intros g Hg. destruct (g !! ref) as [o'|] eqn:E; [exfalso|done].
    assert (Hg' : live (locals env) 0 (topIndex (local_ref_cookie env)) ref o')
      by (apply (live_frames _ _ _ fs ref o' Hlow); eauto).
    apply (live_index kIsDebugBuild) in Hg' as (Hi' & _); [lia|done|lia|lia]. }
  unfold DeleteLocalRef, NewLocalRef, Capacity in *. rewrite (proj2 (Z.eqb_neq ref 0) Hnz). cbn [negb].
  destruct (Remove_ok kIsDebugBuild true HandleScopeContains eq_refl (locals env) _ _ f fs ref Ht Hf)
    as (t1 & -> & Ht1 & Hm1 & Htop1 & Hf1 & Hro); [by rewrite bool_decide_false|].
  destruct (Add_ok kIsDebugBuild t1 _ _ _ fs obj Ht1 Hf1 Hobj ltac:(lia))
    as (t2 & r & Ha & Ht2 & Hm2 & Hf2 & Hr & _ & Hfresh & Htop2).
  exists (set_locals t1 env), (set_locals t2 (set_locals t1 env)), r.
  assert (Hne : r <> ref) by (intros ->; by rewrite Hro in Hfresh).
  cbn [mbind option_bind]. rewrite (proj2 (Z.eqb_neq obj 0) Hobj). cbn [locals local_ref_cookie set_locals].
  rewrite Ha. split_all; [done|done|done|..].
  all: erewrite Get_ok; [|done|eassumption| |eassumption]; [|lia].
  all: cbn [spec_get foldr]; f_equal; fold (spec_get fs ref).
  - by rewrite lookup_delete_eq.
  - by rewrite lookup_insert_ne, lookup_delete_eq by done.
  - by rewrite lookup_insert_eq.
Qed.

Lemma stale_reference_witness :
  exists env env1 env2, env_ok false env [{[ 1048577 := 80 ]}] 1 /\
    DeleteLocalRef false true (fun _ => false) 1048577 env = Some env1 /\
    NewLocalRef false 96 env1 = Some (env2, 2097153) /\ Get false true (locals env2) 1048577 = Some 0.
Proof.
  destruct (JNIEnvExt_Create_ok false) as (env0 & Hc & Hok0 & _).
  destruct (NewLocalRef_ok false env0 [∅] 0 80 Hok0) as (env & r & frames & Hn & Hs & Hok & _).
  { reflexivity. }
  vm_compute in Hc. injection Hc as <-. vm_compute in Hn. injection Hn as <- <-.
  inversion Hs as [|g gs obj r Hobj Hr Hg]; subst.
  destruct (stale_reference false (fun _ => false) _ _ _ 1 1048577 80 96 Hok)
    as (env1 & env2 & r & Hd & Hn & _ & _ & Hg2 & _).
  - reflexivity.
  - reflexivity.
  - discriminate.
  - eexists _, env1, env2. split; [exact Hok|]. split; [exact Hd|]. split; [|exact Hg2].
    vm_compute in Hd. injection Hd as <-. rewrite Hn. vm_compute in Hn. by injection Hn as <- <-.
Defined.
