(* ===== verification/LockWord.v ===== *)
(** * Lock words ([lock_word.h], [lock_word-inl.h])

    The 32 bits of [mirror::Object::monitor_]: a thin lock with owner and count, the id of a fat
    lock's monitor, an identity hash code or a forwarding address, and two read barrier bits.
    [None] is a failed [CHECK]. *)
From S2P Require Import Prelude.
Local Open Scope Z_scope.

Definition kStateSize : Z := 2.
Definition kReadBarrierStateSize : Z := 2.
Definition kThinLockOwnerSize : Z := 16.
Definition kThinLockCountSize : Z := 32 - kThinLockOwnerSize - kStateSize - kReadBarrierStateSize.
Definition kThinLockOwnerShift : Z := 0.
Definition kThinLockOwnerMask : Z := (1 ≪ kThinLockOwnerSize) - 1.
Definition kThinLockMaxOwner : Z := kThinLockOwnerMask.
Definition kThinLockCountShift : Z := kThinLockOwnerSize + kThinLockOwnerShift.
Definition kThinLockCountMask : Z := (1 ≪ kThinLockCountSize) - 1.
Definition kThinLockMaxCount : Z := kThinLockCountMask.
Definition kStateShift : Z := kReadBarrierStateSize + kThinLockCountSize + kThinLockCountShift.
Definition kStateMask : Z := (1 ≪ kStateSize) - 1.
Definition kStateThinOrUnlocked : Z := 0.
Definition kStateFat : Z := 1.
Definition kStateHash : Z := 2.
Definition kStateForwardingAddress : Z := 3.
Definition kReadBarrierStateShift : Z := kThinLockCountSize + kThinLockCountShift.
Definition kReadBarrierStateMask : Z := (1 ≪ kReadBarrierStateSize) - 1.
Definition kReadBarrierStateMaskShifted : Z := kReadBarrierStateMask ≪ kReadBarrierStateShift.
Definition kReadBarrierStateMaskShiftedToggled : Z := u32 (Z.lnot kReadBarrierStateMaskShifted).
Definition kHashShift : Z := 0.
Definition kHashSize : Z := 32 - kStateSize - kReadBarrierStateSize.
Definition kHashMask : Z := (1 ≪ kHashSize) - 1.
Definition kMaxHash : Z := kHashMask.
Definition kMonitorIdShift : Z := kHashShift.
Definition kMonitorIdMask : Z := kHashMask.
Definition kMaxMonitorId : Z := kMaxHash.

Inductive LockState := kUnlocked | kThinLocked | kFatLocked | kHashCode | kForwardingAddress.
#[export] Instance LockState_eq_dec : EqDecision LockState.
Proof. solve_decision. Defined.

Definition FromThinLockId (thread_id count rb_state : Z) : option Z :=
  if (thread_id <=? kThinLockMaxOwner) && (count <=? kThinLockMaxCount) then
    Some (Z.lor (Z.lor (Z.lor (u32 (thread_id ≪ kThinLockOwnerShift)) (u32 (count ≪ kThinLockCountShift)))
                       (u32 (rb_state ≪ kReadBarrierStateShift)))
                (u32 (kStateThinOrUnlocked ≪ kStateShift)))
  else None.

Definition FromForwardingAddress (target : Z) : Z :=
  u32 (Z.lor (target ≫ kStateSize) (u32 (kStateForwardingAddress ≪ kStateShift))).

Definition FromHashCode (hash_code rb_state : Z) : option Z :=
  if hash_code <=? kMaxHash then
    Some (Z.lor (Z.lor (u32 (hash_code ≪ kHashShift)) (u32 (rb_state ≪ kReadBarrierStateShift)))
                (u32 (kStateHash ≪ kStateShift)))
  else None.

Definition FromDefault (rb_state : Z) : Z := u32 (rb_state ≪ kReadBarrierStateShift).
Definition Default : Z := 0.
Definition IsDefault (lw : Z) : bool := Default =? lw.

(** The constructor from a monitor, given its id. *)
Definition FromMonitor (monitor_id rb_state : Z) : Z :=
  Z.lor (Z.lor monitor_id (u32 (rb_state ≪ kReadBarrierStateShift))) (u32 (kStateFat ≪ kStateShift)).

Definition GetState (kUseReadBarrier : bool) (value_ : Z) : LockState :=
  if (negb kUseReadBarrier && (value_ =? 0))
     || (kUseReadBarrier && (Z.land value_ kReadBarrierStateMaskShiftedToggled =? 0))
  then kUnlocked
  else
    let internal_state := Z.land (value_ ≫ kStateShift) kStateMask in
    if internal_state =? kStateThinOrUnlocked then kThinLocked
    else if internal_state =? kStateHash then kHashCode
    else if internal_state =? kStateForwardingAddress then kForwardingAddress
    else kFatLocked.

Definition ReadBarrierState (value_ : Z) : Z :=
  Z.land (value_ ≫ kReadBarrierStateShift) kReadBarrierStateMask.

Definition SetReadBarrierState (rb_state value_ : Z) : Z :=
  Z.lor (Z.land value_ (u32 (Z.lnot (kReadBarrierStateMask ≪ kReadBarrierStateShift))))
        (u32 (Z.land rb_state kReadBarrierStateMask ≪ kReadBarrierStateShift)).

Definition ThinLockOwner (value_ : Z) : Z := Z.land (value_ ≫ kThinLockOwnerShift) kThinLockOwnerMask.
Definition ThinLockCount (value_ : Z) : Z := Z.land (value_ ≫ kThinLockCountShift) kThinLockCountMask.

(** The id of the monitor. *)
Definition FatLockMonitor (value_ : Z) : Z := Z.land (value_ ≫ kMonitorIdShift) kMonitorIdMask.
Definition ForwardingAddress (value_ : Z) : Z := u32 (value_ ≪ kStateSize).
Definition GetHashCode (value_ : Z) : Z := Z.land (value_ ≫ kHashShift) kHashMask.
Definition GetValueWithoutReadBarrierState (value_ : Z) : Z :=
  Z.land value_ (u32 (Z.lnot (kReadBarrierStateMask ≪ kReadBarrierStateShift))).
Definition Equal (kIncludeReadBarrierState : bool) (lw1 lw2 : Z) : bool :=
  if kIncludeReadBarrierState then lw1 =? lw2
  else GetValueWithoutReadBarrierState lw1 =? GetValueWithoutReadBarrierState lw2.

(** ** The fields as numbers

    A lock word is [low + rb * 2^28 + state * 2^30] with 28 bits [low]. *)
Definition make_word (low rb state : Z) : Z := low + rb * 2 ^ 28 + state * 2 ^ 30.

Definition word_parts (low rb state : Z) : Prop :=
  0 <= low < 2 ^ 28 /\ 0 <= rb < 4 /\ 0 <= state < 4.

Lemma field_land v n : 0 <= n -> Z.land v ((1 ≪ n) - 1) = v mod 2 ^ n.
Proof.
  intros Hn. rewrite Z.shiftl_1_l. change (2 ^ n - 1) with (Z.pred (2 ^ n)).
  rewrite <- Z.ones_equiv. by apply Z.land_ones.
Qed.

Lemma lor_fields a rb s : 0 <= a < 2 ^ 28 -> 0 <= rb < 4 -> 0 <= s < 4 ->
  Z.lor (Z.lor a (u32 (rb ≪ 28))) (u32 (s ≪ 30)) = make_word a rb s.
Proof.
  intros Ha Hr Hs. rewrite !Z.shiftl_mul_pow2, !u_small by (unfold is_u; lia).
  rewrite <- !Z.shiftl_mul_pow2 by lia. rewrite (lor_low_shiftl a) by lia.
  by rewrite lor_low_shiftl by lia.
Qed.

Section Parts.
Context (low rb state : Z) (H : word_parts low rb state).

Lemma state_make : Z.land (make_word low rb state ≫ kStateShift) kStateMask = state.
Proof.
  unfold word_parts, make_word in *. change kStateShift with 30. rewrite Z.shiftr_div_pow2 by lia.
  change kStateMask with ((1 ≪ 2) - 1). rewrite field_land by lia. div_lia.
Qed.

Lemma rb_make : ReadBarrierState (make_word low rb state) = rb.
Proof.
  unfold word_parts, make_word, ReadBarrierState in *. change kReadBarrierStateShift with 28.
  rewrite Z.shiftr_div_pow2 by lia. change kReadBarrierStateMask with ((1 ≪ 2) - 1).
  rewrite field_land by lia. div_lia.
Qed.

Lemma low_make : Z.land (make_word low rb state) kHashMask = low.
Proof.
  unfold word_parts, make_word in *. change kHashMask with ((1 ≪ 28) - 1).
  rewrite field_land by lia. div_lia.
Qed.

Lemma owner_make : ThinLockOwner (make_word low rb state) = low mod 2 ^ 16.
Proof.
  unfold word_parts, make_word, ThinLockOwner in *. change kThinLockOwnerShift with 0.
  rewrite Z.shiftr_0_r. change kThinLockOwnerMask with ((1 ≪ 16) - 1).
  rewrite field_land by lia. div_lia.
Qed.

Lemma count_make : ThinLockCount (make_word low rb state) = low / 2 ^ 16.
Proof.
  unfold word_parts, make_word, ThinLockCount in *. change kThinLockCountShift with 16.
  rewrite Z.shiftr_div_pow2 by lia. change kThinLockCountMask with ((1 ≪ 12) - 1).
  rewrite field_land by lia. div_lia.
Qed.

Lemma hash_make : GetHashCode (make_word low rb state) = low.
Proof. unfold GetHashCode. change kHashShift with 0. by rewrite Z.shiftr_0_r, low_make. Qed.

Lemma monitor_make : FatLockMonitor (make_word low rb state) = low.
Proof.
  unfold FatLockMonitor. change kMonitorIdShift with 0. change kMonitorIdMask with kHashMask.
  by rewrite Z.shiftr_0_r, low_make.
Qed.

(** Without the read barrier bits. *)
Lemma clear_rb : Z.land (make_word low rb state) kReadBarrierStateMaskShiftedToggled =
  make_word low 0 state.
Proof.
  unfold word_parts in H. change kReadBarrierStateMaskShiftedToggled with 0xCFFFFFFF.
  assert (Hl : 0 <= low < 2 ^ 28) by lia. assert (Hr : 0 <= rb < 4) by lia.
  rewrite <- (lor_fields low rb state), <- (lor_fields low 0 state) by lia.
  rewrite !Z.shiftl_mul_pow2, !u_small by (unfold is_u; lia).
  rewrite !Z.land_lor_distr_l.
  assert (Z.land low 3489660927 = low) as ->.
  { rewrite <- (Z.mod_small low (2 ^ 28)) by done. rewrite <- Z.land_ones, <- Z.land_assoc by lia. done. }
  assert (rb = 0 \/ rb = 1 \/ rb = 2 \/ rb = 3) as Hrb by lia.
  assert (state = 0 \/ state = 1 \/ state = 2 \/ state = 3) as Hst by lia.
  f_equal; [by destruct Hrb as [->|[->|[->| ->]]]|by destruct Hst as [->|[->|[->| ->]]]].
Qed.
End Parts.

Lemma clear_zero low state : 0 <= low < 2 ^ 28 -> 0 <= state < 4 ->
  make_word low 0 state = 0 <-> low = 0 /\ state = 0.
Proof. unfold make_word. lia. Qed.

Lemma GetState_make kUseReadBarrier low rb state : word_parts low rb state ->
  (kUseReadBarrier = false -> rb = 0) ->
  GetState kUseReadBarrier (make_word low rb state) =
  if decide (low = 0 /\ state = 0) then kUnlocked
  else if state =? 0 then kThinLocked else if state =? 2 then kHashCode
  else if state =? 3 then kForwardingAddress else kFatLocked.
Proof.
  intros H Hrb. unfold GetState. rewrite state_make by done. unfold word_parts in H.
  assert (E : (negb kUseReadBarrier && (make_word low rb state =? 0))
    || (kUseReadBarrier && (Z.land (make_word low rb state) kReadBarrierStateMaskShiftedToggled =? 0)) =
    bool_decide (low = 0 /\ state = 0)).
  { apply eq_bool_prop_intro. rewrite bool_decide_spec. destruct kUseReadBarrier; cbn [negb andb orb].
    - rewrite clear_rb by done. rewrite Is_true_true, Z.eqb_eq. apply clear_zero; lia.
    - rewrite orb_false_r, Is_true_true, Z.eqb_eq, Hrb by done. apply clear_zero; lia. }
  rewrite E. case_bool_decide; [by rewrite decide_True|]. by rewrite decide_False.
Qed.

(** ** The constructors *)

Lemma FromThinLockId_make tid count rb : 0 <= tid <= kThinLockMaxOwner -> 0 <= count <= kThinLockMaxCount ->
  0 <= rb < 4 -> FromThinLockId tid count rb = Some (make_word (tid + count * 2 ^ 16) rb 0) /\
  word_parts (tid + count * 2 ^ 16) rb 0.
Proof.
  change kThinLockMaxOwner with 65535. change kThinLockMaxCount with 4095. intros Ht Hc Hr.
  split; [|unfold word_parts; lia]. unfold FromThinLockId.
  change kThinLockMaxOwner with 65535. change kThinLockMaxCount with 4095.
  rewrite (proj2 (Z.leb_le tid _)), (proj2 (Z.leb_le count _)) by lia. cbn [andb]. f_equal.
  change kThinLockOwnerShift with 0. change kThinLockCountShift with 16.
  change kReadBarrierStateShift with 28. change kStateShift with 30. change kStateThinOrUnlocked with 0.
  rewrite <- (lor_fields (tid + count * 2 ^ 16) rb 0) by lia. f_equal. f_equal.
  rewrite Z.shiftl_0_r, (Z.shiftl_mul_pow2 count), !u_small by (unfold is_u; lia).
  rewrite <- Z.shiftl_mul_pow2 by lia. rewrite lor_low_shiftl by lia. by rewrite Z.shiftl_mul_pow2 by lia.
Qed.

Lemma FromHashCode_make h rb : 0 <= h <= kMaxHash -> 0 <= rb < 4 ->
  FromHashCode h rb = Some (make_word h rb 2) /\ word_parts h rb 2.
Proof.
  change kMaxHash with 268435455. intros Hh Hr. split; [|unfold word_parts; lia].
  unfold FromHashCode. change kMaxHash with 268435455. rewrite (proj2 (Z.leb_le h _)) by lia. f_equal.
  change kHashShift with 0. rewrite Z.shiftl_0_r, (u_small 32 h) by (unfold is_u; lia).
  apply lor_fields; lia.
Qed.

Lemma FromMonitor_make m rb : 0 <= m <= kMaxMonitorId -> 0 <= rb < 4 ->
  FromMonitor m rb = make_word m rb 1 /\ word_parts m rb 1.
Proof.
  change kMaxMonitorId with 268435455. intros Hm Hr. split; [|unfold word_parts; lia].
  apply lor_fields; lia.
Qed.

Lemma FromDefault_make rb : 0 <= rb < 4 -> FromDefault rb = make_word 0 rb 0 /\ word_parts 0 rb 0.
Proof.
  intros Hr. split; [|unfold word_parts; lia]. unfold FromDefault, make_word.
  change kReadBarrierStateShift with 28. rewrite Z.shiftl_mul_pow2, u_small by (unfold is_u; lia). lia.
Qed.

Lemma FromForwardingAddress_parts target : is_u 32 target -> target mod 4 = 0 ->
  exists low rb, FromForwardingAddress target = make_word low rb 3 /\ word_parts low rb 3 /\
    target = (low + rb * 2 ^ 28) * 4.
Proof.
  unfold is_u. intros Ht Ha. exists (target / 4 mod 2 ^ 28), (target / 4 / 2 ^ 28).
  assert (Hp : word_parts (target / 4 mod 2 ^ 28) (target / 4 / 2 ^ 28) 3) by (unfold word_parts; div_lia).
  split_all; [|done|div_lia]. unfold FromForwardingAddress. change kStateSize with 2.
  rewrite Z.shiftr_div_pow2 by lia. change (u32 (kStateForwardingAddress ≪ kStateShift)) with (3 ≪ 30).
  change (2 ^ 2) with 4. rewrite lor_low_shiftl by div_lia. unfold make_word.
  rewrite u_small by (unfold is_u; div_lia). div_lia.
Qed.

(** ** Properties *)

(** A lock word says what was put into it: state, owner and count of a thin lock, hash
    code, monitor id, forwarding address and read barrier bits are read back from the words that
    the constructors build, with and without read barriers. *)
Theorem lock_word_roundtrip (kUseReadBarrier : bool) (tid count hash m target rb : Z)
  (Ht : 0 < tid <= kThinLockMaxOwner) (Hc : 0 <= count <= kThinLockMaxCount)
  (Hh : 0 <= hash <= kMaxHash) (Hm : 0 <= m <= kMaxMonitorId) (Ha : is_u 32 target)
  (Halign : target mod 4 = 0) (Hrb : 0 <= rb < 4) (Huse : kUseReadBarrier = false -> rb = 0) :
  (exists lw, FromThinLockId tid count rb = Some lw /\ GetState kUseReadBarrier lw = kThinLocked /\
     ThinLockOwner lw = tid /\ ThinLockCount lw = count /\ ReadBarrierState lw = rb) /\
  (exists lw, FromHashCode hash rb = Some lw /\ GetState kUseReadBarrier lw = kHashCode /\
     GetHashCode lw = hash /\ ReadBarrierState lw = rb) /\
  (let lw := FromMonitor m rb in GetState kUseReadBarrier lw = kFatLocked /\
     FatLockMonitor lw = m /\ ReadBarrierState lw = rb) /\
  (let lw := FromDefault rb in GetState kUseReadBarrier lw = kUnlocked /\ ReadBarrierState lw = rb) /\
  (let lw := FromForwardingAddress target in ForwardingAddress lw = target /\
     Z.land (lw ≫ kStateShift) kStateMask = kStateForwardingAddress).
Proof.
  destruct (FromThinLockId_make tid count rb) as [E1 P1]; [lia|lia|lia|].
  destruct (FromHashCode_make hash rb) as [E2 P2]; [lia|lia|].
  destruct (FromMonitor_make m rb) as [E3 P3]; [lia|lia|].
  destruct (FromDefault_make rb) as [E4 P4]; [lia|].
  destruct (FromForwardingAddress_parts target Ha Halign) as (low & rb' & E5 & P5 & E6).
  change kThinLockMaxOwner with 65535 in *. change kThinLockMaxCount with 4095 in *.
  split_all.
  - eexists. split; [exact E1|].
    rewrite GetState_make, owner_make, count_make, rb_make, decide_False by (done || lia).
    split_all; div_lia || done.
  - eexists. split; [exact E2|]. rewrite GetState_make, hash_make, rb_make, decide_False by (done || lia). done.
  - cbv zeta. rewrite E3, GetState_make, monitor_make, rb_make, decide_False by (done || lia). done.
  - cbv zeta. rewrite E4, GetState_make, rb_make, decide_True by done. done.
  - cbv zeta. rewrite E5. split; [|by apply state_make]. unfold ForwardingAddress, make_word.
    change kStateSize with 2. rewrite Z.shiftl_mul_pow2 by lia. unfold word_parts in P5.
    rewrite E6. word_lia.
Qed.

Lemma lock_word_roundtrip_witness :
  exists lw, FromThinLockId 7 4095 0 = Some lw /\ ThinLockOwner lw = 7 /\ ThinLockCount lw = 4095.
Proof.
  destruct (lock_word_roundtrip false 7 4095 5 6 64 0) as [(lw & E & _ & Ho & Hc & _) _];
    try (vm_compute; split; congruence); try reflexivity.
  exists lw. split_all; assumption.
Defined.
