(* ===== verification/Monitor.v ===== *)
(** * Monitors ([monitor.{h,cc}], [Object::IdentityHashCode])

    The lock of one object used by any number of threads, at the grain of its atomic actions: a
    load, a store or a compare-and-swap of the lock word, or a critical section under a
    monitor's [monitor_lock_].  Between two actions any other thread may act.  Threads are their
    ids; a thread that is blocked or at a suspend check can be suspended and then does not act.
    Builds have no read barrier ([kUseReadBarrier] is false).  Not modelled: lock profiling and
    tracing, interrupts (a waiting thread may wake at any time), the lifecycle of threads. *)
From S2P Require Import Prelude.
From S2P Require Import LockWord.
From stdpp Require Import fin_maps.
Local Open Scope Z_scope.

Abbreviation state_of := (GetState false).

Record Monitor := mkMonitor {
  num_waiters_ : Z;
  owner_ : option Z;
  lock_count_ : Z;
  obj_ : bool;             (* not null *)
  wait_set_ : list Z;      (* linked through [GetWaitNext] *)
  hash_code_ : Z;
}.

(** What [Monitor::Lock] was called for: [MonitorEnter], or [Wait] with its saved count. *)
Inductive LockFor := LockEnter | LockWait (prev_lock_count : Z).

(** Where to go on after an inflation: the loops of [MonitorEnter], [Wait] and
    [IdentityHashCode]; [ThenResume] is [InflateThinLocked] with a suspended owner. *)
Inductive After :=
  | ToEnter (contention_count : Z)
  | ToWait (ms ns : Z)
  | ToHash
  | ThenResume (owner : Z) (k : After).

Inductive Pc :=
  | Running                                     (* in the program *)
  | AtCheck                                     (* stopped at a suspend check *)
  | EnterLoad (contention_count : Z)
  | EnterGot (lock_word contention_count : Z)
  | Contended (m : Z) (k : LockFor)             (* waits for [monitor_contenders_] *)
  | ExitLoad
  | ExitGot (lock_word : Z)
  | WaitLoad (ms ns : Z)
  | WaitGot (lock_word ms ns : Z)
  | Waiting (m prev_lock_count : Z)             (* waits for its condition variable *)
  | Woken (m prev_lock_count : Z)               (* runnable again, before [Lock] *)
  | Restore (m prev_lock_count : Z)             (* has the lock again *)
  | NotifyLoad (notify_all : bool)
  | NotifyGot (lock_word : Z) (notify_all : bool)
  | HashLoad
  | HashGot (lock_word : Z)
  | Inflating (owner : option Z) (hash_code : Z) (k : After)
  | Installing (mon : Monitor) (lw : Z) (k : After)   (* [mon] is not shared yet *)
  | Suspending (owner hash_code : Z) (requested : bool) (k : After)
  | OwnerSuspended (owner hash_code : Z) (k : After)
  | Resuming (owner : Z) (k : After)
  | Returning (k : After).            (* from [SuspendThreadByThreadId] without the owner *)

Record ThreadState := mkThreadState { pc : Pc; suspend_count : Z }.

Record State := mkState {
  word : Z;
  monitors : gmap Z Monitor;       (* by monitor id *)
  threads : gmap Z ThreadState;
}.

(** What a step does for the program. *)
Inductive Event :=
  | Tau
  | Acquire          (* [MonitorEnter] returns *)
  | Release          (* [MonitorExit] returns true *)
  | Fail             (* [IllegalMonitorStateException] *)
  | BadArgument      (* [IllegalArgumentException] of [Wait] *)
  | WaitRelease      (* [Wait] gives the lock up *)
  | Reacquire        (* [Lock] inside [Wait] *)
  | Restored (depth : Z)     (* [Wait] returns *)
  | Notified (signalled : list Z)
  | Hash (h : Z).    (* [IdentityHashCode] returns *)

Inductive Result :=
  | Blocked                          (* the thread cannot act now *)
  | Abort                            (* [CHECK], [LOG(FATAL)] or a freed monitor *)
  | Next (s : State) (e : Event).

(** What is left open: the call that a program makes, spurious failures, the id of a new
    monitor, the seed that [GenerateIdentityHashCode] loads (all objects share it), timeouts. *)
Inductive Call := CallEnter | CallExit | CallWait (ms ns : Z) | CallNotify (notify_all : bool) | CallHash.
Record Choice := mkChoice {
  call : option Call;     (* or a suspend check *)
  cas_fails : bool;
  fresh_id : Z;
  seed : Z;
  timed_out : bool;
}.

(** [Object::GenerateIdentityHashCode] from the seed that its first iteration loads: the code,
    and the seed left behind. *)
Fixpoint GenerateIdentityHashCode (fuel : nat) (hash_code_seed : Z) : option (Z * Z) :=
  match fuel with
  | O => None
  | S fuel' =>
      let expected_value := hash_code_seed in
      let new_value := u32 (u32 (expected_value * 1103515245) + 12345) in
      if Z.land expected_value kHashMask =? 0 then GenerateIdentityHashCode fuel' new_value
      else Some (Z.land expected_value kHashMask, new_value)
  end.

(** It ends within two iterations ([GenerateIdentityHashCode_ok]). *)
Definition new_hash (c : Choice) : option Z := fst <$> GenerateIdentityHashCode 2 (u32 (seed c)).

(** The thread state is not [kRunnable]. *)
Definition blocked (p : Pc) : bool :=
  match p with
  | AtCheck | Contended _ _ | Waiting _ _ | Suspending _ _ _ _ | OwnerSuspended _ _ _
  | Returning _ => true
  | _ => false
  end.

Section Machine.
Context (max_spins : Z).   (* [GetMaxSpinsBeforeThinkLockInflation] *)
Implicit Types (s : State) (t m lw : Z).

Definition set_word (w : Z) (s : State) : State := mkState w (monitors s) (threads s).
Definition set_monitor (m : Z) (mon : Monitor) (s : State) : State :=
  mkState (word s) (<[m := mon]> (monitors s)) (threads s).
Definition set_pc (t : Z) (p : Pc) (s : State) : State :=
  mkState (word s) (monitors s)
    (alter (fun th => mkThreadState p (suspend_count th)) t (threads s)).
Definition add_suspend (d t : Z) (s : State) : State :=
  mkState (word s) (monitors s)
    (alter (fun th => mkThreadState (pc th) (suspend_count th + d)) t (threads s)).

Definition go (t : Z) (p : Pc) (s : State) : Result := Next (set_pc t p s) Tau.
Definition return_ (t : Z) (e : Event) (s : State) : Result := Next (set_pc t Running s) e.

Definition continue_ (k : After) : Pc :=
  match k with
  | ToEnter n => EnterLoad n
  | ToWait ms ns => WaitLoad ms ns
  | ToHash => HashLoad
  | ThenResume owner k => Resuming owner k
  end.

(** [CasLockWordWeakSequentiallyConsistent]. *)
Definition cas (lw new : Z) (fails : bool) (s : State) : option State :=
  if (word s =? lw) && negb fails then Some (set_word new s) else None.

(** [Thread::IsSuspended]. *)
Definition is_suspended (t : Z) (s : State) : bool :=
  match threads s !! t with
  | Some th => blocked (pc th) && (0 <? suspend_count th)
  | None => false
  end.

(** [ThreadList::FindThreadByThreadId]: [None] when its [CHECK] fails. *)
Definition FindThreadByThreadId (self thin_lock_id : Z) (s : State) : option (option Z) :=
  match threads s !! thin_lock_id with
  | None => Some None
  | Some _ =>
      if (thin_lock_id =? self) || is_suspended thin_lock_id s then Some (Some thin_lock_id) else None
  end.

(** ** [Monitor] *)

Definition set_lock (owner : option Z) (count : Z) (mon : Monitor) : Monitor :=
  mkMonitor (num_waiters_ mon) owner count (obj_ mon) (wait_set_ mon) (hash_code_ mon).
Definition set_waiters (n : Z) (ws : list Z) (mon : Monitor) : Monitor :=
  mkMonitor n (owner_ mon) (lock_count_ mon) (obj_ mon) ws (hash_code_ mon).
Definition set_hash (h : Z) (mon : Monitor) : Monitor :=
  mkMonitor (num_waiters_ mon) (owner_ mon) (lock_count_ mon) (obj_ mon) (wait_set_ mon) h.

Definition after_lock (t m : Z) (k : LockFor) (s : State) : Result :=
  match k with
  | LockEnter => return_ t Acquire s
  | LockWait prev => Next (set_pc t (Restore m prev) s) Reacquire
  end.

(** The loop of [Lock], from its test with [monitor_lock_] held. *)
Definition Lock (t m : Z) (k : LockFor) (mon : Monitor) (s : State) : Result :=
  match owner_ mon with
  | None =>
      if lock_count_ mon =? 0
      then after_lock t m k (set_monitor m (set_lock (Some t) 0 mon) s)
      else Abort
  | Some o =>
      if o =? t
      then after_lock t m k (set_monitor m (set_lock (Some t) (lock_count_ mon + 1) mon) s)
      else
        let mon := set_waiters (num_waiters_ mon + 1) (wait_set_ mon) mon in
        go t (Contended m k) (set_monitor m mon s)
  end.

Definition Unlock (t m : Z) (mon : Monitor) (s : State) : Result :=
  if bool_decide (owner_ mon = Some t) then
    let mon := if lock_count_ mon =? 0 then set_lock None 0 mon
               else set_lock (Some t) (lock_count_ mon - 1) mon in
    return_ t Release (set_monitor m mon s)
  else return_ t Fail s.

Definition MonitorWait (t m ms ns : Z) (mon : Monitor) (s : State) : Result :=
  if negb (bool_decide (owner_ mon = Some t)) then return_ t Fail s
  else if (ms <? 0) || (ns <? 0) || (999999 <? ns) then return_ t BadArgument s
  else
    let prev_lock_count := lock_count_ mon in
    let mon := set_lock None 0 (set_waiters (num_waiters_ mon + 1) (wait_set_ mon ++ [t]) mon) in
    Next (set_pc t (Waiting m prev_lock_count) (set_monitor m mon s)) WaitRelease.

(** [GetWaitMonitor() != nullptr]. *)
Definition still_waiting (s : State) (t : Z) : bool :=
  match threads s !! t with
  | Some th => match pc th with Waiting _ _ => true | _ => false end
  | None => false
  end.

(** The loop of [Notify]: the remaining wait set and the thread signalled. *)
Fixpoint NotifyLoop (s : State) (wait_set : list Z) : list Z * list Z :=
  match wait_set with
  | [] => ([], [])
  | thread :: rest => if still_waiting s thread then (rest, [thread]) else NotifyLoop s rest
  end.

Definition Notify (t m : Z) (notify_all : bool) (mon : Monitor) (s : State) : Result :=
  if negb (bool_decide (owner_ mon = Some t)) then return_ t Fail s
  else
    let '(rest, signalled) :=
      if notify_all then ([], filter (still_waiting s) (wait_set_ mon))
      else NotifyLoop s (wait_set_ mon) in
    return_ t (Notified signalled) (set_monitor m (set_waiters (num_waiters_ mon) rest mon) s).

(** [Install]: the propagated lock state, or [false]. *)
Definition Install (owner : option Z) (hash_code lw : Z) : option (option Monitor) :=
  match state_of lw with
  | kThinLocked =>
      match owner with
      | Some o => if o =? ThinLockOwner lw
                  then Some (Some (mkMonitor 0 owner (ThinLockCount lw) true [] hash_code))
                  else None
      | None => None
      end
  | kHashCode =>
      if hash_code =? GetHashCode lw then Some (Some (mkMonitor 0 owner 0 true [] hash_code)) else None
  | kFatLocked => Some None
  | _ => None
  end.

(** ** The threads *)

(** [InflateThinLocked]. *)
Definition InflateThinLocked (t lw hash_code : Z) (k : After) (s : State) : Result :=
  let owner := ThinLockOwner lw in
  if owner =? t then go t (Inflating (Some t) hash_code k) s
  else go t (Suspending owner hash_code false k) s.

Definition EnterStep (t lw n : Z) (c : Choice) (s : State) : Result :=
  match state_of lw with
  | kUnlocked =>
      match FromThinLockId t 0 (ReadBarrierState lw) with
      | None => Abort
      | Some thin_locked =>
          match cas lw thin_locked (cas_fails c) s with
          | Some s => return_ t Acquire s
          | None => go t (EnterLoad n) s
          end
      end
  | kThinLocked =>
      if ThinLockOwner lw =? t then
        let new_count := ThinLockCount lw + 1 in
        if new_count <=? kThinLockMaxCount then
          match FromThinLockId t new_count (ReadBarrierState lw) with
          | None => Abort
          | Some thin_locked => return_ t Acquire (set_word thin_locked s)
          end
        else InflateThinLocked t lw 0 (ToEnter n) s
      else if n + 1 <=? max_spins then go t (EnterLoad (n + 1)) s
      else InflateThinLocked t lw 0 (ToEnter 0) s
  | kFatLocked =>
      match monitors s !! FatLockMonitor lw with
      | Some mon => Lock t (FatLockMonitor lw) LockEnter mon s
      | None => Abort
      end
  | kHashCode => go t (Inflating None (GetHashCode lw) (ToEnter n)) s
  | kForwardingAddress => Abort
  end.

Definition ExitStep (t lw : Z) (s : State) : Result :=
  match state_of lw with
  | kHashCode | kUnlocked => return_ t Fail s
  | kThinLocked =>
      if negb (ThinLockOwner lw =? t) then
        match FindThreadByThreadId t (ThinLockOwner lw) s with
        | None => Abort
        | Some _ => return_ t Fail s
        end
      else if negb (ThinLockCount lw =? 0) then
        match FromThinLockId t (ThinLockCount lw - 1) (ReadBarrierState lw) with
        | None => Abort
        | Some new_lw => return_ t Release (set_word new_lw s)
        end
      else return_ t Release (set_word (FromDefault (ReadBarrierState lw)) s)
  | kFatLocked =>
      match monitors s !! FatLockMonitor lw with
      | Some mon => Unlock t (FatLockMonitor lw) mon s
      | None => Abort
      end
  | kForwardingAddress => Abort
  end.

Definition WaitStep (t lw ms ns : Z) (s : State) : Result :=
  match state_of lw with
  | kHashCode | kUnlocked => return_ t Fail s
  | kThinLocked =>
      if negb (ThinLockOwner lw =? t) then return_ t Fail s
      else go t (Inflating (Some t) 0 (ToWait ms ns)) s
  | kFatLocked =>
      match monitors s !! FatLockMonitor lw with
      | Some mon => MonitorWait t (FatLockMonitor lw) ms ns mon s
      | None => Abort
      end
  | kForwardingAddress => Abort
  end.

Definition NotifyStep (t lw : Z) (notify_all : bool) (s : State) : Result :=
  match state_of lw with
  | kHashCode | kUnlocked => return_ t Fail s
  | kThinLocked =>
      if negb (ThinLockOwner lw =? t) then return_ t Fail s else return_ t (Notified []) s
  | kFatLocked =>
      match monitors s !! FatLockMonitor lw with
      | Some mon => Notify t (FatLockMonitor lw) notify_all mon s
      | None => Abort
      end
  | kForwardingAddress => Abort
  end.

Definition HashStep (t lw : Z) (c : Choice) (s : State) : Result :=
  match new_hash c, state_of lw with
  | None, _ => Abort
  | Some new_hash, kUnlocked =>
      match FromHashCode new_hash (ReadBarrierState lw) with
      | None => Abort
      | Some hash_word =>
          match cas lw hash_word (cas_fails c) s with
          | Some s => return_ t (Hash (GetHashCode hash_word)) s
          | None => go t HashLoad s
          end
      end
  | Some new_hash, kThinLocked => InflateThinLocked t lw new_hash ToHash s
  | Some new_hash, kFatLocked =>
      match monitors s !! FatLockMonitor lw with
      | Some mon =>
          (* [Monitor::GetHashCode] *)
          if hash_code_ mon =? 0
          then return_ t (Hash new_hash) (set_monitor (FatLockMonitor lw) (set_hash new_hash mon) s)
          else return_ t (Hash (hash_code_ mon)) s
      | None => Abort
      end
  | Some _, kHashCode => return_ t (Hash (GetHashCode lw)) s
  | Some _, kForwardingAddress => Abort
  end.

(** [CreateMonitor] and the tests of [Install] on the word it loads. *)
Definition InflateStep (t : Z) (owner : option Z) (hash_code : Z) (k : After) (s : State) : Result :=
  if match owner with None => true | Some o => (o =? t) || is_suspended o s end then
    match Install owner hash_code (word s) with
    | None => Abort
    | Some None => go t (continue_ k) s           (* [ReleaseMonitor] *)
    | Some (Some mon) => go t (Installing mon (word s) k) s
    end
  else Abort.

(** The compare-and-swap of [Install]; the id is that of the monitor created before. *)
Definition InstallStep (t : Z) (mon : Monitor) (lw : Z) (k : After) (c : Choice) (s : State) : Result :=
  match monitors s !! fresh_id c with
  | Some _ => Blocked
  | None =>
      if negb ((0 <=? fresh_id c) && (fresh_id c <=? kMaxMonitorId)) then Blocked
      else
        match cas lw (FromMonitor (fresh_id c) (ReadBarrierState lw)) (cas_fails c) s with
        | Some s => go t (continue_ k) (set_monitor (fresh_id c) mon s)
        | None => go t (continue_ k) s
        end
  end.

(** [SuspendThreadByThreadId]: the request, then the suspended owner or a timeout. *)
Definition SuspendStep (t owner hash_code : Z) (requested : bool) (k : After) (c : Choice) (s : State)
  : Result :=
  if negb requested then
    match threads s !! owner with
    | None => go t (Returning k) s
    | Some _ => go t (Suspending owner hash_code true k) (add_suspend 1 owner s)
    end
  else if is_suspended owner s then go t (OwnerSuspended owner hash_code k) s
  else if timed_out c then go t (Returning k) (add_suspend (-1) owner s)
  else Blocked.

(** [InflateThinLocked] after the suspension: the word must not have changed. *)
Definition RecheckStep (t owner hash_code : Z) (k : After) (s : State) : Result :=
  if bool_decide (state_of (word s) = kThinLocked) && (ThinLockOwner (word s) =? owner)
  then go t (Inflating (Some owner) hash_code (ThenResume owner k)) s
  else go t (Resuming owner k) s.

Definition start (cl : Call) : Pc :=
  match cl with
  | CallEnter => EnterLoad 0
  | CallExit => ExitLoad
  | CallWait ms ns => WaitLoad ms ns
  | CallNotify notify_all => NotifyLoad notify_all
  | CallHash => HashLoad
  end.

(** One action of thread [t]. *)
Definition act (t : Z) (c : Choice) (s : State) : Result :=
  match threads s !! t with
  | None => Blocked
  | Some th =>
      if blocked (pc th) && (0 <? suspend_count th) then Blocked
      else
        match pc th with
        | Running =>
            match call c with
            | Some cl => go t (start cl) s
            | None => if 0 <? suspend_count th then go t AtCheck s else Blocked
            end
        | AtCheck => go t Running s
        | EnterLoad n => go t (EnterGot (word s) n) s
        | EnterGot lw n => EnterStep t lw n c s
        | Contended m k =>
            match monitors s !! m with
            | Some mon => Lock t m k (set_waiters (num_waiters_ mon - 1) (wait_set_ mon) mon) s
            | None => Abort
            end
        | ExitLoad => go t (ExitGot (word s)) s
        | ExitGot lw => ExitStep t lw s
        | WaitLoad ms ns => go t (WaitGot (word s) ms ns) s
        | WaitGot lw ms ns => WaitStep t lw ms ns s
        | Waiting m prev => go t (Woken m prev) s
        | Woken m prev =>
            match monitors s !! m with
            | Some mon => Lock t m (LockWait prev) mon s
            | None => Abort
            end
        | Restore m prev =>
            match monitors s !! m with
            | Some mon =>
                let mon := set_lock (Some t) prev mon in
                let mon := set_waiters (num_waiters_ mon - 1) (filter (fun x => x <> t) (wait_set_ mon)) mon in
                return_ t (Restored (prev + 1)) (set_monitor m mon s)
            | None => Abort
            end
        | NotifyLoad all => go t (NotifyGot (word s) all) s
        | NotifyGot lw all => NotifyStep t lw all s
        | HashLoad => go t (HashGot (word s)) s
        | HashGot lw => HashStep t lw c s
        | Inflating owner h k => InflateStep t owner h k s
        | Installing mon lw k => InstallStep t mon lw k c s
        | Suspending owner h requested k => SuspendStep t owner h requested k c s
        | OwnerSuspended owner h k => RecheckStep t owner h k s
        | Resuming owner k => go t (continue_ k) (add_suspend (-1) owner s)
        | Returning k => go t (continue_ k) s
        end
  end.

(** [Deflate], with every thread suspended. *)
Definition Deflate (s : State) : Result :=
  if negb (bool_decide (map_Forall (fun _ th => blocked (pc th) = true) (threads s))) then Blocked
  else
    match state_of (word s) with
    | kFatLocked =>
        let m := FatLockMonitor (word s) in
        match monitors s !! m with
        | None => Abort
        | Some mon =>
            let rb := ReadBarrierState (word s) in
            let deflated (lw : option Z) :=
              match lw with
              | None => Abort
              | Some lw =>
                  Next (set_monitor m (mkMonitor (num_waiters_ mon) (owner_ mon) (lock_count_ mon)
                          false (wait_set_ mon) (hash_code_ mon)) (set_word lw s)) Tau
              end in
            if 0 <? num_waiters_ mon then Next s Tau
            else
              match owner_ mon with
              | Some owner =>
                  if negb (hash_code_ mon =? 0) then Next s Tau
                  else if kThinLockMaxCount <? lock_count_ mon then Next s Tau
                  else deflated (FromThinLockId owner (lock_count_ mon) rb)
              | None =>
                  if negb (hash_code_ mon =? 0) then deflated (FromHashCode (hash_code_ mon) rb)
                  else deflated (Some (FromDefault rb))
              end
        end
    | _ => Next s Tau
    end.

(** The sweep of the monitor list frees a monitor without an object. *)
Definition Sweep (m : Z) (s : State) : Result :=
  match monitors s !! m with
  | Some mon => if obj_ mon then Blocked
                else Next (mkState (word s) (delete m (monitors s)) (threads s)) Tau
  | None => Blocked
  end.
End Machine.

(** ** Runs *)

Inductive Action := Act (t : Z) (c : Choice) | GC | Free (m : Z).

Definition perform (max_spins : Z) (a : Action) (s : State) : Result :=
  match a with
  | Act t c => act max_spins t c s
  | GC => Deflate s
  | Free m => Sweep m s
  end.

(** The events of a schedule, with the threads they belong to, the state it ends in and the
    action that aborts, if one does; an action that is not possible is skipped. *)
Fixpoint run (max_spins : Z) (schedule : list Action) (s : State)
  : list (Z * Event) * State * option Action :=
  match schedule with
  | [] => ([], s, None)
  | a :: schedule =>
      match perform max_spins a s with
      | Abort => ([], s, Some a)
      | Blocked => run max_spins schedule s
      | Next s' e =>
          let '(events, final, aborted) := run max_spins schedule s' in
          (match a with Act t _ => (t, e) :: events | _ => events end, final, aborted)
      end
  end.

(** An object that has never been locked or hashed, and threads in the program. *)
Definition initial (tids : list Z) : State :=
  mkState Default ∅ (list_to_map ((fun t => (t, mkThreadState Running 0)) <$> tids)).
