(* ===== verification/MonitorInvariant.v ===== *)
(** * What the threads of a monitor may rely on

    Lock words as data ([Word]), sums over the threads, the specification ([spec_step]: a
    reentrant lock with waiting threads and an identity hash), the abstraction [abs] that reads
    it off a state, and the invariant: what a thread that has loaded the lock word may rely on
    until it acts ([pc_ok]), and the counts of waiters and suspensions over all threads.
    [step_good] is the rule by which one thread acts. *)
From S2P Require Import Prelude.
From S2P Require Import LockWord.
From S2P Require Import Monitor.
From stdpp Require Import fin_maps.
Local Open Scope Z_scope.

(** ** Lock words as data *)

Inductive Word := WUnlocked | WThin (owner count : Z) | WHash (hash : Z) | WFat (m : Z).
#[export] Instance Word_eq_dec : EqDecision Word.
Proof. solve_decision. Defined.

Definition view (lw : Z) : Word :=
  match GetState false lw with
  | kUnlocked => WUnlocked
  | kThinLocked => WThin (ThinLockOwner lw) (ThinLockCount lw)
  | kHashCode => WHash (GetHashCode lw)
  | kFatLocked | kForwardingAddress => WFat (FatLockMonitor lw)
  end.

Definition enc (v : Word) : Z :=
  match v with
  | WUnlocked => make_word 0 0 0
  | WThin o c => make_word (o + c * 2 ^ 16) 0 0
  | WHash h => make_word h 0 2
  | WFat m => make_word m 0 1
  end.

Definition is_tid (t : Z) : Prop := 0 < t <= kThinLockMaxOwner.

Definition valid (v : Word) : Prop :=
  match v with
  | WUnlocked => True
  | WThin o c => is_tid o /\ 0 <= c <= kThinLockMaxCount
  | WHash h => 0 < h <= kMaxHash
  | WFat m => 0 <= m <= kMaxMonitorId
  end.

Lemma valid_parts v : valid v ->
  match v with
  | WUnlocked => word_parts 0 0 0
  | WThin o c => word_parts (o + c * 2 ^ 16) 0 0
  | WHash h => word_parts h 0 2
  | WFat m => word_parts m 0 1
  end.
Proof.
  unfold word_parts, valid, is_tid. change kThinLockMaxOwner with 65535. change kThinLockMaxCount with 4095.
  change kMaxHash with 268435455. change kMaxMonitorId with 268435455. destruct v; lia.
Qed.

Lemma enc_state v : valid v -> GetState false (enc v) =
  match v with WUnlocked => kUnlocked | WThin _ _ => kThinLocked | WHash _ => kHashCode | WFat _ => kFatLocked end.
Proof.
  intros Hv. pose proof (valid_parts v Hv) as Hp. destruct v as [|o c|h|m]; unfold enc;
    rewrite GetState_make by done; [done| |by rewrite decide_False by lia..].
  rewrite decide_False; [done|]. cbn in Hv. unfold is_tid in Hv. lia.
Qed.

Lemma enc_rb v : valid v -> ReadBarrierState (enc v) = 0.
Proof. intros Hv. pose proof (valid_parts v Hv) as Hp. destruct v; unfold enc; by rewrite rb_make. Qed.

Lemma enc_owner o c : valid (WThin o c) -> ThinLockOwner (enc (WThin o c)) = o.
Proof.
  intros Hv. pose proof (valid_parts _ Hv) as Hp. unfold enc. rewrite owner_make by done.
  cbn in Hv. unfold is_tid in Hv. change kThinLockMaxOwner with 65535 in Hv. div_lia.
Qed.

Lemma enc_count o c : valid (WThin o c) -> ThinLockCount (enc (WThin o c)) = c.
Proof.
  intros Hv. pose proof (valid_parts _ Hv) as Hp. unfold enc. rewrite count_make by done.
  cbn in Hv. unfold is_tid in Hv. change kThinLockMaxOwner with 65535 in Hv. div_lia.
Qed.

Lemma enc_hash h : valid (WHash h) -> GetHashCode (enc (WHash h)) = h.
Proof. intros Hv. pose proof (valid_parts _ Hv) as Hp. unfold enc. by rewrite hash_make. Qed.

Lemma enc_monitor m : valid (WFat m) -> FatLockMonitor (enc (WFat m)) = m.
Proof. intros Hv. pose proof (valid_parts _ Hv) as Hp. unfold enc. by rewrite monitor_make. Qed.

Lemma view_enc v : valid v -> view (enc v) = v.
Proof.
  intros Hv. unfold view. rewrite (enc_state v Hv).
  destruct v; by rewrite ?enc_owner, ?enc_count, ?enc_hash, ?enc_monitor.
Qed.

Lemma enc_inj v v' : valid v -> valid v' -> enc v = enc v' -> v = v'.
Proof. intros Hv Hv' E. by rewrite <- (view_enc v Hv), <- (view_enc v' Hv'), E. Qed.

Lemma enc_eqb v v' : valid v -> valid v' -> (enc v =? enc v') = bool_decide (v = v').
Proof.
  intros Hv Hv'. case_bool_decide as E; [subst; apply Z.eqb_refl|].
  apply Z.eqb_neq. intros Henc. by apply E, enc_inj.
Qed.

Lemma FromThinLockId_enc t c : is_tid t -> 0 <= c <= kThinLockMaxCount ->
  FromThinLockId t c 0 = Some (enc (WThin t c)).
Proof. intros [Ht1 Ht2] Hc. by destruct (FromThinLockId_make t c 0) as [-> _]; [lia..|]. Qed.

Lemma FromHashCode_enc h : 0 < h <= kMaxHash -> FromHashCode h 0 = Some (enc (WHash h)).
Proof. intros Hh. by destruct (FromHashCode_make h 0) as [-> _]; [lia..|]. Qed.

Lemma FromMonitor_enc m : 0 <= m <= kMaxMonitorId -> FromMonitor m 0 = enc (WFat m).
Proof. intros Hm. by destruct (FromMonitor_make m 0) as [-> _]; [lia..|]. Qed.

Lemma FromDefault_enc : FromDefault 0 = enc WUnlocked.
Proof. by destruct (FromDefault_make 0) as [-> _]. Qed.

Lemma GenerateIdentityHashCode_ok seed : is_u 32 seed -> exists h seed',
  GenerateIdentityHashCode 2 seed = Some (h, seed') /\ 0 < h <= kMaxHash.
Proof.
  change kMaxHash with 268435455. change kHashMask with ((1 ≪ 28) - 1). intros Hs.
  cbn [GenerateIdentityHashCode]. change kHashMask with ((1 ≪ 28) - 1).
  rewrite !field_land by lia.
  destruct (Z.eqb_spec (seed mod 2 ^ 28) 0) as [E|Hne]; [|eexists _, _; split; [done|]; div_lia].
  assert (E2 : u32 (u32 (seed * 1103515245) + 12345) mod 2 ^ 28 = 12345) by (word_unfold; div_lia).
  rewrite E2. cbn. by eexists _, _.
Qed.

Lemma new_hash_ok c : exists h, new_hash c = Some h /\ 0 < h <= kMaxHash.
Proof.
  unfold new_hash. destruct (GenerateIdentityHashCode_ok (u32 (seed c))) as (h & s' & -> & Hh); [by apply u_range|].
  by exists h.
Qed.

(** ** Sums over the threads *)

Section Total.
Context {A : Type}.
Implicit Types (f : A -> Z) (m : gmap Z A).

Definition total f m : Z := map_fold (fun _ x acc => f x + acc) 0 m.

Lemma total_insert f m k x : m !! k = None -> total f (<[k := x]> m) = f x + total f m.
Proof.
  intros Hk. unfold total. apply (map_fold_insert_L (fun (_ : Z) x acc => f x + acc)); [|done].
  intros. lia.
Qed.

Lemma total_delete f m k x : m !! k = Some x -> total f m = f x + total f (delete k m).
Proof.
  intros Hk. rewrite <- (insert_delete_id m k x Hk) at 1. apply total_insert. apply lookup_delete_eq.
Qed.

Lemma total_nonneg f m : (forall x, 0 <= f x) -> 0 <= total f m.
Proof.
  intros Hf. unfold total. apply (map_fold_weak_ind (fun acc (_ : gmap Z A) => 0 <= acc)); [done|].
  intros i x m' acc _ H. specialize (Hf x). lia.
Qed.

Lemma total_member f m k x : (forall x, 0 <= f x) -> m !! k = Some x -> f x <= total f m.
Proof. intros Hf Hk. rewrite (total_delete f m k x Hk). pose proof (total_nonneg f (delete k m) Hf). lia. Qed.

(** One thread changes and the others keep what is counted. *)
Lemma total_update f m m' k x x' : m !! k = Some x -> m' !! k = Some x' ->
  (forall i, i <> k -> f <$> m' !! i = f <$> m !! i) -> total f m' = total f m + f x' - f x.
Proof.
  intros Hk Hk' Ho. rewrite (total_delete f m k x Hk), (total_delete f m' k x' Hk').
  enough (total f (delete k m') = total f (delete k m)) by lia.
  assert (Hg : forall m, total f m = map_fold (fun _ (y acc : Z) => y + acc) 0 (f <$> m))
    by (intros; unfold total; by rewrite map_fold_fmap).
  rewrite !Hg.
  f_equal. apply map_eq. intros i. rewrite !lookup_fmap. destruct (decide (i = k)) as [->|Hne].
  - by rewrite !lookup_delete_eq.
  - rewrite !lookup_delete_ne by done. by apply Ho.
Qed.
End Total.

(** ** The specification *)

Record Spec := mkSpec {
  s_owner : option (Z * Z);    (* the owner and how often it has locked *)
  s_waiting : gmap Z Z;        (* the threads in [Wait], with what they held *)
  s_hash : option Z;           (* the identity hash once it has been chosen *)
}.

(** What thread [t] may do.  [Tau] may choose the identity hash, but nothing changes it. *)
Inductive spec_step (t : Z) : Spec -> Event -> Spec -> Prop :=
  | spec_tau own w h h' : h = None \/ h' = h -> spec_step t (mkSpec own w h) Tau (mkSpec own w h')
  | spec_acquire_free w h : spec_step t (mkSpec None w h) Acquire (mkSpec (Some (t, 1)) w h)
  | spec_acquire_again n w h :
      spec_step t (mkSpec (Some (t, n)) w h) Acquire (mkSpec (Some (t, n + 1)) w h)
  | spec_release_one n w h : 1 < n ->
      spec_step t (mkSpec (Some (t, n)) w h) Release (mkSpec (Some (t, n - 1)) w h)
  | spec_release_all w h : spec_step t (mkSpec (Some (t, 1)) w h) Release (mkSpec None w h)
  | spec_fail own w h : (forall n, own <> Some (t, n)) ->
      spec_step t (mkSpec own w h) Fail (mkSpec own w h)
  | spec_bad_argument n w h :
      spec_step t (mkSpec (Some (t, n)) w h) BadArgument (mkSpec (Some (t, n)) w h)
  | spec_wait n w h : w !! t = None ->
      spec_step t (mkSpec (Some (t, n)) w h) WaitRelease (mkSpec None (<[t := n]> w) h)
  | spec_reacquire n w h : w !! t = Some n ->
      spec_step t (mkSpec None w h) Reacquire (mkSpec (Some (t, 1)) w h)
  | spec_restored n w h : w !! t = Some n ->
      spec_step t (mkSpec (Some (t, 1)) w h) (Restored n) (mkSpec (Some (t, n)) (delete t w) h)
  | spec_notified n l w h : Forall (fun u => is_Some (w !! u)) l ->
      spec_step t (mkSpec (Some (t, n)) w h) (Notified l) (mkSpec (Some (t, n)) w h)
  | spec_hash own w h x : h = None \/ h = Some x ->
      spec_step t (mkSpec own w h) (Hash x) (mkSpec own w (Some x)).

(** ** The abstraction *)

Definition own_of (ms : gmap Z Monitor) (v : Word) : option (Z * Z) :=
  match v with
  | WThin o c => Some (o, c + 1)
  | WFat m => mon ← ms !! m; o ← owner_ mon; Some (o, lock_count_ mon + 1)
  | _ => None
  end.

Definition hash_of (ms : gmap Z Monitor) (v : Word) : option Z :=
  match v with
  | WHash h => Some h
  | WFat m => mon ← ms !! m; if hash_code_ mon =? 0 then None else Some (hash_code_ mon)
  | _ => None
  end.

Definition waiting_of (p : Pc) : option Z :=
  match p with
  | Waiting _ prev | Woken _ prev | Restore _ prev | Contended _ (LockWait prev) => Some (prev + 1)
  | _ => None
  end.

Definition abs_of (v : Word) (ms : gmap Z Monitor) (ths : gmap Z ThreadState) : Spec :=
  mkSpec (own_of ms v) (omap (fun th => waiting_of (pc th)) ths) (hash_of ms v).
Definition abs (s : State) : Spec := abs_of (view (word s)) (monitors s) (threads s).

(** ** The invariant *)

Definition owns (own : option (Z * Z)) (t : Z) : Prop := exists n, own = Some (t, n).

(** What a thread counts for in [num_waiters_]. *)
Definition weight (p : Pc) : Z :=
  match p with
  | Contended _ LockEnter | Waiting _ _ | Woken _ _ | Restore _ _ => 1
  | Contended _ (LockWait _) => 2
  | _ => 0
  end.

(** What a thread counts for in the [suspend_count] of [x]. *)
Definition suspends (x : Z) (p : Pc) : Z :=
  match p with
  | Suspending o _ true _ | OwnerSuspended o _ _ | Resuming o _
  | Inflating _ _ (ThenResume o _) | Installing _ _ (ThenResume o _) => if o =? x then 1 else 0
  | _ => 0
  end.

Definition plain (k : After) : Prop := match k with ThenResume _ _ => False | _ => True end.

Section PcOk.
Context (v : Word) (own : option (Z * Z)) (hash : option Z) (blk : Z -> Prop) (t : Z).

Definition got_ok (lw : Z) : Prop := exists w, lw = enc w /\ valid w /\
  match w with
  | WUnlocked => ~ owns own t
  | WThin o c => (o = t -> v = w) /\ (o <> t -> ~ owns own t)
  | WHash h => ~ owns own t /\ hash = Some h
  | WFat m => v = w
  end.

(** The monitor that is created belongs to nobody, to the thread itself or to a thread that it
    has suspended. *)
Definition inflates (owner : option Z) (k : After) : Prop :=
  match owner with
  | None => plain k
  | Some x => (x = t /\ plain k) \/ (x <> t /\ blk x /\ exists k', k = ThenResume x k' /\ plain k')
  end.

Definition installs (w : Word) (owner : option Z) (mon : Monitor) : Prop :=
  match w with
  | WHash h => owner = None /\ mon = mkMonitor 0 None 0 true [] h
  | WThin x c => owner = Some x /\ exists h, 0 <= h <= kMaxHash /\ mon = mkMonitor 0 (Some x) c true [] h
  | _ => False
  end.

Definition pc_ok (p : Pc) : Prop :=
  match p with
  | Running | AtCheck | EnterLoad _ | ExitLoad | WaitLoad _ _ | NotifyLoad _ | HashLoad => True
  | EnterGot lw _ | ExitGot lw | WaitGot lw _ _ | NotifyGot lw _ | HashGot lw => got_ok lw
  | Contended m k => v = WFat m /\ ~ owns own t /\ match k with LockWait prev => 0 <= prev | LockEnter => True end
  | Waiting m prev | Woken m prev => v = WFat m /\ ~ owns own t /\ 0 <= prev
  | Restore m prev => v = WFat m /\ own = Some (t, 1) /\ 0 <= prev
  | Inflating owner h k => inflates owner k /\ 0 <= h <= kMaxHash /\
      match owner with
      | None => hash = Some h
      | Some x => (exists c, v = WThin x c) \/ exists m, v = WFat m
      end
  | Installing mon lw k => exists w owner, lw = enc w /\ valid w /\ inflates owner k /\ installs w owner mon
  | Suspending o h _ k => 0 <= h <= kMaxHash /\ plain k /\ o <> t
  | OwnerSuspended o h k => 0 <= h <= kMaxHash /\ plain k /\ o <> t /\ blk o
  | Resuming o k => plain k /\ o <> t
  | Returning k => plain k
  end.
End PcOk.

Definition mon_ok (mon : Monitor) : Prop :=
  obj_ mon = true /\ 0 <= hash_code_ mon <= kMaxHash /\
  match owner_ mon with None => lock_count_ mon = 0 | Some o => is_tid o /\ 0 <= lock_count_ mon end.

Definition fat_ok (ms : gmap Z Monitor) (v : Word) (n : Z) : Prop :=
  match v with
  | WFat m => exists mon, ms !! m = Some mon /\ mon_ok mon /\ num_waiters_ mon = n
  | _ => n = 0
  end.

Definition blk (ths : gmap Z ThreadState) (x : Z) : Prop :=
  exists th, ths !! x = Some th /\ blocked (pc th) = true.

Definition thread_ok v ms ths (t : Z) (th : ThreadState) : Prop :=
  is_tid t /\ suspend_count th = total (fun th => suspends t (pc th)) ths /\
  pc_ok v (own_of ms v) (hash_of ms v) (blk ths) t (pc th).

Record inv (v : Word) (ms : gmap Z Monitor) (ths : gmap Z ThreadState) : Prop := {
  inv_valid : valid v;
  inv_fat : fat_ok ms v (total (fun th => weight (pc th)) ths);
  inv_threads : forall t th, ths !! t = Some th -> thread_ok v ms ths t th;
}.

(** What an action of [t] may do to the lock as the other threads see it. *)
Record evolves (blk : Z -> Prop) (t : Z) (v : Word) (own : option (Z * Z)) (hash : option Z)
  (v' : Word) (own' : option (Z * Z)) (hash' : option Z) : Prop := {
  ev_own : forall u n, u <> t -> own = Some (u, n) <-> own' = Some (u, n);
  ev_hash : forall h, hash = Some h -> hash' = Some h;
  ev_fat : forall m, v = WFat m -> v' = WFat m;
  ev_thin : forall u c, u <> t -> v = WThin u c -> v' = v \/ (blk u /\ exists m, v' = WFat m);
}.

Lemma evolves_refl blk t v own hash : evolves blk t v own hash v own hash.
Proof. split; auto. Qed.

Lemma suspends_nonneg x p : 0 <= suspends x p.
Proof.
  unfold suspends. destruct p; try lia;
    repeat match goal with |- context [match ?x with _ => _ end] => destruct x end; lia.
Qed.

Lemma weight_nonneg p : 0 <= weight p.
Proof. destruct p as [| | | |? []| | | | | | | | | | | | | | | | |]; cbn; lia. Qed.

Lemma owns_evolves blk t v own hash v' own' hash' u : evolves blk t v own hash v' own' hash' ->
  u <> t -> owns own' u -> owns own u.
Proof. intros [Hown _ _ _] Hu [n Hn]. exists n. by apply Hown. Qed.

(** The other threads may still rely on what they have read. *)
Lemma pc_ok_other (b b' : Z -> Prop) t u p v own hash v' own' hash' :
  evolves b t v own hash v' own' hash' -> u <> t ->
  (b u -> blocked p = true) -> (b t -> suspends t p = 0) -> (forall x, x <> t -> b x -> b' x) ->
  pc_ok v own hash b u p -> pc_ok v' own' hash' b' u p.
Proof.
  intros Hev Hu Hbu Hbt Hb. pose proof (owns_evolves _ _ _ _ _ _ _ _ u Hev Hu) as Hno.
  destruct Hev as [Hown Hhash Hfat Hthin].
  assert (Hgot : blocked p = false -> forall lw, got_ok v own hash u lw -> got_ok v' own' hash' u lw).
  { intros Hp lw (w & -> & Hw & H). exists w. split; [done|]. split; [done|]. destruct w as [|o c|h|m].
    - tauto.
    - destruct H as [Ht Hnt]. split; [|tauto]. intros ->. destruct (Hthin u c Hu) as [->|[Hbl _]]; auto.
      apply Hbu in Hbl. congruence.
    - destruct H. split; [tauto|auto].
    - by apply Hfat. }
  assert (Hk : forall owner k, (forall x k', k = ThenResume x k' -> b t -> x <> t) ->
    inflates b u owner k -> inflates b' u owner k).
  { intros [x|] k Hx; [|done]. cbn. intros [?|(Hxu & Hbx & k' & -> & Hp)]; [by left|]. right.
    destruct (decide (x = t)) as [->|Hxt]; [|eauto 10].
    by destruct (Hx t k' eq_refl Hbx). }
  destruct p; cbn in *; try done; try (by apply Hgot).
  - (* Contended *) intros (? & ? & ?). split_all; [auto|tauto|done].
  - (* Waiting *) intros (? & ? & ?). split; [auto|]. split; [tauto|done].
  - (* Woken *) intros (? & ? & ?). split; [auto|]. split; [tauto|done].
  - (* Restore *) intros (? & Ho & ?). split_all; auto. by apply Hown.
  - (* Inflating *)
    intros (Hi & Hh & Ho). split; [|split; [done|]].
    + apply Hk; [|done]. intros x k' -> Hbl. specialize (Hbt Hbl). destruct (Z.eqb_spec x t); [lia|done].
    + destruct owner as [x|]; cbn; [|auto]. destruct Ho as [[c Hc]|[m Hm]]; [|eauto].
      destruct (decide (x = t)) as [->|Hxt].
      * cbn in Hi. destruct Hi as [[? _]|(_ & Hbx & k' & -> & _)]; [congruence|].
        specialize (Hbt Hbx). rewrite Z.eqb_refl in Hbt. lia.
      * destruct (Hthin x c Hxt Hc) as [->|[_ Hf]]; [left; by exists c|by right].
  - (* Installing *)
    intros (w & owner & Hw & Hv & Hi & Hins). exists w, owner. split_all; try done.
    apply Hk; [|done]. intros x k' -> Hbl. specialize (Hbt Hbl). destruct (Z.eqb_spec x t); [lia|done].
  - (* OwnerSuspended *)
    intros (? & ? & ? & Hbo). do 3 (split; [done|]). apply Hb; [|done].
    intros ->. specialize (Hbt Hbo). rewrite Z.eqb_refl in Hbt. lia.
Qed.

(** ** One thread acts *)

Definition runnable (ths : gmap Z ThreadState) (t : Z) (th : ThreadState) : Prop :=
  ths !! t = Some th /\ blocked (pc th) && (0 <? suspend_count th) = false.

(** Thread [t] is at [p'] now and the suspend counts have changed by [d]. *)
Record moved (ths ths' : gmap Z ThreadState) (t : Z) (th : ThreadState) (p' : Pc) (d : Z -> Z) : Prop := {
  mv_self : ths' !! t = Some (mkThreadState p' (suspend_count th + d t));
  mv_other : forall u, u <> t ->
    ths' !! u = (fun x => mkThreadState (pc x) (suspend_count x + d u)) <$> ths !! u;
}.

Abbreviation weights := (fun th => weight (pc th)).
Abbreviation holds_of x := (fun th => suspends x (pc th)).
Abbreviation waits ths := (omap (fun th => waiting_of (pc th)) ths).

(** [MonitorExit] of a thread that has seen a thin lock of another thread, which runs. *)
Definition exits_foreign_lock (s : State) (t : Z) : Prop := exists lw k,
  threads s !! t = Some (mkThreadState (ExitGot lw) k) /\ GetState false lw = kThinLocked /\
  ThinLockOwner lw <> t /\ is_Some (threads s !! ThinLockOwner lw) /\
  is_suspended (ThinLockOwner lw) s = false.

Definition good (v : Word) (ms : gmap Z Monitor) (ths : gmap Z ThreadState) (t : Z) (r : Result) : Prop :=
  match r with
  | Blocked => True
  | Abort => exits_foreign_lock (mkState (enc v) ms ths) t
  | Next s' e => exists v', word s' = enc v' /\ inv v' (monitors s') (threads s') /\
      spec_step t (abs_of v ms ths) e (abs_of v' (monitors s') (threads s'))
  end.

Lemma pc_ok_blk v own hash (b b' : Z -> Prop) t p : (forall x, x <> t -> b x -> b' x) ->
  pc_ok v own hash b t p -> pc_ok v own hash b' t p.
Proof.
  intros Hb. assert (Hk : forall owner k, inflates b t owner k -> inflates b' t owner k).
  { intros [x|] k; [|done]. cbn. intros [?|(? & ? & ?)]; [by left|right]. auto. }
  destruct p; cbn; try done.
  - intros (? & ? & ?). auto.
  - intros (w & ow & ? & ? & ? & ?). exists w, ow. auto.
  - intros (? & ? & ? & ?). auto.
Qed.

Section Moved.
Context (ths ths' : gmap Z ThreadState) (t : Z) (th : ThreadState) (p' : Pc) (d : Z -> Z).
Context (Hth : ths !! t = Some th) (Hmv : moved ths ths' t th p' d).

Lemma moved_total f : total (fun th => f (pc th)) ths' = total (fun th => f (pc th)) ths + f p' - f (pc th).
Proof.
  destruct Hmv as [Hs Ho].
  apply (total_update (fun th => f (pc th)) ths ths' t th _ Hth Hs).
  intros i Hi. rewrite (Ho i Hi). by destruct (ths !! i).
Qed.

Lemma moved_waits : waits ths' = partial_alter (fun _ => waiting_of p') t (waits ths).
Proof.
  destruct Hmv as [Hs Ho]. apply map_eq. intros i. destruct (decide (i = t)) as [->|Hne].
  - by rewrite lookup_partial_alter_eq, lookup_omap, Hs.
  - rewrite lookup_partial_alter_ne, !lookup_omap, (Ho i Hne) by done. by destruct (ths !! i).
Qed.

Lemma moved_blk x : x <> t -> blk ths' x <-> blk ths x.
Proof.
  intros Hx. destruct Hmv as [_ Ho]. unfold blk. rewrite (Ho x Hx). destruct (ths !! x) as [thx|]; cbn.
  - split; intros (y & [= <-] & Hb); by eexists.
  - split; by intros (y & ? & _).
Qed.
End Moved.

Lemma not_suspended v ms ths t th : inv v ms ths -> runnable ths t th -> blk ths t ->
  forall u thu, ths !! u = Some thu -> suspends t (pc thu) = 0.
Proof.
  intros [_ _ Hths] [Hth Hrun] (x & Hx & Hb) u thu Hu.
  assert (x = th) as -> by congruence. rewrite Hb in Hrun. cbn in Hrun. apply Z.ltb_ge in Hrun.
  destruct (Hths t th Hth) as (_ & Hc & _).
  pose proof (total_member (holds_of t) ths u thu (fun x => suspends_nonneg t (pc x)) Hu).
  pose proof (suspends_nonneg t (pc thu)). cbn in *. lia.
Qed.

Lemma step_good v ms ths t th p' d v' ms' ths' e :
  inv v ms ths -> runnable ths t th -> moved ths ths' t th p' d ->
  (forall x, suspends x p' = suspends x (pc th) + d x) -> valid v' ->
  fat_ok ms' v' (total weights ths + weight p' - weight (pc th)) ->
  evolves (blk ths) t v (own_of ms v) (hash_of ms v) v' (own_of ms' v') (hash_of ms' v') ->
  pc_ok v' (own_of ms' v') (hash_of ms' v') (blk ths) t p' ->
  spec_step t (abs_of v ms ths) e
    (mkSpec (own_of ms' v') (partial_alter (fun _ => waiting_of p') t (waits ths)) (hash_of ms' v')) ->
  good v ms ths t (Next (mkState (enc v') ms' ths') e).
Proof.
  intros Hinv Hrun Hmv Hd Hv' Hfat Hev Hpc Hspec.
  pose proof (not_suspended v ms ths t th Hinv Hrun) as Hns.
  destruct Hinv as [Hv Hf Hths]. destruct Hrun as [Hth Hrun].
  pose proof (moved_total _ _ _ _ _ _ Hth Hmv) as Htot.
  pose proof (moved_blk _ _ _ _ _ _ Hmv) as Hblk.
  assert (Hsusp : forall u, total (holds_of u) ths' = total (holds_of u) ths + d u).
  { intros u. rewrite (Htot (suspends u)), Hd. lia. }
  exists v'. split; [done|]. split.
  - constructor; [done| |].
    + cbn [monitors threads]. by rewrite (Htot weight).
    + cbn [monitors threads]. intros u thu Hu. unfold thread_ok. rewrite Hsusp.
      destruct (decide (u = t)) as [->|Hne].
      * rewrite (mv_self _ _ _ _ _ _ Hmv) in Hu. injection Hu as <-.
        destruct (Hths t th Hth) as (Ht & Hc & _). split; [done|]. split; [cbn; lia|].
        eapply pc_ok_blk; [|exact Hpc]. intros x Hx. by apply Hblk.
      * rewrite (mv_other _ _ _ _ _ _ Hmv u Hne) in Hu.
        destruct (ths !! u) as [x|] eqn:Hx; [|done]. injection Hu as <-.
        destruct (Hths u x Hx) as (Ht & Hc & Hp). split; [done|]. split; [cbn; lia|]. cbn [pc].
        eapply pc_ok_other; [exact Hev|done| | | |exact Hp].
        -- intros (y & Hy & Hb). congruence.
        -- intros Hb. by apply (Hns Hb u x).
        -- intros y Hy. by apply Hblk.
  - unfold abs_of. cbn [monitors threads]. by rewrite (moved_waits _ _ _ _ _ _ Hmv).
Qed.

Lemma set_pc_moved t p' s th : threads s !! t = Some th ->
  moved (threads s) (threads (set_pc t p' s)) t th p' (fun _ => 0).
Proof.
  intros Hth. constructor.
  - cbn. rewrite lookup_alter_eq, Hth. cbn. by rewrite Z.add_0_r.
  - intros u Hu. cbn. rewrite lookup_alter_ne by done. destruct (threads s !! u) as [[p c]|]; [|done].
    cbn. by rewrite Z.add_0_r.
Qed.

Lemma waits_self (ths : gmap Z ThreadState) t th : ths !! t = Some th -> waits ths !! t = waiting_of (pc th).
Proof. intros Hth. by rewrite lookup_omap, Hth. Qed.

Lemma waits_same (ths : gmap Z ThreadState) t th p' : ths !! t = Some th -> waiting_of p' = waiting_of (pc th) ->
  partial_alter (fun _ => waiting_of p') t (waits ths) = waits ths.
Proof.
  intros Hth ->. rewrite <- (waits_self ths t th Hth). apply partial_alter_self.
Qed.

(** Only the thread moves. *)
Lemma go_good v ms ths t th p' e :
  inv v ms ths -> runnable ths t th ->
  (forall x, suspends x p' = suspends x (pc th)) -> weight p' = weight (pc th) ->
  waiting_of p' = waiting_of (pc th) ->
  pc_ok v (own_of ms v) (hash_of ms v) (blk ths) t p' ->
  spec_step t (abs_of v ms ths) e (abs_of v ms ths) ->
  good v ms ths t (Next (set_pc t p' (mkState (enc v) ms ths)) e).
Proof.
  intros Hinv Hrun Hs Hw Hwt Hpc Hspec. pose proof Hinv as [Hv Hf _]. pose proof Hrun as [Hth _].
  apply (step_good v ms ths t th p' (fun _ => 0)); try done.
  - by apply (set_pc_moved t p' (mkState (enc v) ms ths)).
  - intros x. rewrite Hs. lia.
  - rewrite Hw. by replace (total weights ths + weight (pc th) - weight (pc th)) with (total weights ths) by lia.
  - apply evolves_refl.
  - by rewrite (waits_same ths t th p' Hth Hwt).
Qed.

Definition own_mon (mon : Monitor) : option (Z * Z) :=
  o ← owner_ mon; Some (o, lock_count_ mon + 1).
Definition hash_mon (mon : Monitor) : option Z :=
  if hash_code_ mon =? 0 then None else Some (hash_code_ mon).

Lemma own_fat ms m mon : ms !! m = Some mon -> own_of ms (WFat m) = own_mon mon.
Proof. intros Hm. cbn. by rewrite Hm. Qed.
Lemma hash_fat ms m mon : ms !! m = Some mon -> hash_of ms (WFat m) = hash_mon mon.
Proof. intros Hm. cbn. by rewrite Hm. Qed.

Section Step.
Context (v : Word) (ms : gmap Z Monitor) (ths : gmap Z ThreadState) (t : Z) (th : ThreadState).
Context (Hinv : inv v ms ths) (Hrun : runnable ths t th).

Lemma self_ok : thread_ok v ms ths t th.
Proof. destruct Hrun as [Hth _]. by apply (inv_threads _ _ _ Hinv). Qed.

Lemma tid_ok : is_tid t.
Proof. by destruct self_ok. Qed.

Lemma my_pc_ok p : pc th = p -> pc_ok v (own_of ms v) (hash_of ms v) (blk ths) t p.
Proof. intros <-. by destruct self_ok as (_ & _ & ?). Qed.

Lemma my_wait p : pc th = p -> waits ths !! t = waiting_of p.
Proof. intros <-. destruct Hrun as [Hth _]. by apply waits_self. Qed.

Lemma fat_monitor m : v = WFat m -> exists mon, ms !! m = Some mon /\ mon_ok mon /\
  num_waiters_ mon = total weights ths.
Proof. intros E. pose proof (inv_fat _ _ _ Hinv) as Hf. by rewrite E in Hf. Qed.

(** The thread changes the lock word or the monitors. *)
Lemma set_good p p' v' ms' e :
  pc th = p -> (forall x, suspends x p' = suspends x p) -> waiting_of p' = waiting_of p -> valid v' ->
  fat_ok ms' v' (total weights ths + weight p' - weight p) ->
  evolves (blk ths) t v (own_of ms v) (hash_of ms v) v' (own_of ms' v') (hash_of ms' v') ->
  pc_ok v' (own_of ms' v') (hash_of ms' v') (blk ths) t p' ->
  spec_step t (abs_of v ms ths) e (mkSpec (own_of ms' v') (waits ths) (hash_of ms' v')) ->
  good v ms ths t (Next (set_pc t p' (mkState (enc v') ms' ths)) e).
Proof.
  intros <- Hs Hwt Hv' Hf Hev Hpc Hspec. pose proof Hrun as [Hth _].
  apply (step_good v ms ths t th p' (fun _ => 0)); try done.
  - by apply (set_pc_moved t p' (mkState (enc v') ms' ths)).
  - intros x. rewrite Hs. lia.
  - by rewrite (waits_same ths t th p' Hth Hwt).
Qed.

(** The thread changes the monitor of a fat lock. *)
Lemma mon_good m mon mon' p p' e :
  v = WFat m -> ms !! m = Some mon -> pc th = p -> (forall x, suspends x p' = suspends x p) ->
  mon_ok mon' -> num_waiters_ mon' = num_waiters_ mon + weight p' - weight p ->
  (forall u n, u <> t -> own_mon mon = Some (u, n) <-> own_mon mon' = Some (u, n)) ->
  (forall h, hash_mon mon = Some h -> hash_mon mon' = Some h) ->
  pc_ok (WFat m) (own_mon mon') (hash_mon mon') (blk ths) t p' ->
  spec_step t (mkSpec (own_mon mon) (waits ths) (hash_mon mon)) e
    (mkSpec (own_mon mon') (partial_alter (fun _ => waiting_of p') t (waits ths)) (hash_mon mon')) ->
  good v ms ths t (Next (set_pc t p' (set_monitor m mon' (mkState (enc v) ms ths))) e).
Proof.
  intros Ev Hm <- Hs Hok' Hn Ho Hh Hpc Hspec. pose proof Hrun as [Hth _].
  destruct (fat_monitor m Ev) as (mon0 & Hm0 & _ & Hw). assert (mon0 = mon) as -> by congruence.
  assert (Hm' : <[m := mon']> ms !! m = Some mon') by apply lookup_insert_eq.
  apply (step_good v ms ths t th p' (fun _ => 0) v (<[m := mon']> ms)); try done;
    rewrite ?Ev, ?(own_fat _ _ _ Hm), ?(hash_fat _ _ _ Hm), ?(own_fat _ _ _ Hm'), ?(hash_fat _ _ _ Hm'); try done.
  - by apply (set_pc_moved t p' (mkState (enc v) (<[m := mon']> ms) ths)).
  - intros x. rewrite Hs. lia.
  - rewrite <- Ev. apply (inv_valid _ _ _ Hinv).
  - exists mon'. split; [done|]. split; [done|]. rewrite Hn. lia.
  - unfold abs_of. by rewrite (own_fat _ _ _ Hm), (hash_fat _ _ _ Hm).
Qed.

(** Nothing but the thread's place changes. *)
Lemma stay_good p p' e :
  pc th = p -> (forall x, suspends x p' = suspends x p) -> weight p' = weight p ->
  waiting_of p' = waiting_of p -> pc_ok v (own_of ms v) (hash_of ms v) (blk ths) t p' ->
  spec_step t (abs_of v ms ths) e (abs_of v ms ths) ->
  good v ms ths t (Next (set_pc t p' (mkState (enc v) ms ths)) e).
Proof. intros <-. by apply go_good. Qed.

Lemma tau_here : spec_step t (abs_of v ms ths) Tau (abs_of v ms ths).
Proof. constructor. by right. Qed.

Lemma fail_here : ~ owns (own_of ms v) t -> spec_step t (abs_of v ms ths) Fail (abs_of v ms ths).
Proof. intros Hno. constructor. intros n Hn. apply Hno. by exists n. Qed.
End Step.
