(* ===== verification/MonitorFacts.v ===== *)
(** * The threads of a monitor implement a lock

    Every action of a thread, [Deflate] and [Sweep] preserve the invariant of
    [MonitorInvariant] and do what the specification allows ([act_good], [Deflate_good],
    [Sweep_good]); the properties are about whole runs. *)
From stdpp Require Import fin_maps.
From S2P Require Import Prelude.
From S2P Require Import LockWord.
From S2P Require Import Monitor.
From S2P Require Import MonitorInvariant.
Local Open Scope Z_scope.

(** ** The operations of [Monitor] *)

Lemma waits_keep (w : gmap Z Z) t o : w !! t = o -> partial_alter (fun _ => o) t w = w.
Proof. intros <-. apply partial_alter_self. Qed.

Ltac mon_simpl :=
  unfold own_mon, hash_mon, mon_ok, set_lock, set_waiters, set_hash in *;
  cbn [owner_ lock_count_ obj_ hash_code_ num_waiters_ wait_set_ mbind option_bind] in *;
  repeat match goal with
  | H : owner_ ?mon = _ |- _ => rewrite H in *; clear H
  end;
  cbn [owner_ lock_count_ obj_ hash_code_ num_waiters_ wait_set_ mbind option_bind] in *.

Section MonitorOps.
Context (v : Word) (ms : gmap Z Monitor) (ths : gmap Z ThreadState) (t : Z) (th : ThreadState).
Context (Hinv : inv v ms ths) (Hrun : runnable ths t th).
Context (m : Z) (mon : Monitor) (Ev : v = WFat m) (Hm : ms !! m = Some mon).
Abbreviation s := (mkState (enc v) ms ths).

Lemma mon_is_ok : mon_ok mon /\ num_waiters_ mon = total weights ths.
Proof using Hinv Ev Hm.
  destruct (fat_monitor v ms ths Hinv m Ev) as (mon0 & Hm0 & Hok & Hn).
  assert (mon0 = mon) as -> by congruence. done.
Qed.

Lemma own_here : own_of ms v = own_mon mon.
Proof using Ev Hm. rewrite Ev. by apply own_fat. Qed.

Lemma hash_here : hash_of ms v = hash_mon mon.
Proof using Ev Hm. rewrite Ev. by apply hash_fat. Qed.

Lemma abs_here : abs_of v ms ths = mkSpec (own_mon mon) (waits ths) (hash_mon mon).
Proof using Ev Hm. unfold abs_of. by rewrite own_here, hash_here. Qed.

Lemma not_owner : ~ owns (own_of ms v) t <-> owner_ mon <> Some t.
Proof using Ev Hm.
  rewrite own_here. unfold own_mon. split.
  - intros Hno Ho. apply Hno. rewrite Ho. by eexists.
  - intros Ho [n Hn]. apply Ho. destruct (owner_ mon) as [o|]; [|done]. cbn in Hn. congruence.
Qed.

(** The thread comes from [p]; [extra] is 1 if it counts as a contender already. *)
Lemma Lock_good p k extra : pc th = p ->
  (forall x, suspends x p = 0) ->
  weight p = extra + match k with LockEnter => 0 | LockWait _ => 1 end ->
  waiting_of p = match k with LockEnter => None | LockWait prev => Some (prev + 1) end ->
  match k with LockEnter => True | LockWait prev => 0 <= prev /\ ~ owns (own_of ms v) t end ->
  good v ms ths t (Lock t m k (set_waiters (num_waiters_ mon - extra) (wait_set_ mon) mon) s).
Proof using All.
  intros Hp Hs Hw Hwt Hk. destruct mon_is_ok as [(Hobj & Hh & Ho) Hn].
  pose proof (tid_ok v ms ths t th Hinv Hrun) as Ht.
  pose proof (my_wait ths t th Hrun p Hp) as Hwaits. rewrite Hwt in Hwaits.
  assert (match k with LockEnter => True | LockWait prev => 0 <= prev /\ owner_ mon <> Some t end) as Hk2
    by (destruct k; [done|]; by rewrite <- not_owner). clear Hk. rename Hk2 into Hk.
  unfold Lock. cbn [owner_ lock_count_ set_waiters num_waiters_ wait_set_].
  destruct (owner_ mon) as [o|] eqn:Eo; [destruct (Z.eqb_spec o t) as [->|Hot]|].
  - destruct k as [|prev]; [|by destruct Hk].
    apply (mon_good v ms ths t th Hinv Hrun m mon _ p); try done; mon_simpl; try done.
    + split; [done|]. split; [done|]. split; [done|lia].
    + cbn. lia.
    + intros u n Hu. split; congruence.
    + cbn [waiting_of]; rewrite (waits_keep _ _ _ Hwaits). constructor.
  - apply (mon_good v ms ths t th Hinv Hrun m mon _ p); try done; mon_simpl; try done.
    + cbn. destruct k; lia.
    + cbn. split; [done|]. split; [|by destruct k; [|destruct Hk]]. intros [n Hn']. congruence.
    + cbn [waiting_of]. replace (match k with LockEnter => None | LockWait prev => Some (prev + 1) end)
        with (waits ths !! t) by done. rewrite partial_alter_self. constructor. by right.
  - rewrite Ho. cbn [Z.eqb]. destruct k as [|prev]; cbn [after_lock].
    + apply (mon_good v ms ths t th Hinv Hrun m mon _ p); try done; mon_simpl; try done.
      * cbn. lia.
      * intros u n Hu. split; congruence.
      * cbn [waiting_of]; rewrite (waits_keep _ _ _ Hwaits). constructor.
    + apply (mon_good v ms ths t th Hinv Hrun m mon _ p); try done; mon_simpl; try done.
      * cbn. lia.
      * intros u n Hu. split; congruence.
      * by destruct Hk.
      * cbn [waiting_of]; rewrite (waits_keep _ _ _ Hwaits). by econstructor.
Qed.

Lemma Unlock_good lw : pc th = ExitGot lw -> good v ms ths t (Unlock t m mon s).
Proof using All.
  intros Hp. destruct mon_is_ok as [(Hobj & Hh & Ho) Hn].
  pose proof (my_wait ths t th Hrun _ Hp) as Hwaits. cbn in Hwaits.
  unfold Unlock. case_bool_decide as Eo.
  - rewrite Eo in Ho. destruct Ho as [Ht Hc].
    apply (mon_good v ms ths t th Hinv Hrun m mon _ _ _ _ Ev Hm Hp); try done;
      destruct (Z.eqb_spec (lock_count_ mon) 0) as [E0|E0]; mon_simpl; rewrite ?E0; cbn; try done; try lia.
    + split; [done|]. split; [done|]. split; [done|lia].
    + intros u n Hu. split; congruence.
    + intros u n Hu. split; congruence.
    + cbn [waiting_of]; rewrite (waits_keep _ _ _ Hwaits). constructor.
    + cbn [waiting_of]; rewrite (waits_keep _ _ _ Hwaits).
      replace (lock_count_ mon - 1 + 1) with (lock_count_ mon + 1 - 1) by lia. constructor. lia.
  - apply (stay_good v ms ths t th Hinv Hrun _ _ _ Hp); try done.
    apply fail_here. by apply not_owner.
Qed.

Lemma Wait_good lw ms' ns : pc th = WaitGot lw ms' ns -> good v ms ths t (MonitorWait t m ms' ns mon s).
Proof using All.
  intros Hp. destruct mon_is_ok as [(Hobj & Hh & Ho) Hn].
  pose proof (my_wait ths t th Hrun _ Hp) as Hwaits. cbn in Hwaits.
  unfold MonitorWait. case_bool_decide as Eo; cbn [negb].
  - rewrite Eo in Ho. destruct Ho as [Ht Hc]. case_match.
    + apply (stay_good v ms ths t th Hinv Hrun _ _ _ Hp); try done.
      rewrite abs_here. mon_simpl. constructor.
    + apply (mon_good v ms ths t th Hinv Hrun m mon _ _ _ _ Ev Hm Hp); try done; mon_simpl; cbn; try done; try lia.
      * intros u n Hu. split; congruence.
      * split; [done|]. split; [|done]. by intros [n ?].
      * by constructor.
  - apply (stay_good v ms ths t th Hinv Hrun _ _ _ Hp); try done.
    apply fail_here. by apply not_owner.
Qed.

Lemma signalled_wait u : still_waiting s u = true -> is_Some (waits ths !! u).
Proof using Type.
  unfold still_waiting. cbn [threads]. rewrite lookup_omap. destruct (ths !! u) as [thu|]; [|done].
  cbn. by destruct (pc thu).
Qed.

Lemma NotifyLoop_signalled ws : Forall (fun u => is_Some (waits ths !! u)) (NotifyLoop s ws).2.
Proof using Type.
  induction ws as [|u ws IH]; [constructor|]. cbn [NotifyLoop].
  destruct (still_waiting s u) eqn:E; [|done]. constructor; [|constructor]. by apply signalled_wait.
Qed.

Lemma Notify_good lw all : pc th = NotifyGot lw all -> good v ms ths t (Notify t m all mon s).
Proof using All.
  intros Hp. destruct mon_is_ok as [(Hobj & Hh & Ho) Hn].
  pose proof (my_wait ths t th Hrun _ Hp) as Hwaits. cbn in Hwaits.
  unfold Notify. case_bool_decide as Eo; cbn [negb].
  - rewrite Eo in Ho. destruct Ho as [Ht Hc].
    assert (Hsig : Forall (fun u => is_Some (waits ths !! u))
      (if all then ([], filter (still_waiting s) (wait_set_ mon)) else NotifyLoop s (wait_set_ mon)).2).
    { destruct all; [|apply NotifyLoop_signalled]. apply Forall_forall. intros u Hu.
      cbn [snd] in Hu. apply list_elem_of_filter in Hu as [Hu _]. apply signalled_wait. by destruct (still_waiting s u). }
    destruct (if all then _ else _) as [rest l]. cbn [snd] in Hsig.
    apply (mon_good v ms ths t th Hinv Hrun m mon _ _ _ _ Ev Hm Hp); try done; mon_simpl; cbn; try done; try lia.
    cbn [waiting_of]; rewrite (waits_keep _ _ _ Hwaits). by constructor.
  - apply (stay_good v ms ths t th Hinv Hrun _ _ _ Hp); try done.
    apply fail_here. by apply not_owner.
Qed.

Lemma Restore_good prev : pc th = Restore m prev ->
  let mon1 := set_lock (Some t) prev mon in
  let mon2 := set_waiters (num_waiters_ mon1 - 1) (filter (fun x => x <> t) (wait_set_ mon1)) mon1 in
  good v ms ths t (return_ t (Restored (prev + 1)) (set_monitor m mon2 s)).
Proof using All.
  intros Hp. cbv zeta. destruct mon_is_ok as [(Hobj & Hh & Ho) Hn].
  pose proof (my_wait ths t th Hrun _ Hp) as Hwaits. cbn in Hwaits.
  pose proof (tid_ok v ms ths t th Hinv Hrun) as Ht.
  destruct (my_pc_ok v ms ths t th Hinv Hrun _ Hp) as (_ & Hown & Hprev).
  rewrite own_here in Hown. unfold own_mon in Hown. destruct (owner_ mon) as [o|] eqn:Eo; [|done].
  cbn in Hown. injection Hown as -> Hc.
  apply (mon_good v ms ths t th Hinv Hrun m mon _ _ _ _ Ev Hm Hp); try done; mon_simpl; cbn; try done; try lia.
  - intros u n Hu. split; congruence.
  - rewrite Hc. cbn [waiting_of]. by constructor.
Qed.

(** [GetHashCode] of the monitor. *)
Lemma monitor_hash_good lw h : pc th = HashGot lw -> 0 < h <= kMaxHash ->
  good v ms ths t
    (if hash_code_ mon =? 0 then return_ t (Hash h) (set_monitor m (set_hash h mon) s)
     else return_ t (Hash (hash_code_ mon)) s).
Proof using All.
  intros Hp Hhr. destruct mon_is_ok as [(Hobj & Hh & Ho) Hn].
  pose proof (my_wait ths t th Hrun _ Hp) as Hwaits. cbn in Hwaits.
  destruct (Z.eqb_spec (hash_code_ mon) 0) as [E0|E0].
  - apply (mon_good v ms ths t th Hinv Hrun m mon _ _ _ _ Ev Hm Hp); try done; mon_simpl; cbn;
      rewrite ?E0; try done; try lia.
    + split; [done|]. split; [lia|done].
    + rewrite (proj2 (Z.eqb_neq h 0)) by lia. cbn. rewrite (waits_keep _ _ _ Hwaits). constructor. by left.
  - apply (stay_good v ms ths t th Hinv Hrun _ _ _ Hp); try done. rewrite abs_here. unfold hash_mon.
    rewrite (proj2 (Z.eqb_neq _ 0) E0). constructor. by right.
Qed.
End MonitorOps.

(** ** Threads that have loaded the lock word *)

Section GotWord.
Context (v : Word) (ms : gmap Z Monitor) (ths : gmap Z ThreadState) (t : Z) (th : ThreadState).
Context (Hinv : inv v ms ths) (Hrun : runnable ths t th).
Abbreviation s := (mkState (enc v) ms ths).

Lemma no_waiters : (forall m, v <> WFat m) -> total weights ths = 0.
Proof using Hinv.
  intros Hne. pose proof (inv_fat _ _ _ Hinv) as Hf. destruct v as [|o c|h|m]; try done.
  by destruct (Hne m).
Qed.

Lemma cas_enc w new fails : valid w ->
  cas (enc w) new fails s = if bool_decide (v = w) && negb fails then Some (mkState new ms ths) else None.
Proof using Hinv. intros Hw. unfold cas. cbn [word]. by rewrite enc_eqb by (done || apply (inv_valid _ _ _ Hinv)). Qed.

(** The thread replaces the lock word by one that is not fat. *)
Lemma word_good p v' e :
  pc th = p -> weight p = 0 -> waiting_of p = None -> (forall x, suspends x p = 0) ->
  (forall m, v <> WFat m) -> valid v' -> (forall m, v' <> WFat m) ->
  (forall u n, u <> t -> own_of ms v = Some (u, n) <-> own_of ms v' = Some (u, n)) ->
  (forall h, hash_of ms v = Some h -> hash_of ms v' = Some h) ->
  (forall u c, u <> t -> v = WThin u c -> v' = v) ->
  spec_step t (abs_of v ms ths) e (mkSpec (own_of ms v') (waits ths) (hash_of ms v')) ->
  good v ms ths t (return_ t e (mkState (enc v') ms ths)).
Proof using All.
  intros Hp Hw Hwt Hs Hne Hv' Hne' Ho Hh Ht Hspec.
  apply (set_good v ms ths t th Hinv Hrun p); try done.
  - rewrite Hw, (no_waiters Hne). destruct v' as [|? ?|?|m]; try done. by destruct (Hne' m).
  - constructor; try done.
    + intros m E. by destruct (Hne m).
    + intros u c Hu E. left. by eapply Ht.
Qed.

Lemma stay p p' e : pc th = p -> (forall x, suspends x p' = suspends x p) -> weight p' = weight p ->
  waiting_of p' = waiting_of p -> pc_ok v (own_of ms v) (hash_of ms v) (blk ths) t p' ->
  spec_step t (abs_of v ms ths) e (abs_of v ms ths) ->
  good v ms ths t (Next (set_pc t p' s) e).
Proof using All. by apply stay_good. Qed.

Lemma stay_fail p : pc th = p -> weight p = 0 -> waiting_of p = None -> (forall x, suspends x p = 0) ->
  ~ owns (own_of ms v) t -> good v ms ths t (return_ t Fail s).
Proof using All.
  intros Hp Hw Hwt Hs Hno. apply (stay p); try done. by apply fail_here.
Qed.

Lemma not_mine w : valid w ->
  match w with
  | WUnlocked => ~ owns (own_of ms v) t
  | WThin o c => (o = t -> v = w) /\ (o <> t -> ~ owns (own_of ms v) t)
  | WHash h => ~ owns (own_of ms v) t /\ hash_of ms v = Some h
  | WFat m => v = w
  end -> match w with WUnlocked | WHash _ => True | WThin o _ => o <> t | WFat _ => False end ->
  ~ owns (own_of ms v) t.
Proof using Type. destruct w; tauto. Qed.

(** [InflateThinLocked] with a thin word that was loaded. *)
Lemma InflateThinLocked_good p o c h k : pc th = p -> weight p = 0 -> waiting_of p = None ->
  (forall x, suspends x p = 0) -> valid (WThin o c) -> (o = t -> v = WThin o c) -> 0 <= h <= kMaxHash ->
  plain k -> good v ms ths t (InflateThinLocked t (enc (WThin o c)) h k s).
Proof using All.
  intros Hp Hw Hwt Hs Hv Ho Hh Hk. unfold InflateThinLocked. rewrite enc_owner by done.
  destruct (Z.eqb_spec o t) as [->|Hot].
  - apply (stay p); try done.
    + intros x. rewrite Hs. by destruct k.
    + cbn. split; [by left|]. split; [done|]. left. exists c. by apply Ho.
    + apply tau_here.
  - apply (stay p); try done. apply tau_here.
Qed.

Context (max_spins : Z) (c : Choice).

Lemma EnterStep_good lw n : pc th = EnterGot lw n -> good v ms ths t (EnterStep max_spins t lw n c s).
Proof using All.
  intros Hp. pose proof (my_pc_ok v ms ths t th Hinv Hrun _ Hp) as (w & -> & Hw & H).
  pose proof (tid_ok v ms ths t th Hinv Hrun) as Ht.
  unfold EnterStep. rewrite (enc_state w Hw). destruct w as [|o count|h|m].
  - rewrite (enc_rb _ Hw), FromThinLockId_enc, cas_enc by done.
    case_bool_decide as Ev; [destruct (cas_fails c)|]; cbn [andb negb].
    + apply (stay _ _ _ Hp); try done. apply tau_here.
    + apply (word_good _ (WThin t 0) _ Hp); rewrite ?Ev; try done.
      * cbn. intros u n' Hu. split; congruence.
      * cbn. constructor.
    + apply (stay _ _ _ Hp); try done. apply tau_here.
  - rewrite enc_owner, enc_count by done. destruct H as [Hmine Hother]. destruct Hw as [Hto Hc].
    destruct (Z.eqb_spec o t) as [->|Hot].
    + specialize (Hmine eq_refl). destruct (Z.leb_spec (count + 1) kThinLockMaxCount).
      * rewrite (enc_rb (WThin t count)), FromThinLockId_enc by (done || lia).
        apply (word_good _ (WThin t (count + 1)) _ Hp); try done; rewrite ?Hmine; try done.
        -- cbn. split; [done|lia].
        -- cbn. intros u n' Hu. split; congruence.
        -- intros u c' Hu. congruence.
        -- cbn. constructor.
      * apply (InflateThinLocked_good _ _ _ _ _ Hp); done || (vm_compute; done).
    + case_match.
      * apply (stay _ _ _ Hp); try done. apply tau_here.
      * apply (InflateThinLocked_good _ _ _ _ _ Hp); done || (vm_compute; done).
  - rewrite enc_hash by done. apply (stay _ _ _ Hp); try done; [|apply tau_here].
    destruct H as [_ Hh]. cbn in Hw |- *. split; [done|]. split; [lia|done].
  - rewrite enc_monitor by done. destruct (fat_monitor v ms ths Hinv m H) as (mon & Hm & _).
    cbn [monitors]. rewrite Hm.
    replace mon with (set_waiters (num_waiters_ mon - 0) (wait_set_ mon) mon) at 1
      by (destruct mon; cbn; by rewrite Z.sub_0_r).
    by apply (Lock_good v ms ths t th Hinv Hrun m mon H Hm _ _ _ Hp).
Qed.

Lemma ExitStep_good lw : pc th = ExitGot lw -> good v ms ths t (ExitStep t lw s).
Proof using All.
  intros Hp. pose proof (my_pc_ok v ms ths t th Hinv Hrun _ Hp) as (w & -> & Hw & H).
  pose proof (not_mine w Hw H) as Hno.
  unfold ExitStep. rewrite (enc_state w Hw). destruct w as [|o count|h|m].
  - by apply (stay_fail _ Hp), Hno.
  - rewrite enc_owner, enc_count by done. destruct (Z.eqb_spec o t) as [->|Hot]; cbn [negb].
    + destruct H as [Hmine _]. specialize (Hmine eq_refl). destruct Hw as [Hto Hc].
      rewrite (enc_rb (WThin t count)) by done.
      destruct (Z.eqb_spec count 0) as [->|Hc0]; cbn [negb].
      * rewrite FromDefault_enc. apply (word_good _ WUnlocked _ Hp); try done; rewrite ?Hmine; try done.
        -- cbn. intros u n' Hu. split; congruence.
        -- intros u c' Hu. congruence.
        -- cbn. constructor.
      * rewrite FromThinLockId_enc by (done || lia).
        apply (word_good _ (WThin t (count - 1)) _ Hp); try done; rewrite ?Hmine; try done.
        -- cbn. split; [done|lia].
        -- cbn. intros u n' Hu. split; congruence.
        -- intros u c' Hu. congruence.
        -- unfold abs_of. cbn [own_of hash_of]. replace (count - 1 + 1) with (count + 1 - 1) by lia.
           constructor. lia.
    + unfold FindThreadByThreadId. cbn [threads]. rewrite (proj2 (Z.eqb_neq o t) Hot). cbn [orb].
      destruct (ths !! o) as [tho|] eqn:Etho; [|by apply (stay_fail _ Hp), Hno].
      destruct (is_suspended o s) eqn:Es; [by apply (stay_fail _ Hp), Hno|].
      destruct Hrun as [Hth _]. destruct th as [p k]. cbn in Hp. subst p.
      exists (enc (WThin o count)), k. rewrite (enc_state _ Hw), enc_owner by done.
      split; [done|]. split; [done|]. split; [done|]. cbn [threads]. rewrite Etho. done.
  - by apply (stay_fail _ Hp), Hno.
  - rewrite enc_monitor by done. destruct (fat_monitor v ms ths Hinv m H) as (mon & Hm & _).
    cbn [monitors]. rewrite Hm. by apply (Unlock_good v ms ths t th Hinv Hrun m mon H Hm _ Hp).
Qed.

Lemma WaitStep_good lw ms' ns : pc th = WaitGot lw ms' ns -> good v ms ths t (WaitStep t lw ms' ns s).
Proof using All.
  intros Hp. pose proof (my_pc_ok v ms ths t th Hinv Hrun _ Hp) as (w & -> & Hw & H).
  pose proof (not_mine w Hw H) as Hno.
  unfold WaitStep. rewrite (enc_state w Hw). destruct w as [|o count|h|m].
  - by apply (stay_fail _ Hp), Hno.
  - rewrite enc_owner by done. destruct (Z.eqb_spec o t) as [->|Hot]; cbn [negb].
    + destruct H as [Hmine _]. apply (stay _ _ _ Hp); try done; [|apply tau_here].
      cbn. split; [by left|]. split; [by vm_compute|]. left. exists count. by apply Hmine.
    + by apply (stay_fail _ Hp), Hno.
  - by apply (stay_fail _ Hp), Hno.
  - rewrite enc_monitor by done. destruct (fat_monitor v ms ths Hinv m H) as (mon & Hm & _).
    cbn [monitors]. rewrite Hm. by apply (Wait_good v ms ths t th Hinv Hrun m mon H Hm _ _ _ Hp).
Qed.

Lemma NotifyStep_good lw all : pc th = NotifyGot lw all -> good v ms ths t (NotifyStep t lw all s).
Proof using All.
  intros Hp. pose proof (my_pc_ok v ms ths t th Hinv Hrun _ Hp) as (w & -> & Hw & H).
  pose proof (not_mine w Hw H) as Hno.
  unfold NotifyStep. rewrite (enc_state w Hw). destruct w as [|o count|h|m].
  - by apply (stay_fail _ Hp), Hno.
  - rewrite enc_owner by done. destruct (Z.eqb_spec o t) as [->|Hot]; cbn [negb].
    + destruct H as [Hmine _]. apply (stay _ _ _ Hp); try done. rewrite Hmine by done.
      by constructor.
    + by apply (stay_fail _ Hp), Hno.
  - by apply (stay_fail _ Hp), Hno.
  - rewrite enc_monitor by done. destruct (fat_monitor v ms ths Hinv m H) as (mon & Hm & _).
    cbn [monitors]. rewrite Hm. by apply (Notify_good v ms ths t th Hinv Hrun m mon H Hm _ _ Hp).
Qed.

Lemma HashStep_good lw : pc th = HashGot lw -> good v ms ths t (HashStep t lw c s).
Proof using All.
  intros Hp. pose proof (my_pc_ok v ms ths t th Hinv Hrun _ Hp) as (w & -> & Hw & H).
  destruct (new_hash_ok c) as (h & Hh & Hr).
  unfold HashStep. rewrite Hh, (enc_state w Hw). destruct w as [|o count|h'|m].
  - rewrite (enc_rb _ Hw), FromHashCode_enc, cas_enc by done.
    case_bool_decide as Ev; [destruct (cas_fails c)|]; cbn [andb negb].
    + apply (stay _ _ _ Hp); try done. apply tau_here.
    + rewrite enc_hash by done.
      apply (word_good _ (WHash h) _ Hp); rewrite ?Ev; try done.
      constructor. by left.
    + apply (stay _ _ _ Hp); try done. apply tau_here.
  - apply (InflateThinLocked_good _ _ _ _ _ Hp); try done; [apply H|lia].
  - rewrite enc_hash by done. destruct H as [_ H]. apply (stay _ _ _ Hp); try done.
    unfold abs_of. rewrite H. constructor. by right.
  - rewrite enc_monitor by done. destruct (fat_monitor v ms ths Hinv m H) as (mon & Hm & _).
    cbn [monitors]. rewrite Hm. by apply (monitor_hash_good v ms ths t th Hinv Hrun m mon H Hm _ _ Hp).
Qed.

(** ** Inflation *)

Lemma continue_good p owner k b : pc th = p -> weight p = 0 -> waiting_of p = None ->
  (forall x, suspends x p = suspends x (Inflating owner 0 k)) -> inflates b t owner k ->
  good v ms ths t (go t (continue_ k) s).
Proof using All.
  intros Hp Hw Hwt Hs Hi.
  assert (weight (continue_ k) = 0 /\ waiting_of (continue_ k) = None) as [E1 E2] by by destruct k.
  apply (stay p); try done; try congruence; [| |apply tau_here].
  - intros x. rewrite Hs. by destruct k.
  - destruct k; try done. destruct owner as [x|]; [|done]. cbn in Hi.
    destruct Hi as [[_ ?]|(Hx & _ & k' & [= -> ->] & Hk)]; done.
Qed.

Lemma suspended_here x : suspends x (pc th) = 1 -> blk ths x -> is_suspended x s = true.
Proof using Hinv Hrun.
  intros Hs (thx & Hx & Hb). unfold is_suspended. cbn [threads]. rewrite Hx, Hb. apply Z.ltb_lt.
  destruct (inv_threads _ _ _ Hinv x thx Hx) as (_ & -> & _). destruct Hrun as [Hth _].
  pose proof (total_member (holds_of x) ths t th (fun y => suspends_nonneg x (pc y)) Hth). cbn in *. lia.
Qed.

Lemma InflateStep_good owner h k : pc th = Inflating owner h k -> good v ms ths t (InflateStep t owner h k s).
Proof using All.
  intros Hp. pose proof (my_pc_ok v ms ths t th Hinv Hrun _ Hp) as (Hi & Hh & Ho).
  pose proof (inv_valid _ _ _ Hinv) as Hv. unfold InflateStep.
  assert ((match owner with None => true | Some o => (o =? t) || is_suspended o s end) = true) as ->.
  { destruct owner as [x|]; [|done]. cbn in Hi. destruct (Z.eqb_spec x t) as [|Hx]; [done|].
    destruct Hi as [[? _]|(_ & Hb & k' & -> & _)]; [done|]. apply suspended_here; [|done].
    rewrite Hp. cbn. by rewrite Z.eqb_refl. }
  cbn [word].
  assert (Hcases : (exists m, v = WFat m) \/
    exists mon, Install owner h (enc v) = Some (Some mon) /\ installs v owner mon).
  { unfold Install. rewrite (enc_state v Hv). destruct owner as [x|].
    - destruct Ho as [[count Ev]|]; [right|by left]. rewrite Ev in Hv |- *.
      rewrite enc_owner, enc_count, Z.eqb_refl by done. eexists. split; [done|]. cbn. eauto.
    - destruct v as [|x count|h'|m]; [done|done| |eauto]. right. cbn in Ho. injection Ho as ->.
      rewrite enc_hash, Z.eqb_refl by done. eexists. split; [done|]. by cbn. }
  destruct Hcases as [[m Ev]|(mon & -> & Hins)].
  - assert (Install owner h (enc v) = Some None) as ->
      by (unfold Install; by rewrite (enc_state v Hv), Ev).
    by apply (continue_good _ owner k (blk ths) Hp).
  - apply (stay _ _ _ Hp); try done; [|apply tau_here]. by exists v, owner.
Qed.

Lemma InstallStep_good mon lw k : pc th = Installing mon lw k -> good v ms ths t (InstallStep t mon lw k c s).
Proof using All.
  intros Hp. pose proof (my_pc_ok v ms ths t th Hinv Hrun _ Hp) as (w & owner & -> & Hw & Hi & Hins).
  pose proof (continue_good _ owner k (blk ths) Hp) as Hgo.
  unfold InstallStep. cbn [monitors]. destruct (ms !! fresh_id c) as [|] eqn:Efresh; [done|].
  destruct (Z.leb_spec 0 (fresh_id c)), (Z.leb_spec (fresh_id c) kMaxMonitorId); cbn [andb negb]; try done.
  rewrite (enc_rb w Hw), cas_enc, FromMonitor_enc by done.
  case_bool_decide as Ev; [destruct (cas_fails c)|]; cbn [andb negb]; [by apply Hgo| |by apply Hgo].
  set (m := fresh_id c) in *.
  assert (Hm : <[m := mon]> ms !! m = Some mon) by apply lookup_insert_eq.
  assert (Hmon : mon_ok mon /\ num_waiters_ mon = 0 /\ own_mon mon = own_of ms v /\
    (hash_of ms v = None \/ hash_mon mon = hash_of ms v) /\ forall m', v <> WFat m').
  { rewrite Ev. destruct w as [|x count|h|m']; try done; cbn in Hins.
    - destruct Hins as [-> (h & Hh & ->)]. destruct Hw as [? [? ?]]. unfold mon_ok. cbn.
      split; [tauto|]. split; [done|]. split; [done|]. split; [by left|done].
    - destruct Hins as [-> ->]. cbn in Hw. unfold mon_ok, hash_mon. cbn.
      rewrite (proj2 (Z.eqb_neq h 0)) by lia.
      split; [split; [done|]; split; [lia|done]|]. split; [done|]. split; [done|]. split; [by right|done]. }
  destruct Hmon as (Hok & Hn & Ho & Hh & Hne).
  assert (weight (continue_ k) = 0 /\ waiting_of (continue_ k) = None) as [E1 E2] by by destruct k.
  apply (set_good v ms ths t th Hinv Hrun _ _ (WFat m) (<[m := mon]> ms) _ Hp); try done.
  - intros x. by destruct k.
  - exists mon. split; [done|]. split; [done|]. rewrite Hn, E1, no_waiters by done. done.
  - rewrite (own_fat _ _ _ Hm), (hash_fat _ _ _ Hm), Ho. constructor; try done.
    + intros h E. destruct Hh; congruence.
    + intros m' E. by destruct (Hne m').
    + intros u count Hu E. right. split; [|eauto]. rewrite Ev in E. rewrite E in Hins. destruct Hins as [-> _].
      cbn in Hi. destruct Hi as [[? _]|(_ & ? & _)]; done.
  - destruct k; try done. destruct owner as [x|]; [|done]. cbn in Hi.
    destruct Hi as [[_ ?]|(Hx & _ & k' & [= -> ->] & Hk)]; done.
  - unfold abs_of. rewrite (own_fat _ _ _ Hm), (hash_fat _ _ _ Hm), Ho. by constructor.
Qed.

(** ** Suspension of the owner *)

Lemma add_moved p' d o : moved ths (threads (set_pc t p' (add_suspend d o s))) t th p'
  (fun u => if o =? u then d else 0).
Proof using Hrun.
  destruct Hrun as [Hth _]. constructor.
  - cbn. rewrite lookup_alter_eq. destruct (Z.eqb_spec o t) as [->|Hne].
    + by rewrite lookup_alter_eq, Hth.
    + rewrite lookup_alter_ne, Hth by done. cbn. by rewrite Z.add_0_r.
  - intros u Hu. cbn. rewrite lookup_alter_ne by done. destruct (Z.eqb_spec o u) as [->|Hne].
    + rewrite lookup_alter_eq. by destruct (ths !! u) as [[? ?]|].
    + rewrite lookup_alter_ne by done. destruct (ths !! u) as [[? ?]|]; [|done]. cbn. by rewrite Z.add_0_r.
Qed.

Lemma suspend_good p p' d o : pc th = p -> weight p' = weight p -> waiting_of p' = waiting_of p ->
  (forall x, suspends x p' = suspends x p + if o =? x then d else 0) ->
  pc_ok v (own_of ms v) (hash_of ms v) (blk ths) t p' ->
  good v ms ths t (go t p' (add_suspend d o s)).
Proof using All.
  intros <- Hw Hwt Hs Hpc. pose proof Hrun as [Hth _]. pose proof Hinv as [Hv Hf _].
  apply (step_good v ms ths t th p' _ v ms _ _ Hinv Hrun (add_moved p' d o)); try done.
  - rewrite Hw. by replace (total weights ths + weight (pc th) - weight (pc th)) with (total weights ths) by lia.
  - apply evolves_refl.
  - rewrite (waits_same ths t th p' Hth Hwt). apply tau_here.
Qed.

Lemma continue_ok k : plain k -> pc_ok v (own_of ms v) (hash_of ms v) (blk ths) t (continue_ k) /\
  weight (continue_ k) = 0 /\ waiting_of (continue_ k) = None /\ forall x, suspends x (continue_ k) = 0.
Proof using Type. by destruct k. Qed.

Lemma SuspendStep_good o h requested k : pc th = Suspending o h requested k ->
  good v ms ths t (SuspendStep t o h requested k c s).
Proof using All.
  intros Hp. pose proof (my_pc_ok v ms ths t th Hinv Hrun _ Hp) as (Hh & Hk & Ho).
  destruct (continue_ok k Hk) as (Hc1 & Hc2 & Hc3 & Hc4).
  unfold SuspendStep. cbn [threads]. destruct requested; cbn [negb].
  - destruct (is_suspended o s) eqn:Es; [|destruct (timed_out c)].
    + apply (stay _ _ _ Hp); try done; [|apply tau_here]. cbn. split; [done|]. split; [done|]. split; [done|].
      unfold is_suspended in Es. cbn [threads] in Es. destruct (ths !! o) as [tho|] eqn:Etho; [|done].
      exists tho. split; [done|]. by apply andb_prop in Es as [? _].
    + apply (suspend_good _ _ _ _ Hp); try done. intros x. cbn. case_match; lia.
    + done.
  - destruct (ths !! o).
    + by apply (suspend_good _ _ _ _ Hp).
    + apply (stay _ _ _ Hp); try done. apply tau_here.
Qed.

Lemma RecheckStep_good o h k : pc th = OwnerSuspended o h k -> good v ms ths t (RecheckStep t o h k s).
Proof using All.
  intros Hp. pose proof (my_pc_ok v ms ths t th Hinv Hrun _ Hp) as (Hh & Hk & Ho & Hb).
  pose proof (inv_valid _ _ _ Hinv) as Hv. unfold RecheckStep. cbn [word].
  rewrite (enc_state v Hv). case_match eqn:E.
  - apply (stay _ _ _ Hp); try done; [|apply tau_here].
    apply andb_prop in E as [E1 E2]. apply bool_decide_eq_true in E1. apply Z.eqb_eq in E2.
    destruct v as [|x count|h'|m]; try done. rewrite enc_owner in E2 by done. subst x.
    cbn. split; [right; eauto|]. split; [done|]. left. by exists count.
  - apply (stay _ _ _ Hp); try done. apply tau_here.
Qed.

Lemma Resume_good o k : pc th = Resuming o k -> good v ms ths t (go t (continue_ k) (add_suspend (-1) o s)).
Proof using All.
  intros Hp. pose proof (my_pc_ok v ms ths t th Hinv Hrun _ Hp) as (Hk & Ho).
  destruct (continue_ok k Hk) as (Hc1 & Hc2 & Hc3 & Hc4).
  apply (suspend_good _ _ _ _ Hp); try done. intros x. rewrite Hc4. cbn. case_match; lia.
Qed.
End GotWord.

(** ** Every action *)

Lemma load_ok v ms ths t : inv v ms ths -> got_ok v (own_of ms v) (hash_of ms v) t (enc v).
Proof.
  intros [Hv _ _]. exists v. split; [done|]. split; [done|]. destruct v as [|o c|h|m].
  - by intros [n ?].
  - split; [done|]. intros Ho [n Hn]. cbn in Hn. congruence.
  - split; [|done]. by intros [n ?].
  - done.
Qed.

Lemma act_good max_spins v ms ths t c : inv v ms ths ->
  good v ms ths t (act max_spins t c (mkState (enc v) ms ths)).
Proof.
  intros Hinv. unfold act. cbn [threads monitors word]. destruct (ths !! t) as [th|] eqn:Hth; [|done].
  destruct (blocked (pc th) && (0 <? suspend_count th)) eqn:Hb; [done|].
  assert (Hrun : runnable ths t th) by done.
  pose proof (load_ok v ms ths t Hinv) as Hload. pose proof (tau_here v ms ths t) as Htau.
  assert (Hstay : forall p p', pc th = p -> (forall x, suspends x p' = suspends x p) ->
    weight p' = weight p -> waiting_of p' = waiting_of p ->
    pc_ok v (own_of ms v) (hash_of ms v) (blk ths) t p' ->
    good v ms ths t (go t p' (mkState (enc v) ms ths))) by (intros; by eapply stay_good).
  destruct (pc th) as [| |n|lw n|m k| |lw|ms' ns|lw ms' ns|m prev|m prev|m prev|all|lw all| |lw|owner h k
    |mon lw k|owner h requested k|owner h k|owner k|k] eqn:Hp;
    pose proof (my_pc_ok v ms ths t th Hinv Hrun _ Hp) as Hpc; cbn [pc_ok] in Hpc.
  - destruct (call c) as [cl|]; [|case_match; [|done]]; apply (Hstay _ _ eq_refl); try done; by destruct cl.
  - by apply (Hstay _ _ eq_refl).
  - by apply (Hstay _ _ eq_refl).
  - by apply (EnterStep_good v ms ths t th Hinv Hrun).
  - destruct Hpc as (Ev & Hno & Hk). destruct (fat_monitor v ms ths Hinv m Ev) as (mon & Hm & _).
    rewrite Hm. apply (Lock_good v ms ths t th Hinv Hrun m mon Ev Hm _ k 1 Hp); by destruct k.
  - by apply (Hstay _ _ eq_refl).
  - by apply (ExitStep_good v ms ths t th Hinv Hrun).
  - by apply (Hstay _ _ eq_refl).
  - by apply (WaitStep_good v ms ths t th Hinv Hrun).
  - destruct Hpc as (Ev & Hno & Hk). by apply (Hstay _ _ eq_refl).
  - destruct Hpc as (Ev & Hno & Hk). destruct (fat_monitor v ms ths Hinv m Ev) as (mon & Hm & _).
    rewrite Hm. replace mon with (set_waiters (num_waiters_ mon - 0) (wait_set_ mon) mon) at 1
      by (destruct mon; cbn; by rewrite Z.sub_0_r).
    by apply (Lock_good v ms ths t th Hinv Hrun m mon Ev Hm _ (LockWait prev) 0 Hp).
  - destruct Hpc as (Ev & Hno & Hk). destruct (fat_monitor v ms ths Hinv m Ev) as (mon & Hm & _).
    rewrite Hm. by apply (Restore_good v ms ths t th Hinv Hrun m mon Ev Hm _ Hp).
  - by apply (Hstay _ _ eq_refl).
  - by apply (NotifyStep_good v ms ths t th Hinv Hrun).
  - by apply (Hstay _ _ eq_refl).
  - by apply (HashStep_good v ms ths t th Hinv Hrun).
  - by apply (InflateStep_good v ms ths t th Hinv Hrun).
  - by apply (InstallStep_good v ms ths t th Hinv Hrun).
  - by apply (SuspendStep_good v ms ths t th Hinv Hrun).
  - by apply (RecheckStep_good v ms ths t th Hinv Hrun).
  - by apply (Resume_good v ms ths t th Hinv Hrun).
  - apply (Hstay _ _ eq_refl); by destruct k.
Qed.

(** ** The garbage collector's actions *)

Definition gc_good (v : Word) (ms : gmap Z Monitor) (ths : gmap Z ThreadState) (r : Result) : Prop :=
  match r with
  | Blocked => True
  | Abort => False
  | Next s' e => exists v', word s' = enc v' /\ inv v' (monitors s') (threads s') /\
      abs_of v' (monitors s') (threads s') = abs_of v ms ths
  end.

Lemma gc_skip v ms ths : inv v ms ths -> gc_good v ms ths (Next (mkState (enc v) ms ths) Tau).
Proof. intros Hinv. by exists v. Qed.

(** A thread that can be deflated under has no claim on the lock word. *)
Lemma deflate_pc p v own hash b t v' own' hash' : blocked p = true -> weight p = 0 ->
  pc_ok v own hash b t p -> pc_ok v' own' hash' b t p.
Proof. by destruct p as [| | | |? []| | | | | | | | | | | | | | | | |]. Qed.

Lemma Deflate_good v ms ths : inv v ms ths -> gc_good v ms ths (Deflate (mkState (enc v) ms ths)).
Proof.
  intros Hinv. pose proof Hinv as [Hv Hf Hths]. unfold Deflate. cbn [threads word monitors].
  case_bool_decide as Hall; cbn [negb]; [|done]. rewrite (enc_state v Hv).
  destruct v as [|o c|h|m]; try by apply gc_skip.
  rewrite enc_monitor, (enc_rb _ Hv) by done. destruct Hf as (mon & Hm & (Hobj & Hh & Ho) & Hn). rewrite Hm.
  destruct (Z.ltb_spec 0 (num_waiters_ mon)); [by apply gc_skip|].
  pose proof (total_nonneg weights ths (fun x => weight_nonneg (pc x))) as Hnn. cbn in Hnn.
  assert (Hdeflated : forall v' ms', valid v' -> (forall m', v' <> WFat m') ->
    own_of ms v' = own_mon mon -> hash_of ms v' = hash_mon mon ->
    gc_good (WFat m) ms ths (Next (mkState (enc v') ms' ths) Tau)).
  { intros v' ms' Hv' Hne Hown Hhash.
    assert (Hms : own_of ms' v' = own_of ms v' /\ hash_of ms' v' = hash_of ms v')
      by (destruct v'; try done; by destruct (Hne m0)).
    destruct Hms as [Hms1 Hms2]. exists v'. split; [done|]. split; [constructor; [done| |]|].
    - destruct v' as [| | |m']; cbn in *; try lia. by destruct (Hne m').
    - intros t th Hth. destruct (Hths t th Hth) as (Ht & Hc & Hpc). split; [done|]. split; [done|].
      eapply deflate_pc; [by apply (Hall t th)| |done].
      pose proof (total_member weights ths t th (fun x => weight_nonneg (pc x)) Hth).
      pose proof (weight_nonneg (pc th)). cbn in *. lia.
    - unfold abs_of. cbn [monitors threads]. by rewrite (own_fat _ _ _ Hm), (hash_fat _ _ _ Hm), Hms1, Hms2, Hown, Hhash. }
  unfold own_mon, hash_mon in Hdeflated.
  destruct (owner_ mon) as [o|] eqn:Eo; destruct (Z.eqb_spec (hash_code_ mon) 0) as [E0|E0]; cbn [negb].
  - destruct (Z.ltb_spec kThinLockMaxCount (lock_count_ mon)); [by apply gc_skip|].
    destruct Ho as [Ho Hc]. rewrite FromThinLockId_enc by (done || lia).
    by apply (Hdeflated (WThin o (lock_count_ mon))).
  - by apply gc_skip.
  - rewrite FromDefault_enc. by apply (Hdeflated WUnlocked).
  - rewrite FromHashCode_enc by lia. apply (Hdeflated (WHash (hash_code_ mon))); try done. cbn. lia.
Qed.

Lemma Sweep_good v ms ths m : inv v ms ths -> gc_good v ms ths (Sweep m (mkState (enc v) ms ths)).
Proof.
  intros Hinv. pose proof Hinv as [Hv Hf Hths]. unfold Sweep. cbn [monitors word threads].
  destruct (ms !! m) as [mon|] eqn:Hm; [|done]. destruct (obj_ mon) eqn:Hobj; [done|].
  assert (Hsame : forall m', v = WFat m' -> delete m ms !! m' = ms !! m').
  { intros m' ->. apply lookup_delete_ne. intros ->. destruct Hf as (mon' & Hm' & (Hobj' & _) & _). congruence. }
  assert (own_of (delete m ms) v = own_of ms v /\ hash_of (delete m ms) v = hash_of ms v) as [E1 E2].
  { destruct v as [| | |m']; try done. cbn. by rewrite (Hsame m'). }
  exists v. split; [done|]. split; [constructor; [done| |]|].
  - destruct v as [| | |m']; try done. cbn. by rewrite (Hsame m').
  - intros t th Hth. unfold thread_ok. cbn [monitors threads]. rewrite E1, E2. by apply Hths.
  - unfold abs_of. cbn [monitors threads]. by rewrite E1, E2.
Qed.

(** ** Runs *)

Inductive spec_run : Spec -> list (Z * Event) -> Spec -> Prop :=
  | run_nil sp : spec_run sp [] sp
  | run_cons t e events sp sp' sp'' :
      spec_step t sp e sp' -> spec_run sp' events sp'' -> spec_run sp ((t, e) :: events) sp''.

Definition invariant (s : State) : Prop :=
  exists v, word s = enc v /\ inv v (monitors s) (threads s).

Lemma abs_inv v s : word s = enc v -> valid v -> abs s = abs_of v (monitors s) (threads s).
Proof. intros E Hv. unfold abs. by rewrite E, view_enc. Qed.

Definition aborted_ok (s : State) (aborted : option Action) : Prop :=
  match aborted with
  | None => True
  | Some a => exists t c, a = Act t c /\ exits_foreign_lock s t
  end.

Lemma run_good max_spins schedule s : invariant s ->
  let '(events, s', aborted) := run max_spins schedule s in
  invariant s' /\ spec_run (abs s) events (abs s') /\ aborted_ok s' aborted.
Proof.
  revert s. induction schedule as [|a schedule IH]; intros s Hs.
  { split; [done|]. split; [constructor|done]. }
  destruct Hs as (v & Hw & Hinv). pose proof (inv_valid _ _ _ Hinv) as Hv.
  assert (Hstep : match perform max_spins a s with
    | Blocked => True
    | Abort => aborted_ok s (Some a)
    | Next s' e => invariant s' /\
        match a with Act t _ => spec_step t (abs s) e (abs s') | _ => abs s' = abs s end
    end).
  { rewrite (abs_inv v s Hw Hv). destruct s as [w ms ths]. cbn in Hw, Hinv |- *. subst w.
    destruct a as [t c| |m]; cbn [perform].
    - pose proof (act_good max_spins v _ _ t c Hinv) as Hg. destruct (act _ _ _ _) as [| |s' e]; [done|by exists t, c|].
      destruct Hg as (v' & Hw' & Hinv' & Hspec). split; [by exists v'|].
      by rewrite (abs_inv v' s' Hw' (inv_valid _ _ _ Hinv')).
    - pose proof (Deflate_good v _ _ Hinv) as Hg. destruct (Deflate _) as [| |s' e]; try done.
      destruct Hg as (v' & Hw' & Hinv' & Hspec). split; [by exists v'|].
      by rewrite (abs_inv v' s' Hw' (inv_valid _ _ _ Hinv')).
    - pose proof (Sweep_good v _ _ m Hinv) as Hg. destruct (Sweep _ _) as [| |s' e]; try done.
      destruct Hg as (v' & Hw' & Hinv' & Hspec). split; [by exists v'|].
      by rewrite (abs_inv v' s' Hw' (inv_valid _ _ _ Hinv')). }
  cbn [run]. destruct (perform max_spins a s) as [| |s1 e].
  - apply IH. by exists v.
  - split; [by exists v|]. split; [constructor|done].
  - destruct Hstep as [Hinv1 Hspec]. specialize (IH s1 Hinv1).
    destruct (run max_spins schedule s1) as [[events s'] aborted]. destruct IH as (Hinv' & Hrun & Hab).
    split; [done|]. split; [|done]. destruct a as [t c| |m]; [by econstructor| |]; by rewrite Hspec in Hrun.
Qed.

Lemma initial_inv tids : Forall is_tid tids -> invariant (initial tids).
Proof.
  intros Hids. exists WUnlocked. split; [done|].
  assert (Hall : forall t th, threads (initial tids) !! t = Some th -> is_tid t /\ th = mkThreadState Running 0).
  { intros t th Hth. cbn in Hth. apply elem_of_list_to_map_2, list_elem_of_fmap in Hth as (x & [= -> ->] & Hx).
    split; [|done]. by eapply Forall_forall in Hids. }
  assert (Htot : forall f : Pc -> Z, f Running = 0 -> total (fun th => f (pc th)) (threads (initial tids)) = 0).
  { intros f Hf. unfold total. assert (forall m : gmap Z ThreadState, (forall t th, m !! t = Some th -> f (pc th) = 0) ->
      map_fold (fun _ x acc => f (pc x) + acc) 0 m = 0) as Hz.
    { apply (map_fold_weak_ind (fun acc (m : gmap Z ThreadState) =>
        (forall t th, m !! t = Some th -> f (pc th) = 0) -> acc = 0)); [done|].
      intros i x m r Hi IH Hm. rewrite (Hm i x) by apply lookup_insert_eq. rewrite IH; [done|].
      intros t th Ht. apply (Hm t). rewrite lookup_insert_ne; [done|]. congruence. }
    apply Hz. intros t th Hth. by destruct (Hall t th Hth) as [_ ->]. }
  constructor; [done|by apply Htot|].
  intros t th Hth. destruct (Hall t th Hth) as [Ht ->]. split; [done|]. split; [|done].
  symmetry. by apply (Htot (suspends t)).
Qed.

Lemma initial_abs tids : abs (initial tids) = mkSpec None ∅ None.
Proof.
  unfold abs, abs_of. f_equal. apply map_empty. intros t. rewrite lookup_omap.
  destruct (threads (initial tids) !! t) as [th|] eqn:E; [|done]. cbn in E.
  by apply elem_of_list_to_map_2, list_elem_of_fmap in E as (x & [= -> ->] & Hx).
Qed.

(** ** Properties *)


Definition choose (cl : option Call) : Choice := mkChoice cl false 3 42 false.
Definition enter t := Act t (choose (Some CallEnter)).
Definition go_on t := Act t (choose None).

(** Thread 1 takes the lock, thread 2 wants it, suspends thread 1 at its suspend check, inflates
    the lock and blocks; thread 1 waits on the object, thread 2 gets the lock, notifies and
    leaves; thread 1 comes back. *)
Definition sample_schedule : list Action :=
  [enter 1; go_on 1; go_on 1; enter 2; go_on 2; go_on 2; go_on 2; go_on 1; go_on 2; go_on 2; go_on 2;
   go_on 2; go_on 2; go_on 2; go_on 2; go_on 1; Act 1 (choose (Some (CallWait 0 0))); go_on 1; go_on 1;
   go_on 2; Act 2 (choose (Some (CallNotify false))); go_on 2; go_on 2;
   Act 2 (choose (Some CallExit)); go_on 2; go_on 2; go_on 1; go_on 1; go_on 1;
   Act 1 (choose (Some CallHash)); go_on 1; go_on 1].

Definition visible (events : list (Z * Event)) : list (Z * Event) :=
  List.filter (fun te => match te.2 with Tau => false | _ => true end) events.


Lemma spec_step_hash t sp e sp' h : spec_step t sp e sp' -> s_hash sp = Some h -> s_hash sp' = Some h.
Proof. inversion 1; subst; cbn; intros E; try done; destruct_or!; congruence. Qed.

Lemma spec_run_hash sp events sp' h : spec_run sp events sp' -> s_hash sp = Some h -> s_hash sp' = Some h.
Proof. induction 1 as [|t e events sp sp1 sp2 Hstep Hrun IH]; [done|]. intros Hh. eapply IH, spec_step_hash; eauto. Qed.

Lemma hash_event sp events sp' t x : spec_run sp events sp' -> (t, Hash x) ∈ events -> s_hash sp' = Some x.
Proof.
  induction 1 as [|u e events sp sp1 sp2 Hstep Hrun IH]; [by intros ?%not_elem_of_nil|].
  intros [[= <- <-]|Hin]%elem_of_cons; [|auto].
  eapply spec_run_hash; [exact Hrun|]. by inversion Hstep.
Qed.

(** C27: the identity hash of an object never changes: all calls of [IdentityHashCode] in a run
    return the same value, whether it was in the lock word, in a monitor created for it, or in
    the word that a deflation left behind, and whatever seeds the calls have read. *)
Theorem identity_hash_stable (max_spins : Z) (tids : list Z) (schedule : list Action)
  (events : list (Z * Event)) (s : State) (aborted : option Action) (t t' h h' : Z)
  (Hids : Forall is_tid tids)
  (Hrun : run max_spins schedule (initial tids) = (events, s, aborted))
  (Hh : (t, Hash h) ∈ events) (Hh' : (t', Hash h') ∈ events) : h = h'.
Proof.
  pose proof (run_good max_spins schedule (initial tids) (initial_inv tids Hids)) as Hgood.
  rewrite Hrun in Hgood. destruct Hgood as (_ & Hs & _).
  pose proof (hash_event _ _ _ _ _ Hs Hh). pose proof (hash_event _ _ _ _ _ Hs Hh'). congruence.
Qed.

(** One thread hashes the object and locks it, so that its monitor keeps the hash; it unlocks it,
    the collector deflates the lock, and the other thread asks for the hash. *)
Definition hash_schedule : list Action :=
  let hash t seed := Act t (mkChoice (Some CallHash) false 3 seed false) in
  let go_on' t seed := Act t (mkChoice None false 3 seed false) in
  [hash 1 42; go_on' 1 42; go_on' 1 42; enter 1; go_on 1; go_on 1; go_on 1; go_on 1; go_on 1; go_on 1;
   hash 1 7; go_on' 1 7; go_on' 1 7;
   Act 1 (choose (Some CallExit)); go_on 1; go_on 1; GC; Free 3; hash 2 9; go_on' 2 9; go_on' 2 9].

Lemma identity_hash_stable_witness : 42 = 42 /\
  visible (run 0 hash_schedule (initial [1; 2])).1.1 =
    [(1, Hash 42); (1, Acquire); (1, Hash 42); (1, Release); (2, Hash 42)].
Proof.
  split; [|vm_compute; reflexivity].
  destruct (run 0 hash_schedule (initial [1; 2])) as [[events s] aborted] eqn:E.
  apply (identity_hash_stable 0 [1; 2] hash_schedule events s aborted 1 2 42 42).
  - repeat constructor; vm_compute; congruence.
  - exact E.
  - apply (f_equal (fun r => r.1.1)) in E. vm_compute in E. rewrite <- E.
    repeat (first [left; reflexivity | right]).
  - apply (f_equal (fun r => r.1.1)) in E. vm_compute in E. rewrite <- E.
    repeat (first [left; reflexivity | right]).
Defined.

(** A thread alone gets a free lock. *)
Definition free_word (v : Word) (ms : gmap Z Monitor) : Prop :=
  v = WUnlocked \/ exists m mon, v = WFat m /\ ms !! m = Some mon /\ owner_ mon = None /\ lock_count_ mon = 0.

Section Alone.
Context (max_spins t : Z) (c : Choice) (Ht : is_tid t) (Hc : cas_fails c = false).

Lemma run_act s e s' k : act max_spins t c s = Next s' e ->
  run max_spins (repeat (Act t c) (S k)) s =
    let '(events, final, aborted) := run max_spins (repeat (Act t c) k) s' in
    ((t, e) :: events, final, aborted).
Proof. intros E. cbn [repeat run perform]. by rewrite E. Qed.

Lemma run_app k1 k2 s events s' : run max_spins (repeat (Act t c) k1) s = (events, s', None) ->
  run max_spins (repeat (Act t c) (k1 + k2)) s =
    let '(events', final, aborted) := run max_spins (repeat (Act t c) k2) s' in
    (events ++ events', final, aborted).
Proof.
  revert s events. induction k1 as [|k1 IH]; intros s events; cbn [Nat.add repeat run perform].
  - intros [= <- <-]. cbn. by destruct (run _ _ _) as [[??]?].
  - destruct (act max_spins t c s) as [| |s1 e]; [|done|].
    + intros E. by apply IH.
    + destruct (run _ (repeat _ k1) s1) as [[ev f] ab] eqn:E.
      intros [= <- <- ->]. rewrite (IH s1 ev E). by destruct (run _ _ f) as [[??]?].
Qed.

Lemma at_pc s p p' k : threads s !! t = Some (mkThreadState p k) ->
  threads (set_pc t p' s) !! t = Some (mkThreadState p' k).
Proof. intros Hth. cbn. by rewrite lookup_alter_eq, Hth. Qed.

Lemma enter_free v ms ths n k : valid v -> free_word v ms -> ths !! t = Some (mkThreadState (EnterLoad n) k) ->
  exists s', run max_spins (repeat (Act t c) 2) (mkState (enc v) ms ths) = ([(t, Tau); (t, Acquire)], s', None) /\
    s_owner (abs s') = Some (t, 1).
Proof using All.
  intros Hv Hfree Hth. set (s := mkState (enc v) ms ths).
  assert (E1 : act max_spins t c s = go t (EnterGot (enc v) n) s) by (unfold act; cbn [threads s]; by rewrite Hth).
  rewrite (run_act _ _ _ _ E1). set (s1 := set_pc t _ s).
  assert (Hth1 : threads s1 !! t = Some (mkThreadState (EnterGot (enc v) n) k)) by (by eapply (at_pc s)).
  assert (E2 : exists s2, act max_spins t c s1 = Next s2 Acquire /\ s_owner (abs s2) = Some (t, 1)).
  { unfold act. rewrite Hth1. cbn [blocked pc andb]. unfold EnterStep. rewrite (enc_state v Hv).
    destruct Hfree as [->|(m & mon & -> & Hm & Ho & Hcnt)].
    - rewrite (enc_rb _ Hv), FromThinLockId_enc by done. unfold cas, s1. cbn [word set_pc s].
      rewrite Z.eqb_refl, Hc. cbn [andb negb]. eexists. split; [reflexivity|].
      assert (valid (WThin t 0)) by (split; [done|by vm_compute]). by rewrite (abs_inv (WThin t 0)).
    - rewrite enc_monitor by done. unfold s1. cbn [monitors set_pc s]. rewrite Hm. unfold Lock. rewrite Ho, Hcnt.
      cbn [Z.eqb after_lock]. eexists. split; [reflexivity|].
      rewrite (abs_inv (WFat m)) by done. cbn. by rewrite lookup_insert_eq. }
  destruct E2 as (s2 & E2 & Hown). rewrite (run_act _ _ _ _ E2). cbn. by exists s2.
Qed.

Lemma enter_hash h ms ths n k : valid (WHash h) -> ths !! t = Some (mkThreadState (EnterLoad n) k) ->
  ms !! fresh_id c = None -> 0 <= fresh_id c <= kMaxMonitorId ->
  exists ms' ths', run max_spins (repeat (Act t c) 4) (mkState (enc (WHash h)) ms ths) =
      ([(t, Tau); (t, Tau); (t, Tau); (t, Tau)], mkState (enc (WFat (fresh_id c))) ms' ths', None) /\
    free_word (WFat (fresh_id c)) ms' /\ ths' !! t = Some (mkThreadState (EnterLoad n) k).
Proof using All.
  intros Hv Hth Hfresh Hid. set (s := mkState (enc (WHash h)) ms ths).
  assert (E1 : act max_spins t c s = go t (EnterGot (enc (WHash h)) n) s)
    by (unfold act; cbn [threads s]; by rewrite Hth).
  rewrite (run_act _ _ _ _ E1). set (s1 := set_pc t _ s).
  assert (Hth1 : threads s1 !! t = Some (mkThreadState (EnterGot (enc (WHash h)) n) k)) by (by eapply (at_pc s)).
  assert (E2 : act max_spins t c s1 = go t (Inflating None h (ToEnter n)) s1).
  { unfold act. rewrite Hth1. cbn [blocked pc andb]. unfold EnterStep.
    by rewrite (enc_state _ Hv), enc_hash. }
  rewrite (run_act _ _ _ _ E2). set (s2 := set_pc t _ s1).
  pose proof (at_pc s1 _ (Inflating None h (ToEnter n)) _ Hth1) as Hth2. fold s2 in Hth2.
  set (mon := mkMonitor 0 None 0 true [] h).
  assert (E3 : act max_spins t c s2 = go t (Installing mon (enc (WHash h)) (ToEnter n)) s2).
  { unfold act. rewrite Hth2. cbn [blocked pc andb]. unfold InflateStep.
    assert (Install None h (word s2) = Some (Some mon)) as ->; [|done].
    unfold Install. cbn [word s2 s1 set_pc s]. by rewrite (enc_state _ Hv), enc_hash, Z.eqb_refl. }
  rewrite (run_act _ _ _ _ E3). set (s3 := set_pc t _ s2).
  pose proof (at_pc s2 _ (Installing mon (enc (WHash h)) (ToEnter n)) _ Hth2) as Hth3. fold s3 in Hth3.
  set (s4 := set_monitor (fresh_id c) mon (set_word (enc (WFat (fresh_id c))) s3)).
  assert (E4 : act max_spins t c s3 = go t (EnterLoad n) s4).
  { unfold act. rewrite Hth3. cbn [blocked pc andb]. unfold InstallStep.
    assert (monitors s3 !! fresh_id c = None) as -> by done.
    rewrite (proj2 (Z.leb_le 0 _)), (proj2 (Z.leb_le _ kMaxMonitorId)) by lia. cbn [andb negb].
    rewrite (enc_rb _ Hv), FromMonitor_enc by done. unfold cas.
    assert (word s3 = enc (WHash h)) as -> by done. by rewrite Z.eqb_refl, Hc. }
  rewrite (run_act _ _ _ _ E4). cbn [repeat run].
  pose proof (at_pc s4 _ (EnterLoad n) _ Hth3) as Hth4.
  eexists _, _. split; [reflexivity|]. split; [|exact Hth4].
  right. exists (fresh_id c), mon. split_all; try done. apply lookup_insert_eq.
Qed.
End Alone.


(** Thread 1 has hashed the object; thread 2 enters. *)
Definition hashed_schedule : list Action :=
  [Act 1 (mkChoice (Some CallHash) false 3 42 false); go_on 1; go_on 1; enter 2].


(** C37: [MonitorExit] by a thread that does not own the lock does not throw
    [IllegalMonitorStateException] when the lock is thin and its owner runs: looking up the owner
    for the message, [FindThreadByThreadId] checks that it is suspended, and the process
    aborts. *)
Theorem foreign_exit_aborts (max_spins t o count k : Z) (c c' : Choice) (s : State)
  (Ho : is_tid o) (Hcount : 0 <= count <= kThinLockMaxCount)
  (Hw : FromThinLockId o count 0 = Some (word s)) (Hot : o <> t)
  (Hth : threads s !! t = Some (mkThreadState ExitLoad k))
  (Hother : is_Some (threads s !! o)) (Hrunning : is_suspended o s = false) :
  run max_spins [Act t c; Act t c'] s =
    ([(t, Tau)], set_pc t (ExitGot (word s)) s, Some (Act t c')).
Proof.
  rewrite FromThinLockId_enc in Hw by done. injection Hw as Hw. change (enc (WThin o count) = word s) in Hw.
  assert (Hv : valid (WThin o count)) by done.
  assert (E1 : act max_spins t c s = go t (ExitGot (word s)) s) by (unfold act; by rewrite Hth).
  cbn [run perform]. rewrite E1. unfold go. set (s1 := set_pc t _ s).
  assert (E2 : act max_spins t c' s1 = Abort); [|by rewrite E2].
  pose proof (at_pc t s _ (ExitGot (word s)) k Hth) as Hth1. fold s1 in Hth1.
  unfold act. rewrite Hth1. cbn [pc blocked andb].
  unfold ExitStep. rewrite <- Hw, (enc_state _ Hv), enc_owner by done.
  rewrite (proj2 (Z.eqb_neq o t) Hot). cbn [negb]. unfold FindThreadByThreadId.
  assert (threads s1 !! o = threads s !! o) as Hsame
    by (unfold s1; cbn; by rewrite lookup_alter_ne).
  unfold is_suspended in *. rewrite Hsame. destruct Hother as [tho Htho]. rewrite Htho in *.
  rewrite (proj2 (Z.eqb_neq o t) Hot). cbn [orb]. by rewrite Hrunning.
Qed.

Lemma foreign_exit_aborts_witness : exists s, word s = 1 /\
  run 0 [go_on 2; go_on 2] s = ([(2, Tau)], set_pc 2 (ExitGot 1) s, Some (go_on 2)).
Proof.
  exists (run 0 [enter 1; go_on 1; go_on 1; Act 2 (choose (Some CallExit))] (initial [1; 2])).1.2.
  split; [vm_compute; reflexivity|].
  apply (foreign_exit_aborts 0 2 1 0 0 (choose None) (choose None)); vm_compute; try reflexivity.
  - split; [reflexivity|discriminate].
  - split; discriminate.
  - discriminate.
  - eexists. reflexivity.
Defined.
