(* ===== verification/Leb128.v ===== *)
(** LEB128 integers: [art/runtime/leb128.h] and the copy in [art/runtime/gerat/util/leb128.cc].

    A [const uint8_t**] cursor is the list of the bytes it points at: a decoder returns
    the value and the remaining bytes, and [None] when it would read past the end.  An
    encoder returns the bytes it stores through its [uint8_t*] (or pushes on its vector);
    the pointer it returns is the start plus their number. *)
From S2P Require Import Prelude.
Local Open Scope Z_scope.

(** ** Definitions *)

(** [DecodeUnsignedLeb128]: [int] arithmetic, converted to [uint32_t] at the end. *)
Definition DecodeUnsignedLeb128 (data : list Z) : option (Z * list Z) :=
  '(result, ptr) ← read_u8 data;
  if 0x7f <? result then
    '(cur, ptr) ← read_u8 ptr;
    let result := Z.lor (Z.land result 0x7f) (Z.land cur 0x7f ≪ 7) in
    if 0x7f <? cur then
      '(cur, ptr) ← read_u8 ptr;
      let result := Z.lor result (Z.land cur 0x7f ≪ 14) in
      if 0x7f <? cur then
        '(cur, ptr) ← read_u8 ptr;
        let result := Z.lor result (Z.land cur 0x7f ≪ 21) in
        if 0x7f <? cur then
          '(cur, ptr) ← read_u8 ptr;
          let result := Z.lor result (s32 (cur ≪ 28)) in
          Some (u32 result, ptr)
        else Some (u32 result, ptr)
      else Some (u32 result, ptr)
    else Some (u32 result, ptr)
  else Some (u32 result, ptr).

(** [DecodeUnsignedLeb128P1]: the [uint32_t] value minus one, returned as [int32_t]. *)
Definition DecodeUnsignedLeb128P1 (data : list Z) : option (Z * list Z) :=
  '(v, ptr) ← DecodeUnsignedLeb128 data;
  Some (s32 (u32 (v - 1)), ptr).

(** [(result << k) >> k] on an [int32_t]: sign extension from bit [31 - k]. *)
Definition sign_extend_shift (k result : Z) : Z := s32 (result ≪ k) ≫ k.

Definition DecodeSignedLeb128 (data : list Z) : option (Z * list Z) :=
  '(result, ptr) ← read_u8 data;
  if result <=? 0x7f then Some (sign_extend_shift 25 result, ptr)
  else
    '(cur, ptr) ← read_u8 ptr;
    let result := Z.lor (Z.land result 0x7f) (Z.land cur 0x7f ≪ 7) in
    if cur <=? 0x7f then Some (sign_extend_shift 18 result, ptr)
    else
      '(cur, ptr) ← read_u8 ptr;
      let result := Z.lor result (Z.land cur 0x7f ≪ 14) in
      if cur <=? 0x7f then Some (sign_extend_shift 11 result, ptr)
      else
        '(cur, ptr) ← read_u8 ptr;
        let result := Z.lor result (Z.land cur 0x7f ≪ 21) in
        if cur <=? 0x7f then Some (sign_extend_shift 4 result, ptr)
        else
          '(cur, ptr) ← read_u8 ptr;
          let result := Z.lor result (s32 (cur ≪ 28)) in
          Some (result, ptr).

(** [CLZ] on a nonzero [uint32_t]. *)
Definition CLZ32 (x : Z) : Z := 31 - Z.log2 x.

Definition UnsignedLeb128Size (data : Z) : Z :=
  let x := u32 (6 + 32 - CLZ32 (Z.lor data 1)) in
  u32 (x * 37) ≫ 8.

(** [data ^ (data >> 31)] is computed on [int32_t]; [CLZ] takes its [uint32_t] value. *)
Definition SignedLeb128Size (data : Z) : Z :=
  let data := Z.lxor data (data ≫ 31) in
  let x := u32 (1 + 6 + 32 - CLZ32 (Z.lor data 1)) in
  u32 (x * 37) ≫ 8.

(** The [while (value != 0)] loop with its final store.  [fuel] bounds the iterations; at
    most four are made for a [uint32_t] (see [unsigned_loop_fuel]). *)
Fixpoint EncodeUnsignedLoop (fuel : nat) (out value : Z) : list Z :=
  if value =? 0 then [out]
  else match fuel with
       | O => []
       | S fuel => Z.lor out 0x80 :: EncodeUnsignedLoop fuel (u8 (Z.land value 0x7f)) (value ≫ 7)
       end.

Definition leb_fuel : nat := 5.

Definition EncodeUnsignedLeb128 (value : Z) : list Z :=
  EncodeUnsignedLoop leb_fuel (u8 (Z.land value 0x7f)) (value ≫ 7).

(** The loop of [UpdateUnsignedLeb128]: [end] runs up to [old_end]; [n] is their
    distance. *)
Fixpoint PadLoop (n : nat) (end_ : nat) (dest : list Z) : list Z :=
  match n with
  | O => dest
  | S n =>
      let dest := <[(end_ - 1)%nat := Z.lor (nth (end_ - 1) dest 0) 0x80]> dest in
      PadLoop n (S end_) (<[end_ := 0]> dest)
  end.

(** [dest] is the buffer from the encoded value on, overwritten in place. *)
Definition UpdateUnsignedLeb128 (dest : list Z) (value : Z) : option (list Z) :=
  '(old_value, old_end) ← DecodeUnsignedLeb128 dest;
  let old_len := (length dest - length old_end)%nat in
  let enc := EncodeUnsignedLeb128 value in
  dest' ← store 0 enc dest;
  Some (PadLoop (old_len - length enc) (length enc) dest').

Fixpoint EncodeSignedLoop (fuel : nat) (out value extra_bits : Z) : list Z :=
  if extra_bits =? 0 then [out]
  else match fuel with
       | O => []
       | S fuel =>
           let value := value ≫ 7 in
           Z.lor out 0x80 ::
             EncodeSignedLoop fuel (u8 (Z.land value 0x7f)) value (extra_bits ≫ 7)
       end.

Definition EncodeSignedLeb128 (value : Z) : list Z :=
  let extra_bits := u32 (Z.lxor value (value ≫ 31)) ≫ 6 in
  EncodeSignedLoop leb_fuel (u8 (Z.land value 0x7f)) value extra_bits.

(** [Leb128Encoder]: pushes on the vector it was given. *)
Definition PushBackUnsigned (data : list Z) (value : Z) : list Z :=
  data ++ EncodeUnsignedLeb128 value.

Definition InsertBackUnsigned (data : list Z) (values : list Z) : list Z :=
  foldl PushBackUnsigned data values.

Definition PushBackSigned (data : list Z) (value : Z) : list Z :=
  data ++ EncodeSignedLeb128 value.

Definition InsertBackSigned (data : list Z) (values : list Z) : list Z :=
  foldl PushBackSigned data values.

(** [gerat::EncodeUnsignedLeb128], the unpacker's own encoder. *)
Module Gerat.
Fixpoint EncodeLoop (fuel : nat) (out value : Z) : list Z :=
  match fuel with
  | O => if value =? 0 then [out] else []
  | S fuel =>
      if value =? 0 then [out]
      else Z.lor out 0x80 :: EncodeLoop fuel (u8 (Z.land value 0x7f)) (value ≫ 7)
  end.

Definition EncodeUnsignedLeb128 (value : Z) : list Z :=
  EncodeLoop leb_fuel (u8 (Z.land value 0x7f)) (value ≫ 7).
End Gerat.

(** Decoding [n] values one after the other, the way the readers of a stream do. *)
Fixpoint DecodeUnsignedLeb128s (n : nat) (data : list Z) : option (list Z * list Z) :=
  match n with
  | O => Some ([], data)
  | S n =>
      '(v, data) ← DecodeUnsignedLeb128 data;
      '(vs, data) ← DecodeUnsignedLeb128s n data;
      Some (v :: vs, data)
  end.

Arguments EncodeUnsignedLeb128 : simpl never.
Arguments DecodeUnsignedLeb128 : simpl never.
Arguments EncodeSignedLeb128 : simpl never.
Arguments DecodeSignedLeb128 : simpl never.

(** ** Lemmas *)

(** Groups of seven bits: the reference encoding, by the number of bytes. *)
Definition digit (k v : Z) : Z := (v / 128 ^ k) mod 128.

Fixpoint digits (n : nat) (k v : Z) : list Z :=
  match n with
  | O => [digit k v]
  | S n => (digit k v + 128) :: digits n (k + 1) v
  end.

(** How many continuation bytes [v] needs. *)
Definition groups (v : Z) : nat :=
  if v <? 128 then 0 else if v <? 128 ^ 2 then 1 else if v <? 128 ^ 3 then 2
  else if v <? 128 ^ 4 then 3 else 4.

Lemma shiftr_7 v : v ≫ 7 = v / 128.
Proof. by rewrite Z.shiftr_div_pow2. Qed.

Lemma shiftr_groups k v : 0 <= k -> (v / 128 ^ k) ≫ 7 = v / 128 ^ (k + 1).
Proof.
  intros. rewrite shiftr_7, Z.pow_add_r, Z.div_div by lia. done.
Qed.

Lemma u8_land_127 x : u8 (Z.land x 0x7f) = x mod 128.
Proof. rewrite land_127. apply u_small. word_lia. Qed.

Lemma lor_digit x : Z.lor (x mod 128) 0x80 = x mod 128 + 128.
Proof. apply lor_128. div_lia. Qed.

(** One turn of the loop pushes one group with its continuation bit. *)
Lemma loop_digits n fuel k v :
  0 <= k -> (n <= fuel)%nat ->
  (forall j, k <= j < k + Z.of_nat n -> v / 128 ^ (j + 1) <> 0) ->
  v / 128 ^ (k + Z.of_nat n + 1) = 0 ->
  EncodeUnsignedLoop fuel (digit k v) (v / 128 ^ (k + 1)) = digits n k v.
Proof.
  revert fuel k. induction n as [|n IH]; intros fuel k Hk Hf Hnz Hz.
  - rewrite Z.add_0_r in Hz. rewrite Hz. by destruct fuel.
  - destruct fuel as [|fuel]; [lia|]. simpl.
    destruct (Z.eqb_spec (v / 128 ^ (k + 1)) 0) as [E|_].
    { exfalso. apply (Hnz k); lia. }
    rewrite u8_land_127, shiftr_groups by lia. unfold digit at 1.
    rewrite lor_digit. f_equal. apply IH; try lia.
    + intros j Hj. apply Hnz. lia.
    + rewrite <- Hz. do 2 f_equal. lia.
Qed.

Lemma digit_range k v : 0 <= digit k v < 128.
Proof. apply Z.mod_pos_bound. lia. Qed.

Lemma digit_0 v : digit 0 v = v mod 128.
Proof. unfold digit. by rewrite Z.pow_0_r, Z.div_1_r. Qed.

Lemma groups_spec v :
  is_u 32 v ->
  (groups v <= 4)%nat /\ v < 128 ^ (Z.of_nat (groups v) + 1) /\
  (groups v <> 0%nat -> 128 ^ Z.of_nat (groups v) <= v).
Proof.
  unfold groups, is_u. intros Hv. reduce_pow.
  repeat case_Zcmp; simpl Z.of_nat; simpl Z.add; split_all; try lia; intros; try done; lia.
Qed.

Lemma encode_loop_digits fuel v :
  is_u 32 v -> (4 <= fuel)%nat ->
  EncodeUnsignedLoop fuel (u8 (Z.land v 0x7f)) (v ≫ 7) = digits (groups v) 0 v.
Proof.
  intros Hv Hf. destruct (groups_spec v Hv) as (Hg & Hlt & Hge).
  rewrite u8_land_127, <- digit_0, shiftr_7.
  change (v / 128) with (v / 128 ^ (0 + 1)).
  apply loop_digits; [lia..| |].
  - intros j Hj. assert (128 ^ (j + 1) <= v).
    { transitivity (128 ^ Z.of_nat (groups v)); [apply Z.pow_le_mono_r; lia|apply Hge; lia]. }
    assert (0 < 128 ^ (j + 1)) by (apply Z.pow_pos_nonneg; lia).
    pose proof (Z.div_str_pos v (128 ^ (j + 1))). lia.
  - rewrite Z.add_0_l. apply Z.div_small. unfold is_u in Hv. lia.
Qed.

Lemma encode_digits v :
  is_u 32 v -> EncodeUnsignedLeb128 v = digits (groups v) 0 v.
Proof. intros. apply encode_loop_digits; [done|unfold leb_fuel; lia]. Qed.

(** More fuel changes nothing: the loop terminates by itself on every [uint32_t]. *)
Lemma unsigned_loop_fuel fuel v :
  is_u 32 v -> (4 <= fuel)%nat ->
  EncodeUnsignedLoop fuel (u8 (Z.land v 0x7f)) (v ≫ 7) = EncodeUnsignedLeb128 v.
Proof. intros. rewrite encode_digits by done. by apply encode_loop_digits. Qed.

Lemma length_digits n k v : length (digits n k v) = S n.
Proof. revert k. induction n; intros; simpl; auto. Qed.

Lemma digits_bytes n k v : Forall is_byte (digits n k v).
Proof.
  revert k. induction n as [|n IH]; intros k; simpl; repeat constructor; try apply IH;
    unfold is_byte; pose proof (digit_range k v); lia.
Qed.

Lemma land_cont x : 0 <= x < 128 -> Z.land (x + 128) 0x7f = x.
Proof. intros. rewrite land_127. div_lia. Qed.

Lemma land_last x : 0 <= x < 128 -> Z.land x 0x7f = x.
Proof. intros. rewrite land_127. div_lia. Qed.

Lemma cont_bit x : 0 <= x -> (0x7f <? x + 128) = true.
Proof. intros. apply Z.ltb_lt. lia. Qed.

Lemma last_bit x : x < 128 -> (0x7f <? x) = false.
Proof. intros. apply Z.ltb_ge. lia. Qed.

(** Joining the groups: the [|] of shifted groups is a sum. *)
Lemma join2 a b : 0 <= a < 128 -> Z.lor a (b ≪ 7) = a + b * 128.
Proof. intros. by apply (lor_low_shiftl a b 7). Qed.

Lemma join3 a c : 0 <= a < 128 ^ 2 -> Z.lor a (c ≪ 14) = a + c * 128 ^ 2.
Proof. intros. by apply (lor_low_shiftl a c 14). Qed.

Lemma join4 a d : 0 <= a < 128 ^ 3 -> Z.lor a (d ≪ 21) = a + d * 128 ^ 3.
Proof. intros. by apply (lor_low_shiftl a d 21). Qed.

Lemma join5 a e : 0 <= a < 128 ^ 4 -> Z.lor a (s32 (e ≪ 28)) = s32 (a + e * 128 ^ 4).
Proof.
  intros Ha. rewrite Z.shiftl_mul_pow2 by lia.
  assert (s32 (e * 2 ^ 28) = s 4 e * 2 ^ 28) as -> by (unfold s; reduce_pow; div_lia).
  rewrite (lor_low_mul a (s 4 e) 28) by (reduce_pow; lia).
  unfold s; reduce_pow; div_lia.
Qed.

Create Rewrite HintDb leb.
#[export] Hint Rewrite land_cont land_last cont_bit last_bit join2 join3 join4 join5
  using (reduce_pow; lia) : leb.

Lemma digit_split k v : 0 <= k -> v / 128 ^ k = digit k v + 128 * (v / 128 ^ (k + 1)).
Proof.
  intros Hk. unfold digit. rewrite Z.pow_add_r, <- Z.div_div by lia.
  change (128 ^ 1) with 128. div_lia.
Qed.

(** Evaluate the closed group indices that unfolding [digits] leaves. *)
Ltac simpl_index :=
  repeat match goal with
  | |- context [digit (?a + ?b) _] =>
      closed_Z a; closed_Z b;
      let c := eval vm_compute in (a + b) in change (a + b) with c
  end.

Ltac join_digits v :=
  pose proof (digit_split 0 v ltac:(lia)); pose proof (digit_split 1 v ltac:(lia));
  pose proof (digit_split 2 v ltac:(lia)); pose proof (digit_split 3 v ltac:(lia));
  pose proof (digit_range 0 v); pose proof (digit_range 1 v);
  pose proof (digit_range 2 v); pose proof (digit_range 3 v); pose proof (digit_range 4 v);
  rewrite ?Z.pow_0_r, ?Z.div_1_r in *.

(** The decoder accepts any number of groups that holds the value, not only the shortest. *)
Lemma decode_digits n v rest :
  (n <= 4)%nat -> is_u 32 v -> v < 128 ^ (Z.of_nat n + 1) ->
  DecodeUnsignedLeb128 (digits n 0 v ++ rest) = Some (v, rest).
Proof.
  intros Hn Hv Hlt. join_digits v.
  assert (Hz : v / 128 ^ (Z.of_nat n + 1) = 0) by (apply Z.div_small; unfold is_u in Hv; lia).
  assert (Hd4 : digit 4 v = v / 128 ^ 4)
    by (unfold digit; apply Z.mod_small; unfold is_u in Hv; reduce_pow; div_lia).
  do 5 (destruct n as [|n]; [
    unfold DecodeUnsignedLeb128; simpl; simpl_index; autorewrite with leb; do 2 f_equal;
    rewrite ?u_s by lia; rewrite u_small; unfold is_u in *; reduce_pow; lia
  |]). lia.
Qed.

(** *** Sizes *)

Lemma length_encode v : is_u 32 v -> length (EncodeUnsignedLeb128 v) = S (groups v).
Proof. intros. by rewrite encode_digits, length_digits. Qed.

Lemma encode_bytes v : is_u 32 v -> Forall is_byte (EncodeUnsignedLeb128 v).
Proof. intros. rewrite encode_digits by done. apply digits_bytes. Qed.

(** [log2 (x | 1)] lies in the seven-bit band of [x]. *)
Lemma log2_band v lo hi :
  0 <= lo -> 0 < hi -> 2 ^ lo <= v \/ lo = 0 -> 0 <= v < 2 ^ hi ->
  lo <= Z.log2 (Z.lor v 1) < hi.
Proof.
  intros Hlo Hhi Hge Hlt. rewrite lor_1.
  pose proof (pow2_half hi Hhi).
  assert (0 < 2 * (v / 2) + 1 < 2 ^ hi /\ (v <= 2 * (v / 2) + 1)) as [H1 H2] by div_lia.
  split; [|apply Z.log2_lt_pow2; lia].
  destruct Hge as [Hge| ->]; [apply Z.log2_le_pow2; lia|apply Z.log2_nonneg].
Qed.

(** The division by seven through [* 37 >> 8] is exact on the band. *)
Lemma size_band l n :
  7 * Z.of_nat n <= l < 7 * Z.of_nat (S n) -> (n <= 4)%nat ->
  u32 (u32 (6 + 32 - (31 - l)) * 37) ≫ 8 = Z.of_nat (S n).
Proof.
  intros Hl Hn. rewrite Z.shiftr_div_pow2 by lia.
  rewrite (u_small 32 (_ - _)), u_small by (unfold is_u; reduce_pow; lia).
  reduce_pow. div_lia.
Qed.

Lemma UnsignedLeb128Size_groups v :
  is_u 32 v -> UnsignedLeb128Size v = Z.of_nat (S (groups v)).
Proof.
  intros Hv. destruct (groups_spec v Hv) as (Hg & Hlt & Hge).
  unfold UnsignedLeb128Size, CLZ32. apply size_band; [|done].
  unfold is_u in Hv. apply log2_band; try lia.
  - destruct (groups v) as [|g] eqn:E; [by right|left].
    specialize (Hge ltac:(lia)).
    by replace (2 ^ (7 * Z.of_nat (S g))) with (128 ^ Z.of_nat (S g))
      by (rewrite Z.pow_mul_r by lia; done).
  - split; [lia|].
    replace (7 * Z.of_nat (S (groups v))) with (7 * (Z.of_nat (groups v) + 1)) by lia.
    by rewrite Z.pow_mul_r by lia.
Qed.

(** *** In-place update *)

Lemma pad_step m k v t tl :
  digit (k + Z.of_nat m + 1) v = 0 ->
  <[S m := 0]> (<[m := Z.lor (nth m (digits m k v ++ t :: tl) 0) 0x80]>
    (digits m k v ++ t :: tl)) = digits (S m) k v ++ tl.
Proof.
  revert k. induction m as [|m IH]; intros k Hd; simpl.
  - rewrite lor_128 by apply digit_range. rewrite <- Hd. do 3 f_equal. lia.
  - f_equal. apply IH. rewrite <- Hd. f_equal. lia.
Qed.

Lemma digit_above k v : 0 <= v < 128 ^ k -> digit k v = 0.
Proof. intros. unfold digit. by rewrite Z.div_small. Qed.

Lemma pad_digits n m v tl :
  (n <= length tl)%nat -> 0 <= v < 128 ^ (Z.of_nat m + 1) ->
  PadLoop n (S m) (digits m 0 v ++ tl) = digits (m + n) 0 v ++ drop n tl.
Proof.
  revert m tl. induction n as [|n IH]; intros m tl Hn Hv.
  - simpl. by rewrite Nat.add_0_r, drop_0.
  - destruct tl as [|t tl]; simpl in Hn; [lia|].
    cbn [PadLoop]. rewrite Nat.sub_succ, Nat.sub_0_r.
    rewrite pad_step by (apply digit_above; by rewrite Z.add_0_l).
    rewrite IH; [by rewrite Nat.add_succ_r|lia|].
    assert (128 ^ (Z.of_nat m + 1) <= 128 ^ (Z.of_nat (S m) + 1))
      by (apply Z.pow_le_mono_r; lia). lia.
Qed.

Lemma store_0 enc dest :
  (length enc <= length dest)%nat ->
  store 0 enc dest = Some (enc ++ drop (length enc) dest).
Proof.
  intros H. unfold store. rewrite Z.leb_refl. simpl andb.
  by rewrite (proj2 (Z.leb_le _ _)) by lia.
Qed.

Lemma groups_mono v w : is_u 32 w -> 0 <= v <= w -> (groups v <= groups w)%nat.
Proof.
  unfold groups, is_u. intros. reduce_pow. repeat case_Zcmp; lia.
Qed.

(** *** Signed values *)

Definition sgroups (v : Z) : nat := groups (2 * (if v <? 0 then - v - 1 else v)).

Lemma magnitude v :
  is_s 32 v -> Z.lxor v (v ≫ 31) = if v <? 0 then - v - 1 else v.
Proof.
  intros Hv. unfold is_s in Hv. rewrite Z.shiftr_div_pow2 by lia. reduce_pow.
  case_Zcmp.
  - replace (v / 2147483648) with (-1) by div_lia.
    rewrite Z.lxor_m1_r. unfold Z.lnot. lia.
  - replace (v / 2147483648) with 0 by div_lia. apply Z.lxor_0_r.
Qed.

Lemma signed_loop_digits n fuel k v e :
  0 <= k -> (n <= fuel)%nat ->
  (forall j, k <= j < k + Z.of_nat n -> e / 128 ^ j <> 0) ->
  e / 128 ^ (k + Z.of_nat n) = 0 ->
  EncodeSignedLoop fuel (digit k v) (v / 128 ^ k) (e / 128 ^ k) = digits n k v.
Proof.
  revert fuel k. induction n as [|n IH]; intros fuel k Hk Hf Hnz Hz.
  - rewrite Z.add_0_r in Hz. rewrite Hz. by destruct fuel.
  - destruct fuel as [|fuel]; [lia|]. cbn [EncodeSignedLoop digits].
    destruct (Z.eqb_spec (e / 128 ^ k) 0) as [E|_].
    { exfalso. apply (Hnz k); lia. }
    rewrite u8_land_127, !shiftr_groups by lia. unfold digit at 1.
    rewrite lor_digit. f_equal. apply IH; try lia.
    + intros j Hj. apply Hnz. lia.
    + rewrite <- Hz. do 2 f_equal. lia.
Qed.

(** The bounds that [sgroups] puts on the value. *)
Lemma sgroups_spec v :
  is_s 32 v ->
  (sgroups v <= 4)%nat /\
  - (64 * 128 ^ Z.of_nat (sgroups v)) <= v < 64 * 128 ^ Z.of_nat (sgroups v).
Proof.
  intros Hv. unfold sgroups.
  assert (Hm : is_u 32 (2 * (if v <? 0 then - v - 1 else v)))
    by (unfold is_s, is_u in *; reduce_pow; case_Zcmp; lia).
  destruct (groups_spec _ Hm) as (Hg & Hlt & _). split; [done|].
  rewrite Z.pow_add_r in Hlt by lia. reduce_pow.
  destruct (Z.ltb_spec v 0); lia.
Qed.

Lemma encode_signed_digits v :
  is_s 32 v -> EncodeSignedLeb128 v = digits (sgroups v) 0 v.
Proof.
  intros Hv. unfold EncodeSignedLeb128. rewrite magnitude by done.
  set (m := if v <? 0 then - v - 1 else v).
  assert (Hm : 0 <= m < 2 ^ 31)
    by (unfold m, is_s in *; reduce_pow; case_Zcmp; lia).
  destruct (groups_spec (2 * m)) as (Hg & Hlt & Hge);
    [unfold is_u; reduce_pow; lia|].
  rewrite u8_land_127, (u_small 32 m), Z.shiftr_div_pow2 by (unfold is_u; reduce_pow; lia).
  rewrite <- digit_0.
  replace v with (v / 128 ^ 0) at 2 by (by rewrite Z.pow_0_r, Z.div_1_r).
  replace (m / 2 ^ 6) with (m / 2 ^ 6 / 128 ^ 0) by (by rewrite Z.pow_0_r, Z.div_1_r).
  change (sgroups v) with (groups (2 * m)).
  apply signed_loop_digits; [lia|unfold leb_fuel; lia| |].
  - intros j Hj.
    assert (128 * 128 ^ j <= 2 * m).
    { rewrite <- Z.pow_succ_r by lia. transitivity (128 ^ Z.of_nat (groups (2 * m))).
      - apply Z.pow_le_mono_r; lia.
      - apply Hge. lia. }
    assert (0 < 128 ^ j) by (apply Z.pow_pos_nonneg; lia).
    rewrite Z.div_div by lia. change (2 ^ 6) with 64.
    pose proof (Z.div_str_pos m (64 * 128 ^ j)). lia.
  - rewrite Z.div_div, Z.add_0_l by (try apply Z.pow_nonzero; lia).
    apply Z.div_small. rewrite Z.pow_add_r in Hlt by lia. reduce_pow. lia.
Qed.

(** [(result << k) >> k] on an [int32_t] sign-extends the low [32 - k] bits. *)
Lemma sign_extend_25 x : sign_extend_shift 25 x = s 7 x.
Proof. unfold sign_extend_shift. rewrite Z.shiftl_mul_pow2, Z.shiftr_div_pow2 by lia. word_lia. Qed.
Lemma sign_extend_18 x : sign_extend_shift 18 x = s 14 x.
Proof. unfold sign_extend_shift. rewrite Z.shiftl_mul_pow2, Z.shiftr_div_pow2 by lia. word_lia. Qed.
Lemma sign_extend_11 x : sign_extend_shift 11 x = s 21 x.
Proof. unfold sign_extend_shift. rewrite Z.shiftl_mul_pow2, Z.shiftr_div_pow2 by lia. word_lia. Qed.
Lemma sign_extend_4 x : sign_extend_shift 4 x = s 28 x.
Proof. unfold sign_extend_shift. rewrite Z.shiftl_mul_pow2, Z.shiftr_div_pow2 by lia. word_lia. Qed.

Lemma cont_bit_le x : 0 <= x -> (x + 128 <=? 0x7f) = false.
Proof. intros. apply Z.leb_gt. lia. Qed.

Lemma last_bit_le x : x < 128 -> (x <=? 0x7f) = true.
Proof. intros. apply Z.leb_le. lia. Qed.

#[export] Hint Rewrite cont_bit_le last_bit_le using (reduce_pow; lia) : leb.

Lemma decode_signed_digits v rest :
  is_s 32 v -> DecodeSignedLeb128 (digits (sgroups v) 0 v ++ rest) = Some (v, rest).
Proof.
  intros Hv. destruct (sgroups_spec v Hv) as [Hn Hb].
  generalize dependent (sgroups v). intros n Hn Hb. join_digits v.
  assert (Hd4 : n = 4%nat -> s32 (128 ^ 4 * digit 4 v) = s32 (128 ^ 4 * (v / 128 ^ 4)))
    by (unfold digit; word_lia).
  do 5 (destruct n as [|n]; [
    unfold DecodeSignedLeb128; simpl; simpl_index; autorewrite with leb;
    rewrite ?sign_extend_25, ?sign_extend_18, ?sign_extend_11, ?sign_extend_4;
    do 2 f_equal; unfold s, is_s in *; reduce_pow; div_lia
  |]). lia.
Qed.

(** The round trip as the readers of streams use it. *)
Lemma decode_encode v rest :
  is_u 32 v -> DecodeUnsignedLeb128 (EncodeUnsignedLeb128 v ++ rest) = Some (v, rest).
Proof.
  intros Hv. destruct (groups_spec v Hv) as (Hg & Hlt & _).
  rewrite encode_digits by done. by apply decode_digits.
Qed.

Lemma gerat_encode v : Gerat.EncodeUnsignedLeb128 v = EncodeUnsignedLeb128 v.
Proof.
  unfold Gerat.EncodeUnsignedLeb128, EncodeUnsignedLeb128.
  generalize (u8 (Z.land v 127)) (v ≫ 7). generalize leb_fuel.
  intros fuel. induction fuel as [|fuel IH]; intros out x; [done|].
  simpl. case_match; [done|]. by rewrite IH.
Qed.

Lemma insert_back_flat data vs :
  InsertBackUnsigned data vs = data ++ concat (EncodeUnsignedLeb128 <$> vs).
Proof.
  unfold InsertBackUnsigned. revert data. induction vs as [|v vs IH]; intros data; simpl.
  - by rewrite app_nil_r.
  - rewrite IH. unfold PushBackUnsigned. by rewrite <- (assoc_L (++)).
Qed.

Lemma decode_concat vs rest :
  Forall (is_u 32) vs ->
  DecodeUnsignedLeb128s (length vs) (concat (EncodeUnsignedLeb128 <$> vs) ++ rest)
  = Some (vs, rest).
Proof.
  induction 1 as [|v vs Hv Hvs IH]; [done|].
  cbn [length DecodeUnsignedLeb128s]. rewrite fmap_cons. cbn [concat].
  rewrite <- (assoc_L (++)), decode_encode by done. cbn. by rewrite IH.
Qed.

Lemma read_u8_inv data b rest :
  read_u8 data = Some (b, rest) -> data = b :: rest.
Proof. destruct data; simpl; congruence. Qed.

(** ** Properties *)

(** Every [uint32_t] written by [EncodeUnsignedLeb128] (or pushed by
    [Leb128Encoder::InsertBackUnsigned], one after the other) is read back by
    [DecodeUnsignedLeb128] with the cursor left just past the encoding; the encoding has
    exactly [UnsignedLeb128Size] bytes, between one and five. *)
Theorem unsigned_roundtrip (v : Z) (data vs rest : list Z)
    (Hv : is_u 32 v) (Hvs : Forall (is_u 32) vs) :
  DecodeUnsignedLeb128 (EncodeUnsignedLeb128 v ++ rest) = Some (v, rest) /\
  Z.of_nat (length (EncodeUnsignedLeb128 v)) = UnsignedLeb128Size v /\
  1 <= UnsignedLeb128Size v <= 5 /\
  exists enc, InsertBackUnsigned data vs = data ++ enc /\
    DecodeUnsignedLeb128s (length vs) (enc ++ rest) = Some (vs, rest).
Proof.
  destruct (groups_spec v Hv) as (Hg & _).
  rewrite length_encode, UnsignedLeb128Size_groups by done.
  split_all; [by apply decode_encode|done|lia|lia|].
  eexists. split; [apply insert_back_flat|by apply decode_concat].
Qed.

Lemma unsigned_roundtrip_witness :
  DecodeUnsignedLeb128 (EncodeUnsignedLeb128 624485 ++ [7]) = Some (624485, [7]) /\
  Z.of_nat (length (EncodeUnsignedLeb128 624485)) = UnsignedLeb128Size 624485 /\
  1 <= UnsignedLeb128Size 624485 <= 5 /\
  exists enc, InsertBackUnsigned [9] [300; 5] = [9] ++ enc /\
    DecodeUnsignedLeb128s 2 (enc ++ [7]) = Some ([300; 5], [7]).
Proof.
  apply (unsigned_roundtrip 624485 [9] [300; 5] [7]).
  - vm_compute. by split.
  - repeat constructor; vm_compute; congruence.
Defined.

(** Every [int32_t] written by [EncodeSignedLeb128] is read back, sign included, by
    [DecodeSignedLeb128], and the encoding has exactly [SignedLeb128Size] bytes. *)
Theorem signed_roundtrip (v : Z) (rest : list Z) (Hv : is_s 32 v) :
  DecodeSignedLeb128 (EncodeSignedLeb128 v ++ rest) = Some (v, rest) /\
  Z.of_nat (length (EncodeSignedLeb128 v)) = SignedLeb128Size v.
Proof.
  rewrite encode_signed_digits by done. split; [by apply decode_signed_digits|].
  rewrite length_digits. unfold sgroups.
  unfold SignedLeb128Size, CLZ32. rewrite magnitude by done.
  set (m := if v <? 0 then - v - 1 else v).
  assert (Hm : 0 <= m < 2 ^ 31) by (unfold m, is_s in *; reduce_pow; case_Zcmp; lia).
  destruct (groups_spec (2 * m)) as (Hg & Hlt & Hge); [unfold is_u; reduce_pow; lia|].
  replace (1 + 6 + 32 - (31 - Z.log2 (Z.lor m 1)))
    with (6 + 32 - (31 - (1 + Z.log2 (Z.lor m 1)))) by lia.
  symmetry. apply size_band; [|done].
  destruct (groups (2 * m)) as [|g].
  - pose proof (log2_band m 0 6). reduce_pow. lia.
  - pose proof (log2_band m (7 * Z.of_nat (S g) - 1) (7 * Z.of_nat (S g) + 6)) as Hb.
    specialize (Hge ltac:(lia)).
    change 128 with (2 ^ 7) in Hge, Hlt. rewrite <- Z.pow_mul_r in Hge, Hlt by lia.
    rewrite (pow2_half (7 * Z.of_nat (S g))) in Hge by lia.
    replace (7 * (Z.of_nat (S g) + 1)) with (Z.succ (7 * Z.of_nat (S g) + 6)) in Hlt by lia.
    rewrite Z.pow_succ_r in Hlt by lia. lia.
Qed.

Lemma signed_roundtrip_witness :
  DecodeSignedLeb128 (EncodeSignedLeb128 (-123456) ++ [1]) = Some (-123456, [1]) /\
  Z.of_nat (length (EncodeSignedLeb128 (-123456))) = SignedLeb128Size (-123456).
Proof. apply (signed_roundtrip (-123456) [1]). vm_compute. by split. Defined.

(** [UpdateUnsignedLeb128] overwrites an encoded value with a smaller one in the same
    space: the buffer keeps its length, everything after the old encoding is untouched,
    and decoding gives the new value with the cursor where it was. *)
Theorem update_in_place (old_value value : Z) (rest : list Z)
    (Hold : is_u 32 old_value) (Hv : 0 <= value <= old_value) :
  exists enc,
    UpdateUnsignedLeb128 (EncodeUnsignedLeb128 old_value ++ rest) value = Some (enc ++ rest) /\
    length enc = length (EncodeUnsignedLeb128 old_value) /\
    Forall is_byte enc /\
    DecodeUnsignedLeb128 (enc ++ rest) = Some (value, rest).
Proof.
  assert (Hval : is_u 32 value) by (unfold is_u in *; lia).
  destruct (groups_spec _ Hold) as (Hg & Hlt & _).
  destruct (groups_spec _ Hval) as (_ & Hltv & _).
  pose proof (groups_mono _ _ Hold Hv) as Hmono.
  exists (digits (groups old_value) 0 value). rewrite length_encode, length_digits by done.
  split_all; [|done|apply digits_bytes|apply decode_digits; [done..|lia]].
  unfold UpdateUnsignedLeb128. rewrite decode_encode by done. cbn.
  rewrite length_app, !length_encode by done.
  rewrite store_0 by (rewrite length_app, !length_encode by done; lia). cbn.
  rewrite !encode_digits, length_digits, drop_app_le by (rewrite ?length_digits; done || lia).
  rewrite pad_digits; [|rewrite length_app, length_drop, length_digits; lia|unfold is_u in *; lia].
  rewrite drop_app_ge, length_drop, length_digits
    by (rewrite length_drop, length_digits; lia).
  f_equal. f_equal; [f_equal; lia|].
  by replace (_ - _)%nat with 0%nat by lia.
Qed.

Lemma update_in_place_witness :
  exists enc,
    UpdateUnsignedLeb128 (EncodeUnsignedLeb128 300000 ++ [3; 4]) 5 = Some (enc ++ [3; 4]) /\
    length enc = length (EncodeUnsignedLeb128 300000) /\
    Forall is_byte enc /\
    DecodeUnsignedLeb128 (enc ++ [3; 4]) = Some (5, [3; 4]).
Proof. apply (update_in_place 300000 5 [3; 4]); [vm_compute; by split|lia]. Defined.

(** On arbitrary data the unsigned decoder consumes between one and five bytes and
    returns a [uint32_t]; when at least five bytes are left it never reads past the end. *)
Theorem decode_unsigned_safe (data : list Z) (Hl : (5 <= length data)%nat) :
  exists v pre rest, DecodeUnsignedLeb128 data = Some (v, rest) /\ data = pre ++ rest /\
    (1 <= length pre <= 5)%nat /\ is_u 32 v.
Proof.
  destruct data as [|a [|b [|c [|d [|e data]]]]]; simpl in Hl; try lia.
  unfold DecodeUnsignedLeb128. cbn. repeat case_match.
  - eexists _, [a; b; c; d; e], _. split_all; [done..|simpl; lia|simpl; lia|by apply u_range].
  - eexists _, [a; b; c; d], _. split_all; [done..|simpl; lia|simpl; lia|by apply u_range].
  - eexists _, [a; b; c], _. split_all; [done..|simpl; lia|simpl; lia|by apply u_range].
  - eexists _, [a; b], _. split_all; [done..|simpl; lia|simpl; lia|by apply u_range].
  - eexists _, [a], _. split_all; [done..|simpl; lia|simpl; lia|by apply u_range].
Qed.

Lemma decode_unsigned_safe_witness :
  exists v pre rest, DecodeUnsignedLeb128 [255; 255; 255; 255; 255; 1] = Some (v, rest) /\
    [255; 255; 255; 255; 255; 1] = pre ++ rest /\ (1 <= length pre <= 5)%nat /\ is_u 32 v.
Proof. apply (decode_unsigned_safe [255; 255; 255; 255; 255; 1]). simpl. lia. Defined.
