(* ===== verification/ClassData.v ===== *)
(** [class_data_item]s: the unpacker's encoder ([gerat/util/Defs.{h,cc}]) and the runtime's
    reader, [ClassDataItemIterator] ([dex_file.{h,cc}]).

    The encoder's result is the list of bytes it stores.  The iterator's pointer into the
    dex file is the list of the bytes that follow it; every method that decodes returns an
    [option], [None] standing for a read past the end of the data. *)
From S2P Require Import Prelude Leb128.
Local Open Scope Z_scope.

(** ** Access flags and invoke types *)

Definition kAccPublic : Z := 0x0001.
Definition kAccPrivate : Z := 0x0002.
Definition kAccProtected : Z := 0x0004.
Definition kAccStatic : Z := 0x0008.
Definition kAccFinal : Z := 0x0010.
Definition kAccSynchronized : Z := 0x0020.
Definition kAccVolatile : Z := 0x0040.
Definition kAccBridge : Z := 0x0040.
Definition kAccTransient : Z := 0x0080.
Definition kAccVarargs : Z := 0x0080.
Definition kAccNative : Z := 0x0100.
Definition kAccInterface : Z := 0x0200.
Definition kAccAbstract : Z := 0x0400.
Definition kAccStrict : Z := 0x0800.
Definition kAccSynthetic : Z := 0x1000.
Definition kAccEnum : Z := 0x4000.
Definition kAccConstructor : Z := 0x00010000.
Definition kAccDeclaredSynchronized : Z := 0x00020000.
Definition kAccMiranda : Z := 0x00200000.

Definition kAccValidFieldFlags : Z :=
  or_flags [kAccPublic; kAccPrivate; kAccProtected; kAccStatic; kAccFinal; kAccVolatile;
            kAccTransient; kAccSynthetic; kAccEnum].

Definition kAccValidMethodFlags : Z :=
  or_flags [kAccPublic; kAccPrivate; kAccProtected; kAccStatic; kAccFinal;
            kAccSynchronized; kAccBridge; kAccVarargs; kAccNative; kAccAbstract;
            kAccStrict; kAccSynthetic; kAccMiranda; kAccConstructor;
            kAccDeclaredSynchronized].

Inductive InvokeType := kStatic | kDirect | kVirtual | kSuper | kInterface.

#[export] Instance InvokeType_eq_dec : EqDecision InvokeType.
Proof. solve_decision. Defined.

(** ** The unpacker's in-memory items *)

Module Gerat.

Record ClassDataField := {
  field_idx_delta_ : Z;
  field_access_flags_ : Z;
}.

Record ClassDataMethod := {
  method_idx : Z;
  method_idx_delta_ : Z;
  method_access_flags_ : Z;
  code_off_ : Z;
}.

Record ClassDataItemMem := {
  class_idx : Z;
  static_fields_size_ : Z;
  instance_fields_size_ : Z;
  direct_methods_size_ : Z;
  virtual_methods_size_ : Z;
  fields : list ClassDataField;
  methods : list ClassDataMethod;
}.

Definition encode_field (f : ClassDataField) : list Z :=
  Leb128.Gerat.EncodeUnsignedLeb128 (field_idx_delta_ f) ++
  Leb128.Gerat.EncodeUnsignedLeb128 (field_access_flags_ f).

Definition encode_method (m : ClassDataMethod) : list Z :=
  Leb128.Gerat.EncodeUnsignedLeb128 (method_idx_delta_ m) ++
  Leb128.Gerat.EncodeUnsignedLeb128 (method_access_flags_ m) ++
  Leb128.Gerat.EncodeUnsignedLeb128 (code_off_ m).

(** [ClassDataItemMem::encode]: four sizes, the fields in order, the methods in order. *)
Definition encode (it : ClassDataItemMem) : list Z :=
  Leb128.Gerat.EncodeUnsignedLeb128 (static_fields_size_ it) ++
  Leb128.Gerat.EncodeUnsignedLeb128 (instance_fields_size_ it) ++
  Leb128.Gerat.EncodeUnsignedLeb128 (direct_methods_size_ it) ++
  Leb128.Gerat.EncodeUnsignedLeb128 (virtual_methods_size_ it) ++
  concat (encode_field <$> fields it) ++
  concat (encode_method <$> methods it).

End Gerat.

(** ** [ClassDataItemIterator] *)

Record ClassDataHeader := {
  h_static_fields_size_ : Z;
  h_instance_fields_size_ : Z;
  h_direct_methods_size_ : Z;
  h_virtual_methods_size_ : Z;
}.

Record FieldData := { fd_idx_delta_ : Z; fd_access_flags_ : Z }.

Record MethodData := { md_idx_delta_ : Z; md_access_flags_ : Z; md_code_off_ : Z }.

Record ClassDataItemIterator := {
  header_ : ClassDataHeader;
  field_ : FieldData;
  method_ : MethodData;
  pos_ : Z;
  ptr_pos_ : list Z;
  last_idx_ : Z;
}.

Definition ReadClassDataHeader (ptr : list Z) : option (ClassDataHeader * list Z) :=
  '(a, ptr) ← DecodeUnsignedLeb128 ptr;
  '(b, ptr) ← DecodeUnsignedLeb128 ptr;
  '(c, ptr) ← DecodeUnsignedLeb128 ptr;
  '(d, ptr) ← DecodeUnsignedLeb128 ptr;
  Some ({| h_static_fields_size_ := a; h_instance_fields_size_ := b;
           h_direct_methods_size_ := c; h_virtual_methods_size_ := d |}, ptr).

Definition ReadClassDataField (it : ClassDataItemIterator) : option ClassDataItemIterator :=
  '(a, ptr) ← DecodeUnsignedLeb128 (ptr_pos_ it);
  '(b, ptr) ← DecodeUnsignedLeb128 ptr;
  Some {| header_ := header_ it; field_ := {| fd_idx_delta_ := a; fd_access_flags_ := b |};
          method_ := method_ it; pos_ := pos_ it; ptr_pos_ := ptr;
          last_idx_ := last_idx_ it |}.

Definition ReadClassDataMethod (it : ClassDataItemIterator) : option ClassDataItemIterator :=
  '(a, ptr) ← DecodeUnsignedLeb128 (ptr_pos_ it);
  '(b, ptr) ← DecodeUnsignedLeb128 ptr;
  '(c, ptr) ← DecodeUnsignedLeb128 ptr;
  Some {| header_ := header_ it; field_ := field_ it;
          method_ := {| md_idx_delta_ := a; md_access_flags_ := b; md_code_off_ := c |};
          pos_ := pos_ it; ptr_pos_ := ptr; last_idx_ := last_idx_ it |}.

Definition NumStaticFields (h : ClassDataHeader) : Z := h_static_fields_size_ h.
Definition NumInstanceFields (h : ClassDataHeader) : Z := h_instance_fields_size_ h.
Definition NumDirectMethods (h : ClassDataHeader) : Z := h_direct_methods_size_ h.
Definition NumVirtualMethods (h : ClassDataHeader) : Z := h_virtual_methods_size_ h.

(** The ends of the four sections are [uint32_t] sums. *)
Definition EndOfStaticFieldsPos (h : ClassDataHeader) : Z := h_static_fields_size_ h.
Definition EndOfInstanceFieldsPos (h : ClassDataHeader) : Z :=
  u32 (EndOfStaticFieldsPos h + h_instance_fields_size_ h).
Definition EndOfDirectMethodsPos (h : ClassDataHeader) : Z :=
  u32 (EndOfInstanceFieldsPos h + h_direct_methods_size_ h).
Definition EndOfVirtualMethodsPos (h : ClassDataHeader) : Z :=
  u32 (EndOfDirectMethodsPos h + h_virtual_methods_size_ h).

(** The constructor. *)
Definition MakeClassDataItemIterator (raw_class_data_item : list Z)
    : option ClassDataItemIterator :=
  '(h, ptr) ← ReadClassDataHeader raw_class_data_item;
  let it := {| header_ := h; field_ := {| fd_idx_delta_ := 0; fd_access_flags_ := 0 |};
               method_ := {| md_idx_delta_ := 0; md_access_flags_ := 0; md_code_off_ := 0 |};
               pos_ := 0; ptr_pos_ := ptr; last_idx_ := 0 |} in
  if 0 <? EndOfInstanceFieldsPos h then ReadClassDataField it
  else if 0 <? EndOfVirtualMethodsPos h then ReadClassDataMethod it
  else Some it.

Definition HasNextStaticField (it : ClassDataItemIterator) : bool :=
  pos_ it <? EndOfStaticFieldsPos (header_ it).
Definition HasNextInstanceField (it : ClassDataItemIterator) : bool :=
  (EndOfStaticFieldsPos (header_ it) <=? pos_ it) &&
  (pos_ it <? EndOfInstanceFieldsPos (header_ it)).
Definition HasNextDirectMethod (it : ClassDataItemIterator) : bool :=
  (EndOfInstanceFieldsPos (header_ it) <=? pos_ it) &&
  (pos_ it <? EndOfDirectMethodsPos (header_ it)).
Definition HasNextVirtualMethod (it : ClassDataItemIterator) : bool :=
  (EndOfDirectMethodsPos (header_ it) <=? pos_ it) &&
  (pos_ it <? EndOfVirtualMethodsPos (header_ it)).
Definition HasNext (it : ClassDataItemIterator) : bool :=
  pos_ it <? EndOfVirtualMethodsPos (header_ it).

Definition GetMemberIndex (it : ClassDataItemIterator) : Z :=
  if pos_ it <? EndOfInstanceFieldsPos (header_ it)
  then u32 (last_idx_ it + fd_idx_delta_ (field_ it))
  else u32 (last_idx_ it + md_idx_delta_ (method_ it)).

Definition GetRawMemberAccessFlags (it : ClassDataItemIterator) : Z :=
  if pos_ it <? EndOfInstanceFieldsPos (header_ it)
  then fd_access_flags_ (field_ it)
  else md_access_flags_ (method_ it).

Definition GetFieldAccessFlags (it : ClassDataItemIterator) : Z :=
  Z.land (GetRawMemberAccessFlags it) kAccValidFieldFlags.
Definition GetMethodAccessFlags (it : ClassDataItemIterator) : Z :=
  Z.land (GetRawMemberAccessFlags it) kAccValidMethodFlags.
Definition MemberIsNative (it : ClassDataItemIterator) : bool :=
  negb (Z.land (GetRawMemberAccessFlags it) kAccNative =? 0).
Definition MemberIsFinal (it : ClassDataItemIterator) : bool :=
  negb (Z.land (GetRawMemberAccessFlags it) kAccFinal =? 0).
Definition GetMethodCodeItemOffset (it : ClassDataItemIterator) : Z :=
  md_code_off_ (method_ it).

(** [class_access_flags] is [class_def.access_flags_]. *)
Definition GetMethodInvokeType (class_access_flags : Z) (it : ClassDataItemIterator)
    : InvokeType :=
  if HasNextDirectMethod it then
    if negb (Z.land (GetRawMemberAccessFlags it) kAccStatic =? 0) then kStatic else kDirect
  else if negb (Z.land class_access_flags kAccInterface =? 0) then kInterface
  else if negb (Z.land (GetRawMemberAccessFlags it) kAccConstructor =? 0) then kSuper
  else kVirtual.

Definition set_pos_last (pos last : Z) (it : ClassDataItemIterator) : ClassDataItemIterator :=
  {| header_ := header_ it; field_ := field_ it; method_ := method_ it; pos_ := pos;
     ptr_pos_ := ptr_pos_ it; last_idx_ := last |}.

(** [Next]: [pos_++], then the ladder of sections.  [GetMemberIndex()] is called after the
    increment, so it reads [field_] or [method_] as the new position selects. *)
Definition Next (it : ClassDataItemIterator) : option ClassDataItemIterator :=
  let h := header_ it in
  let pos := pos_ it + 1 in
  let it := set_pos_last pos (last_idx_ it) it in
  let continue_section := set_pos_last pos (GetMemberIndex it) it in
  let reset_section := set_pos_last pos 0 it in
  if pos <? EndOfStaticFieldsPos h then ReadClassDataField continue_section
  else if (pos =? EndOfStaticFieldsPos h) && (0 <? NumInstanceFields h)
  then ReadClassDataField reset_section
  else if pos <? EndOfInstanceFieldsPos h then ReadClassDataField continue_section
  else if (pos =? EndOfInstanceFieldsPos h) && (0 <? NumDirectMethods h)
  then ReadClassDataMethod reset_section
  else if pos <? EndOfDirectMethodsPos h then ReadClassDataMethod continue_section
  else if (pos =? EndOfDirectMethodsPos h) && (0 <? NumVirtualMethods h)
  then ReadClassDataMethod reset_section
  else if pos <? EndOfVirtualMethodsPos h then ReadClassDataMethod continue_section
  else Some it.

(** [EndDataPointer] checks that the walk is over. *)
Definition EndDataPointer (it : ClassDataItemIterator) : option (list Z) :=
  if HasNext it then None else Some (ptr_pos_ it).

(** *** Walking an item

    What a client reads at each stop, and the loop [while (it.HasNextX()) { ...; it.Next(); }]
    all the clients are made of. *)

Record Member := { mb_index : Z; mb_flags : Z; mb_code_off : Z }.

Definition member_of_field (it : ClassDataItemIterator) : Member :=
  {| mb_index := GetMemberIndex it; mb_flags := GetRawMemberAccessFlags it; mb_code_off := 0 |}.

Definition member_of_method (it : ClassDataItemIterator) : Member :=
  {| mb_index := GetMemberIndex it; mb_flags := GetRawMemberAccessFlags it;
     mb_code_off := GetMethodCodeItemOffset it |}.

Fixpoint visit {A} (fuel : nat) (has_next : ClassDataItemIterator -> bool)
    (look : ClassDataItemIterator -> A) (it : ClassDataItemIterator)
    : option (list A * ClassDataItemIterator) :=
  if has_next it then
    match fuel with
    | O => None
    | S fuel =>
        it' ← Next it;
        '(ms, it') ← visit fuel has_next look it';
        Some (look it :: ms, it')
    end
  else Some ([], it).

Record Members := {
  static_fields : list Member;
  instance_fields : list Member;
  direct_methods : list Member;
  virtual_methods : list Member;
}.

(** The four loops of [ArtMethod::dump_dex_after_init], collecting what they see, and where the
    iterator ends. *)
Definition walk (fuel : nat) (data : list Z) : option (Members * list Z) :=
  it ← MakeClassDataItemIterator data;
  '(sf, it) ← visit fuel HasNextStaticField member_of_field it;
  '(nf, it) ← visit fuel HasNextInstanceField member_of_field it;
  '(dm, it) ← visit fuel HasNextDirectMethod member_of_method it;
  '(vm, it) ← visit fuel HasNextVirtualMethod member_of_method it;
  rest ← EndDataPointer it;
  Some ({| static_fields := sf; instance_fields := nf;
           direct_methods := dm; virtual_methods := vm |}, rest).

(** ** What an item means: absolute indices section by section *)

Fixpoint field_members (last : Z) (fs : list FieldData) : list Member :=
  match fs with
  | [] => []
  | f :: fs =>
      let idx := u32 (last + fd_idx_delta_ f) in
      {| mb_index := idx; mb_flags := fd_access_flags_ f; mb_code_off := 0 |}
        :: field_members idx fs
  end.

Fixpoint method_members (last : Z) (ms : list MethodData) : list Member :=
  match ms with
  | [] => []
  | m :: ms =>
      let idx := u32 (last + md_idx_delta_ m) in
      {| mb_index := idx; mb_flags := md_access_flags_ m; mb_code_off := md_code_off_ m |}
        :: method_members idx ms
  end.

Definition field_data (f : Gerat.ClassDataField) : FieldData :=
  {| fd_idx_delta_ := Gerat.field_idx_delta_ f;
     fd_access_flags_ := Gerat.field_access_flags_ f |}.

Definition method_data (m : Gerat.ClassDataMethod) : MethodData :=
  {| md_idx_delta_ := Gerat.method_idx_delta_ m;
     md_access_flags_ := Gerat.method_access_flags_ m;
     md_code_off_ := Gerat.code_off_ m |}.

Definition item_members (it : Gerat.ClassDataItemMem) : Members :=
  let nsf := Z.to_nat (Gerat.static_fields_size_ it) in
  let ndm := Z.to_nat (Gerat.direct_methods_size_ it) in
  let fs := field_data <$> Gerat.fields it in
  let ms := method_data <$> Gerat.methods it in
  {| static_fields := field_members 0 (take nsf fs);
     instance_fields := field_members 0 (drop nsf fs);
     direct_methods := method_members 0 (take ndm ms);
     virtual_methods := method_members 0 (drop ndm ms) |}.

Definition wf_field (f : FieldData) : Prop :=
  is_u 32 (fd_idx_delta_ f) /\ is_u 32 (fd_access_flags_ f).
Definition wf_method (m : MethodData) : Prop :=
  is_u 32 (md_idx_delta_ m) /\ is_u 32 (md_access_flags_ m) /\ is_u 32 (md_code_off_ m).

(** The sizes in the header count the entries, and the [uint32_t] sums do not wrap. *)
Definition wf_item (it : Gerat.ClassDataItemMem) : Prop :=
  0 <= Gerat.static_fields_size_ it /\ 0 <= Gerat.instance_fields_size_ it /\
  0 <= Gerat.direct_methods_size_ it /\ 0 <= Gerat.virtual_methods_size_ it /\
  Z.of_nat (length (Gerat.fields it)) =
    Gerat.static_fields_size_ it + Gerat.instance_fields_size_ it /\
  Z.of_nat (length (Gerat.methods it)) =
    Gerat.direct_methods_size_ it + Gerat.virtual_methods_size_ it /\
  Z.of_nat (length (Gerat.fields it)) + Z.of_nat (length (Gerat.methods it)) < 2 ^ 32 /\
  Forall wf_field (field_data <$> Gerat.fields it) /\
  Forall wf_method (method_data <$> Gerat.methods it).

(** ** Lemmas *)

Definition encF (f : FieldData) : list Z :=
  EncodeUnsignedLeb128 (fd_idx_delta_ f) ++ EncodeUnsignedLeb128 (fd_access_flags_ f).
Definition encM (m : MethodData) : list Z :=
  EncodeUnsignedLeb128 (md_idx_delta_ m) ++ EncodeUnsignedLeb128 (md_access_flags_ m) ++
  EncodeUnsignedLeb128 (md_code_off_ m).

Ltac decode_step := rewrite <- ?(assoc_L (++)), decode_encode by done; cbn.

Lemma read_field it f tl :
  wf_field f -> ptr_pos_ it = encF f ++ tl ->
  ReadClassDataField it =
    Some {| header_ := header_ it; field_ := f; method_ := method_ it; pos_ := pos_ it;
            ptr_pos_ := tl; last_idx_ := last_idx_ it |}.
Proof.
  intros [Hd Ha] E. unfold ReadClassDataField. rewrite E. unfold encF.
  do 2 decode_step. by destruct f.
Qed.

Lemma read_method it m tl :
  wf_method m -> ptr_pos_ it = encM m ++ tl ->
  ReadClassDataMethod it =
    Some {| header_ := header_ it; field_ := field_ it; method_ := m; pos_ := pos_ it;
            ptr_pos_ := tl; last_idx_ := last_idx_ it |}.
Proof.
  intros (Hd & Ha & Hc) E. unfold ReadClassDataMethod. rewrite E. unfold encM.
  do 3 decode_step. by destruct m.
Qed.

Section Walk.
  (** One item: its header, its entries, and what follows it in the file. *)
  Context (h : ClassDataHeader) (F : list FieldData) (M : list MethodData) (rest : list Z).
  Context (Ha : 0 <= NumStaticFields h) (Hb : 0 <= NumInstanceFields h)
    (Hc : 0 <= NumDirectMethods h) (Hd : 0 <= NumVirtualMethods h).
  Context (HF : Z.of_nat (length F) = NumStaticFields h + NumInstanceFields h).
  Context (HM : Z.of_nat (length M) = NumDirectMethods h + NumVirtualMethods h).
  Context (Hsz : Z.of_nat (length F) + Z.of_nat (length M) < 2 ^ 32).
  Context (HwF : Forall wf_field F) (HwM : Forall wf_method M).

  Abbreviation n1 := (Z.to_nat (NumStaticFields h)).
  Abbreviation n2 := (length F).
  Abbreviation n3 := (n2 + Z.to_nat (NumDirectMethods h))%nat.
  Abbreviation n4 := (n2 + length M)%nat.

Lemma ends :
    EndOfStaticFieldsPos h = Z.of_nat n1 /\ EndOfInstanceFieldsPos h = Z.of_nat n2 /\
    EndOfDirectMethodsPos h = Z.of_nat n3 /\ EndOfVirtualMethodsPos h = Z.of_nat n4 /\
    (n1 <= n2 <= n3)%nat /\ (n3 <= n4)%nat.
Proof.
  unfold EndOfVirtualMethodsPos, EndOfDirectMethodsPos, EndOfInstanceFieldsPos,
    EndOfStaticFieldsPos, NumStaticFields, NumInstanceFields, NumDirectMethods,
    NumVirtualMethods, is_u in *.
  assert (E2 : u32 (h_static_fields_size_ h + h_instance_fields_size_ h) = Z.of_nat n2)
    by (rewrite u_small by (unfold is_u; lia); lia).
  rewrite E2.
  assert (E3 : u32 (Z.of_nat n2 + h_direct_methods_size_ h) = Z.of_nat n3)
    by (rewrite u_small by (unfold is_u; lia); unfold NumDirectMethods; lia).
  rewrite E3.
  rewrite u_small by (unfold is_u, NumDirectMethods; lia).
  unfold NumDirectMethods, NumStaticFields. lia.
Qed.

  (** The state of the iterator at position [i]: entry [i] is decoded, the pointer is on
      entry [i + 1], and [last_idx_] is [last]. *)
Definition loaded (it : ClassDataItemIterator) (i : nat) (last : Z) : Prop :=
    header_ it = h /\ pos_ it = Z.of_nat i /\
    ((i < n2)%nat -> exists f, F !! i = Some f /\ field_ it = f /\ last_idx_ it = last /\
       ptr_pos_ it = concat (encF <$> drop (S i) F) ++ concat (encM <$> M) ++ rest) /\
    ((n2 <= i < n4)%nat -> exists m, M !! (i - n2)%nat = Some m /\ method_ it = m /\
       last_idx_ it = last /\ ptr_pos_ it = concat (encM <$> drop (S (i - n2)) M) ++ rest) /\
    (i = n4 -> ptr_pos_ it = rest).

Ltac ladder :=
    destruct ends as (E1 & E2 & E3 & E4 & Hle); unfold Next, GetMemberIndex;
    cbn [header_ pos_ set_pos_last];
    match goal with H : header_ _ = _, H' : pos_ _ = _ |- _ => rewrite H, H' end;
    rewrite E1, E2, E3, E4; repeat case_Zcmp; cbn [andb]; try done; exfalso; lia.

Lemma next_to_field it i :
    header_ it = h -> pos_ it = Z.of_nat i -> (S i < n2)%nat ->
    Next it = ReadClassDataField
      (set_pos_last (Z.of_nat i + 1)
        (if Z.of_nat i + 1 =? Z.of_nat n1 then 0 else GetMemberIndex it) it).
Proof. intros Hh Hp Hi. ladder. Qed.

Lemma next_to_method it i :
    header_ it = h -> pos_ it = Z.of_nat i -> (n2 <= S i < n4)%nat ->
    Next it = ReadClassDataMethod
      (set_pos_last (Z.of_nat i + 1)
        (if (Z.of_nat i + 1 =? Z.of_nat n2) || (Z.of_nat i + 1 =? Z.of_nat n3) then 0
         else GetMemberIndex it) it).
Proof. intros Hh Hp Hi. ladder. Qed.

Lemma next_to_end it i :
    header_ it = h -> pos_ it = Z.of_nat i -> S i = n4 ->
    Next it = Some (set_pos_last (Z.of_nat i + 1) (last_idx_ it) it).
Proof. intros Hh Hp Hi. ladder. Qed.

Definition boundary (j : nat) : bool :=
    (Z.of_nat j =? Z.of_nat n1) || (Z.of_nat j =? Z.of_nat n2) || (Z.of_nat j =? Z.of_nat n3).

Definition reset_last (j : nat) (idx : Z) : Z := if boundary j then 0 else idx.

Lemma field_tail j f tl :
    F !! j = Some f ->
    concat (encF <$> drop j F) ++ tl = encF f ++ concat (encF <$> drop (S j) F) ++ tl.
Proof. intros Hj. rewrite (drop_S _ _ _ Hj), fmap_cons. cbn. by rewrite (assoc_L (++)). Qed.

Lemma method_tail j m tl :
    M !! j = Some m ->
    concat (encM <$> drop j M) ++ tl = encM m ++ concat (encM <$> drop (S j) M) ++ tl.
Proof. intros Hj. rewrite (drop_S _ _ _ Hj), fmap_cons. cbn. by rewrite (assoc_L (++)). Qed.

  (** What [Next] finds at the pointer: the entries from [S i] on. *)
Lemma loaded_ptr it i last :
    loaded it i last -> (i < n4)%nat ->
    ptr_pos_ it = concat (encF <$> drop (S i) F) ++ concat (encM <$> drop (S i - n2) M) ++ rest.
Proof.
  intros (Hh & Hp & Hf & Hm & He) Hi. destruct (decide (i < n2)%nat) as [Hlt|Hge].
  - destruct (Hf Hlt) as (f & _ & _ & _ & ->).
    by replace (S i - n2)%nat with 0%nat by lia.
  - destruct Hm as (m & _ & _ & _ & ->); [lia|].
    rewrite (drop_ge F) by lia. cbn. by replace (S i - n2)%nat with (S (i - n2)) by lia.
Qed.

Lemma next_loaded it i last :
    loaded it i last -> (i < n4)%nat ->
    exists it', Next it = Some it' /\ loaded it' (S i) (reset_last (S i) (GetMemberIndex it)).
Proof.
  intros HL Hi. pose proof (loaded_ptr it i last HL Hi) as Hptr.
  destruct HL as (Hh & Hp & _). destruct ends as (_ & _ & _ & _ & Hle).
  destruct (decide (S i < n2)%nat) as [Hlt|Hge];
    [|destruct (decide (S i = n4)) as [He|Hne]].
  - destruct (lookup_lt_is_Some_2 F (S i) Hlt) as [f Hf].
    rewrite (field_tail _ f) in Hptr by done.
    eexists. split.
    + rewrite (next_to_field it i) by done.
      apply read_field; [by eapply Forall_lookup_1|exact Hptr].
    + unfold loaded, reset_last, boundary; cbn. split_all; [done|lia| |lia|lia].
      intros _. exists f. split_all; try done; [repeat case_Zcmp; cbn; done || lia|].
      by replace (S i - n2)%nat with 0%nat by lia.
  - eexists. split; [by apply next_to_end|].
    unfold loaded; cbn. split_all; [done|lia|lia|lia|].
    intros _. rewrite Hptr, !drop_ge by lia. done.
  - destruct (lookup_lt_is_Some_2 M (S i - n2)) as [m Hm]; [lia|].
    rewrite (drop_ge F) in Hptr by lia. cbn [fmap list_fmap concat app] in Hptr.
    rewrite (method_tail _ m) in Hptr by done.
    eexists. split.
    + rewrite (next_to_method it i) by (done || lia).
      apply read_method; [by eapply Forall_lookup_1|exact Hptr].
    + unfold loaded, reset_last, boundary; cbn. split_all; [done|lia|lia| |lia].
      intros _. exists m. split_all; try done. repeat case_Zcmp; cbn; done || lia.
Qed.

  (** [k] entries from position [i] on, where [mem last j] is entry [j] seen with [last]. *)
Fixpoint section_members (mem : Z -> nat -> Member) (last : Z) (i k : nat) : list Member :=
    match k with
    | O => []
    | S k => mem last i :: section_members mem (mb_index (mem last i)) (S i) k
    end.

  (** One loop over the positions [i .. i + k) of a section. *)
Lemma visit_section has_next look mem k fuel it i last :
    (forall it j last, loaded it j last -> (i <= j < i + k)%nat ->
       has_next it = true /\ look it = mem last j /\
       GetMemberIndex it = mb_index (mem last j)) ->
    (forall it last, loaded it (i + k) last -> has_next it = false) ->
    (i + k <= n4)%nat -> (k <= fuel)%nat ->
    (forall j, (i < j < i + k)%nat -> boundary j = false) ->
    loaded it i last -> (boundary i = true -> last = 0) ->
    exists it' last',
      visit fuel has_next look it = Some (section_members mem last i k, it') /\
      loaded it' (i + k) last' /\ (boundary (i + k) = true -> last' = 0).
Proof.
  revert fuel it i last.
  induction k as [|k IH]; intros fuel it i last Hin Hout Hi Hfuel Hnb HL Hl.
  - exists it, last. rewrite Nat.add_0_r in *. split; [|done].
    destruct fuel; cbn; by rewrite (Hout _ _ HL).
  - destruct fuel as [|fuel]; [lia|].
    destruct (Hin it i last HL) as (Hn & Hlook & Hidx); [lia|].
    destruct (next_loaded it i last HL ltac:(lia)) as (it1 & Hnext & HL1).
    replace (i + S k)%nat with (S i + k)%nat in * by lia.
    destruct (IH fuel it1 (S i) (reset_last (S i) (GetMemberIndex it)))
      as (it' & last' & Hv & HL'); try done; try lia.
    + intros it0 j last0 HL0 Hj. apply Hin; [done|lia].
    + intros j Hj. apply Hnb. lia.
    + unfold reset_last. by intros ->.
    + exists it', last'. split; [|done]. cbn. rewrite Hn, Hnext. cbn. rewrite Hv. cbn.
      rewrite Hlook. do 3 f_equal. destruct k as [|k]; [done|].
      unfold reset_last. by rewrite Hnb, Hidx by lia.
Qed.

Definition field_at (last : Z) (j : nat) : Member :=
    match F !! j with
    | Some f => {| mb_index := u32 (last + fd_idx_delta_ f);
                   mb_flags := fd_access_flags_ f; mb_code_off := 0 |}
    | None => {| mb_index := 0; mb_flags := 0; mb_code_off := 0 |}
    end.

Definition method_at (last : Z) (j : nat) : Member :=
    match M !! (j - n2)%nat with
    | Some m => {| mb_index := u32 (last + md_idx_delta_ m);
                   mb_flags := md_access_flags_ m; mb_code_off := md_code_off_ m |}
    | None => {| mb_index := 0; mb_flags := 0; mb_code_off := 0 |}
    end.

Lemma loaded_field it j last :
    loaded it j last -> (j < n2)%nat ->
    member_of_field it = field_at last j /\ GetMemberIndex it = mb_index (field_at last j).
Proof.
  intros (Hh & Hp & Hf & _) Hj. destruct (Hf Hj) as (f & Hlook & Hfd & Hl & _).
  destruct ends as (_ & E2 & _).
  unfold member_of_field, GetRawMemberAccessFlags, GetMemberIndex, field_at.
  rewrite Hh, Hp, E2, Hlook, Hfd, Hl. by rewrite (proj2 (Z.ltb_lt _ _)) by lia.
Qed.

Lemma loaded_method it j last :
    loaded it j last -> (n2 <= j < n4)%nat ->
    member_of_method it = method_at last j /\ GetMemberIndex it = mb_index (method_at last j).
Proof.
  intros (Hh & Hp & _ & Hm & _) Hj. destruct (Hm Hj) as (m & Hlook & Hmd & Hl & _).
  destruct ends as (_ & E2 & _).
  unfold member_of_method, GetMethodCodeItemOffset, GetRawMemberAccessFlags,
    GetMemberIndex, method_at.
  rewrite Hh, Hp, E2, Hlook, Hmd, Hl. by rewrite (proj2 (Z.ltb_ge _ _)) by lia.
Qed.

Lemma section_fields last i k :
    (i + k <= n2)%nat ->
    section_members field_at last i k = field_members last (take k (drop i F)).
Proof.
  revert last i. induction k as [|k IH]; intros last i Hk; [done|].
  destruct (lookup_lt_is_Some_2 F i) as [f Hf]; [lia|].
  rewrite (drop_S _ _ _ Hf). cbn [section_members take field_members].
  assert (E : field_at last i = {| mb_index := u32 (last + fd_idx_delta_ f);
                mb_flags := fd_access_flags_ f; mb_code_off := 0 |})
    by (unfold field_at; by rewrite Hf).
  rewrite E. f_equal. apply IH. lia.
Qed.

Lemma section_methods last i k :
    (n2 <= i)%nat -> (i + k <= n4)%nat ->
    section_members method_at last i k = method_members last (take k (drop (i - n2) M)).
Proof.
  revert last i. induction k as [|k IH]; intros last i Hi Hk; [done|].
  destruct (lookup_lt_is_Some_2 M (i - n2)%nat) as [m Hm]; [lia|].
  rewrite (drop_S _ _ _ Hm). cbn [section_members take method_members].
  assert (E : method_at last i = {| mb_index := u32 (last + md_idx_delta_ m);
                mb_flags := md_access_flags_ m; mb_code_off := md_code_off_ m |})
    by (unfold method_at; by rewrite Hm).
  rewrite E. f_equal. cbn [mb_index]. rewrite IH by lia. by replace (S i - n2)%nat with (S (i - n2)) by lia.
Qed.

  (** The loops over the two field sections and over the two method sections. *)
Lemma visit_field_section has_next fuel it lo hi :
    (forall it, has_next it = (EndOfStaticFieldsPos (header_ it) <=? pos_ it) &&
                   (pos_ it <? EndOfInstanceFieldsPos (header_ it))) /\ lo = n1 /\ hi = n2 \/
    (forall it, has_next it = (pos_ it <? EndOfStaticFieldsPos (header_ it))) /\
       lo = 0%nat /\ hi = n1 ->
    (n4 <= fuel)%nat -> loaded it lo 0 ->
    exists it', visit fuel has_next member_of_field it
        = Some (field_members 0 (take (hi - lo) (drop lo F)), it') /\ loaded it' hi 0.
Proof.
  intros Hsec Hfuel HL. destruct ends as (E1 & E2 & E3 & E4 & Hle).
  assert (lo <= hi <= n2)%nat as [Hlo Hhi] by (destruct Hsec as [(_ & -> & ->)|(_ & -> & ->)]; lia).
  destruct (visit_section has_next member_of_field field_at (hi - lo) fuel it lo 0)
    as (it' & last' & Hv & HL' & Hl'); try done; try lia.
  - intros it0 j last0 HL0 Hj. split; [|by apply loaded_field; [|lia]].
    pose proof HL0 as (Hh & Hp & _).
    destruct Hsec as [(Hn & -> & ->)|(Hn & -> & ->)]; rewrite Hn, Hh, Hp, ?E1, ?E2;
      repeat case_Zcmp; done || lia.
  - intros it0 last0 (Hh & Hp & _).
    destruct Hsec as [(Hn & -> & ->)|(Hn & -> & ->)]; rewrite Hn, Hh, Hp, ?E1, ?E2;
      repeat case_Zcmp; done || lia.
  - intros j Hj. unfold boundary.
    destruct Hsec as [(Hn & -> & ->)|(Hn & -> & ->)]; repeat case_Zcmp; done || lia.
  - exists it'. rewrite Hv, section_fields by lia.
    replace (lo + (hi - lo))%nat with hi in * by lia. rewrite Hl' in HL'; [done|].
    unfold boundary. destruct Hsec as [(Hn & -> & ->)|(Hn & -> & ->)]; rewrite Z.eqb_refl;
      by rewrite ?orb_true_r.
Qed.

Lemma visit_method_section has_next fuel it lo hi :
    (forall it, has_next it = (EndOfInstanceFieldsPos (header_ it) <=? pos_ it) &&
                   (pos_ it <? EndOfDirectMethodsPos (header_ it))) /\ lo = n2 /\ hi = n3 \/
    (forall it, has_next it = (EndOfDirectMethodsPos (header_ it) <=? pos_ it) &&
                   (pos_ it <? EndOfVirtualMethodsPos (header_ it))) /\ lo = n3 /\ hi = n4 ->
    (n4 <= fuel)%nat -> loaded it lo 0 ->
    exists it' last', visit fuel has_next member_of_method it
        = Some (method_members 0 (take (hi - lo) (drop (lo - n2) M)), it') /\
      loaded it' hi last' /\ (boundary hi = true -> last' = 0).
Proof.
  intros Hsec Hfuel HL. destruct ends as (E1 & E2 & E3 & E4 & Hle).
  assert (n2 <= lo <= hi /\ hi <= n4)%nat as [Hlo Hhi]
    by (destruct Hsec as [(_ & -> & ->)|(_ & -> & ->)]; lia).
  destruct (visit_section has_next member_of_method method_at (hi - lo) fuel it lo 0)
    as (it' & last' & Hv & HL' & Hl'); try done; try lia.
  - intros it0 j last0 HL0 Hj. split; [|by apply loaded_method; [|lia]].
    pose proof HL0 as (Hh & Hp & _).
    destruct Hsec as [(Hn & -> & ->)|(Hn & -> & ->)]; rewrite Hn, Hh, Hp, ?E2, ?E3, ?E4;
      repeat case_Zcmp; done || lia.
  - intros it0 last0 (Hh & Hp & _).
    destruct Hsec as [(Hn & -> & ->)|(Hn & -> & ->)]; rewrite Hn, Hh, Hp, ?E2, ?E3, ?E4;
      repeat case_Zcmp; done || lia.
  - intros j Hj. unfold boundary.
    destruct Hsec as [(Hn & -> & ->)|(Hn & -> & ->)]; repeat case_Zcmp; done || lia.
  - exists it', last'. rewrite Hv, section_methods by lia.
    by replace (lo + (hi - lo))%nat with hi in * by lia.
Qed.

  (** The constructor decodes the first entry. *)
Lemma make_loaded h_enc :
    ReadClassDataHeader (h_enc ++ concat (encF <$> F) ++ concat (encM <$> M) ++ rest)
      = Some (h, concat (encF <$> F) ++ concat (encM <$> M) ++ rest) ->
    exists it, MakeClassDataItemIterator
        (h_enc ++ concat (encF <$> F) ++ concat (encM <$> M) ++ rest) = Some it /\
      loaded it 0 0.
Proof.
  intros Hh. unfold MakeClassDataItemIterator. rewrite Hh. cbn.
  destruct ends as (_ & E2 & _ & E4 & _). rewrite E2, E4. unfold loaded.
  destruct F as [|f F'] eqn:EF; [destruct M as [|m M'] eqn:EM|]; cbn [length].
  - cbn. eexists. split; [done|]. cbn. split_all; try done; lia.
  - cbn [Nat.add]. case_Zcmp; [lia|]. case_Zcmp; [|lia].
    eexists. split; [apply (read_method _ m (concat (encM <$> M') ++ rest));
      [by inversion HwM|cbn; symmetry; apply (assoc_L (++))]|].
    cbn. split_all; try done; try lia. intros _. by exists m.
  - case_Zcmp; [|lia].
    eexists. split;
      [apply (read_field _ f (concat (encF <$> F') ++ concat (encM <$> M) ++ rest));
       [by inversion HwF|cbn; symmetry; apply (assoc_L (++))]|].
    cbn. split_all; try done; try lia. intros _. by exists f.
Qed.

Lemma walk_members fuel h_enc :
    (n4 <= fuel)%nat ->
    ReadClassDataHeader (h_enc ++ concat (encF <$> F) ++ concat (encM <$> M) ++ rest)
      = Some (h, concat (encF <$> F) ++ concat (encM <$> M) ++ rest) ->
    walk fuel (h_enc ++ concat (encF <$> F) ++ concat (encM <$> M) ++ rest)
      = Some ({| static_fields := field_members 0 (take n1 F);
                 instance_fields := field_members 0 (drop n1 F);
                 direct_methods := method_members 0 (take (n3 - n2) M);
                 virtual_methods := method_members 0 (drop (n3 - n2) M) |}, rest).
Proof.
  intros Hfuel Hh. destruct (make_loaded h_enc Hh) as (it & Hmk & HL).
  destruct ends as (E1 & E2 & E3 & E4 & Hle).
  unfold walk. rewrite Hmk. cbn [mbind option_bind].
  destruct (visit_field_section HasNextStaticField fuel it 0 n1) as (it1 & V1 & L1);
    [by right|done|done|].
  destruct (visit_field_section HasNextInstanceField fuel it1 n1 n2) as (it2 & V2 & L2);
    [by left|done|done|].
  destruct (visit_method_section HasNextDirectMethod fuel it2 n2 n3)
    as (it3 & l3 & V3 & L3 & R3); [by left|done|done|].
  rewrite R3 in L3 by (unfold boundary; rewrite Z.eqb_refl; by rewrite ?orb_true_r).
  destruct (visit_method_section HasNextVirtualMethod fuel it3 n3 n4)
    as (it4 & l4 & V4 & L4 & _); [by right|done|done|].
  rewrite V1. cbn [mbind option_bind]. rewrite V2. cbn [mbind option_bind].
  rewrite V3. cbn [mbind option_bind]. rewrite V4. cbn [mbind option_bind].
  destruct L4 as (Hh4 & Hp4 & _ & _ & Hrest).
  unfold EndDataPointer, HasNext. rewrite Hh4, Hp4, E4, Z.ltb_irrefl, (Hrest eq_refl).
  cbn. do 3 f_equal; f_equal; rewrite ?Nat.sub_0_r, ?Nat.sub_diag, ?drop_0; try done.
  - apply take_ge. rewrite length_drop. lia.
  - apply take_ge. rewrite length_drop. lia.
Qed.

End Walk.


(** *** The encoder's output has the shape [walk] needs *)

Definition header_of (item : Gerat.ClassDataItemMem) : ClassDataHeader :=
  {| h_static_fields_size_ := Gerat.static_fields_size_ item;
     h_instance_fields_size_ := Gerat.instance_fields_size_ item;
     h_direct_methods_size_ := Gerat.direct_methods_size_ item;
     h_virtual_methods_size_ := Gerat.virtual_methods_size_ item |}.

Definition encH (h : ClassDataHeader) : list Z :=
  EncodeUnsignedLeb128 (h_static_fields_size_ h) ++
  EncodeUnsignedLeb128 (h_instance_fields_size_ h) ++
  EncodeUnsignedLeb128 (h_direct_methods_size_ h) ++
  EncodeUnsignedLeb128 (h_virtual_methods_size_ h).

Lemma encode_fields (fs : list Gerat.ClassDataField) : Gerat.encode_field <$> fs = encF <$> (field_data <$> fs).
Proof.
  rewrite <- list_fmap_compose. apply list_fmap_ext. intros _ f _.
  unfold Gerat.encode_field, encF, compose. by rewrite !gerat_encode.
Qed.

Lemma encode_methods (ms : list Gerat.ClassDataMethod) : Gerat.encode_method <$> ms = encM <$> (method_data <$> ms).
Proof.
  rewrite <- list_fmap_compose. apply list_fmap_ext. intros _ m _.
  unfold Gerat.encode_method, encM, compose. by rewrite !gerat_encode.
Qed.

Lemma encode_shape item rest :
  Gerat.encode item ++ rest =
  encH (header_of item) ++ concat (encF <$> (field_data <$> Gerat.fields item)) ++
  concat (encM <$> (method_data <$> Gerat.methods item)) ++ rest.
Proof.
  unfold Gerat.encode, encH. rewrite encode_fields, encode_methods, !gerat_encode.
  by rewrite <- !(assoc_L (++)).
Qed.

Lemma read_header h tl :
  is_u 32 (h_static_fields_size_ h) -> is_u 32 (h_instance_fields_size_ h) ->
  is_u 32 (h_direct_methods_size_ h) -> is_u 32 (h_virtual_methods_size_ h) ->
  ReadClassDataHeader (encH h ++ tl) = Some (h, tl).
Proof.
  intros. unfold ReadClassDataHeader, encH. do 4 decode_step. by destruct h.
Qed.

Lemma walk_encoded item fuel rest :
  wf_item item -> (length (Gerat.fields item) + length (Gerat.methods item) <= fuel)%nat ->
  walk fuel (Gerat.encode item ++ rest) = Some (item_members item, rest).
Proof.
  intros (Ha & Hb & Hc & Hd & HF & HM & Hsz & HwF & HwM) Hfuel.
  rewrite encode_shape, (walk_members (header_of item));
    rewrite ?length_fmap; cbn; try done; try lia.
  - do 2 f_equal. unfold item_members.
    by rewrite Nat.add_comm, Nat.add_sub.
  - apply read_header; unfold is_u; cbn; lia.
Qed.

(** ** Properties *)

(** C32: reading back what [ClassDataItemMem::encode] wrote gives exactly the members of the
    item: the iterator's four loops see every static field, instance field, direct and
    virtual method once and in order, with the absolute index (the running sum of the
    deltas, restarted in each section), the raw access flags and the code offset; they
    terminate within as many steps as there are members and leave the data pointer just
    after the item. *)
Theorem walk_encode (item : Gerat.ClassDataItemMem) (rest : list Z) (fuel : nat)
    (Hwf : wf_item item)
    (Hfuel : (length (Gerat.fields item) + length (Gerat.methods item) <= fuel)%nat) :
  walk fuel (Gerat.encode item ++ rest) = Some (item_members item, rest).
Proof. by apply walk_encoded. Qed.

Definition sample_item : Gerat.ClassDataItemMem :=
  {| Gerat.class_idx := 7; Gerat.static_fields_size_ := 1; Gerat.instance_fields_size_ := 2;
     Gerat.direct_methods_size_ := 1; Gerat.virtual_methods_size_ := 2;
     Gerat.fields :=
       [{| Gerat.field_idx_delta_ := 3; Gerat.field_access_flags_ := 8 |};
        {| Gerat.field_idx_delta_ := 300; Gerat.field_access_flags_ := 2 |};
        {| Gerat.field_idx_delta_ := 5; Gerat.field_access_flags_ := 1 |}];
     Gerat.methods :=
       [{| Gerat.method_idx := 11; Gerat.method_idx_delta_ := 11;
           Gerat.method_access_flags_ := 65537; Gerat.code_off_ := 4096 |};
        {| Gerat.method_idx := 2; Gerat.method_idx_delta_ := 2;
           Gerat.method_access_flags_ := 1; Gerat.code_off_ := 70000 |};
        {| Gerat.method_idx := 9; Gerat.method_idx_delta_ := 7;
           Gerat.method_access_flags_ := 1025; Gerat.code_off_ := 0 |}] |}.

Lemma sample_item_wf : wf_item sample_item.
Proof.
  split_all; cbn; try lia.
  all: repeat constructor; cbn; lia.
Qed.

Lemma walk_encode_witness :
  wf_item sample_item /\
  walk 6 (Gerat.encode sample_item ++ [1; 2]) = Some (item_members sample_item, [1; 2]).
Proof.
  split; [exact sample_item_wf|].
  apply (walk_encode sample_item [1; 2] 6); [exact sample_item_wf|cbn; lia].
Defined.
