(* ===== verification/Utf.v ===== *)
(** Modified UTF-8 ([utf.cc], [utf-inl.h]).

    A [const char*] is the list of the bytes from that address on, a [const uint16_t*] the
    list of the code units from there on.  [None] is a read past the end of the data.  Loops
    over a C string consume at least a byte per iteration, so the length of the string is
    enough fuel for them. *)
From S2P Require Import Prelude.
Local Open Scope Z_scope.

Definition is_u16 (c : Z) : Prop := 0 <= c < 0x10000.

(** ** [utf-inl.h] *)

Definition GetTrailingUtf16Char (maybe_pair : Z) : Z := u16 (maybe_pair ≫ 16).
Definition GetLeadingUtf16Char (maybe_pair : Z) : Z := u16 (Z.land maybe_pair 0x0000FFFF).

Definition GetUtf16FromUtf8 (utf8_data_in : list Z) : option (Z * list Z) :=
  '(one, p) ← read_u8 utf8_data_in;
  if Z.land one 0x80 =? 0 then Some (one, p)
  else
    '(two, p) ← read_u8 p;
    if Z.land one 0x20 =? 0
    then Some (Z.lor (Z.land one 0x1f ≪ 6) (Z.land two 0x3f), p)
    else
      '(three, p) ← read_u8 p;
      if Z.land one 0x10 =? 0
      then Some (Z.lor (Z.lor (Z.land one 0x0f ≪ 12) (Z.land two 0x3f ≪ 6))
                       (Z.land three 0x3f), p)
      else
        '(four, p) ← read_u8 p;
        let code_point :=
          Z.lor (Z.lor (Z.lor (Z.land one 0x0f ≪ 18) (Z.land two 0x3f ≪ 12))
                       (Z.land three 0x3f ≪ 6)) (Z.land four 0x3f) in
        let surrogate_pair := 0 in
        let surrogate_pair :=
          Z.lor surrogate_pair (Z.land ((code_point ≫ 10) + 0xd7c0) 0xffff) in
        let surrogate_pair :=
          Z.lor surrogate_pair (u32 ((Z.land code_point 0x03ff + 0xdc00) ≪ 16)) in
        Some (surrogate_pair, p).

(** The [do ... while (c1 == c2)] loop and the two returns after it.  The result is an
    [int]; the difference of the leading characters goes through [uint32_t]. *)
Fixpoint CompareModifiedLoop (fuel : nat) (utf8_1 utf8_2 : list Z) : option Z :=
  match fuel with
  | O => None
  | S fuel =>
      '(c1, _) ← read_u8 utf8_1;
      '(c2, _) ← read_u8 utf8_2;
      if c1 =? 0 then Some (if c2 =? 0 then 0 else -1)
      else if c2 =? 0 then Some 1
      else
        '(c1, utf8_1) ← GetUtf16FromUtf8 utf8_1;
        '(c2, utf8_2) ← GetUtf16FromUtf8 utf8_2;
        if c1 =? c2 then CompareModifiedLoop fuel utf8_1 utf8_2
        else
          let leading_surrogate_diff :=
            u32 (GetLeadingUtf16Char c1 - GetLeadingUtf16Char c2) in
          if negb (leading_surrogate_diff =? 0) then Some (s32 leading_surrogate_diff)
          else Some (GetTrailingUtf16Char c1 - GetTrailingUtf16Char c2)
  end.

Definition CompareModifiedUtf8ToModifiedUtf8AsUtf16CodePointValues
    (utf8_1 utf8_2 : list Z) : option Z :=
  CompareModifiedLoop (length utf8_1) utf8_1 utf8_2.

(** ** [utf.cc] *)

(** [utf8++] *)
Definition advance (p : list Z) : option (list Z) := match p with [] => None | _ :: p => Some p end.

Fixpoint CountCharsLoop (fuel : nat) (utf8 : list Z) (len : Z) : option Z :=
  match fuel with
  | O => None
  | S fuel =>
      '(ic, utf8) ← read_u8 utf8;
      if ic =? 0 then Some len
      else
        let len := len + 1 in
        if Z.land ic 0x80 =? 0 then CountCharsLoop fuel utf8 len
        else
          utf8 ← advance utf8;
          if Z.land ic 0x20 =? 0 then CountCharsLoop fuel utf8 len
          else
            utf8 ← advance utf8;
            if Z.land ic 0x10 =? 0 then CountCharsLoop fuel utf8 len
            else
              utf8 ← advance utf8;
              CountCharsLoop fuel utf8 (len + 1)
  end.

Definition CountModifiedUtf8Chars (utf8 : list Z) : option Z :=
  CountCharsLoop (length utf8) utf8 0.

(** The code units that are stored through [utf16_data_out]. *)
Fixpoint ConvertToUtf16Loop (fuel : nat) (utf8_data_in : list Z) : option (list Z) :=
  match fuel with
  | O => None
  | S fuel =>
      '(c, _) ← read_u8 utf8_data_in;
      if c =? 0 then Some []
      else
        '(ch, utf8_data_in) ← GetUtf16FromUtf8 utf8_data_in;
        let leading := GetLeadingUtf16Char ch in
        let trailing := GetTrailingUtf16Char ch in
        out ← ConvertToUtf16Loop fuel utf8_data_in;
        Some (leading :: (if negb (trailing =? 0) then [trailing] else []) ++ out)
  end.

Definition ConvertModifiedUtf8ToUtf16 (utf8_data_in : list Z) : option (list Z) :=
  ConvertToUtf16Loop (length utf8_data_in) utf8_data_in.

(** The body of [ConvertUtf16ToModifiedUtf8] for a unit that is not part of a pair. *)
Definition EncodeUnit (ch : Z) : list Z :=
  if (0 <? ch) && (ch <=? 0x7f) then [ch]
  else if 0x07ff <? ch then
    [u8 (Z.lor (ch ≫ 12) 0xe0); u8 (Z.lor (Z.land (ch ≫ 6) 0x3f) 0x80);
     u8 (Z.lor (Z.land ch 0x3f) 0x80)]
  else [u8 (Z.lor (ch ≫ 6) 0xc0); u8 (Z.lor (Z.land ch 0x3f) 0x80)].

Definition EncodePair (ch ch2 : Z) : list Z :=
  let code_point := u32 ((ch ≪ 10) + ch2 - 0x035fdc00) in
  [u8 (Z.lor (code_point ≫ 18) 0xf0); u8 (Z.lor (Z.land (code_point ≫ 12) 0x3f) 0x80);
   u8 (Z.lor (Z.land (code_point ≫ 6) 0x3f) 0x80); u8 (Z.lor (Z.land code_point 0x3f) 0x80)].

Definition is_lead (ch : Z) : bool := (0xd800 <=? ch) && (ch <=? 0xdbff).
Definition is_trail (ch : Z) : bool := (0xdc00 <=? ch) && (ch <=? 0xdfff).

(** The bytes that are stored through [utf8_out]; [char_count] is the length of the input. *)
Fixpoint ConvertUtf16ToModifiedUtf8 (utf16_in : list Z) : list Z :=
  match utf16_in with
  | [] => []
  | ch :: utf16_in =>
      if (0 <? ch) && (ch <=? 0x7f) then ch :: ConvertUtf16ToModifiedUtf8 utf16_in
      else
        match utf16_in with
        | ch2 :: rest =>
            if is_lead ch && is_trail ch2
            then EncodePair ch ch2 ++ ConvertUtf16ToModifiedUtf8 rest
            else EncodeUnit ch ++ ConvertUtf16ToModifiedUtf8 utf16_in
        | [] => EncodeUnit ch ++ ConvertUtf16ToModifiedUtf8 utf16_in
        end
  end.

Fixpoint Utf16HashLoop (chars : list Z) (hash : Z) : Z :=
  match chars with
  | [] => hash
  | c :: chars => Utf16HashLoop chars (u32 (hash * 31 + c))
  end.

Definition ComputeUtf16Hash (chars : list Z) : Z := s32 (Utf16HashLoop chars 0).

(** [hash] is a 64-bit [size_t]; [char_value] is the value of a byte read as a plain [char],
    whose signedness the C++ implementation chooses. *)
Definition char_value (char_signed : bool) (b : Z) : Z := if char_signed then s8 b else b.

Fixpoint ModifiedUtf8HashLoop (char_signed : bool) (chars : list Z) (hash : Z) : option Z :=
  match chars with
  | [] => None
  | c :: chars =>
      if c =? 0 then Some hash
      else ModifiedUtf8HashLoop char_signed chars (u64 (hash * 31 + char_value char_signed c))
  end.

Definition ComputeModifiedUtf8Hash (char_signed : bool) (chars : list Z) : option Z :=
  hash ← ModifiedUtf8HashLoop char_signed chars 0;
  Some (u64 (s32 hash)).

(** The [for (;;)] loop; [utf16_length] is the length of [utf16]. *)
Fixpoint CompareUtf16Loop (fuel : nat) (utf8 utf16 : list Z) : option Z :=
  match fuel with
  | O => None
  | S fuel =>
      '(c, _) ← read_u8 utf8;
      if c =? 0 then Some (match utf16 with [] => 0 | _ => -1 end)
      else
        match utf16 with
        | [] => Some 1
        | rhs :: utf16 =>
            '(pair_, utf8) ← GetUtf16FromUtf8 utf8;
            let lhs := GetLeadingUtf16Char pair_ in
            if negb (lhs =? rhs) then Some (if rhs <? lhs then 1 else -1)
            else
              let lhs2 := GetTrailingUtf16Char pair_ in
              if negb (lhs2 =? 0) then
                match utf16 with
                | [] => Some 1
                | rhs2 :: utf16 =>
                    if negb (lhs2 =? rhs2) then Some (if rhs2 <? lhs2 then 1 else -1)
                    else CompareUtf16Loop fuel utf8 utf16
                end
              else CompareUtf16Loop fuel utf8 utf16
        end
  end.

Definition CompareModifiedUtf8ToUtf16AsCodePointValues (utf8 utf16 : list Z) : option Z :=
  CompareUtf16Loop (length utf8) utf8 utf16.

Fixpoint CountUtf8Bytes (chars : list Z) : Z :=
  match chars with
  | [] => 0
  | ch :: chars =>
      if (0 <? ch) && (ch <=? 0x7f) then 1 + CountUtf8Bytes chars
      else if is_lead ch then
        match chars with
        | ch2 :: rest => if is_trail ch2 then 4 + CountUtf8Bytes rest else 3 + CountUtf8Bytes chars
        | [] => 3 + CountUtf8Bytes chars
        end
      else if 0x7ff <? ch then 3 + CountUtf8Bytes chars
      else 2 + CountUtf8Bytes chars
  end.

(** ** Symbols

    A UTF-16 string is cut into symbols: a surrogate pair [(lead, trail)], or one unit [c],
    written [(c, 0)]. *)

Definition Symbol : Type := Z * Z.

Fixpoint symbols (chars : list Z) : list Symbol :=
  match chars with
  | [] => []
  | ch :: chars =>
      match chars with
      | ch2 :: rest =>
          if is_lead ch && is_trail ch2 then (ch, ch2) :: symbols rest
          else (ch, 0) :: symbols chars
      | [] => [(ch, 0)]
      end
  end.

Definition wf_symbol (x : Symbol) : Prop :=
  is_u16 (fst x) /\ (snd x = 0 \/ is_lead (fst x) = true /\ is_trail (snd x) = true).

Definition symbol_units (x : Symbol) : list Z :=
  if snd x =? 0 then [fst x] else [fst x; snd x].

Definition enc_symbol (x : Symbol) : list Z :=
  if snd x =? 0 then EncodeUnit (fst x) else EncodePair (fst x) (snd x).

(** What [GetUtf16FromUtf8] returns for a symbol. *)
Definition symbol_code (x : Symbol) : Z := fst x + snd x * 0x10000.

(** The encoded symbols, the terminating NUL, and the memory after it. *)
Definition c_str (l : list Symbol) (rest : list Z) : list Z :=
  concat (enc_symbol <$> l) ++ 0 :: rest.

(** Induction that follows the recursion of [symbols]. *)
Lemma symbols_ind (P : list Z -> Prop) :
  P [] -> (forall a, P [a]) ->
  (forall a b l, P (b :: l) -> P l -> P (a :: b :: l)) ->
  forall l, P l.
Proof.
  intros H0 H1 H2 l.
  assert (H : P l /\ forall a, P (a :: l)); [|apply H].
  induction l as [|b l [IH1 IH2]]; [by split|]. split; [apply IH2|]. auto.
Qed.

Lemma symbols_cons2 a b l :
  symbols (a :: b :: l) =
  if is_lead a && is_trail b then (a, b) :: symbols l else (a, 0) :: symbols (b :: l).
Proof. done. Qed.

Lemma symbols_wf chars : Forall is_u16 chars -> Forall wf_symbol (symbols chars).
Proof.
  induction chars as [|a|a b l IH1 IH2] using symbols_ind; intros H.
  - constructor.
  - inversion H; subst. constructor; [|done]. split; [done|by left].
  - inversion H as [|?? Ha Hbl]; subst. inversion Hbl; subst. rewrite symbols_cons2.
    destruct (is_lead a && is_trail b) eqn:E; (constructor; [|by auto]); split; cbn; auto.
    right. by apply andb_true_iff.
Qed.

Lemma symbols_flat chars : concat (symbol_units <$> symbols chars) = chars.
Proof.
  induction chars as [|a|a b l IH1 IH2] using symbols_ind; [done..|].
  rewrite symbols_cons2. destruct (is_lead a && is_trail b) eqn:E.
  - apply andb_true_iff in E as [_ Hb]. unfold is_trail in Hb.
    cbn. rewrite IH2. unfold symbol_units; cbn. case_Zcmp; [|done]. subst. done.
  - cbn [fmap list_fmap concat]. by rewrite IH1.
Qed.

Lemma ascii_not_lead c : (0 <? c) && (c <=? 0x7f) = true -> is_lead c = false.
Proof. unfold is_lead. repeat case_Zcmp; cbn; done || lia. Qed.

Lemma convert_symbols chars :
  ConvertUtf16ToModifiedUtf8 chars = concat (enc_symbol <$> symbols chars).
Proof.
  assert (E1 : forall a, (0 <? a) && (a <=? 0x7f) = true -> EncodeUnit a = [a])
    by (intros a Ha; unfold EncodeUnit; by rewrite Ha).
  induction chars as [|a|a b l IH1 IH2] using symbols_ind; [done|..].
  - cbn. unfold enc_symbol; cbn. destruct ((0 <? a) && (a <=? 127)) eqn:E; [|done].
    by rewrite E1.
  - rewrite symbols_cons2.
    change (ConvertUtf16ToModifiedUtf8 (a :: b :: l)) with
      (if (0 <? a) && (a <=? 127) then a :: ConvertUtf16ToModifiedUtf8 (b :: l)
       else if is_lead a && is_trail b
            then EncodePair a b ++ ConvertUtf16ToModifiedUtf8 l
            else EncodeUnit a ++ ConvertUtf16ToModifiedUtf8 (b :: l)).
    destruct ((0 <? a) && (a <=? 127)) eqn:E.
    + rewrite ascii_not_lead by done. cbn [andb].
      cbn [fmap list_fmap concat]. rewrite <- IH1. unfold enc_symbol; cbn [fst snd].
      cbn [Z.eqb]. by rewrite E1.
    + destruct (is_lead a && is_trail b) eqn:E2; cbn [fmap list_fmap concat];
        rewrite <- ?IH1, <- ?IH2; [|done].
      apply andb_true_iff in E2 as [_ Hb]. unfold is_trail in Hb.
      unfold enc_symbol; cbn [fst snd]. case_Zcmp; [subst; done|done].
Qed.

(** ** Decoding one symbol *)

(** The payload bits of each kind of byte. *)
Lemma cont_byte x : 0 <= x < 64 ->
  (u8 (Z.lor x 0x80) =? x + 128) && (Z.land (x + 128) 0x3f =? x) = true.
Proof. intros H. by_values 64 x. Qed.

Lemma lead2_byte x : 0 <= x < 32 ->
  (u8 (Z.lor x 0xc0) =? x + 192) && (Z.land (x + 192) 0x1f =? x) &&
  negb (Z.land (x + 192) 0x80 =? 0) && (Z.land (x + 192) 0x20 =? 0) = true.
Proof. intros H. by_values 32 x. Qed.

Lemma lead3_byte x : 0 <= x < 16 ->
  (u8 (Z.lor x 0xe0) =? x + 224) && (Z.land (x + 224) 0x0f =? x) &&
  negb (Z.land (x + 224) 0x80 =? 0) && negb (Z.land (x + 224) 0x20 =? 0) &&
  (Z.land (x + 224) 0x10 =? 0) = true.
Proof. intros H. by_values 16 x. Qed.

Lemma lead4_byte x : 0 <= x < 8 ->
  (u8 (Z.lor x 0xf0) =? x + 240) && (Z.land (x + 240) 0x0f =? x) &&
  negb (Z.land (x + 240) 0x80 =? 0) && negb (Z.land (x + 240) 0x20 =? 0) &&
  negb (Z.land (x + 240) 0x10 =? 0) = true.
Proof. intros H. by_values 8 x. Qed.

Lemma ascii_byte x : 0 <= x < 128 -> (Z.land x 0x80 =? 0) = true.
Proof. intros H. by_values 128 x. Qed.

Tactic Notation "byte_facts" constr(lem) constr(x) "as" simple_intropattern(p) :=
  let H := fresh in
  assert (H := lem x ltac:(first [assumption | div_lia]));
  rewrite ?andb_true_iff, ?negb_true_iff in H; revert H; rewrite ?Z.eqb_eq; intros p.

(** Shifts and masks of the encoder as division and remainder. *)
Lemma shr x k : 0 <= k -> x ≫ k = x / 2 ^ k.
Proof. apply Z.shiftr_div_pow2. Qed.

Lemma shl x k : 0 <= k -> x ≪ k = x * 2 ^ k.
Proof. apply Z.shiftl_mul_pow2. Qed.

(** Joining a payload with [k] lower bits. *)
Lemma join_low a b k : 0 <= k -> 0 <= b < 2 ^ k -> Z.lor (a ≪ k) b = a * 2 ^ k + b.
Proof. intros. rewrite Z.lor_comm, lor_low_shiftl by done. lia. Qed.

Lemma two_byte_code a b : 0 <= b < 64 -> Z.lor (a ≪ 6) b = a * 64 + b.
Proof. intros. by apply (join_low a b 6). Qed.

Lemma three_byte_code a b c :
  0 <= b < 64 -> 0 <= c < 64 -> Z.lor (Z.lor (a ≪ 12) (b ≪ 6)) c = a * 4096 + b * 64 + c.
Proof.
  intros. change 12 with (6 + 6). rewrite <- Z.shiftl_shiftl by lia.
  rewrite <- Z.shiftl_lor, two_byte_code by done. rewrite two_byte_code by done. lia.
Qed.

Lemma four_byte_code a b c d :
  0 <= b < 64 -> 0 <= c < 64 -> 0 <= d < 64 ->
  Z.lor (Z.lor (Z.lor (a ≪ 18) (b ≪ 12)) (c ≪ 6)) d = a * 262144 + b * 4096 + c * 64 + d.
Proof.
  intros. change 18 with (12 + 6). change (b ≪ 12) with (b ≪ (6 + 6)).
  rewrite <- !Z.shiftl_shiftl by lia. rewrite <- !Z.shiftl_lor, three_byte_code by done.
  rewrite two_byte_code by done. lia.
Qed.

(** The surrogate pair of a supplementary code point. *)
Lemma pair_code p :
  0x10000 <= p < 0x110000 ->
  Z.lor (Z.lor 0 (Z.land ((p ≫ 10) + 0xd7c0) 0xffff))
        (u32 ((Z.land p 0x03ff + 0xdc00) ≪ 16)) =
  (p / 1024 + 0xd7c0) + (p mod 1024 + 0xdc00) * 0x10000.
Proof.
  intros Hp. rewrite Z.lor_0_l, shr by lia.
  change 0xffff with (Z.ones 16). change 0x03ff with (Z.ones 10).
  rewrite !Z.land_ones by lia. change (2 ^ 10) with 1024. change (2 ^ 16) with 65536.
  rewrite (Z.mod_small (p / 1024 + _)) by div_lia.
  unfold u. rewrite shl by lia. rewrite Z.mod_small by (reduce_pow; div_lia).
  rewrite (lor_low_mul _ _ 16) by (reduce_pow; div_lia). reduce_pow. lia.
Qed.

Lemma get_unit c rest :
  is_u16 c -> GetUtf16FromUtf8 (EncodeUnit c ++ rest) = Some (c, rest).
Proof.
  unfold is_u16, EncodeUnit. intros Hc. rewrite !shr, !land_63 by lia. reduce_pow.
  destruct (Z.ltb_spec 0 c), (Z.leb_spec c 0x7f), (Z.ltb_spec 0x7ff c); cbn [andb]; try lia.
  1: cbn; by rewrite ascii_byte by lia.
  all: match goal with
  | |- context [Z.lor _ 0xe0] =>
      byte_facts lead3_byte (c / 4096) as [[[[-> A1] A2] A3] A4];
      byte_facts cont_byte (c / 64 mod 64) as [-> B1];
      byte_facts cont_byte (c mod 64) as [-> C1];
      unfold GetUtf16FromUtf8; cbn [app read_u8 mbind option_bind];
      rewrite A1, A2, A3, A4, B1, C1; cbn [Z.eqb]; rewrite three_byte_code by div_lia
  | |- _ =>
      byte_facts lead2_byte (c / 64) as [[[-> A1] A2] A3];
      byte_facts cont_byte (c mod 64) as [-> B1];
      unfold GetUtf16FromUtf8; cbn [app read_u8 mbind option_bind];
      rewrite A1, A2, A3, B1; cbn [Z.eqb]; rewrite two_byte_code by div_lia
  end; do 2 f_equal; div_lia.
Qed.

Lemma get_pair a b rest :
  is_lead a = true -> is_trail b = true ->
  GetUtf16FromUtf8 (EncodePair a b ++ rest) = Some (a + b * 0x10000, rest).
Proof.
  unfold is_lead, is_trail. rewrite !andb_true_iff, !Z.leb_le. intros Ha Hb.
  unfold EncodePair. rewrite shl by lia. reduce_pow.
  rewrite (u_small 32) by (unfold is_u; reduce_pow; lia). set (p := a * 1024 + b - 0x35fdc00).
  assert (Hp : 0x10000 <= p < 0x110000) by (subst p; lia).
  rewrite !shr, !land_63 by lia. reduce_pow.
  byte_facts lead4_byte (p / 262144) as [[[[-> A1] A2] A3] A4].
  byte_facts cont_byte (p / 4096 mod 64) as [-> B1].
  byte_facts cont_byte (p / 64 mod 64) as [-> C1].
  byte_facts cont_byte (p mod 64) as [-> D1].
  unfold GetUtf16FromUtf8; cbn [app read_u8 mbind option_bind].
  rewrite A1, A2, A3, A4, B1, C1, D1. cbv zeta. rewrite four_byte_code by div_lia.
  replace (_ + p mod 64) with p by div_lia.
  rewrite pair_code by done. do 2 f_equal. subst p. div_lia.
Qed.

Lemma get_symbol x rest :
  wf_symbol x -> GetUtf16FromUtf8 (enc_symbol x ++ rest) = Some (symbol_code x, rest).
Proof.
  destruct x as [a b]. unfold wf_symbol, enc_symbol, symbol_code. cbn [fst snd].
  intros [Ha [->|[Hl Ht]]]; [cbn [Z.eqb]; rewrite Z.mul_0_l, Z.add_0_r; by apply get_unit|].
  case_Zcmp; [subst; done|]. by apply get_pair.
Qed.

(** ** Encoded strings *)

Definition is_char (b : Z) : Prop := 0 < b < 256.

(** The bytes of a symbol, by length: none is NUL, and the bits of the first one tell how
    many follow. *)
Lemma unit_shape c :
  is_u16 c ->
  exists b t, EncodeUnit c = b :: t /\ Forall is_char (b :: t) /\
    if decide (length t = 0)%nat then Z.land b 0x80 = 0
    else Z.land b 0x80 <> 0 /\
         (if decide (length t = 1)%nat then Z.land b 0x20 = 0
          else length t = 2%nat /\ Z.land b 0x20 <> 0 /\ Z.land b 0x10 = 0).
Proof.
  unfold is_u16, EncodeUnit. intros Hc. rewrite !shr, !land_63 by lia. reduce_pow.
  destruct (Z.ltb_spec 0 c), (Z.leb_spec c 0x7f), (Z.ltb_spec 0x7ff c); cbn [andb]; try lia.
  1: { eexists _, []. split_all; [done| |].
       - repeat constructor; unfold is_char; lia.
       - cbn. pose proof (ascii_byte c ltac:(lia)) as E. by apply Z.eqb_eq in E. }
  1: { byte_facts lead3_byte (c / 4096) as [[[[-> _] A2] A3] A4].
       byte_facts cont_byte (c / 64 mod 64) as [-> _].
       byte_facts cont_byte (c mod 64) as [-> _].
       eexists _, [_; _]. cbn. apply Z.eqb_neq in A2, A3. split_all; try done.
       repeat constructor; unfold is_char; div_lia. }
  all: byte_facts lead2_byte (c / 64) as [[[-> _] A2] A3];
       byte_facts cont_byte (c mod 64) as [-> _];
       eexists _, [_]; cbn; apply Z.eqb_neq in A2; split_all; try done;
       repeat constructor; unfold is_char; div_lia.
Qed.

Lemma pair_shape a b :
  is_lead a = true -> is_trail b = true ->
  exists x y z w, EncodePair a b = [x; y; z; w] /\ Forall is_char [x; y; z; w] /\
    Z.land x 0x80 <> 0 /\ Z.land x 0x20 <> 0 /\ Z.land x 0x10 <> 0.
Proof.
  unfold is_lead, is_trail. rewrite !andb_true_iff, !Z.leb_le. intros Ha Hb.
  unfold EncodePair. rewrite shl by lia. reduce_pow.
  rewrite (u_small 32) by (unfold is_u; reduce_pow; lia). set (p := a * 1024 + b - 0x35fdc00).
  assert (Hp : 0x10000 <= p < 0x110000) by (subst p; lia).
  rewrite !shr, !land_63 by lia. reduce_pow.
  byte_facts lead4_byte (p / 262144) as [[[[-> _] A2] A3] A4].
  byte_facts cont_byte (p / 4096 mod 64) as [-> _].
  byte_facts cont_byte (p / 64 mod 64) as [-> _].
  byte_facts cont_byte (p mod 64) as [-> _].
  apply Z.eqb_neq in A2, A3, A4.
  eexists _, _, _, _. split_all; try done. repeat constructor; unfold is_char; div_lia.
Qed.

Lemma enc_symbol_head x :
  wf_symbol x ->
  exists b t, enc_symbol x = b :: t /\ (b =? 0) = false /\ Forall is_char (b :: t).
Proof.
  destruct x as [a b]. unfold wf_symbol, enc_symbol; cbn [fst snd].
  intros [Ha Hb]. case_Zcmp.
  - destruct (unit_shape a Ha) as (c & t & -> & H & _). exists c, t. split_all; try done.
    inversion H as [|?? Hc]; subst. unfold is_char in Hc. case_Zcmp; lia.
  - destruct Hb as [?|[Hl Ht]]; [lia|].
    destruct (pair_shape a b Hl Ht) as (x & y & z & w & -> & H & _).
    exists x, [y; z; w]. split_all; try done.
    inversion H as [|?? Hc]; subst. unfold is_char in Hc. case_Zcmp; lia.
Qed.

Lemma c_str_cons x l rest : c_str (x :: l) rest = enc_symbol x ++ c_str l rest.
Proof. unfold c_str. cbn. by rewrite <- (assoc_L (++)). Qed.

Lemma c_str_length l rest :
  Forall wf_symbol l -> (length l < length (c_str l rest))%nat.
Proof.
  induction 1 as [|x l Hx Hl IH]; [cbn; lia|].
  rewrite c_str_cons, length_app.
  destruct (enc_symbol_head x Hx) as (b & t & -> & _). cbn. lia.
Qed.

(** Reading the first byte of a nonempty string does not find the terminator. *)
Lemma read_symbol x l rest :
  wf_symbol x ->
  exists b t, c_str (x :: l) rest = b :: t /\ (b =? 0) = false /\
    GetUtf16FromUtf8 (c_str (x :: l) rest) = Some (symbol_code x, c_str l rest).
Proof.
  intros Hx. destruct (enc_symbol_head x Hx) as (b & t & E & Hb & _).
  rewrite c_str_cons. exists b, (t ++ c_str l rest). rewrite get_symbol by done.
  by rewrite E.
Qed.

Lemma symbol_code_parts x :
  wf_symbol x ->
  GetLeadingUtf16Char (symbol_code x) = fst x /\ GetTrailingUtf16Char (symbol_code x) = snd x.
Proof.
  destruct x as [a b]. unfold wf_symbol, is_u16, is_trail, symbol_code,
    GetLeadingUtf16Char, GetTrailingUtf16Char; cbn [fst snd].
  rewrite !andb_true_iff, !Z.leb_le. intros [Ha Hb].
  change 0xffff with (Z.ones 16). rewrite Z.land_ones, shr by lia. unfold u. reduce_pow.
  rewrite Zmod_mod. split; div_lia.
Qed.

(** ** The loops on encoded strings *)

Lemma convert_back fuel l rest :
  Forall wf_symbol l -> (length l < fuel)%nat ->
  ConvertToUtf16Loop fuel (c_str l rest) = Some (concat (symbol_units <$> l)).
Proof.
  intros Hl. revert fuel. induction Hl as [|x l Hx Hl IH]; intros [|fuel] Hf; cbn in Hf; try lia.
  - done.
  - cbn [ConvertToUtf16Loop]. destruct (read_symbol x l rest Hx) as (b & t & E & Hb & G).
    rewrite G, E. cbn [read_u8 mbind option_bind]. rewrite Hb, IH by lia. cbn [mbind option_bind].
    destruct (symbol_code_parts x Hx) as [-> ->]. cbn. do 2 f_equal.
    unfold symbol_units. by destruct (snd x =? 0).
Qed.

Ltac count_tail IH :=
  cbn [Z.eqb advance mbind option_bind app]; rewrite IH by lia; f_equal; lia.

Lemma count_loop fuel l rest len :
  Forall wf_symbol l -> (length l < fuel)%nat ->
  CountCharsLoop fuel (c_str l rest) len
    = Some (len + Z.of_nat (length (concat (symbol_units <$> l)))).
Proof.
  intros Hl. revert fuel len.
  induction Hl as [|x l Hx Hl IH]; intros [|fuel] len Hf; cbn in Hf; try lia.
  - cbn. f_equal. lia.
  - assert (L : length (symbol_units x) = if snd x =? 0 then 1%nat else 2%nat)
      by (unfold symbol_units; by case_Zcmp).
    cbn [CountCharsLoop fmap list_fmap concat]. rewrite c_str_cons, length_app, L.
    destruct x as [a b], Hx as [Ha Hb]. unfold enc_symbol. cbn [fst snd] in *.
    destruct (Z.eqb_spec b 0) as [->|Nb].
    + destruct (unit_shape a Ha) as (c & t & -> & Hc & Hs).
      inversion Hc as [|?? Hc0]; subst. unfold is_char in Hc0.
      cbn [app read_u8 mbind option_bind]. destruct (Z.eqb_spec c 0); [lia|].
      destruct t as [|t1 [|t2 [|t3 t]]]; cbn in Hs.
      * rewrite Hs. count_tail IH.
      * destruct Hs as [H1 H2]. apply Z.eqb_neq in H1. rewrite H1, H2. count_tail IH.
      * destruct Hs as (H1 & _ & H2 & H3). apply Z.eqb_neq in H1, H2.
        rewrite H1, H2, H3. count_tail IH.
      * by destruct Hs as (_ & ? & _).
    + destruct Hb as [?|[Hlead Htrail]]; [lia|].
      destruct (pair_shape a b Hlead Htrail) as (x & y & z & w & -> & Hc & H1 & H2 & H3).
      inversion Hc as [|?? Hc0]; subst. unfold is_char in Hc0. apply Z.eqb_neq in H1, H2, H3.
      cbn [app read_u8 mbind option_bind]. destruct (Z.eqb_spec x 0); [lia|].
      rewrite H1, H2, H3. count_tail IH.
Qed.

(** *** Comparison *)

(** Lexicographic order of code units. *)
Fixpoint lex (a b : list Z) : comparison :=
  match a, b with
  | [], [] => Eq
  | [], _ => Lt
  | _, [] => Gt
  | x :: a, y :: b => match x ?= y with Eq => lex a b | c => c end
  end.

(** A symbol that is not an unpaired leading surrogate. *)
Definition paired (x : Symbol) : bool := negb ((snd x =? 0) && is_lead (fst x)).

Lemma lex_step x a b : lex (x :: a) (x :: b) = lex a b.
Proof. cbn. by rewrite Z.compare_refl. Qed.

Lemma lex_neq x y a b : x <> y -> lex (x :: a) (y :: b) = (x ?= y).
Proof. intros H. cbn. destruct (Z.compare_spec x y); done. Qed.

Lemma lex_Eq a b : lex a b = Eq <-> a = b.
Proof.
  revert b. induction a as [|x a IH]; intros [|y b]; cbn; try (by split).
  destruct (Z.compare_spec x y); rewrite ?IH; split; intros E; simplify_eq; done || lia.
Qed.

(** [lex] is a strict total order. *)
Lemma lex_below a b c : lex a b = Lt -> lex c b <> Lt -> lex c a = Gt.
Proof.
  revert b c. induction a as [|x a IH]; intros [|y b] [|z c]; cbn; try done.
  destruct (Z.compare_spec x y), (Z.compare_spec z y), (Z.compare_spec z x);
    try done; try lia; eauto.
Qed.

Lemma lex_above a b c : lex a b = Lt -> lex c a <> Gt -> lex c b = Lt.
Proof.
  revert b c. induction a as [|x a IH]; intros [|y b] [|z c]; cbn; try done.
  destruct (Z.compare_spec x y), (Z.compare_spec z y), (Z.compare_spec z x);
    try done; try lia; eauto.
Qed.

Lemma compare_sub x y : (x - y ?= 0) = (x ?= y).
Proof. symmetry. apply Z.compare_sub. Qed.

Lemma symbol_code_inj x y :
  wf_symbol x -> wf_symbol y -> symbol_code x = symbol_code y -> x = y.
Proof.
  intros Hx Hy E. destruct (symbol_code_parts x Hx) as [A B].
  destruct (symbol_code_parts y Hy) as [C D]. rewrite E in A, B.
  destruct x, y; cbn in *. congruence.
Qed.

Lemma symbol_units_head x : exists t, symbol_units x = fst x :: t /\
  t = if snd x =? 0 then [] else [snd x].
Proof. unfold symbol_units. case_Zcmp; eauto. Qed.

Lemma lead_diff a b :
  is_u16 a -> is_u16 b -> s32 (u32 (a - b)) = a - b /\ (u32 (a - b) =? 0) = (a =? b).
Proof.
  unfold is_u16. intros Ha Hb. split; [word_lia|].
  assert (u32 (a - b) = 0 -> a = b) by (word_unfold; div_lia).
  assert (a = b -> u32 (a - b) = 0) by (word_unfold; div_lia).
  repeat case_Zcmp; done || (exfalso; lia).
Qed.

(** Symbols with the same first unit are both pairs or both single units. *)
Definition comparable (x y : Symbol) : Prop := fst x = fst y -> (snd x = 0 <-> snd y = 0).

Lemma paired_comparable x y :
  wf_symbol x -> wf_symbol y -> paired x = true -> paired y = true -> comparable x y.
Proof.
  destruct x as [a c], y as [a' c']. unfold wf_symbol, paired, comparable. cbn [fst snd].
  intros [_ Hc] [_ Hc'] Px Py <-.
  destruct (Z.eqb_spec c 0) as [->|], (Z.eqb_spec c' 0) as [->|]; cbn [negb andb] in *; try (split; lia).
  - destruct Hc' as [?|[? _]]; [done|]. by destruct (is_lead a).
  - destruct Hc as [?|[? _]]; [done|]. by destruct (is_lead a).
Qed.

Lemma compare_modified fuel l1 l2 r1 r2 :
  Forall wf_symbol l1 -> Forall wf_symbol l2 ->
  Forall (fun x => Forall (comparable x) l2) l1 ->
  (length l1 < fuel)%nat ->
  exists r, CompareModifiedLoop fuel (c_str l1 r1) (c_str l2 r2) = Some r /\
    (r ?= 0) = lex (concat (symbol_units <$> l1)) (concat (symbol_units <$> l2)).
Proof.
  intros H1. revert fuel l2.
  induction H1 as [|x l1 Hx H1 IH]; intros [|fuel] l2 H2 HC Hf; cbn in Hf; try lia;
    destruct l2 as [|y l2]; cbn [CompareModifiedLoop].
  - by eexists.
  - inversion H2; subst. destruct (read_symbol y l2 r2) as (b & t & -> & Hb & _); [done|].
    exists (-1). cbn. rewrite Hb. split; [done|].
    by destruct (symbol_units_head y) as (? & -> & _).
  - destruct (read_symbol x l1 r1) as (b & t & -> & Hb & _); [done|].
    exists 1. cbn. rewrite Hb. split; [done|].
    by destruct (symbol_units_head x) as (? & -> & _).
  - inversion H2 as [|?? Hy H2']; subst. inversion HC as [|?? HCx HC']; subst.
    inversion HCx as [|?? Hxy _]; subst.
    assert (HCt : Forall (fun x => Forall (comparable x) l2) l1).
    { eapply Forall_impl; [exact HC'|]. cbn beta. intros z Hz. by inversion Hz. }
    destruct (read_symbol x l1 r1 Hx) as (b & t & E & Hb & ->).
    destruct (read_symbol y l2 r2 Hy) as (b' & t' & E' & Hb' & ->).
    rewrite E, E'. cbn [read_u8 mbind option_bind]. rewrite Hb, Hb'.
    destruct (Z.eqb_spec (symbol_code x) (symbol_code y)) as [Ec|Nc].
    + apply symbol_code_inj in Ec as ->; [|done..].
      destruct (IH fuel l2 H2' HCt ltac:(lia)) as (r & -> & Hr). exists r. split; [done|].
      rewrite Hr. cbn [fmap list_fmap concat].
      induction (symbol_units y) as [|u us IHu]; [done|]. cbn [app]. by rewrite lex_step.
    + destruct (symbol_code_parts x Hx) as [-> ->], (symbol_code_parts y Hy) as [-> ->].
      destruct x as [a c], y as [a' c'], Hx as [Ha Hc], Hy as [Ha' Hc'].
      cbn [fst snd] in *. cbv zeta. destruct (lead_diff a a' Ha Ha') as [-> ->].
      destruct (Z.eqb_spec a a') as [->|Na]; cbn [negb]; eexists; (split; [done|]);
        rewrite compare_sub; cbn [fmap list_fmap concat]; unfold symbol_units, comparable in *;
        cbn [fst snd] in *.
      * unfold symbol_code in Nc. cbn [fst snd] in Nc. specialize (Hxy eq_refl).
        destruct (Z.eqb_spec c 0) as [->|]; destruct (Z.eqb_spec c' 0) as [->|];
          cbn [negb andb app] in *; try lia.
        rewrite lex_step, lex_neq by lia. done.
      * rewrite <- (lex_neq a a' (if c =? 0 then [] else [c]) (if c' =? 0 then [] else [c'])) by done.
        destruct (c =? 0), (c' =? 0); cbn [app]; by rewrite !lex_neq by done.
Qed.

Lemma cmp_lt_gt lhs rhs : lhs <> rhs -> ((if rhs <? lhs then 1 else -1) ?= 0) = (lhs ?= rhs).
Proof. intros H. case_Zcmp; destruct (Z.compare_spec lhs rhs); done || lia. Qed.

Lemma compare_utf16 fuel l utf16 rest :
  Forall wf_symbol l -> (length l < fuel)%nat ->
  exists r, CompareUtf16Loop fuel (c_str l rest) utf16 = Some r /\
    (r ?= 0) = lex (concat (symbol_units <$> l)) utf16.
Proof.
  intros Hl. revert fuel utf16.
  induction Hl as [|x l Hx Hl IH]; intros [|fuel] utf16 Hf; cbn in Hf; try lia;
    cbn [CompareUtf16Loop].
  - cbn. destruct utf16; by eexists.
  - destruct (read_symbol x l rest Hx) as (b & t & E & Hb & ->).
    rewrite E. cbn [read_u8 mbind option_bind]. rewrite Hb. cbn [fmap list_fmap concat].
    destruct (symbol_code_parts x Hx) as [-> ->]. unfold symbol_units at 1.
    destruct utf16 as [|rhs utf16]; [exists 1; by destruct (snd x =? 0)|].
    destruct (Z.eqb_spec (fst x) rhs) as [<-|Hne]; cbn [negb].
    2:{ eexists. split; [done|]. rewrite cmp_lt_gt by done.
        destruct (snd x =? 0); cbn [app]; by rewrite lex_neq. }
    destruct (snd x =? 0) eqn:Hs; cbn [negb app]; rewrite lex_step; [apply IH; lia|].
    destruct utf16 as [|rhs2 utf16]; [by exists 1|].
    destruct (Z.eqb_spec (snd x) rhs2) as [<-|Hne]; cbn [negb].
    + rewrite lex_step. apply IH. lia.
    + eexists. split; [done|]. by rewrite cmp_lt_gt, lex_neq.
Qed.

Lemma length_EncodePair a b : length (EncodePair a b) = 4%nat.
Proof. done. Qed.

Lemma count_bytes_cons2 a b l :
  CountUtf8Bytes (a :: b :: l) =
  if (0 <? a) && (a <=? 0x7f) then 1 + CountUtf8Bytes (b :: l)
  else if is_lead a then
    if is_trail b then 4 + CountUtf8Bytes l else 3 + CountUtf8Bytes (b :: l)
  else if 0x7ff <? a then 3 + CountUtf8Bytes (b :: l) else 2 + CountUtf8Bytes (b :: l).
Proof. done. Qed.

Lemma length_unit a :
  Z.of_nat (length (EncodeUnit a)) =
  if (0 <? a) && (a <=? 0x7f) then 1 else if is_lead a then 3
  else if 0x7ff <? a then 3 else 2.
Proof. unfold EncodeUnit, is_lead. repeat case_Zcmp; cbn; done || lia. Qed.

Lemma length_enc_symbol x :
  Z.of_nat (length (enc_symbol x)) =
  if snd x =? 0 then Z.of_nat (length (EncodeUnit (fst x))) else 4.
Proof. unfold enc_symbol. by destruct (snd x =? 0). Qed.

Lemma trail_not_0 b : is_trail b = true -> (b =? 0) = false.
Proof. unfold is_trail. repeat case_Zcmp; cbn; done || lia. Qed.

Lemma count_bytes chars :
  CountUtf8Bytes chars = Z.of_nat (length (ConvertUtf16ToModifiedUtf8 chars)).
Proof.
  rewrite convert_symbols.
  induction chars as [|a|a b l IH1 IH2] using symbols_ind; [done|..].
  - cbn [symbols fmap list_fmap concat]. rewrite app_nil_r, length_enc_symbol.
    cbn [fst snd Z.eqb]. rewrite length_unit. cbn.
    destruct ((0 <? a) && (a <=? 127)), (is_lead a), (2047 <? a); done.
  - rewrite count_bytes_cons2, symbols_cons2, IH1, IH2.
    destruct ((0 <? a) && (a <=? 127)) eqn:E;
      [rewrite (ascii_not_lead a E)|destruct (is_lead a) eqn:El, (is_trail b) eqn:Et];
      cbn [andb fmap list_fmap concat]; rewrite length_app, Nat2Z.inj_add, length_enc_symbol;
      cbn [fst snd Z.eqb]; rewrite ?(trail_not_0 b Et); rewrite ?length_unit, ?E, ?El;
      repeat case_match; lia.
Qed.

(** *** Hashes *)

(** The polynomial Java's [String.hashCode] computes. *)
Fixpoint hash_poly (chars : list Z) (acc : Z) : Z :=
  match chars with [] => acc | c :: chars => hash_poly chars (acc * 31 + c) end.

Lemma hash_poly_mod m chars a b :
  a mod m = b mod m -> hash_poly chars a mod m = hash_poly chars b mod m.
Proof.
  revert a b. induction chars as [|c l IH]; intros a b H; [done|].
  cbn. apply IH. rewrite Zplus_mod, (Zmult_mod a), H, <- Zmult_mod, <- Zplus_mod. done.
Qed.

Lemma utf16_hash_poly chars acc :
  u32 (Utf16HashLoop chars acc) = u32 (hash_poly chars acc).
Proof.
  revert acc. induction chars as [|c l IH]; intros acc; [done|]. cbn [Utf16HashLoop hash_poly].
  rewrite IH. unfold u. apply hash_poly_mod. by rewrite Zmod_mod.
Qed.

Lemma utf8_hash_poly sg chars rest acc :
  Forall (fun c => 0 < c < 128) chars ->
  exists h, ModifiedUtf8HashLoop sg (chars ++ 0 :: rest) acc = Some h /\
    u64 h = u64 (hash_poly chars acc).
Proof.
  intros H. revert acc. induction H as [|c l Hc H IH]; intros acc; [by eexists|].
  cbn [app ModifiedUtf8HashLoop hash_poly]. destruct (Z.eqb_spec c 0); [lia|].
  assert (E : char_value sg c = c) by (destruct sg; [|done]; cbn; word_lia).
  rewrite E. destruct (IH (u64 (acc * 31 + c))) as (h & -> & Hh). exists h. split; [done|].
  rewrite Hh. unfold u. apply hash_poly_mod. by rewrite Zmod_mod.
Qed.

Lemma u64_u32 x y : u64 x = u64 y -> u32 x = u32 y.
Proof.
  assert (M : forall z, z mod 2 ^ 32 = (z mod 2 ^ 64) mod 2 ^ 32)
    by (intros z; symmetry; apply Z.mod_mod_divide; by exists (2 ^ 32)).
  unfold u. intros H. by rewrite (M x), (M y), H.
Qed.

(** *** The two comparisons on encoded strings *)
Lemma compare_encoded a b r1 r2 :
  Forall is_u16 a -> Forall is_u16 b ->
  forallb paired (symbols a) = true -> forallb paired (symbols b) = true ->
  exists r, CompareModifiedUtf8ToModifiedUtf8AsUtf16CodePointValues
              (ConvertUtf16ToModifiedUtf8 a ++ 0 :: r1)
              (ConvertUtf16ToModifiedUtf8 b ++ 0 :: r2) = Some r /\ (r ?= 0) = lex a b.
Proof.
  intros Ha Hb Pa Pb. pose proof (symbols_wf a Ha) as Wa. pose proof (symbols_wf b Hb) as Wb.
  rewrite forallb_forall in Pa, Pb. rewrite !convert_symbols.
  destruct (compare_modified (length (c_str (symbols a) r1)) (symbols a) (symbols b) r1 r2)
    as (r & E & Hr); try done; [|by apply c_str_length|].
  - rewrite List.Forall_forall in *. intros x Hx. rewrite List.Forall_forall in *. intros y Hy.
    apply paired_comparable; auto.
  - exists r. by rewrite !symbols_flat in Hr.
Qed.

Lemma compare_encoded_utf16 a b rest :
  Forall is_u16 a ->
  exists r, CompareModifiedUtf8ToUtf16AsCodePointValues
              (ConvertUtf16ToModifiedUtf8 a ++ 0 :: rest) b = Some r /\ (r ?= 0) = lex a b.
Proof.
  intros Ha. pose proof (symbols_wf a Ha) as Wa. rewrite convert_symbols.
  destruct (compare_utf16 (length (c_str (symbols a) rest)) (symbols a) b rest) as (r & E & Hr);
    [done|by apply c_str_length|]. exists r. by rewrite symbols_flat in Hr.
Qed.

(** ** Properties *)

(** C36: encoding any UTF-16 string as modified UTF-8 writes exactly [CountUtf8Bytes] bytes,
    none of them NUL, and from the NUL-terminated result [CountModifiedUtf8Chars] finds the
    number of code units and [ConvertModifiedUtf8ToUtf16] gets the string back, whatever
    follows the terminator: surrogate pairs, unpaired surrogates and U+0000 included. *)
Theorem utf8_roundtrip (chars rest : list Z) (Hc : Forall is_u16 chars) :
  let enc := ConvertUtf16ToModifiedUtf8 chars in
  Z.of_nat (length enc) = CountUtf8Bytes chars /\
  Forall is_char enc /\
  CountModifiedUtf8Chars (enc ++ 0 :: rest) = Some (Z.of_nat (length chars)) /\
  ConvertModifiedUtf8ToUtf16 (enc ++ 0 :: rest) = Some chars.
Proof.
  cbv zeta. rewrite count_bytes. pose proof (symbols_wf chars Hc) as Hw.
  split_all; [done|..]; rewrite convert_symbols.
  - apply Forall_concat, Forall_fmap. eapply Forall_impl; [exact Hw|]. intros x Hx.
    destruct (enc_symbol_head x Hx) as (b & t & E & _ & H). cbn. by rewrite E.
  - unfold CountModifiedUtf8Chars. change (concat _ ++ 0 :: rest) with (c_str (symbols chars) rest).
    rewrite count_loop by auto using c_str_length. by rewrite symbols_flat.
  - unfold ConvertModifiedUtf8ToUtf16.
    change (concat _ ++ 0 :: rest) with (c_str (symbols chars) rest).
    rewrite convert_back by auto using c_str_length. by rewrite symbols_flat.
Qed.

Definition sample_utf16 : list Z := [0x48; 0; 0x7ff; 0x4f60; 0xd83d; 0xde00; 0xd800; 0x41].

Lemma sample_utf16_units : Forall is_u16 sample_utf16.
Proof. repeat constructor; vm_compute; done. Qed.

Lemma utf8_roundtrip_witness :
  let enc := ConvertUtf16ToModifiedUtf8 sample_utf16 in
  Z.of_nat (length enc) = CountUtf8Bytes sample_utf16 /\
  Forall is_char enc /\
  CountModifiedUtf8Chars (enc ++ [0]) = Some 8 /\
  ConvertModifiedUtf8ToUtf16 (enc ++ [0]) = Some sample_utf16.
Proof. apply (utf8_roundtrip sample_utf16 []), sample_utf16_units. Defined.

(** The two comparisons of encoded strings terminate and have the sign of the
    lexicographic comparison of the UTF-16 strings; the comparison of two modified UTF-8
    strings needs both to be free of unpaired leading surrogates, the comparison with a
    UTF-16 string does not. *)
Theorem utf8_compare (a b r1 r2 : list Z) (Ha : Forall is_u16 a) (Hb : Forall is_u16 b) :
  (exists r, CompareModifiedUtf8ToUtf16AsCodePointValues
               (ConvertUtf16ToModifiedUtf8 a ++ 0 :: r1) b = Some r /\ (r ?= 0) = lex a b) /\
  (forallb paired (symbols a) = true -> forallb paired (symbols b) = true ->
   exists r, CompareModifiedUtf8ToModifiedUtf8AsUtf16CodePointValues
               (ConvertUtf16ToModifiedUtf8 a ++ 0 :: r1)
               (ConvertUtf16ToModifiedUtf8 b ++ 0 :: r2) = Some r /\ (r ?= 0) = lex a b).
Proof. split; [by apply compare_encoded_utf16|by apply compare_encoded]. Qed.

Lemma utf8_compare_witness :
  (exists r, CompareModifiedUtf8ToUtf16AsCodePointValues
               (ConvertUtf16ToModifiedUtf8 [0x41; 0xd83d; 0xde00] ++ [0]) [0x41; 0xd83d; 0xde01]
             = Some r /\ (r ?= 0) = lex [0x41; 0xd83d; 0xde00] [0x41; 0xd83d; 0xde01]) /\
  (forallb paired (symbols [0x41; 0xd83d; 0xde00]) = true ->
   forallb paired (symbols [0x41; 0xd83d; 0xde01]) = true ->
   exists r, CompareModifiedUtf8ToModifiedUtf8AsUtf16CodePointValues
               (ConvertUtf16ToModifiedUtf8 [0x41; 0xd83d; 0xde00] ++ [0])
               (ConvertUtf16ToModifiedUtf8 [0x41; 0xd83d; 0xde01] ++ [0]) = Some r /\
             (r ?= 0) = lex [0x41; 0xd83d; 0xde00] [0x41; 0xd83d; 0xde01]).
Proof.
  apply (utf8_compare [0x41; 0xd83d; 0xde00] [0x41; 0xd83d; 0xde01] [] []);
    repeat constructor; vm_compute; done.
Defined.

(** With an unpaired leading surrogate the two comparisons disagree: the modified UTF-8 one
    takes the missing trailing unit for 0. *)
Lemma compare_unpaired_surrogate :
  let a := [0xd800; 0xe000] in let b := [0xd800; 0xdc00] in
  lex a b = Gt /\
  CompareModifiedUtf8ToUtf16AsCodePointValues (ConvertUtf16ToModifiedUtf8 a ++ [0]) b = Some 1 /\
  CompareModifiedUtf8ToModifiedUtf8AsUtf16CodePointValues
    (ConvertUtf16ToModifiedUtf8 a ++ [0]) (ConvertUtf16ToModifiedUtf8 b ++ [0]) = Some (-0xdc00).
Proof. by vm_compute. Qed.

(** Both string hashes are Java's polynomial hash in wrap-around arithmetic, so on ASCII
    strings they agree, [ComputeModifiedUtf8Hash] being the [int32_t] hash sign-extended to
    [size_t], whatever the signedness of [char]. *)
Theorem utf_hashes (char_signed : bool) (chars rest : list Z)
    (Hc : Forall (fun c => 0 < c < 128) chars) :
  ComputeUtf16Hash chars = s32 (hash_poly chars 0) /\
  ComputeModifiedUtf8Hash char_signed (chars ++ 0 :: rest)
    = Some (u64 (ComputeUtf16Hash chars)).
Proof.
  assert (E : ComputeUtf16Hash chars = s32 (hash_poly chars 0))
    by (apply u_eq_s_eq; [done|apply utf16_hash_poly]).
  split; [done|]. unfold ComputeModifiedUtf8Hash.
  destruct (utf8_hash_poly char_signed chars rest 0 Hc) as (h & -> & Hh). cbn.
  rewrite E. do 2 f_equal. apply u_eq_s_eq; [done|]. by apply u64_u32.
Qed.

Lemma utf_hashes_witness :
  ComputeUtf16Hash [104; 101; 108; 108; 111] = s32 (hash_poly [104; 101; 108; 108; 111] 0) /\
  ComputeModifiedUtf8Hash true [104; 101; 108; 108; 111; 0]
    = Some (u64 (ComputeUtf16Hash [104; 101; 108; 108; 111])).
Proof. apply (utf_hashes true [104; 101; 108; 108; 111] []). repeat constructor; lia. Defined.
