(* ===== verification/DexFile.v ===== *)
(** The dex file reader ([dex_file.{h,cc}], [dex_file-inl.h]): header, index tables, strings
    and the searches over the sorted tables.

    A [DexFile] is the mapped file as a list of bytes ([begin_], whose length is [size_])
    and its decoded header.  A [const StringId*], [const TypeId*], ... into a table is the
    index of the entry.  [None] is a read outside the mapped file. *)
From S2P Require Import Prelude Leb128 Utf.
Local Open Scope Z_scope.

Definition kDexNoIndex : Z := 0xFFFFFFFF.
Definition kDexNoIndex16 : Z := 0xFFFF.
Definition kDexMagic : list Z := [0x64; 0x65; 0x78; 0x0a].
Definition kDexMagicVersion : list Z := [0x30; 0x33; 0x35; 0x00].

(** ** Raw structures *)

Record Header := {
  magic_ : list Z;
  checksum_ : Z;
  signature_ : list Z;
  file_size_ : Z;
  header_size_ : Z;
  endian_tag_ : Z;
  link_size_ : Z;
  link_off_ : Z;
  map_off_ : Z;
  string_ids_size_ : Z;
  string_ids_off_ : Z;
  type_ids_size_ : Z;
  type_ids_off_ : Z;
  proto_ids_size_ : Z;
  proto_ids_off_ : Z;
  field_ids_size_ : Z;
  field_ids_off_ : Z;
  method_ids_size_ : Z;
  method_ids_off_ : Z;
  class_defs_size_ : Z;
  class_defs_off_ : Z;
  data_size_ : Z;
  data_off_ : Z;
}.

Record FieldId := { f_class_idx_ : Z; f_type_idx_ : Z; f_name_idx_ : Z }.
Record MethodId := { m_class_idx_ : Z; m_proto_idx_ : Z; m_name_idx_ : Z }.
Record ProtoId := { shorty_idx_ : Z; return_type_idx_ : Z; parameters_off_ : Z }.

Record ClassDef := {
  class_idx_ : Z;
  access_flags_ : Z;
  superclass_idx_ : Z;
  interfaces_off_ : Z;
  source_file_idx_ : Z;
  annotations_off_ : Z;
  class_data_off_ : Z;
  static_values_off_ : Z;
}.

(** A little-endian field [n] bytes wide. *)
Definition rd (n : nat) (off : Z) (data : list Z) : option Z :=
  if (0 <=? off) && (off + Z.of_nat n <=? Z.of_nat (length data))
  then Some (get_le n off data) else None.

(** The header at [base]; the offsets are those of the C structure. *)
Definition ReadHeader (base : list Z) : option Header :=
  if 0x70 <=? Z.of_nat (length base) then
    let w off := get_le 4 off base in
    Some {| magic_ := load 0 8 base; checksum_ := w 8; signature_ := load 12 20 base;
            file_size_ := w 32; header_size_ := w 36; endian_tag_ := w 40;
            link_size_ := w 44; link_off_ := w 48; map_off_ := w 52;
            string_ids_size_ := w 56; string_ids_off_ := w 60;
            type_ids_size_ := w 64; type_ids_off_ := w 68;
            proto_ids_size_ := w 72; proto_ids_off_ := w 76;
            field_ids_size_ := w 80; field_ids_off_ := w 84;
            method_ids_size_ := w 88; method_ids_off_ := w 92;
            class_defs_size_ := w 96; class_defs_off_ := w 100;
            data_size_ := w 104; data_off_ := w 108 |}
  else None.

Record DexFile := { begin_ : list Z; header_ : Header }.

Definition Size (df : DexFile) : Z := Z.of_nat (length (begin_ df)).

(** The constructor, with its [CHECK_GT(size_, 0U)]. *)
Definition MakeDexFile (base : list Z) : option DexFile :=
  h ← ReadHeader base;
  if 0 <? Z.of_nat (length base) then Some {| begin_ := base; header_ := h |} else None.

(** [memcmp(magic, kDexMagic, 4) == 0], and of the four bytes after it. *)
Definition IsMagicValid (magic : list Z) : bool := bool_decide (take 4 magic = kDexMagic).
Definition IsVersionValid (magic : list Z) : bool :=
  bool_decide (take 4 (drop 4 magic) = kDexMagicVersion).
Definition CheckMagicAndVersion (df : DexFile) : bool :=
  if negb (IsMagicValid (magic_ (header_ df))) then false
  else if negb (IsVersionValid (magic_ (header_ df))) then false
  else true.

(** ** Tables *)

Definition NumStringIds (df : DexFile) : Z := string_ids_size_ (header_ df).
Definition NumTypeIds (df : DexFile) : Z := type_ids_size_ (header_ df).
Definition NumFieldIds (df : DexFile) : Z := field_ids_size_ (header_ df).
Definition NumMethodIds (df : DexFile) : Z := method_ids_size_ (header_ df).
Definition NumProtoIds (df : DexFile) : Z := proto_ids_size_ (header_ df).
Definition NumClassDefs (df : DexFile) : Z := class_defs_size_ (header_ df).

(** The [string_data_off_] of a [StringId] and the [descriptor_idx_] of a [TypeId]. *)
Definition GetStringId (df : DexFile) (idx : Z) : option Z :=
  rd 4 (string_ids_off_ (header_ df) + 4 * idx) (begin_ df).
Definition GetTypeId (df : DexFile) (idx : Z) : option Z :=
  rd 4 (type_ids_off_ (header_ df) + 4 * idx) (begin_ df).

Definition GetFieldId (df : DexFile) (idx : Z) : option FieldId :=
  let off := field_ids_off_ (header_ df) + 8 * idx in
  c ← rd 2 off (begin_ df);
  t ← rd 2 (off + 2) (begin_ df);
  n ← rd 4 (off + 4) (begin_ df);
  Some {| f_class_idx_ := c; f_type_idx_ := t; f_name_idx_ := n |}.

Definition GetMethodId (df : DexFile) (idx : Z) : option MethodId :=
  let off := method_ids_off_ (header_ df) + 8 * idx in
  c ← rd 2 off (begin_ df);
  p ← rd 2 (off + 2) (begin_ df);
  n ← rd 4 (off + 4) (begin_ df);
  Some {| m_class_idx_ := c; m_proto_idx_ := p; m_name_idx_ := n |}.

Definition GetProtoId (df : DexFile) (idx : Z) : option ProtoId :=
  let off := proto_ids_off_ (header_ df) + 12 * idx in
  s ← rd 4 off (begin_ df);
  r ← rd 2 (off + 4) (begin_ df);
  p ← rd 4 (off + 8) (begin_ df);
  Some {| shorty_idx_ := s; return_type_idx_ := r; parameters_off_ := p |}.

(** The address of [class_defs_[idx]], relative to [begin_]; [idx] is a [uint16_t]. *)
Definition ClassDefOffset (df : DexFile) (idx : Z) : Z :=
  class_defs_off_ (header_ df) + 32 * u16 idx.

Definition GetClassDef (df : DexFile) (idx : Z) : option ClassDef :=
  let off := ClassDefOffset df idx in
  let b := begin_ df in
  a0 ← rd 2 off b; a1 ← rd 4 (off + 4) b; a2 ← rd 2 (off + 8) b; a3 ← rd 4 (off + 12) b;
  a4 ← rd 4 (off + 16) b; a5 ← rd 4 (off + 20) b; a6 ← rd 4 (off + 24) b;
  a7 ← rd 4 (off + 28) b;
  Some {| class_idx_ := a0; access_flags_ := a1; superclass_idx_ := a2;
          interfaces_off_ := a3; source_file_idx_ := a4; annotations_off_ := a5;
          class_data_off_ := a6; static_values_off_ := a7 |}.

(** ** Strings *)

(** The string data of a [StringId]: the length in UTF-16 units, and the C string. *)
Definition GetStringDataAndUtf16Length (df : DexFile) (string_data_off : Z)
    : option (Z * list Z) :=
  DecodeUnsignedLeb128 (drop (Z.to_nat string_data_off) (begin_ df)).

Definition GetStringLength (df : DexFile) (string_data_off : Z) : option Z :=
  '(n, _) ← GetStringDataAndUtf16Length df string_data_off; Some n.

Definition GetStringData (df : DexFile) (string_data_off : Z) : option (list Z) :=
  '(_, p) ← GetStringDataAndUtf16Length df string_data_off; Some p.

(** The inner [None] is [nullptr]. *)
Definition StringDataByIdx (df : DexFile) (idx : Z) : option (option (list Z)) :=
  if idx =? kDexNoIndex then Some None
  else
    id ← GetStringId df idx;
    p ← GetStringData df id;
    Some (Some p).

Definition StringByTypeIdx (df : DexFile) (idx : Z) : option (option (list Z)) :=
  descriptor_idx ← GetTypeId df idx; StringDataByIdx df descriptor_idx.

Definition GetTypeDescriptor (df : DexFile) (descriptor_idx : Z) :=
  StringDataByIdx df descriptor_idx.

Definition GetFieldDeclaringClassDescriptor (df : DexFile) (f : FieldId) :=
  type_id ← GetTypeId df (f_class_idx_ f); GetTypeDescriptor df type_id.
Definition GetFieldTypeDescriptor (df : DexFile) (f : FieldId) :=
  type_id ← GetTypeId df (f_type_idx_ f); GetTypeDescriptor df type_id.
Definition GetFieldName (df : DexFile) (f : FieldId) := StringDataByIdx df (f_name_idx_ f).
Definition GetMethodDeclaringClassDescriptor (df : DexFile) (m : MethodId) :=
  type_id ← GetTypeId df (m_class_idx_ m); GetTypeDescriptor df type_id.
Definition GetMethodName (df : DexFile) (m : MethodId) := StringDataByIdx df (m_name_idx_ m).
Definition GetMethodShorty (df : DexFile) (m : MethodId) :=
  p ← GetProtoId df (m_proto_idx_ m); StringDataByIdx df (shorty_idx_ p).
Definition GetClassDescriptor (df : DexFile) (c : ClassDef) := StringByTypeIdx df (class_idx_ c).
Definition GetReturnTypeDescriptor (df : DexFile) (p : ProtoId) :=
  StringByTypeIdx df (return_type_idx_ p).

(** Offsets from [begin_] that are 0 stand for [nullptr]. *)
Definition ptr_or_null (off : Z) : option Z := if off =? 0 then None else Some off.
Definition GetClassData (c : ClassDef) : option Z := ptr_or_null (class_data_off_ c).
Definition GetCodeItem (code_off : Z) : option Z := ptr_or_null code_off.
Definition GetInterfacesList (c : ClassDef) : option Z := ptr_or_null (interfaces_off_ c).
Definition GetProtoParameters (p : ProtoId) : option Z := ptr_or_null (parameters_off_ p).
Definition GetEncodedStaticFieldValuesArray (c : ClassDef) : option Z :=
  ptr_or_null (static_values_off_ c).

(** ** [DexFileParameterIterator] *)

Record ParameterIterator := { type_list_ : option Z; size_ : Z; pos_ : Z }.

Definition MakeParameterIterator (df : DexFile) (p : ProtoId) : option ParameterIterator :=
  match GetProtoParameters p with
  | Some list_ =>
      n ← rd 4 list_ (begin_ df);
      Some {| type_list_ := Some list_; size_ := n; pos_ := 0 |}
  | None => Some {| type_list_ := None; size_ := 0; pos_ := 0 |}
  end.

Definition HasNextParameter (it : ParameterIterator) : bool := pos_ it <? size_ it.
Definition NextParameter (it : ParameterIterator) : ParameterIterator :=
  {| type_list_ := type_list_ it; size_ := size_ it; pos_ := u32 (pos_ it + 1) |}.
Definition GetTypeIdx (df : DexFile) (it : ParameterIterator) : option Z :=
  list_ ← type_list_ it; rd 2 (list_ + 4 + 2 * pos_ it) (begin_ df).

(** ** Binary searches

    [FindFieldId], [FindMethodId], [FindStringId], [FindTypeId] and [FindProtoId] are the
    same loop around different three-way comparisons of the key with the entry at [mid]:
    a positive result moves [lo], a negative one moves [hi].  Every iteration shrinks the
    range, so the size of the table and one more is enough fuel. *)
Fixpoint BinarySearch (fuel : nat) (compare : Z -> option Z) (lo hi : Z)
    : option (option Z) :=
  match fuel with
  | O => None
  | S fuel =>
      if lo <=? hi then
        let mid := Z.quot (s32 (hi + lo)) 2 in
        c ← compare mid;
        if 0 <? c then BinarySearch fuel compare (mid + 1) hi
        else if c <? 0 then BinarySearch fuel compare lo (mid - 1)
        else Some (Some mid)
      else Some None
  end.

Definition Search (n : Z) (compare : Z -> option Z) : option (option Z) :=
  BinarySearch (S (Z.to_nat n)) compare 0 (s32 (n - 1)).

(** [if (a > b) lo = ..; else if (a < b) hi = ..; else next] *)
Definition three_way (a b next : Z) : Z :=
  if b <? a then 1 else if a <? b then -1 else next.

(** The first argument of the next two is the index of the [TypeId] of the declaring class;
    [GetIndexForTypeId] returns a [uint16_t]. *)
Definition FindFieldId (df : DexFile) (declaring_klass name type_ : Z) : option (option Z) :=
  let class_idx := u16 declaring_klass in
  let name_idx := name in
  let type_idx := u16 type_ in
  Search (NumFieldIds df) (fun mid =>
    field ← GetFieldId df mid;
    Some (three_way class_idx (f_class_idx_ field)
           (three_way name_idx (f_name_idx_ field)
             (three_way type_idx (f_type_idx_ field) 0)))).

Definition FindMethodId (df : DexFile) (declaring_klass name signature : Z)
    : option (option Z) :=
  let class_idx := u16 declaring_klass in
  let name_idx := name in
  let proto_idx := u16 signature in
  Search (NumMethodIds df) (fun mid =>
    method ← GetMethodId df mid;
    Some (three_way class_idx (m_class_idx_ method)
           (three_way name_idx (m_name_idx_ method)
             (three_way proto_idx (m_proto_idx_ method) 0)))).

Definition FindStringId (df : DexFile) (string : list Z) : option (option Z) :=
  Search (NumStringIds df) (fun mid =>
    str_id ← GetStringId df mid;
    str ← GetStringData df str_id;
    CompareModifiedUtf8ToModifiedUtf8AsUtf16CodePointValues string str).

(** The overload that takes a UTF-16 string compares the entry with the string, and not the
    string with the entry, but moves the bounds the same way. *)
Definition FindStringIdUtf16 (df : DexFile) (string : list Z) : option (option Z) :=
  Search (NumStringIds df) (fun mid =>
    str_id ← GetStringId df mid;
    str ← GetStringData df str_id;
    CompareModifiedUtf8ToUtf16AsCodePointValues str string).

Definition FindTypeId (df : DexFile) (string_idx : Z) : option (option Z) :=
  Search (NumTypeIds df) (fun mid =>
    type_id ← GetTypeId df mid;
    Some (three_way string_idx type_id 0)).

(** [while (it.HasNext() && i < signature_length && compare == 0)]; [sig] is the rest of the
    signature. *)
Fixpoint CompareParameters (df : DexFile) (it : ParameterIterator) (sig : list Z)
    (compare : Z) : option (Z * ParameterIterator * list Z) :=
  if HasNextParameter it && (compare =? 0) then
    match sig with
    | [] => Some (compare, it, sig)
    | x :: sig =>
        t ← GetTypeIdx df it;
        CompareParameters df (NextParameter it) sig (x - t)
    end
  else Some (compare, it, sig).

Definition FindProtoId (df : DexFile) (return_type_idx : Z) (signature_type_idxs : list Z)
    : option (option Z) :=
  Search (NumProtoIds df) (fun mid =>
    proto ← GetProtoId df mid;
    let compare := return_type_idx - return_type_idx_ proto in
    if compare =? 0 then
      it ← MakeParameterIterator df proto;
      '(compare, it, rest) ← CompareParameters df it signature_type_idxs compare;
      if compare =? 0 then
        if HasNextParameter it then Some (-1)
        else Some (match rest with [] => compare | _ => 1 end)
      else Some compare
    else Some compare).

(** The linear search for a class by type index: [k] entries from [i] on are left. *)
Fixpoint FindClassDefLoop (df : DexFile) (type_idx : Z) (k : nat) (i : Z)
    : option (option Z) :=
  match k with
  | O => Some None
  | S k =>
      c ← GetClassDef df i;
      if class_idx_ c =? type_idx then Some (Some i)
      else FindClassDefLoop df type_idx k (i + 1)
  end.

Definition FindClassDef (df : DexFile) (type_idx : Z) : option (option Z) :=
  FindClassDefLoop df type_idx (Z.to_nat (NumClassDefs df)) 0.

(** ** The searches find exactly the entries that compare equal *)

(** [f] is the comparison of the key with the entries of a strictly sorted table. *)
Definition sorted_for (n : Z) (f : Z -> Z) : Prop :=
  forall i j, 0 <= i < j -> j < n -> (0 <= f j -> 0 < f i) /\ (f i <= 0 -> f j < 0).

Lemma mid_between lo hi :
  0 <= lo <= hi -> hi < 2 ^ 30 -> lo <= Z.quot (s32 (hi + lo)) 2 <= hi.
Proof.
  intros H Hh. rewrite s_small by (unfold is_s; reduce_pow; lia).
  rewrite Z.quot_div_nonneg by lia. div_lia.
Qed.

Lemma binary_search_spec n f compare fuel lo hi :
  n <= 2 ^ 30 -> sorted_for n f ->
  (forall i, 0 <= i < n -> compare i = Some (f i)) ->
  0 <= lo -> hi < n -> Z.max 0 (hi - lo + 1) < Z.of_nat fuel ->
  exists r, BinarySearch fuel compare lo hi = Some r /\
    match r with
    | Some i => lo <= i <= hi /\ f i = 0
    | None => forall i, lo <= i <= hi -> f i <> 0
    end.
Proof.
  intros Hn Hs Hc. revert lo hi.
  induction fuel as [|fuel IH]; intros lo hi Hlo Hhi Hfuel; [lia|]. cbn [BinarySearch].
  case_Zcmp; [|exists None; split; [done|]; lia].
  assert (Hmid := mid_between lo hi ltac:(lia) ltac:(lia)).
  set (mid := Z.quot (s32 (hi + lo)) 2) in *. cbv zeta.
  rewrite Hc by lia. cbn [mbind option_bind].
  destruct (Z.ltb_spec 0 (f mid)) as [Hpos|Hnpos]; [|destruct (Z.ltb_spec (f mid) 0)].
  - destruct (IH (mid + 1) hi) as (r & -> & Hr); [lia..|]. exists r. split; [done|].
    destruct r as [i|]; [split; [lia|tauto]|]. intros i Hi.
    destruct (Z.le_gt_cases i mid) as [Hle|]; [|apply Hr; lia].
    destruct (Z.eq_dec i mid) as [->|]; [lia|].
    destruct (Hs i mid) as [H1 _]; [lia..|]. pose proof (H1 ltac:(lia)). lia.
  - destruct (IH lo (mid - 1)) as (r & -> & Hr); [lia..|]. exists r. split; [done|].
    destruct r as [i|]; [split; [lia|tauto]|]. intros i Hi.
    destruct (Z.le_gt_cases mid i) as [Hle|]; [|apply Hr; lia].
    destruct (Z.eq_dec i mid) as [->|]; [lia|].
    destruct (Hs mid i) as [_ H1]; [lia..|]. pose proof (H1 ltac:(lia)). lia.
  - exists (Some mid). split; [done|]. lia.
Qed.

Lemma search_spec n f compare :
  0 <= n <= 2 ^ 30 -> sorted_for n f ->
  (forall i, 0 <= i < n -> compare i = Some (f i)) ->
  exists r, Search n compare = Some r /\
    forall i, r = Some i <-> 0 <= i < n /\ f i = 0.
Proof.
  intros Hn Hs Hc. unfold Search.
  rewrite s_small by (unfold is_s; reduce_pow; lia).
  destruct (binary_search_spec n f compare (S (Z.to_nat n)) 0 (n - 1)) as (r & E & Hr);
    try done; try lia.
  exists r. split; [done|]. intros i. split.
  - intros ->. destruct Hr as [Hb H0]. split; [lia|done].
  - intros [Hb H0]. destruct r as [j|].
    + destruct Hr as [Hj Hj0]. f_equal. destruct (Z.lt_trichotomy i j) as [Hlt|[->|Hgt]]; [|done|].
      * destruct (Hs i j) as [H1 _]; [lia..|]. lia.
      * destruct (Hs j i) as [H1 _]; [lia..|]. lia.
    + exfalso. apply (Hr i); [lia|done].
Qed.

Definition cmp_triple (a b : Z * Z * Z) : Z :=
  three_way (fst (fst a)) (fst (fst b))
    (three_way (snd (fst a)) (snd (fst b)) (three_way (snd a) (snd b) 0)).

Lemma cmp_triple_pos a b c : cmp_triple a b < 0 -> 0 <= cmp_triple c b -> 0 < cmp_triple c a.
Proof. unfold cmp_triple, three_way. repeat case_Zcmp; lia. Qed.

Lemma cmp_triple_neg a b c : cmp_triple a b < 0 -> cmp_triple c a <= 0 -> cmp_triple c b < 0.
Proof. unfold cmp_triple, three_way. repeat case_Zcmp; lia. Qed.

Lemma cmp_triple_0 a b : cmp_triple a b = 0 <-> a = b.
Proof.
  destruct a as [[a1 a2] a3], b as [[b1 b2] b3].
  unfold cmp_triple, three_way; cbn [fst snd]. repeat case_Zcmp; split; intros ?;
    simplify_eq; try lia. repeat f_equal; lia.
Qed.

Definition field_key (f : FieldId) : Z * Z * Z := (f_class_idx_ f, f_name_idx_ f, f_type_idx_ f).
Definition method_key (m : MethodId) : Z * Z * Z := (m_class_idx_ m, m_name_idx_ m, m_proto_idx_ m).

(** A table of [n] entries, strictly sorted by their keys. *)
Definition sorted_table {A K} (n : Z) (key : A -> K) (lt : K -> K -> Prop)
    (entries : list A) : Prop :=
  n = Z.of_nat (length entries) /\ n <= 2 ^ 30 /\
  (forall i j a b, (i < j)%nat -> entries !! i = Some a -> entries !! j = Some b ->
     lt (key a) (key b)).

(** Searching a sorted table with a comparison whose sign is that of [cmp]. *)
Lemma table_search {A K} n (key : A -> K) lt entries (cmp : K -> K -> Z) k compare :
  sorted_table n key lt entries ->
  (forall a b, lt a b -> cmp a b < 0) ->
  (forall a b c, cmp a b < 0 -> 0 <= cmp c b -> 0 < cmp c a) ->
  (forall a b c, cmp a b < 0 -> cmp c a <= 0 -> cmp c b < 0) ->
  (forall i e, entries !! i = Some e ->
     exists c, compare (Z.of_nat i) = Some c /\ Z.sgn c = Z.sgn (cmp k (key e))) ->
  exists r, Search n compare = Some r /\
    forall i, r = Some (Z.of_nat i) <-> exists e, entries !! i = Some e /\ cmp k (key e) = 0.
Proof.
  intros (Hn & Hle & Hlt) Hcl H1 H2 Hc.
  set (f := fun i : Z => default (-1) (compare i)).
  assert (Hf : forall i e, entries !! i = Some e ->
            compare (Z.of_nat i) = Some (f (Z.of_nat i)) /\
            Z.sgn (f (Z.of_nat i)) = Z.sgn (cmp k (key e))).
  { intros i e He. destruct (Hc i e He) as (c & E & Hs). unfold f. by rewrite E. }
  destruct (search_spec n f compare) as (r & E & Hr).
  - lia.
  - intros i j Hij Hj. rewrite <- (Z2Nat.id i), <- (Z2Nat.id j) by lia.
    destruct (lookup_lt_is_Some_2 entries (Z.to_nat i)) as [a Ha]; [lia|].
    destruct (lookup_lt_is_Some_2 entries (Z.to_nat j)) as [b Hb]; [lia|].
    destruct (Hf _ _ Ha) as [_ Sa], (Hf _ _ Hb) as [_ Sb].
    specialize (Hcl _ _ (Hlt (Z.to_nat i) (Z.to_nat j) a b ltac:(lia) Ha Hb)).
    split; intros; [specialize (H1 _ _ k Hcl)|specialize (H2 _ _ k Hcl)]; lia.
  - intros i Hi. destruct (lookup_lt_is_Some_2 entries (Z.to_nat i)) as [a Ha]; [lia|].
    rewrite <- (Z2Nat.id i) by lia. by apply (Hf _ a).
  - exists r. split; [done|]. intros i. rewrite Hr. split.
    + intros [Hi H0]. destruct (lookup_lt_is_Some_2 entries i) as [a Ha]; [lia|].
      destruct (Hf _ _ Ha) as [_ Sa]. exists a. split; [done|]. lia.
    + intros (e & He & H0). destruct (Hf _ _ He) as [_ Sa].
      apply lookup_lt_Some in He. split; lia.
Qed.

(** *** Strings *)

(** The string table of a file: entry [i] is the encoding of the UTF-16 string [i]. *)
Definition string_table (df : DexFile) (strings : list (list Z)) : Prop :=
  sorted_table (NumStringIds df) id (fun a b => lex a b = Lt) strings /\
  (forall i str, strings !! i = Some str ->
     Forall is_u16 str /\ forallb paired (symbols str) = true /\
     exists off rest, GetStringId df (Z.of_nat i) = Some off /\
       GetStringData df off = Some (ConvertUtf16ToModifiedUtf8 str ++ 0 :: rest)).

Definition lex_sign (a b : list Z) : Z :=
  match lex a b with Lt => -1 | Eq => 0 | Gt => 1 end.

Lemma lex_sign_pos a b c : lex_sign a b < 0 -> 0 <= lex_sign c b -> 0 < lex_sign c a.
Proof.
  unfold lex_sign. destruct (lex a b) eqn:E; try lia. intros _ H.
  rewrite (lex_below a b c E); [lia|]. intros E'. rewrite E' in H. lia.
Qed.

Lemma lex_sign_neg a b c : lex_sign a b < 0 -> lex_sign c a <= 0 -> lex_sign c b < 0.
Proof.
  unfold lex_sign. destruct (lex a b) eqn:E; try lia. intros _ H.
  rewrite (lex_above a b c E); [lia|]. intros E'. rewrite E' in H. lia.
Qed.

Lemma lex_sign_sgn r a b : (r ?= 0) = lex a b -> Z.sgn r = Z.sgn (lex_sign a b).
Proof. unfold lex_sign. destruct (Z.compare_spec r 0); intros <-; lia. Qed.

Lemma lex_sign_0 a b : lex_sign a b = 0 <-> a = b.
Proof. rewrite <- lex_Eq. unfold lex_sign. by destruct (lex a b). Qed.


(** Searching for an encoded string. *)
Lemma find_string df strings s r :
  string_table df strings -> Forall is_u16 s -> forallb paired (symbols s) = true ->
  exists res, FindStringId df (ConvertUtf16ToModifiedUtf8 s ++ 0 :: r) = Some res /\
    forall i, res = Some (Z.of_nat i) <-> strings !! i = Some s.
Proof.
  intros [Hs Hstr] Hu Hp. unfold FindStringId.
  destruct (table_search _ _ _ _ lex_sign s (fun mid =>
      str_id ← GetStringId df mid;
      str ← GetStringData df str_id;
      CompareModifiedUtf8ToModifiedUtf8AsUtf16CodePointValues
        (ConvertUtf16ToModifiedUtf8 s ++ 0 :: r) str) Hs) as (res & E & Hres);
    eauto using lex_sign_pos, lex_sign_neg.
  - intros a b Hab. unfold lex_sign. rewrite Hab. lia.
  - intros i e He. destruct (Hstr i e He) as (Ue & Pe & off & rest & -> & Hd).
    cbn [mbind option_bind]. rewrite Hd. cbn [mbind option_bind].
    destruct (compare_encoded s e r rest) as (c & -> & Hc); try done.
    exists c. split; [done|]. by apply lex_sign_sgn.
  - exists res. split; [done|]. intros i. rewrite Hres. split.
    + intros (e & He & H0). by apply lex_sign_0 in H0 as ->.
    + intros He. exists s. by rewrite lex_sign_0.
Qed.

(** *** Identifiers *)

Definition type_table (df : DexFile) (types : list Z) : Prop :=
  sorted_table (NumTypeIds df) id Z.lt types /\
  (forall i t, types !! i = Some t -> GetTypeId df (Z.of_nat i) = Some t).

Definition field_table (df : DexFile) (fs : list FieldId) : Prop :=
  sorted_table (NumFieldIds df) field_key (fun a b => cmp_triple a b < 0) fs /\
  (forall i f, fs !! i = Some f -> GetFieldId df (Z.of_nat i) = Some f).

Definition method_table (df : DexFile) (ms : list MethodId) : Prop :=
  sorted_table (NumMethodIds df) method_key (fun a b => cmp_triple a b < 0) ms /\
  (forall i m, ms !! i = Some m -> GetMethodId df (Z.of_nat i) = Some m).

Lemma find_type df types string_idx :
  type_table df types ->
  exists res, FindTypeId df string_idx = Some res /\
    forall i, res = Some (Z.of_nat i) <-> types !! i = Some string_idx.
Proof.
  intros [Hs Hget]. unfold FindTypeId.
  destruct (table_search _ _ _ _ (fun a b => three_way a b 0) string_idx (fun mid =>
      type_id ← GetTypeId df mid; Some (three_way string_idx type_id 0)) Hs)
    as (res & E & Hres); try (intros a b; intros; unfold three_way in *; repeat case_Zcmp; lia).
  - intros a b c. unfold three_way. repeat case_Zcmp; lia.
  - intros a b c. unfold three_way. repeat case_Zcmp; lia.
  - intros i e He. rewrite (Hget i e He). by eexists.
  - exists res. split; [done|]. intros i. rewrite Hres. split.
    + intros (e & He & H0). rewrite He. f_equal. revert H0. unfold three_way, id.
      repeat case_Zcmp; lia.
    + intros He. exists string_idx. split; [done|]. unfold three_way, id. repeat case_Zcmp; lia.
Qed.

(** [triple_search] is what the field and the method search share. *)
Lemma triple_search {A} n (key : A -> Z * Z * Z) entries get k :
  sorted_table n key (fun a b => cmp_triple a b < 0) entries ->
  (forall i e, entries !! i = Some e -> get (Z.of_nat i) = Some e) ->
  exists res, Search n (fun mid => e ← get mid; Some (cmp_triple k (key e))) = Some res /\
    forall i, res = Some (Z.of_nat i) <-> exists e, entries !! i = Some e /\ key e = k.
Proof.
  intros Hs Hget.
  destruct (table_search _ _ _ _ cmp_triple k (fun mid =>
      e ← get mid; Some (cmp_triple k (key e))) Hs) as (res & E & Hres);
    eauto using cmp_triple_pos, cmp_triple_neg.
  - intros i e He. rewrite (Hget i e He). by eexists.
  - exists res. split; [done|]. intros i. rewrite Hres.
    split; intros (e & He & H0); exists e; split; try done.
    + symmetry. by apply cmp_triple_0.
    + by apply cmp_triple_0.
Qed.

(** ** A small dex file

    Three strings, two types, two fields, two methods and no class, for the witnesses. *)
Definition sample_dex : list Z :=
  kDexMagic ++ kDexMagicVersion ++ le_bytes 4 0 ++ replicate 20 0 ++
  concat (le_bytes 4 <$>
    [193; 0x70; 0x12345678; 0; 0; 0;
     3; 112; 2; 124; 0; 0; 2; 132; 2; 148; 0; 0; 29; 164]) ++
  concat (le_bytes 4 <$> [164; 167; 170]) ++
  concat (le_bytes 4 <$> [1; 2]) ++
  (le_bytes 2 0 ++ le_bytes 2 1 ++ le_bytes 4 0) ++
  (le_bytes 2 0 ++ le_bytes 2 1 ++ le_bytes 4 2) ++
  (le_bytes 2 0 ++ le_bytes 2 0 ++ le_bytes 4 1) ++
  (le_bytes 2 1 ++ le_bytes 2 0 ++ le_bytes 4 1) ++
  [1; 65; 0] ++ [1; 66; 0] ++ [1; 67; 0] ++ replicate 20 0.

Definition sample_df : DexFile := default {| begin_ := []; header_ :=
  {| magic_ := []; checksum_ := 0; signature_ := []; file_size_ := 0; header_size_ := 0;
     endian_tag_ := 0; link_size_ := 0; link_off_ := 0; map_off_ := 0;
     string_ids_size_ := 0; string_ids_off_ := 0; type_ids_size_ := 0; type_ids_off_ := 0;
     proto_ids_size_ := 0; proto_ids_off_ := 0; field_ids_size_ := 0; field_ids_off_ := 0;
     method_ids_size_ := 0; method_ids_off_ := 0; class_defs_size_ := 0;
     class_defs_off_ := 0; data_size_ := 0; data_off_ := 0 |} |} (MakeDexFile sample_dex).

Example sample_df_valid : CheckMagicAndVersion sample_df = true /\ Size sample_df = 193.
Proof. by vm_compute. Qed.

Definition sample_strings : list (list Z) := [[65]; [66]; [67]].
Definition sample_fields : list FieldId :=
  [{| f_class_idx_ := 0; f_type_idx_ := 1; f_name_idx_ := 0 |};
   {| f_class_idx_ := 0; f_type_idx_ := 1; f_name_idx_ := 2 |}].
Definition sample_methods : list MethodId :=
  [{| m_class_idx_ := 0; m_proto_idx_ := 0; m_name_idx_ := 1 |};
   {| m_class_idx_ := 1; m_proto_idx_ := 0; m_name_idx_ := 1 |}].

Lemma sample_string_table : string_table sample_df sample_strings.
Proof.
  split; [unfold sorted_table; split_all; [done..|]|].
  - intros [|[|[|i]]] [|[|[|j]]] a b Hij Ha Hb; try lia; try done;
      by injection Ha as <-; injection Hb as <-.
  - intros [|[|[|i]]] str H; try done; injection H as <-.
    all: split; [repeat constructor; lia|split; [done|]].
    + exists 164, ([1; 66; 0; 1; 67; 0] ++ replicate 20 0). by vm_compute.
    + exists 167, ([1; 67; 0] ++ replicate 20 0). by vm_compute.
    + exists 170, (replicate 20 0). by vm_compute.
Qed.

(** Tables of two entries. *)
Lemma sorted_pair {A K} n (key : A -> K) lt x y :
  n = 2 -> lt (key x) (key y) -> sorted_table n key lt [x; y].
Proof.
  intros -> H. unfold sorted_table. split_all; [done..|].
  intros [|[|i]] [|[|j]] a b Hij Ha Hb; try lia; try done. by injection Ha as <-; injection Hb as <-.
Qed.

Lemma get_pair_table {A} (get : Z -> option A) x y :
  get 0 = Some x -> get 1 = Some y -> forall i e, [x; y] !! i = Some e -> get (Z.of_nat i) = Some e.
Proof. intros Hx Hy [|[|i]] e H; try done; by injection H as <-. Qed.

Lemma sample_tables :
  type_table sample_df [1; 2] /\ field_table sample_df sample_fields /\
  method_table sample_df sample_methods.
Proof.
  split_all; (split; [by apply sorted_pair|by apply get_pair_table]).
Qed.

(** ** Properties *)

(** [FindStringId] is correct: in a dex file whose string table is strictly sorted by
    UTF-16 code units (and has no unpaired leading surrogate), looking up the encoding of a
    string terminates, reads nothing outside the file, and returns the index of that string
    if and only if it is in the table. *)
Theorem find_string_id (df : DexFile) (strings : list (list Z)) (str r : list Z)
    (Ht : string_table df strings) (Hu : Forall is_u16 str)
    (Hp : forallb paired (symbols str) = true) :
  exists res, FindStringId df (ConvertUtf16ToModifiedUtf8 str ++ 0 :: r) = Some res /\
    forall i, res = Some (Z.of_nat i) <-> strings !! i = Some str.
Proof. by apply find_string. Qed.

Lemma find_string_id_witness :
  exists res, FindStringId sample_df (ConvertUtf16ToModifiedUtf8 [67] ++ [0]) = Some res /\
    forall i, res = Some (Z.of_nat i) <-> sample_strings !! i = Some [67].
Proof.
  apply (find_string_id sample_df sample_strings [67] []);
    [exact sample_string_table|repeat constructor; lia|done].
Defined.

(** The searches for types, fields and methods are correct: in tables sorted strictly by
    descriptor index, by (class, name, type) and by (class, name, prototype), each search
    terminates and finds the index of the entry with the given indices if and only if there
    is one. *)
Theorem find_ids (df : DexFile) (types : list Z) (fs : list FieldId) (ms : list MethodId)
    (a b c : Z) (Htypes : type_table df types) (Hf : field_table df fs)
    (Hm : method_table df ms) (Ha : is_u 16 a) (Hc : is_u 16 c) :
  (exists res, FindTypeId df b = Some res /\
     forall i, res = Some (Z.of_nat i) <-> types !! i = Some b) /\
  (exists res, FindFieldId df a b c = Some res /\
     forall i, res = Some (Z.of_nat i) <->
       fs !! i = Some {| f_class_idx_ := a; f_type_idx_ := c; f_name_idx_ := b |}) /\
  (exists res, FindMethodId df a b c = Some res /\
     forall i, res = Some (Z.of_nat i) <->
       ms !! i = Some {| m_class_idx_ := a; m_proto_idx_ := c; m_name_idx_ := b |}).
Proof.
  split_all; [by apply find_type| |].
  - unfold FindFieldId. rewrite !u_small by done.
    destruct (triple_search _ field_key fs (GetFieldId df) (a, b, c) (proj1 Hf) (proj2 Hf))
      as (res & E & Hr).
    exists res. split; [exact E|]. intros i. rewrite Hr. split.
    + intros ([] & -> & [= -> -> ->]). done.
    + intros ->. by eexists.
  - unfold FindMethodId. rewrite !u_small by done.
    destruct (triple_search _ method_key ms (GetMethodId df) (a, b, c) (proj1 Hm) (proj2 Hm))
      as (res & E & Hr).
    exists res. split; [exact E|]. intros i. rewrite Hr. split.
    + intros ([] & -> & [= -> -> ->]). done.
    + intros ->. by eexists.
Qed.

Lemma find_ids_witness :
  (exists res, FindTypeId sample_df 2 = Some res /\
     forall i, res = Some (Z.of_nat i) <-> [1; 2] !! i = Some 2) /\
  (exists res, FindFieldId sample_df 0 2 1 = Some res /\
     forall i, res = Some (Z.of_nat i) <->
       sample_fields !! i = Some {| f_class_idx_ := 0; f_type_idx_ := 1; f_name_idx_ := 2 |}) /\
  (exists res, FindMethodId sample_df 0 2 1 = Some res /\
     forall i, res = Some (Z.of_nat i) <->
       sample_methods !! i = Some {| m_class_idx_ := 0; m_proto_idx_ := 1; m_name_idx_ := 2 |}).
Proof.
  destruct sample_tables as (Ht & Hf & Hm).
  apply (find_ids sample_df [1; 2] sample_fields sample_methods 0 2 1 Ht Hf Hm);
    by vm_compute.
Defined.

(** *** The UTF-16 overload *)

Lemma search_all_positive fuel compare lo hi :
  hi < 2 ^ 30 -> 0 <= lo -> Z.max 0 (hi - lo + 1) < Z.of_nat fuel ->
  (forall i, lo <= i <= hi -> exists c, compare i = Some c /\ 0 < c) ->
  BinarySearch fuel compare lo hi = Some None.
Proof.
  intros Hhi. revert lo. induction fuel as [|fuel IH]; intros lo Hlo Hf Hc; [lia|].
  cbn [BinarySearch]. case_Zcmp; [|done].
  pose proof (mid_between lo hi ltac:(lia) Hhi) as Hm. cbv zeta.
  destruct (Hc (Z.quot (s32 (hi + lo)) 2) Hm) as (r & -> & Hr). cbn [mbind option_bind].
  case_Zcmp; [|lia]. apply IH; [lia..|]. intros i Hi. apply Hc. lia.
Qed.

(** The overload of [FindStringId] for UTF-16 strings moves its bounds the wrong way (it
    compares the entry with the key, not the key with the entry): in every sorted table of
    at least three strings it does not find the first one. *)
Theorem find_string_id_utf16_wrong_way (df : DexFile) (strings : list (list Z)) (str : list Z)
    (Ht : string_table df strings) (Hlen : (3 <= length strings)%nat)
    (H0 : strings !! 0%nat = Some str) :
  FindStringIdUtf16 df str = Some None.
Proof.
  destruct Ht as [(Hn & Hle & Hlt) Hstr]. unfold FindStringIdUtf16, Search.
  rewrite Hn in *. rewrite s_small by (unfold is_s; reduce_pow; lia).
  set (compare := fun mid => _).
  assert (Hc : forall i, 1 <= i <= Z.of_nat (length strings) - 1 ->
                 exists c, compare i = Some c /\ 0 < c).
  { intros i Hi. destruct (lookup_lt_is_Some_2 strings (Z.to_nat i)) as [e He]; [lia|].
    destruct (Hstr _ _ He) as (Ue & _ & off & rest & Hid & Hd).
    rewrite Z2Nat.id in Hid by lia. unfold compare. rewrite Hid. cbn [mbind option_bind].
    rewrite Hd. cbn [mbind option_bind].
    destruct (compare_encoded_utf16 e str rest Ue) as (c & -> & Hc). exists c. split; [done|].
    specialize (Hlt 0%nat (Z.to_nat i) str e ltac:(lia) H0 He). unfold id in Hlt.
    rewrite (lex_below str e e Hlt) in Hc; [by destruct (Z.compare_spec c 0)|].
    by rewrite (proj2 (lex_Eq e e)). }
  pose proof (mid_between 0 (Z.of_nat (length strings) - 1) ltac:(lia) ltac:(lia)) as Hm.
  assert (Hmid : 1 <= Z.quot (s32 (Z.of_nat (length strings) - 1 + 0)) 2).
  { rewrite s_small by (unfold is_s; reduce_pow; lia).
    rewrite Z.quot_div_nonneg by lia. div_lia. }
  cbn [BinarySearch]. case_Zcmp; [|lia]. cbv zeta.
  destruct (Hc _ (conj Hmid (proj2 Hm))) as (r & -> & Hr). cbn [mbind option_bind].
  case_Zcmp; [|lia]. apply search_all_positive; [lia..|]. intros i Hi. apply Hc. lia.
Qed.

Lemma find_string_id_utf16_wrong_way_witness : FindStringIdUtf16 sample_df [65] = Some None.
Proof.
  apply (find_string_id_utf16_wrong_way sample_df sample_strings [65]);
    [exact sample_string_table|cbn; lia|done].
Defined.
