(* ===== verification/DexBuilder.v ===== *)
(** The level 3 unpacker's output pass: [ArtMethod::DexBuilder] ([art_method.{h,cc}]).

    [build_dex] copies the loaded dex file into a fresh buffer of twice its size, appends the
    code items collected while classes were initialised, appends re-encoded class data
    items, and repairs the header, the class definitions and the magic.  A pointer into that
    buffer is its offset; a pointer into one of the builder's segments is its offset in the
    segment.  [None] is a store or copy outside the buffer. *)
From S2P Require Import Prelude Leb128 ClassData DexFile.
Import ClassData.Gerat.
Local Open Scope Z_scope.

(** ** Magic *)

Definition dex_magic : list Z := [0x64; 0x65; 0x78; 0x0a; 0x30; 0x33; 0x35; 0x00].

(** Stores of the eight bytes, one after the other. *)
Definition repair_Magic (dex_file_m : list Z) : option (list Z) :=
  b ← store 0 [0x64] dex_file_m;
  b ← store 1 [0x65] b;
  b ← store 2 [0x78] b;
  b ← store 3 [0x0a] b;
  b ← store 4 [0x30] b;
  b ← store 5 [0x33] b;
  b ← store 6 [0x35] b;
  store 7 [0x00] b.

(** The comparison short-circuits: a byte is read only if the ones before it match. *)
Definition check_and_repair_DEX_magic (dex_begin : list Z) : option (list Z) :=
  let fix differs (magic : list Z) (p : list Z) : option bool :=
    match magic with
    | [] => Some false
    | m :: magic =>
        '(b, p) ← read_u8 p;
        if negb (b =? m) then Some true else differs magic p
    end in
  d ← differs dex_magic dex_begin;
  if (d : bool) then repair_Magic dex_begin else Some dex_begin.

(** ** The builder *)

Record DexBuilder := {
  code_item_offset_map : gmap Z Z;
  class_data_offset_map : gmap Z Z;
  code_item_seg : list Z;
  class_data_item_seg : list Z;
  cur_code_item_offset : Z;
  cur_class_data_offset : Z;
  class_data_addr : Z;
  code_item_addr : Z;
  class_data_items : list ClassDataItemMem;
  begin : Z;
  dex_size : Z;
}.

(** [new DexBuilder()] *)
Definition new_DexBuilder : DexBuilder :=
  {| code_item_offset_map := ∅; class_data_offset_map := ∅; code_item_seg := [];
     class_data_item_seg := []; cur_code_item_offset := 0; cur_class_data_offset := 0;
     class_data_addr := 0; code_item_addr := 0; class_data_items := []; begin := 0;
     dex_size := 0 |}.

Definition init_segments (df : DexFile) (b : DexBuilder) : DexBuilder :=
  let seg_size := u32 (Size df) in
  let seg := replicate (Z.to_nat seg_size) 0 in
  {| code_item_offset_map := code_item_offset_map b;
     class_data_offset_map := class_data_offset_map b;
     code_item_seg := seg; class_data_item_seg := seg;
     cur_code_item_offset := 0; cur_class_data_offset := 0;
     class_data_addr := class_data_addr b; code_item_addr := code_item_addr b;
     class_data_items := class_data_items b; begin := begin b; dex_size := dex_size b |}.

Definition get_dex_max_seg_size (df : DexFile) : Z := u32 (Size df).

Definition build_ClassDataItem (b : DexBuilder) : DexBuilder := b.

Definition set_begin (p : Z) (b : DexBuilder) : DexBuilder :=
  {| code_item_offset_map := code_item_offset_map b;
     class_data_offset_map := class_data_offset_map b;
     code_item_seg := code_item_seg b; class_data_item_seg := class_data_item_seg b;
     cur_code_item_offset := cur_code_item_offset b;
     cur_class_data_offset := cur_class_data_offset b;
     class_data_addr := class_data_addr b; code_item_addr := code_item_addr b;
     class_data_items := class_data_items b; begin := p; dex_size := dex_size b |}.

Definition set_code_item_addr (p : Z) (b : DexBuilder) : DexBuilder :=
  {| code_item_offset_map := code_item_offset_map b;
     class_data_offset_map := class_data_offset_map b;
     code_item_seg := code_item_seg b; class_data_item_seg := class_data_item_seg b;
     cur_code_item_offset := cur_code_item_offset b;
     cur_class_data_offset := cur_class_data_offset b;
     class_data_addr := class_data_addr b; code_item_addr := p;
     class_data_items := class_data_items b; begin := begin b; dex_size := dex_size b |}.

Definition set_class_data (addr : Z) (items : list ClassDataItemMem) (offsets : gmap Z Z)
    (b : DexBuilder) : DexBuilder :=
  {| code_item_offset_map := code_item_offset_map b; class_data_offset_map := offsets;
     code_item_seg := code_item_seg b; class_data_item_seg := class_data_item_seg b;
     cur_code_item_offset := cur_code_item_offset b;
     cur_class_data_offset := cur_class_data_offset b;
     class_data_addr := addr; code_item_addr := code_item_addr b;
     class_data_items := items; begin := begin b; dex_size := dex_size b |}.

Definition set_dex_size (size : Z) (b : DexBuilder) : DexBuilder :=
  {| code_item_offset_map := code_item_offset_map b;
     class_data_offset_map := class_data_offset_map b;
     code_item_seg := code_item_seg b; class_data_item_seg := class_data_item_seg b;
     cur_code_item_offset := cur_code_item_offset b;
     cur_class_data_offset := cur_class_data_offset b;
     class_data_addr := class_data_addr b; code_item_addr := code_item_addr b;
     class_data_items := class_data_items b; begin := begin b; dex_size := size |}.

(** *** Copying *)

(** [copy_DEX_data]: the builder, the buffer and the 16-byte aligned end of the copy.  The
    buffer [dex_file_m] starts at offset [dex_file_m_] (which is 0). *)
Definition copy_DEX_data (df : DexFile) (dex_file_m_ : Z) (b : DexBuilder) (buf : list Z)
    : option (DexBuilder * list Z * Z) :=
  let orig_dex_size := Size df in
  buf ← store dex_file_m_ (begin_ df) buf;
  let b := set_begin dex_file_m_ b in
  Some (b, buf,
        if negb (orig_dex_size mod 16 =? 0)
        then dex_file_m_ + orig_dex_size + (16 - orig_dex_size mod 16)
        else dex_file_m_ + orig_dex_size).

Definition copy_code_items (target : Z) (b : DexBuilder) (buf : list Z)
    : option (DexBuilder * list Z * Z) :=
  let n := cur_code_item_offset b in
  if (0 <=? n) && (n <=? Z.of_nat (length (code_item_seg b))) then
    buf ← store target (take (Z.to_nat n) (code_item_seg b)) buf;
    Some (set_code_item_addr target b, buf, target + n)
  else None.

(** The body of the loop over the methods of an item: [code_off_] becomes the offset in the
    new file of the method's copied code item, if it has one. *)
Definition relocate_method (b : DexBuilder) (m : ClassDataMethod) : ClassDataMethod :=
  match code_item_offset_map b !! method_idx m with
  | None => m
  | Some off =>
      let seg_off := u32 (code_item_addr b - begin b) in
      let code_item_off := u32 (seg_off + off) in
      {| method_idx := method_idx m; method_idx_delta_ := method_idx_delta_ m;
         method_access_flags_ := method_access_flags_ m; code_off_ := code_item_off |}
  end.

Definition repair_item (b : DexBuilder) (it : ClassDataItemMem) : ClassDataItemMem :=
  let ms := relocate_method b <$> methods it in
  let empty := bool_decide (length ms = 0%nat) in
  {| class_idx := class_idx it; static_fields_size_ := static_fields_size_ it;
     instance_fields_size_ := instance_fields_size_ it;
     direct_methods_size_ := if empty then 0 else direct_methods_size_ it;
     virtual_methods_size_ := if empty then 0 else virtual_methods_size_ it;
     fields := fields it; methods := ms |}.

(** The loop over [class_data_items]: the repaired items, the offsets, the buffer and
    [new_target]. *)
Fixpoint copy_items_loop (b : DexBuilder) (seg_start target : Z)
    (items : list ClassDataItemMem) (offsets : gmap Z Z) (buf : list Z)
    : option (list ClassDataItemMem * gmap Z Z * list Z * Z) :=
  match items with
  | [] => Some ([], offsets, buf, target)
  | it :: items =>
      let it := repair_item b it in
      let bytes := encode it in
      buf ← store target bytes buf;
      let new_target := target + Z.of_nat (length bytes) in
      let offsets := <[class_idx it := u32 (target - seg_start)]> offsets in
      '(items, offsets, buf, last) ← copy_items_loop b seg_start new_target items offsets buf;
      Some (it :: items, offsets, buf, last)
  end.

Definition copy_class_data_items (target : Z) (b : DexBuilder) (buf : list Z)
    : option (DexBuilder * list Z * Z) :=
  '(items, offsets, buf, new_target) ←
    copy_items_loop b target target (class_data_items b) (class_data_offset_map b) buf;
  Some (set_class_data target items offsets b, buf, new_target).

(** *** Repairing *)

Definition StrIDAddr : Z := 0x70.
Definition TypeIDAddr (h : Header) : Z := u32 (StrIDAddr + string_ids_size_ h * 4).
Definition ProtoIDAddr (h : Header) : Z := u32 (TypeIDAddr h + type_ids_size_ h * 4).
Definition FieldIDAddr (h : Header) : Z := u32 (ProtoIDAddr h + proto_ids_size_ h * 12).
Definition MethodIDAddr (h : Header) : Z := u32 (FieldIDAddr h + field_ids_size_ h * 8).
Definition ClassDefAddr (h : Header) : Z := u32 (MethodIDAddr h + method_ids_size_ h * 8).
Definition DataAddr (h : Header) : Z := u32 (ClassDefAddr h + class_defs_size_ h * 32).

(** The header being written starts the buffer; the offsets are those of its fields. *)
Definition repair_Header (df : DexFile) (b : DexBuilder) (buf : list Z) : option (list Z) :=
  let h := header_ df in
  buf ← (if DataAddr h =? data_off_ h then
           buf ← put_le 4 60 StrIDAddr buf;
           buf ← put_le 4 68 (TypeIDAddr h) buf;
           buf ← put_le 4 76 (ProtoIDAddr h) buf;
           buf ← put_le 4 84 (FieldIDAddr h) buf;
           buf ← put_le 4 92 (MethodIDAddr h) buf;
           put_le 4 100 (ClassDefAddr h) buf
         else Some buf);
  buf ← put_le 4 36 0x70 buf;
  put_le 4 32 (u32 (dex_size b)) buf.

(** One class definition: [class_data_off_] is at offset 24 of the structure. *)
Definition repair_ClassDef (df : DexFile) (b : DexBuilder) (i : Z) (buf : list Z)
    : option (list Z) :=
  let class_def_rela_off := u32 (ClassDefOffset df i) in
  orig_class_def ← GetClassDef df i;
  match class_data_offset_map b !! class_idx_ orig_class_def with
  | Some off =>
      put_le 4 (class_def_rela_off + 24) (u32 (class_data_addr b - begin b + off)) buf
  | None => Some buf
  end.

Fixpoint repair_ClassDefs_loop (df : DexFile) (b : DexBuilder) (k : nat) (i : Z)
    (buf : list Z) : option (list Z) :=
  match k with
  | O => Some buf
  | S k =>
      buf ← repair_ClassDef df b i buf;
      repair_ClassDefs_loop df b k (i + 1) buf
  end.

Definition repair_ClassDefs (df : DexFile) (b : DexBuilder) (buf : list Z) : option (list Z) :=
  repair_ClassDefs_loop df b (Z.to_nat (NumClassDefs df)) 0 buf.

(** The part of [build_dex] after the loop over the classes: the bytes handed to
    [write_file].  [b] is the builder as the loop leaves it. *)
Definition write_dex (df : DexFile) (b : DexBuilder) : option (DexBuilder * list Z) :=
  let dex_file_m := replicate (2 * length (begin_ df)) 0 in
  '(b, buf, code_items_addr) ← copy_DEX_data df 0 b dex_file_m;
  '(b, buf, class_data_items_addr) ← copy_code_items code_items_addr b buf;
  '(b, buf, end_) ← copy_class_data_items class_data_items_addr b buf;
  let dex_size_real := end_ - 0 in
  let b := set_dex_size dex_size_real b in
  buf ← repair_Header df b buf;
  buf ← repair_ClassDefs df b buf;
  buf ← repair_Magic buf;
  if dex_size_real <=? Z.of_nat (length buf)
  then Some (b, take (Z.to_nat dex_size_real) buf) else None.

(** ** Repairing the magic *)

Lemma split_8 (buf : list Z) :
  (8 <= length buf)%nat ->
  exists a b c d e f g h t, buf = a :: b :: c :: d :: e :: f :: g :: h :: t.
Proof. destruct buf as [|a [|b [|c [|d [|e [|f [|g [|h t]]]]]]]]; cbn; try lia. eauto 12. Qed.

(** One of the stores of [repair_Magic], after the bytes [pre]. *)
Ltac byte_step pre x :=
  match goal with
  | |- context [store ?o [?y] ?buf] =>
      match buf with
      | context [x :: ?t] =>
          let E := fresh in
          assert (E : store o [y] buf = Some (pre ++ y :: t)) by exact (store_byte pre x y t);
          rewrite E; clear E; cbn [app mbind option_bind]
      end
  end.

Lemma repair_Magic_spec buf :
  (8 <= length buf)%nat -> repair_Magic buf = Some (dex_magic ++ drop 8 buf).
Proof.
  intros (a & b & c & d & e & f & g & h & t & ->)%split_8. unfold repair_Magic.
  byte_step (@nil Z) a.
  byte_step [0x64] b.
  byte_step [0x64; 0x65] c.
  byte_step [0x64; 0x65; 0x78] d.
  byte_step [0x64; 0x65; 0x78; 0x0a] e.
  byte_step [0x64; 0x65; 0x78; 0x0a; 0x30] f.
  byte_step [0x64; 0x65; 0x78; 0x0a; 0x30; 0x33] g.
  byte_step [0x64; 0x65; 0x78; 0x0a; 0x30; 0x33; 0x35] h. done.
Qed.

Lemma check_and_repair_spec buf :
  (8 <= length buf)%nat -> check_and_repair_DEX_magic buf = Some (dex_magic ++ drop 8 buf).
Proof.
  intros H. unfold check_and_repair_DEX_magic. rewrite repair_Magic_spec by done.
  destruct (split_8 buf H) as (a & b & c & d & e & f & g & h & t & ->).
  cbn [dex_magic read_u8 mbind option_bind].
  repeat (case_Zcmp; cbn [negb mbind option_bind]; [|done]). by subst.
Qed.

Lemma magic_same_outside buf :
  (8 <= length buf)%nat ->
  same_outside 0 8 buf (dex_magic ++ drop 8 buf) /\ load 0 8 (dex_magic ++ drop 8 buf) = dex_magic.
Proof.
  intros H. split; [|done]. split.
  - rewrite length_app, length_drop. cbn. lia.
  - intros k Hk. rewrite lookup_app_r by (cbn; lia). rewrite lookup_drop. cbn [length dex_magic].
    f_equal. lia.
Qed.

(** ** Repairing the header *)

Ltac put_field :=
  match goal with
  | |- context [put_le 4 ?o ?v ?buf] =>
      let b := fresh "buf" in let E := fresh "E" in let S := fresh "S" in
      let G := fresh "G" in
      destruct (put_some 4 o v buf) as (b & E & S & G); [lia|lia|];
      rewrite E; cbn [mbind option_bind];
      assert (length b = length buf) by exact (proj1 S)
  end.

Lemma repair_Header_spec df b buf :
  0x70 <= Z.of_nat (length buf) -> is_u 32 (dex_size b) ->
  exists buf', repair_Header df b buf = Some buf' /\ same_outside 32 112 buf buf' /\
    get_le 4 36 buf' = 0x70 /\ get_le 4 32 buf' = dex_size b.
Proof.
  intros Hl Hs. unfold repair_Header. rewrite (u_small 32) by done.
  assert (Hoff : exists buf0,
    (if DataAddr (header_ df) =? data_off_ (header_ df) then
       buf ← put_le 4 60 StrIDAddr buf;
       buf ← put_le 4 68 (TypeIDAddr (header_ df)) buf;
       buf ← put_le 4 76 (ProtoIDAddr (header_ df)) buf;
       buf ← put_le 4 84 (FieldIDAddr (header_ df)) buf;
       buf ← put_le 4 92 (MethodIDAddr (header_ df)) buf;
       put_le 4 100 (ClassDefAddr (header_ df)) buf
     else Some buf) = Some buf0 /\ same_outside 32 112 buf buf0).
  { case_match; [|eexists; split; [done|apply same_outside_refl]].
    do 6 put_field. eexists. split; [done|].
    repeat (eapply same_outside_trans;
            [eapply same_outside_weaken; [eassumption|lia|lia]|]).
    apply same_outside_refl. }
  destruct Hoff as (buf0 & E0 & S0). pose proof (proj1 S0) as L0.
  rewrite E0. cbn [mbind option_bind]. do 2 put_field. eexists. split_all; [done| | |].
  - repeat (eapply same_outside_trans;
            [eapply same_outside_weaken; [eassumption|lia|lia]|]).
    apply same_outside_refl.
  - erewrite get_outside; [|eassumption|lia|lia]. apply G. lia.
  - apply G0. unfold is_u in Hs. exact Hs.
Qed.

(** ** Copying the class data items *)

Definition total_size (items : list ClassDataItemMem) : Z :=
  Z.of_nat (length (concat (encode <$> items))).

Lemma total_size_cons it items :
  total_size (it :: items) = Z.of_nat (length (encode it)) + total_size items.
Proof. unfold total_size. cbn [fmap list_fmap concat]. rewrite length_app. lia. Qed.

Lemma total_size_nonneg items : 0 <= total_size items.
Proof. unfold total_size. lia. Qed.

(** Where an item has been put, as the offset map records it. *)
Definition placed_at (b : DexBuilder) (seg_start lo hi : Z) (offsets : gmap Z Z)
    (buf : list Z) (it : ClassDataItemMem) : Prop :=
  exists off, offsets !! class_idx it = Some (u32 (off - seg_start)) /\
    lo <= off /\ off + Z.of_nat (length (encode (repair_item b it))) <= hi /\
    holds buf off (encode (repair_item b it)).

Lemma copy_items_spec b seg_start items target offsets buf :
  0 <= target ->
  target + total_size (repair_item b <$> items) <= Z.of_nat (length buf) ->
  NoDup (class_idx <$> items) ->
  exists offsets' buf',
    let last := target + total_size (repair_item b <$> items) in
    copy_items_loop b seg_start target items offsets buf
      = Some (repair_item b <$> items, offsets', buf', last) /\
    same_outside target last buf buf' /\
    Forall (placed_at b seg_start target last offsets' buf') items /\
    (forall c, c ∉ class_idx <$> items -> offsets' !! c = offsets !! c).
Proof.
  revert target offsets buf.
  induction items as [|it items IH]; intros target offsets buf H0 Hl Hnd.
  - exists offsets, buf. cbn. split_all; [|apply same_outside_refl|constructor|done].
    unfold total_size. cbn. by rewrite Z.add_0_r.
  - cbn [fmap list_fmap] in *. rewrite total_size_cons in Hl.
    apply NoDup_cons in Hnd as [Hni Hnd].
    pose proof (total_size_nonneg (repair_item b <$> items)) as Hnn.
    destruct (store_some target (encode (repair_item b it)) buf) as [buf1 E1]; [lia|lia|].
    pose proof (store_same_outside _ _ _ _ E1) as S1.
    pose proof (holds_store _ _ _ _ E1) as HH.
    set (n := Z.of_nat (length (encode (repair_item b it)))) in *.
    destruct (IH (target + n) (<[class_idx it := u32 (target - seg_start)]> offsets) buf1)
      as (offsets' & buf' & E & S & HF & Ho); [lia|rewrite (proj1 S1); lia|done|].
    exists offsets', buf'. rewrite total_size_cons. cbv zeta in *. fold n.
    rewrite Z.add_assoc. split_all.
    + cbn [copy_items_loop]. rewrite E1. cbn [mbind option_bind]. fold n.
      change (class_idx (repair_item b it)) with (class_idx it). by rewrite E.
    + eapply same_outside_trans; eapply same_outside_weaken; first [eassumption|lia].
    + constructor.
      * exists target. rewrite Ho by done. split_all; [by rewrite lookup_insert_eq|lia|fold n; lia|].
        eapply holds_outside; [exact S|exact HH|fold n; lia].
      * eapply Forall_impl; [exact HF|]. intros x (off & ? & ? & ? & ?). exists off.
        split_all; done || lia.
    + intros c Hc. apply not_elem_of_cons in Hc as [Hc1 Hc2].
      rewrite Ho by done. by rewrite lookup_insert_ne.
Qed.

(** ** Repairing the class definitions *)

(** The class definition table lies inside the file, after the header. *)
Definition wf_class_defs (df : DexFile) : Prop :=
  0x70 <= class_defs_off_ (header_ df) /\
  class_defs_off_ (header_ df) + 32 * NumClassDefs df <= Size df /\
  0 <= NumClassDefs df <= 0x10000 /\ Size df < 2 ^ 32.

(** The bytes of the [class_data_off_] fields. *)
Definition class_data_off_byte (df : DexFile) (n : Z) (k : Z) : Prop :=
  exists i, 0 <= i < n /\ ClassDefOffset df i + 24 <= k < ClassDefOffset df i + 28.

Lemma ClassDefOffset_small df i :
  wf_class_defs df -> 0 <= i < NumClassDefs df ->
  ClassDefOffset df i = class_defs_off_ (header_ df) + 32 * i /\
  u32 (ClassDefOffset df i) = ClassDefOffset df i.
Proof.
  intros (H1 & H2 & H3 & H4) Hi. unfold ClassDefOffset.
  rewrite (u_small 16) by (unfold is_u; reduce_pow; lia).
  split; [done|]. apply u_small. unfold is_u. reduce_pow. lia.
Qed.

Lemma rd_some n off data :
  0 <= off -> off + Z.of_nat n <= Z.of_nat (length data) -> rd n off data = Some (get_le n off data).
Proof. intros. unfold rd. repeat case_Zcmp; done || lia. Qed.

Lemma GetClassDef_some df i :
  wf_class_defs df -> 0 <= i < NumClassDefs df -> is_Some (GetClassDef df i).
Proof.
  intros Hwf Hi. pose proof (ClassDefOffset_small df i Hwf Hi) as [E _].
  destruct Hwf as (H1 & H2 & H3 & H4). unfold Size in H2. unfold GetClassDef. rewrite E.
  rewrite !rd_some by lia. cbn. by eexists.
Qed.

Lemma class_data_off_original df i c :
  wf_class_defs df -> 0 <= i < NumClassDefs df -> GetClassDef df i = Some c ->
  get_le 4 (ClassDefOffset df i + 24) (begin_ df) = class_data_off_ c.
Proof.
  intros Hcd Hi. unfold GetClassDef. pose proof (ClassDefOffset_small df i Hcd Hi) as [Eo _].
  destruct Hcd as (? & ? & ? & ?). unfold Size in *.
  rewrite !rd_some by lia. cbn. by intros [= <-].
Qed.

Definition class_data_off_at (df : DexFile) (b : DexBuilder) (i : Z) : option Z :=
  c ← GetClassDef df i;
  off ← class_data_offset_map b !! class_idx_ c;
  Some (u32 (class_data_addr b - begin b + off)).

Lemma repair_ClassDefs_spec df b k i buf :
  wf_class_defs df -> 0 <= i -> i + Z.of_nat k = NumClassDefs df ->
  Size df <= Z.of_nat (length buf) ->
  exists buf', repair_ClassDefs_loop df b k i buf = Some buf' /\
    length buf' = length buf /\
    (forall j, 0 <= Z.of_nat j ->
       ~ (exists i', i <= i' < NumClassDefs df /\
            ClassDefOffset df i' + 24 <= Z.of_nat j < ClassDefOffset df i' + 28) ->
       buf' !! j = buf !! j) /\
    (forall i' v, i <= i' < NumClassDefs df -> class_data_off_at df b i' = Some v ->
       get_le 4 (ClassDefOffset df i' + 24) buf' = v) /\
    (forall i', i <= i' < NumClassDefs df -> class_data_off_at df b i' = None ->
       get_le 4 (ClassDefOffset df i' + 24) buf' = get_le 4 (ClassDefOffset df i' + 24) buf).
Proof.
  intros Hwf. revert i buf. induction k as [|k IH]; intros i buf Hi Hk Hl.
  - exists buf. split_all; [done..|lia|done].
  - pose proof (ClassDefOffset_small df i Hwf ltac:(lia)) as [Eo Eu].
    pose proof Hwf as (H1 & H2 & H3 & H4).
    assert (Hstep : exists buf1, repair_ClassDef df b i buf = Some buf1 /\
      same_outside (ClassDefOffset df i + 24) (ClassDefOffset df i + 28) buf buf1 /\
      match class_data_off_at df b i with
      | Some v => get_le 4 (ClassDefOffset df i + 24) buf1 = v
      | None => buf1 = buf
      end).
    { unfold repair_ClassDef, class_data_off_at. rewrite Eu.
      destruct (GetClassDef_some df i Hwf ltac:(lia)) as [c ->]. cbn [mbind option_bind].
      destruct (class_data_offset_map b !! class_idx_ c) as [off|]; cbn [mbind option_bind].
      - destruct (put_some 4 (ClassDefOffset df i + 24)
                   (u32 (class_data_addr b - begin b + off)) buf) as (buf1 & E & S & G);
          [lia|lia|]. exists buf1. split_all; [done| |apply G; apply (u_range 32); lia].
        replace (ClassDefOffset df i + 28) with (ClassDefOffset df i + 24 + Z.of_nat 4) by lia.
        done.
      - exists buf. split_all; [done|apply same_outside_refl|done]. }
    destruct Hstep as (buf1 & E & S & Hv).
    destruct (IH (i + 1) buf1) as (buf' & E' & L' & F' & G' & N'); [lia|lia|rewrite (proj1 S); lia|].
    assert (Hkeep : get_le 4 (ClassDefOffset df i + 24) buf' = get_le 4 (ClassDefOffset df i + 24) buf1).
    { unfold get_le. f_equal. apply load_ext; [lia|]. intros j Hj. apply F'; [lia|].
      intros (i' & Hi' & Hj'). pose proof (ClassDefOffset_small df i' Hwf ltac:(lia)). lia. }
    exists buf'. cbn [repair_ClassDefs_loop]. rewrite E. cbn [mbind option_bind]. split_all.
    + done.
    + rewrite L'. apply S.
    + intros j Hj0 Hj. rewrite F'; [|done|intros (i' & Hi' & ?); apply Hj; exists i'; lia].
      apply S. destruct (Z.lt_ge_cases (Z.of_nat j) (ClassDefOffset df i + 24)); [by left|].
      right. apply Z.nlt_ge. intros ?. apply Hj. exists i. lia.
    + intros i' v Hi' Hcd. destruct (Z.eq_dec i' i) as [->|]; [|apply G'; [lia|done]].
      rewrite Hkeep. by rewrite Hcd in Hv.
    + intros i' Hi' Hcd. destruct (Z.eq_dec i' i) as [->|].
      * rewrite Hkeep. rewrite Hcd in Hv. by rewrite Hv.
      * rewrite N' by (done || lia). eapply get_outside; [exact S| |].
        -- pose proof (ClassDefOffset_small df i' Hwf ltac:(lia)). lia.
        -- pose proof (ClassDefOffset_small df i' Hwf ltac:(lia)). lia.
Qed.

(** ** The whole output pass *)

Definition align16 (n : Z) : Z := if negb (n mod 16 =? 0) then n + (16 - n mod 16) else n.

(** Where the three parts of the new file start and where it ends; [placed] is the builder
    with the addresses that the relocation uses. *)
Definition code_start (df : DexFile) : Z := align16 (Size df).
Definition data_start (df : DexFile) (b : DexBuilder) : Z :=
  code_start df + cur_code_item_offset b.
Definition placed (df : DexFile) (b : DexBuilder) : DexBuilder :=
  set_code_item_addr (code_start df) (set_begin 0 b).
Definition file_end (df : DexFile) (b : DexBuilder) : Z :=
  data_start df b + total_size (repair_item (placed df b) <$> class_data_items b).

(** The header of an item counts its members, or it has lost its methods. *)
Definition wf_collected (it : ClassDataItemMem) : Prop :=
  match methods it with
  | [] => 0 <= static_fields_size_ it /\ 0 <= instance_fields_size_ it /\
          Z.of_nat (length (fields it)) = static_fields_size_ it + instance_fields_size_ it /\
          Z.of_nat (length (fields it)) < 2 ^ 32 /\
          Forall wf_field (field_data <$> fields it)
  | _ => wf_item it
  end.

(** What the output pass needs: a class definition table inside the file, a code segment,
    items with distinct classes, and room for everything in the buffer. *)
Definition wf_rebuild (df : DexFile) (b : DexBuilder) : Prop :=
  wf_class_defs df /\
  0 <= cur_code_item_offset b <= Z.of_nat (length (code_item_seg b)) /\
  class_data_offset_map b = ∅ /\
  NoDup (class_idx <$> class_data_items b) /\
  Forall wf_collected (class_data_items b) /\
  file_end df b <= 2 * Size df /\ 2 * Size df < 2 ^ 32.

Lemma align16_spec n : 0 <= n -> n <= align16 n < n + 16 /\ align16 n mod 16 = 0.
Proof. unfold align16. intros Hn. case_Zcmp; cbn [negb]; div_lia. Qed.

Lemma copy_DEX_data_spec df b m :
  Size df <= Z.of_nat m ->
  exists buf, copy_DEX_data df 0 b (replicate m 0) = Some (set_begin 0 b, buf, code_start df) /\
    length buf = m /\ (forall k, (k < length (begin_ df))%nat -> buf !! k = begin_ df !! k).
Proof.
  intros Hm. unfold Size in Hm. unfold copy_DEX_data.
  destruct (store_some 0 (begin_ df) (replicate m 0)) as [buf E];
    [lia|rewrite length_replicate; lia|].
  rewrite E. cbn [mbind option_bind]. exists buf.
  split_all; [| |].
  - done.
  - rewrite (store_length _ _ _ _ E). apply length_replicate.
  - intros k Hk. rewrite (store_lookup _ _ _ _ _ E), decide_True by lia. f_equal. lia.
Qed.

Lemma copy_code_items_spec target b buf :
  0 <= cur_code_item_offset b <= Z.of_nat (length (code_item_seg b)) -> 0 <= target ->
  target + cur_code_item_offset b <= Z.of_nat (length buf) ->
  exists buf', copy_code_items target b buf
      = Some (set_code_item_addr target b, buf', target + cur_code_item_offset b) /\
    same_outside target (target + cur_code_item_offset b) buf buf' /\
    holds buf' target (take (Z.to_nat (cur_code_item_offset b)) (code_item_seg b)).
Proof.
  intros Hc Ht Hl. unfold copy_code_items. repeat (case_Zcmp; [|lia]). cbn [andb].
  set (seg := take _ _).
  assert (Hs : Z.of_nat (length seg) = cur_code_item_offset b)
    by (subst seg; rewrite length_take; lia).
  destruct (store_some target seg buf) as [buf' E]; [done|lia|].
  rewrite E. cbn [mbind option_bind]. exists buf'. split_all; [done| |].
  - rewrite <- Hs. by apply store_same_outside.
  - by eapply holds_store.
Qed.

(** The buffer before the repairs. *)
Lemma assemble_spec df b :
  wf_rebuild df b ->
  exists offsets buf,
    (let dex_file_m := replicate (2 * length (begin_ df)) 0 in
     '(b, buf, code_items_addr) ← copy_DEX_data df 0 b dex_file_m;
     '(b, buf, class_data_items_addr) ← copy_code_items code_items_addr b buf;
     copy_class_data_items class_data_items_addr b buf)
    = Some (set_class_data (data_start df b)
              (repair_item (placed df b) <$> class_data_items b) offsets (placed df b),
            buf, file_end df b) /\
    length buf = (2 * length (begin_ df))%nat /\
    (forall k, (k < length (begin_ df))%nat -> buf !! k = begin_ df !! k) /\
    holds buf (code_start df) (take (Z.to_nat (cur_code_item_offset b)) (code_item_seg b)) /\
    Forall (placed_at (placed df b) (data_start df b) (data_start df b) (file_end df b)
              offsets buf) (class_data_items b) /\
    (forall c, c ∉ class_idx <$> class_data_items b -> offsets !! c = None).
Proof.
  intros (Hcd & Hcur & Hempty & Hnd & _ & Hfit & Hsz).
  assert (Hn : 0 <= Size df) by (unfold Size; lia).
  pose proof (align16_spec (Size df) Hn) as [Ha _]. fold (code_start df) in Ha.
  pose proof (total_size_nonneg (repair_item (placed df b) <$> class_data_items b)).
  unfold file_end, data_start in *.
  destruct (copy_DEX_data_spec df b (2 * length (begin_ df))) as (buf1 & E1 & L1 & F1);
    [unfold Size; lia|].
  assert (HS : Size df = Z.of_nat (length (begin_ df))) by done.
  destruct (copy_code_items_spec (code_start df) (set_begin 0 b) buf1) as (buf2 & E2 & S2 & H2);
    [done|lia|cbn [cur_code_item_offset set_begin]; lia|].
  cbn [cur_code_item_offset code_item_seg set_begin] in *. fold (placed df b) in E2.
  destruct (copy_items_spec (placed df b) (code_start df + cur_code_item_offset b)
    (class_data_items b) (code_start df + cur_code_item_offset b) ∅ buf2)
    as (offsets & buf3 & E3 & S3 & P3 & O3); [lia|rewrite (proj1 S2); lia|done|].
  exists offsets, buf3. cbv zeta in E3, S3, P3. split_all; try done.
  - cbv zeta. rewrite E1. cbn [mbind option_bind]. rewrite E2. cbn [mbind option_bind].
    unfold copy_class_data_items.
    change (class_data_offset_map (placed df b)) with (class_data_offset_map b).
    change (class_data_items (placed df b)) with (class_data_items b).
    rewrite Hempty, E3. done.
  - rewrite (proj1 S3), (proj1 S2). done.
  - intros k Hk. rewrite (proj2 S3) by lia. rewrite (proj2 S2) by lia. by apply F1.
  - eapply holds_outside; [exact S3|exact H2|]. left. rewrite length_take. lia.
Qed.

Lemma class_data_off_at_eq df b1 b2 i :
  class_data_offset_map b1 = class_data_offset_map b2 ->
  class_data_addr b1 = class_data_addr b2 -> begin b1 = begin b2 ->
  class_data_off_at df b1 i = class_data_off_at df b2 i.
Proof. unfold class_data_off_at. by intros -> -> ->. Qed.

(** The three repairs, on a buffer that holds the file. *)
Lemma repairs_spec df b buf :
  wf_class_defs df -> is_u 32 (dex_size b) -> Size df <= Z.of_nat (length buf) ->
  exists buf',
    (buf ← repair_Header df b buf; buf ← repair_ClassDefs df b buf; repair_Magic buf) = Some buf' /\
    same_outside 0 (Size df) buf buf' /\
    load 0 8 buf' = dex_magic /\ get_le 4 36 buf' = 0x70 /\ get_le 4 32 buf' = dex_size b /\
    (forall i v, 0 <= i < NumClassDefs df -> class_data_off_at df b i = Some v ->
       get_le 4 (ClassDefOffset df i + 24) buf' = v) /\
    (forall i, 0 <= i < NumClassDefs df -> class_data_off_at df b i = None ->
       get_le 4 (ClassDefOffset df i + 24) buf' = get_le 4 (ClassDefOffset df i + 24) buf) /\
    (forall k : nat, ~ (Z.of_nat k < 8) -> ~ (32 <= Z.of_nat k < 112) ->
       ~ class_data_off_byte df (NumClassDefs df) (Z.of_nat k) -> buf' !! k = buf !! k).
Proof.
  intros Hcd Hs Hl. pose proof Hcd as (H1 & H2 & H3 & H4).
  destruct (repair_Header_spec df b buf) as (buf1 & E1 & S1 & G36 & G32); [lia|done|].
  destruct (repair_ClassDefs_spec df b (Z.to_nat (NumClassDefs df)) 0 buf1)
    as (buf2 & E2 & L2 & F2 & V2 & N2); [done|lia|lia|rewrite (proj1 S1); lia|].
  assert (Lb : length buf2 = length buf) by (rewrite L2; apply S1).
  assert (H8 : (8 <= length buf2)%nat) by lia.
  destruct (magic_same_outside buf2 H8) as [S3 M3].
  exists (dex_magic ++ drop 8 buf2). rewrite E1. cbn [mbind option_bind].
  unfold repair_ClassDefs. rewrite E2. cbn [mbind option_bind].
  rewrite repair_Magic_spec by done.
  assert (Hdisj : forall k, Z.of_nat k < 112 \/ Size df <= Z.of_nat k -> buf2 !! k = buf1 !! k).
  { intros k Hk. apply F2; [lia|]. intros (i' & Hi' & Hb).
    pose proof (ClassDefOffset_small df i' Hcd ltac:(lia)). lia. }
  assert (G2 : forall o, 0 <= o -> o + 4 <= 112 -> get_le 4 o buf2 = get_le 4 o buf1).
  { intros o Ho Ho'. unfold get_le. f_equal. apply load_ext; [done|].
    intros k Hk. apply Hdisj. lia. }
  split_all; [done| |done| | | | |].
  - split; [rewrite (proj1 S3); done|]. intros k Hk.
    rewrite (proj2 S3) by lia. rewrite Hdisj by lia. apply (proj2 S1). lia.
  - rewrite (get_outside 0 8 buf2) by (done || lia). rewrite G2 by lia. done.
  - rewrite (get_outside 0 8 buf2) by (done || lia). rewrite G2 by lia. done.
  - intros i v Hi Hv. pose proof (ClassDefOffset_small df i Hcd Hi) as [Eo _].
    rewrite (get_outside 0 8 buf2) by (done || lia). by apply V2.
  - intros i Hi Hv. pose proof (ClassDefOffset_small df i Hcd Hi) as [Eo _].
    rewrite (get_outside 0 8 buf2) by (done || lia). rewrite N2 by done.
    apply (get_outside 32 112); [done|lia|lia].
  - intros k N0 N1 N3. rewrite (proj2 S3) by lia.
    rewrite F2; [apply (proj2 S1); lia|lia|]. intros (i & Hi & Hb). apply N3. by exists i.
Qed.

Lemma write_dex_spec df b :
  wf_rebuild df b ->
  exists b' out, write_dex df b = Some (b', out) /\
    Z.of_nat (length out) = file_end df b /\
    load 0 8 out = dex_magic /\ get_le 4 36 out = 0x70 /\ get_le 4 32 out = file_end df b /\
    holds out (code_start df) (take (Z.to_nat (cur_code_item_offset b)) (code_item_seg b)) /\
    Forall (placed_at (placed df b) (data_start df b) (data_start df b) (file_end df b)
              (class_data_offset_map b') out) (class_data_items b) /\
    class_data_addr b' = data_start df b /\ begin b' = 0 /\
    (forall i v, 0 <= i < NumClassDefs df -> class_data_off_at df b' i = Some v ->
       get_le 4 (ClassDefOffset df i + 24) out = v) /\
    (forall i, 0 <= i < NumClassDefs df -> class_data_off_at df b' i = None ->
       get_le 4 (ClassDefOffset df i + 24) out
         = get_le 4 (ClassDefOffset df i + 24) (begin_ df)) /\
    (forall c, c ∉ class_idx <$> class_data_items b -> class_data_offset_map b' !! c = None) /\
    (forall k : nat, Z.of_nat k < Size df -> ~ (Z.of_nat k < 8) -> ~ (32 <= Z.of_nat k < 112) ->
       ~ class_data_off_byte df (NumClassDefs df) (Z.of_nat k) -> out !! k = begin_ df !! k).
Proof.
  intros Hwf. destruct (assemble_spec df b Hwf) as (offsets & buf & E & L & F & C & P & O).
  destruct Hwf as (Hcd & Hcur & _ & _ & _ & Hfit & Hsz).
  pose proof (align16_spec (Size df) ltac:(unfold Size; lia)) as [Ha _].
  fold (code_start df) in Ha.
  pose proof (total_size_nonneg (repair_item (placed df b) <$> class_data_items b)) as Hnn.
  assert (Hds : Size df <= code_start df <= data_start df b /\ data_start df b <= file_end df b)
    by (unfold data_start, file_end, data_start in *; lia).
  set (b3 := set_class_data (data_start df b) _ offsets (placed df b)) in E.
  destruct (repairs_spec df (set_dex_size (file_end df b) b3) buf)
    as (buf' & E' & S' & M' & G36 & G32 & V' & N' & K').
  - exact Hcd.
  - unfold is_u. cbn [dex_size set_dex_size]. unfold Size in *. lia.
  - unfold Size. rewrite L. lia.
  - assert (Lb : Z.of_nat (length buf') = 2 * Size df)
      by (rewrite (proj1 S'), L; unfold Size; lia).
    set (n := Z.to_nat (file_end df b)).
    assert (Hn : Z.of_nat n = file_end df b) by (subst n; lia).
    assert (H0 : 0x70 <= Size df) by (destruct Hcd; lia).
    exists (set_dex_size (file_end df b) b3), (take n buf').
    assert (Hget : forall o, 0 <= o -> o + 4 <= Size df ->
              get_le 4 o (take n buf') = get_le 4 o buf').
    { intros o Ho Ho'. unfold get_le. by rewrite load_take by lia. }
    split_all.
    + unfold write_dex. cbv zeta in *.
      destruct (copy_DEX_data df 0 b (replicate (2 * length (begin_ df)) 0))
        as [[[b1 buf1] a1]|]; [|discriminate]. cbn [mbind option_bind] in *.
      destruct (copy_code_items a1 b1 buf1) as [[[b2 buf2] a2]|]; [|discriminate].
      cbn [mbind option_bind] in *. rewrite E. cbn [mbind option_bind].
      rewrite Z.sub_0_r.
      destruct (repair_Header df (set_dex_size (file_end df b) b3) buf) as [bh|]; [|discriminate].
      cbn [mbind option_bind] in *.
      destruct (repair_ClassDefs df (set_dex_size (file_end df b) b3) bh) as [bc|]; [|discriminate].
      cbn [mbind option_bind] in *. rewrite E'. cbn [mbind option_bind].
      case_Zcmp; [done|lia].
    + rewrite length_take. lia.
    + by rewrite load_take by lia.
    + by rewrite Hget by lia.
    + rewrite Hget by lia. by rewrite G32.
    + apply holds_take; [lia| |rewrite length_take; unfold data_start in *; lia].
      eapply holds_outside; [exact S'|exact C|lia].
    + eapply Forall_impl; [exact P|]. intros it (off & Ho & Hlo & Hhi & Hh).
      exists off. split_all; [exact Ho|done|done|].
      apply holds_take; [lia| |lia]. eapply holds_outside; [exact S'|exact Hh|lia].
    + done.
    + done.
    + intros i v Hi Hv. pose proof (ClassDefOffset_small df i Hcd Hi) as [Eo _].
      destruct Hcd as (? & ? & ? & ?). rewrite Hget by lia. by apply V'.
    + intros i Hi Hv. pose proof (ClassDefOffset_small df i Hcd Hi) as [Eo _].
      destruct Hcd as (? & ? & ? & ?). rewrite Hget by lia. rewrite N' by done.
      unfold get_le. f_equal. apply load_ext; [lia|]. intros k Hk. apply F. unfold Size in *. lia.
    + exact O.
    + intros k Hk N1 N2 N3. rewrite lookup_take_lt by lia.
      rewrite K' by done. apply F. unfold Size in Hk. lia.
Qed.

(** *** The encoded items *)

Lemma relocate_wf b m : wf_method (method_data m) -> wf_method (method_data (relocate_method b m)).
Proof.
  unfold relocate_method. destruct (code_item_offset_map b !! method_idx m); [|done].
  unfold wf_method. cbn. intros (H1 & H2 & _). split_all; [done..|]. apply u_range. lia.
Qed.

Lemma wf_item_collected it : wf_item it -> methods it <> [] -> wf_collected it.
Proof. unfold wf_collected. by destruct (methods it). Qed.

Lemma repair_wf b it : wf_collected it -> wf_item (repair_item b it).
Proof.
  unfold wf_collected, repair_item. destruct (methods it) as [|m ms] eqn:E.
  - intros (? & ? & ? & ? & ?). unfold wf_item. cbn. split_all; done || lia.
  - intros H. unfold wf_item in *. rewrite E in H.
    destruct H as (? & ? & ? & ? & HF & HM & Hsz & HwF & HwM).
    rewrite bool_decide_eq_false_2 by done. cbn [Gerat.static_fields_size_
      Gerat.instance_fields_size_ Gerat.direct_methods_size_ Gerat.virtual_methods_size_
      Gerat.fields Gerat.methods]. rewrite length_fmap. split_all; try done.
    rewrite !Forall_fmap. rewrite Forall_fmap in HwM.
    eapply Forall_impl; [exact HwM|]. intros x Hx. by apply relocate_wf.
Qed.

Lemma encode_nonempty it : (0 < length (encode it))%nat.
Proof.
  unfold encode. rewrite length_app. unfold Leb128.Gerat.EncodeUnsignedLeb128.
  unfold leb_fuel. cbn [Leb128.Gerat.EncodeLoop]. case_Zcmp; cbn [length]; lia.
Qed.

(** ** Properties *)

(** Repairing the magic of a buffer of at least eight bytes always succeeds, with both of
    the unpacker's routines and with the same result: the dex file reader then accepts magic
    and version, no other byte changes, and repairing again changes nothing. *)
Theorem repaired_magic (buf : list Z) (Hl : (8 <= length buf)%nat) :
  exists buf', check_and_repair_DEX_magic buf = Some buf' /\ repair_Magic buf = Some buf' /\
    check_and_repair_DEX_magic buf' = Some buf' /\
    IsMagicValid (load 0 8 buf') = true /\ IsVersionValid (load 0 8 buf') = true /\
    same_outside 0 8 buf buf'.
Proof.
  destruct (magic_same_outside buf Hl) as [HS HM].
  exists (dex_magic ++ drop 8 buf). rewrite repair_Magic_spec, check_and_repair_spec by done.
  rewrite check_and_repair_spec by (rewrite (proj1 HS); done). rewrite HM. by split_all.
Qed.

Lemma repaired_magic_witness :
  exists buf', check_and_repair_DEX_magic [0; 1; 2; 3; 4; 5; 6; 7; 8; 9] = Some buf' /\
    repair_Magic [0; 1; 2; 3; 4; 5; 6; 7; 8; 9] = Some buf' /\
    check_and_repair_DEX_magic buf' = Some buf' /\
    IsMagicValid (load 0 8 buf') = true /\ IsVersionValid (load 0 8 buf') = true /\
    same_outside 0 8 [0; 1; 2; 3; 4; 5; 6; 7; 8; 9] buf'.
Proof. apply (repaired_magic [0; 1; 2; 3; 4; 5; 6; 7; 8; 9]). cbn. lia. Defined.


(** C29: relocation finds the copied code.  The collected code is at the first 16-byte
    boundary after the copy of the file, and for every method of a collected item that has a
    collected code item, the [code_off_] written for it is the offset in the new file at
    which the bytes of that code item are found. *)
Theorem rebuild_code_items (df : DexFile) (b : DexBuilder) (Hwf : wf_rebuild df b) :
  exists b' out, write_dex df b = Some (b', out) /\
    Size df <= code_start df < Size df + 16 /\ code_start df mod 16 = 0 /\
    forall m o n,
      code_item_offset_map b !! method_idx m = Some o ->
      0 <= o -> o + Z.of_nat n <= cur_code_item_offset b ->
      let off := code_off_ (relocate_method (placed df b) m) in
      off + Z.of_nat n <= Z.of_nat (length out) /\ load off n out = load o n (code_item_seg b).
Proof.
  destruct (write_dex_spec df b Hwf) as (b' & out & E & L & _ & _ & _ & C & _).
  destruct Hwf as (_ & Hcur & _ & _ & _ & Hfit & Hsz).
  destruct (align16_spec (Size df) ltac:(unfold Size; lia)) as [Ha Hm].
  fold (code_start df) in Ha, Hm.
  pose proof (total_size_nonneg (repair_item (placed df b) <$> class_data_items b)) as Hnn.
  exists b', out. split_all; [done|lia|lia|done|]. intros m o n Hmap Ho Hn.
  unfold relocate_method. change (code_item_offset_map (placed df b)) with (code_item_offset_map b).
  rewrite Hmap. cbn [code_off_ code_item_addr begin placed set_code_item_addr set_begin].
  unfold file_end, data_start in *.
  rewrite (u_small 32 (code_start df - 0)) by (unfold is_u; lia).
  rewrite u_small by (unfold is_u; lia). cbv zeta. rewrite Z.sub_0_r. split; [lia|].
  destruct C as (_ & _ & C). rewrite length_take in C.
  apply list_eq. intros k. rewrite !load_lookup by lia. case_decide; [|done].
  assert (Hk : load (code_start df)
             (Z.to_nat (cur_code_item_offset b) `min` length (code_item_seg b)) out
             !! (Z.to_nat o + k)%nat = code_item_seg b !! (Z.to_nat o + k)%nat)
    by (rewrite C, lookup_take_lt by lia; done).
  rewrite load_lookup, decide_True in Hk by lia. rewrite <- Hk. f_equal. lia.
Qed.

(** The output pass changes nothing else of the loaded file: every byte outside the
    magic, the header fields from [file_size_] on and the [class_data_off_] fields is
    copied, and a class that was not collected keeps its [class_data_off_]. *)
Theorem rebuild_frame (df : DexFile) (b : DexBuilder) (Hwf : wf_rebuild df b) :
  exists b' out, write_dex df b = Some (b', out) /\
    (forall k : nat, Z.of_nat k < Size df ->
       ~ (Z.of_nat k < 8) -> ~ (32 <= Z.of_nat k < 112) ->
       ~ class_data_off_byte df (NumClassDefs df) (Z.of_nat k) -> out !! k = begin_ df !! k) /\
    (forall i c, 0 <= i < NumClassDefs df -> GetClassDef df i = Some c ->
       DexFile.class_idx_ c ∉ class_idx <$> class_data_items b ->
       get_le 4 (ClassDefOffset df i + 24) out = class_data_off_ c).
Proof.
  destruct (write_dex_spec df b Hwf)
    as (b' & out & E & _ & _ & _ & _ & _ & _ & _ & _ & _ & N & O & F).
  destruct Hwf as (Hcd & _). exists b', out. split_all; [done..|].
  intros i c Hi Hc Hni. rewrite N; [|done|].
  - by apply class_data_off_original.
  - unfold class_data_off_at. rewrite Hc. cbn [mbind option_bind]. by rewrite O.
Qed.

(** *** A file to rebuild

    Two class definitions, of the classes 5 and 7; class 7 was collected, with the code of
    its method 11 at offset 4 of the code segment. *)
Definition sample_class_dex : list Z :=
  kDexMagic ++ [9; 9; 9; 9] ++ le_bytes 4 0 ++ replicate 20 0 ++
  concat (le_bytes 4 <$>
    [200; 0x70; 0x12345678; 0; 0; 0;
     0; 0; 0; 0; 0; 0; 0; 0; 0; 0; 2; 112; 24; 176]) ++
  (le_bytes 4 5 ++ replicate 20 0 ++ le_bytes 4 180 ++ le_bytes 4 0) ++
  (le_bytes 4 7 ++ replicate 20 0 ++ le_bytes 4 0 ++ le_bytes 4 0) ++ replicate 24 0.

Definition sample_class_df : DexFile := default sample_df (MakeDexFile sample_class_dex).

Definition sample_builder : DexBuilder :=
  {| code_item_offset_map := {[ 11 := 4 ]}; class_data_offset_map := ∅;
     code_item_seg := [10; 11; 12; 13; 14; 15; 16; 17; 18; 19; 0; 0; 0; 0; 0; 0];
     class_data_item_seg := []; cur_code_item_offset := 10; cur_class_data_offset := 0;
     class_data_addr := 0; code_item_addr := 0; class_data_items := [sample_item];
     begin := 0; dex_size := 0 |}.

Lemma sample_wf_rebuild : wf_rebuild sample_class_df sample_builder.
Proof.
  unfold wf_rebuild, wf_class_defs. split_all.
  1-7, 11-12: vm_compute; done.
  - done.
  - apply NoDup_singleton.
  - apply Forall_singleton, wf_item_collected; [exact sample_item_wf|done].
Qed.


Lemma rebuild_code_items_witness :
  exists b' out, write_dex sample_class_df sample_builder = Some (b', out) /\
    Size sample_class_df <= code_start sample_class_df < Size sample_class_df + 16 /\
    code_start sample_class_df mod 16 = 0 /\
    forall m o n,
      code_item_offset_map sample_builder !! method_idx m = Some o ->
      0 <= o -> o + Z.of_nat n <= cur_code_item_offset sample_builder ->
      let off := code_off_ (relocate_method (placed sample_class_df sample_builder) m) in
      off + Z.of_nat n <= Z.of_nat (length out) /\
      load off n out = load o n (code_item_seg sample_builder).
Proof. apply (rebuild_code_items sample_class_df sample_builder), sample_wf_rebuild. Defined.

Lemma rebuild_frame_witness :
  exists b' out, write_dex sample_class_df sample_builder = Some (b', out) /\
    (forall k : nat, Z.of_nat k < Size sample_class_df ->
       ~ (Z.of_nat k < 8) -> ~ (32 <= Z.of_nat k < 112) ->
       ~ class_data_off_byte sample_class_df (NumClassDefs sample_class_df) (Z.of_nat k) ->
       out !! k = begin_ sample_class_df !! k) /\
    (forall i c, 0 <= i < NumClassDefs sample_class_df ->
       GetClassDef sample_class_df i = Some c ->
       DexFile.class_idx_ c ∉ class_idx <$> class_data_items sample_builder ->
       get_le 4 (ClassDefOffset sample_class_df i + 24) out = class_data_off_ c).
Proof. apply (rebuild_frame sample_class_df sample_builder), sample_wf_rebuild. Defined.
