(* ===== verification/Unpacker.v ===== *)
(** When and what the unpacker dumps ([gerat/filter], [gerat/util/Utilproc], [gerat/unpack],
    and the hook in [ArtMethod::Invoke] with [dump_dex], [dump_dex_after_init], [build_dex],
    [write_file] of [art_method.cc]).

    Strings are lists of bytes.  The configuration comes from files under the data directory of
    the process; [Env] is what the process sees of the system.  Resolving methods and
    initialising classes runs code of the application, which calls [Invoke] again: a dump that
    has begun and is not yet written is [Pending], and the hook is a step relation in which
    further invocations come between its beginning and its end.  The process is taken to enter
    the hook from one thread at a time (the set of dumped files has no lock). *)
From S2P Require Import Prelude ClassData DexFile DexBuilder.
From Stdlib Require Import Ascii.
Local Open Scope Z_scope.

(** ** Strings *)

Definition bytes_of (s : string) : list Z := (fun c => Z.of_N (N_of_ascii c)) <$> String.list_ascii_of_string s.

(** [std::to_string] of a non-negative integer below 10^20. *)
Fixpoint decimal (fuel : nat) (n : Z) : list Z :=
  match fuel with
  | O => []
  | S fuel' => (if n <? 10 then [] else decimal fuel' (n / 10)) ++ [48 + n mod 10]
  end.
Definition to_string (n : Z) : list Z := decimal 20 n.

Definition is_space (c : Z) : bool := (c =? 32) || ((9 <=? c) && (c <=? 13)).
Definition isprint (c : Z) : bool := (32 <=? c) && (c <=? 126).

Fixpoint take_until (stop : Z -> bool) (s : list Z) : list Z * list Z :=
  match s with
  | [] => ([], [])
  | c :: s' => if stop c then ([], s) else let '(a, b) := take_until stop s' in (c :: a, b)
  end.

(** [fin >> str]: [None] when the stream has no further word, and [str] keeps its value. *)
Fixpoint skip_space (s : list Z) : list Z :=
  match s with [] => [] | c :: s' => if is_space c then skip_space s' else s end.
Definition read_word (str fin : list Z) : list Z * list Z :=
  match skip_space fin with
  | [] => (str, [])
  | s => take_until is_space s
  end.

(** The non-empty lines that [getline] delivers. *)
Fixpoint lines (fuel : nat) (s : list Z) : list (list Z) :=
  match fuel, s with
  | S fuel', _ :: _ =>
      let '(l, rest) := take_until (fun c => c =? 10) s in
      (match l with [] => [] | _ => [l] end) ++ lines fuel' (drop 1 rest)
  | _, _ => []
  end.

(** [name.find(s) != npos]. *)
Fixpoint is_prefix (p s : list Z) : bool :=
  match p, s with
  | [], _ => true
  | a :: p', b :: s' => (a =? b) && is_prefix p' s'
  | _, [] => false
  end.
Fixpoint contains (s name : list Z) : bool :=
  is_prefix s name || match name with [] => false | _ :: name' => contains s name' end.

(** ** The system *)

Record Env := {
  cmdline : list Z;
  directories : gset (list Z);   (* the paths that [stat] finds *)
  files : gmap (list Z) (list Z);
  creatable : list Z -> bool;   (* does [open] with [O_CREAT] succeed *)
}.

(** [Utilproc::get_proc_name]: the first line of [/proc/pid/cmdline] up to a character that is
    not printable or a space. *)
Definition get_proc_name (env : Env) : list Z :=
  let s := (take_until (fun c => c =? 10) (cmdline env)).1 in
  (take_until (fun c => negb (isprint c && negb (c =? 32))) s).1.

Definition get_apk_dir (env : Env) : list Z :=
  let apk_dir_guess := bytes_of "/data/data/" ++ get_proc_name env in
  if bool_decide (apk_dir_guess ∈ directories env) then apk_dir_guess else [].

(** ** The filter *)

Inductive UnpackMode := black | white.

Record KarlGeratUFilter := {
  flag : bool;
  component_name : list Z;
  dump_method_str : list Z;
  force_init_flag : bool;
  rebuild_flag : bool;
  black_list : gset (list Z);
  white_list : gset (list Z);
  bypass_class_list : gset (list Z);
  mode_str : list Z;
  mode : UnpackMode;
}.

(** The constructor leaves [force_init_flag], [rebuild_flag] and [mode] as they are in memory:
    their values are the arguments. *)
Definition new_filter (force_init rebuild : bool) (md : UnpackMode) : KarlGeratUFilter :=
  {| flag := false; component_name := []; dump_method_str := []; force_init_flag := force_init;
     rebuild_flag := rebuild; black_list := ∅; white_list := ∅; bypass_class_list := ∅;
     mode_str := []; mode := md |}.

Definition nonempty (s : list Z) : bool := match s with [] => false | _ => true end.
Definition streq (a b : list Z) : bool := bool_decide (a = b).

(** [check_flag] reads [unpack.txt]: component, dump method, mode. *)
Definition check_flag (env : Env) (f : KarlGeratUFilter) : KarlGeratUFilter :=
  if flag f then f
  else
    let with_flags fl component method fi rb ms md :=
      {| flag := fl; component_name := component; dump_method_str := method;
         force_init_flag := fi; rebuild_flag := rb; black_list := black_list f;
         white_list := white_list f; bypass_class_list := bypass_class_list f;
         mode_str := ms; mode := md |} in
    match files env !! (get_apk_dir env ++ bytes_of "/unpack.txt") with
    | Some fin =>
        let '(component, fin) := read_word (component_name f) fin in
        if nonempty component then
          let '(method, fin) := read_word (dump_method_str f) fin in
          if nonempty method &&
             (streq method (bytes_of "force-dump") || streq method (bytes_of "force-rebuild")) then
            let rebuild := streq method (bytes_of "force-rebuild") in
            let '(ms, fin) := read_word (mode_str f) fin in
            let md :=
              if nonempty ms && streq ms (bytes_of "black") then black
              else if nonempty ms && streq ms (bytes_of "white") then white
              else black in
            with_flags true component method true rebuild ms md
          else with_flags true component method false (rebuild_flag f) (mode_str f) (mode f)
        else with_flags false component (dump_method_str f) false (rebuild_flag f) (mode_str f) (mode f)
    | None =>
        with_flags false (component_name f) (dump_method_str f) false (rebuild_flag f) (mode_str f) (mode f)
    end.

(** [Filter::get_flag]. *)
Definition get_flag (env : Env) (f : KarlGeratUFilter) : KarlGeratUFilter * bool :=
  let f := check_flag env f in (f, flag f).

Definition get_component_name (f : KarlGeratUFilter) : list Z := component_name f.
Definition get_force_init_flag (f : KarlGeratUFilter) : bool := force_init_flag f.
Definition get_rebuild_flag (f : KarlGeratUFilter) : bool := rebuild_flag f.

Definition check_in_black_list (f : KarlGeratUFilter) (name : list Z) : bool :=
  match mode f with
  | white => true
  | black => if negb (bool_decide (name ∈ black_list f)) then false else true
  end.

Definition check_in_white_list (f : KarlGeratUFilter) (name : list Z) : bool :=
  match mode f with
  | black => false
  | white => if negb (bool_decide (name ∈ white_list f)) then false else true
  end.

Definition should_process (f : KarlGeratUFilter) (name : list Z) : bool :=
  match mode f with
  | black => if check_in_black_list f name then true else false
  | white => if check_in_white_list f name then false else true
  end.

(** No string of the list is part of the name; the order of the set does not matter. *)
Definition should_initialize (f : KarlGeratUFilter) (name : list Z) : bool :=
  negb (existsb (fun s => contains s name) (elements (bypass_class_list f))).

(** The lines of a list file, none if it cannot be opened. *)
Definition read_list (env : Env) (file : string) : gset (list Z) :=
  match files env !! (get_apk_dir env ++ bytes_of file) with
  | Some fin => list_to_set (lines (length fin) fin)
  | None => ∅
  end.

Definition set_lists (b w c : gset (list Z)) (f : KarlGeratUFilter) : KarlGeratUFilter :=
  {| flag := flag f; component_name := component_name f; dump_method_str := dump_method_str f;
     force_init_flag := force_init_flag f; rebuild_flag := rebuild_flag f; black_list := b;
     white_list := w; bypass_class_list := c; mode_str := mode_str f; mode := mode f |}.

Definition read_method_name_list (env : Env) (f : KarlGeratUFilter) : KarlGeratUFilter :=
  match mode f with
  | black => set_lists (black_list f ∪ read_list env "/black.txt") (white_list f)
               (bypass_class_list f) f
  | white => set_lists (black_list f) (white_list f ∪ read_list env "/white.txt")
               (bypass_class_list f) f
  end.

Definition read_class_name_list (env : Env) (f : KarlGeratUFilter) : KarlGeratUFilter :=
  set_lists (black_list f) (white_list f)
    (bypass_class_list f ∪ read_list env "/bypass_class.txt") f.

Definition read_list_files (env : Env) (f : KarlGeratUFilter) : KarlGeratUFilter :=
  read_class_name_list env (read_method_name_list env f).

(** ** The unpacker's state *)

(** What the hook uses of an [ArtMethod]: the address of its dex file and the descriptor of its
    class. *)
Record ArtMethod := { GetDexFile : Z; GetDeclaringClassDescriptor : list Z }.

(** A dump that has begun: the address of the dex file, its number of class definitions, the
    index of the next one, and the mirror of level 2 or the builder of level 3. *)
Inductive Frame :=
  | Level2 (dex num class_idx : Z) (begin_m : list Z)
  | Level3 (dex num class_idx : Z) (builder : DexBuilder).

Definition frame_dex (fr : Frame) : Z :=
  match fr with Level2 dex _ _ _ | Level3 dex _ _ _ => dex end.

(** One call of [write_file]. *)
Record Dump := { d_dex : Z; d_level : Z; d_path : list Z; d_bytes : list Z; d_stored : bool }.

(** The globals of [unpack_globals.cc], what the process sees, and the history. *)
Record Unpacker := {
  env : Env;
  memory : gmap Z DexFile;
  filter_ : option KarlGeratUFilter;
  started : bool;
  dex_addrs : gset Z;
  dex_num : Z;
  lists_read : bool;            (* [unpack_mode_file_checked] *)
  pending : list Frame;         (* the dumps on the call stack, innermost first *)
  resolved : list (Z * Z * InvokeType);   (* calls of [ResolveMethod], latest first *)
  written : list Dump;
}.

Definition set_filter (f : KarlGeratUFilter) (read : bool) (s : Unpacker) : Unpacker :=
  {| env := env s; memory := memory s; filter_ := Some f; started := started s;
     dex_addrs := dex_addrs s; dex_num := dex_num s; lists_read := read; pending := pending s;
     resolved := resolved s; written := written s |}.

(** [dex_addrs.insert], and [set_started_flag] when [st] is set. *)
Definition capture (dex : Z) (st : bool) (s : Unpacker) : Unpacker :=
  {| env := env s; memory := memory s; filter_ := filter_ s; started := started s || st;
     dex_addrs := {[ dex ]} ∪ dex_addrs s; dex_num := dex_num s; lists_read := lists_read s;
     pending := pending s; resolved := resolved s; written := written s |}.

Definition set_pending (frs : list Frame) (calls : list (Z * Z * InvokeType)) (s : Unpacker)
    : Unpacker :=
  {| env := env s; memory := memory s; filter_ := filter_ s; started := started s;
     dex_addrs := dex_addrs s; dex_num := dex_num s; lists_read := lists_read s;
     pending := frs; resolved := calls ++ resolved s; written := written s |}.

(** ** Writing a file *)

Definition dump_path (dir : list Z) (n size : Z) : list Z :=
  dir ++ bytes_of "/dumped_classes" ++ to_string n ++ bytes_of "_" ++ to_string size
    ++ bytes_of ".dex".

(** [write_file]: [dex_num++] whether or not the file is stored; an existing file is kept. *)
Definition write_file (dex level : Z) (dex_file_m : list Z) (s : Unpacker) : Unpacker :=
  let e := env s in
  let path := dump_path (get_apk_dir e) (dex_num s) (Z.of_nat (length dex_file_m)) in
  let store_it := match files e !! path with Some _ => false | None => creatable e path end in
  {| env := {| cmdline := cmdline e; directories := directories e;
               files := if store_it then <[path := dex_file_m]> (files e) else files e;
               creatable := creatable e |};
     memory := memory s; filter_ := filter_ s; started := started s; dex_addrs := dex_addrs s;
     dex_num := s32 (dex_num s + 1); lists_read := lists_read s; pending := pending s;
     resolved := resolved s;
     written := written s ++ [{| d_dex := dex; d_level := level; d_path := path;
                                 d_bytes := dex_file_m; d_stored := store_it |}] |}.

(** ** The three levels *)

(** The tests that all levels begin with: the dex file knows the component's name, and its
    address is new.  The string is passed with its terminating zero. *)
Definition is_target (f : KarlGeratUFilter) (df : DexFile) : option bool :=
  id ← FindStringId df (get_component_name f ++ [0]);
  Some (match id with Some _ => true | None => false end).

(** Level 1. *)
Definition dump_dex (m : ArtMethod) (s : Unpacker) : option Unpacker :=
  match filter_ s with
  | None => Some s
  | Some f =>
      df ← memory s !! GetDexFile m;
      id ← is_target f df;
      if negb id then Some s
      else if bool_decide (GetDexFile m ∈ dex_addrs s) then Some s
      else
        let s := capture (GetDexFile m) false s in
        begin_m ← check_and_repair_DEX_magic (begin_ df);
        Some (write_file (GetDexFile m) 1 begin_m s)
  end.

(** Level 2, up to the loop over the classes. *)
Definition dump_dex_after_init (m : ArtMethod) (s : Unpacker) : option Unpacker :=
  match filter_ s with
  | None => Some s
  | Some f =>
      df ← memory s !! GetDexFile m;
      id ← is_target f df;
      if negb id then Some s
      else if bool_decide (GetDexFile m ∈ dex_addrs s) then Some s
      else
        let s := capture (GetDexFile m) false s in
        Some (set_pending (Level2 (GetDexFile m) (NumClassDefs df) 0 (begin_ df) :: pending s)
                [] s)
  end.

(** Level 3, up to the loop over the classes. *)
Definition build_dex (m : ArtMethod) (s : Unpacker) : option Unpacker :=
  match filter_ s with
  | None => Some s
  | Some f =>
      df ← memory s !! GetDexFile m;
      id ← is_target f df;
      if negb id then Some s
      else if negb (contains (GetDeclaringClassDescriptor m) (get_component_name f)) then Some s
      else if bool_decide (GetDexFile m ∈ dex_addrs s) then Some s
      else
        let s := capture (GetDexFile m) true s in
        Some (set_pending (Level3 (GetDexFile m) (NumClassDefs df) 0
                             (init_segments df new_DexBuilder) :: pending s) [] s)
  end.

(** The hook.  [fresh] are the values that the memory of a new filter happens to hold;
    [overflow] is the outcome of the stack check before the hook. *)
Definition init (fresh : bool * bool * UnpackMode) (s : Unpacker) : Unpacker :=
  match filter_ s with
  | Some _ => s
  | None => set_filter (new_filter fresh.1.1 fresh.1.2 fresh.2) (lists_read s) s
  end.

Definition Invoke (fresh : bool * bool * UnpackMode) (overflow : bool) (m : ArtMethod)
    (s : Unpacker) : option Unpacker :=
  if overflow then Some s
  else
    let s := init fresh s in
    if negb (started s) then
      match filter_ s with
      | None => Some s
      | Some f =>
          let '(f, on) := get_flag (env s) f in
          let s := set_filter f (lists_read s) s in
          if on then
            if get_force_init_flag f then
              let s := if lists_read s then s else set_filter (read_list_files (env s) f) true s in
              if get_rebuild_flag f then build_dex m s else dump_dex_after_init m s
            else dump_dex m s
          else Some s
      end
    else Some s.

(** ** The loops over the classes *)

(** What level 2 reads of a method before resolving it: [code_item_off > 0] holds when the
    method has code. *)
Definition look_method (class_flags : Z) (it : ClassDataItemIterator) : Z * InvokeType * Z :=
  (GetMemberIndex it, GetMethodInvokeType class_flags it,
   match GetCodeItem (GetMethodCodeItemOffset it) with Some off => off | None => -1 end).

(** The body of level 2's loop for one class: the calls of [ResolveMethod] it makes.  Every
    member takes two bytes or more, so the length of the file bounds the walk. *)
Definition enumerate_methods (df : DexFile) (class_idx : Z) : option (list (Z * InvokeType)) :=
  class_def ← GetClassDef df class_idx;
  match GetClassData class_def with
  | None => Some []
  | Some class_data_item =>
      let fuel := length (begin_ df) in
      it ← MakeClassDataItemIterator (drop (Z.to_nat class_data_item) (begin_ df));
      '(_, it) ← visit fuel HasNextStaticField GetMemberIndex it;
      '(_, it) ← visit fuel HasNextInstanceField GetMemberIndex it;
      '(dm, it) ← visit fuel HasNextDirectMethod (look_method (access_flags_ class_def)) it;
      '(vm, it) ← visit fuel HasNextVirtualMethod (look_method (access_flags_ class_def)) it;
      Some (omap (fun '(idx, ty, off) => if 0 <? off then Some (idx, ty) else None) (dm ++ vm))
  end.

Section Unpacking.
  (** [DexBuilder::build_ClassDataItem2] is declared and called, and has no definition. *)
  Context (build_ClassDataItem2 : DexFile -> ClassDef -> DexBuilder -> DexBuilder).

(** The body of level 3's loop for one class; [found] tells whether [FindClass] answers. *)
Definition build_class (found : bool) (f : KarlGeratUFilter) (df : DexFile) (class_idx : Z)
    (b : DexBuilder) : option DexBuilder :=
  class_def ← GetClassDef df class_idx;
  d ← GetClassDescriptor df class_def;
  class_name ← d;
  Some (if should_initialize f class_name then
          if found : bool then build_ClassDataItem b else build_ClassDataItem2 df class_def b
        else b).

(** The innermost dump does one more class. *)
Definition next_class (found : bool) (s : Unpacker) : option Unpacker :=
  match pending s with
  | [] => None
  | Level2 dex num class_idx begin_m :: frs =>
      if class_idx <? num then
        df ← memory s !! dex;
        calls ← enumerate_methods df class_idx;
        Some (set_pending (Level2 dex num (class_idx + 1) begin_m :: frs)
                (reverse ((fun '(idx, ty) => (dex, idx, ty)) <$> calls)) s)
      else None
  | Level3 dex num class_idx b :: frs =>
      if class_idx <? num then
        f ← filter_ s;
        df ← memory s !! dex;
        b ← build_class found f df class_idx b;
        Some (set_pending (Level3 dex num (class_idx + 1) b :: frs) [] s)
      else None
  end.

(** The innermost dump has done all its classes and is written. *)
Definition finish (s : Unpacker) : option Unpacker :=
  match pending s with
  | [] => None
  | Level2 dex num class_idx begin_m :: frs =>
      if class_idx <? num then None
      else
        df ← memory s !! dex;
        let header_and_index_len := data_off_ (header_ df) in
        begin_m ← (if (0 <? header_and_index_len) && (header_and_index_len <? Size df)
                   then store 0 (take (Z.to_nat header_and_index_len) (begin_ df)) begin_m
                   else Some begin_m);
        begin_m ← check_and_repair_DEX_magic begin_m;
        Some (write_file dex 2 begin_m (set_pending frs [] s))
  | Level3 dex num class_idx b :: frs =>
      if class_idx <? num then None
      else
        df ← memory s !! dex;
        '(_, out) ← write_dex df b;
        Some (write_file dex 3 out (set_pending frs [] s))
  end.

(** Everything else in the process: the system changes, dex files are loaded, and the code in
    loaded ones changes; they stay mapped with their sizes. *)
Definition set_world (e : Env) (mem : gmap Z DexFile) (s : Unpacker) : Unpacker :=
  {| env := e; memory := mem; filter_ := filter_ s; started := started s;
     dex_addrs := dex_addrs s; dex_num := dex_num s; lists_read := lists_read s;
     pending := pending s; resolved := resolved s; written := written s |}.

Definition stay_mapped (mem mem' : gmap Z DexFile) : Prop :=
  forall a df, mem !! a = Some df -> exists df', mem' !! a = Some df' /\ Size df' = Size df.

Inductive step : Unpacker -> Unpacker -> Prop :=
  | step_invoke fresh overflow m s s' : Invoke fresh overflow m s = Some s' -> step s s'
  | step_class found s s' : next_class found s = Some s' -> step s s'
  | step_finish s s' : finish s = Some s' -> step s s'
  | step_world e mem s : stay_mapped (memory s) mem -> step s (set_world e mem s).

(** A process in which nothing has been unpacked. *)
Definition initial (s : Unpacker) : Prop :=
  filter_ s = None /\ started s = false /\ dex_addrs s = ∅ /\ dex_num s = 0 /\
  lists_read s = false /\ pending s = [] /\ resolved s = [] /\ written s = [].

Definition reachable (s : Unpacker) : Prop := exists s0, initial s0 /\ rtc step s0 s.

(** The dumps begun, written first. *)
Definition begun (s : Unpacker) : list Z := (frame_dex <$> pending s) ++ (d_dex <$> written s).
Definition frame_level (fr : Frame) : Z := match fr with Level2 _ _ _ _ => 2 | Level3 _ _ _ _ => 3 end.
Definition levels (s : Unpacker) : list Z :=
  (frame_level <$> pending s) ++ (d_level <$> written s).

(** *** The invariant

    [invariant_with extra] is the invariant of a state in which the dumps [extra] (address and
    level) have been captured and are neither pending nor written. *)

Definition dump_ok (i : nat) (d : Dump) : Prop :=
  exists dir, d_path d = dump_path dir (s32 (Z.of_nat i)) (Z.of_nat (length (d_bytes d))).

Record invariant_with (extra : list (Z * Z)) (s : Unpacker) : Prop := {
  inv_nodup : NoDup (extra.*1 ++ begun s);
  inv_addrs : dex_addrs s = list_to_set (extra.*1 ++ begun s);
  inv_num : dex_num s = s32 (Z.of_nat (length (written s)));
  inv_paths : forall i d, written s !! i = Some d -> dump_ok i d;
  inv_level3 :
    count_occ Z.eq_dec (extra.*2 ++ levels s) 3 = (if started s then 1 else 0)%nat;
  inv_filter : started s = true -> is_Some (filter_ s);
}.
Abbreviation invariant := (invariant_with []).

Lemma invariant_capture dex level st s :
  (if st : bool then level = 3 else level <> 3) -> dex ∉ dex_addrs s -> started s = false ->
  is_Some (filter_ s) -> invariant s -> invariant_with [(dex, level)] (capture dex st s).
Proof.
  intros Hl Hn Hs Hf [Hnd Ha Hnum Hp H3 _]. rewrite Hs in H3.
  split; cbn [fmap list_fmap app fst snd].
  - apply NoDup_cons. rewrite Ha, elem_of_list_to_set in Hn. by split.
  - cbn. rewrite Ha. done.
  - done.
  - done.
  - destruct st; cbn [capture started]; rewrite Hs.
    + subst. rewrite count_occ_cons_eq by done. by f_equal.
    + by rewrite count_occ_cons_neq.
  - done.
Qed.

Lemma invariant_push fr calls s :
  invariant_with [(frame_dex fr, frame_level fr)] s ->
  invariant (set_pending (fr :: pending s) calls s).
Proof. by intros []. Qed.

Lemma invariant_pop fr frs calls s :
  pending s = fr :: frs -> invariant s ->
  invariant_with [(frame_dex fr, frame_level fr)] (set_pending frs calls s).
Proof.
  intros Hp []; unfold begun, levels in *; rewrite Hp in *. by split.
Qed.

Lemma invariant_replace fr fr' frs calls s :
  pending s = fr :: frs -> frame_dex fr' = frame_dex fr -> frame_level fr' = frame_level fr ->
  invariant s -> invariant (set_pending (fr' :: frs) calls s).
Proof.
  intros Hp Hd Hl H. apply (invariant_pop fr frs [] s Hp) in H as [].
  rewrite <- Hd, <- Hl in *. by split.
Qed.

Lemma s32_succ n : s32 (s32 n + 1) = s32 (n + 1).
Proof. word_lia. Qed.

Lemma invariant_write dex level bytes s :
  invariant_with [(dex, level)] s -> invariant (write_file dex level bytes s).
Proof.
  intros [Hnd Ha Hnum Hp H3 Hf].
  assert (Hb : begun (write_file dex level bytes s) ≡ₚ dex :: begun s).
  { unfold begun. cbn. rewrite fmap_app, (app_assoc _ (_ <$> written s)). cbn. by rewrite <- Permutation_cons_append. }
  split; cbn [fmap list_fmap app].
  - by rewrite Hb.
  - change (dex_addrs (write_file dex level bytes s)) with (dex_addrs s). rewrite Ha.
    apply set_eq. intros x. rewrite !elem_of_list_to_set. by rewrite Hb.
  - cbn [write_file dex_num written]. rewrite length_app, Nat2Z.inj_add, Hnum. apply s32_succ.
  - intros i d. cbn. rewrite lookup_app_Some, list_lookup_singleton_Some.
    intros [Hi|(Hi & ? & <-)]; [by apply Hp|].
    eexists. cbn [d_path d_bytes]. rewrite Hnum.
    by replace i with (length (written s)) by lia.
  - change (started (write_file dex level bytes s)) with (started s). rewrite <- H3.
    unfold levels. cbn [write_file pending written]. rewrite fmap_app, (app_assoc _ (_ <$> written s)).
    rewrite (count_occ_app Z.eq_dec (_ ++ _)), Nat.add_comm. by rewrite <- count_occ_app.
  - done.
Qed.

(** Setting the filter and the world do not matter. *)
Lemma invariant_set_filter f read s : invariant s -> invariant (set_filter f read s).
Proof. intros []. by split. Qed.

Lemma invariant_init fresh s : invariant s -> invariant (init fresh s).
Proof. unfold init. destruct (filter_ s); [done|]. apply invariant_set_filter. Qed.

(** The guards that the three levels begin with; what is left is a captured dex file. *)
Ltac capture_cases s H :=
  destruct (filter_ s) as [f|] eqn:Hf; [|simplify_eq; by eauto];
  destruct (memory s !! _) as [df|] eqn:Hdf; [|done]; cbn [mbind option_bind] in H;
  destruct (is_target f df) as [[]|]; [| |done]; cbn [mbind option_bind negb] in H;
  [|simplify_eq; by eauto];
  try (destruct (contains _ _); cbn [negb] in H; [|simplify_eq; by eauto]);
  case_bool_decide; [simplify_eq; by eauto|].

Lemma invariant_dump_dex m s s' :
  started s = false -> dump_dex m s = Some s' -> invariant s -> invariant s'.
Proof.
  unfold dump_dex. intros Hs H Hi. capture_cases s H.
  cbv zeta in H. destruct (check_and_repair_DEX_magic _); [|done]. cbn in H. simplify_eq.
  apply invariant_write, invariant_capture; done || by rewrite Hf.
Qed.

Lemma invariant_dump_dex_after_init m s s' :
  started s = false -> dump_dex_after_init m s = Some s' -> invariant s -> invariant s'.
Proof.
  unfold dump_dex_after_init. intros Hs H Hi. capture_cases s H.
  simplify_eq. apply (invariant_push (Level2 _ _ _ _)), invariant_capture; done || by rewrite Hf.
Qed.

Lemma invariant_build_dex m s s' :
  started s = false -> build_dex m s = Some s' -> invariant s -> invariant s'.
Proof.
  unfold build_dex. intros Hs H Hi. capture_cases s H.
  simplify_eq. apply (invariant_push (Level3 _ _ _ _)), invariant_capture; done || by rewrite Hf.
Qed.

Lemma started_init fresh s : started (init fresh s) = started s.
Proof. unfold init. by destruct (filter_ s). Qed.

Lemma invariant_Invoke fresh overflow m s s' :
  Invoke fresh overflow m s = Some s' -> invariant s -> invariant s'.
Proof.
  unfold Invoke. intros H Hi. destruct overflow; [by simplify_eq|].
  apply (invariant_init fresh) in Hi. revert H Hi. generalize (init fresh s). clear s. intros s H Hi.
  destruct (started s) eqn:Hs; cbn [negb] in H; [by simplify_eq|].
  destruct (filter_ s) as [f|]; [|by simplify_eq].
  destruct (get_flag (env s) f) as [f' on].
  pose proof (invariant_set_filter f' (lists_read s) s Hi) as Hi'.
  destruct on; [|by simplify_eq].
  destruct (get_force_init_flag f'); [|by eapply invariant_dump_dex; [|eassumption|]].
  cbv zeta in H.
  destruct (get_rebuild_flag f');
    [eapply invariant_build_dex; [|eassumption|]|eapply invariant_dump_dex_after_init; [|eassumption|]];
    cbn; destruct (lists_read s); try done; by apply invariant_set_filter.
Qed.

Lemma invariant_next_class found s s' :
  next_class found s = Some s' -> invariant s -> invariant s'.
Proof.
  unfold next_class. intros H Hi. destruct (pending s) as [|fr frs] eqn:Hp; [done|].
  destruct fr; destruct (_ <? _); simplify_option_eq; by eapply invariant_replace.
Qed.

Lemma invariant_finish s s' : finish s = Some s' -> invariant s -> invariant s'.
Proof.
  unfold finish. intros H Hi. destruct (pending s) as [|fr frs] eqn:Hp; [done|].
  pose proof (invariant_pop fr frs [] s Hp Hi) as Hi'.
  destruct fr; destruct (_ <? _); [done| |done|]; repeat (case_match || simplify_option_eq);
    by apply invariant_write.
Qed.

Lemma invariant_step s s' : step s s' -> invariant s -> invariant s'.
Proof.
  intros []; [by eapply invariant_Invoke|by eapply invariant_next_class|by eapply invariant_finish|].
  by intros [].
Qed.

Lemma invariant_initial s : initial s -> invariant s.
Proof.
  intros (Hf & Hs & Ha & Hn & _ & Hp & _ & Hw).
  split; unfold begun, levels; rewrite ?Hf, ?Hs, ?Ha, ?Hn, ?Hp, ?Hw; try done. constructor.
Qed.

Lemma invariant_steps s s' : rtc step s s' -> invariant s -> invariant s'.
Proof. induction 1; eauto using invariant_step. Qed.

Lemma invariant_reachable s : reachable s -> invariant s.
Proof. intros (s0 & H0 & H). by eapply invariant_steps, invariant_initial. Qed.

(** *** What becomes of a level 2 dump *)

(** A step leaves what is below the innermost dump, and what is written, as they are. *)
Lemma Invoke_grows fresh overflow m s s' :
  Invoke fresh overflow m s = Some s' ->
  (exists frs, pending s' = frs ++ pending s) /\ (exists ds, written s' = written s ++ ds).
Proof.
  assert (Hrefl : forall t, pending t = pending s -> written t = written s ->
    (exists frs, pending t = frs ++ pending s) /\ (exists ds, written t = written s ++ ds)).
  { intros t -> ->. split; [by exists []|exists []; by rewrite app_nil_r]. }
  assert (Hlevels : forall t, pending t = pending s -> written t = written s -> forall t',
    dump_dex m t = Some t' \/ dump_dex_after_init m t = Some t' \/ build_dex m t = Some t' ->
    (exists frs, pending t' = frs ++ pending s) /\ (exists ds, written t' = written s ++ ds)).
  { intros t Ep Ew t' [H|[H|H]].
    - unfold dump_dex in H. capture_cases t H.
      cbv zeta in H. destruct (check_and_repair_DEX_magic _); [|done]. cbn in H. simplify_eq. cbn.
      rewrite Ep, Ew. split; [by exists []|by eexists].
    - unfold dump_dex_after_init in H. capture_cases t H.
      simplify_eq. cbn. rewrite Ep, Ew. split; [by eexists [_]|exists []; by rewrite app_nil_r].
    - unfold build_dex in H. capture_cases t H.
      simplify_eq. cbn. rewrite Ep, Ew. split; [by eexists [_]|exists []; by rewrite app_nil_r]. }
  unfold Invoke. intros H. destruct overflow; [simplify_eq; by apply Hrefl|].
  assert (Ei : pending (init fresh s) = pending s /\ written (init fresh s) = written s)
    by (unfold init; by destruct (filter_ s)).
  destruct Ei as [Ep Ew]. revert H Ep Ew. generalize (init fresh s). intros t H Ep Ew.
  destruct (started t); cbn [negb] in H; [simplify_eq; by apply Hrefl|].
  destruct (filter_ t) as [f|]; [|simplify_eq; by apply Hrefl].
  destruct (get_flag (env t) f) as [f' on]. destruct on; [|simplify_eq; by apply Hrefl].
  destruct (get_force_init_flag f'); cbv zeta in H.
  - destruct (get_rebuild_flag f'); eapply Hlevels; [..|eauto| | |eauto]; cbn; by destruct (lists_read t).
  - eapply Hlevels; [..|eauto]; done.
Qed.

Lemma check_and_repair_inv p p' :
  check_and_repair_DEX_magic p = Some p' -> p' = dex_magic ++ drop 8 p /\ (8 <= length p)%nat.
Proof.
  intros H. destruct (decide (8 <= length p)%nat) as [Hl|Hl].
  - rewrite check_and_repair_spec in H by done. by simplify_eq.
  - exfalso. revert H. unfold check_and_repair_DEX_magic.
    destruct p as [|a [|b [|c [|d [|e [|f [|g [|h t]]]]]]]]; cbn in Hl; try lia;
      cbn; repeat (case_Zcmp; cbn); done.
Qed.

(** Level 2 starts from the bytes that are loaded when it begins. *)
Lemma Invoke_level2 fresh overflow m s s1 dex num i mirror :
  Invoke fresh overflow m s = Some s1 -> pending s1 = Level2 dex num i mirror :: pending s ->
  exists df, memory s !! dex = Some df /\ mirror = begin_ df.
Proof.
  assert (Hbad : forall t, pending t = pending s -> memory t = memory s ->
    pending t = Level2 dex num i mirror :: pending s ->
    exists df, memory s !! dex = Some df /\ mirror = begin_ df).
  { intros t -> _ H. apply (f_equal length) in H. cbn in H. lia. }
  assert (Hlevels : forall t, pending t = pending s -> memory t = memory s ->
    dump_dex m t = Some s1 \/ dump_dex_after_init m t = Some s1 \/ build_dex m t = Some s1 ->
    pending s1 = Level2 dex num i mirror :: pending s ->
    exists df, memory s !! dex = Some df /\ mirror = begin_ df).
  { intros t Ep Em [H|[H|H]] Hp.
    - unfold dump_dex in H. capture_cases t H.
      cbv zeta in H. destruct (check_and_repair_DEX_magic _); [|done]. cbn in H. simplify_eq.
      by eapply Hbad.
    - unfold dump_dex_after_init in H. capture_cases t H. simplify_eq. cbn in Hp. simplify_eq.
      rewrite <- Em. eauto.
    - unfold build_dex in H. capture_cases t H. by simplify_eq. }
  unfold Invoke. intros H Hp. destruct overflow; [simplify_eq; by eapply Hbad|].
  assert (Ei : pending (init fresh s) = pending s /\ memory (init fresh s) = memory s)
    by (unfold init; by destruct (filter_ s)).
  destruct Ei as [Ep Em]. revert H Ep Em. generalize (init fresh s). intros t H Ep Em.
  destruct (started t); cbn [negb] in H; [simplify_eq; by eapply Hbad|].
  destruct (filter_ t) as [f|]; [|simplify_eq; by eapply Hbad].
  destruct (get_flag (env t) f) as [f' on]. destruct on; [|simplify_eq; by eapply Hbad].
  destruct (get_force_init_flag f'); cbv zeta in H.
  - destruct (get_rebuild_flag f'); eapply Hlevels; [..|eauto|done| | |eauto|done];
      cbn; by destruct (lists_read t).
  - eapply Hlevels; [..|eauto|done]; done.
Qed.

(** The bytes that [finish] makes of the mirror, [df] being the file in memory then. *)
Definition captured (mirror : list Z) (df : DexFile) (bytes : list Z) : Prop :=
  length bytes = length mirror /\ take 8 bytes = dex_magic /\
  forall k : nat, (8 <= k)%nat -> data_off_ (header_ df) <= Z.of_nat k -> bytes !! k = mirror !! k.

Lemma finish_level2 dex num i mirror frs s s' :
  pending s = Level2 dex num i mirror :: frs -> finish s = Some s' ->
  exists df d, memory s !! dex = Some df /\ pending s' = frs /\ written s' = written s ++ [d] /\
    d_dex d = dex /\ d_level d = 2 /\ captured mirror df (d_bytes d).
Proof.
  unfold finish. intros -> H. destruct (_ <? _); [done|].
  destruct (memory s !! dex) as [df|]; [|done]. cbn [mbind option_bind] in H.
  destruct (if (_ && _)%bool then _ : option (list Z) else _) as [m1|] eqn:E1 in H; [|done].
  cbn [mbind option_bind] in H.
  destruct (check_and_repair_DEX_magic m1) as [m2|] eqn:E2; [|done]. injection H as <-.
  exists df. eexists. split_all; [done..|]. cbn [d_bytes].
  apply check_and_repair_inv in E2 as [-> Hl].
  assert (Hm : length m1 = length mirror /\
    forall k : nat, data_off_ (header_ df) <= Z.of_nat k -> m1 !! k = mirror !! k).
  { case_match; [|by simplify_eq]. split; [by eapply store_length|].
    intros k Hk. eapply store_outside; [exact E1|]. right. rewrite length_take. lia. }
  destruct Hm as [Hm Hk]. unfold captured. split_all.
  - rewrite length_app, length_drop. cbn. lia.
  - done.
  - intros k H8 Hd. rewrite lookup_app_r by (cbn; lia). rewrite lookup_drop, <- Hk by done.
    f_equal. cbn. lia.
Qed.

Lemma next_class_pending found s s' :
  next_class found s = Some s' ->
  exists fr fr' frs, pending s = fr :: frs /\ pending s' = fr' :: frs /\ written s' = written s /\
    forall dex num i mirror, fr = Level2 dex num i mirror -> fr' = Level2 dex num (i + 1) mirror.
Proof.
  unfold next_class. intros H. destruct (pending s) as [|fr frs] eqn:Hp; [done|].
  destruct fr; (destruct (_ <? _); [|done]); simplify_option_eq; eexists _, _, frs; cbn;
    split_all; try done; intros; by simplify_eq.
Qed.

Lemma finish_pending s s' :
  finish s = Some s' ->
  exists fr frs ds, pending s = fr :: frs /\ pending s' = frs /\ written s' = written s ++ ds.
Proof.
  unfold finish. intros H. destruct (pending s) as [|fr frs] eqn:Hp; [done|].
  destruct fr; (destruct (_ <? _); [done|]); repeat (case_match || simplify_option_eq);
    by eexists _, _, _.
Qed.

(** From [s1] on, the dump of [dex] is under way with its mirror or was written by [finish]. *)
Definition traced (s1 : Unpacker) (dex : Z) (mirror : list Z) (s2 : Unpacker) : Prop :=
  (exists num i, Level2 dex num i mirror ∈ pending s2) \/
  (exists s' df d, rtc step s1 s' /\ rtc step s' s2 /\ memory s' !! dex = Some df /\
     d ∈ written s2 /\ d_dex d = dex /\ d_level d = 2 /\ captured mirror df (d_bytes d)).

Lemma traced_step s1 dex mirror s2 s3 :
  rtc step s1 s2 -> step s2 s3 -> traced s1 dex mirror s2 -> traced s1 dex mirror s3.
Proof.
  intros H12 Hs Ht.
  assert (Hw : exists ds, written s3 = written s2 ++ ds).
  { destruct Hs as [? ? ? s s' H|? s s' H|s s' H|? ? s H].
    - by apply Invoke_grows in H as [_ ?].
    - apply next_class_pending in H as (? & ? & ? & _ & _ & -> & _). exists []. by rewrite app_nil_r.
    - apply finish_pending in H as (? & ? & ds & _ & _ & ->). by exists ds.
    - exists []. by rewrite app_nil_r. }
  destruct Ht as [(num & i & Hin)|(s' & df & d & H1 & H2 & Hm & Hd & Hrest)].
  2:{ right. exists s', df, d. split_all; try apply Hrest; try done; [by eapply rtc_r|].
      destruct Hw as [ds ->]. apply elem_of_app. by left. }
  inversion Hs as [? ? ? s s' H|found s s' H|s s' H|? ? s H]; subst.
  - left. apply Invoke_grows in H as [[frs ->] _]. exists num, i. apply elem_of_app. by right.
  - left. apply next_class_pending in H as (fr & fr' & frs & Hp & -> & _ & Hl).
    rewrite Hp in Hin. apply elem_of_cons in Hin as [<-|Hin].
    + exists num, (i + 1). rewrite (Hl _ _ _ _ eq_refl). apply elem_of_cons. by left.
    + exists num, i. apply elem_of_cons. by right.
  - pose proof (finish_pending _ _ H) as (fr & frs & ds & Hp & Hp' & _).
    rewrite Hp in Hin. apply elem_of_cons in Hin as [<-|Hin].
    + right. apply (finish_level2 _ _ _ _ _ _ _ Hp) in H as (df & d & Hm & _ & Hw' & Hd).
      exists s2, df, d. split_all; try apply Hd; try done; [by apply rtc_once|].
      rewrite Hw'. apply elem_of_app. right. by apply list_elem_of_singleton.
    + left. exists num, i. by rewrite Hp'.
  - left. by exists num, i.
Qed.

Lemma traced_steps s1 dex mirror s2 :
  rtc step s1 s2 -> traced s1 dex mirror s1 -> traced s1 dex mirror s2.
Proof.
  intros H Ht. revert s2 H. apply rtc_ind_r; [done|]. intros. by eapply traced_step.
Qed.

(** *** Level 3 when every class is found *)

(** The loop over the classes, [FindClass] answering for all of them. *)
Fixpoint all_found (n : nat) (s : Unpacker) : option Unpacker :=
  match n with
  | O => Some s
  | S n => s ← next_class true s; all_found n s
  end.

Lemma build_class_found f df i b b' : build_class true f df i b = Some b' -> b' = b.
Proof.
  unfold build_class, build_ClassDataItem. intros H. simplify_option_eq. by case_match.
Qed.

Lemma all_found_level3 n dex num i b frs s s' :
  pending s = Level3 dex num i b :: frs -> all_found n s = Some s' ->
  pending s' = Level3 dex num (i + Z.of_nat n) b :: frs /\ written s' = written s /\
  memory s' = memory s.
Proof.
  revert i s. induction n as [|n IH]; cbn [all_found]; intros i s Hp H.
  - simplify_eq. by rewrite Z.add_0_r.
  - destruct (next_class true s) as [s1|] eqn:E; [|done]. cbn [mbind option_bind] in H.
    unfold next_class in E. rewrite Hp in E. destruct (_ <? _); [|done].
    destruct (filter_ s) as [f|]; [|done]. cbn [mbind option_bind] in E.
    destruct (memory s !! dex) as [df|]; [|done]. cbn [mbind option_bind] in E.
    destruct (build_class true f df i b) as [b'|] eqn:Eb; [|done]. cbn in E. simplify_eq.
    apply build_class_found in Eb as ->.
    edestruct (IH (i + 1)) as (-> & -> & ->); [|exact H|]; [done|]. cbn.
    split_all; try done. do 2 f_equal. lia.
Qed.

(** A builder that collected nothing meets the demands of the output pass. *)
Lemma wf_rebuild_new df :
  wf_class_defs df -> 2 * Size df < 2 ^ 32 -> wf_rebuild df (init_segments df new_DexBuilder).
Proof.
  intros Hw Hs. pose proof Hw as (? & ? & ? & _).
  assert (0x70 <= Size df) by lia. pose proof (align16_spec (Size df) ltac:(lia)) as [? _].
  unfold wf_rebuild. split_all; cbn; try done; try lia; try by constructor.
  - unfold file_end, data_start, code_start. cbn. unfold total_size. cbn. lia.
Qed.
End Unpacking.

(** *** The configuration *)

Definition no_space (w : list Z) : Prop := Forall (fun c => is_space c = false) w.

Lemma take_until_app w c rest stop :
  Forall (fun x => stop x = false) w -> stop c = true ->
  take_until stop (w ++ c :: rest) = (w, c :: rest).
Proof. induction 1 as [|x w Hx _ IH]; intros Hc; cbn; [by rewrite Hc|]. rewrite Hx. by rewrite IH. Qed.

Definition spaces (sp : list Z) : Prop := Forall (fun c => is_space c = true) sp.

Lemma skip_spaces sp s : spaces sp -> skip_space (sp ++ s) = skip_space s.
Proof. induction 1 as [|c sp Hc _ IH]; [done|]. cbn. by rewrite Hc. Qed.

(** Reading the next word, and reading when there is none. *)
Lemma read_word_next str sp w c rest :
  spaces sp -> no_space w -> w <> [] -> is_space c = true ->
  read_word str (sp ++ w ++ c :: rest) = (w, c :: rest).
Proof.
  intros Hsp Hw Hn Hc. unfold read_word. rewrite skip_spaces by done.
  destruct w as [|x w]; [done|]. pose proof (proj1 (Forall_cons_1 _ _ _ Hw)) as Hx.
  cbn [skip_space app]. rewrite Hx. rewrite app_comm_cons. by rewrite take_until_app.
Qed.

Lemma read_word_none str sp : spaces sp -> read_word str sp = (str, []).
Proof.
  intros H. unfold read_word. rewrite <- (app_nil_r sp), skip_spaces by done. done.
Qed.

Lemma init_segments_size df0 df b : Size df0 = Size df -> init_segments df0 b = init_segments df b.
Proof. intros H. unfold init_segments. by rewrite H. Qed.

(** ** A process to unpack

    One dex file, at address 1000, with one class [A] that has one method with code. *)

Definition sample_app_dex (code : list Z) : list Z :=
  kDexMagic ++ [0; 0; 0; 0] ++ le_bytes 4 0 ++ replicate 20 0 ++
  concat (le_bytes 4 <$>
    [180; 0x70; 0x12345678; 0; 0; 0;
     1; 112; 1; 116; 0; 0; 0; 0; 0; 0; 1; 120; 28; 152]) ++
  le_bytes 4 152 ++ le_bytes 4 0 ++
  (le_bytes 4 0 ++ replicate 20 0 ++ le_bytes 4 155 ++ le_bytes 4 0) ++
  [1; 65; 0] ++ [0; 0; 1; 0; 0; 1; 0xa4; 0x01] ++ [0] ++ code.

Definition sample_app_df (code : list Z) : DexFile :=
  default sample_df (MakeDexFile (sample_app_dex code)).
Definition encrypted : DexFile := sample_app_df (replicate 16 255).
Definition decrypted : DexFile := sample_app_df (replicate 16 1).

Definition sample_process (config : list Z) : Unpacker :=
  {| env := {| cmdline := bytes_of "app"; directories := {[ bytes_of "/data/data/app" ]};
               files := {[ bytes_of "/data/data/app/unpack.txt" := config ]};
               creatable := fun _ => true |};
     memory := {[ 1000 := encrypted ]}; filter_ := None; started := false; dex_addrs := ∅;
     dex_num := 0; lists_read := false; pending := []; resolved := []; written := [] |}.

Definition newline : list Z := [10].
Definition level2_process : Unpacker :=
  sample_process (bytes_of "A" ++ newline ++ bytes_of "force-dump" ++ newline).
Definition level3_process : Unpacker :=
  sample_process (bytes_of "A" ++ newline ++ bytes_of "force-rebuild" ++ newline).
Definition sample_method : ArtMethod :=
  {| GetDexFile := 1000; GetDeclaringClassDescriptor := bytes_of "A" |}.
Definition zeroes : bool * bool * UnpackMode := (false, false, black).

(** No class is built statically. *)
Definition nothing_static (df : DexFile) (c : ClassDef) (b : DexBuilder) : DexBuilder := b.

Definition run (f : Unpacker -> option Unpacker) (s : Unpacker) : Unpacker := default s (f s).
Definition level2_begun : Unpacker := run (Invoke zeroes false sample_method) level2_process.
(** The class is enumerated while its code is decrypted. *)
Definition level2_looped : Unpacker :=
  run (next_class nothing_static true)
    (set_world (env level2_begun) {[ 1000 := decrypted ]} level2_begun).
Definition level2_done : Unpacker := run finish level2_looped.
Definition level3_begun : Unpacker := run (Invoke zeroes false sample_method) level3_process.

Example level2_resolves : resolved level2_done = [(1000, 0, kDirect)].
Proof. by vm_compute. Qed.

Lemma initial_sample config : initial (sample_process config).
Proof. by unfold initial. Qed.

Lemma run_level2 : rtc (step nothing_static) level2_begun level2_done.
Proof.
  apply (rtc_l _ _ (set_world (env level2_begun) {[ 1000 := decrypted ]} level2_begun)).
  - apply step_world. intros a df.
    assert (E : memory level2_begun = {[ 1000 := encrypted ]}) by (vm_compute; reflexivity).
    rewrite E. intros [<- <-]%lookup_singleton_Some. exists decrypted.
    by rewrite lookup_singleton_eq.
  - apply (rtc_l _ _ level2_looped).
    + apply (step_class _ true). vm_compute. reflexivity.
    + apply rtc_once, step_finish. vm_compute. reflexivity.
Qed.

Lemma begin_level2 : Invoke zeroes false sample_method level2_process = Some level2_begun.
Proof. by vm_compute. Qed.

(** ** Properties *)

(** What [check_flag] makes of a file of three words. *)
Lemma check_flag_words e f w1 w2 w3 sp1 sp2 sp3 rest :
  flag f = false -> w1 <> [] -> no_space w1 -> w2 <> [] -> no_space w2 -> w3 <> [] ->
  no_space w3 -> spaces sp1 -> spaces sp2 -> spaces sp3 ->
  files e !! (get_apk_dir e ++ bytes_of "/unpack.txt")
    = Some (sp1 ++ w1 ++ 10 :: sp2 ++ w2 ++ 10 :: sp3 ++ w3 ++ 10 :: rest) ->
  let f' := check_flag e f in
  let forced := streq w2 (bytes_of "force-rebuild") || streq w2 (bytes_of "force-dump") in
  flag f' = true /\ component_name f' = w1 /\ force_init_flag f' = forced /\
  (forced = true -> rebuild_flag f' = streq w2 (bytes_of "force-rebuild") /\
     mode f' = if streq w3 (bytes_of "white") then white else black).
Proof.
  intros Hnew N1 S1 N2 S2 N3 S3 P1 P2 P3 Hfile. cbv zeta. unfold check_flag. rewrite Hnew, Hfile.
  rewrite (read_word_next _ sp1 w1 10) by done.
  replace (nonempty w1) with true by by destruct w1. rewrite app_comm_cons.
  rewrite (read_word_next _ (10 :: sp2) w2 10) by (done || by constructor).
  replace (nonempty w2) with true by by destruct w2. rewrite app_comm_cons.
  rewrite (read_word_next _ (10 :: sp3) w3 10) by (done || by constructor).
  replace (nonempty w3) with true by by destruct w3. cbn [andb].
  destruct (streq w2 (bytes_of "force-rebuild")), (streq w2 (bytes_of "force-dump")); cbn;
    split_all; try done; intros _; (split; [done|]); unfold streq at 1;
    (case_bool_decide; [by subst|done]).
Qed.

(** What the hook does, by the flags of the filter. *)
Lemma Invoke_levels fresh m s f :
  filter_ s = Some f -> started s = false ->
  let f' := check_flag (env s) f in
  let s' := set_filter f' (lists_read s) s in
  let s'' := if lists_read s then s' else set_filter (read_list_files (env s) f') true s in
  Invoke fresh false m s =
    if flag f' then
      if force_init_flag f' then
        if rebuild_flag f' then build_dex m s'' else dump_dex_after_init m s''
      else dump_dex m s'
    else Some s'.
Proof.
  intros Hf Hst. cbv zeta. unfold Invoke, init. rewrite Hf, Hst. cbn [negb]. by rewrite Hf.
Qed.

(** The configuration file selects the unpacking level.  When [unpack.txt] holds three
    words, the filter that had not been configured is switched on for the component named by the
    first, and never reads the file again; the hook then starts level 3 if the second word is
    [force-rebuild], level 2 if it is [force-dump] and level 1 otherwise, reading the list files
    (once in the life of the process) before levels 2 and 3; the third word selects the white
    list when it is [white] and the black list otherwise.  While the file is missing or blank,
    the hook does nothing. *)
Theorem config_selects_level (s : Unpacker) (f : KarlGeratUFilter) (m : ArtMethod)
    (fresh : bool * bool * UnpackMode) (w1 w2 w3 : list Z) (sp1 sp2 sp3 rest : list Z)
    (file : option (list Z))
    (Hf : filter_ s = Some f) (Hst : started s = false)
    (Hnew : flag f = false) (Hcn : component_name f = [])
    (H1 : w1 <> [] /\ no_space w1) (H2 : w2 <> [] /\ no_space w2) (H3 : w3 <> [] /\ no_space w3)
    (Hsp : spaces sp1 /\ spaces sp2 /\ spaces sp3)
    (Hfile : files (env s) !! (get_apk_dir (env s) ++ bytes_of "/unpack.txt") = file) :
  (file = Some (sp1 ++ w1 ++ 10 :: sp2 ++ w2 ++ 10 :: sp3 ++ w3 ++ 10 :: rest) ->
   let f' := check_flag (env s) f in
   let s' := set_filter f' (lists_read s) s in
   let s'' := if lists_read s then s' else set_filter (read_list_files (env s) f') true s in
   flag f' = true /\ component_name f' = w1 /\ (forall e, check_flag e f' = f') /\
   Invoke fresh false m s =
     (if streq w2 (bytes_of "force-rebuild") then build_dex m s''
      else if streq w2 (bytes_of "force-dump") then dump_dex_after_init m s''
      else dump_dex m s') /\
   (streq w2 (bytes_of "force-rebuild") || streq w2 (bytes_of "force-dump") = true ->
    mode f' = if streq w3 (bytes_of "white") then white else black)) /\
  ((file = None \/ exists sp, file = Some sp /\ spaces sp) ->
   exists f', Invoke fresh false m s = Some (set_filter f' (lists_read s) s) /\ flag f' = false).
Proof.
  destruct H1 as [N1 S1], H2 as [N2 S2], H3 as [N3 S3], Hsp as (P1 & P2 & P3).
  rewrite (Invoke_levels fresh m s f) by done. cbv zeta. split.
  - intros ->.
    destruct (check_flag_words _ _ _ _ _ _ _ _ _ Hnew N1 S1 N2 S2 N3 S3 P1 P2 P3 Hfile)
      as (Hflag & Hc & Hforce & Hrest).
    rewrite Hflag, Hforce. split_all; [done|done| | |intros Hw; apply (Hrest Hw)].
    + intros e. unfold check_flag at 1. by rewrite Hflag.
    + destruct (streq w2 (bytes_of "force-rebuild")), (streq w2 (bytes_of "force-dump"));
        cbn [orb] in *; try done; by destruct Hrest as [-> _].
  - intros Hno. exists (check_flag (env s) f).
    assert (Hflag : flag (check_flag (env s) f) = false); [|by rewrite Hflag].
    unfold check_flag. rewrite Hnew, Hfile. destruct Hno as [->|(sp & -> & Hsp)]; [done|].
    rewrite read_word_none by done. by rewrite Hcn.
Qed.

(** C2: however the invocations of the application interleave with dumps under way, every dex
    file is captured at most once: the captured addresses are exactly those of the dumps under
    way or written, without repetition; the n-th file written has n in its name and its size;
    level 3 runs at most once in the life of the process, and once it has started no invocation
    changes the state of the unpacker. *)
Theorem dumped_at_most_once (build_ClassDataItem2 : DexFile -> ClassDef -> DexBuilder -> DexBuilder)
    (s : Unpacker) (Hr : reachable build_ClassDataItem2 s) :
  NoDup (begun s) /\ (forall a, a ∈ dex_addrs s <-> a ∈ begun s) /\
  (forall i d, written s !! i = Some d ->
     exists dir, d_path d = dump_path dir (s32 (Z.of_nat i)) (Z.of_nat (length (d_bytes d)))) /\
  count_occ Z.eq_dec (levels s) 3 = (if started s then 1 else 0)%nat /\
  (started s = true -> forall fresh overflow m, Invoke fresh overflow m s = Some s).
Proof.
  apply invariant_reachable in Hr as [Hnd Ha _ Hp H3 Hf]. split_all; try done.
  - intros a. by rewrite Ha, elem_of_list_to_set.
  - intros Hs fresh overflow m. destruct (Hf Hs) as [f E].
    unfold Invoke, init. rewrite E, Hs. by destruct overflow.
Qed.

(** C33: level 2 writes the code as it was when the dump began.  Of a dump that an invocation
    begins, the file written at its end (after any number of other steps of the process, in
    which the classes are loaded and code may be decrypted in place) has a valid magic, and
    from the end of header and indices on holds the bytes that were in memory before the dump
    began, whatever is there by then. *)
Theorem level2_code_is_stale
    (build_ClassDataItem2 : DexFile -> ClassDef -> DexBuilder -> DexBuilder)
    (s s1 s2 : Unpacker) (fresh : bool * bool * UnpackMode) (overflow : bool) (m : ArtMethod)
    (dex num : Z) (mirror : list Z) (d : Dump)
    (Hr : reachable build_ClassDataItem2 s)
    (Hi : Invoke fresh overflow m s = Some s1)
    (Hp : pending s1 = Level2 dex num 0 mirror :: pending s)
    (Hs : rtc (step build_ClassDataItem2) s1 s2)
    (Hd : d ∈ written s2) (Hdex : d_dex d = dex) :
  exists df s' df', memory s !! dex = Some df /\
    rtc (step build_ClassDataItem2) s1 s' /\ rtc (step build_ClassDataItem2) s' s2 /\
    memory s' !! dex = Some df' /\
    d_level d = 2 /\ length (d_bytes d) = length (begin_ df) /\ take 8 (d_bytes d) = dex_magic /\
    forall k : nat, (8 <= k)%nat -> data_off_ (header_ df') <= Z.of_nat k ->
      d_bytes d !! k = begin_ df !! k.
Proof.
  destruct (Invoke_level2 _ _ _ _ _ _ _ _ _ Hi Hp) as (df & Hm & ->).
  assert (H1 : rtc (step build_ClassDataItem2) s s1) by (by eapply rtc_once, step_invoke).
  assert (Hinv : invariant_with [] s2).
  { eapply invariant_steps, invariant_reachable, Hr. by etrans. }
  assert (Ht : traced build_ClassDataItem2 s1 dex (begin_ df) s2).
  { apply traced_steps; [done|]. left. exists num, 0. rewrite Hp. apply elem_of_cons. by left. }
  destruct Hinv as [Hnd _ _ _ _ _]. unfold begun in Hnd. cbn in Hnd.
  apply NoDup_app in Hnd as (_ & Hdisj & Hnd).
  destruct Ht as [(n & i & Hin)|(s' & df' & d' & Hs1 & Hs2 & Hm' & Hd' & Hdex' & Hl & Hc)].
  - exfalso. apply (Hdisj dex).
    + apply list_elem_of_fmap. by eexists (Level2 dex n i _).
    + apply list_elem_of_fmap. by exists d.
  - assert (d = d') as <-.
    { apply list_elem_of_lookup in Hd as [j Hj], Hd' as [j' Hj'].
      assert (j = j') as <-; [|by simplify_eq].
      eapply NoDup_lookup; [exact Hnd| |]; rewrite list_lookup_fmap, ?Hj, ?Hj'; cbn; [done|].
      by rewrite Hdex', Hdex. }
    destruct Hc as (? & ? & ?). exists df, s', df'. by split_all.
Qed.

(** Level 3 adds nothing for the classes it finds.  If the class linker finds every class
    (or it is bypassed), the file that level 3 writes is the loaded one padded to 16 bytes with
    header and magic repaired: no code and no class data are appended, and every class keeps
    its [class_data_off_], because [build_ClassDataItem] collects nothing. *)
Theorem level3_found_adds_nothing
    (build_ClassDataItem2 : DexFile -> ClassDef -> DexBuilder -> DexBuilder)
    (s s1 : Unpacker) (dex num : Z) (frs : list Frame) (df0 df : DexFile)
    (Hp : pending s = Level3 dex num 0 (init_segments df0 new_DexBuilder) :: frs)
    (Hn : 0 <= num) (Ha : all_found build_ClassDataItem2 (Z.to_nat num) s = Some s1)
    (Hm : memory s !! dex = Some df) (Hsz : Size df0 = Size df)
    (Hcd : wf_class_defs df) (Hsmall : 2 * Size df < 2 ^ 32) :
  exists s2 d, finish s1 = Some s2 /\ pending s2 = frs /\ written s2 = written s ++ [d] /\
    d_dex d = dex /\ Z.of_nat (length (d_bytes d)) = align16 (Size df) /\
    load 0 8 (d_bytes d) = dex_magic /\
    (forall i c, 0 <= i < NumClassDefs df -> GetClassDef df i = Some c ->
       get_le 4 (ClassDefOffset df i + 24) (d_bytes d) = class_data_off_ c) /\
    (forall k : nat, Z.of_nat k < Size df ->
       ~ (Z.of_nat k < 8) -> ~ (32 <= Z.of_nat k < 112) ->
       ~ class_data_off_byte df (NumClassDefs df) (Z.of_nat k) ->
       d_bytes d !! k = begin_ df !! k).
Proof.
  rewrite (init_segments_size df0 df) in Hp by done.
  destruct (all_found_level3 _ _ _ _ _ _ _ _ _ Hp Ha) as (Hp1 & Hw1 & Hm1).
  destruct (write_dex_spec df _ (wf_rebuild_new df Hcd Hsmall))
    as (b' & out & E & L & M & _ & _ & _ & _ & _ & _ & _ & N & O & F).
  unfold finish. rewrite Hp1, Hm1, Hm. case_Zcmp; [lia|].
  cbn [mbind option_bind]. rewrite E. cbn [mbind option_bind].
  eexists _, _. split; [done|]. cbn. rewrite Hw1. split_all; try done.
  - cbn [d_bytes]. rewrite L. unfold file_end, data_start, code_start, total_size. cbn. lia.
  - intros i c Hi Hc. rewrite N; [by apply class_data_off_original|done|].
    unfold class_data_off_at. rewrite Hc. cbn [mbind option_bind]. rewrite O; [done|].
    cbn. apply not_elem_of_nil.
Qed.

Lemma level2_code_is_stale_witness :
  exists d df s' df', d ∈ written level2_done /\ memory level2_process !! 1000 = Some df /\
    rtc (step nothing_static) level2_begun s' /\ rtc (step nothing_static) s' level2_done /\
    memory s' !! 1000 = Some df' /\
    d_level d = 2 /\ length (d_bytes d) = length (begin_ df) /\ take 8 (d_bytes d) = dex_magic /\
    forall k : nat, (8 <= k)%nat -> data_off_ (DexFile.header_ df') <= Z.of_nat k ->
      d_bytes d !! k = begin_ df !! k.
Proof.
  eexists. 
  edestruct (level2_code_is_stale nothing_static level2_process level2_begun level2_done zeroes
    false sample_method 1000 1 (begin_ encrypted)) as (df & s' & df' & H).
  - exists level2_process. split; [apply initial_sample|done].
  - exact begin_level2.
  - by vm_compute.
  - exact run_level2.
  - vm_compute. left.
  - done.
  - exists df, s', df'. split; [vm_compute; left|]. exact H.
Defined.

Lemma dumped_at_most_once_witness :
  NoDup (begun level2_done) /\ (forall a, a ∈ dex_addrs level2_done <-> a ∈ begun level2_done) /\
  (forall i d, written level2_done !! i = Some d ->
     exists dir, d_path d = dump_path dir (s32 (Z.of_nat i)) (Z.of_nat (length (d_bytes d)))) /\
  count_occ Z.eq_dec (levels level2_done) 3 = (if started level2_done then 1 else 0)%nat /\
  (started level2_done = true ->
   forall fresh overflow m, Invoke fresh overflow m level2_done = Some level2_done).
Proof.
  apply (dumped_at_most_once nothing_static). exists level2_process.
  split; [apply initial_sample|]. eapply rtc_l; [|exact run_level2].
  eapply step_invoke, begin_level2.
Defined.

Definition configured (config : list Z) : Unpacker :=
  set_filter (new_filter false false black) false (sample_process config).

Lemma word_dec w :
  nonempty w && forallb (fun c => negb (is_space c)) w = true -> w <> [] /\ no_space w.
Proof.
  intros [Hn Hw]%andb_true_iff. split; [by destruct w|]. apply Forall_forall.
  intros x Hx. rewrite forallb_forall in Hw. apply negb_true_iff, Hw. by apply list_elem_of_In.
Qed.

Lemma config_selects_level_witness :
  let config := [] ++ bytes_of "A" ++ 10 :: [] ++ bytes_of "force-rebuild" ++ 10 :: [32] ++
                  bytes_of "white" ++ 10 :: [] in
  let s := configured config in
  let f' := check_flag (env s) (new_filter false false black) in
  flag f' = true /\ mode f' = white /\
  Invoke zeroes false sample_method s
    = build_dex sample_method (set_filter (read_list_files (env s) f') true s).
Proof.
  intros config s f'.
  assert (Hsp : spaces [] /\ spaces [] /\ spaces [32]) by (split_all; by repeat constructor).
  destruct (config_selects_level s (new_filter false false black) sample_method zeroes
    (bytes_of "A") (bytes_of "force-rebuild") (bytes_of "white") [] [] [32] [] (Some config)
    eq_refl eq_refl eq_refl eq_refl (word_dec (bytes_of "A") eq_refl)
    (word_dec (bytes_of "force-rebuild") eq_refl) (word_dec (bytes_of "white") eq_refl) Hsp eq_refl) as [H _].
  destruct (H eq_refl) as (H1 & _ & _ & H4 & H5). split; [exact H1|].
  split; [exact (H5 eq_refl)|exact H4].
Defined.

Definition level3_looped : Unpacker := run (all_found nothing_static 1) level3_begun.

Lemma level3_found_adds_nothing_witness :
  exists s2 d, finish level3_looped = Some s2 /\ written s2 = written level3_begun ++ [d] /\
    Z.of_nat (length (d_bytes d)) = align16 (Size encrypted) /\
    load 0 8 (d_bytes d) = dex_magic.
Proof.
  assert (Hp : pending level3_begun = [Level3 1000 1 0 (init_segments encrypted new_DexBuilder)])
    by (vm_compute; reflexivity).
  assert (Ha : all_found nothing_static (Z.to_nat 1) level3_begun = Some level3_looped)
    by (vm_compute; reflexivity).
  assert (Hm : memory level3_begun !! 1000 = Some encrypted) by (vm_compute; reflexivity).
  assert (Hw : wf_class_defs encrypted) by (unfold wf_class_defs; split_all; by vm_compute).
  assert (Hs : 2 * Size encrypted < 2 ^ 32) by (vm_compute; reflexivity).
  destruct (level3_found_adds_nothing nothing_static level3_begun level3_looped 1000 1 []
    encrypted encrypted Hp ltac:(lia) Ha Hm eq_refl Hw Hs)
    as (s2 & d & H1 & _ & H2 & _ & H3 & H4 & _).
  exact (ex_intro _ s2 (ex_intro _ d (conj H1 (conj H2 (conj H3 H4))))).
Defined.
