(* ===== verification/DexInstruction.v ===== *)
(** Dalvik instructions ([dex_instruction.{h,cc}], [dex_instruction-inl.h],
    [dex_instruction_list.h], [dex_instruction_utils.h]).

    A [const Instruction*] points into the code of a method: it is the function that gives
    the 16-bit code unit at each offset from it.  The decoders are total on such a stream;
    the places where the code aborts ([LOG(FATAL)]) return [None]. *)
From S2P Require Import Prelude.
Local Open Scope Z_scope.

(** ** The instruction set *)

Inductive Code :=
  | NOP | MOVE | MOVE_FROM16 | MOVE_16 | MOVE_WIDE | MOVE_WIDE_FROM16 | MOVE_WIDE_16
  | MOVE_OBJECT | MOVE_OBJECT_FROM16 | MOVE_OBJECT_16 | MOVE_RESULT | MOVE_RESULT_WIDE
  | MOVE_RESULT_OBJECT | MOVE_EXCEPTION | RETURN_VOID | RETURN | RETURN_WIDE | RETURN_OBJECT
  | CONST_4 | CONST_16 | CONST | CONST_HIGH16 | CONST_WIDE_16 | CONST_WIDE_32 | CONST_WIDE
  | CONST_WIDE_HIGH16 | CONST_STRING | CONST_STRING_JUMBO | CONST_CLASS | MONITOR_ENTER
  | MONITOR_EXIT | CHECK_CAST | INSTANCE_OF | ARRAY_LENGTH | NEW_INSTANCE | NEW_ARRAY
  | FILLED_NEW_ARRAY | FILLED_NEW_ARRAY_RANGE | FILL_ARRAY_DATA | THROW | GOTO | GOTO_16
  | GOTO_32 | PACKED_SWITCH | SPARSE_SWITCH | CMPL_FLOAT | CMPG_FLOAT | CMPL_DOUBLE | CMPG_DOUBLE
  | CMP_LONG | IF_EQ | IF_NE | IF_LT | IF_GE | IF_GT | IF_LE | IF_EQZ | IF_NEZ | IF_LTZ | IF_GEZ
  | IF_GTZ | IF_LEZ | UNUSED_3E | UNUSED_3F | UNUSED_40 | UNUSED_41 | UNUSED_42 | UNUSED_43
  | AGET | AGET_WIDE | AGET_OBJECT | AGET_BOOLEAN | AGET_BYTE | AGET_CHAR | AGET_SHORT | APUT
  | APUT_WIDE | APUT_OBJECT | APUT_BOOLEAN | APUT_BYTE | APUT_CHAR | APUT_SHORT | IGET
  | IGET_WIDE | IGET_OBJECT | IGET_BOOLEAN | IGET_BYTE | IGET_CHAR | IGET_SHORT | IPUT
  | IPUT_WIDE | IPUT_OBJECT | IPUT_BOOLEAN | IPUT_BYTE | IPUT_CHAR | IPUT_SHORT | SGET
  | SGET_WIDE | SGET_OBJECT | SGET_BOOLEAN | SGET_BYTE | SGET_CHAR | SGET_SHORT | SPUT
  | SPUT_WIDE | SPUT_OBJECT | SPUT_BOOLEAN | SPUT_BYTE | SPUT_CHAR | SPUT_SHORT | INVOKE_VIRTUAL
  | INVOKE_SUPER | INVOKE_DIRECT | INVOKE_STATIC | INVOKE_INTERFACE | RETURN_VOID_NO_BARRIER
  | INVOKE_VIRTUAL_RANGE | INVOKE_SUPER_RANGE | INVOKE_DIRECT_RANGE | INVOKE_STATIC_RANGE
  | INVOKE_INTERFACE_RANGE | UNUSED_79 | UNUSED_7A | NEG_INT | NOT_INT | NEG_LONG | NOT_LONG
  | NEG_FLOAT | NEG_DOUBLE | INT_TO_LONG | INT_TO_FLOAT | INT_TO_DOUBLE | LONG_TO_INT
  | LONG_TO_FLOAT | LONG_TO_DOUBLE | FLOAT_TO_INT | FLOAT_TO_LONG | FLOAT_TO_DOUBLE
  | DOUBLE_TO_INT | DOUBLE_TO_LONG | DOUBLE_TO_FLOAT | INT_TO_BYTE | INT_TO_CHAR | INT_TO_SHORT
  | ADD_INT | SUB_INT | MUL_INT | DIV_INT | REM_INT | AND_INT | OR_INT | XOR_INT | SHL_INT
  | SHR_INT | USHR_INT | ADD_LONG | SUB_LONG | MUL_LONG | DIV_LONG | REM_LONG | AND_LONG
  | OR_LONG | XOR_LONG | SHL_LONG | SHR_LONG | USHR_LONG | ADD_FLOAT | SUB_FLOAT | MUL_FLOAT
  | DIV_FLOAT | REM_FLOAT | ADD_DOUBLE | SUB_DOUBLE | MUL_DOUBLE | DIV_DOUBLE | REM_DOUBLE
  | ADD_INT_2ADDR | SUB_INT_2ADDR | MUL_INT_2ADDR | DIV_INT_2ADDR | REM_INT_2ADDR | AND_INT_2ADDR
  | OR_INT_2ADDR | XOR_INT_2ADDR | SHL_INT_2ADDR | SHR_INT_2ADDR | USHR_INT_2ADDR
  | ADD_LONG_2ADDR | SUB_LONG_2ADDR | MUL_LONG_2ADDR | DIV_LONG_2ADDR | REM_LONG_2ADDR
  | AND_LONG_2ADDR | OR_LONG_2ADDR | XOR_LONG_2ADDR | SHL_LONG_2ADDR | SHR_LONG_2ADDR
  | USHR_LONG_2ADDR | ADD_FLOAT_2ADDR | SUB_FLOAT_2ADDR | MUL_FLOAT_2ADDR | DIV_FLOAT_2ADDR
  | REM_FLOAT_2ADDR | ADD_DOUBLE_2ADDR | SUB_DOUBLE_2ADDR | MUL_DOUBLE_2ADDR | DIV_DOUBLE_2ADDR
  | REM_DOUBLE_2ADDR | ADD_INT_LIT16 | RSUB_INT | MUL_INT_LIT16 | DIV_INT_LIT16 | REM_INT_LIT16
  | AND_INT_LIT16 | OR_INT_LIT16 | XOR_INT_LIT16 | ADD_INT_LIT8 | RSUB_INT_LIT8 | MUL_INT_LIT8
  | DIV_INT_LIT8 | REM_INT_LIT8 | AND_INT_LIT8 | OR_INT_LIT8 | XOR_INT_LIT8 | SHL_INT_LIT8
  | SHR_INT_LIT8 | USHR_INT_LIT8 | IGET_QUICK | IGET_WIDE_QUICK | IGET_OBJECT_QUICK | IPUT_QUICK
  | IPUT_WIDE_QUICK | IPUT_OBJECT_QUICK | INVOKE_VIRTUAL_QUICK | INVOKE_VIRTUAL_RANGE_QUICK
  | IPUT_BOOLEAN_QUICK | IPUT_BYTE_QUICK | IPUT_CHAR_QUICK | IPUT_SHORT_QUICK
  | IGET_BOOLEAN_QUICK | IGET_BYTE_QUICK | IGET_CHAR_QUICK | IGET_SHORT_QUICK | UNUSED_F3
  | UNUSED_F4 | UNUSED_F5 | UNUSED_F6 | UNUSED_F7 | UNUSED_F8 | UNUSED_F9 | UNUSED_FA | UNUSED_FB
  | UNUSED_FC | UNUSED_FD | UNUSED_FE | UNUSED_FF.

(** The value of an enumerator, [cname = opcode]. *)
Definition code_value (c : Code) : Z :=
  match c with
  | NOP => 0x00 | MOVE => 0x01 | MOVE_FROM16 => 0x02 | MOVE_16 => 0x03 | MOVE_WIDE => 0x04
  | MOVE_WIDE_FROM16 => 0x05 | MOVE_WIDE_16 => 0x06 | MOVE_OBJECT => 0x07
  | MOVE_OBJECT_FROM16 => 0x08 | MOVE_OBJECT_16 => 0x09 | MOVE_RESULT => 0x0A
  | MOVE_RESULT_WIDE => 0x0B | MOVE_RESULT_OBJECT => 0x0C | MOVE_EXCEPTION => 0x0D
  | RETURN_VOID => 0x0E | RETURN => 0x0F | RETURN_WIDE => 0x10 | RETURN_OBJECT => 0x11
  | CONST_4 => 0x12 | CONST_16 => 0x13 | CONST => 0x14 | CONST_HIGH16 => 0x15
  | CONST_WIDE_16 => 0x16 | CONST_WIDE_32 => 0x17 | CONST_WIDE => 0x18
  | CONST_WIDE_HIGH16 => 0x19 | CONST_STRING => 0x1A | CONST_STRING_JUMBO => 0x1B
  | CONST_CLASS => 0x1C | MONITOR_ENTER => 0x1D | MONITOR_EXIT => 0x1E | CHECK_CAST => 0x1F
  | INSTANCE_OF => 0x20 | ARRAY_LENGTH => 0x21 | NEW_INSTANCE => 0x22 | NEW_ARRAY => 0x23
  | FILLED_NEW_ARRAY => 0x24 | FILLED_NEW_ARRAY_RANGE => 0x25 | FILL_ARRAY_DATA => 0x26
  | THROW => 0x27 | GOTO => 0x28 | GOTO_16 => 0x29 | GOTO_32 => 0x2A | PACKED_SWITCH => 0x2B
  | SPARSE_SWITCH => 0x2C | CMPL_FLOAT => 0x2D | CMPG_FLOAT => 0x2E | CMPL_DOUBLE => 0x2F
  | CMPG_DOUBLE => 0x30 | CMP_LONG => 0x31 | IF_EQ => 0x32 | IF_NE => 0x33 | IF_LT => 0x34
  | IF_GE => 0x35 | IF_GT => 0x36 | IF_LE => 0x37 | IF_EQZ => 0x38 | IF_NEZ => 0x39
  | IF_LTZ => 0x3A | IF_GEZ => 0x3B | IF_GTZ => 0x3C | IF_LEZ => 0x3D | UNUSED_3E => 0x3E
  | UNUSED_3F => 0x3F | UNUSED_40 => 0x40 | UNUSED_41 => 0x41 | UNUSED_42 => 0x42
  | UNUSED_43 => 0x43 | AGET => 0x44 | AGET_WIDE => 0x45 | AGET_OBJECT => 0x46
  | AGET_BOOLEAN => 0x47 | AGET_BYTE => 0x48 | AGET_CHAR => 0x49 | AGET_SHORT => 0x4A
  | APUT => 0x4B | APUT_WIDE => 0x4C | APUT_OBJECT => 0x4D | APUT_BOOLEAN => 0x4E
  | APUT_BYTE => 0x4F | APUT_CHAR => 0x50 | APUT_SHORT => 0x51 | IGET => 0x52 | IGET_WIDE => 0x53
  | IGET_OBJECT => 0x54 | IGET_BOOLEAN => 0x55 | IGET_BYTE => 0x56 | IGET_CHAR => 0x57
  | IGET_SHORT => 0x58 | IPUT => 0x59 | IPUT_WIDE => 0x5A | IPUT_OBJECT => 0x5B
  | IPUT_BOOLEAN => 0x5C | IPUT_BYTE => 0x5D | IPUT_CHAR => 0x5E | IPUT_SHORT => 0x5F
  | SGET => 0x60 | SGET_WIDE => 0x61 | SGET_OBJECT => 0x62 | SGET_BOOLEAN => 0x63
  | SGET_BYTE => 0x64 | SGET_CHAR => 0x65 | SGET_SHORT => 0x66 | SPUT => 0x67 | SPUT_WIDE => 0x68
  | SPUT_OBJECT => 0x69 | SPUT_BOOLEAN => 0x6A | SPUT_BYTE => 0x6B | SPUT_CHAR => 0x6C
  | SPUT_SHORT => 0x6D | INVOKE_VIRTUAL => 0x6E | INVOKE_SUPER => 0x6F | INVOKE_DIRECT => 0x70
  | INVOKE_STATIC => 0x71 | INVOKE_INTERFACE => 0x72 | RETURN_VOID_NO_BARRIER => 0x73
  | INVOKE_VIRTUAL_RANGE => 0x74 | INVOKE_SUPER_RANGE => 0x75 | INVOKE_DIRECT_RANGE => 0x76
  | INVOKE_STATIC_RANGE => 0x77 | INVOKE_INTERFACE_RANGE => 0x78 | UNUSED_79 => 0x79
  | UNUSED_7A => 0x7A | NEG_INT => 0x7B | NOT_INT => 0x7C | NEG_LONG => 0x7D | NOT_LONG => 0x7E
  | NEG_FLOAT => 0x7F | NEG_DOUBLE => 0x80 | INT_TO_LONG => 0x81 | INT_TO_FLOAT => 0x82
  | INT_TO_DOUBLE => 0x83 | LONG_TO_INT => 0x84 | LONG_TO_FLOAT => 0x85 | LONG_TO_DOUBLE => 0x86
  | FLOAT_TO_INT => 0x87 | FLOAT_TO_LONG => 0x88 | FLOAT_TO_DOUBLE => 0x89
  | DOUBLE_TO_INT => 0x8A | DOUBLE_TO_LONG => 0x8B | DOUBLE_TO_FLOAT => 0x8C
  | INT_TO_BYTE => 0x8D | INT_TO_CHAR => 0x8E | INT_TO_SHORT => 0x8F | ADD_INT => 0x90
  | SUB_INT => 0x91 | MUL_INT => 0x92 | DIV_INT => 0x93 | REM_INT => 0x94 | AND_INT => 0x95
  | OR_INT => 0x96 | XOR_INT => 0x97 | SHL_INT => 0x98 | SHR_INT => 0x99 | USHR_INT => 0x9A
  | ADD_LONG => 0x9B | SUB_LONG => 0x9C | MUL_LONG => 0x9D | DIV_LONG => 0x9E | REM_LONG => 0x9F
  | AND_LONG => 0xA0 | OR_LONG => 0xA1 | XOR_LONG => 0xA2 | SHL_LONG => 0xA3 | SHR_LONG => 0xA4
  | USHR_LONG => 0xA5 | ADD_FLOAT => 0xA6 | SUB_FLOAT => 0xA7 | MUL_FLOAT => 0xA8
  | DIV_FLOAT => 0xA9 | REM_FLOAT => 0xAA | ADD_DOUBLE => 0xAB | SUB_DOUBLE => 0xAC
  | MUL_DOUBLE => 0xAD | DIV_DOUBLE => 0xAE | REM_DOUBLE => 0xAF | ADD_INT_2ADDR => 0xB0
  | SUB_INT_2ADDR => 0xB1 | MUL_INT_2ADDR => 0xB2 | DIV_INT_2ADDR => 0xB3 | REM_INT_2ADDR => 0xB4
  | AND_INT_2ADDR => 0xB5 | OR_INT_2ADDR => 0xB6 | XOR_INT_2ADDR => 0xB7 | SHL_INT_2ADDR => 0xB8
  | SHR_INT_2ADDR => 0xB9 | USHR_INT_2ADDR => 0xBA | ADD_LONG_2ADDR => 0xBB
  | SUB_LONG_2ADDR => 0xBC | MUL_LONG_2ADDR => 0xBD | DIV_LONG_2ADDR => 0xBE
  | REM_LONG_2ADDR => 0xBF | AND_LONG_2ADDR => 0xC0 | OR_LONG_2ADDR => 0xC1
  | XOR_LONG_2ADDR => 0xC2 | SHL_LONG_2ADDR => 0xC3 | SHR_LONG_2ADDR => 0xC4
  | USHR_LONG_2ADDR => 0xC5 | ADD_FLOAT_2ADDR => 0xC6 | SUB_FLOAT_2ADDR => 0xC7
  | MUL_FLOAT_2ADDR => 0xC8 | DIV_FLOAT_2ADDR => 0xC9 | REM_FLOAT_2ADDR => 0xCA
  | ADD_DOUBLE_2ADDR => 0xCB | SUB_DOUBLE_2ADDR => 0xCC | MUL_DOUBLE_2ADDR => 0xCD
  | DIV_DOUBLE_2ADDR => 0xCE | REM_DOUBLE_2ADDR => 0xCF | ADD_INT_LIT16 => 0xD0
  | RSUB_INT => 0xD1 | MUL_INT_LIT16 => 0xD2 | DIV_INT_LIT16 => 0xD3 | REM_INT_LIT16 => 0xD4
  | AND_INT_LIT16 => 0xD5 | OR_INT_LIT16 => 0xD6 | XOR_INT_LIT16 => 0xD7 | ADD_INT_LIT8 => 0xD8
  | RSUB_INT_LIT8 => 0xD9 | MUL_INT_LIT8 => 0xDA | DIV_INT_LIT8 => 0xDB | REM_INT_LIT8 => 0xDC
  | AND_INT_LIT8 => 0xDD | OR_INT_LIT8 => 0xDE | XOR_INT_LIT8 => 0xDF | SHL_INT_LIT8 => 0xE0
  | SHR_INT_LIT8 => 0xE1 | USHR_INT_LIT8 => 0xE2 | IGET_QUICK => 0xE3 | IGET_WIDE_QUICK => 0xE4
  | IGET_OBJECT_QUICK => 0xE5 | IPUT_QUICK => 0xE6 | IPUT_WIDE_QUICK => 0xE7
  | IPUT_OBJECT_QUICK => 0xE8 | INVOKE_VIRTUAL_QUICK => 0xE9 | INVOKE_VIRTUAL_RANGE_QUICK => 0xEA
  | IPUT_BOOLEAN_QUICK => 0xEB | IPUT_BYTE_QUICK => 0xEC | IPUT_CHAR_QUICK => 0xED
  | IPUT_SHORT_QUICK => 0xEE | IGET_BOOLEAN_QUICK => 0xEF | IGET_BYTE_QUICK => 0xF0
  | IGET_CHAR_QUICK => 0xF1 | IGET_SHORT_QUICK => 0xF2 | UNUSED_F3 => 0xF3 | UNUSED_F4 => 0xF4
  | UNUSED_F5 => 0xF5 | UNUSED_F6 => 0xF6 | UNUSED_F7 => 0xF7 | UNUSED_F8 => 0xF8
  | UNUSED_F9 => 0xF9 | UNUSED_FA => 0xFA | UNUSED_FB => 0xFB | UNUSED_FC => 0xFC
  | UNUSED_FD => 0xFD | UNUSED_FE => 0xFE | UNUSED_FF => 0xFF
  end.

Inductive Format :=
  | k10x | k12x | k11n | k11x | k10t | k20t | k22x | k21t | k21s | k21h | k21c | k23x
  | k22b | k22t | k22s | k22c | k32x | k30t | k31t | k31i | k31c | k35c | k3rc | k51l.

#[export] Instance Format_eq_dec : EqDecision Format.
Proof. solve_decision. Defined.

(** The position of a format in the enumeration. *)
Definition format_value (f : Format) : Z :=
  match f with
  | k10x => 0 | k12x => 1 | k11n => 2 | k11x => 3 | k10t => 4 | k20t => 5 | k22x => 6
  | k21t => 7 | k21s => 8 | k21h => 9 | k21c => 10 | k23x => 11 | k22b => 12 | k22t => 13
  | k22s => 14 | k22c => 15 | k32x => 16 | k30t => 17 | k31t => 18 | k31i => 19
  | k31c => 20 | k35c => 21 | k3rc => 22 | k51l => 23
  end.

(** The reference kind of the operand, as the list names it. *)
Inductive IndexKind := kUnknown | kNone | kTypeRef | kStringRef | kMethodRef | kFieldRef.

#[export] Instance IndexKind_eq_dec : EqDecision IndexKind.
Proof. solve_decision. Defined.

(** *** Flags *)

Definition kBranch : Z := 0x000001.
Definition kContinue : Z := 0x000002.
Definition kSwitch : Z := 0x000004.
Definition kThrow : Z := 0x000008.
Definition kReturn : Z := 0x000010.
Definition kInvoke : Z := 0x000020.
Definition kUnconditional : Z := 0x000040.
Definition kAdd : Z := 0x000080.
Definition kSubtract : Z := 0x000100.
Definition kMultiply : Z := 0x000200.
Definition kDivide : Z := 0x000400.
Definition kRemainder : Z := 0x000800.
Definition kAnd : Z := 0x001000.
Definition kOr : Z := 0x002000.
Definition kXor : Z := 0x004000.
Definition kShl : Z := 0x008000.
Definition kShr : Z := 0x010000.
Definition kUshr : Z := 0x020000.
Definition kCast : Z := 0x040000.
Definition kStore : Z := 0x080000.
Definition kLoad : Z := 0x100000.
Definition kClobber : Z := 0x200000.
Definition kRegCFieldOrConstant : Z := 0x400000.
Definition kRegBFieldOrConstant : Z := 0x800000.

Definition kVerifyNone : Z := 0x000000.
Definition kVerifyRegA : Z := 0x000001.
Definition kVerifyRegAWide : Z := 0x000002.
Definition kVerifyRegB : Z := 0x000004.
Definition kVerifyRegBField : Z := 0x000008.
Definition kVerifyRegBMethod : Z := 0x000010.
Definition kVerifyRegBNewInstance : Z := 0x000020.
Definition kVerifyRegBString : Z := 0x000040.
Definition kVerifyRegBType : Z := 0x000080.
Definition kVerifyRegBWide : Z := 0x000100.
Definition kVerifyRegC : Z := 0x000200.
Definition kVerifyRegCField : Z := 0x000400.
Definition kVerifyRegCNewArray : Z := 0x000800.
Definition kVerifyRegCType : Z := 0x001000.
Definition kVerifyRegCWide : Z := 0x002000.
Definition kVerifyArrayData : Z := 0x004000.
Definition kVerifyBranchTarget : Z := 0x008000.
Definition kVerifySwitchTargets : Z := 0x010000.
Definition kVerifyVarArg : Z := 0x020000.
Definition kVerifyVarArgNonZero : Z := 0x040000.
Definition kVerifyVarArgRange : Z := 0x080000.
Definition kVerifyVarArgRangeNonZero : Z := 0x100000.
Definition kVerifyRuntimeOnly : Z := 0x200000.
Definition kVerifyError : Z := 0x400000.

(** *** The list: opcode, name, printed name, format, whether vA is a result, reference kind,
    flags, verify flags *)

Record OpInfo := {
  op_value : Z;
  op_code : Code;
  op_name : string;
  op_format : Format;
  op_result : bool;
  op_index : IndexKind;
  op_flags : list Z;
  op_verify : list Z;
}.

Definition V (o : Z) (c : Code) (p : string) (f : Format) (r : bool) (i : IndexKind)
    (a v : list Z) : OpInfo :=
  {| op_value := o; op_code := c; op_name := p; op_format := f; op_result := r;
     op_index := i; op_flags := a; op_verify := v |}.

Local Open Scope string_scope.

(** Opcodes 0x00 to 0x7f. *)
Definition instruction_list_lo : list OpInfo :=
  [
   V 0x00 NOP "nop" k10x false kNone [kContinue] [kVerifyNone];
   V 0x01 MOVE "move" k12x true kNone [kContinue] [kVerifyRegA; kVerifyRegB];
   V 0x02 MOVE_FROM16 "move/from16" k22x true kNone [kContinue] [kVerifyRegA; kVerifyRegB];
   V 0x03 MOVE_16 "move/16" k32x true kNone [kContinue] [kVerifyRegA; kVerifyRegB];
   V 0x04 MOVE_WIDE "move-wide" k12x true kNone [kContinue] [kVerifyRegAWide; kVerifyRegBWide];
   V 0x05 MOVE_WIDE_FROM16 "move-wide/from16" k22x true kNone
     [kContinue] [kVerifyRegAWide; kVerifyRegBWide];
   V 0x06 MOVE_WIDE_16 "move-wide/16" k32x true kNone
     [kContinue] [kVerifyRegAWide; kVerifyRegBWide];
   V 0x07 MOVE_OBJECT "move-object" k12x true kNone [kContinue] [kVerifyRegA; kVerifyRegB];
   V 0x08 MOVE_OBJECT_FROM16 "move-object/from16" k22x true kNone
     [kContinue] [kVerifyRegA; kVerifyRegB];
   V 0x09 MOVE_OBJECT_16 "move-object/16" k32x true kNone [kContinue] [kVerifyRegA; kVerifyRegB];
   V 0x0A MOVE_RESULT "move-result" k11x true kNone [kContinue] [kVerifyRegA];
   V 0x0B MOVE_RESULT_WIDE "move-result-wide" k11x true kNone [kContinue] [kVerifyRegAWide];
   V 0x0C MOVE_RESULT_OBJECT "move-result-object" k11x true kNone [kContinue] [kVerifyRegA];
   V 0x0D MOVE_EXCEPTION "move-exception" k11x true kNone [kContinue] [kVerifyRegA];
   V 0x0E RETURN_VOID "return-void" k10x false kNone [kReturn] [kVerifyNone];
   V 0x0F RETURN "return" k11x false kNone [kReturn] [kVerifyRegA];
   V 0x10 RETURN_WIDE "return-wide" k11x false kNone [kReturn] [kVerifyRegAWide];
   V 0x11 RETURN_OBJECT "return-object" k11x false kNone [kReturn] [kVerifyRegA];
   V 0x12 CONST_4 "const/4" k11n true kNone [kContinue; kRegBFieldOrConstant] [kVerifyRegA];
   V 0x13 CONST_16 "const/16" k21s true kNone [kContinue; kRegBFieldOrConstant] [kVerifyRegA];
   V 0x14 CONST "const" k31i true kNone [kContinue; kRegBFieldOrConstant] [kVerifyRegA];
   V 0x15 CONST_HIGH16 "const/high16" k21h true kNone
     [kContinue; kRegBFieldOrConstant] [kVerifyRegA];
   V 0x16 CONST_WIDE_16 "const-wide/16" k21s true kNone
     [kContinue; kRegBFieldOrConstant] [kVerifyRegAWide];
   V 0x17 CONST_WIDE_32 "const-wide/32" k31i true kNone
     [kContinue; kRegBFieldOrConstant] [kVerifyRegAWide];
   V 0x18 CONST_WIDE "const-wide" k51l true kNone
     [kContinue; kRegBFieldOrConstant] [kVerifyRegAWide];
   V 0x19 CONST_WIDE_HIGH16 "const-wide/high16" k21h true kNone
     [kContinue; kRegBFieldOrConstant] [kVerifyRegAWide];
   V 0x1A CONST_STRING "const-string" k21c true kStringRef
     [kContinue; kThrow] [kVerifyRegA; kVerifyRegBString];
   V 0x1B CONST_STRING_JUMBO "const-string/jumbo" k31c true kStringRef
     [kContinue; kThrow] [kVerifyRegA; kVerifyRegBString];
   V 0x1C CONST_CLASS "const-class" k21c true kTypeRef
     [kContinue; kThrow] [kVerifyRegA; kVerifyRegBType];
   V 0x1D MONITOR_ENTER "monitor-enter" k11x false kNone
     [kContinue; kThrow; kClobber] [kVerifyRegA];
   V 0x1E MONITOR_EXIT "monitor-exit" k11x false kNone [kContinue; kThrow; kClobber] [kVerifyRegA];
   V 0x1F CHECK_CAST "check-cast" k21c true kTypeRef
     [kContinue; kThrow] [kVerifyRegA; kVerifyRegBType];
   V 0x20 INSTANCE_OF "instance-of" k22c true kTypeRef
     [kContinue; kThrow] [kVerifyRegA; kVerifyRegB; kVerifyRegCType];
   V 0x21 ARRAY_LENGTH "array-length" k12x true kNone
     [kContinue; kThrow] [kVerifyRegA; kVerifyRegB];
   V 0x22 NEW_INSTANCE "new-instance" k21c true kTypeRef
     [kContinue; kThrow; kClobber] [kVerifyRegA; kVerifyRegBNewInstance];
   V 0x23 NEW_ARRAY "new-array" k22c true kTypeRef
     [kContinue; kThrow; kClobber] [kVerifyRegA; kVerifyRegB; kVerifyRegCNewArray];
   V 0x24 FILLED_NEW_ARRAY "filled-new-array" k35c false kTypeRef
     [kContinue; kThrow; kClobber] [kVerifyRegBType; kVerifyVarArg];
   V 0x25 FILLED_NEW_ARRAY_RANGE "filled-new-array/range" k3rc false kTypeRef
     [kContinue; kThrow; kClobber] [kVerifyRegBType; kVerifyVarArgRange];
   V 0x26 FILL_ARRAY_DATA "fill-array-data" k31t false kNone
     [kContinue; kThrow; kClobber] [kVerifyRegA; kVerifyArrayData];
   V 0x27 THROW "throw" k11x false kNone [kThrow] [kVerifyRegA];
   V 0x28 GOTO "goto" k10t false kNone [kBranch; kUnconditional] [kVerifyBranchTarget];
   V 0x29 GOTO_16 "goto/16" k20t false kNone [kBranch; kUnconditional] [kVerifyBranchTarget];
   V 0x2A GOTO_32 "goto/32" k30t false kNone [kBranch; kUnconditional] [kVerifyBranchTarget];
   V 0x2B PACKED_SWITCH "packed-switch" k31t false kNone
     [kContinue; kSwitch] [kVerifyRegA; kVerifySwitchTargets];
   V 0x2C SPARSE_SWITCH "sparse-switch" k31t false kNone
     [kContinue; kSwitch] [kVerifyRegA; kVerifySwitchTargets];
   V 0x2D CMPL_FLOAT "cmpl-float" k23x true kNone
     [kContinue] [kVerifyRegA; kVerifyRegB; kVerifyRegC];
   V 0x2E CMPG_FLOAT "cmpg-float" k23x true kNone
     [kContinue] [kVerifyRegA; kVerifyRegB; kVerifyRegC];
   V 0x2F CMPL_DOUBLE "cmpl-double" k23x true kNone
     [kContinue] [kVerifyRegA; kVerifyRegBWide; kVerifyRegCWide];
   V 0x30 CMPG_DOUBLE "cmpg-double" k23x true kNone
     [kContinue] [kVerifyRegA; kVerifyRegBWide; kVerifyRegCWide];
   V 0x31 CMP_LONG "cmp-long" k23x true kNone
     [kContinue] [kVerifyRegA; kVerifyRegBWide; kVerifyRegCWide];
   V 0x32 IF_EQ "if-eq" k22t false kNone
     [kContinue; kBranch] [kVerifyRegA; kVerifyRegB; kVerifyBranchTarget];
   V 0x33 IF_NE "if-ne" k22t false kNone
     [kContinue; kBranch] [kVerifyRegA; kVerifyRegB; kVerifyBranchTarget];
   V 0x34 IF_LT "if-lt" k22t false kNone
     [kContinue; kBranch] [kVerifyRegA; kVerifyRegB; kVerifyBranchTarget];
   V 0x35 IF_GE "if-ge" k22t false kNone
     [kContinue; kBranch] [kVerifyRegA; kVerifyRegB; kVerifyBranchTarget];
   V 0x36 IF_GT "if-gt" k22t false kNone
     [kContinue; kBranch] [kVerifyRegA; kVerifyRegB; kVerifyBranchTarget];
   V 0x37 IF_LE "if-le" k22t false kNone
     [kContinue; kBranch] [kVerifyRegA; kVerifyRegB; kVerifyBranchTarget];
   V 0x38 IF_EQZ "if-eqz" k21t false kNone [kContinue; kBranch] [kVerifyRegA; kVerifyBranchTarget];
   V 0x39 IF_NEZ "if-nez" k21t false kNone [kContinue; kBranch] [kVerifyRegA; kVerifyBranchTarget];
   V 0x3A IF_LTZ "if-ltz" k21t false kNone [kContinue; kBranch] [kVerifyRegA; kVerifyBranchTarget];
   V 0x3B IF_GEZ "if-gez" k21t false kNone [kContinue; kBranch] [kVerifyRegA; kVerifyBranchTarget];
   V 0x3C IF_GTZ "if-gtz" k21t false kNone [kContinue; kBranch] [kVerifyRegA; kVerifyBranchTarget];
   V 0x3D IF_LEZ "if-lez" k21t false kNone [kContinue; kBranch] [kVerifyRegA; kVerifyBranchTarget];
   V 0x3E UNUSED_3E "unused-3e" k10x false kUnknown [] [kVerifyError];
   V 0x3F UNUSED_3F "unused-3f" k10x false kUnknown [] [kVerifyError];
   V 0x40 UNUSED_40 "unused-40" k10x false kUnknown [] [kVerifyError];
   V 0x41 UNUSED_41 "unused-41" k10x false kUnknown [] [kVerifyError];
   V 0x42 UNUSED_42 "unused-42" k10x false kUnknown [] [kVerifyError];
   V 0x43 UNUSED_43 "unused-43" k10x false kUnknown [] [kVerifyError];
   V 0x44 AGET "aget" k23x true kNone
     [kContinue; kThrow; kLoad] [kVerifyRegA; kVerifyRegB; kVerifyRegC];
   V 0x45 AGET_WIDE "aget-wide" k23x true kNone
     [kContinue; kThrow; kLoad] [kVerifyRegAWide; kVerifyRegB; kVerifyRegC];
   V 0x46 AGET_OBJECT "aget-object" k23x true kNone
     [kContinue; kThrow; kLoad] [kVerifyRegA; kVerifyRegB; kVerifyRegC];
   V 0x47 AGET_BOOLEAN "aget-boolean" k23x true kNone
     [kContinue; kThrow; kLoad] [kVerifyRegA; kVerifyRegB; kVerifyRegC];
   V 0x48 AGET_BYTE "aget-byte" k23x true kNone
     [kContinue; kThrow; kLoad] [kVerifyRegA; kVerifyRegB; kVerifyRegC];
   V 0x49 AGET_CHAR "aget-char" k23x true kNone
     [kContinue; kThrow; kLoad] [kVerifyRegA; kVerifyRegB; kVerifyRegC];
   V 0x4A AGET_SHORT "aget-short" k23x true kNone
     [kContinue; kThrow; kLoad] [kVerifyRegA; kVerifyRegB; kVerifyRegC];
   V 0x4B APUT "aput" k23x false kNone
     [kContinue; kThrow; kStore] [kVerifyRegA; kVerifyRegB; kVerifyRegC];
   V 0x4C APUT_WIDE "aput-wide" k23x false kNone
     [kContinue; kThrow; kStore] [kVerifyRegAWide; kVerifyRegB; kVerifyRegC];
   V 0x4D APUT_OBJECT "aput-object" k23x false kNone
     [kContinue; kThrow; kStore] [kVerifyRegA; kVerifyRegB; kVerifyRegC];
   V 0x4E APUT_BOOLEAN "aput-boolean" k23x false kNone
     [kContinue; kThrow; kStore] [kVerifyRegA; kVerifyRegB; kVerifyRegC];
   V 0x4F APUT_BYTE "aput-byte" k23x false kNone
     [kContinue; kThrow; kStore] [kVerifyRegA; kVerifyRegB; kVerifyRegC];
   V 0x50 APUT_CHAR "aput-char" k23x false kNone
     [kContinue; kThrow; kStore] [kVerifyRegA; kVerifyRegB; kVerifyRegC];
   V 0x51 APUT_SHORT "aput-short" k23x false kNone
     [kContinue; kThrow; kStore] [kVerifyRegA; kVerifyRegB; kVerifyRegC];
   V 0x52 IGET "iget" k22c true kFieldRef
     [kContinue; kThrow; kLoad; kRegCFieldOrConstant] [kVerifyRegA; kVerifyRegB; kVerifyRegCField];
   V 0x53 IGET_WIDE "iget-wide" k22c true kFieldRef
     [kContinue; kThrow; kLoad; kRegCFieldOrConstant] [kVerifyRegAWide; kVerifyRegB; kVerifyRegCField];
   V 0x54 IGET_OBJECT "iget-object" k22c true kFieldRef
     [kContinue; kThrow; kLoad; kRegCFieldOrConstant] [kVerifyRegA; kVerifyRegB; kVerifyRegCField];
   V 0x55 IGET_BOOLEAN "iget-boolean" k22c true kFieldRef
     [kContinue; kThrow; kLoad; kRegCFieldOrConstant] [kVerifyRegA; kVerifyRegB; kVerifyRegCField];
   V 0x56 IGET_BYTE "iget-byte" k22c true kFieldRef
     [kContinue; kThrow; kLoad; kRegCFieldOrConstant] [kVerifyRegA; kVerifyRegB; kVerifyRegCField];
   V 0x57 IGET_CHAR "iget-char" k22c true kFieldRef
     [kContinue; kThrow; kLoad; kRegCFieldOrConstant] [kVerifyRegA; kVerifyRegB; kVerifyRegCField];
   V 0x58 IGET_SHORT "iget-short" k22c true kFieldRef
     [kContinue; kThrow; kLoad; kRegCFieldOrConstant] [kVerifyRegA; kVerifyRegB; kVerifyRegCField];
   V 0x59 IPUT "iput" k22c false kFieldRef
     [kContinue; kThrow; kStore; kRegCFieldOrConstant] [kVerifyRegA; kVerifyRegB; kVerifyRegCField];
   V 0x5A IPUT_WIDE "iput-wide" k22c false kFieldRef
     [kContinue; kThrow; kStore; kRegCFieldOrConstant] [kVerifyRegAWide; kVerifyRegB; kVerifyRegCField];
   V 0x5B IPUT_OBJECT "iput-object" k22c false kFieldRef
     [kContinue; kThrow; kStore; kRegCFieldOrConstant] [kVerifyRegA; kVerifyRegB; kVerifyRegCField];
   V 0x5C IPUT_BOOLEAN "iput-boolean" k22c false kFieldRef
     [kContinue; kThrow; kStore; kRegCFieldOrConstant] [kVerifyRegA; kVerifyRegB; kVerifyRegCField];
   V 0x5D IPUT_BYTE "iput-byte" k22c false kFieldRef
     [kContinue; kThrow; kStore; kRegCFieldOrConstant] [kVerifyRegA; kVerifyRegB; kVerifyRegCField];
   V 0x5E IPUT_CHAR "iput-char" k22c false kFieldRef
     [kContinue; kThrow; kStore; kRegCFieldOrConstant] [kVerifyRegA; kVerifyRegB; kVerifyRegCField];
   V 0x5F IPUT_SHORT "iput-short" k22c false kFieldRef
     [kContinue; kThrow; kStore; kRegCFieldOrConstant] [kVerifyRegA; kVerifyRegB; kVerifyRegCField];
   V 0x60 SGET "sget" k21c true kFieldRef
     [kContinue; kThrow; kLoad; kRegBFieldOrConstant] [kVerifyRegA; kVerifyRegBField];
   V 0x61 SGET_WIDE "sget-wide" k21c true kFieldRef
     [kContinue; kThrow; kLoad; kRegBFieldOrConstant] [kVerifyRegAWide; kVerifyRegBField];
   V 0x62 SGET_OBJECT "sget-object" k21c true kFieldRef
     [kContinue; kThrow; kLoad; kRegBFieldOrConstant] [kVerifyRegA; kVerifyRegBField];
   V 0x63 SGET_BOOLEAN "sget-boolean" k21c true kFieldRef
     [kContinue; kThrow; kLoad; kRegBFieldOrConstant] [kVerifyRegA; kVerifyRegBField];
   V 0x64 SGET_BYTE "sget-byte" k21c true kFieldRef
     [kContinue; kThrow; kLoad; kRegBFieldOrConstant] [kVerifyRegA; kVerifyRegBField];
   V 0x65 SGET_CHAR "sget-char" k21c true kFieldRef
     [kContinue; kThrow; kLoad; kRegBFieldOrConstant] [kVerifyRegA; kVerifyRegBField];
   V 0x66 SGET_SHORT "sget-short" k21c true kFieldRef
     [kContinue; kThrow; kLoad; kRegBFieldOrConstant] [kVerifyRegA; kVerifyRegBField];
   V 0x67 SPUT "sput" k21c false kFieldRef
     [kContinue; kThrow; kStore; kRegBFieldOrConstant] [kVerifyRegA; kVerifyRegBField];
   V 0x68 SPUT_WIDE "sput-wide" k21c false kFieldRef
     [kContinue; kThrow; kStore; kRegBFieldOrConstant] [kVerifyRegAWide; kVerifyRegBField];
   V 0x69 SPUT_OBJECT "sput-object" k21c false kFieldRef
     [kContinue; kThrow; kStore; kRegBFieldOrConstant] [kVerifyRegA; kVerifyRegBField];
   V 0x6A SPUT_BOOLEAN "sput-boolean" k21c false kFieldRef
     [kContinue; kThrow; kStore; kRegBFieldOrConstant] [kVerifyRegA; kVerifyRegBField];
   V 0x6B SPUT_BYTE "sput-byte" k21c false kFieldRef
     [kContinue; kThrow; kStore; kRegBFieldOrConstant] [kVerifyRegA; kVerifyRegBField];
   V 0x6C SPUT_CHAR "sput-char" k21c false kFieldRef
     [kContinue; kThrow; kStore; kRegBFieldOrConstant] [kVerifyRegA; kVerifyRegBField];
   V 0x6D SPUT_SHORT "sput-short" k21c false kFieldRef
     [kContinue; kThrow; kStore; kRegBFieldOrConstant] [kVerifyRegA; kVerifyRegBField];
   V 0x6E INVOKE_VIRTUAL "invoke-virtual" k35c false kMethodRef
     [kContinue; kThrow; kInvoke] [kVerifyRegBMethod; kVerifyVarArgNonZero];
   V 0x6F INVOKE_SUPER "invoke-super" k35c false kMethodRef
     [kContinue; kThrow; kInvoke] [kVerifyRegBMethod; kVerifyVarArgNonZero];
   V 0x70 INVOKE_DIRECT "invoke-direct" k35c false kMethodRef
     [kContinue; kThrow; kInvoke] [kVerifyRegBMethod; kVerifyVarArgNonZero];
   V 0x71 INVOKE_STATIC "invoke-static" k35c false kMethodRef
     [kContinue; kThrow; kInvoke] [kVerifyRegBMethod; kVerifyVarArg];
   V 0x72 INVOKE_INTERFACE "invoke-interface" k35c false kMethodRef
     [kContinue; kThrow; kInvoke] [kVerifyRegBMethod; kVerifyVarArgNonZero];
   V 0x73 RETURN_VOID_NO_BARRIER "return-void-no-barrier" k10x false kNone [kReturn] [kVerifyNone];
   V 0x74 INVOKE_VIRTUAL_RANGE "invoke-virtual/range" k3rc false kMethodRef
     [kContinue; kThrow; kInvoke] [kVerifyRegBMethod; kVerifyVarArgRangeNonZero];
   V 0x75 INVOKE_SUPER_RANGE "invoke-super/range" k3rc false kMethodRef
     [kContinue; kThrow; kInvoke] [kVerifyRegBMethod; kVerifyVarArgRangeNonZero];
   V 0x76 INVOKE_DIRECT_RANGE "invoke-direct/range" k3rc false kMethodRef
     [kContinue; kThrow; kInvoke] [kVerifyRegBMethod; kVerifyVarArgRangeNonZero];
   V 0x77 INVOKE_STATIC_RANGE "invoke-static/range" k3rc false kMethodRef
     [kContinue; kThrow; kInvoke] [kVerifyRegBMethod; kVerifyVarArgRange];
   V 0x78 INVOKE_INTERFACE_RANGE "invoke-interface/range" k3rc false kMethodRef
     [kContinue; kThrow; kInvoke] [kVerifyRegBMethod; kVerifyVarArgRangeNonZero];
   V 0x79 UNUSED_79 "unused-79" k10x false kUnknown [] [kVerifyError];
   V 0x7A UNUSED_7A "unused-7a" k10x false kUnknown [] [kVerifyError];
   V 0x7B NEG_INT "neg-int" k12x true kNone [kContinue] [kVerifyRegA; kVerifyRegB];
   V 0x7C NOT_INT "not-int" k12x true kNone [kContinue] [kVerifyRegA; kVerifyRegB];
   V 0x7D NEG_LONG "neg-long" k12x true kNone [kContinue] [kVerifyRegAWide; kVerifyRegBWide];
   V 0x7E NOT_LONG "not-long" k12x true kNone [kContinue] [kVerifyRegAWide; kVerifyRegBWide];
   V 0x7F NEG_FLOAT "neg-float" k12x true kNone [kContinue] [kVerifyRegA; kVerifyRegB]].

(** Opcodes 0x80 to 0xff. *)
Definition instruction_list_hi : list OpInfo :=
  [
   V 0x80 NEG_DOUBLE "neg-double" k12x true kNone [kContinue] [kVerifyRegAWide; kVerifyRegBWide];
   V 0x81 INT_TO_LONG "int-to-long" k12x true kNone
     [kContinue; kCast] [kVerifyRegAWide; kVerifyRegB];
   V 0x82 INT_TO_FLOAT "int-to-float" k12x true kNone [kContinue; kCast] [kVerifyRegA; kVerifyRegB];
   V 0x83 INT_TO_DOUBLE "int-to-double" k12x true kNone
     [kContinue; kCast] [kVerifyRegAWide; kVerifyRegB];
   V 0x84 LONG_TO_INT "long-to-int" k12x true kNone
     [kContinue; kCast] [kVerifyRegA; kVerifyRegBWide];
   V 0x85 LONG_TO_FLOAT "long-to-float" k12x true kNone
     [kContinue; kCast] [kVerifyRegA; kVerifyRegBWide];
   V 0x86 LONG_TO_DOUBLE "long-to-double" k12x true kNone
     [kContinue; kCast] [kVerifyRegAWide; kVerifyRegBWide];
   V 0x87 FLOAT_TO_INT "float-to-int" k12x true kNone [kContinue; kCast] [kVerifyRegA; kVerifyRegB];
   V 0x88 FLOAT_TO_LONG "float-to-long" k12x true kNone
     [kContinue; kCast] [kVerifyRegAWide; kVerifyRegB];
   V 0x89 FLOAT_TO_DOUBLE "float-to-double" k12x true kNone
     [kContinue; kCast] [kVerifyRegAWide; kVerifyRegB];
   V 0x8A DOUBLE_TO_INT "double-to-int" k12x true kNone
     [kContinue; kCast] [kVerifyRegA; kVerifyRegBWide];
   V 0x8B DOUBLE_TO_LONG "double-to-long" k12x true kNone
     [kContinue; kCast] [kVerifyRegAWide; kVerifyRegBWide];
   V 0x8C DOUBLE_TO_FLOAT "double-to-float" k12x true kNone
     [kContinue; kCast] [kVerifyRegA; kVerifyRegBWide];
   V 0x8D INT_TO_BYTE "int-to-byte" k12x true kNone [kContinue; kCast] [kVerifyRegA; kVerifyRegB];
   V 0x8E INT_TO_CHAR "int-to-char" k12x true kNone [kContinue; kCast] [kVerifyRegA; kVerifyRegB];
   V 0x8F INT_TO_SHORT "int-to-short" k12x true kNone [kContinue; kCast] [kVerifyRegA; kVerifyRegB];
   V 0x90 ADD_INT "add-int" k23x true kNone
     [kContinue; kAdd] [kVerifyRegA; kVerifyRegB; kVerifyRegC];
   V 0x91 SUB_INT "sub-int" k23x true kNone
     [kContinue; kSubtract] [kVerifyRegA; kVerifyRegB; kVerifyRegC];
   V 0x92 MUL_INT "mul-int" k23x true kNone
     [kContinue; kMultiply] [kVerifyRegA; kVerifyRegB; kVerifyRegC];
   V 0x93 DIV_INT "div-int" k23x true kNone
     [kContinue; kThrow; kDivide] [kVerifyRegA; kVerifyRegB; kVerifyRegC];
   V 0x94 REM_INT "rem-int" k23x true kNone
     [kContinue; kThrow; kRemainder] [kVerifyRegA; kVerifyRegB; kVerifyRegC];
   V 0x95 AND_INT "and-int" k23x true kNone
     [kContinue; kAnd] [kVerifyRegA; kVerifyRegB; kVerifyRegC];
   V 0x96 OR_INT "or-int" k23x true kNone [kContinue; kOr] [kVerifyRegA; kVerifyRegB; kVerifyRegC];
   V 0x97 XOR_INT "xor-int" k23x true kNone
     [kContinue; kXor] [kVerifyRegA; kVerifyRegB; kVerifyRegC];
   V 0x98 SHL_INT "shl-int" k23x true kNone
     [kContinue; kShl] [kVerifyRegA; kVerifyRegB; kVerifyRegC];
   V 0x99 SHR_INT "shr-int" k23x true kNone
     [kContinue; kShr] [kVerifyRegA; kVerifyRegB; kVerifyRegC];
   V 0x9A USHR_INT "ushr-int" k23x true kNone
     [kContinue; kUshr] [kVerifyRegA; kVerifyRegB; kVerifyRegC];
   V 0x9B ADD_LONG "add-long" k23x true kNone
     [kContinue; kAdd] [kVerifyRegAWide; kVerifyRegBWide; kVerifyRegCWide];
   V 0x9C SUB_LONG "sub-long" k23x true kNone
     [kContinue; kSubtract] [kVerifyRegAWide; kVerifyRegBWide; kVerifyRegCWide];
   V 0x9D MUL_LONG "mul-long" k23x true kNone
     [kContinue; kMultiply] [kVerifyRegAWide; kVerifyRegBWide; kVerifyRegCWide];
   V 0x9E DIV_LONG "div-long" k23x true kNone
     [kContinue; kThrow; kDivide] [kVerifyRegAWide; kVerifyRegBWide; kVerifyRegCWide];
   V 0x9F REM_LONG "rem-long" k23x true kNone
     [kContinue; kThrow; kRemainder] [kVerifyRegAWide; kVerifyRegBWide; kVerifyRegCWide];
   V 0xA0 AND_LONG "and-long" k23x true kNone
     [kContinue; kAnd] [kVerifyRegAWide; kVerifyRegBWide; kVerifyRegCWide];
   V 0xA1 OR_LONG "or-long" k23x true kNone
     [kContinue; kOr] [kVerifyRegAWide; kVerifyRegBWide; kVerifyRegCWide];
   V 0xA2 XOR_LONG "xor-long" k23x true kNone
     [kContinue; kXor] [kVerifyRegAWide; kVerifyRegBWide; kVerifyRegCWide];
   V 0xA3 SHL_LONG "shl-long" k23x true kNone
     [kContinue; kShl] [kVerifyRegAWide; kVerifyRegBWide; kVerifyRegC];
   V 0xA4 SHR_LONG "shr-long" k23x true kNone
     [kContinue; kShr] [kVerifyRegAWide; kVerifyRegBWide; kVerifyRegC];
   V 0xA5 USHR_LONG "ushr-long" k23x true kNone
     [kContinue; kUshr] [kVerifyRegAWide; kVerifyRegBWide; kVerifyRegC];
   V 0xA6 ADD_FLOAT "add-float" k23x true kNone
     [kContinue; kAdd] [kVerifyRegA; kVerifyRegB; kVerifyRegC];
   V 0xA7 SUB_FLOAT "sub-float" k23x true kNone
     [kContinue; kSubtract] [kVerifyRegA; kVerifyRegB; kVerifyRegC];
   V 0xA8 MUL_FLOAT "mul-float" k23x true kNone
     [kContinue; kMultiply] [kVerifyRegA; kVerifyRegB; kVerifyRegC];
   V 0xA9 DIV_FLOAT "div-float" k23x true kNone
     [kContinue; kDivide] [kVerifyRegA; kVerifyRegB; kVerifyRegC];
   V 0xAA REM_FLOAT "rem-float" k23x true kNone
     [kContinue; kRemainder] [kVerifyRegA; kVerifyRegB; kVerifyRegC];
   V 0xAB ADD_DOUBLE "add-double" k23x true kNone
     [kContinue; kAdd] [kVerifyRegAWide; kVerifyRegBWide; kVerifyRegCWide];
   V 0xAC SUB_DOUBLE "sub-double" k23x true kNone
     [kContinue; kSubtract] [kVerifyRegAWide; kVerifyRegBWide; kVerifyRegCWide];
   V 0xAD MUL_DOUBLE "mul-double" k23x true kNone
     [kContinue; kMultiply] [kVerifyRegAWide; kVerifyRegBWide; kVerifyRegCWide];
   V 0xAE DIV_DOUBLE "div-double" k23x true kNone
     [kContinue; kDivide] [kVerifyRegAWide; kVerifyRegBWide; kVerifyRegCWide];
   V 0xAF REM_DOUBLE "rem-double" k23x true kNone
     [kContinue; kRemainder] [kVerifyRegAWide; kVerifyRegBWide; kVerifyRegCWide];
   V 0xB0 ADD_INT_2ADDR "add-int/2addr" k12x true kNone
     [kContinue; kAdd] [kVerifyRegA; kVerifyRegB];
   V 0xB1 SUB_INT_2ADDR "sub-int/2addr" k12x true kNone
     [kContinue; kSubtract] [kVerifyRegA; kVerifyRegB];
   V 0xB2 MUL_INT_2ADDR "mul-int/2addr" k12x true kNone
     [kContinue; kMultiply] [kVerifyRegA; kVerifyRegB];
   V 0xB3 DIV_INT_2ADDR "div-int/2addr" k12x true kNone
     [kContinue; kThrow; kDivide] [kVerifyRegA; kVerifyRegB];
   V 0xB4 REM_INT_2ADDR "rem-int/2addr" k12x true kNone
     [kContinue; kThrow; kRemainder] [kVerifyRegA; kVerifyRegB];
   V 0xB5 AND_INT_2ADDR "and-int/2addr" k12x true kNone
     [kContinue; kAnd] [kVerifyRegA; kVerifyRegB];
   V 0xB6 OR_INT_2ADDR "or-int/2addr" k12x true kNone [kContinue; kOr] [kVerifyRegA; kVerifyRegB];
   V 0xB7 XOR_INT_2ADDR "xor-int/2addr" k12x true kNone
     [kContinue; kXor] [kVerifyRegA; kVerifyRegB];
   V 0xB8 SHL_INT_2ADDR "shl-int/2addr" k12x true kNone
     [kContinue; kShl] [kVerifyRegA; kVerifyRegB];
   V 0xB9 SHR_INT_2ADDR "shr-int/2addr" k12x true kNone
     [kContinue; kShr] [kVerifyRegA; kVerifyRegB];
   V 0xBA USHR_INT_2ADDR "ushr-int/2addr" k12x true kNone
     [kContinue; kUshr] [kVerifyRegA; kVerifyRegB];
   V 0xBB ADD_LONG_2ADDR "add-long/2addr" k12x true kNone
     [kContinue; kAdd] [kVerifyRegAWide; kVerifyRegBWide];
   V 0xBC SUB_LONG_2ADDR "sub-long/2addr" k12x true kNone
     [kContinue; kSubtract] [kVerifyRegAWide; kVerifyRegBWide];
   V 0xBD MUL_LONG_2ADDR "mul-long/2addr" k12x true kNone
     [kContinue; kMultiply] [kVerifyRegAWide; kVerifyRegBWide];
   V 0xBE DIV_LONG_2ADDR "div-long/2addr" k12x true kNone
     [kContinue; kThrow; kDivide] [kVerifyRegAWide; kVerifyRegBWide];
   V 0xBF REM_LONG_2ADDR "rem-long/2addr" k12x true kNone
     [kContinue; kThrow; kRemainder] [kVerifyRegAWide; kVerifyRegBWide];
   V 0xC0 AND_LONG_2ADDR "and-long/2addr" k12x true kNone
     [kContinue; kAnd] [kVerifyRegAWide; kVerifyRegBWide];
   V 0xC1 OR_LONG_2ADDR "or-long/2addr" k12x true kNone
     [kContinue; kOr] [kVerifyRegAWide; kVerifyRegBWide];
   V 0xC2 XOR_LONG_2ADDR "xor-long/2addr" k12x true kNone
     [kContinue; kXor] [kVerifyRegAWide; kVerifyRegBWide];
   V 0xC3 SHL_LONG_2ADDR "shl-long/2addr" k12x true kNone
     [kContinue; kShl] [kVerifyRegAWide; kVerifyRegB];
   V 0xC4 SHR_LONG_2ADDR "shr-long/2addr" k12x true kNone
     [kContinue; kShr] [kVerifyRegAWide; kVerifyRegB];
   V 0xC5 USHR_LONG_2ADDR "ushr-long/2addr" k12x true kNone
     [kContinue; kUshr] [kVerifyRegAWide; kVerifyRegB];
   V 0xC6 ADD_FLOAT_2ADDR "add-float/2addr" k12x true kNone
     [kContinue; kAdd] [kVerifyRegA; kVerifyRegB];
   V 0xC7 SUB_FLOAT_2ADDR "sub-float/2addr" k12x true kNone
     [kContinue; kSubtract] [kVerifyRegA; kVerifyRegB];
   V 0xC8 MUL_FLOAT_2ADDR "mul-float/2addr" k12x true kNone
     [kContinue; kMultiply] [kVerifyRegA; kVerifyRegB];
   V 0xC9 DIV_FLOAT_2ADDR "div-float/2addr" k12x true kNone
     [kContinue; kDivide] [kVerifyRegA; kVerifyRegB];
   V 0xCA REM_FLOAT_2ADDR "rem-float/2addr" k12x true kNone
     [kContinue; kRemainder] [kVerifyRegA; kVerifyRegB];
   V 0xCB ADD_DOUBLE_2ADDR "add-double/2addr" k12x true kNone
     [kContinue; kAdd] [kVerifyRegAWide; kVerifyRegBWide];
   V 0xCC SUB_DOUBLE_2ADDR "sub-double/2addr" k12x true kNone
     [kContinue; kSubtract] [kVerifyRegAWide; kVerifyRegBWide];
   V 0xCD MUL_DOUBLE_2ADDR "mul-double/2addr" k12x true kNone
     [kContinue; kMultiply] [kVerifyRegAWide; kVerifyRegBWide];
   V 0xCE DIV_DOUBLE_2ADDR "div-double/2addr" k12x true kNone
     [kContinue; kDivide] [kVerifyRegAWide; kVerifyRegBWide];
   V 0xCF REM_DOUBLE_2ADDR "rem-double/2addr" k12x true kNone
     [kContinue; kRemainder] [kVerifyRegAWide; kVerifyRegBWide];
   V 0xD0 ADD_INT_LIT16 "add-int/lit16" k22s true kNone
     [kContinue; kAdd; kRegCFieldOrConstant] [kVerifyRegA; kVerifyRegB];
   V 0xD1 RSUB_INT "rsub-int" k22s true kNone
     [kContinue; kSubtract; kRegCFieldOrConstant] [kVerifyRegA; kVerifyRegB];
   V 0xD2 MUL_INT_LIT16 "mul-int/lit16" k22s true kNone
     [kContinue; kMultiply; kRegCFieldOrConstant] [kVerifyRegA; kVerifyRegB];
   V 0xD3 DIV_INT_LIT16 "div-int/lit16" k22s true kNone
     [kContinue; kThrow; kDivide; kRegCFieldOrConstant] [kVerifyRegA; kVerifyRegB];
   V 0xD4 REM_INT_LIT16 "rem-int/lit16" k22s true kNone
     [kContinue; kThrow; kRemainder; kRegCFieldOrConstant] [kVerifyRegA; kVerifyRegB];
   V 0xD5 AND_INT_LIT16 "and-int/lit16" k22s true kNone
     [kContinue; kAnd; kRegCFieldOrConstant] [kVerifyRegA; kVerifyRegB];
   V 0xD6 OR_INT_LIT16 "or-int/lit16" k22s true kNone
     [kContinue; kOr; kRegCFieldOrConstant] [kVerifyRegA; kVerifyRegB];
   V 0xD7 XOR_INT_LIT16 "xor-int/lit16" k22s true kNone
     [kContinue; kXor; kRegCFieldOrConstant] [kVerifyRegA; kVerifyRegB];
   V 0xD8 ADD_INT_LIT8 "add-int/lit8" k22b true kNone
     [kContinue; kAdd; kRegCFieldOrConstant] [kVerifyRegA; kVerifyRegB];
   V 0xD9 RSUB_INT_LIT8 "rsub-int/lit8" k22b true kNone
     [kContinue; kSubtract; kRegCFieldOrConstant] [kVerifyRegA; kVerifyRegB];
   V 0xDA MUL_INT_LIT8 "mul-int/lit8" k22b true kNone
     [kContinue; kMultiply; kRegCFieldOrConstant] [kVerifyRegA; kVerifyRegB];
   V 0xDB DIV_INT_LIT8 "div-int/lit8" k22b true kNone
     [kContinue; kThrow; kDivide; kRegCFieldOrConstant] [kVerifyRegA; kVerifyRegB];
   V 0xDC REM_INT_LIT8 "rem-int/lit8" k22b true kNone
     [kContinue; kThrow; kRemainder; kRegCFieldOrConstant] [kVerifyRegA; kVerifyRegB];
   V 0xDD AND_INT_LIT8 "and-int/lit8" k22b true kNone
     [kContinue; kAnd; kRegCFieldOrConstant] [kVerifyRegA; kVerifyRegB];
   V 0xDE OR_INT_LIT8 "or-int/lit8" k22b true kNone
     [kContinue; kOr; kRegCFieldOrConstant] [kVerifyRegA; kVerifyRegB];
   V 0xDF XOR_INT_LIT8 "xor-int/lit8" k22b true kNone
     [kContinue; kXor; kRegCFieldOrConstant] [kVerifyRegA; kVerifyRegB];
   V 0xE0 SHL_INT_LIT8 "shl-int/lit8" k22b true kNone
     [kContinue; kShl; kRegCFieldOrConstant] [kVerifyRegA; kVerifyRegB];
   V 0xE1 SHR_INT_LIT8 "shr-int/lit8" k22b true kNone
     [kContinue; kShr; kRegCFieldOrConstant] [kVerifyRegA; kVerifyRegB];
   V 0xE2 USHR_INT_LIT8 "ushr-int/lit8" k22b true kNone
     [kContinue; kUshr; kRegCFieldOrConstant] [kVerifyRegA; kVerifyRegB];
   V 0xE3 IGET_QUICK "iget-quick" k22c true kFieldRef
     [kContinue; kThrow; kLoad; kRegCFieldOrConstant] [kVerifyRegA; kVerifyRegB; kVerifyRuntimeOnly];
   V 0xE4 IGET_WIDE_QUICK "iget-wide-quick" k22c true kFieldRef
     [kContinue; kThrow; kLoad; kRegCFieldOrConstant] [kVerifyRegAWide; kVerifyRegB; kVerifyRuntimeOnly];
   V 0xE5 IGET_OBJECT_QUICK "iget-object-quick" k22c true kFieldRef
     [kContinue; kThrow; kLoad; kRegCFieldOrConstant] [kVerifyRegA; kVerifyRegB; kVerifyRuntimeOnly];
   V 0xE6 IPUT_QUICK "iput-quick" k22c false kFieldRef
     [kContinue; kThrow; kStore; kRegCFieldOrConstant] [kVerifyRegA; kVerifyRegB; kVerifyRuntimeOnly];
   V 0xE7 IPUT_WIDE_QUICK "iput-wide-quick" k22c false kFieldRef
     [kContinue; kThrow; kStore; kRegCFieldOrConstant] [kVerifyRegAWide; kVerifyRegB; kVerifyRuntimeOnly];
   V 0xE8 IPUT_OBJECT_QUICK "iput-object-quick" k22c false kFieldRef
     [kContinue; kThrow; kStore; kRegCFieldOrConstant] [kVerifyRegA; kVerifyRegB; kVerifyRuntimeOnly];
   V 0xE9 INVOKE_VIRTUAL_QUICK "invoke-virtual-quick" k35c false kMethodRef
     [kContinue; kThrow; kInvoke] [kVerifyVarArgNonZero; kVerifyRuntimeOnly];
   V 0xEA INVOKE_VIRTUAL_RANGE_QUICK "invoke-virtual/range-quick" k3rc false kMethodRef
     [kContinue; kThrow; kInvoke] [kVerifyVarArgRangeNonZero; kVerifyRuntimeOnly];
   V 0xEB IPUT_BOOLEAN_QUICK "iput-boolean-quick" k22c false kFieldRef
     [kContinue; kThrow; kStore; kRegCFieldOrConstant] [kVerifyRegA; kVerifyRegB; kVerifyRuntimeOnly];
   V 0xEC IPUT_BYTE_QUICK "iput-byte-quick" k22c false kFieldRef
     [kContinue; kThrow; kStore; kRegCFieldOrConstant] [kVerifyRegA; kVerifyRegB; kVerifyRuntimeOnly];
   V 0xED IPUT_CHAR_QUICK "iput-char-quick" k22c false kFieldRef
     [kContinue; kThrow; kStore; kRegCFieldOrConstant] [kVerifyRegA; kVerifyRegB; kVerifyRuntimeOnly];
   V 0xEE IPUT_SHORT_QUICK "iput-short-quick" k22c false kFieldRef
     [kContinue; kThrow; kStore; kRegCFieldOrConstant] [kVerifyRegA; kVerifyRegB; kVerifyRuntimeOnly];
   V 0xEF IGET_BOOLEAN_QUICK "iget-boolean-quick" k22c true kFieldRef
     [kContinue; kThrow; kLoad; kRegCFieldOrConstant] [kVerifyRegA; kVerifyRegB; kVerifyRuntimeOnly];
   V 0xF0 IGET_BYTE_QUICK "iget-byte-quick" k22c true kFieldRef
     [kContinue; kThrow; kLoad; kRegCFieldOrConstant] [kVerifyRegA; kVerifyRegB; kVerifyRuntimeOnly];
   V 0xF1 IGET_CHAR_QUICK "iget-char-quick" k22c true kFieldRef
     [kContinue; kThrow; kLoad; kRegCFieldOrConstant] [kVerifyRegA; kVerifyRegB; kVerifyRuntimeOnly];
   V 0xF2 IGET_SHORT_QUICK "iget-short-quick" k22c true kFieldRef
     [kContinue; kThrow; kLoad; kRegCFieldOrConstant] [kVerifyRegA; kVerifyRegB; kVerifyRuntimeOnly];
   V 0xF3 UNUSED_F3 "unused-f3" k10x false kUnknown [] [kVerifyError];
   V 0xF4 UNUSED_F4 "unused-f4" k10x false kUnknown [] [kVerifyError];
   V 0xF5 UNUSED_F5 "unused-f5" k10x false kUnknown [] [kVerifyError];
   V 0xF6 UNUSED_F6 "unused-f6" k10x false kUnknown [] [kVerifyError];
   V 0xF7 UNUSED_F7 "unused-f7" k10x false kUnknown [] [kVerifyError];
   V 0xF8 UNUSED_F8 "unused-f8" k10x false kUnknown [] [kVerifyError];
   V 0xF9 UNUSED_F9 "unused-f9" k10x false kUnknown [] [kVerifyError];
   V 0xFA UNUSED_FA "unused-fa" k10x false kUnknown [] [kVerifyError];
   V 0xFB UNUSED_FB "unused-fb" k10x false kUnknown [] [kVerifyError];
   V 0xFC UNUSED_FC "unused-fc" k10x false kUnknown [] [kVerifyError];
   V 0xFD UNUSED_FD "unused-fd" k10x false kUnknown [] [kVerifyError];
   V 0xFE UNUSED_FE "unused-fe" k10x false kUnknown [] [kVerifyError];
   V 0xFF UNUSED_FF "unused-ff" k10x false kUnknown [] [kVerifyError]].

Local Close Scope string_scope.

Definition instruction_list : list OpInfo := (instruction_list_lo ++ instruction_list_hi)%list.

(** [static_cast<Code>(x)] of an opcode byte, and the row of an opcode. *)
Definition code_of_Z (x : Z) : Code :=
  nth (Z.to_nat x) (map op_code instruction_list) NOP.

Definition op_info (c : Code) : OpInfo :=
  nth (Z.to_nat (code_value c)) instruction_list
    (V 0 NOP EmptyString k10x false kUnknown nil nil).

Definition Name (c : Code) : string := op_name (op_info c).
Definition FormatOf (c : Code) : Format := op_format (op_info c).
Definition FlagsOf (c : Code) : Z := or_flags (op_flags (op_info c)).
Definition VerifyFlagsOf (c : Code) : Z := or_flags (op_verify (op_info c)).

(** [kInstructionSizeInCodeUnits]: -1 marks the opcodes whose size depends on the code. *)
Definition kInstructionSizeInCodeUnits (c : Code) : Z :=
  let format := format_value (FormatOf c) in
  if code_value c =? code_value NOP then -1
  else if (format_value k10x <=? format) && (format <=? format_value k10t) then 1
  else if (format_value k20t <=? format) && (format <=? format_value k22c) then 2
  else if (format_value k32x <=? format) && (format <=? format_value k3rc) then 3
  else if format =? format_value k51l then 5 else -1.

(** ** Reading an instruction *)

Definition Instruction : Type := Z -> Z.

Definition At (code : Instruction) : Instruction := code.
Definition RelativeAt (i : Instruction) (offset : Z) : Instruction := fun o => i (offset + o).
Definition Fetch16 (i : Instruction) (offset : Z) : Z := i offset.
Definition Fetch32 (i : Instruction) (offset : Z) : Z :=
  Z.lor (Fetch16 i offset) (u32 (Fetch16 i (offset + 1) ≪ 16)).

Definition Opcode (i : Instruction) : Code := code_of_Z (Z.land (Fetch16 i 0) 0xFF).

Definition InstA (inst_data : Z) : Z := Z.land (inst_data ≫ 8) 0x0f.
Definition InstB (inst_data : Z) : Z := u8 (inst_data ≫ 12).
Definition InstAA (inst_data : Z) : Z := u8 (inst_data ≫ 8).

(** [insns[k] = v], and the setters made of it. *)
Definition write_unit (i : Instruction) (k v : Z) : Instruction :=
  fun o => if o =? k then v else i o.

Definition SetOpcode (i : Instruction) (opcode : Code) : Instruction :=
  write_unit i 0 (u16 (Z.lor (Z.land (i 0) 0xff00) (code_value opcode))).
Definition SetVRegA_10x (i : Instruction) (val : Z) : Instruction :=
  write_unit i 0 (u16 (Z.lor (val ≪ 8) (Z.land (i 0) 0x00ff))).
Definition SetVRegB_3rc (i : Instruction) (val : Z) : Instruction := write_unit i 1 val.
Definition SetVRegB_35c (i : Instruction) (val : Z) : Instruction := write_unit i 1 val.
Definition SetVRegC_22c (i : Instruction) (val : Z) : Instruction := write_unit i 1 val.

(** *** Sizes *)

Definition kPackedSwitchSignature : Z := 0x0100.
Definition kSparseSwitchSignature : Z := 0x0200.
Definition kArrayDataSignature : Z := 0x0300.

(** [None] is the [LOG(FATAL)].  The array case computes in [uint32_t], the others in [int]. *)
Definition SizeInCodeUnitsComplexOpcode (insns : Instruction) : option Z :=
  if insns 0 =? kPackedSwitchSignature then Some (4 + insns 1 * 2)
  else if insns 0 =? kSparseSwitchSignature then Some (2 + insns 1 * 4)
  else if insns 0 =? kArrayDataSignature then
    let element_size := insns 1 in
    let length := Z.lor (insns 2) (u32 (insns 3 ≪ 16)) in
    Some (u32 (4 + u32 (u32 (element_size * length) + 1) / 2))
  else if Z.land (insns 0) 0xFF =? 0 then Some 1
  else None.

Definition SizeInCodeUnits (i : Instruction) : option Z :=
  let result := kInstructionSizeInCodeUnits (Opcode i) in
  if result <? 0 then SizeInCodeUnitsComplexOpcode i else Some result.

Definition Next (i : Instruction) : option Instruction :=
  n ← SizeInCodeUnits i; Some (RelativeAt i n).
Definition Next_1xx (i : Instruction) : Instruction := RelativeAt i 1.
Definition Next_2xx (i : Instruction) : Instruction := RelativeAt i 2.
Definition Next_3xx (i : Instruction) : Instruction := RelativeAt i 3.
Definition Next_51l (i : Instruction) : Instruction := RelativeAt i 5.

(** *** Operands by format

    Each decoder reads the first code unit itself; the interpreter passes it in. *)

Definition VRegA_10t (i : Instruction) : Z := s8 (InstAA (Fetch16 i 0)).
Definition VRegA_10x (i : Instruction) : Z := InstAA (Fetch16 i 0).
Definition VRegA_11n (i : Instruction) : Z := InstA (Fetch16 i 0).
Definition VRegA_11x (i : Instruction) : Z := InstAA (Fetch16 i 0).
Definition VRegA_12x (i : Instruction) : Z := InstA (Fetch16 i 0).
Definition VRegA_20t (i : Instruction) : Z := s16 (Fetch16 i 1).
Definition VRegA_21c (i : Instruction) : Z := InstAA (Fetch16 i 0).
Definition VRegA_21h (i : Instruction) : Z := InstAA (Fetch16 i 0).
Definition VRegA_21s (i : Instruction) : Z := InstAA (Fetch16 i 0).
Definition VRegA_21t (i : Instruction) : Z := InstAA (Fetch16 i 0).
Definition VRegA_22b (i : Instruction) : Z := InstAA (Fetch16 i 0).
Definition VRegA_22c (i : Instruction) : Z := InstA (Fetch16 i 0).
Definition VRegA_22s (i : Instruction) : Z := InstA (Fetch16 i 0).
Definition VRegA_22t (i : Instruction) : Z := InstA (Fetch16 i 0).
Definition VRegA_22x (i : Instruction) : Z := InstAA (Fetch16 i 0).
Definition VRegA_23x (i : Instruction) : Z := InstAA (Fetch16 i 0).
Definition VRegA_30t (i : Instruction) : Z := s32 (Fetch32 i 1).
Definition VRegA_31c (i : Instruction) : Z := InstAA (Fetch16 i 0).
Definition VRegA_31i (i : Instruction) : Z := InstAA (Fetch16 i 0).
Definition VRegA_31t (i : Instruction) : Z := InstAA (Fetch16 i 0).
Definition VRegA_32x (i : Instruction) : Z := Fetch16 i 1.
Definition VRegA_35c (i : Instruction) : Z := InstB (Fetch16 i 0).
Definition VRegA_3rc (i : Instruction) : Z := InstAA (Fetch16 i 0).
Definition VRegA_51l (i : Instruction) : Z := InstAA (Fetch16 i 0).

Definition VRegB_11n (i : Instruction) : Z := s8 (s32 (InstB (Fetch16 i 0) ≪ 28) ≫ 28).
Definition VRegB_12x (i : Instruction) : Z := InstB (Fetch16 i 0).
Definition VRegB_21c (i : Instruction) : Z := Fetch16 i 1.
Definition VRegB_21h (i : Instruction) : Z := Fetch16 i 1.
Definition VRegB_21s (i : Instruction) : Z := s16 (Fetch16 i 1).
Definition VRegB_21t (i : Instruction) : Z := s16 (Fetch16 i 1).
Definition VRegB_22b (i : Instruction) : Z := u8 (Z.land (Fetch16 i 1) 0xff).
Definition VRegB_22c (i : Instruction) : Z := InstB (Fetch16 i 0).
Definition VRegB_22s (i : Instruction) : Z := InstB (Fetch16 i 0).
Definition VRegB_22t (i : Instruction) : Z := InstB (Fetch16 i 0).
Definition VRegB_22x (i : Instruction) : Z := Fetch16 i 1.
Definition VRegB_23x (i : Instruction) : Z := u8 (Z.land (Fetch16 i 1) 0xff).
Definition VRegB_31c (i : Instruction) : Z := Fetch32 i 1.
Definition VRegB_31i (i : Instruction) : Z := s32 (Fetch32 i 1).
Definition VRegB_31t (i : Instruction) : Z := s32 (Fetch32 i 1).
Definition VRegB_32x (i : Instruction) : Z := Fetch16 i 2.
Definition VRegB_35c (i : Instruction) : Z := Fetch16 i 1.
Definition VRegB_3rc (i : Instruction) : Z := Fetch16 i 1.
Definition VRegB_51l (i : Instruction) : Z := Z.lor (Fetch32 i 1) (u64 (Fetch32 i 3 ≪ 32)).

Definition VRegC_22b (i : Instruction) : Z := s8 (Fetch16 i 1 ≫ 8).
Definition VRegC_22c (i : Instruction) : Z := Fetch16 i 1.
Definition VRegC_22s (i : Instruction) : Z := s16 (Fetch16 i 1).
Definition VRegC_22t (i : Instruction) : Z := s16 (Fetch16 i 1).
Definition VRegC_23x (i : Instruction) : Z := u8 (Fetch16 i 1 ≫ 8).
Definition VRegC_35c (i : Instruction) : Z := Z.land (Fetch16 i 2) 0x0f.
Definition VRegC_3rc (i : Instruction) : Z := Fetch16 i 2.

(** *** Operands by opcode *)

Definition HasVRegA (i : Instruction) : bool :=
  match FormatOf (Opcode i) with
  | k10t | k10x | k11n | k11x | k12x | k20t | k21c | k21h | k21s | k21t | k22b | k22c
  | k22s | k22t | k22x | k23x | k30t | k31c | k31i | k31t | k32x | k35c | k3rc | k51l => true
  end.

(** The result is an [int32_t]: a 32-bit unsigned operand is converted. *)
Definition VRegA (i : Instruction) : Z :=
  match FormatOf (Opcode i) with
  | k10t => VRegA_10t i
  | k10x => VRegA_10x i
  | k11n => VRegA_11n i
  | k11x => VRegA_11x i
  | k12x => VRegA_12x i
  | k20t => VRegA_20t i
  | k21c => VRegA_21c i
  | k21h => VRegA_21h i
  | k21s => VRegA_21s i
  | k21t => VRegA_21t i
  | k22b => VRegA_22b i
  | k22c => VRegA_22c i
  | k22s => VRegA_22s i
  | k22t => VRegA_22t i
  | k22x => VRegA_22x i
  | k23x => VRegA_23x i
  | k30t => VRegA_30t i
  | k31c => VRegA_31c i
  | k31i => VRegA_31i i
  | k31t => VRegA_31t i
  | k32x => VRegA_32x i
  | k35c => VRegA_35c i
  | k3rc => VRegA_3rc i
  | k51l => VRegA_51l i
  end.

Definition HasVRegB (i : Instruction) : bool :=
  match FormatOf (Opcode i) with
  | k11n | k12x | k21c | k21h | k21s | k21t | k22b | k22c | k22s | k22t
  | k22x | k23x | k31c | k31i | k31t | k32x | k35c | k3rc | k51l => true
  | _ => false
  end.

Definition HasWideVRegB (i : Instruction) : bool := bool_decide (FormatOf (Opcode i) = k51l).

Definition VRegB (i : Instruction) : option Z :=
  match FormatOf (Opcode i) with
  | k11n => Some (VRegB_11n i)
  | k12x => Some (VRegB_12x i)
  | k21c => Some (VRegB_21c i)
  | k21h => Some (VRegB_21h i)
  | k21s => Some (VRegB_21s i)
  | k21t => Some (VRegB_21t i)
  | k22b => Some (VRegB_22b i)
  | k22c => Some (VRegB_22c i)
  | k22s => Some (VRegB_22s i)
  | k22t => Some (VRegB_22t i)
  | k22x => Some (VRegB_22x i)
  | k23x => Some (VRegB_23x i)
  | k31c => Some (s32 (VRegB_31c i))
  | k31i => Some (VRegB_31i i)
  | k31t => Some (VRegB_31t i)
  | k32x => Some (VRegB_32x i)
  | k35c => Some (VRegB_35c i)
  | k3rc => Some (VRegB_3rc i)
  | k51l => Some (s32 (VRegB_51l i))
  | _ => None
  end.

Definition WideVRegB (i : Instruction) : Z := VRegB_51l i.

Definition HasVRegC (i : Instruction) : bool :=
  match FormatOf (Opcode i) with
  | k22b | k22c | k22s | k22t | k23x | k35c | k3rc => true
  | _ => false
  end.

Definition VRegC (i : Instruction) : option Z :=
  match FormatOf (Opcode i) with
  | k22b => Some (VRegC_22b i)
  | k22c => Some (VRegC_22c i)
  | k22s => Some (VRegC_22s i)
  | k22t => Some (VRegC_22t i)
  | k23x => Some (VRegC_23x i)
  | k35c => Some (VRegC_35c i)
  | k3rc => Some (VRegC_3rc i)
  | _ => None
  end.

Definition HasVarArgs (i : Instruction) : bool := bool_decide (FormatOf (Opcode i) = k35c).

Definition kMaxVarArgRegs : Z := 5.

(** The cases of the [switch] fall through from [count] down to 1; the entries of [arg] that
    are not assigned keep their values. *)
Definition GetVarArgs (i : Instruction) (arg : list Z) : list Z :=
  let inst_data := Fetch16 i 0 in
  let regList := Fetch16 i 2 in
  let count := InstB inst_data in
  let arg := if count =? 5 then <[4%nat := InstA inst_data]> arg else arg in
  let arg := if (4 <=? count) && (count <=? 5)
             then <[3%nat := Z.land (regList ≫ 12) 0x0f]> arg else arg in
  let arg := if (3 <=? count) && (count <=? 5)
             then <[2%nat := Z.land (regList ≫ 8) 0x0f]> arg else arg in
  let arg := if (2 <=? count) && (count <=? 5)
             then <[1%nat := Z.land (regList ≫ 4) 0x0f]> arg else arg in
  if (1 <=? count) && (count <=? 5) then <[0%nat := Z.land regList 0x0f]> arg else arg.

(** *** Control flow *)

Definition IsBranch (i : Instruction) : bool := negb (Z.land (FlagsOf (Opcode i)) kBranch =? 0).
Definition IsUnconditional (i : Instruction) : bool :=
  negb (Z.land (FlagsOf (Opcode i)) kUnconditional =? 0).
Definition IsSwitch (i : Instruction) : bool := negb (Z.land (FlagsOf (Opcode i)) kSwitch =? 0).
Definition IsThrow (i : Instruction) : bool := negb (Z.land (FlagsOf (Opcode i)) kThrow =? 0).
Definition IsReturn (i : Instruction) : bool := negb (Z.land (FlagsOf (Opcode i)) kReturn =? 0).
Definition IsInvoke (i : Instruction) : bool := negb (Z.land (FlagsOf (Opcode i)) kInvoke =? 0).
Definition IsBasicBlockEnd (i : Instruction) : bool :=
  IsBranch i || IsReturn i || (code_value (Opcode i) =? code_value THROW).
Definition CanFlowThrough (i : Instruction) : bool :=
  negb (Z.land (FlagsOf (code_of_Z (Z.land (i 0) 0xFF))) kContinue =? 0).

Definition GetTargetOffset (i : Instruction) : option Z :=
  match FormatOf (Opcode i) with
  | k22t => Some (VRegC_22t i)
  | k21t => Some (VRegB_21t i)
  | k10t => Some (VRegA_10t i)
  | k20t => Some (VRegA_20t i)
  | k30t => Some (VRegA_30t i)
  | _ => None
  end.

(** *** What the verifier checks *)

Definition GetVerifyTypeArgumentA (i : Instruction) : Z :=
  Z.land (VerifyFlagsOf (Opcode i)) (or_flags [kVerifyRegA; kVerifyRegAWide]).
Definition GetVerifyTypeArgumentB (i : Instruction) : Z :=
  Z.land (VerifyFlagsOf (Opcode i))
    (or_flags [kVerifyRegB; kVerifyRegBField; kVerifyRegBMethod; kVerifyRegBNewInstance;
               kVerifyRegBString; kVerifyRegBType; kVerifyRegBWide]).
Definition GetVerifyTypeArgumentC (i : Instruction) : Z :=
  Z.land (VerifyFlagsOf (Opcode i))
    (or_flags [kVerifyRegC; kVerifyRegCField; kVerifyRegCNewArray; kVerifyRegCType;
               kVerifyRegCWide]).
Definition GetVerifyExtraFlags (i : Instruction) : Z :=
  Z.land (VerifyFlagsOf (Opcode i))
    (or_flags [kVerifyArrayData; kVerifyBranchTarget; kVerifySwitchTargets; kVerifyVarArg;
               kVerifyVarArgNonZero; kVerifyVarArgRange; kVerifyVarArgRangeNonZero;
               kVerifyError]).
Definition GetVerifyIsRuntimeOnly (i : Instruction) : bool :=
  negb (Z.land (VerifyFlagsOf (Opcode i)) kVerifyRuntimeOnly =? 0).

(** *** Payloads *)

(** [first_key], [keys[k]] and [targets[k]] of the switch payloads: [int32_t] fields, two code
    units each. *)
Definition int_at (payload : Instruction) (offset : Z) : Z := s32 (Fetch32 payload offset).

Definition case_count (payload : Instruction) : Z := Fetch16 payload 1.
Definition packed_first_key (payload : Instruction) : Z := int_at payload 2.
Definition packed_target (payload : Instruction) (k : Z) : Z := int_at payload (4 + 2 * k).
Definition GetKeys (payload : Instruction) (k : Z) : Z := int_at payload (2 + 2 * k).
Definition GetTargets (payload : Instruction) (k : Z) : Z :=
  int_at payload (2 + 2 * (case_count payload + k)).

(** ** [dex_instruction_utils.h] *)

Inductive DexInvokeType :=
  | kDexInvokeVirtual | kDexInvokeSuper | kDexInvokeDirect | kDexInvokeStatic
  | kDexInvokeInterface.

Inductive DexMemAccessType :=
  | kDexMemAccessWord | kDexMemAccessWide | kDexMemAccessObject | kDexMemAccessBoolean
  | kDexMemAccessByte | kDexMemAccessChar | kDexMemAccessShort.

(** [a <= c && c <= b] on the values of the enumerators. *)
Definition between (a c b : Code) : bool :=
  (code_value a <=? code_value c) && (code_value c <=? code_value b).
Definition is_code (a c : Code) : bool := code_value a =? code_value c.

Definition IsInstructionReturn (opcode : Code) : bool := between RETURN_VOID opcode RETURN_OBJECT.
Definition IsInstructionInvoke (opcode : Code) : bool :=
  between INVOKE_VIRTUAL opcode INVOKE_INTERFACE_RANGE && negb (is_code opcode RETURN_VOID_NO_BARRIER).
Definition IsInstructionQuickInvoke (opcode : Code) : bool :=
  is_code opcode INVOKE_VIRTUAL_QUICK || is_code opcode INVOKE_VIRTUAL_RANGE_QUICK.
Definition IsInstructionInvokeStatic (opcode : Code) : bool :=
  is_code opcode INVOKE_STATIC || is_code opcode INVOKE_STATIC_RANGE.
Definition IsInstructionGoto (opcode : Code) : bool := between GOTO opcode GOTO_32.
Definition IsInstructionIfCc (opcode : Code) : bool := between IF_EQ opcode IF_LE.
Definition IsInstructionIfCcZ (opcode : Code) : bool := between IF_EQZ opcode IF_LEZ.
Definition IsInstructionIGet (code : Code) : bool := between IGET code IGET_SHORT.
Definition IsInstructionIPut (code : Code) : bool := between IPUT code IPUT_SHORT.
Definition IsInstructionSGet (code : Code) : bool := between SGET code SGET_SHORT.
Definition IsInstructionSPut (code : Code) : bool := between SPUT code SPUT_SHORT.
Definition IsInstructionAGet (code : Code) : bool := between AGET code AGET_SHORT.
Definition IsInstructionAPut (code : Code) : bool := between APUT code APUT_SHORT.
Definition IsInstructionIGetOrIPut (code : Code) : bool := between IGET code IPUT_SHORT.
Definition IsInstructionIGetQuickOrIPutQuick (code : Code) : bool :=
  between IGET_QUICK code IPUT_OBJECT_QUICK || between IPUT_BOOLEAN_QUICK code IGET_SHORT_QUICK.
Definition IsInstructionSGetOrSPut (code : Code) : bool := between SGET code SPUT_SHORT.
Definition IsInstructionAGetOrAPut (code : Code) : bool := between AGET code APUT_SHORT.
Definition IsInstructionBinOp2Addr (code : Code) : bool := between ADD_INT_2ADDR code REM_DOUBLE_2ADDR.

Definition IsInvokeInstructionRange (opcode : Code) : bool :=
  code_value INVOKE_VIRTUAL_RANGE <=? code_value opcode.

(** [static_cast] of a number to the enumerations; [None] has no enumerator. *)
Definition invoke_type_of_Z (n : Z) : option DexInvokeType :=
  if n <? 0 then None else
  nth_error [kDexInvokeVirtual; kDexInvokeSuper; kDexInvokeDirect; kDexInvokeStatic;
             kDexInvokeInterface] (Z.to_nat n).
Definition mem_access_of_Z (n : Z) : option DexMemAccessType :=
  if n <? 0 then None else
  nth_error [kDexMemAccessWord; kDexMemAccessWide; kDexMemAccessObject; kDexMemAccessBoolean;
             kDexMemAccessByte; kDexMemAccessChar; kDexMemAccessShort] (Z.to_nat n).

Definition InvokeInstructionType (opcode : Code) : option DexInvokeType :=
  invoke_type_of_Z (if IsInvokeInstructionRange opcode
                    then code_value opcode - code_value INVOKE_VIRTUAL_RANGE
                    else code_value opcode - code_value INVOKE_VIRTUAL).

Definition IGetMemAccessType (code : Code) := mem_access_of_Z (code_value code - code_value IGET).
Definition IPutMemAccessType (code : Code) := mem_access_of_Z (code_value code - code_value IPUT).
Definition SGetMemAccessType (code : Code) := mem_access_of_Z (code_value code - code_value SGET).
Definition SPutMemAccessType (code : Code) := mem_access_of_Z (code_value code - code_value SPUT).
Definition AGetMemAccessType (code : Code) := mem_access_of_Z (code_value code - code_value AGET).
Definition APutMemAccessType (code : Code) := mem_access_of_Z (code_value code - code_value APUT).

Definition IGetOrIPutMemAccessType (code : Code) :=
  if code_value IPUT <=? code_value code then IPutMemAccessType code else IGetMemAccessType code.
Definition SGetOrSPutMemAccessType (code : Code) :=
  if code_value SPUT <=? code_value code then SPutMemAccessType code else SGetMemAccessType code.
Definition AGetOrAPutMemAccessType (code : Code) :=
  if code_value APUT <=? code_value code then APutMemAccessType code else AGetMemAccessType code.

Definition IGetQuickOrIPutQuickMemAccessType (code : Code) : option DexMemAccessType :=
  match code with
  | IGET_QUICK | IPUT_QUICK => Some kDexMemAccessWord
  | IGET_WIDE_QUICK | IPUT_WIDE_QUICK => Some kDexMemAccessWide
  | IGET_OBJECT_QUICK | IPUT_OBJECT_QUICK => Some kDexMemAccessObject
  | IGET_BOOLEAN_QUICK | IPUT_BOOLEAN_QUICK => Some kDexMemAccessBoolean
  | IGET_BYTE_QUICK | IPUT_BYTE_QUICK => Some kDexMemAccessByte
  | IGET_CHAR_QUICK | IPUT_CHAR_QUICK => Some kDexMemAccessChar
  | IGET_SHORT_QUICK | IPUT_SHORT_QUICK => Some kDexMemAccessShort
  | _ => None
  end.

(** ** The tables *)

Lemma code_of_value c : code_of_Z (code_value c) = c.
Proof. by destruct c. Qed.

#[export] Instance code_value_inj : Inj (=) (=) code_value.
Proof. intros c d E. by rewrite <- (code_of_value c), <- (code_of_value d), E. Qed.

#[export] Instance Code_eq_dec : EqDecision Code.
Proof.
  intros c d. destruct (decide (code_value c = code_value d)) as [E|N].
  - left. by apply code_value_inj.
  - right. intros ->. by apply N.
Defined.

Lemma code_value_range c : 0 <= code_value c < 256.
Proof. destruct c; vm_compute; done. Qed.

Lemma value_of_code x : 0 <= x < 256 -> code_value (code_of_Z x) = x.
Proof.
  intros H. apply Z.eqb_eq. by_values 256 x.
Qed.

(** ** Code units and fields *)

(** The memory holds 16-bit code units. *)
Definition wf_units (i : Instruction) : Prop := forall o, 0 <= i o < 0x10000.

Lemma opcode_low i : code_value (Opcode i) = i 0 mod 256.
Proof.
  unfold Opcode, Fetch16. rewrite land_255. apply value_of_code. div_lia.
Qed.

Lemma InstA_spec w : 0 <= w < 0x10000 -> InstA w = w / 256 mod 16.
Proof. intros H. unfold InstA. by rewrite land_15, Z.shiftr_div_pow2 by lia. Qed.

Lemma InstB_spec w : 0 <= w < 0x10000 -> InstB w = w / 4096.
Proof.
  intros H. unfold InstB. rewrite Z.shiftr_div_pow2 by lia. apply u_small.
  unfold is_u. reduce_pow. div_lia.
Qed.

Lemma InstAA_spec w : 0 <= w < 0x10000 -> InstAA w = w / 256.
Proof.
  intros H. unfold InstAA. rewrite Z.shiftr_div_pow2 by lia. apply u_small.
  unfold is_u. reduce_pow. div_lia.
Qed.

Lemma Fetch32_spec i o : wf_units i -> Fetch32 i o = i o + 0x10000 * i (o + 1).
Proof.
  intros H. pose proof (H o). pose proof (H (o + 1)). unfold Fetch32, Fetch16.
  rewrite u_small by (rewrite Z.shiftl_mul_pow2 by lia; unfold is_u; reduce_pow; lia).
  rewrite lor_low_shiftl by (reduce_pow; lia). reduce_pow. lia.
Qed.

Lemma Fetch32_range i o : wf_units i -> is_u 32 (Fetch32 i o).
Proof.
  intros H. rewrite Fetch32_spec by done. pose proof (H o). pose proof (H (o + 1)).
  unfold is_u. reduce_pow. lia.
Qed.

Lemma int4 x : 0 <= x < 16 -> s8 (s32 (x ≪ 28) ≫ 28) = s 4 x.
Proof. intros H. apply Z.eqb_eq. by_values 16 x. Qed.

Lemma VRegB_51l_spec i :
  wf_units i -> VRegB_51l i = Fetch32 i 1 + 2 ^ 32 * Fetch32 i 3.
Proof.
  intros H. pose proof (Fetch32_range i 1 H) as H1. pose proof (Fetch32_range i 3 H) as H3.
  unfold VRegB_51l, is_u in *. reduce_pow.
  rewrite u_small by (rewrite Z.shiftl_mul_pow2 by lia; unfold is_u; reduce_pow; lia).
  rewrite lor_low_shiftl by (reduce_pow; lia). reduce_pow. lia.
Qed.

(** ** Properties *)

(** The number of code units of a format. *)
Definition format_units (f : Format) : Z :=
  match f with
  | k10x | k12x | k11n | k11x | k10t => 1
  | k32x | k30t | k31t | k31i | k31c | k35c | k3rc => 3
  | k51l => 5
  | _ => 2
  end.

(** How the operands of each format are laid out in code units. *)
Definition assemble (f : Format) (op a b c : Z) (args : list Z) : list Z :=
  let lo x := u16 x in
  let hi x := u32 x / 0x10000 in
  match f with
  | k10x | k11x => [op + 256 * a]
  | k12x => [op + 256 * a + 4096 * b]
  | k11n => [op + 256 * a + 4096 * u 4 b]
  | k10t => [op + 256 * u8 a]
  | k20t => [op; u16 a]
  | k22x | k21h | k21c => [op + 256 * a; b]
  | k21t | k21s => [op + 256 * a; u16 b]
  | k23x => [op + 256 * a; b + 256 * c]
  | k22b => [op + 256 * a; b + 256 * u8 c]
  | k22t | k22s => [op + 256 * a + 4096 * b; u16 c]
  | k22c => [op + 256 * a + 4096 * b; c]
  | k32x => [op; a; b]
  | k30t => [op; lo a; hi a]
  | k31t | k31i | k31c => [op + 256 * a; lo b; hi b]
  | k35c => [op + 256 * nth 4 args 0 + 4096 * a; b;
             nth 0 args 0 + 16 * nth 1 args 0 + 256 * nth 2 args 0 + 4096 * nth 3 args 0]
  | k3rc => [op + 256 * a; b; c]
  | k51l => [op + 256 * a; lo b; hi b; lo (b / 2 ^ 32); hi (b / 2 ^ 32)]
  end.

(** The formats without a field in the high byte of the first unit have 0 there, and a [35c]
    instruction uses all of its five argument registers. *)
Definition canonical (i : Instruction) : Prop :=
  match FormatOf (Opcode i) with
  | k20t | k30t | k32x => i 0 / 256 = 0
  | k35c => i 0 / 4096 = 5
  | _ => True
  end.

Definition units (i : Instruction) (n : Z) : list Z := i <$> seqZ 0 n.

(** The arguments of the properties below: the three operands, vB wide for [51l], and the
    argument registers. *)
Definition operand_b (i : Instruction) : Z :=
  if HasWideVRegB i then WideVRegB i else default 0 (VRegB i).
Definition operand_c (i : Instruction) : Z := default 0 (VRegC i).
Definition operand_args (i : Instruction) : list Z :=
  if HasVarArgs i then GetVarArgs i [0; 0; 0; 0; 0] else [].

Ltac unfold_fields :=
  unfold VRegA_10t, VRegA_10x, VRegA_11n, VRegA_11x, VRegA_12x, VRegA_20t, VRegA_21c, VRegA_21h,
    VRegA_21s, VRegA_21t, VRegA_22b, VRegA_22c, VRegA_22s, VRegA_22t, VRegA_22x, VRegA_23x,
    VRegA_30t, VRegA_31c, VRegA_31i, VRegA_31t, VRegA_32x, VRegA_35c, VRegA_3rc, VRegA_51l,
    VRegB_11n, VRegB_12x, VRegB_21c, VRegB_21h, VRegB_21s, VRegB_21t, VRegB_22b, VRegB_22c,
    VRegB_22s, VRegB_22t, VRegB_22x, VRegB_23x, VRegB_31c, VRegB_31i, VRegB_31t, VRegB_32x,
    VRegB_35c, VRegB_3rc, VRegC_22b, VRegC_22c, VRegC_22s, VRegC_22t, VRegC_23x, VRegC_35c,
    VRegC_3rc, Fetch16, WideVRegB in *.

(** One equation between a code unit and its fields. *)
Ltac unit_eq :=
  unfold u, s; reduce_pow;
  repeat match goal with |- _ :: _ = _ :: _ => f_equal end; div_lia.

Lemma split32 i o :
  wf_units i -> u16 (Fetch32 i o) = i o /\ u32 (Fetch32 i o) / 0x10000 = i (o + 1).
Proof.
  intros H. rewrite (u_small 32) by (by apply Fetch32_range). rewrite Fetch32_spec by done.
  pose proof (H o). pose proof (H (o + 1)). unfold u. reduce_pow. split; div_lia.
Qed.

Lemma split_s32 i o :
  wf_units i -> u16 (s32 (Fetch32 i o)) = i o /\ u32 (s32 (Fetch32 i o)) / 0x10000 = i (o + 1).
Proof.
  intros H. destruct (split32 i o H) as [H1 H2]. rewrite u_s by lia. split; [|done].
  rewrite <- H1. unfold u, s. reduce_pow. div_lia.
Qed.

Lemma split64 i :
  wf_units i ->
  u16 (VRegB_51l i) = i 1 /\ u32 (VRegB_51l i) / 0x10000 = i 2 /\
  u16 (VRegB_51l i / 2 ^ 32) = i 3 /\ u32 (VRegB_51l i / 2 ^ 32) / 0x10000 = i 4.
Proof.
  intros H. rewrite VRegB_51l_spec, !Fetch32_spec by done.
  pose proof (H 1). pose proof (H 2). pose proof (H 3). pose proof (H 4).
  change (1 + 1) with 2. change (3 + 1) with 4. unfold u. reduce_pow. split_all; div_lia.
Qed.

Lemma five_args i l :
  wf_units i -> i 0 / 4096 = 5 -> length l = 5%nat ->
  GetVarArgs i l =
    [i 2 mod 16; i 2 / 16 mod 16; i 2 / 256 mod 16; i 2 / 4096 mod 16; i 0 / 256 mod 16].
Proof.
  intros Hwf H5 Hl. unfold GetVarArgs, Fetch16.
  rewrite InstB_spec, InstA_spec by done. rewrite H5. cbn [Z.eqb Z.leb Z.compare Pos.compare
    Pos.compare_cont Pos.eqb andb]. rewrite !Z.shiftr_div_pow2 by lia. rewrite !land_15.
  destruct l as [|a [|b [|c [|d [|e [|f l]]]]]]; done.
Qed.

(** Decoding an instruction loses nothing: for each of the 24 formats the operands that
    the decoders return, put back at their places, are the code units of the instruction.
    (A format without a field in the high byte must have it zero, and the five argument
    registers of a [35c] instruction are all in use.) *)
Theorem operands_roundtrip (i : Instruction) (Hwf : wf_units i) (Hc : canonical i) :
  let f := FormatOf (Opcode i) in
  assemble f (code_value (Opcode i)) (VRegA i) (operand_b i) (operand_c i) (operand_args i)
    = units i (format_units f).
Proof.
  cbv zeta. unfold canonical, operand_b, operand_c, operand_args, HasWideVRegB, HasVarArgs,
    VRegA, VRegB, VRegC in *.
  rewrite opcode_low. pose proof (Hwf 0) as H0. pose proof (Hwf 1) as H1.
  pose proof (Hwf 2) as H2.
  destruct (split32 i 1 Hwf) as [U1 U2]. destruct (split_s32 i 1 Hwf) as [S1 S2].
  destruct (split64 i Hwf) as (W1 & W2 & W3 & W4).
  destruct (FormatOf (Opcode i)); cbn [assemble format_units default bool_decide decide];
    repeat match goal with |- context [units i ?n] =>
      let l := eval cbv in (seqZ 0 n) in change (units i n) with (i <$> l) end;
    cbn [fmap list_fmap].
  all: repeat match goal with |- context [bool_decide ?P] =>
         let b := eval vm_compute in (bool_decide P) in change (bool_decide P) with b end.
  all: unfold_fields; cbv beta iota delta [id]; rewrite ?InstAA_spec, ?InstA_spec, ?InstB_spec by done.
  all: rewrite ?int4, ?land_255 by div_lia; rewrite ?Z.shiftr_div_pow2 by lia.
  all: rewrite ?U1, ?U2, ?S1, ?S2, ?W1, ?W2, ?W3, ?W4.
  all: try unit_eq.
  rewrite five_args by (done || lia). cbn [nth]. unit_eq.
Qed.

Definition sample_insn : Instruction := fun o =>
  match o with 0 => 0x5371 | 1 => 0x0007 | 2 => 0x4321 | _ => 0 end.

Lemma sample_insn_wf : wf_units sample_insn.
Proof. intros [|[[]|[]|]|]; cbn; lia. Qed.

Lemma operands_roundtrip_witness :
  let f := FormatOf (Opcode sample_insn) in
  assemble f (code_value (Opcode sample_insn)) (VRegA sample_insn) (operand_b sample_insn)
    (operand_c sample_insn) (operand_args sample_insn) = units sample_insn (format_units f).
Proof. apply (operands_roundtrip sample_insn sample_insn_wf). by vm_compute. Defined.

Definition has_flag (c : Code) (f : Z) : bool := negb (Z.land (FlagsOf c) f =? 0).
Definition is_some {A} (o : option A) : bool := match o with Some _ => true | None => false end.

(** The instruction list, the classification functions and the operand decoders agree.
    For every opcode: its number determines it; the branches are exactly the instructions
    with a branch offset; the invoke, return, load and store flags are exactly the opcode
    ranges of [dex_instruction_utils.h], for which an invoke kind, a range format and a
    memory access type are defined; an instruction that cannot flow through is a return, a
    throw, an unconditional branch or unused; and only a switch or an array-data pseudo
    instruction has a size that the format does not give. *)
Theorem opcode_classes (i : Instruction) (c : Code) (Hc : Opcode i = c) :
  code_of_Z (code_value c) = c /\ op_code (op_info c) = c /\
  IsBranch i = is_some (GetTargetOffset i) /\
  IsInvoke i = (IsInstructionInvoke c || IsInstructionQuickInvoke c) /\
  (IsInstructionInvoke c = true ->
     is_some (InvokeInstructionType c) = true /\
     IsInvokeInstructionRange c = bool_decide (FormatOf c = k3rc)) /\
  IsReturn i = (IsInstructionReturn c || is_code c RETURN_VOID_NO_BARRIER) /\
  has_flag c kLoad || has_flag c kStore
    = (IsInstructionIGetOrIPut c || IsInstructionSGetOrSPut c || IsInstructionAGetOrAPut c
       || IsInstructionIGetQuickOrIPutQuick c) /\
  (IsInstructionIGetOrIPut c = true -> is_some (IGetOrIPutMemAccessType c) = true) /\
  (IsInstructionSGetOrSPut c = true -> is_some (SGetOrSPutMemAccessType c) = true) /\
  (IsInstructionAGetOrAPut c = true -> is_some (AGetOrAPutMemAccessType c) = true) /\
  IsInstructionIGetQuickOrIPutQuick c = is_some (IGetQuickOrIPutQuickMemAccessType c) /\
  CanFlowThrough i = negb (IsReturn i || IsUnconditional i || is_code c THROW
                           || bool_decide (op_index (op_info c) = kUnknown)) /\
  kInstructionSizeInCodeUnits c = (if is_code c NOP then -1 else format_units (FormatOf c)).
Proof.
  unfold IsBranch, IsInvoke, IsReturn, IsUnconditional, CanFlowThrough, GetTargetOffset.
  change (code_of_Z (Z.land (i 0) 0xFF)) with (Opcode i). rewrite Hc.
  split_all; by destruct c.
Qed.

Lemma opcode_classes_witness :
  Opcode sample_insn = INVOKE_STATIC /\
  code_of_Z (code_value INVOKE_STATIC) = INVOKE_STATIC /\
  IsInvoke sample_insn = (IsInstructionInvoke INVOKE_STATIC || IsInstructionQuickInvoke INVOKE_STATIC).
Proof.
  split; [by vm_compute|].
  pose proof (opcode_classes sample_insn INVOKE_STATIC ltac:(by vm_compute)) as (H1 & _ & _ & H2 & _).
  by split.
Defined.

(** The 32-bit length of an array-data pseudo instruction. *)
Definition array_data_length (i : Instruction) : Z := i 2 + 0x10000 * i 3.

(** Every instruction has a size, so a linear sweep of a method always advances.  Apart
    from the pseudo instructions it is the number of code units of the format; a packed
    switch has a key and a target per case, a sparse switch a key and a target per case, and
    an array-data payload takes its bytes rounded up to code units, as long as their number
    fits in 32 bits. *)
Theorem size_in_code_units (i : Instruction) (Hwf : wf_units i) :
  exists n, SizeInCodeUnits i = Some n /\ 1 <= n < 2 ^ 32 /\
    (Opcode i <> NOP -> n = format_units (FormatOf (Opcode i))) /\
    (Opcode i = NOP ->
       (i 0 = kPackedSwitchSignature -> n = 4 + 2 * case_count i) /\
       (i 0 = kSparseSwitchSignature -> n = 2 + 4 * case_count i) /\
       (i 0 = kArrayDataSignature -> i 1 * array_data_length i + 1 < 2 ^ 32 ->
          8 + i 1 * array_data_length i <= 2 * n <= 9 + i 1 * array_data_length i) /\
       (i 0 <> kPackedSwitchSignature -> i 0 <> kSparseSwitchSignature ->
          i 0 <> kArrayDataSignature -> n = 1)) /\
    exists next, Next i = Some next /\ forall o, next o = i (n + o).
Proof.
  pose proof (Hwf 1) as H1. pose proof (Hwf 2) as H2. pose proof (Hwf 3) as H3.
  assert (Hnext : forall n, SizeInCodeUnits i = Some n ->
    exists next, Next i = Some next /\ forall o, next o = i (n + o))
    by (intros n E; unfold Next; rewrite E; eexists; split; [done|done]).
  assert (Hsz : forall c, kInstructionSizeInCodeUnits c
    = (if is_code c NOP then -1 else format_units (FormatOf c))) by (by intros []).
  assert (Hpos : forall f, 1 <= format_units f <= 5) by (intros []; cbn; lia).
  destruct (decide (Opcode i = NOP)) as [En|Nn].
  - assert (Hlow : Z.land (i 0) 0xFF = 0)
      by (rewrite land_255, <- opcode_low, En; done).
    assert (Hlen : Z.lor (i 2) (u32 (i 3 ≪ 16)) = array_data_length i).
    { change (Z.lor (i 2) (u32 (i 3 ≪ 16))) with (Fetch32 i 2). by apply Fetch32_spec. }
    assert (Hprod : 0 <= i 1 * array_data_length i) by (unfold array_data_length; nia).
    assert (Hn0 : kInstructionSizeInCodeUnits (Opcode i) = -1) by (by rewrite En).
    unfold SizeInCodeUnits in *. rewrite Hn0 in *. cbn [Z.ltb Z.compare] in *.
    unfold SizeInCodeUnitsComplexOpcode in *. rewrite Hlow, Hlen in *. unfold case_count, Fetch16.
    destruct (Z.eqb_spec (i 0) kPackedSwitchSignature) as [E0|N0];
      [|destruct (Z.eqb_spec (i 0) kSparseSwitchSignature) as [E0'|N0'];
        [|destruct (Z.eqb_spec (i 0) kArrayDataSignature) as [E1|N1]]];
      (eexists; split; [reflexivity|split_all; [..|by apply Hnext]]);
      unfold kPackedSwitchSignature, kSparseSwitchSignature, kArrayDataSignature in *;
      try (intros; split_all; intros); try done; try lia.
    all: pose proof Hprod; generalize dependent (i 1 * array_data_length i); intros;
      unfold u in *; reduce_pow; div_lia.
  - assert (Hn0 : kInstructionSizeInCodeUnits (Opcode i) = format_units (FormatOf (Opcode i))).
    { rewrite Hsz. unfold is_code. case_Zcmp; [|done]. exfalso. apply Nn. by apply code_value_inj. }
    specialize (Hpos (FormatOf (Opcode i))).
    assert (Es : SizeInCodeUnits i = Some (format_units (FormatOf (Opcode i))))
      by (unfold SizeInCodeUnits; rewrite Hn0; case_Zcmp; [lia|done]).
    eexists. split; [exact Es|]. split_all; try done; try lia. by apply Hnext.
Qed.

Lemma size_in_code_units_witness :
  exists n, SizeInCodeUnits sample_insn = Some n /\ 1 <= n < 2 ^ 32 /\
    (Opcode sample_insn <> NOP -> n = format_units (FormatOf (Opcode sample_insn))).
Proof.
  destruct (size_in_code_units sample_insn sample_insn_wf) as (n & H1 & H2 & H3 & _).
  by exists n.
Defined.
