(* ===== verification/ShadowFrame.v ===== *)
(** Interpreter frames and values ([stack.h], [stack.cc], [jvalue.h]).

    A [ShadowFrame] keeps every virtual register twice: its 32 bits in [vregs_] and, for the
    garbage collector, the reference it holds in the reference array that follows them.  A
    [float] or [double] register value is its bit pattern; a reference is its 32-bit
    compressed pointer, 0 for [nullptr].  [None] is an access outside the frame
    ([DCHECK_LT(i, NumberOfVRegs())]). *)
From S2P Require Import Prelude.
Local Open Scope Z_scope.

(** [globals.h]: the collectors move objects, so writes of non-references clear the entry of
    the reference array. *)
Definition kMovingCollector : bool := true.

Record ShadowFrame := {
  number_of_vregs_ : Z;
  link_ : option Z;
  method_ : Z;
  dex_pc_ : Z;
  vregs_ : list Z;
  references_ : list Z;
}.

(** [sizeof_frame] is [sizeof(ShadowFrame)], [4] the size of a register and of a reference. *)
Definition ComputeSize (sizeof_frame num_vregs : Z) : Z :=
  sizeof_frame + 4 * num_vregs + 4 * num_vregs.

(** The constructor: [memset] of both arrays. *)
Definition Create (num_vregs : Z) (link : option Z) (method dex_pc : Z) : ShadowFrame :=
  {| number_of_vregs_ := num_vregs; link_ := link; method_ := method; dex_pc_ := dex_pc;
     vregs_ := replicate (Z.to_nat num_vregs) 0;
     references_ := replicate (Z.to_nat num_vregs) 0 |}.

Definition HasReferenceArray (f : ShadowFrame) : bool := true.
Definition NumberOfVRegs (f : ShadowFrame) : Z := number_of_vregs_ f.
Definition GetDexPC (f : ShadowFrame) : Z := dex_pc_ f.
Definition GetLink (f : ShadowFrame) : option Z := link_ f.
Definition GetMethod (f : ShadowFrame) : Z := method_ f.

Definition SetDexPC (dex_pc : Z) (f : ShadowFrame) : ShadowFrame :=
  {| number_of_vregs_ := number_of_vregs_ f; link_ := link_ f; method_ := method_ f;
     dex_pc_ := dex_pc; vregs_ := vregs_ f; references_ := references_ f |}.

Definition SetLink (frame : option Z) (f : ShadowFrame) : ShadowFrame :=
  {| number_of_vregs_ := number_of_vregs_ f; link_ := frame; method_ := method_ f;
     dex_pc_ := dex_pc_ f; vregs_ := vregs_ f; references_ := references_ f |}.

Definition set_arrays (vregs references : list Z) (f : ShadowFrame) : ShadowFrame :=
  {| number_of_vregs_ := number_of_vregs_ f; link_ := link_ f; method_ := method_ f;
     dex_pc_ := dex_pc_ f; vregs_ := vregs; references_ := references |}.

(** [array[i]] for a register number. *)
Definition reg_at (l : list Z) (i : Z) : option Z :=
  if 0 <=? i then l !! Z.to_nat i else None.
Definition reg_set (l : list Z) (i v : Z) : option (list Z) :=
  if (0 <=? i) && (i <? Z.of_nat (length l)) then Some (<[Z.to_nat i := v]> l) else None.

Definition GetVReg (f : ShadowFrame) (i : Z) : option Z :=
  vreg ← reg_at (vregs_ f) i; Some (s32 vreg).

Definition GetVRegFloat (f : ShadowFrame) (i : Z) : option Z := reg_at (vregs_ f) i.

(** A wide value is stored little-endian in two registers. *)
Definition GetVRegDouble (f : ShadowFrame) (i : Z) : option Z :=
  lo ← reg_at (vregs_ f) i;
  hi ← reg_at (vregs_ f) (i + 1);
  Some (lo + 2 ^ 32 * hi).

Definition GetVRegLong (f : ShadowFrame) (i : Z) : option Z :=
  bits ← GetVRegDouble f i; Some (s64 bits).

Definition GetVRegReference (f : ShadowFrame) (i : Z) : option Z := reg_at (references_ f) i.

(** Clearing entries of the reference array. *)
Definition clear_reference (f : ShadowFrame) (i : Z) : option (list Z) :=
  if kMovingCollector && HasReferenceArray f then reg_set (references_ f) i 0
  else Some (references_ f).

(** The 32-bit writes. *)
Definition SetVRegFloat (f : ShadowFrame) (i val : Z) : option ShadowFrame :=
  vregs ← reg_set (vregs_ f) i (u32 val);
  refs ← clear_reference f i;
  Some (set_arrays vregs refs f).

Definition SetVReg (f : ShadowFrame) (i val : Z) : option ShadowFrame :=
  vregs ← reg_set (vregs_ f) i (u32 val);
  refs ← clear_reference f i;
  Some (set_arrays vregs refs f).

(** The 64-bit writes. *)
Definition SetVRegDouble (f : ShadowFrame) (i val : Z) : option ShadowFrame :=
  vregs ← reg_set (vregs_ f) i (u32 val);
  vregs ← reg_set vregs (i + 1) (u32 (val ≫ 32));
  if kMovingCollector && HasReferenceArray f then
    refs ← reg_set (references_ f) i 0;
    refs ← reg_set refs (i + 1) 0;
    Some (set_arrays vregs refs f)
  else Some (set_arrays vregs (references_ f) f).

Definition SetVRegLong (f : ShadowFrame) (i val : Z) : option ShadowFrame :=
  SetVRegDouble f i (u64 val).

(** [ObjectReference::Compress], without reference poisoning. *)
Definition Compress (mirror_ptr : Z) : Z := u32 mirror_ptr.

Definition SetVRegReference (f : ShadowFrame) (i val : Z) : option ShadowFrame :=
  vregs ← reg_set (vregs_ f) i (Compress val);
  if HasReferenceArray f then
    refs ← reg_set (references_ f) i (Compress val);
    Some (set_arrays vregs refs f)
  else Some (set_arrays vregs (references_ f) f).

(** [GetThisObject(num_ins)]; [is_static] is [method_->IsStatic()]. *)
Definition GetThisObject (is_static : bool) (f : ShadowFrame) (num_ins : Z) : option Z :=
  if is_static then Some 0
  else GetVRegReference f (NumberOfVRegs f - num_ins).

(** ** [JValue]

    The union is its 64 bits; the setters write the low bytes they name. *)
Definition JValue : Type := Z.
Definition JValue_new : JValue := 0.

(** Replacing the low [w] bits. *)
Definition set_low (w : Z) (j v : Z) : JValue := u w v + 2 ^ w * (u64 j / 2 ^ w).

Definition GetB (j : JValue) : Z := s8 j.
Definition GetC (j : JValue) : Z := u16 j.
Definition GetD (j : JValue) : Z := u64 j.
Definition GetF (j : JValue) : Z := u32 j.
Definition GetI (j : JValue) : Z := s32 j.
Definition GetJ (j : JValue) : Z := s64 j.
Definition GetS (j : JValue) : Z := s16 j.
Definition GetZ (j : JValue) : Z := u8 j.
(** References are 32-bit compressed pointers zero-extended to the pointer size. *)
Definition GetL (j : JValue) : Z := u64 j.

Definition SetB (j v : Z) : JValue := set_low 32 j (s32 (s32 v ≪ 24) ≫ 24).
Definition SetC (j v : Z) : JValue := set_low 16 j v.
Definition SetD (j v : Z) : JValue := u64 v.
Definition SetF (j v : Z) : JValue := set_low 32 j v.
Definition SetI (j v : Z) : JValue := set_low 32 j v.
Definition SetJ (j v : Z) : JValue := u64 v.
Definition SetS (j v : Z) : JValue := set_low 32 j (s32 (s32 v ≪ 16) ≫ 16).
Definition SetZ (j v : Z) : JValue := set_low 8 j v.
Definition SetL (j v : Z) : JValue := u64 v.

(** ** The frame invariant

    Both arrays have one entry per register, hold 32-bit words, and agree: an entry of the
    reference array is either clear or the value of the register. *)
Definition roots_agree (vregs references : list Z) : Prop :=
  forall i r, references !! i = Some r -> r = 0 \/ vregs !! i = Some r.

Definition frame_ok (f : ShadowFrame) : Prop :=
  Z.of_nat (length (vregs_ f)) = number_of_vregs_ f /\
  length (references_ f) = length (vregs_ f) /\
  Forall (is_u 32) (vregs_ f) /\ Forall (is_u 32) (references_ f) /\
  roots_agree (vregs_ f) (references_ f).

(** [k] registers from [i] on may differ. *)
Definition same_except (i k : Z) (f f' : ShadowFrame) : Prop :=
  number_of_vregs_ f' = number_of_vregs_ f /\ link_ f' = link_ f /\
  method_ f' = method_ f /\ dex_pc_ f' = dex_pc_ f /\
  length (vregs_ f') = length (vregs_ f) /\
  forall j : nat, ~ (i <= Z.of_nat j < i + k) ->
    vregs_ f' !! j = vregs_ f !! j /\ references_ f' !! j = references_ f !! j.

Lemma Create_ok n link method dex_pc : 0 <= n -> frame_ok (Create n link method dex_pc).
Proof.
  intros Hn. unfold frame_ok. cbn. rewrite !length_replicate.
  split_all; [lia|done|..]; try (apply Forall_replicate; unfold is_u; reduce_pow; lia).
  intros i r H. apply lookup_replicate in H as [-> _]. by left.
Qed.

Lemma reg_set_some l i v :
  0 <= i < Z.of_nat (length l) -> reg_set l i v = Some (<[Z.to_nat i := v]> l).
Proof. intros H. unfold reg_set. repeat case_Zcmp; cbn; done || lia. Qed.

Lemma reg_set_inv l i v l' :
  reg_set l i v = Some l' -> 0 <= i < Z.of_nat (length l) /\ l' = <[Z.to_nat i := v]> l.
Proof. unfold reg_set. repeat case_Zcmp; cbn; intros E; simplify_eq; done || lia. Qed.

Lemma reg_at_insert l i v :
  0 <= i < Z.of_nat (length l) -> reg_at (<[Z.to_nat i := v]> l) i = Some v.
Proof.
  intros H. unfold reg_at. case_Zcmp; [|lia]. apply list_lookup_insert_eq. lia.
Qed.

Lemma reg_at_insert_ne l i j v :
  0 <= i -> i <> j -> reg_at (<[Z.to_nat i := v]> l) j = reg_at l j.
Proof.
  intros Hi Hne. unfold reg_at. case_Zcmp; [|done]. apply list_lookup_insert_ne. lia.
Qed.

Lemma reg_at_some l i : 0 <= i < Z.of_nat (length l) -> is_Some (reg_at l i).
Proof. intros H. unfold reg_at. case_Zcmp; [|lia]. apply lookup_lt_is_Some. lia. Qed.

Lemma reg_at_u32 l i v : Forall (is_u 32) l -> reg_at l i = Some v -> is_u 32 v.
Proof.
  unfold reg_at. case_Zcmp; [|done]. intros HF E. by eapply Forall_lookup_1.
Qed.

(** One register written, with the matching entry of the reference array. *)
Definition write1 (i v r : Z) (f : ShadowFrame) : ShadowFrame :=
  set_arrays (<[Z.to_nat i := v]> (vregs_ f)) (<[Z.to_nat i := r]> (references_ f)) f.

Lemma write1_ok i v r f :
  frame_ok f -> 0 <= i < number_of_vregs_ f -> is_u 32 v -> r = 0 \/ r = v ->
  frame_ok (write1 i v r f) /\ same_except i 1 f (write1 i v r f) /\
  reg_at (vregs_ (write1 i v r f)) i = Some v /\
  reg_at (references_ (write1 i v r f)) i = Some r.
Proof.
  intros (H1 & H2 & H3 & H4 & H5) Hi Hv Hr.
  assert (Hr32 : is_u 32 r) by (destruct Hr as [->| ->]; [vm_compute; done|done]).
  split_all.
  - unfold frame_ok. cbn. rewrite !length_insert. split_all; try done.
    1,2: by apply Forall_insert.
    intros j x Hx. destruct (decide (j = Z.to_nat i)) as [->|Hne].
    + rewrite list_lookup_insert_eq in Hx by lia. simplify_eq.
      destruct Hr as [->| ->]; [by left|right]. apply list_lookup_insert_eq. lia.
    + rewrite list_lookup_insert_ne in Hx by done. rewrite list_lookup_insert_ne by done. auto.
  - unfold same_except. cbn. rewrite length_insert. split_all; try done.
    intros j Hj. rewrite !list_lookup_insert_ne by lia. done.
  - apply reg_at_insert. lia.
  - apply reg_at_insert. lia.
Qed.

Lemma same_except_two i f f' f'' :
  same_except i 1 f f' -> same_except (i + 1) 1 f' f'' -> same_except i 2 f f''.
Proof.
  intros (A1 & A2 & A3 & A4 & A5 & A) (B1 & B2 & B3 & B4 & B5 & B).
  unfold same_except. split_all; try congruence.
  intros j Hj. destruct (A j), (B j); try lia. split; congruence.
Qed.

Lemma SetVRegFloat_eq f i v :
  frame_ok f -> 0 <= i < number_of_vregs_ f -> SetVRegFloat f i v = Some (write1 i (u32 v) 0 f).
Proof.
  intros (H1 & H2 & _) Hi. unfold SetVRegFloat, clear_reference. cbn [kMovingCollector HasReferenceArray andb].
  rewrite !reg_set_some by lia. done.
Qed.

Lemma SetVReg_eq f i v :
  frame_ok f -> 0 <= i < number_of_vregs_ f -> SetVReg f i v = Some (write1 i (u32 v) 0 f).
Proof.
  intros (H1 & H2 & _) Hi. unfold SetVReg, clear_reference. cbn [kMovingCollector HasReferenceArray andb].
  rewrite !reg_set_some by lia. done.
Qed.

Lemma SetVRegReference_eq f i v :
  frame_ok f -> 0 <= i < number_of_vregs_ f -> SetVRegReference f i v = Some (write1 i (u32 v) (u32 v) f).
Proof.
  intros (H1 & H2 & _) Hi. unfold SetVRegReference. cbn [HasReferenceArray].
  rewrite !reg_set_some by lia. done.
Qed.

Lemma SetVRegDouble_eq f i v :
  frame_ok f -> 0 <= i -> i + 1 < number_of_vregs_ f ->
  SetVRegDouble f i v = Some (write1 (i + 1) (u32 (v ≫ 32)) 0 (write1 i (u32 v) 0 f)).
Proof.
  intros (H1 & H2 & _) Hi Hj. unfold SetVRegDouble. cbn [kMovingCollector HasReferenceArray andb].
  rewrite !reg_set_some by lia. cbn [mbind option_bind].
  rewrite !reg_set_some by (rewrite ?length_insert; lia). done.
Qed.

Lemma wide_parts v : u32 v + 2 ^ 32 * u32 (v ≫ 32) = u64 v.
Proof. rewrite Z.shiftr_div_pow2 by lia. word_lia. Qed.

Lemma SetVRegDouble_spec f i v :
  frame_ok f -> 0 <= i -> i + 1 < number_of_vregs_ f ->
  exists f', SetVRegDouble f i v = Some f' /\ frame_ok f' /\ same_except i 2 f f' /\
    GetVRegDouble f' i = Some (u64 v) /\
    GetVRegReference f' i = Some 0 /\ GetVRegReference f' (i + 1) = Some 0.
Proof.
  intros Hok Hi Hj. rewrite SetVRegDouble_eq by done. eexists. split; [done|].
  destruct (write1_ok i (u32 v) 0 f) as (O1 & S1 & V1 & R1);
    [done|lia|by apply (u_range 32)|by left|].
  set (f1 := write1 i (u32 v) 0 f) in *.
  assert (Hn : number_of_vregs_ f1 = number_of_vregs_ f) by apply S1.
  destruct (write1_ok (i + 1) (u32 (v ≫ 32)) 0 f1) as (O2 & S2 & V2 & R2);
    [done|lia|by apply (u_range 32)|by left|].
  unfold GetVRegDouble, GetVRegReference in *.
  assert (K1 : reg_at (vregs_ (write1 (i + 1) (u32 (v ≫ 32)) 0 f1)) i = reg_at (vregs_ f1) i)
    by (apply reg_at_insert_ne; lia).
  assert (K2 : reg_at (references_ (write1 (i + 1) (u32 (v ≫ 32)) 0 f1)) i
               = reg_at (references_ f1) i) by (apply reg_at_insert_ne; lia).
  rewrite K1, K2, V1, V2. split_all; try done.
  - by eapply same_except_two.
  - cbn. f_equal. apply wide_parts.
Qed.

Lemma SetVReg_spec f i v :
  frame_ok f -> 0 <= i < number_of_vregs_ f ->
  exists f', SetVReg f i v = Some f' /\ frame_ok f' /\ same_except i 1 f f' /\
    GetVReg f' i = Some (s32 v) /\ GetVRegReference f' i = Some 0.
Proof.
  intros Hok Hi. rewrite SetVReg_eq by done. eexists. split; [done|].
  destruct (write1_ok i (u32 v) 0 f) as (O1 & S1 & V1 & R1);
    [done|lia|by apply (u_range 32)|by left|].
  unfold GetVReg, GetVRegReference. rewrite V1. split_all; try done.
  cbn. by rewrite s_u by lia.
Qed.

Lemma SetVRegLong_spec f i v :
  frame_ok f -> 0 <= i -> i + 1 < number_of_vregs_ f ->
  exists f', SetVRegLong f i v = Some f' /\ frame_ok f' /\ same_except i 2 f f' /\
    GetVRegLong f' i = Some (s64 v) /\
    GetVRegReference f' i = Some 0 /\ GetVRegReference f' (i + 1) = Some 0.
Proof.
  intros Hok Hi Hj. unfold SetVRegLong.
  destruct (SetVRegDouble_spec f i (u64 v)) as (f' & E & O & S & G & R); try done.
  exists f'. unfold GetVRegLong. rewrite G. split_all; try done; try apply R.
  cbn. by rewrite u_u, s_u by lia.
Qed.

Lemma SetVRegReference_spec f i v :
  frame_ok f -> 0 <= i < number_of_vregs_ f ->
  exists f', SetVRegReference f i v = Some f' /\ frame_ok f' /\ same_except i 1 f f' /\
    GetVRegReference f' i = Some (u32 v) /\ GetVReg f' i = Some (s32 v).
Proof.
  intros Hok Hi. rewrite SetVRegReference_eq by done. eexists. split; [done|].
  destruct (write1_ok i (u32 v) (u32 v) f) as (O1 & S1 & V1 & R1);
    [done|lia|by apply (u_range 32)|by right|].
  unfold GetVReg, GetVRegReference. rewrite V1. split_all; try done. cbn. by rewrite s_u by lia.
Qed.

Lemma SetVRegFloat_spec f i v :
  frame_ok f -> 0 <= i < number_of_vregs_ f ->
  exists f', SetVRegFloat f i v = Some f' /\ frame_ok f' /\ same_except i 1 f f' /\
    GetVRegFloat f' i = Some (u32 v) /\ GetVRegReference f' i = Some 0.
Proof.
  intros Hok Hi. rewrite SetVRegFloat_eq by done. eexists. split; [done|].
  destruct (write1_ok i (u32 v) 0 f) as (O1 & S1 & V1 & R1);
    [done|lia|by apply (u_range 32)|by left|].
  unfold GetVRegFloat, GetVRegReference. by rewrite V1.
Qed.

(** ** Frames that only differ in their registers *)

Definition keeps (f f' : ShadowFrame) : Prop :=
  (frame_ok f -> frame_ok f') /\
  number_of_vregs_ f' = number_of_vregs_ f /\ method_ f' = method_ f /\ link_ f' = link_ f /\
  dex_pc_ f' = dex_pc_ f.

Lemma keeps_refl f : keeps f f.
Proof. by unfold keeps; split_all. Qed.

Lemma keeps_trans f g h : keeps f g -> keeps g h -> keeps f h.
Proof. intros (A1&A2&A3&A4&A5) (B1&B2&B3&B4&B5). unfold keeps; split_all; auto; congruence. Qed.

Lemma frame_ok_bounds f l i v :
  frame_ok f -> l = vregs_ f \/ l = references_ f ->
  is_Some (reg_set l i v) -> 0 <= i < number_of_vregs_ f.
Proof.
  intros (H1 & H2 & _) Hl [l' E]. apply reg_set_inv in E as [Hi _].
  destruct Hl as [->| ->]; lia.
Qed.

Lemma SetVReg_keeps f i v f' : SetVReg f i v = Some f' -> keeps f f'.
Proof.
  intros E. unfold keeps. split.
  - intros Hok. assert (Hi : 0 <= i < number_of_vregs_ f).
    { unfold SetVReg in E. destruct (reg_set (vregs_ f) i (u32 v)) eqn:Er; [|done].
      eapply (frame_ok_bounds f (vregs_ f)); eauto. }
    destruct (SetVReg_spec f i v Hok Hi) as (g & E' & Hg & _). congruence.
  - revert E. unfold SetVReg, clear_reference. cbn [kMovingCollector HasReferenceArray andb].
    destruct (reg_set (vregs_ f) i (u32 v)); [|done].
    cbn. destruct (reg_set (references_ f) i 0); [|done]. cbn. by intros [= <-].
Qed.

Lemma SetVRegFloat_keeps f i v f' : SetVRegFloat f i v = Some f' -> keeps f f'.
Proof. apply SetVReg_keeps. Qed.

Lemma SetVRegReference_keeps f i v f' : SetVRegReference f i v = Some f' -> keeps f f'.
Proof.
  intros E. unfold keeps. split.
  - intros Hok. assert (Hi : 0 <= i < number_of_vregs_ f).
    { unfold SetVRegReference in E. destruct (reg_set (vregs_ f) i (Compress v)) eqn:Er; [|done].
      eapply (frame_ok_bounds f (vregs_ f)); eauto. }
    destruct (SetVRegReference_spec f i v Hok Hi) as (g & E' & Hg & _). congruence.
  - revert E. unfold SetVRegReference. cbn [HasReferenceArray].
    destruct (reg_set (vregs_ f) i (Compress v)); [|done].
    cbn. destruct (reg_set (references_ f) i (Compress v)); [|done]. cbn. by intros [= <-].
Qed.

Lemma SetVRegDouble_keeps f i v f' : SetVRegDouble f i v = Some f' -> keeps f f'.
Proof.
  unfold SetVRegDouble. cbn [kMovingCollector HasReferenceArray andb].
  destruct (reg_set (vregs_ f) i (u32 v)) as [l1|] eqn:E1; [|done]. cbn [mbind option_bind].
  destruct (reg_set l1 (i + 1) (u32 (v ≫ 32))) as [l2|] eqn:E2; [|done]. cbn [mbind option_bind].
  destruct (reg_set (references_ f) i 0) as [r1|] eqn:E3; [|done]. cbn [mbind option_bind].
  destruct (reg_set r1 (i + 1) 0) as [r2|] eqn:E4; [|done]. cbn [mbind option_bind].
  intros [= <-]. unfold keeps. split; [|by split_all]. intros Hok.
  pose proof (reg_set_inv _ _ _ _ E1) as [H1 ->]. pose proof (reg_set_inv _ _ _ _ E2) as [H2 ->].
  rewrite length_insert in H2. pose proof Hok as (Hn & _).
  destruct (SetVRegDouble_spec f i v Hok) as (g & E' & Hg & _); [lia|lia|].
  unfold SetVRegDouble in E'. cbn [kMovingCollector HasReferenceArray andb] in E'.
  rewrite E1 in E'. cbn [mbind option_bind] in E'. rewrite E2 in E'. cbn [mbind option_bind] in E'.
  rewrite E3 in E'. cbn [mbind option_bind] in E'. rewrite E4 in E'. cbn in E'. by injection E' as <-.
Qed.

Lemma SetVRegLong_keeps f i v f' : SetVRegLong f i v = Some f' -> keeps f f'.
Proof. apply SetVRegDouble_keeps. Qed.

Lemma SetDexPC_frame_ok pc f : frame_ok f <-> frame_ok (SetDexPC pc f).
Proof. done. Qed.

Create HintDb keeps discriminated.
#[export] Hint Resolve keeps_refl SetVReg_keeps SetVRegFloat_keeps SetVRegReference_keeps
  SetVRegDouble_keeps SetVRegLong_keeps : keeps.

(** ** Typed writes *)

(** A typed write of the code: the register it names and the value. *)
Inductive reg_write :=
  | WInt (i v : Z)
  | WFloat (i v : Z)
  | WLong (i v : Z)
  | WDouble (i v : Z)
  | WReference (i v : Z).

Definition write_reg (w : reg_write) (f : ShadowFrame) : option ShadowFrame :=
  match w with
  | WInt i v => SetVReg f i v
  | WFloat i v => SetVRegFloat f i v
  | WLong i v => SetVRegLong f i v
  | WDouble i v => SetVRegDouble f i v
  | WReference i v => SetVRegReference f i v
  end.

(** The first register a write touches, how many, and whether its value fits. *)
Definition write_first (w : reg_write) : Z :=
  match w with WInt i _ | WFloat i _ | WLong i _ | WDouble i _ | WReference i _ => i end.
Definition write_width (w : reg_write) : Z :=
  match w with WLong _ _ | WDouble _ _ => 2 | _ => 1 end.
Definition write_fits (w : reg_write) : Prop :=
  match w with
  | WInt _ v => is_s 32 v
  | WLong _ v => is_s 64 v
  | WFloat _ v | WReference _ v => is_u 32 v
  | WDouble _ v => is_u 64 v
  end.

(** Reading back with the accessor of the same type. *)
Definition reads_back (w : reg_write) (f : ShadowFrame) : Prop :=
  match w with
  | WInt i v => GetVReg f i = Some v /\ GetVRegReference f i = Some 0
  | WFloat i v => GetVRegFloat f i = Some v /\ GetVRegReference f i = Some 0
  | WLong i v => GetVRegLong f i = Some v /\
      GetVRegReference f i = Some 0 /\ GetVRegReference f (i + 1) = Some 0
  | WDouble i v => GetVRegDouble f i = Some v /\
      GetVRegReference f i = Some 0 /\ GetVRegReference f (i + 1) = Some 0
  | WReference i v => GetVRegReference f i = Some v /\ GetVReg f i = Some (s32 v)
  end.

(** A frame whose arrays agree ([frame_ok]: one 32-bit entry per register, and every
    reference the collector sees is the value of its register) takes any typed write whose
    registers exist: the write succeeds, keeps the invariant, changes nothing but its one or two
    registers, the accessor of the same type reads the value back, and a primitive write clears
    the collector's references to the registers it overwrites. *)
Theorem typed_write (f : ShadowFrame) (w : reg_write) :
  frame_ok f -> 0 <= write_first w -> write_first w + write_width w <= number_of_vregs_ f ->
  write_fits w ->
  exists f', write_reg w f = Some f' /\ frame_ok f' /\
    same_except (write_first w) (write_width w) f f' /\ reads_back w f'.
Proof.
  intros Hok H0 H1 Hv.
  destruct w as [i v|i v|i v|i v|i v]; cbn [write_first write_width write_fits write_reg reads_back] in *.
  - destruct (SetVReg_spec f i v) as (f' & ? & ? & ? & E & ?); [done|lia|].
    rewrite s_small in E by (lia || done). by exists f'.
  - destruct (SetVRegFloat_spec f i v) as (f' & ? & ? & ? & E & ?); [done|lia|].
    rewrite u_small in E by done. by exists f'.
  - destruct (SetVRegLong_spec f i v) as (f' & ? & ? & ? & E & ? & ?); [done|lia|lia|].
    rewrite s_small in E by (lia || done). by exists f'.
  - destruct (SetVRegDouble_spec f i v) as (f' & ? & ? & ? & E & ? & ?); [done|lia|lia|].
    rewrite u_small in E by done. by exists f'.
  - destruct (SetVRegReference_spec f i v) as (f' & ? & ? & ? & E & ?); [done|lia|].
    rewrite u_small in E by done. by exists f'.
Qed.

Lemma typed_write_witness :
  exists f', write_reg (WLong 1 (-3)) (Create 3 None 7 0) = Some f' /\ frame_ok f' /\
    same_except 1 2 (Create 3 None 7 0) f' /\ reads_back (WLong 1 (-3)) f'.
Proof.
  apply (typed_write (Create 3 None 7 0) (WLong 1 (-3)));
    [apply Create_ok; lia|cbn; lia|cbn; lia|vm_compute; split; congruence].
Defined.
