(* ===== verification/Floats.v ===== *)
(** IEEE arithmetic of the interpreter ([float] and [double] registers, and
    [art_float_to_integral] of [entrypoint_utils-inl.h]).

    A register holds the bit pattern of a [float] or [double].  C++ arithmetic on them is IEEE
    754 round-to-nearest-even on the targets of the runtime; it is the Standard Library's
    [SpecFloat] between a decoding and an encoding of the bits.  C++ leaves the payload of a
    NaN result open: the encoding gives the default quiet NaN. *)
From S2P Require Import Prelude.
From Stdlib Require Import SpecFloat.
Local Open Scope Z_scope.

(** ** Formats *)

Record FloatType := { prec : Z; emax : Z; width : Z }.

Definition kFloat : FloatType := {| prec := 24; emax := 128; width := 32 |}.
Definition kDouble : FloatType := {| prec := 53; emax := 1024; width := 64 |}.

Section Format.
Variable T : FloatType.

(** Least exponent, bits of the stored mantissa, weight of the sign bit. *)
Definition e_min : Z := emin (prec T) (emax T).
Definition mant : Z := 2 ^ (prec T - 1).
Definition sign_bit : Z := 2 ^ (width T - 1).

Definition decode (bits : Z) : spec_float :=
  let s := sign_bit <=? bits in
  let m := bits mod mant in
  let e := (bits / mant) mod (2 * emax T) in
  if e =? 0 then
    match m with Zpos p => S754_finite s p e_min | _ => S754_zero s end
  else if e =? 2 * emax T - 1 then
    if m =? 0 then S754_infinity s else S754_nan
  else
    match m + mant with Zpos p => S754_finite s p (e - 1 + e_min) | _ => S754_nan end.

Definition sign_of (s : bool) : Z := if s then sign_bit else 0.

Definition encode (f : spec_float) : Z :=
  match f with
  | S754_zero s => sign_of s
  | S754_infinity s => sign_of s + (2 * emax T - 1) * mant
  | S754_nan => (2 * emax T - 1) * mant + mant / 2
  | S754_finite s m e =>
      if Zpos m <? mant then sign_of s + Zpos m
      else sign_of s + (e - e_min + 1) * mant + (Zpos m - mant)
  end.

(** ** Operators *)

Definition f_add (a b : Z) : Z := encode (SFadd (prec T) (emax T) (decode a) (decode b)).
Definition f_sub (a b : Z) : Z := encode (SFsub (prec T) (emax T) (decode a) (decode b)).
Definition f_mul (a b : Z) : Z := encode (SFmul (prec T) (emax T) (decode a) (decode b)).
Definition f_div (a b : Z) : Z := encode (SFdiv (prec T) (emax T) (decode a) (decode b)).
Definition f_neg (a : Z) : Z := Z.lxor a sign_bit.
Definition f_lt (a b : Z) : bool := SFltb (decode a) (decode b).
Definition f_gt (a b : Z) : bool := SFltb (decode b) (decode a).
Definition f_eq (a b : Z) : bool := SFeqb (decode a) (decode b).

(** [fmod], [fmodf]: the exact remainder of the truncated quotient, with the sign of [x]. *)
Definition SFmod (x y : spec_float) : spec_float :=
  match x, y with
  | S754_nan, _ | _, S754_nan | S754_infinity _, _ | _, S754_zero _ => S754_nan
  | S754_zero s, _ => S754_zero s
  | S754_finite _ _ _, S754_infinity _ => x
  | S754_finite s m1 e1, S754_finite _ m2 e2 =>
      let e := Z.min e1 e2 in
      let r := (Zpos m1 * 2 ^ (e1 - e)) mod (Zpos m2 * 2 ^ (e2 - e)) in
      binary_normalize (prec T) (emax T) (if s then - r else r) e s
  end.
Definition f_mod (a b : Z) : Z := encode (SFmod (decode a) (decode b)).

(** Conversion of an integer. *)
Definition of_int (n : Z) : Z := encode (binary_normalize (prec T) (emax T) n 0 false).

(** Conversion from the other format. *)
Definition of_float (f : spec_float) : Z :=
  encode
    match f with
    | S754_finite s m e => binary_normalize (prec T) (emax T) (cond_Zopp s (Zpos m)) e s
    | _ => f
    end.

(** [static_cast<INT_TYPE>(f)] of a value in range: truncation. *)
Definition truncate (f : spec_float) : Z :=
  match f with
  | S754_finite s m e =>
      cond_Zopp s (if 0 <=? e then Zpos m * 2 ^ e else Zpos m / 2 ^ (- e))
  | _ => 0
  end.

(** [art_float_to_integral<INT_TYPE, FLOAT_TYPE>], [w] the width of the integer type. *)
Definition art_float_to_integral (w : Z) (f : Z) : Z :=
  let kMaxInt := 2 ^ (w - 1) - 1 in
  let kMinInt := - 2 ^ (w - 1) in
  let kMaxIntAsFloat := of_int kMaxInt in
  let kMinIntAsFloat := of_int kMinInt in
  if f_gt f kMinIntAsFloat then
    if f_lt f kMaxIntAsFloat then truncate (decode f) else kMaxInt
  else if negb (f_eq f f) then 0 else kMinInt.

(** ** Values

    A finite number of the format is a whole multiple of [2 ^ e_min]: [scaled] is that
    multiple, and [canonical] says that the mantissa is normalised. *)

Definition scaled (f : spec_float) : Z :=
  match f with
  | S754_finite s m e => cond_Zopp s (Zpos m * 2 ^ (e - e_min))
  | _ => 0
  end.

Definition canonical (f : spec_float) : Prop :=
  match f with
  | S754_finite _ m e =>
      e_min <= e /\ Zpos m < 2 * mant /\ (e = e_min \/ mant <= Zpos m)
  | _ => True
  end.

Definition finite (f : spec_float) : Prop :=
  match f with S754_zero _ | S754_finite _ _ _ => True | _ => False end.

#[export] Instance finite_dec f : Decision (finite f).
Proof. destruct f; cbn; apply _. Defined.

(** The formats of the code. *)
Definition format_ok : Prop :=
  1 < prec T /\ 0 < emax T /\ 2 * sign_bit = 2 ^ width T /\ sign_bit = 2 * emax T * mant /\
  1 < 2 * emax T.
End Format.

(** The comparison codes of [cmpl-*], [cmpg-*] and [cmp-long]. *)
Definition cmpl (T : FloatType) (val1 val2 : Z) : Z :=
  if f_gt T val1 val2 then 1 else if f_eq T val1 val2 then 0 else -1.
Definition cmpg (T : FloatType) (val1 val2 : Z) : Z :=
  if f_lt T val1 val2 then -1 else if f_eq T val1 val2 then 0 else 1.

(** ** Decoding and encoding *)

Lemma kFloat_ok : format_ok kFloat.
Proof. vm_compute. intuition congruence. Qed.

Lemma kDouble_ok : format_ok kDouble.
Proof. vm_compute. intuition congruence. Qed.

Section Facts.
Variable T : FloatType.
Hypothesis HT : format_ok T.

Lemma mant_pos : 0 < mant T.
Proof. destruct HT as (? & _). unfold mant. lia. Qed.

Lemma decode_canonical b : canonical T (decode T b).
Proof.
  pose proof mant_pos as Hm. pose proof (Z.mod_pos_bound b _ Hm) as Hb.
  assert (He : 0 <= (b / mant T) mod (2 * emax T)) by (apply Z.mod_pos_bound; destruct HT; lia).
  unfold decode. set (e := (b / mant T) mod _) in *.
  destruct (Z.eqb_spec e 0).
  - destruct (b mod mant T) eqn:E; cbn; try done. split_all; [lia|lia|by left].
  - destruct (e =? _). { by destruct (_ =? 0). }
    destruct (b mod mant T + mant T) eqn:E; cbn; try done. split_all; [lia|lia|right; lia].
Qed.

Lemma sign_split b :
  is_u (width T) b -> b = sign_of T (sign_bit T <=? b) + b mod sign_bit T /\ 0 < sign_bit T.
Proof.
  pose proof mant_pos as Hm. destruct HT as (_ & He & H1 & H2 & _). unfold is_u. intros Hb.
  assert (0 < sign_bit T) by nia. split; [|done].
  unfold sign_of. destruct (Z.leb_spec (sign_bit T) b).
  - replace (b mod sign_bit T) with (b - sign_bit T); [lia|].
    symmetry. replace b with ((b - sign_bit T) + 1 * sign_bit T) at 1 by lia.
    rewrite Z.mod_add by lia. apply Z.mod_small. lia.
  - rewrite Z.mod_small; lia.
Qed.

Lemma field_split b :
  is_u (width T) b ->
  b = sign_of T (sign_bit T <=? b) + (b / mant T) mod (2 * emax T) * mant T + b mod mant T.
Proof.
  intros Hb. pose proof mant_pos as Hm. destruct (sign_split b Hb) as [E Hs].
  destruct HT as (_ & He & H1 & H2 & _).
  assert (b mod sign_bit T = (b / mant T) mod (2 * emax T) * mant T + b mod mant T); [|lia].
  rewrite H2, (Z.mul_comm (2 * emax T)), Z.rem_mul_r by lia. lia.
Qed.

(** Every bit pattern but a NaN survives decoding. *)
Lemma encode_decode b : is_u (width T) b -> decode T b <> S754_nan -> encode T (decode T b) = b.
Proof.
  intros Hb Hn. pose proof mant_pos as Hm. pose proof (field_split b Hb) as E.
  pose proof (Z.mod_pos_bound b _ Hm) as Hbm.
  revert Hn. unfold decode in *.
  set (e := (b / mant T) mod (2 * emax T)) in *. set (s := sign_bit T <=? b) in *.
  destruct (Z.eqb_spec e 0) as [He|He].
  - destruct (b mod mant T) as [|p|p] eqn:Ep; cbn; intros _; [lia| |lia].
    destruct (Z.ltb_spec (Zpos p) (mant T)); lia.
  - destruct (Z.eqb_spec e (2 * emax T - 1)) as [He'|He'].
    { destruct (Z.eqb_spec (b mod mant T) 0) as [Em|]; cbn; [rewrite <- He'; lia|done]. }
    destruct (b mod mant T + mant T) as [|p|p] eqn:Ep; cbn; try done; try lia. intros _.
    destruct (Z.ltb_spec (Zpos p) (mant T)); [lia|].
    change (Z.pos p) with (Zpos p); replace (Zpos p - mant T) with (b mod mant T) by lia.
    replace (e - 1 + e_min T - e_min T + 1) with e by lia. lia.
Qed.

(** ** Comparison is comparison of values *)

Lemma canonical_order s1 m1 e1 s2 m2 e2 :
  canonical T (S754_finite s1 m1 e1) -> canonical T (S754_finite s2 m2 e2) -> e1 < e2 ->
  Zpos m1 * 2 ^ (e1 - e_min T) < Zpos m2 * 2 ^ (e2 - e_min T).
Proof.
  intros (A1 & A2 & _) (B1 & B2 & B3) Hlt. pose proof mant_pos.
  assert (Hm2 : mant T <= Zpos m2) by lia.
  replace (e2 - e_min T) with ((e1 - e_min T) + (e2 - e1)) by lia.
  rewrite Z.pow_add_r by lia.
  assert (2 * 1 <= 2 ^ (e2 - e1)).
  { replace (e2 - e1) with (1 + (e2 - e1 - 1)) by lia. rewrite Z.pow_add_r by lia.
    assert (0 < 2 ^ (e2 - e1 - 1)) by (apply Z.pow_pos_nonneg; lia). lia. }
  assert (0 < 2 ^ (e1 - e_min T)) by (apply Z.pow_pos_nonneg; lia).
  generalize dependent (2 ^ (e2 - e1)). generalize dependent (2 ^ (e1 - e_min T)).
  intros w Hw k Hk. apply Z.lt_le_trans with (2 * Zpos m2 * w); [nia|].
  assert (2 * w <= k * w) by nia. nia.
Qed.

Lemma scaled_compare s1 m1 e1 s2 m2 e2 :
  canonical T (S754_finite s1 m1 e1) -> canonical T (S754_finite s2 m2 e2) ->
  (Zpos m1 * 2 ^ (e1 - e_min T) ?= Zpos m2 * 2 ^ (e2 - e_min T)) =
  match e1 ?= e2 with Eq => (Zpos m1 ?= Zpos m2) | c => c end.
Proof.
  intros C1 C2. destruct (Z.compare_spec e1 e2) as [->|Hlt|Hgt].
  - assert (0 < 2 ^ (e2 - e_min T)) by (destruct C2; apply Z.pow_pos_nonneg; lia).
    rewrite <- Zmult_compare_compat_r by lia. done.
  - apply Z.compare_lt_iff. by eapply canonical_order.
  - apply Z.compare_gt_iff. by eapply canonical_order.
Qed.

Lemma scaled_pos s m e : canonical T (S754_finite s m e) -> 0 < Zpos m * 2 ^ (e - e_min T).
Proof. intros (? & _). apply Z.mul_pos_pos; [lia|]. apply Z.pow_pos_nonneg; lia. Qed.

Lemma compare_scaled f g :
  canonical T f -> canonical T g -> finite f -> finite g ->
  SFcompare f g = Some (scaled T f ?= scaled T g).
Proof.
  intros Cf Cg Ff Fg.
  destruct f as [sf|sf| |sf mf ef]; try done; destruct g as [sg|sg| |sg mg eg]; try done; cbn [SFcompare scaled].
  - destruct sg; unfold cond_Zopp; pose proof (scaled_pos _ _ _ Cg); symmetry; f_equal;
      [apply Z.compare_gt_iff|apply Z.compare_lt_iff]; lia.
  - destruct sf; unfold cond_Zopp; pose proof (scaled_pos _ _ _ Cf); symmetry; f_equal;
      [apply Z.compare_lt_iff|apply Z.compare_gt_iff]; lia.
  - pose proof (scaled_pos _ _ _ Cf) as Pf. pose proof (scaled_pos _ _ _ Cg) as Pg.
    pose proof (scaled_compare _ _ _ _ _ _ Cf Cg) as E.
    destruct sf, sg; unfold cond_Zopp; f_equal; symmetry.
    + rewrite Z.compare_opp, Z.compare_antisym, E.
      change (Pos.compare_cont Eq mf mg) with (Pos.compare mf mg). cbn.
      by destruct (ef ?= eg).
    + apply Z.compare_lt_iff. lia.
    + apply Z.compare_gt_iff. lia.
    + rewrite E. by destruct (ef ?= eg).
Qed.
End Facts.

(** ** [art_float_to_integral] *)

(** The weight of 1 among the multiples of [2 ^ e_min]. *)
Definition one (T : FloatType) : Z := 2 ^ (- e_min T).

Lemma truncate_scaled T f :
  canonical T f -> e_min T <= 0 -> truncate f = Z.quot (scaled T f) (one T).
Proof.
  intros Hc He. unfold truncate, scaled, one. destruct f as [s| | |s m e]; try done.
  destruct Hc as (H1 & _). unfold cond_Zopp.
  assert (Hq : Z.quot (Zpos m * 2 ^ (e - e_min T)) (2 ^ (- e_min T)) =
    if 0 <=? e then Zpos m * 2 ^ e else Zpos m / 2 ^ (- e)).
  { assert (0 < 2 ^ (e - e_min T)) by (apply Z.pow_pos_nonneg; lia).
    assert (0 < 2 ^ (- e_min T)) by (apply Z.pow_pos_nonneg; lia).
    rewrite Z.quot_div_nonneg by nia. destruct (Z.leb_spec 0 e).
    - replace (e - e_min T) with (e + - e_min T) by lia.
      rewrite Z.pow_add_r, Z.mul_assoc by lia. apply Z.div_mul. lia.
    - replace (- e_min T) with ((e - e_min T) + - e) by lia. rewrite Z.pow_add_r by lia.
      assert (0 < 2 ^ (- e)) by (apply Z.pow_pos_nonneg; lia).
      rewrite (Z.mul_comm (Zpos m)). apply Z.div_mul_cancel_l; lia. }
  destruct s; [|done]. rewrite Z.quot_opp_l, Hq; [done|].
  assert (0 < 2 ^ (- e_min T)) by (apply Z.pow_pos_nonneg; lia). lia.
Qed.

(** The conversion the code means: NaN is 0, everything else is clamped after truncation. *)
Definition clamp (w x : Z) : Z := Z.max (- 2 ^ (w - 1)) (Z.min (2 ^ (w - 1) - 1) x).

Definition saturate (T : FloatType) (w : Z) (bits : Z) : Z :=
  match decode T bits with
  | S754_nan => 0
  | S754_infinity s => if s then - 2 ^ (w - 1) else 2 ^ (w - 1) - 1
  | f => clamp w (truncate f)
  end.

Definition code_format (T : FloatType) : Prop := T = kFloat \/ T = kDouble.
Definition code_width (w : Z) : Prop := w = 32 \/ w = 64.

Lemma code_format_ok T : code_format T -> format_ok T /\ e_min T <= 0.
Proof.
  intros [->| ->]; (split; [|by vm_compute]); [apply kFloat_ok|apply kDouble_ok].
Qed.

Lemma int_limits T w :
  code_format T -> code_width w ->
  finite (decode T (of_int T (2 ^ (w - 1) - 1))) /\
  finite (decode T (of_int T (- 2 ^ (w - 1)))) /\
  scaled T (decode T (of_int T (- 2 ^ (w - 1)))) = - 2 ^ (w - 1) * one T /\
  exists k, 2 ^ (w - 1) - 1 <= k <= 2 ^ (w - 1) /\
    scaled T (decode T (of_int T (2 ^ (w - 1) - 1))) = k * one T.
Proof.
  intros HT Hw. split_all.
  1-3: destruct HT as [->| ->], Hw as [->| ->]; vm_compute; reflexivity || exact I.
  exists (match prec T, w with 53, 32 => 2 ^ 31 - 1 | _, _ => 2 ^ (w - 1) end).
  destruct HT as [->| ->], Hw as [->| ->]; (split; [vm_compute; split; discriminate|]);
    vm_compute; reflexivity.
Qed.

Lemma clamp_quot p d k x :
  0 < p -> 0 < d -> p - 1 <= k <= p ->
  (if - p * d <? x then if x <? k * d then Z.quot x d else p - 1 else - p)
  = Z.max (- p) (Z.min (p - 1) (Z.quot x d)).
Proof.
  intros Hp Hd Hk. destruct (Z.le_gt_cases 0 x) as [Hx|Hx].
  - rewrite Z.quot_div_nonneg by lia. assert (0 <= x / d) by (apply Z.div_pos; lia).
    destruct (Z.ltb_spec (- p * d) x); [|nia]. destruct (Z.ltb_spec x (k * d)).
    + assert (x / d < k) by (apply Z.div_lt_upper_bound; lia). lia.
    + assert (k <= x / d) by (apply Z.div_le_lower_bound; lia). lia.
  - replace x with (- (- x)) at 3 4 by lia. rewrite Z.quot_opp_l, Z.quot_div_nonneg by lia.
    assert (0 <= - x / d) by (apply Z.div_pos; lia).
    destruct (Z.ltb_spec (- p * d) x).
    + assert (- x / d < p) by (apply Z.div_lt_upper_bound; lia).
      destruct (Z.ltb_spec x (k * d)); [lia|nia].
    + assert (p <= - x / d) by (apply Z.div_le_lower_bound; lia). lia.
Qed.

Lemma ltb_scaled T f g :
  format_ok T -> canonical T f -> canonical T g -> finite f -> finite g ->
  SFltb f g = (scaled T f <? scaled T g).
Proof.
  intros. unfold SFltb. rewrite (compare_scaled T) by done.
  unfold Z.ltb. by destruct (_ ?= _).
Qed.

Lemma eqb_refl_finite T f : format_ok T -> canonical T f -> finite f -> SFeqb f f = true.
Proof. intros. unfold SFeqb. rewrite (compare_scaled T) by done. by rewrite Z.compare_refl. Qed.

(** [art_float_to_integral], for [float] and [double] to [int32_t] and [int64_t], is the
    conversion of the language: NaN gives 0, an infinity or a value out of range gives the
    nearest bound of the integer type, every other value is truncated toward zero.  (The code
    compares with the bounds converted to the floating type; for three of the four pairs the
    upper one rounds up to a power of two.) *)
Theorem float_to_integral (T : FloatType) (w bits : Z)
  (HT : code_format T) (Hw : code_width w) :
  art_float_to_integral T w bits = saturate T w bits.
Proof.
  destruct (code_format_ok T HT) as [Hok He].
  destruct (int_limits T w HT Hw) as (F1 & F2 & S2 & k & Hk & S1).
  pose proof (decode_canonical T Hok bits) as C.
  assert (H1 : 0 < one T) by (apply Z.pow_pos_nonneg; lia).
  assert (Hp : 0 < 2 ^ (w - 1)) by (apply Z.pow_pos_nonneg; destruct Hw; lia).
  unfold art_float_to_integral, saturate, f_gt, f_lt, f_eq.
  set (kmax := of_int T (2 ^ (w - 1) - 1)) in *. set (kmin := of_int T (- 2 ^ (w - 1))) in *.
  pose proof (decode_canonical T Hok kmax) as C1. pose proof (decode_canonical T Hok kmin) as C2.
  destruct (decide (finite (decode T bits))) as [F|F].
  - assert (R : (if SFltb (decode T kmin) (decode T bits)
      then if SFltb (decode T bits) (decode T kmax) then truncate (decode T bits)
           else 2 ^ (w - 1) - 1
      else if negb (SFeqb (decode T bits) (decode T bits)) then 0 else - 2 ^ (w - 1))
      = clamp w (truncate (decode T bits))).
    { rewrite !(ltb_scaled T), (eqb_refl_finite T), (truncate_scaled T), S1, S2 by done.
      cbn [negb]. apply clamp_quot; lia. }
    destruct (decode T bits); try done.
  - destruct (decode T bits) as [| | |]; try done; destruct (decode T kmin), (decode T kmax);
      try done; by destruct s.
Qed.

Lemma float_to_integral_witness :
  art_float_to_integral kDouble 32 0xC000000000000000 = saturate kDouble 32 0xC000000000000000 /\
  saturate kDouble 32 0xC000000000000000 = -2.
Proof.
  split; [apply (float_to_integral kDouble 32 0xC000000000000000); [by right|by left]|].
  vm_compute. reflexivity.
Defined.

(** ** [cmpl-*] and [cmpg-*] *)

(** -1, 0 or 1. *)
Definition compare_code (c : comparison) : Z := match c with Lt => -1 | Eq => 0 | Gt => 1 end.

Definition is_nan (T : FloatType) (bits : Z) : bool :=
  match decode T bits with S754_nan => true | _ => false end.

Lemma SFcompare_swap f g :
  SFcompare g f = CompOpp <$> SFcompare f g.
Proof.
  destruct f as [sf|sf| |sf mf ef], g as [sg|sg| |sg mg eg]; cbn; try done;
    try (by destruct sf, sg); try (by destruct sf); try (by destruct sg).
  change (Pos.compare_cont Eq mf mg) with (Pos.compare mf mg).
  change (Pos.compare_cont Eq mg mf) with (Pos.compare mg mf).
  rewrite (Z.compare_antisym ef eg), (Pos.compare_antisym mf mg).
  by destruct sf, sg, (ef ?= eg), (Pos.compare mf mg).
Qed.

Lemma SFcompare_nan f g :
  SFcompare f g = None <-> f = S754_nan \/ g = S754_nan.
Proof.
  destruct f as [sf|sf| |sf mf ef], g as [sg|sg| |sg mg eg]; cbn; split; intros H;
    try done; try (by destruct sf, sg); try (by destruct sf); try (by destruct sg);
    try (by left); try (by right); destruct H as [H|H]; done.
Qed.

(** The floating comparisons order the operands by value and differ only on NaN, where
    [cmpl] gives -1 and [cmpg] gives 1: for finite operands both give -1, 0 or 1 as the first
    value is less than, equal to (both zeros are equal) or greater than the second. *)
Theorem float_compare (T : FloatType) (a b : Z) (HT : code_format T) :
  (is_nan T a || is_nan T b = true -> cmpl T a b = -1 /\ cmpg T a b = 1) /\
  (is_nan T a || is_nan T b = false -> cmpl T a b = cmpg T a b) /\
  (finite (decode T a) -> finite (decode T b) ->
   cmpl T a b = compare_code (scaled T (decode T a) ?= scaled T (decode T b))).
Proof.
  destruct (code_format_ok T HT) as [Hok _].
  assert (E : forall c, SFcompare (decode T a) (decode T b) = c ->
    cmpl T a b = match c with Some c => compare_code c | None => -1 end /\
    cmpg T a b = match c with Some c => compare_code c | None => 1 end).
  { intros c Hc. unfold cmpl, cmpg, f_gt, f_lt, f_eq, SFltb, SFeqb.
    rewrite (SFcompare_swap (decode T a) (decode T b)), Hc. by destruct c as [[]|]. }
  assert (N : is_nan T a || is_nan T b = true <-> SFcompare (decode T a) (decode T b) = None).
  { rewrite SFcompare_nan. unfold is_nan.
    destruct (decode T a), (decode T b); cbn; split; intros H; try done;
      try (by left); try (by right); by destruct H. }
  destruct (SFcompare (decode T a) (decode T b)) as [c|] eqn:Hc;
    destruct (E _ eq_refl) as [-> ->]; split_all.
  - intros H. by apply N in H.
  - done.
  - intros Fa Fb. rewrite (compare_scaled T) in Hc by (done || by apply decode_canonical).
    by simplify_eq.
  - done.
  - intros H. destruct (N) as [_ N2]. rewrite N2 in H; done.
  - intros Fa Fb. rewrite (compare_scaled T) in Hc by (done || by apply decode_canonical). done.
Qed.

Lemma float_compare_witness :
  cmpl kFloat 0x3f800000 0x40000000
  = compare_code (scaled kFloat (decode kFloat 0x3f800000) ?= scaled kFloat (decode kFloat 0x40000000))
  /\ cmpl kFloat 0x7fc00000 0 = -1.
Proof.
  split.
  - apply (float_compare kFloat 0x3f800000 0x40000000); [by left|exact I|exact I].
  - apply (float_compare kFloat 0x7fc00000 0); [by left|reflexivity].
Defined.
