(* ===== verification/Runtime.v ===== *)
(** What the interpreter asks of the rest of the runtime.

    [Thread] is the part of [Thread] the interpreter uses directly, its pending exception,
    with the heap and the class linker behind it as an abstract state [W].  [Runtime] is the
    interface to them: the operations the interpreter calls, on that state.  [RuntimeLaws]
    is what the interpreter relies on.  A reference is its 32-bit value, 0 for [nullptr];
    the renaming of references by a moving collector is not modelled.  The instrumentation
    listeners (debugger, tracing) are taken to be absent. *)
From S2P Require Import Prelude ClassData DexInstruction ShadowFrame.
Local Open Scope Z_scope.

Record Thread (W : Type) := mkThread { exception_ : Z; world_ : W }.
Arguments mkThread {W} _ _.
Arguments exception_ {W} _.
Arguments world_ {W} _.

Definition GetException {W} (self : Thread W) : Z := exception_ self.
Definition SetException {W} (e : Z) (self : Thread W) : Thread W := mkThread e (world_ self).
Definition ClearException {W} (self : Thread W) : Thread W := mkThread 0 (world_ self).
Definition IsExceptionPending {W} (self : Thread W) : bool := negb (exception_ self =? 0).
Definition set_world {W} (w : W) (self : Thread W) : Thread W := mkThread (exception_ self) w.

(** [Primitive::Type]. *)
Inductive PrimitiveType :=
  | kPrimNot | kPrimBoolean | kPrimByte | kPrimChar | kPrimShort | kPrimInt | kPrimLong
  | kPrimFloat | kPrimDouble | kPrimVoid.

#[export] Instance PrimitiveType_eq_dec : EqDecision PrimitiveType.
Proof. solve_decision. Defined.

(** [ComponentSize]: 4 is [kObjectReferenceSize]. *)
Definition ComponentSize (t : PrimitiveType) : Z :=
  match t with
  | kPrimVoid => 0
  | kPrimBoolean | kPrimByte => 1
  | kPrimChar | kPrimShort => 2
  | kPrimInt | kPrimFloat => 4
  | kPrimLong | kPrimDouble => 8
  | kPrimNot => 4
  end.

Inductive FindFieldType :=
  | InstanceObjectRead | InstanceObjectWrite | InstancePrimitiveRead | InstancePrimitiveWrite
  | StaticObjectRead | StaticObjectWrite | StaticPrimitiveRead | StaticPrimitiveWrite.

(** The exceptions the interpreter creates, by the function or the class it names. *)
Inductive Throwable :=
  | NullPointerException
  | ArithmeticExceptionDivideByZero
  | ArrayIndexOutOfBoundsException (index length : Z)
  | ArrayStoreException (object : Z)
  | ClassCastException (dest src : Z)
  | VirtualMachineError (object : Z)
  | AbstractMethodError (method : Z)
  | NegativeArraySizeException (length : Z)
  | RuntimeException (component_class : Z)
  | InternalError (component_class : Z)
  | StackOverflowError.

(** A value as the element type stores it: the C++ conversion to that type. *)
Definition as_prim (t : PrimitiveType) (v : Z) : Z :=
  match t with
  | kPrimBoolean => u8 v
  | kPrimByte => s8 v
  | kPrimChar => u16 v
  | kPrimShort => s16 v
  | kPrimInt => s32 v
  | kPrimLong => s64 v
  | kPrimNot | kPrimFloat => u32 v
  | kPrimDouble => u64 v
  | kPrimVoid => 0
  end.

(** What a method may change: the thread and the heap, the result register, and the memory
    that holds the code (a packer that decrypts its methods while they run overwrites them in
    place). *)
Record CallResult (W : Type) := mkCall {
  call_self : Thread W;
  call_result : JValue;
  call_mem : list Z;
}.
Arguments mkCall {W} _ _ _.
Arguments call_self {W} _.
Arguments call_result {W} _.
Arguments call_mem {W} _.

Class Runtime (W : Type) := {
  (** Creating an exception and making it the pending one. *)
  Throw : Throwable -> Thread W -> Thread W;
  AbortTransactionF : Thread W -> Thread W;
  (** The class linker, on behalf of a method; 0 is a failure with a pending exception. *)
  GetClassFromTypeIndex : Z -> Z -> Thread W -> Thread W * Z;
  ResolveString : Z -> Z -> Thread W -> Thread W * Z;
  ResolveVerifyAndClinit : bool -> Z -> Z -> Thread W -> Thread W * Z;
  FindFieldFromCode : FindFieldType -> bool -> Z -> Z -> Z -> Thread W -> Thread W * Z;
  GetReturnType : Z -> Thread W -> Thread W * Z;
  GetFieldType : Z -> Thread W -> Thread W * Z;
  (** Objects and classes. *)
  GetClass : W -> Z -> Z;
  GetComponentType : W -> Z -> Z;
  IsAssignableFrom : W -> Z -> Z -> bool;
  IsInterface : W -> Z -> bool;
  IsThrowableClass : W -> Z -> bool;
  IsStringClass : W -> Z -> bool;
  IsFinalizable : W -> Z -> bool;
  GetDeclaringClass : W -> Z -> Z;
  (** Field values, by field and by offset ([iget-quick]). *)
  GetField : PrimitiveType -> W -> Z -> Z -> Z;
  SetField : bool -> PrimitiveType -> Z -> Z -> Z -> W -> W;
  GetFieldAt : PrimitiveType -> W -> Z -> Z -> Z;
  SetFieldAt : bool -> PrimitiveType -> Z -> Z -> Z -> W -> W;
  (** Arrays. *)
  GetLength : W -> Z -> Z;
  GetElement : PrimitiveType -> W -> Z -> Z -> Z;
  SetElement : PrimitiveType -> Z -> Z -> Z -> W -> W;
  RecordWriteArray : Z -> Z -> Z -> W -> W;
  RecordWriteFieldReference : Z -> Z -> Z -> W -> W;
  (** Allocation and monitors. *)
  AllocEmptyString : Thread W -> Thread W * Z;
  AllocObjectFromCode : bool -> Z -> Z -> Thread W -> Thread W * Z;
  AllocArrayFromCode : bool -> Z -> Z -> Z -> Thread W -> Thread W * Z;
  DoMonitorEnter : Z -> Thread W -> Thread W;
  DoMonitorExit : Z -> Thread W -> Thread W;
  (** A filled array: its allocation, and [memcpy] to the address [GetRawData] gives for a
      component size. *)
  GetPrimitiveType : W -> Z -> PrimitiveType;
  AllocArray : Z -> Z -> Thread W -> Thread W * Z;
  SetRawData : Z -> Z -> list Z -> W -> W;
  (** Methods: resolution (type, access check, method index, receiver, referrer), the virtual
      table of a class, flags, code item, shorty, types of the parameters. *)
  FindMethodFromCode : InvokeType -> bool -> Z -> Z -> Z -> Thread W -> Thread W * Z;
  GetEmbeddedVTableEntry : W -> Z -> Z -> Z;
  GetAccessFlags : W -> Z -> Z;
  GetCodeItem : W -> Z -> option Z;
  GetShorty : W -> Z -> list Z;
  GetParameterTypeIdx : W -> Z -> Z -> Z;
  (** [String.<init>]: the factory method that replaces a constructor, and the registers that
      hold copies of the new string at a position of a method. *)
  StringInitToStringFactoryMethodID : W -> Z -> Z;
  FindStringInitMap : Z -> Z -> Thread W -> Thread W * list Z;
  (** Running a method: the address of the frame of the caller, the entry point of the method
      of a new frame, and the interpreter of the unstarted runtime (with its [arg_offset]). *)
  GetTopShadowFrame : W -> Z;
  IsStarted : W -> bool;
  EntryPointFromInterpreter : option Z -> ShadowFrame -> JValue -> list Z -> Thread W -> CallResult W;
  UnstartedRuntimeInvoke : option Z -> ShadowFrame -> Z -> JValue -> list Z -> Thread W -> CallResult W;
}.

Section Objects.
Context {W : Type} `{Runtime W}.

(** [mirror/object-inl.h]. *)
Definition InstanceOf (w : W) (obj klass : Z) : bool := IsAssignableFrom w klass (GetClass w obj).
Definition VerifierInstanceOf (w : W) (obj klass : Z) : bool :=
  IsInterface w klass || InstanceOf w obj klass.

(** [mirror/array-inl.h]: the negative indices are above the length as unsigned. *)
Definition CheckIsValidIndex (array index : Z) (self : Thread W) : Thread W * bool :=
  if u32 (GetLength (world_ self) array) <=? u32 index then
    (Throw (ArrayIndexOutOfBoundsException index (GetLength (world_ self) array)) self, false)
  else (self, true).

(** [mirror/object_array-inl.h]. *)
Definition CheckAssignable (array object : Z) (self : Thread W) : Thread W * bool :=
  if negb (object =? 0) then
    let element_class := GetComponentType (world_ self) (GetClass (world_ self) array) in
    if negb (InstanceOf (world_ self) object element_class)
    then (Throw (ArrayStoreException object) self, false) else (self, true)
  else (self, true).

Definition GetWithoutChecks (t : PrimitiveType) (w : W) (array i : Z) : Z := GetElement t w array i.

Definition SetWithoutChecks (transaction_active : bool) (t : PrimitiveType) (array i value : Z)
  (self : Thread W) : Thread W :=
  let w := world_ self in
  let w := if transaction_active
           then RecordWriteArray array i (GetWithoutChecks t w array i) w else w in
  set_world (SetElement t array i (as_prim t value) w) self.

(** [ObjectArray::SetWithoutChecks]: [SetFieldObject] at the offset of the element; 12 is the
    offset of the first element, 4 the size of a reference. *)
Definition SetObjectWithoutChecks (transaction_active : bool) (array i object : Z)
  (self : Thread W) : Thread W :=
  let w := world_ self in
  let w := if transaction_active
           then RecordWriteFieldReference array (12 + 4 * i) (GetWithoutChecks kPrimNot w array i) w
           else w in
  set_world (SetElement kPrimNot array i (as_prim kPrimNot object) w) self.
End Objects.

(** What the interpreter relies on: a thrown exception is pending, and an array holds what was
    stored in it. *)
Class RuntimeLaws (W : Type) `{Runtime W} := {
  Throw_pending : forall k self, exception_ (Throw k self) <> 0;
  AbortTransactionF_pending : forall self, exception_ (AbortTransactionF self) <> 0;
  GetLength_SetElement : forall t a i v w b, GetLength (SetElement t a i v w) b = GetLength w b;
  GetElement_SetElement : forall t a i v w,
    0 <= i < GetLength w a -> as_prim t v = v -> GetElement t (SetElement t a i v w) a i = v;
  GetElement_SetElement_ne : forall t a i v w b j,
    0 <= i -> 0 <= j -> (b, j) <> (a, i) -> GetElement t (SetElement t a i v w) b j = GetElement t w b j;
}.

(** [CHECK(self->IsExceptionPending())]. *)
Definition CheckPending {W A : Type} (self : Thread W) (x : A) : option A :=
  if IsExceptionPending self then Some x else None.

(** ** A small concrete runtime

    Arrays in a finite map, a class per type index, exceptions that are their own class.  It
    shows that the interface and its laws can be implemented, and runs the examples. *)
Module Small.

Abbreviation World := (gmap Z (list Z)).

Definition new_reference (w : World) : Z := 1000 + Z.of_nat (size w).

Definition throw (k : Throwable) (self : Thread World) : Thread World :=
  mkThread
    match k with
    | NullPointerException => 101
    | ArithmeticExceptionDivideByZero => 102
    | ArrayIndexOutOfBoundsException _ _ => 103
    | ArrayStoreException _ => 104
    | ClassCastException _ _ => 105
    | VirtualMachineError _ => 106
    | AbstractMethodError _ => 108
    | NegativeArraySizeException _ => 109
    | RuntimeException _ => 110
    | InternalError _ => 111
    | StackOverflowError => 112
    end (world_ self).

Definition element (w : World) (a i : Z) : Z := default 0 (default [] (w !! a) !! Z.to_nat i).

Definition set_element (t : PrimitiveType) (a i v : Z) (w : World) : World :=
  if 0 <=? i then <[a := <[Z.to_nat i := v]> (default [] (w !! a))]> w else w.

#[export] Instance runtime : Runtime World := {|
  Throw := throw;
  AbortTransactionF := fun self => mkThread 107 (world_ self);
  GetClassFromTypeIndex := fun _ t self => (self, if t =? 99 then 0 else t);
  ResolveString := fun _ i self => (self, 200 + i);
  ResolveVerifyAndClinit := fun _ t _ self => (self, t);
  FindFieldFromCode := fun _ _ _ _ _ self => (throw NullPointerException self, 0);
  GetReturnType := fun _ self => (self, 1);
  GetFieldType := fun _ self => (self, 1);
  GetClass := fun _ o => o;
  GetComponentType := fun _ c => c;
  IsAssignableFrom := fun _ c d => (c =? d) || (c =? 1);
  IsInterface := fun _ _ => false;
  IsThrowableClass := fun _ c => 100 <=? c;
  IsStringClass := fun _ _ => false;
  IsFinalizable := fun _ _ => false;
  GetDeclaringClass := fun _ _ => 1;
  GetField := fun _ _ _ _ => 0;
  SetField := fun _ _ _ _ _ w => w;
  GetFieldAt := fun _ _ _ _ => 0;
  SetFieldAt := fun _ _ _ _ _ w => w;
  GetLength := fun w a => Z.of_nat (length (default [] (w !! a)));
  GetElement := fun _ => element;
  SetElement := set_element;
  RecordWriteArray := fun _ _ _ w => w;
  RecordWriteFieldReference := fun _ _ _ w => w;
  AllocEmptyString := fun self => (self, 300);
  AllocObjectFromCode := fun _ _ _ self => (self, 301);
  AllocArrayFromCode := fun _ _ n _ self =>
    let a := new_reference (world_ self) in
    (set_world (<[a := replicate (Z.to_nat n) 0]> (world_ self)) self, a);
  DoMonitorEnter := fun _ self => self;
  DoMonitorExit := fun _ self => self;
  GetPrimitiveType := fun _ c => if c =? 2 then kPrimInt else kPrimNot;
  AllocArray := fun _ n self =>
    let a := new_reference (world_ self) in
    (set_world (<[a := replicate (Z.to_nat n) 0]> (world_ self)) self, a);
  SetRawData := fun _ _ _ w => w;
  FindMethodFromCode := fun _ _ method_idx _ _ self => (self, method_idx);
  GetEmbeddedVTableEntry := fun _ _ vtable_idx => vtable_idx;
  GetAccessFlags := fun _ _ => Z.lor kAccStatic 0x00080000;
  GetCodeItem := fun _ _ => None;
  GetShorty := fun _ _ => [];
  GetParameterTypeIdx := fun _ _ _ => 1;
  StringInitToStringFactoryMethodID := fun _ m => m;
  FindStringInitMap := fun _ _ self => (self, []);
  GetTopShadowFrame := fun _ => 1;
  IsStarted := fun _ => true;
  EntryPointFromInterpreter := fun _ f _ mem self => mkCall self (foldr Z.add 7 (vregs_ f)) mem;
  UnstartedRuntimeInvoke := fun _ _ _ j mem self => mkCall self j mem;
|}.

#[export] Instance laws : RuntimeLaws World.
Proof.
  split; cbn [Throw AbortTransactionF GetLength GetElement SetElement runtime].
  - by intros [].
  - done.
  - intros t a i v w b. unfold set_element. case_Zcmp; [|done].
    destruct (decide (a = b)) as [->|].
    + rewrite lookup_insert_eq. cbn. by rewrite length_insert.
    + by rewrite lookup_insert_ne.
  - intros t a i v w Hi _. unfold element, set_element. case_Zcmp; [|lia].
    rewrite lookup_insert_eq. cbn. rewrite list_lookup_insert_eq; [done|lia].
  - intros t a i v w b j Hi Hj Hne. unfold element, set_element. case_Zcmp; [|done].
    destruct (decide (a = b)) as [->|]; [|by rewrite lookup_insert_ne].
    rewrite lookup_insert_eq. cbn.
    rewrite list_lookup_insert_ne; [done|]. intros E. apply Hne. f_equal. lia.
Defined.
End Small.
#[export] Existing Instance Small.runtime.
#[export] Existing Instance Small.laws.
