(* ===== verification/Transaction.v ===== *)
(** Transactions of the ahead-of-time compiler and the intern table ([transaction.{h,cc}],
    [intern_table.{h,cc}], [mirror/object-inl.h], [mirror/array-inl.h], [runtime.cc]).

    While a transaction is active every write to the heap and the intern table is preceded by a
    record of what it overwrites; [Rollback] writes the records back.  A field is a cell named by
    object and offset, an element one named by array and index; a value is that of the C++ type
    of the cell, a [float] or [double] its bit pattern, a reference its address.  Locks are not
    modelled: the operations run one at a time.  [None] is a failed [CHECK], [LOG(FATAL)] or
    undefined behaviour. *)
From S2P Require Import Prelude OrderedMap Floats ShadowFrame Runtime.
Local Open Scope Z_scope.

(** ** Data *)

Inductive FieldValueKind := kBoolean | kByte | kChar | kShort | k32Bits | k64Bits | kReference.

#[export] Instance FieldValueKind_eq_dec : EqDecision FieldValueKind.
Proof. solve_decision. Defined.

Record FieldValue := { value : Z; kind : FieldValueKind; is_volatile : bool }.

(** [field_values_] and [array_values_]. *)
Definition ObjectLog : Type := list (Z * FieldValue).
Definition ArrayLog : Type := list (Z * Z).

Inductive StringKind := kStrongString | kWeakString.
Inductive StringOp := kInsert | kRemove.
Record InternStringLog := { str_ : Z; string_kind_ : StringKind; string_op_ : StringOp }.

Record Transaction := mkTransaction {
  object_logs_ : list (Z * ObjectLog);
  array_logs_ : list (Z * ArrayLog);
  intern_string_logs_ : list InternStringLog;
  aborted_ : bool;
  abort_message_ : string;
}.

Definition new_transaction : Transaction := mkTransaction [] [] [] false "".

Definition set_object_logs (l : list (Z * ObjectLog)) (t : Transaction) : Transaction :=
  mkTransaction l (array_logs_ t) (intern_string_logs_ t) (aborted_ t) (abort_message_ t).
Definition set_array_logs (l : list (Z * ArrayLog)) (t : Transaction) : Transaction :=
  mkTransaction (object_logs_ t) l (intern_string_logs_ t) (aborted_ t) (abort_message_ t).
Definition set_intern_string_logs (l : list InternStringLog) (t : Transaction) : Transaction :=
  mkTransaction (object_logs_ t) (array_logs_ t) l (aborted_ t) (abort_message_ t).

(** [Abort]: the message of the first abort stays. *)
Definition Abort (abort_message : string) (t : Transaction) : Transaction :=
  if negb (aborted_ t) then
    mkTransaction (object_logs_ t) (array_logs_ t) (intern_string_logs_ t) true abort_message
  else t.
Definition IsAborted (t : Transaction) : bool := aborted_ t.
Definition GetAbortMessage (t : Transaction) : string := abort_message_ t.

(** ** Recording *)

(** [ObjectLog::LogValue]: only the first value of a field is kept. *)
Definition ObjectLogValue (k : FieldValueKind) (offset value : Z) (is_volatile : bool)
  (log : ObjectLog) : ObjectLog :=
  match om_find offset log with
  | Some _ => log
  | None => om_insert offset {| value := value; kind := k; is_volatile := is_volatile |} log
  end.

(** [ArrayLog::LogValue]. *)
Definition ArrayLogValue (index value : Z) (log : ArrayLog) : ArrayLog :=
  match om_find index log with Some _ => log | None => om_insert index value log end.

(** [LogBooleanValue] to [LogReferenceValue]: the conversion of the value to [uint64_t]. *)
Definition to_log (k : FieldValueKind) (v : Z) : Z :=
  match k with
  | kBoolean => u64 (u8 v)
  | kByte => u64 (s8 v)
  | kChar => u64 (u16 v)
  | kShort => u64 (s16 v)
  | k32Bits => u64 (u32 v)
  | k64Bits | kReference => u64 v
  end.

(** [RecordWriteFieldBoolean] to [RecordWriteFieldReference]. *)
Definition RecordWriteField (k : FieldValueKind) (obj field_offset v : Z) (is_volatile : bool)
  (t : Transaction) : Transaction :=
  let object_log := default [] (om_find obj (object_logs_ t)) in
  set_object_logs
    (om_set obj (ObjectLogValue k field_offset (to_log k v) is_volatile object_log)
       (object_logs_ t)) t.

Definition TransactionRecordWriteArray (array index v : Z) (t : Transaction) : Transaction :=
  let array_log := default [] (om_find array (array_logs_ t)) in
  set_array_logs (om_set array (ArrayLogValue index v array_log) (array_logs_ t)) t.

(** [push_front]. *)
Definition LogInternedString (log : InternStringLog) (t : Transaction) : Transaction :=
  set_intern_string_logs (log :: intern_string_logs_ t) t.

Definition RecordStrongStringInsertion (s : Z) : Transaction -> Transaction :=
  LogInternedString {| str_ := s; string_kind_ := kStrongString; string_op_ := kInsert |}.
Definition RecordWeakStringInsertion (s : Z) : Transaction -> Transaction :=
  LogInternedString {| str_ := s; string_kind_ := kWeakString; string_op_ := kInsert |}.
Definition RecordStrongStringRemoval (s : Z) : Transaction -> Transaction :=
  LogInternedString {| str_ := s; string_kind_ := kStrongString; string_op_ := kRemove |}.
Definition RecordWeakStringRemoval (s : Z) : Transaction -> Transaction :=
  LogInternedString {| str_ := s; string_kind_ := kWeakString; string_op_ := kRemove |}.

(** ** The heap *)

Record Heap := mkHeap { fields : gmap (Z * Z) Z; elements : gmap (Z * Z) Z }.

Definition get_field (h : Heap) (obj offset : Z) : Z := default 0 (fields h !! (obj, offset)).
Definition get_element (h : Heap) (array index : Z) : Z :=
  default 0 (elements h !! (array, index)).
Definition put_field (obj offset v : Z) (h : Heap) : Heap :=
  mkHeap (<[(obj, offset) := v]> (fields h)) (elements h).
Definition put_element (array index v : Z) (h : Heap) : Heap :=
  mkHeap (fields h) (<[(array, index) := v]> (elements h)).

(** The type of the cell: [uint8_t], [int8_t], [uint16_t], [int16_t], [int32_t], [int64_t], or a
    compressed reference. *)
Definition as_kind (k : FieldValueKind) (v : Z) : Z :=
  match k with
  | kBoolean => u8 v
  | kByte => s8 v
  | kChar => u16 v
  | kShort => s16 v
  | k32Bits => s32 v
  | k64Bits => s64 v
  | kReference => u32 v
  end.

(** [SetFieldBoolean] to [SetFieldObject], with the transaction of the runtime. *)
Definition SetFieldOf (k : FieldValueKind) (is_volatile : bool) (obj field_offset new_value : Z)
  (s : option Transaction * Heap) : option Transaction * Heap :=
  let '(transaction, h) := s in
  (RecordWriteField k obj field_offset (get_field h obj field_offset) is_volatile <$> transaction,
   put_field obj field_offset (as_kind k new_value) h).

(** The conversion of an element to the [uint64_t] parameter of [RecordWriteArray]: a [float] or
    [double] is truncated, and undefined outside the range. *)
Definition element_to_log (t : PrimitiveType) (v : Z) : option Z :=
  let truncated T :=
    let n := truncate (decode T v) in
    if bool_decide (finite (decode T v)) && (0 <=? n) && (n <? 2 ^ 64) then Some n else None in
  match t with
  | kPrimFloat => truncated kFloat
  | kPrimDouble => truncated kDouble
  | _ => Some (u64 (as_prim t v))
  end.

(** [PrimitiveArray<T>::SetWithoutChecks]. *)
Definition ArraySetWithoutChecks (t : PrimitiveType) (array i new_value : Z)
  (s : option Transaction * Heap) : option (option Transaction * Heap) :=
  let '(transaction, h) := s in
  transaction ←
    match transaction with
    | Some tr => v ← element_to_log t (get_element h array i);
                 Some (Some (TransactionRecordWriteArray array i v tr))
    | None => Some None
    end;
  Some (transaction, put_element array i (as_prim t new_value) h).

(** ** The intern table *)

(** [UnorderedSet]: a hash set of strings, compared by their characters. *)
Record Table := mkTable { pre_zygote_table_ : list Z; post_zygote_table_ : list Z }.
Record InternTable := mkInterns {
  strong_interns_ : Table;
  weak_interns_ : Table;
  log_new_roots_ : bool;
  new_strong_intern_roots_ : list Z;
}.

Section Interns.
(** The characters of a string, and the string of an image's dex caches (0 for none). *)
Variable characters : Z -> list Z.
Variable LookupStringFromImage : Z -> Z.

Definition set_find (s : Z) (l : list Z) : option Z :=
  snd <$> list_find (fun x => characters x = characters s) l.
Definition set_erase (x : Z) (l : list Z) : list Z := filter (fun y => y <> x) l.

(** [Table::Find]; 0 is [nullptr]. *)
Definition TableFind (t : Table) (s : Z) : Z :=
  match set_find s (pre_zygote_table_ t) with
  | Some x => x
  | None => match set_find s (post_zygote_table_ t) with Some x => x | None => 0 end
  end.

Definition TableInsert (s : Z) (t : Table) : Table :=
  mkTable (pre_zygote_table_ t) (s :: post_zygote_table_ t).

Definition TableRemove (s : Z) (t : Table) : option Table :=
  match set_find s (post_zygote_table_ t) with
  | Some x => Some (mkTable (pre_zygote_table_ t) (set_erase x (post_zygote_table_ t)))
  | None =>
      x ← set_find s (pre_zygote_table_ t);
      Some (mkTable (set_erase x (pre_zygote_table_ t)) (post_zygote_table_ t))
  end.

Definition set_strong (t : Table) (it : InternTable) : InternTable :=
  mkInterns t (weak_interns_ it) (log_new_roots_ it) (new_strong_intern_roots_ it).
Definition set_weak (t : Table) (it : InternTable) : InternTable :=
  mkInterns (strong_interns_ it) t (log_new_roots_ it) (new_strong_intern_roots_ it).

Definition LookupStrong (it : InternTable) (s : Z) : Z := TableFind (strong_interns_ it) s.
Definition LookupWeak (it : InternTable) (s : Z) : Z := TableFind (weak_interns_ it) s.

(** The state of the operations: the transaction of the runtime, if one is active, and the table. *)
Definition InternState : Type := option Transaction * InternTable.

Definition InsertStrong (s : Z) (st : InternState) : InternState :=
  let '(transaction, it) := st in
  let it := if log_new_roots_ it
            then mkInterns (strong_interns_ it) (weak_interns_ it) (log_new_roots_ it)
                   (new_strong_intern_roots_ it ++ [s]) else it in
  (RecordStrongStringInsertion s <$> transaction,
   set_strong (TableInsert s (strong_interns_ it)) it).

Definition InsertWeak (s : Z) (st : InternState) : InternState :=
  let '(transaction, it) := st in
  (RecordWeakStringInsertion s <$> transaction, set_weak (TableInsert s (weak_interns_ it)) it).

(** [RemoveStrong] records nothing. *)
Definition RemoveStrong (s : Z) (st : InternState) : option InternState :=
  let '(transaction, it) := st in
  t ← TableRemove s (strong_interns_ it); Some (transaction, set_strong t it).

Definition RemoveWeak (s : Z) (st : InternState) : option InternState :=
  let '(transaction, it) := st in
  t ← TableRemove s (weak_interns_ it);
  Some (RecordWeakStringRemoval s <$> transaction, set_weak t it).

(** [InternTable::Insert], when new interns are allowed. *)
Definition Insert (s : Z) (is_strong : bool) (st : InternState) : option (InternState * Z) :=
  if s =? 0 then Some (st, 0)
  else
    let strong := LookupStrong (snd st) s in
    if negb (strong =? 0) then Some (st, strong)
    else
      let weak := LookupWeak (snd st) s in
      if negb (weak =? 0) then
        if is_strong then st ← RemoveWeak weak st; Some (InsertStrong weak st, weak)
        else Some (st, weak)
      else
        let image := LookupStringFromImage s in
        let s := if negb (image =? 0) then image else s in
        Some (if is_strong then InsertStrong s st else InsertWeak s st, s).

Definition InternStrong (s : Z) : InternState -> option (InternState * Z) := Insert s true.
Definition InternWeak (s : Z) : InternState -> option (InternState * Z) := Insert s false.

(** The undo methods run outside transactions. *)
Definition InternStringLogUndo (l : InternStringLog) (it : InternTable) : option InternTable :=
  match string_op_ l, string_kind_ l with
  | kInsert, kStrongString => snd <$> RemoveStrong (str_ l) (None, it)
  | kInsert, kWeakString => snd <$> RemoveWeak (str_ l) (None, it)
  | kRemove, kStrongString => Some (snd (InsertStrong (str_ l) (None, it)))
  | kRemove, kWeakString => Some (snd (InsertWeak (str_ l) (None, it)))
  end.

(** The list has the most recent operation first. *)
Fixpoint UndoInternStrings (logs : list InternStringLog) (it : InternTable) : option InternTable :=
  match logs with
  | [] => Some it
  | l :: logs' => it ← InternStringLogUndo l it; UndoInternStrings logs' it
  end.
End Interns.

(** ** Rolling back *)

Section Rollback.
(** What the classes of the objects say. *)
Variable IsArrayInstance : Z -> bool.
Variable ComponentPrimitiveType : Z -> PrimitiveType.

(** [mirror::Class::ClassOffset()], [mirror::Array::LengthOffset()]. *)
Definition ClassOffset : Z := 0.
Definition LengthOffset : Z := 8.

(** [UndoFieldWrite]: the conversion from [uint64_t]. *)
Definition from_log (k : FieldValueKind) (v : Z) : Z :=
  match k with
  | kBoolean => if v =? 0 then 0 else 1
  | kByte => s8 v
  | kChar => u16 v
  | kShort => s16 v
  | k32Bits => u32 v
  | k64Bits | kReference => v
  end.

Definition UndoFieldWrite (obj field_offset : Z) (fv : FieldValue) (h : Heap) : Heap :=
  snd (SetFieldOf (kind fv) (is_volatile fv) obj field_offset (from_log (kind fv) (value fv))
         (None, h)).

Fixpoint ObjectLogUndo (obj : Z) (log : ObjectLog) (h : Heap) : Heap :=
  match log with
  | [] => h
  | (field_offset, fv) :: log' =>
      let h :=
        if field_offset =? ClassOffset then h
        else if IsArrayInstance obj && (field_offset =? LengthOffset) then h
        else UndoFieldWrite obj field_offset fv h in
      ObjectLogUndo obj log' h
  end.

Definition UndoArrayWrite (array : Z) (array_type : PrimitiveType) (index v : Z) (h : Heap)
  : option Heap :=
  let set x := snd <$> ArraySetWithoutChecks array_type array index x (None, h) in
  match array_type with
  | kPrimBoolean => set (u8 v)
  | kPrimByte => set (s8 v)
  | kPrimChar => set (u16 v)
  | kPrimShort => set (s16 v)
  | kPrimInt => set (s32 v)
  | kPrimFloat => set (of_int kFloat v)
  | kPrimLong => set (s64 v)
  | kPrimDouble => set (of_int kDouble v)
  | kPrimNot | kPrimVoid => None
  end.

Fixpoint ArrayLogUndo (array : Z) (type : PrimitiveType) (log : ArrayLog) (h : Heap)
  : option Heap :=
  match log with
  | [] => Some h
  | (index, v) :: log' => h ← UndoArrayWrite array type index v h; ArrayLogUndo array type log' h
  end.

Fixpoint UndoObjectModifications (logs : list (Z * ObjectLog)) (h : Heap) : Heap :=
  match logs with
  | [] => h
  | (obj, log) :: logs' => UndoObjectModifications logs' (ObjectLogUndo obj log h)
  end.

Fixpoint UndoArrayModifications (logs : list (Z * ArrayLog)) (h : Heap) : option Heap :=
  match logs with
  | [] => Some h
  | (array, log) :: logs' =>
      h ← ArrayLogUndo array (ComponentPrimitiveType array) log h; UndoArrayModifications logs' h
  end.

(** [CHECK(!IsActiveTransaction())]; the logs are cleared. *)
Definition Rollback (characters : Z -> list Z) (active : option Transaction) (t : Transaction)
  (h : Heap) (it : InternTable) : option (Transaction * Heap * InternTable) :=
  match active with
  | Some _ => None
  | None =>
      let h := UndoObjectModifications (object_logs_ t) h in
      h ← UndoArrayModifications (array_logs_ t) h;
      it ← UndoInternStrings characters (intern_string_logs_ t) it;
      Some (set_intern_string_logs [] (set_array_logs [] (set_object_logs [] t)), h, it)
  end.
End Rollback.

(** ** Roots *)

Section Roots.
(** [VisitRoot]: where a moving collector has put an object. *)
Variable visit : Z -> Z.

(** [ObjectLog::VisitRoots].  The loop variable is a copy of the entry, so what the visitor
    stores goes to the copy (second component) and the log stays as it was. *)
Definition ObjectLogVisitRoots (log : ObjectLog) : ObjectLog * list FieldValue :=
  (log,
   map (fun '(_, fv) =>
          if bool_decide (kind fv = kReference) && negb (value fv =? 0)
          then {| value := visit (value fv); kind := kind fv; is_volatile := is_volatile fv |}
          else fv) log).

(** The second loop of [VisitObjectLogs] and [VisitArrayLogs]. *)
Fixpoint MoveLogs {L : Type} (moving_roots : list (Z * Z)) (logs : list (Z * L))
  : option (list (Z * L)) :=
  match moving_roots with
  | [] => Some logs
  | (old_root, new_root) :: moving_roots' =>
      log ← om_find old_root logs;
      match om_find new_root logs with
      | Some _ => None
      | None => MoveLogs moving_roots' (om_erase old_root (om_insert new_root log logs))
      end
  end.

Definition moving_roots (roots : list Z) : list (Z * Z) :=
  omap (fun old_root =>
          let new_root := visit old_root in
          if new_root =? old_root then None else Some (old_root, new_root)) roots.

(** The first loop also copies its entries. *)
Definition VisitObjectLogs (logs : list (Z * ObjectLog)) : option (list (Z * ObjectLog)) :=
  MoveLogs (moving_roots (om_keys logs)) logs.

Definition VisitArrayLogs (logs : list (Z * ArrayLog)) : option (list (Z * ArrayLog)) :=
  MoveLogs (moving_roots (om_keys logs)) logs.

Definition VisitStringLogs (logs : list InternStringLog) : list InternStringLog :=
  map (fun l => {| str_ := visit (str_ l); string_kind_ := string_kind_ l;
                   string_op_ := string_op_ l |}) logs.

Definition TransactionVisitRoots (t : Transaction) : option Transaction :=
  object_logs ← VisitObjectLogs (object_logs_ t);
  array_logs ← VisitArrayLogs (array_logs_ t);
  Some (set_intern_string_logs (VisitStringLogs (intern_string_logs_ t))
          (set_array_logs array_logs (set_object_logs object_logs t))).
End Roots.

(** ** Writes inside a transaction *)

(** The state of a transaction that is active. *)
Record World := mkWorld { transaction : Transaction; heap : Heap; interns : InternTable }.

Inductive Write :=
  | WField (k : FieldValueKind) (is_volatile : bool) (obj field_offset new_value : Z)
  | WElement (t : PrimitiveType) (array i new_value : Z)
  | WIntern (s : Z) (is_strong : bool).

Section Writes.
Variable characters : Z -> list Z.
Variable LookupStringFromImage : Z -> Z.

Definition do_write (w : Write) (st : World) : option World :=
  let t := transaction st in
  match w with
  | WField k is_volatile obj field_offset new_value =>
      let '(t', h) := SetFieldOf k is_volatile obj field_offset new_value (Some t, heap st) in
      Some (mkWorld (default t t') h (interns st))
  | WElement type array i new_value =>
      '(t', h) ← ArraySetWithoutChecks type array i new_value (Some t, heap st);
      Some (mkWorld (default t t') h (interns st))
  | WIntern s is_strong =>
      '((t', it), _) ← Insert characters LookupStringFromImage s is_strong (Some t, interns st);
      Some (mkWorld (default t t') (heap st) it)
  end.

Fixpoint do_writes (ws : list Write) (st : World) : option World :=
  match ws with [] => Some st | w :: ws' => st ← do_write w st; do_writes ws' st end.
End Writes.

(** ** Values survive their record *)

(** A value of the type of a field. *)
Definition in_kind (k : FieldValueKind) (v : Z) : Prop :=
  match k with
  | kBoolean => v = 0 \/ v = 1
  | kByte => is_s 8 v
  | kChar => is_u 16 v
  | kShort => is_s 16 v
  | k32Bits => is_s 32 v
  | k64Bits => is_s 64 v
  | kReference => is_u 32 v
  end.

Lemma field_survives k v : in_kind k v -> as_kind k (from_log k (to_log k v)) = v.
Proof.
  destruct k; cbn [in_kind as_kind from_log to_log]; [by intros [-> | ->]|intros; word_lia..].
Qed.

(** What [UndoArrayWrite] stores. *)
Definition element_from_log (t : PrimitiveType) (v : Z) : Z :=
  match t with
  | kPrimFloat => as_prim t (of_int kFloat v)
  | kPrimDouble => as_prim t (of_int kDouble v)
  | _ => as_prim t v
  end.

(** An element whose conversion to [uint64_t] and back is exact. *)
Definition element_survives (t : PrimitiveType) (v : Z) : Prop :=
  forall n, element_to_log t v = Some n -> element_from_log t n = v.

Definition is_element_type (t : PrimitiveType) : bool :=
  match t with kPrimNot | kPrimVoid => false | _ => true end.

Definition is_integral (t : PrimitiveType) : bool :=
  match t with kPrimNot | kPrimVoid | kPrimFloat | kPrimDouble => false | _ => true end.

Lemma integral_survives t v : is_integral t = true -> as_prim t v = v -> element_survives t v.
Proof.
  intros Ht Hv n. unfold element_to_log, element_from_log.
  destruct t; try discriminate; intros [= <-]; unfold as_prim in *; word_lia.
Qed.

Lemma UndoArrayWrite_eq array t index v h :
  is_element_type t = true ->
  UndoArrayWrite array t index v h = Some (put_element array index (element_from_log t v) h).
Proof.
  assert (Hu : forall w x, 0 <= w -> u w (u w x) = u w x) by (intros; by apply u_u).
  assert (Hs : forall w x, 0 < w -> s w (s w x) = s w x) by (intros; by apply s_s).
  destruct t; try discriminate; intros _; cbn -[of_int u s]; unfold element_from_log, as_prim;
    rewrite ?Hu, ?Hs by lia; done.
Qed.

(** ** Logs as maps of cells *)

Definition find2 {V} (logs : list (Z * list (Z * V))) (a b : Z) : option V :=
  log ← om_find a logs; om_find b log.

Definition logs_ok {V} (logs : list (Z * list (Z * V))) : Prop :=
  om_ok logs /\ forall a log, om_find a logs = Some log -> om_ok log.

(** The two [LogValue]s are an insertion into the log of the object. *)
Definition log_cell {V} (a b : Z) (v : V) (logs : list (Z * list (Z * V))) :=
  om_set a (om_insert b v (default [] (om_find a logs))) logs.

Lemma log_cell_ok {V} a b (v : V) logs : logs_ok logs -> logs_ok (log_cell a b v logs).
Proof.
  intros [H1 H2]. split; [by apply om_set_ok|]. intros a' log. unfold log_cell.
  rewrite om_find_set. destruct (Z.eqb_spec a' a) as [->|]; [|apply H2].
  intros [= <-]. apply om_insert_ok. destruct (om_find a logs) eqn:E; [by eapply H2|].
  constructor.
Qed.

Lemma log_cell_find {V} a b (v : V) logs a' b' :
  find2 (log_cell a b v logs) a' b' =
    if bool_decide ((a', b') = (a, b)) then
      match find2 logs a b with Some v' => Some v' | None => Some v end
    else find2 logs a' b'.
Proof.
  unfold find2, log_cell. rewrite om_find_set. destruct (Z.eqb_spec a' a) as [->|Ha]; cbn.
  - rewrite om_find_insert. destruct (om_find a logs); cbn;
      (destruct (Z.eqb_spec b' b) as [->|Hb]; [by rewrite bool_decide_true|]);
      rewrite bool_decide_false; congruence || done.
  - rewrite bool_decide_false by congruence. done.
Qed.

Lemma RecordWriteField_cell k obj off v vol t :
  object_logs_ (RecordWriteField k obj off v vol t) =
    log_cell obj off {| value := to_log k v; kind := k; is_volatile := vol |} (object_logs_ t).
Proof.
  unfold RecordWriteField, log_cell, ObjectLogValue. cbn. f_equal.
  unfold om_insert. by destruct (om_find off _).
Qed.

Lemma RecordWriteArray_cell a i v t :
  array_logs_ (TransactionRecordWriteArray a i v t) = log_cell a i v (array_logs_ t).
Proof.
  unfold TransactionRecordWriteArray, log_cell, ArrayLogValue. cbn. f_equal.
  unfold om_insert. by destruct (om_find i _).
Qed.

Lemma get_put_field o f v h o' f' :
  get_field (put_field o f v h) o' f' =
    if bool_decide ((o', f') = (o, f)) then v else get_field h o' f'.
Proof.
  unfold get_field, put_field. cbn. case_bool_decide as E.
  - injection E as -> ->. by rewrite lookup_insert_eq.
  - by rewrite lookup_insert_ne by congruence.
Qed.

Lemma get_put_element a i v h a' i' :
  get_element (put_element a i v h) a' i' =
    if bool_decide ((a', i') = (a, i)) then v else get_element h a' i'.
Proof.
  unfold get_element, put_element. cbn. case_bool_decide as E.
  - injection E as -> ->. by rewrite lookup_insert_eq.
  - by rewrite lookup_insert_ne by congruence.
Qed.

Section Undo.
Variable IsArrayInstance : Z -> bool.
Variable ComponentPrimitiveType : Z -> PrimitiveType.

(** The fields that [Undo] leaves alone. *)
Definition kept_field (obj offset : Z) : bool :=
  (offset =? ClassOffset) || (IsArrayInstance obj && (offset =? LengthOffset)).

Definition restored (fv : FieldValue) : Z := as_kind (kind fv) (from_log (kind fv) (value fv)).

Lemma ObjectLogUndo_get obj log h o f :
  om_ok log ->
  get_field (ObjectLogUndo IsArrayInstance obj log h) o f =
    match (if o =? obj then om_find f log else None) with
    | Some fv => if kept_field obj f then get_field h o f else restored fv
    | None => get_field h o f
    end.
Proof.
  intros Hok%om_ok_nodup. revert h Hok.
  induction log as [|[f' fv] log IH]; intros h Hok; cbn; [by destruct (o =? obj)|].
  apply NoDup_cons in Hok as [Hnin Hok]. rewrite IH by done. clear IH.
  destruct (Z.eqb_spec o obj) as [->|Ho].
  - destruct (Z.eqb_spec f f') as [->|Hf].
    + assert (om_find f' log = None) as ->.
      { apply eq_None_not_Some. by rewrite om_find_keys. }
      unfold kept_field. destruct (f' =? ClassOffset); cbn [orb]; [done|].
      destruct (IsArrayInstance obj && (f' =? LengthOffset)); [done|].
      cbn. rewrite get_put_field. by rewrite bool_decide_true.
    + assert (E : forall h', get_field (if f' =? ClassOffset then h
        else if IsArrayInstance obj && (f' =? LengthOffset) then h
        else put_field obj f' h' h) obj f = get_field h obj f).
      { intros h'. destruct (f' =? ClassOffset), (IsArrayInstance obj && (f' =? LengthOffset)); rewrite ?get_put_field, ?bool_decide_false; congruence || done. }
      unfold UndoFieldWrite. cbn. rewrite E. done.
  - destruct (f' =? ClassOffset), (IsArrayInstance obj && (f' =? LengthOffset)); try done. cbn.
    by rewrite get_put_field, bool_decide_false by congruence.
Qed.

Lemma ObjectLogUndo_elements obj log h :
  elements (ObjectLogUndo IsArrayInstance obj log h) = elements h.
Proof.
  revert h. induction log as [|[f fv] log IH]; intros h; cbn; [done|]. rewrite IH.
  by destruct (f =? ClassOffset), (IsArrayInstance obj && (f =? LengthOffset)).
Qed.

Lemma UndoObjectModifications_get logs h o f :
  logs_ok logs ->
  get_field (UndoObjectModifications IsArrayInstance logs h) o f =
    match find2 logs o f with
    | Some fv => if kept_field o f then get_field h o f else restored fv
    | None => get_field h o f
    end.
Proof.
  intros [Hk Hl]. apply om_ok_nodup in Hk.
  assert (Hl' : forall a log, (a, log) ∈ logs -> om_ok log).
  { intros a log Hin. apply (Hl a). by apply om_find_in. }
  clear Hl. revert h Hk Hl'. unfold find2.
  induction logs as [|[obj log] logs IH]; intros h Hk Hl; cbn; [done|].
  apply NoDup_cons in Hk as [Hnin Hk]. rewrite IH; [|done|by intros a l Hin; eapply (Hl a), list_elem_of_further].
  rewrite ObjectLogUndo_get by (apply (Hl obj), list_elem_of_here).
  destruct (Z.eqb_spec o obj) as [->|Ho]; [|done].
  assert (om_find obj logs = None) as ->.
  { apply eq_None_not_Some. by rewrite om_find_keys. }
  done.
Qed.

Lemma UndoObjectModifications_elements logs h :
  elements (UndoObjectModifications IsArrayInstance logs h) = elements h.
Proof.
  revert h. induction logs as [|[obj log] logs IH]; intros h; cbn; [done|].
  by rewrite IH, ObjectLogUndo_elements.
Qed.

Lemma ArrayLogUndo_get a log h :
  om_ok log -> is_element_type (ComponentPrimitiveType a) = true ->
  exists h', ArrayLogUndo a (ComponentPrimitiveType a) log h = Some h' /\ fields h' = fields h /\
    forall b i, get_element h' b i =
      match (if b =? a then om_find i log else None) with
      | Some v => element_from_log (ComponentPrimitiveType a) v
      | None => get_element h b i
      end.
Proof.
  intros Hok%om_ok_nodup Ht. revert h Hok.
  induction log as [|[i' v] log IH]; intros h Hok.
  { exists h. split_all; [done..|]. intros b i. by destruct (b =? a). }
  apply NoDup_cons in Hok as [Hnin Hok]. cbn [ArrayLogUndo].
  rewrite UndoArrayWrite_eq by done. cbn [mbind option_bind].
  destruct (IH (put_element a i' (element_from_log (ComponentPrimitiveType a) v) h) Hok)
    as (h' & -> & Hf & Hg).
  exists h'. split_all; [done|done|]. intros b i. rewrite Hg. cbn.
  destruct (Z.eqb_spec b a) as [->|Hb].
  - destruct (Z.eqb_spec i i') as [->|Hi].
    + assert (om_find i' log = None) as ->.
      { apply eq_None_not_Some. by rewrite om_find_keys. }
      by rewrite get_put_element, bool_decide_true.
    + destruct (om_find i log); [done|]. by rewrite get_put_element, bool_decide_false by congruence.
  - by rewrite get_put_element, bool_decide_false by congruence.
Qed.

Lemma UndoArrayModifications_get logs h :
  logs_ok logs ->
  (forall a, is_Some (om_find a logs) -> is_element_type (ComponentPrimitiveType a) = true) ->
  exists h', UndoArrayModifications ComponentPrimitiveType logs h = Some h' /\
    fields h' = fields h /\
    forall a i, get_element h' a i =
      match find2 logs a i with
      | Some v => element_from_log (ComponentPrimitiveType a) v
      | None => get_element h a i
      end.
Proof.
  intros [Hk Hl] Ht. apply om_ok_nodup in Hk.
  assert (Hl' : forall a log, (a, log) ∈ logs ->
    om_ok log /\ is_element_type (ComponentPrimitiveType a) = true).
  { intros a log Hin. assert (E : om_find a logs = Some log) by (by apply om_find_in).
    split; [by eapply Hl|apply Ht; by rewrite E]. }
  clear Hl Ht. revert h Hk Hl'. unfold find2.
  induction logs as [|[a log] logs IH]; intros h Hk Hl; [by exists h|].
  apply NoDup_cons in Hk as [Hnin Hk]. cbn [UndoArrayModifications].
  destruct (Hl a log) as [Hok Hty]; [apply list_elem_of_here|].
  destruct (ArrayLogUndo_get a log h Hok Hty) as (h1 & -> & Hf1 & Hg1). cbn [mbind option_bind].
  destruct (IH h1 Hk) as (h2 & -> & Hf2 & Hg2);
    [by intros b l Hin; apply (Hl b), list_elem_of_further|].
  exists h2. split_all; [done|congruence|]. intros b i. rewrite Hg2, Hg1. cbn.
  destruct (Z.eqb_spec b a) as [->|]; [|done].
  assert (om_find a logs = None) as ->.
  { apply eq_None_not_Some. by rewrite om_find_keys. }
  done.
Qed.
End Undo.

(** ** Intern tables up to the order of their entries *)

Definition strings (t : Table) : list Z := pre_zygote_table_ t ++ post_zygote_table_ t.

Definition interns_eq (it it' : InternTable) : Prop :=
  strings (strong_interns_ it) ≡ₚ strings (strong_interns_ it') /\
  strings (weak_interns_ it) ≡ₚ strings (weak_interns_ it').

#[export] Instance interns_equiv : Equivalence interns_eq.
Proof.
  split.
  - by intros it.
  - intros it it' [H1 H2]. by split; symmetry.
  - intros it it' it'' [H1 H2] [H3 H4]. split; by etrans.
Qed.

Section InternFacts.
Variable characters : Z -> list Z.

(** A table: no string twice, no null. *)
Definition table_ok (t : Table) : Prop := NoDup (characters <$> strings t) /\ 0 ∉ strings t.
Definition interns_ok (it : InternTable) : Prop :=
  table_ok (strong_interns_ it) /\ table_ok (weak_interns_ it).

Lemma table_ok_perm t t' : strings t ≡ₚ strings t' -> table_ok t -> table_ok t'.
Proof. intros E [H1 H2]. split; by rewrite <- E. Qed.

Lemma interns_ok_eq it it' : interns_eq it it' -> interns_ok it -> interns_ok it'.
Proof. intros [E1 E2] [H1 H2]. split; by eapply table_ok_perm. Qed.

Lemma set_find_some s l x : set_find characters s l = Some x -> x ∈ l /\ characters x = characters s.
Proof.
  unfold set_find. intros E. destruct (list_find _ l) as [[i y]|] eqn:F; [|done].
  injection E as <-. apply list_find_Some in F as (Hl & He & _).
  split; [by eapply list_elem_of_lookup_2|done].
Qed.

Lemma set_find_none s l x : set_find characters s l = None -> x ∈ l -> characters x <> characters s.
Proof.
  unfold set_find. intros E Hx. destruct (list_find _ l) eqn:F; [done|].
  apply list_find_None in F. rewrite Forall_forall in F. by apply F.
Qed.

Lemma set_erase_perm x l : NoDup l -> x ∈ l -> l ≡ₚ x :: set_erase x l.
Proof.
  unfold set_erase. induction l as [|y l IH]; intros Hnd Hx; [by apply not_elem_of_nil in Hx|].
  apply NoDup_cons in Hnd as [Hy Hnd]. rewrite filter_cons. case_decide as Hd.
  - apply elem_of_cons in Hx as [->|Hx]; [done|]. rewrite (IH Hnd Hx) at 1. apply Permutation_swap.
  - subst y. f_equiv. clear IH Hx Hnd.
    induction l as [|z l IH]; [done|]. apply not_elem_of_cons in Hy as [Hz Hy].
    rewrite filter_cons, decide_True by done. f_equiv. by apply IH.
Qed.

Lemma strings_nodup t : table_ok t -> NoDup (strings t).
Proof. intros [H _]. by eapply NoDup_fmap_1. Qed.

(** Two entries with the same characters are one. *)
Lemma same_entry t x y :
  table_ok t -> x ∈ strings t -> y ∈ strings t -> characters x = characters y -> x = y.
Proof.
  intros [H _] Hx Hy E. apply list_elem_of_lookup in Hx as [i Hi].
  apply list_elem_of_lookup in Hy as [j Hj].
  assert (i = j) as ->; [|congruence].
  eapply NoDup_lookup; [exact H|by rewrite list_lookup_fmap, Hi|].
  rewrite list_lookup_fmap, Hj. cbn. by rewrite E.
Qed.

(** [Remove] takes out the entry with the same characters. *)
Lemma TableRemove_spec t s x :
  table_ok t -> x ∈ strings t -> characters x = characters s ->
  exists t', TableRemove characters s t = Some t' /\ strings t ≡ₚ x :: strings t'.
Proof.
  intros Hok Hx Hc. pose proof (strings_nodup t Hok) as Hnd. unfold TableRemove.
  assert (Hone : forall y, y ∈ strings t -> characters y = characters s -> y = x).
  { intros y Hy Ey. apply (same_entry t); congruence || done. }
  unfold strings in *. apply NoDup_app in Hnd as (N1 & N2 & N3).
  destruct (set_find characters s (post_zygote_table_ t)) as [y|] eqn:E.
  - apply set_find_some in E as [Hy Ey]. assert (y = x) as -> by (apply Hone; [set_solver|done]).
    eexists. split; [done|]. cbn. rewrite (set_erase_perm x (post_zygote_table_ t)) at 1 by done.
    by rewrite Permutation_middle.
  - destruct (set_find characters s (pre_zygote_table_ t)) as [y|] eqn:E'; cbn.
    + apply set_find_some in E' as [Hy Ey]. assert (y = x) as -> by (apply Hone; [set_solver|done]).
      eexists. split; [done|]. cbn. by rewrite (set_erase_perm x (pre_zygote_table_ t)) at 1 by done.
    + exfalso. apply elem_of_app in Hx as [Hx|Hx];
        [exact (set_find_none _ _ _ E' Hx Hc)|exact (set_find_none _ _ _ E Hx Hc)].
Qed.

Lemma TableFind_spec t s :
  table_ok t ->
  (TableFind characters t s = 0 /\ forall x, x ∈ strings t -> characters x <> characters s) \/
  (TableFind characters t s <> 0 /\ TableFind characters t s ∈ strings t /\
   characters (TableFind characters t s) = characters s).
Proof.
  intros [_ H0]. unfold TableFind, strings in *.
  destruct (set_find characters s (pre_zygote_table_ t)) as [x|] eqn:E1.
  { apply set_find_some in E1 as [Hx Ex]. right. split_all; [|set_solver|done].
    intros ->. set_solver. }
  destruct (set_find characters s (post_zygote_table_ t)) as [x|] eqn:E2.
  { apply set_find_some in E2 as [Hx Ex]. right. split_all; [|set_solver|done].
    intros ->. set_solver. }
  left. split; [done|].
  intros x [Hx|Hx]%elem_of_app; [exact (set_find_none _ _ _ E1 Hx)|exact (set_find_none _ _ _ E2 Hx)].
Qed.

Lemma TableInsert_strings s t : strings (TableInsert s t) ≡ₚ s :: strings t.
Proof. unfold strings. cbn. by rewrite Permutation_middle. Qed.

Lemma TableInsert_ok s t :
  table_ok t -> s <> 0 -> (forall x, x ∈ strings t -> characters x <> characters s) ->
  table_ok (TableInsert s t).
Proof.
  intros [H1 H2] Hs Hx. split; rewrite TableInsert_strings.
  - cbn. apply NoDup_cons. split; [|done]. intros (x & E & Hin)%list_elem_of_fmap.
    by apply (Hx x).
  - apply not_elem_of_cons. by split.
Qed.

(** [undo_to logs it it0]: undoing the logs leads from [it] back to [it0], through tables without
    duplicates. *)
Fixpoint undo_to (logs : list InternStringLog) (it it0 : InternTable) : Prop :=
  interns_ok it /\
  match logs with
  | [] => interns_eq it it0
  | l :: logs' =>
      exists it1, InternStringLogUndo characters l it = Some it1 /\ undo_to logs' it1 it0
  end.

Lemma undo_to_runs logs it it0 :
  undo_to logs it it0 ->
  exists it', UndoInternStrings characters logs it = Some it' /\ interns_eq it' it0.
Proof.
  revert it. induction logs as [|l logs IH]; intros it; cbn; [intros [_ H]; by exists it|].
  intros (_ & it1 & -> & H). cbn. by apply IH.
Qed.

Lemma TableRemove_perm t t' s t1 :
  table_ok t -> strings t ≡ₚ strings t' -> TableRemove characters s t = Some t1 ->
  exists t1', TableRemove characters s t' = Some t1' /\ strings t1 ≡ₚ strings t1'.
Proof.
  intros Hok E Hr.
  assert (Hx : exists x, x ∈ strings t /\ characters x = characters s).
  { unfold TableRemove in Hr. destruct (set_find characters s (post_zygote_table_ t)) as [x|] eqn:F.
    - exists x. apply set_find_some in F as [??]. unfold strings. set_solver.
    - destruct (set_find characters s (pre_zygote_table_ t)) as [x|] eqn:F'; [|done].
      exists x. apply set_find_some in F' as [??]. unfold strings. set_solver. }
  destruct Hx as (x & Hx & Hc).
  destruct (TableRemove_spec t s x) as (t2 & Hr2 & P2); [done..|]. rewrite Hr in Hr2.
  injection Hr2 as <-.
  destruct (TableRemove_spec t' s x) as (t1' & Hr' & P1');
    [by eapply table_ok_perm|by rewrite <- E|done|].
  exists t1'. split; [done|]. apply (Permutation_cons_inv (a := x)). by rewrite <- P2, <- P1'.
Qed.

Lemma InsertStrong_tables s tr it :
  strong_interns_ (InsertStrong s (tr, it)).2 = TableInsert s (strong_interns_ it) /\
  weak_interns_ (InsertStrong s (tr, it)).2 = weak_interns_ it.
Proof. cbn. by destruct (log_new_roots_ it). Qed.

Lemma Undo_congruence l it it' it1 :
  interns_ok it -> interns_eq it it' -> InternStringLogUndo characters l it = Some it1 ->
  exists it1', InternStringLogUndo characters l it' = Some it1' /\ interns_eq it1 it1'.
Proof.
  intros [O1 O2] [E1 E2]. unfold InternStringLogUndo, RemoveStrong, RemoveWeak.
  destruct (string_op_ l), (string_kind_ l); intros Hu.
  - destruct (TableRemove characters (str_ l) (strong_interns_ it)) as [t1|] eqn:F; [|done].
    destruct (TableRemove_perm _ _ _ _ O1 E1 F) as (t1' & -> & P).
    cbn in *. injection Hu as <-. eexists. split; [done|]. by split.
  - destruct (TableRemove characters (str_ l) (weak_interns_ it)) as [t1|] eqn:F; [|done].
    destruct (TableRemove_perm _ _ _ _ O2 E2 F) as (t1' & -> & P).
    cbn in *. injection Hu as <-. eexists. split; [done|]. by split.
  - apply (inj Some) in Hu as <-. eexists. split; [done|]. split.
    + rewrite !(proj1 (InsertStrong_tables _ _ _)), !TableInsert_strings. by apply perm_skip.
    + by rewrite !(proj2 (InsertStrong_tables _ _ _)).
  - apply (inj Some) in Hu as <-. eexists. split; [done|]. split; [done|].
    cbn [InsertWeak snd set_weak weak_interns_]. rewrite !TableInsert_strings. by apply perm_skip.
Qed.

Lemma undo_to_congruence logs it it' it0 :
  interns_eq it it' -> undo_to logs it it0 -> undo_to logs it' it0.
Proof.
  revert it it'. induction logs as [|l logs IH]; intros it it' E; cbn.
  - intros [H1 H2]. split; [by eapply interns_ok_eq|]. etrans; [by symmetry|done].
  - intros (Ho & it1 & Hu & H). split; [by eapply interns_ok_eq|].
    destruct (Undo_congruence l it it' it1 Ho E Hu) as (it1' & Hu' & E1).
    exists it1'. split; [done|]. by eapply IH.
Qed.
End InternFacts.

Section InternUndo.
Variable characters : Z -> list Z.
Variable LookupStringFromImage : Z -> Z.
(** The string of an image is found by its characters. *)
Hypothesis image_characters :
  forall s, LookupStringFromImage s <> 0 -> characters (LookupStringFromImage s) = characters s.

Abbreviation fresh t s := (forall x, x ∈ strings t -> characters x <> characters s).
Abbreviation ok := (interns_ok characters).
Abbreviation undoes := (undo_to characters).

Lemma InsertStrong_undo s tr it logs it0 :
  ok it -> s <> 0 -> fresh (strong_interns_ it) s -> undoes logs it it0 ->
  let it' := (InsertStrong s (tr, it)).2 in
  ok it' /\ undoes ({| str_ := s; string_kind_ := kStrongString; string_op_ := kInsert |} :: logs) it' it0.
Proof.
  intros [O1 O2] Hs Hf Hu it'. destruct (InsertStrong_tables s tr it) as [T1 T2]. fold it' in T1, T2.
  clearbody it'.
  assert (Ho : ok it') by (split; [rewrite T1; by apply TableInsert_ok|by rewrite T2]).
  split; [done|]. split; [done|].
  destruct (TableRemove_spec characters (strong_interns_ it') s s) as (t1 & Hr & P).
  { apply Ho. } { rewrite T1, TableInsert_strings. apply list_elem_of_here. } { done. }
  unfold InternStringLogUndo, RemoveStrong. cbn. rewrite Hr. cbn. eexists. split; [done|].
  eapply undo_to_congruence; [|exact Hu]. split; cbn; [|by rewrite T2].
  apply (Permutation_cons_inv (a := s)). by rewrite <- P, T1, TableInsert_strings.
Qed.

Lemma InsertWeak_undo s tr it logs it0 :
  ok it -> s <> 0 -> fresh (weak_interns_ it) s -> undoes logs it it0 ->
  let it' := (InsertWeak s (tr, it)).2 in
  ok it' /\ undoes ({| str_ := s; string_kind_ := kWeakString; string_op_ := kInsert |} :: logs) it' it0.
Proof.
  intros [O1 O2] Hs Hf Hu it'.
  assert (T1 : weak_interns_ it' = TableInsert s (weak_interns_ it)) by done.
  assert (T2 : strong_interns_ it' = strong_interns_ it) by done. clearbody it'.
  assert (Ho : ok it') by (split; [by rewrite T2|rewrite T1; by apply TableInsert_ok]).
  split; [done|]. split; [done|].
  destruct (TableRemove_spec characters (weak_interns_ it') s s) as (t1 & Hr & P).
  { apply Ho. } { rewrite T1, TableInsert_strings. apply list_elem_of_here. } { done. }
  unfold InternStringLogUndo, RemoveWeak. cbn [string_op_ string_kind_ str_]. rewrite Hr.
  cbn [mbind option_bind fmap option_fmap option_map snd]. eexists. split; [done|].
  eapply undo_to_congruence; [|exact Hu]. split; cbn; [by rewrite T2|].
  apply (Permutation_cons_inv (a := s)). by rewrite <- P, T1, TableInsert_strings.
Qed.

Lemma RemoveWeak_undo x tr it logs it0 :
  ok it -> x ∈ strings (weak_interns_ it) -> undoes logs it it0 ->
  exists it', RemoveWeak characters x (tr, it) = Some (RecordWeakStringRemoval x <$> tr, it') /\
    ok it' /\ strong_interns_ it' = strong_interns_ it /\
    undoes ({| str_ := x; string_kind_ := kWeakString; string_op_ := kRemove |} :: logs) it' it0.
Proof.
  intros [O1 O2] Hx Hu. unfold RemoveWeak.
  destruct (TableRemove_spec characters (weak_interns_ it) x x) as (t1 & -> & P); [done..|].
  cbn [mbind option_bind]. eexists. split; [done|].
  assert (Ho : ok (set_weak t1 it)).
  { split; [done|]. destruct O2 as [N1 N2]. rewrite P in N1, N2. cbn in N1.
    apply NoDup_cons in N1 as [_ N1]. apply not_elem_of_cons in N2 as [_ N2]. by split. }
  split; [done|]. split; [done|]. split; [done|]. eexists. split; [done|].
  eapply undo_to_congruence; [|exact Hu]. split; [done|].
  cbn [InsertWeak snd set_weak weak_interns_]. by rewrite TableInsert_strings.
Qed.

(** [InternStrong] and [InternWeak] can be undone, and keep the tables free of duplicates. *)
Lemma Insert_undo s is_strong tr it it0 :
  ok it -> undoes (intern_string_logs_ tr) it it0 ->
  exists tr' it' r, Insert characters LookupStringFromImage s is_strong (Some tr, it)
      = Some ((Some tr', it'), r) /\
    ok it' /\ undoes (intern_string_logs_ tr') it' it0 /\
    object_logs_ tr' = object_logs_ tr /\ array_logs_ tr' = array_logs_ tr.
Proof.
  intros Hok Hu. unfold Insert, LookupStrong, LookupWeak. cbn [snd].
  destruct (Z.eqb_spec s 0) as [|Hs]; [by exists tr, it, 0|].
  destruct (TableFind_spec characters (strong_interns_ it) s) as [[-> HfS]|(Hn & _)];
    [apply Hok| |].
  2:{ apply Z.eqb_neq in Hn as ->. cbn. by eexists tr, it, _. }
  destruct (TableFind_spec characters (weak_interns_ it) s) as [[-> HfW]|(Hn & Hin & Hc)];
    [apply Hok| |].
  - cbn [Z.eqb negb].
    set (s' := if negb (LookupStringFromImage s =? 0) then LookupStringFromImage s else s).
    assert (Hs' : s' <> 0 /\ characters s' = characters s).
    { subst s'. destruct (Z.eqb_spec (LookupStringFromImage s) 0); cbn; [done|].
      split; [done|by apply image_characters]. }
    destruct Hs' as [Hs0 Hsc].
    assert (F1 : fresh (strong_interns_ it) s') by (intros x Hx; rewrite Hsc; by apply HfS).
    assert (F2 : fresh (weak_interns_ it) s') by (intros x Hx; rewrite Hsc; by apply HfW).
    destruct is_strong.
    + destruct (InsertStrong_undo s' (Some tr) it _ it0 Hok Hs0 F1 Hu) as [Ho' Hu'].
      eexists _, _, s'. split; [reflexivity|]. by split_all.
    + destruct (InsertWeak_undo s' (Some tr) it _ it0 Hok Hs0 F2 Hu) as [Ho' Hu'].
      eexists _, _, s'. split; [reflexivity|]. by split_all.
  - apply Z.eqb_neq in Hn as Hnb. rewrite Hnb. cbn [Z.eqb negb].
    destruct is_strong; [|by eexists tr, it, _].
    set (w := TableFind characters (weak_interns_ it) s) in *.
    destruct (RemoveWeak_undo w (Some tr) it _ it0 Hok Hin Hu) as (it1 & -> & Ho1 & E1 & Hu1).
    cbn [mbind option_bind fmap option_fmap option_map].
    assert (F : fresh (strong_interns_ it1) w) by (rewrite E1; intros x Hx; rewrite Hc; by apply HfS).
    destruct (InsertStrong_undo w (Some (RecordWeakStringRemoval w tr)) it1 _ it0 Ho1 Hn F Hu1)
      as [Ho2 Hu2].
    eexists _, _, w. split; [reflexivity|]. by split_all.
Qed.
End InternUndo.

(** ** The invariant of an active transaction *)

Section Invariant.
Variable characters : Z -> list Z.
Variable LookupStringFromImage : Z -> Z.
Hypothesis image_characters :
  forall s, LookupStringFromImage s <> 0 -> characters (LookupStringFromImage s) = characters s.
Variable ComponentPrimitiveType : Z -> PrimitiveType.
(** The type of each field. *)
Variable layout : Z -> Z -> FieldValueKind.
(** The heap and the table before the transaction. *)
Variables (h0 : Heap) (it0 : InternTable).

Definition typed_write (w : Write) : Prop :=
  match w with
  | WField k _ obj field_offset _ => k = layout obj field_offset
  | WElement t array _ _ => t = ComponentPrimitiveType array /\ is_element_type t = true
  | WIntern _ _ => True
  end.

(** What is not logged is as before; what is logged was so before. *)
Definition fields_logged (t : Transaction) (h : Heap) : Prop :=
  logs_ok (object_logs_ t) /\
  forall o f,
    match find2 (object_logs_ t) o f with
    | Some fv => kind fv = layout o f /\ value fv = to_log (layout o f) (get_field h0 o f)
    | None => get_field h o f = get_field h0 o f
    end.

Definition elements_logged (t : Transaction) (h : Heap) : Prop :=
  logs_ok (array_logs_ t) /\
  (forall a, is_Some (om_find a (array_logs_ t)) -> is_element_type (ComponentPrimitiveType a) = true) /\
  forall a i,
    match find2 (array_logs_ t) a i with
    | Some v => element_to_log (ComponentPrimitiveType a) (get_element h0 a i) = Some v
    | None => get_element h a i = get_element h0 a i
    end.

Definition logged (st : World) : Prop :=
  fields_logged (transaction st) (heap st) /\ elements_logged (transaction st) (heap st) /\
  interns_ok characters (interns st) /\
  undo_to characters (intern_string_logs_ (transaction st)) (interns st) it0.

Lemma logged_new : interns_ok characters it0 -> logged (mkWorld new_transaction h0 it0).
Proof.
  intros Ho. split; [|split; [|split; [done|]]].
  - split; [split; [constructor|done]|done].
  - split; [split; [constructor|done]|]. split; [by intros a [? ?]|done].
  - split; [done|reflexivity].
Qed.

Lemma WField_logged k vol o f v t h :
  k = layout o f -> fields_logged t h ->
  fields_logged (RecordWriteField k o f (get_field h o f) vol t) (put_field o f (as_kind k v) h).
Proof.
  intros -> [Hok Hf]. split; [rewrite RecordWriteField_cell; by apply log_cell_ok|].
  intros o' f'. rewrite RecordWriteField_cell, log_cell_find, get_put_field.
  case_bool_decide as E; [|apply Hf]. injection E as -> ->. specialize (Hf o f).
  destruct (find2 (object_logs_ t) o f) as [fv|]; [done|]. by rewrite Hf.
Qed.

Lemma WElement_logged a i v w t h :
  is_element_type (ComponentPrimitiveType a) = true ->
  element_to_log (ComponentPrimitiveType a) (get_element h a i) = Some v -> elements_logged t h ->
  elements_logged (TransactionRecordWriteArray a i v t) (put_element a i w h).
Proof.
  intros Ht Hv (Hok & Hty & He). split; [|split].
  - rewrite RecordWriteArray_cell. by apply log_cell_ok.
  - intros b. rewrite RecordWriteArray_cell. unfold log_cell. rewrite om_find_set.
    destruct (Z.eqb_spec b a) as [->|]; [done|apply Hty].
  - intros b j. rewrite RecordWriteArray_cell, log_cell_find, get_put_element.
    case_bool_decide as E; [|apply He]. injection E as -> ->. specialize (He a i).
    destruct (find2 (array_logs_ t) a i) as [v'|]; [done|]. by rewrite <- He.
Qed.

Lemma do_write_logged w st st' :
  typed_write w -> logged st -> do_write characters LookupStringFromImage w st = Some st' ->
  logged st'.
Proof.
  intros Hw (Hf & He & Ho & Hu) E. destruct w as [k vol o f v|type a i v|s is_strong]; cbn in *.
  - injection E as <-. split; [by apply WField_logged|done].
  - destruct Hw as [-> Ht].
    destruct (element_to_log (ComponentPrimitiveType a) (get_element (heap st) a i)) as [n|] eqn:En;
      [|done].
    injection E as <-. split; [done|]. split; [by apply WElement_logged|done].
  - destruct (Insert_undo characters LookupStringFromImage image_characters s is_strong
      (transaction st) (interns st) it0 Ho Hu) as (tr' & it' & r & Ei & Ho' & Hu' & E1 & E2).
    rewrite Ei in E. injection E as <-. unfold logged, fields_logged, elements_logged. cbn.
    rewrite E1, E2. split; [exact Hf|]. split; [exact He|done].
Qed.

Lemma do_writes_logged ws st st' :
  Forall typed_write ws -> logged st ->
  do_writes characters LookupStringFromImage ws st = Some st' -> logged st'.
Proof.
  revert st. induction ws as [|w ws IH]; intros st HF Hl; cbn; [by intros [= <-]|].
  apply Forall_cons in HF as [Hw HF].
  destruct (do_write characters LookupStringFromImage w st) as [st1|] eqn:E; [|done].
  cbn. apply IH; [done|]. by eapply do_write_logged.
Qed.
End Invariant.

(** ** Properties *)


(** An object whose field 12 holds 5, an array of [int] with element 0, one interned string. *)
Definition sample_heap : Heap := mkHeap {[(100, 12) := 5]} {[(200, 0) := -3]}.
Definition sample_interns : InternTable := mkInterns (mkTable [] [300]) (mkTable [301] []) true [].
Definition sample_writes : list Write :=
  [WField k32Bits false 100 12 6; WElement kPrimInt 200 0 9; WField k32Bits false 100 12 7;
   WIntern 301 true; WIntern 302 false].
Definition sample_characters (s : Z) : list Z := [s].
Definition sample_component (a : Z) : PrimitiveType := kPrimInt.

Lemma sample_interns_ok : interns_ok sample_characters sample_interns.
Proof.
  unfold interns_ok, table_ok. cbn. split_all; first [apply NoDup_singleton|set_solver].
Qed.


(** A [float] element of an array is not restored but truncated: the record converts the value,
    not its bits, to [uint64_t] (1.5 comes back as 1.0). *)
Theorem float_element_truncated (characters : Z -> list Z) (image : Z -> Z)
  (IsArrayInstance : Z -> bool) (ComponentPrimitiveType : Z -> PrimitiveType) (h0 : Heap)
  (it0 : InternTable) (a i new_value : Z)
  (Ha : ComponentPrimitiveType a = kPrimFloat)
  (Hfin : finite (decode kFloat (get_element h0 a i)))
  (Hpos : 0 <= truncate (decode kFloat (get_element h0 a i)) < 2 ^ 64) :
  exists st t h it,
    do_writes characters image [WElement kPrimFloat a i new_value]
      (mkWorld new_transaction h0 it0) = Some st /\
    Rollback IsArrayInstance ComponentPrimitiveType characters None (transaction st) (heap st)
      (interns st) = Some (t, h, it) /\
    get_element h a i = u32 (of_int kFloat (truncate (decode kFloat (get_element h0 a i)))).
Proof.
  set (n := truncate (decode kFloat (get_element h0 a i))) in *.
  assert (En : element_to_log kPrimFloat (get_element h0 a i) = Some n).
  { unfold element_to_log. rewrite bool_decide_true by done. fold n.
    rewrite (proj2 (Z.leb_le 0 n)), (proj2 (Z.ltb_lt n (2 ^ 64))) by lia. done. }
  eexists _, _, _, _. split; [|split].
  - cbn [do_writes do_write ArraySetWithoutChecks]. cbn [transaction heap]. rewrite En. reflexivity.
  - unfold Rollback.
    change (array_logs_ (transaction _)) with [(a, [(i, n)])].
    change (object_logs_ (transaction _)) with (@nil (Z * ObjectLog)).
    cbn [UndoObjectModifications UndoArrayModifications ArrayLogUndo].
    rewrite Ha, UndoArrayWrite_eq by done. reflexivity.
  - rewrite get_put_element, bool_decide_true by done. done.
Qed.

Lemma float_element_truncated_witness :
  u32 (of_int kFloat (truncate (decode kFloat 0x3fc00000))) = 0x3f800000 /\
  exists st t h it,
    do_writes sample_characters (fun _ => 0) [WElement kPrimFloat 200 0 0]
      (mkWorld new_transaction (mkHeap ∅ {[(200, 0) := 0x3fc00000]}) sample_interns) = Some st /\
    Rollback (fun _ => false) (fun _ => kPrimFloat) sample_characters None (transaction st) (heap st)
      (interns st) = Some (t, h, it) /\
    get_element h 200 0 = u32 (of_int kFloat (truncate (decode kFloat 0x3fc00000))).
Proof.
  split; [reflexivity|].
  refine (float_element_truncated sample_characters (fun _ => 0) (fun _ => false)
    (fun _ => kPrimFloat) (mkHeap ∅ {[(200, 0) := 0x3fc00000]}) sample_interns 200 0 0 _ _ _).
  - reflexivity.
  - vm_compute. done.
  - vm_compute. split; congruence.
Defined.

(** Moving the roots of a log. *)
Lemma MoveLogs_find {L} (moves : list (Z * Z)) (logs logs' : list (Z * L)) :
  NoDup (fst <$> moves) -> (forall o n, (o, n) ∈ moves -> is_Some (om_find o logs)) ->
  MoveLogs moves logs = Some logs' ->
  forall k log, om_find k logs = Some log ->
    om_find (match om_find k moves with Some n => n | None => k end) logs' = Some log.
Proof.
  revert logs. induction moves as [|[o n] moves IH]; intros logs Hnd Hin Hm k log Hk; cbn in *.
  { by injection Hm as <-. }
  apply NoDup_cons in Hnd as [Ho Hnd].
  destruct (om_find o logs) as [lo|] eqn:Eo; [|done]. cbn in Hm.
  destruct (om_find n logs) eqn:En; [done|].
  assert (Hon : o <> n) by congruence.
  set (logs1 := om_erase o (om_insert n lo logs)) in *.
  assert (Hfind : forall j, om_find j logs1 =
    if j =? o then None else if j =? n then Some lo else om_find j logs).
  { intros j. unfold logs1. by rewrite om_find_erase, om_find_insert, En. }
  assert (Hin1 : forall o' n', (o', n') ∈ moves -> is_Some (om_find o' logs1)).
  { intros o' n' Hm'. rewrite Hfind. destruct (Z.eqb_spec o' o) as [->|].
    - exfalso. apply Ho. apply list_elem_of_fmap. by exists (o, n').
    - destruct (o' =? n); [by eexists|]. eapply Hin. by apply list_elem_of_further. }
  specialize (IH logs1 Hnd Hin1 Hm). destruct (Z.eqb_spec k o) as [->|Hko].
  - assert (Hn : om_find n moves = None).
    { apply eq_None_not_Some. rewrite om_find_keys. intros ([x y] & Ex & Hx)%list_elem_of_fmap.
      cbn in Ex. subst x. destruct (Hin n y) as [? E]; [by apply list_elem_of_further|]. congruence. }
    specialize (IH n log). rewrite Hn in IH. apply IH. rewrite Hfind, Z.eqb_refl.
    destruct (Z.eqb_spec n o); congruence.
  - apply IH. rewrite Hfind. destruct (Z.eqb_spec k o); [done|].
    destruct (Z.eqb_spec k n) as [->|]; congruence.
Qed.

Lemma moving_roots_find visit roots k :
  NoDup roots -> k ∈ roots ->
  NoDup (fst <$> moving_roots visit roots) /\
  match om_find k (moving_roots visit roots) with Some n => n | None => k end = visit k.
Proof.
  intros Hnd Hk.
  assert (Hsub : forall l, fst <$> moving_roots visit l = filter (fun x => visit x <> x) l).
  { induction l as [|x l IH]; [done|]. rewrite filter_cons. unfold moving_roots in *.
    cbn [omap list_omap].
    destruct (Z.eqb_spec (visit x) x); [rewrite decide_False by tauto; exact IH|].
    rewrite decide_True by done. cbn [fmap list_fmap fst]. f_equal. exact IH. }
  split; [rewrite Hsub; by apply NoDup_filter|]. clear Hsub.
  induction roots as [|x roots IH]; [by apply not_elem_of_nil in Hk|].
  apply NoDup_cons in Hnd as [Hx Hnd].
  assert (Hc : moving_roots visit (x :: roots) = if visit x =? x then moving_roots visit roots
    else (x, visit x) :: moving_roots visit roots).
  { unfold moving_roots. cbn [omap list_omap]. by destruct (visit x =? x). }
  rewrite Hc. apply elem_of_cons in Hk as [->|Hk].
  - destruct (Z.eqb_spec (visit x) x) as [E|]; cbn; [|by rewrite Z.eqb_refl].
    rewrite E. destruct (om_find x (moving_roots visit roots)) as [n|] eqn:F; [|done].
    exfalso. apply Hx. apply om_find_some_in in F. unfold moving_roots in F.
    apply list_elem_of_omap in F as (y & Hy & F). destruct (visit y =? y); [done|].
    by injection F as -> _.
  - destruct (visit x =? x); [by apply IH|]. cbn.
    destruct (Z.eqb_spec k x) as [->|]; [done|by apply IH].
Qed.

(** When a moving collector visits the roots of a transaction, every log follows its object to
    its new address and the interned strings are updated, but the references that were recorded as
    field values keep their old address: a rollback after that stores dangling references. *)
Theorem visit_roots_forgets_field_values (visit : Z -> Z) (t t' : Transaction)
  (Hobj : om_ok (object_logs_ t)) (Harr : om_ok (array_logs_ t))
  (Hvisit : TransactionVisitRoots visit t = Some t') :
  (forall obj f fv, find2 (object_logs_ t) obj f = Some fv ->
     find2 (object_logs_ t') (visit obj) f = Some fv) /\
  (forall a i v, find2 (array_logs_ t) a i = Some v -> find2 (array_logs_ t') (visit a) i = Some v) /\
  (str_ <$> intern_string_logs_ t') = visit <$> (str_ <$> intern_string_logs_ t).
Proof.
  assert (Hmove : forall L (logs logs' : list (Z * L)), om_ok logs ->
    MoveLogs (moving_roots visit (om_keys logs)) logs = Some logs' ->
    forall k log, om_find k logs = Some log -> om_find (visit k) logs' = Some log).
  { intros L logs logs' Hok Hm k log Hk. apply om_ok_nodup in Hok.
    assert (Hin : k ∈ om_keys logs) by (apply om_find_keys; by eexists).
    destruct (moving_roots_find visit (om_keys logs) k Hok Hin) as [Hnd <-].
    eapply MoveLogs_find; [done| |done|done].
    intros o n F. unfold moving_roots in F. apply list_elem_of_omap in F as (y & Hy & F).
    destruct (visit y =? y); [done|]. injection F as -> _. by apply om_find_keys. }
  unfold TransactionVisitRoots, VisitObjectLogs, VisitArrayLogs in Hvisit.
  destruct (MoveLogs _ (object_logs_ t)) as [ol|] eqn:Eo; [|done]. cbn in Hvisit.
  destruct (MoveLogs _ (array_logs_ t)) as [al|] eqn:Ea; [|done]. injection Hvisit as <-.
  cbn. split_all.
  - intros obj f fv (log & E1 & E2)%bind_Some. apply bind_Some. exists log.
    split; [exact (Hmove _ _ _ Hobj Eo _ _ E1)|exact E2].
  - intros a i v (log & E1 & E2)%bind_Some. apply bind_Some. exists log.
    split; [exact (Hmove _ _ _ Harr Ea _ _ E1)|exact E2].
  - unfold VisitStringLogs. rewrite <- !list_fmap_compose. apply list_fmap_ext. done.
Qed.

(** The object at 100 moves to 1100 and the referenced 400 to 1400: the record still says 400. *)
Definition sample_logged : Transaction :=
  RecordWriteField kReference 100 16 400 false new_transaction.

Lemma visit_roots_forgets_field_values_witness :
  exists t', TransactionVisitRoots (Z.add 1000) sample_logged = Some t' /\
    find2 (object_logs_ t') 1100 16 =
      Some {| value := 400; kind := kReference; is_volatile := false |}.
Proof.
  destruct (TransactionVisitRoots (Z.add 1000) sample_logged) as [t'|] eqn:E;
    [|vm_compute in E; discriminate E].
  exists t'. split; [reflexivity|].
  refine (proj1 (visit_roots_forgets_field_values (Z.add 1000) sample_logged t' _ _ E) 100 16 _ _).
  - repeat constructor.
  - constructor.
  - reflexivity.
Defined.
