(* ===== verification/ParallelMove.v ===== *)
(** Parallel moves of the optimizing compiler ([compiler/optimizing/locations.h],
    [parallel_move_resolver.{h,cc}], [MoveOperands] of [nodes.h]).

    The register allocator asks for a set of moves to happen at once; the resolver emits a
    sequence of moves and swaps.  The virtual [EmitMove] and [EmitSwap] of the code generators
    append to the emitted code; their scratch registers are not modelled.  A location is the
    word [value_] of a 32-bit target.  [None] is fuel that has run out, or a move that is not in
    the list. *)
From S2P Require Import Prelude ShadowFrame Runtime.
Local Open Scope Z_scope.

(** ** [Location] *)

Definition Location : Type := Z.

Definition kInvalid : Z := 0.
Definition kConstant : Z := 1.
Definition kStackSlot : Z := 2.
Definition kDoubleStackSlot : Z := 3.
Definition kRegister : Z := 4.
Definition kFpuRegister : Z := 6.
Definition kRegisterPair : Z := 7.
Definition kFpuRegisterPair : Z := 8.
Definition kUnallocated : Z := 10.

Definition kBitsForKind : Z := 4.
Definition kBitsForPayload : Z := 32 - kBitsForKind.
Definition kLocationConstantMask : Z := 0x3.
Definition kStackIndexBias : Z := 1 ≪ (kBitsForPayload - 1).

(** [KindField] and [PayloadField] ([BitField<T, 0, 4>], [BitField<uintptr_t, 4, 28>]). *)
Definition Location_make (kind payload : Z) : Location :=
  Z.lor kind (u32 (payload ≪ kBitsForKind)).
Definition GetPayload (l : Location) : Z := Z.land (l ≫ kBitsForKind) (Z.ones kBitsForPayload).

Definition NoLocation : Location := kInvalid.
Definition IsConstant (l : Location) : bool := Z.land l kLocationConstantMask =? kConstant.
Definition ConstantLocation (constant : Z) : Location := Z.lor kConstant constant.
Definition IsValid (l : Location) : bool := negb (l =? kInvalid).
Definition IsInvalid (l : Location) : bool := negb (IsValid l).
Definition GetKind (l : Location) : Z :=
  if IsConstant l then kConstant else Z.land l (Z.ones kBitsForKind).

Definition RegisterLocation (reg : Z) : Location := Location_make kRegister reg.
Definition FpuRegisterLocation (reg : Z) : Location := Location_make kFpuRegister reg.
Definition RegisterPairLocation (low high : Z) : Location :=
  Location_make kRegisterPair (Z.lor (low ≪ 16) high).
Definition FpuRegisterPairLocation (low high : Z) : Location :=
  Location_make kFpuRegisterPair (Z.lor (low ≪ 16) high).

Definition IsRegister (l : Location) : bool := GetKind l =? kRegister.
Definition IsFpuRegister (l : Location) : bool := GetKind l =? kFpuRegister.
Definition IsRegisterPair (l : Location) : bool := GetKind l =? kRegisterPair.
Definition IsFpuRegisterPair (l : Location) : bool := GetKind l =? kFpuRegisterPair.
Definition IsPair (l : Location) : bool := IsRegisterPair l || IsFpuRegisterPair l.
Definition IsStackSlot (l : Location) : bool := GetKind l =? kStackSlot.
Definition IsDoubleStackSlot (l : Location) : bool := GetKind l =? kDoubleStackSlot.

Definition low (l : Location) : Z := GetPayload l ≫ 16.
Definition high (l : Location) : Z := Z.land (GetPayload l) 0xFFFF.

Definition EncodeStackIndex (stack_index : Z) : Z := u32 (kStackIndexBias + stack_index).
Definition StackSlot (stack_index : Z) : Location :=
  Location_make kStackSlot (EncodeStackIndex stack_index).
Definition DoubleStackSlot (stack_index : Z) : Location :=
  Location_make kDoubleStackSlot (EncodeStackIndex stack_index).
Definition GetStackIndex (l : Location) : Z := GetPayload l - kStackIndexBias.
Definition GetHighStackIndex (l : Location) (word_size : Z) : Z :=
  GetPayload l - kStackIndexBias + word_size.

Definition ToLow (l : Location) : Location :=
  if IsRegisterPair l then RegisterLocation (low l)
  else if IsFpuRegisterPair l then FpuRegisterLocation (low l)
  else StackSlot (GetStackIndex l).
Definition ToHigh (l : Location) : Location :=
  if IsRegisterPair l then RegisterLocation (high l)
  else if IsFpuRegisterPair l then FpuRegisterLocation (high l)
  else StackSlot (GetHighStackIndex l 4).

Definition Equals (l other : Location) : bool := l =? other.

Definition Contains (l other : Location) : bool :=
  if Equals l other then true
  else if IsPair l || IsDoubleStackSlot l then
    Equals (ToLow l) other || Equals (ToHigh l) other
  else false.

Definition OverlapsWith (l other : Location) : bool := Contains l other || Contains other l.

(** [LowOf], [HighOf] of the resolver. *)
Definition LowOf (l : Location) : Location :=
  if IsRegisterPair l then RegisterLocation (low l)
  else if IsFpuRegisterPair l then FpuRegisterLocation (low l)
  else if IsDoubleStackSlot l then StackSlot (GetStackIndex l)
  else NoLocation.
Definition HighOf (l : Location) : Location :=
  if IsRegisterPair l then RegisterLocation (high l)
  else if IsFpuRegisterPair l then FpuRegisterLocation (high l)
  else if IsDoubleStackSlot l then StackSlot (GetHighStackIndex l 4)
  else NoLocation.

(** ** [MoveOperands] *)

Record MoveOperands := mkMove { source_ : Location; destination_ : Location; type_ : PrimitiveType }.

Definition SetSource (v : Location) (m : MoveOperands) : MoveOperands :=
  mkMove v (destination_ m) (type_ m).
Definition SetDestination (v : Location) (m : MoveOperands) : MoveOperands :=
  mkMove (source_ m) v (type_ m).
Definition IsEliminated (m : MoveOperands) : bool := IsInvalid (source_ m).
Definition IsPending (m : MoveOperands) : bool :=
  IsInvalid (destination_ m) && negb (IsInvalid (source_ m)).
Definition MarkPending : MoveOperands -> MoveOperands := SetDestination NoLocation.
Definition ClearPending (dest : Location) : MoveOperands -> MoveOperands := SetDestination dest.
Definition Blocks (m : MoveOperands) (loc : Location) : bool :=
  negb (IsEliminated m) && OverlapsWith (source_ m) loc.
Definition IsRedundant (m : MoveOperands) : bool :=
  IsEliminated m || IsInvalid (destination_ m) || Equals (source_ m) (destination_ m).
Definition Eliminate (m : MoveOperands) : MoveOperands := mkMove NoLocation NoLocation (type_ m).
Definition Is64BitMove (m : MoveOperands) : bool :=
  match type_ m with kPrimLong | kPrimDouble => true | _ => false end.

(** ** The resolver with swaps *)

Inductive Emitted := EMove (source destination : Location) | ESwap (source destination : Location).

(** [moves_] and the code emitted so far. *)
Record Resolver := mkResolver { moves_ : list MoveOperands; code : list Emitted }.

Definition update_move (i : nat) (f : MoveOperands -> MoveOperands) (s : Resolver) : Resolver :=
  mkResolver (alter f i (moves_ s)) (code s).
Definition EmitMove (m : MoveOperands) (s : Resolver) : Resolver :=
  mkResolver (moves_ s) (code s ++ [EMove (source_ m) (destination_ m)]).
Definition EmitSwap (m : MoveOperands) (s : Resolver) : Resolver :=
  mkResolver (moves_ s) (code s ++ [ESwap (source_ m) (destination_ m)]).

Definition BuildInitialMoveList (parallel_move : list MoveOperands) : list MoveOperands :=
  filter (fun m => IsRedundant m = false) parallel_move.

Definition UpdateSourceOf (updated_location new_source : Location) (m : MoveOperands)
  : MoveOperands :=
  let source := source_ m in
  if Equals (LowOf updated_location) source then SetSource (LowOf new_source) m
  else if Equals (HighOf updated_location) source then SetSource (HighOf new_source) m
  else SetSource new_source m.

(** The loop over [moves_] after a swap. *)
Definition UpdateSources (source swap_destination : Location) (s : Resolver) : Resolver :=
  mkResolver
    (map (fun other_move =>
            if Blocks other_move source then UpdateSourceOf source swap_destination other_move
            else if Blocks other_move swap_destination
            then UpdateSourceOf swap_destination source other_move
            else other_move) (moves_ s))
    (code s).

(** The first unperformed move that a destination is blocked by. *)
Fixpoint find_blocking (destination : Location) (i : nat) (ms : list MoveOperands)
  : option (nat * MoveOperands) :=
  match ms with
  | [] => None
  | m :: ms' => if Blocks m destination then Some (i, m) else find_blocking destination (S i) ms'
  end.

(** [PerformMove] from [ClearPending] on; [required_swap] is nil or the move itself. *)
Definition ResolveMove (index : nat) (destination : Location) (required_swap : option nat)
  (s : Resolver) : option (Resolver * option nat) :=
  let s := update_move index (ClearPending destination) s in
  move ← moves_ s !! index;
  if Equals (source_ move) destination then Some (update_move index Eliminate s, None)
  else
    let swap s :=
      let s := EmitSwap move s in
      let s := update_move index Eliminate s in
      Some (UpdateSources (source_ move) (destination_ move) s, required_swap) in
    match required_swap with
    | Some _ => swap s
    | None =>
        match find_blocking destination 0 (moves_ s) with
        | Some (i, other_move) =>
            if negb (Is64BitMove move) && Is64BitMove other_move then Some (s, Some i)
            else swap s
        | None => Some (update_move index Eliminate (EmitMove move s), None)
        end
    end.

(** [PerformMove] and its loop over the blocking moves from [i] on.  The result is the move that
    must be swapped, if any; [inl] in the loop is the early return.  The restart sets [i] to 0
    and the [for] then increments it. *)
Fixpoint PerformMove (fuel : nat) (index : nat) (s : Resolver) : option (Resolver * option nat) :=
  match fuel with
  | O => None
  | S fuel' =>
      move ← moves_ s !! index;
      if IsRedundant move then Some (update_move index Eliminate s, None)
      else
        let destination := destination_ move in
        let s := update_move index MarkPending s in
        '(s, r) ← PerformBlocking fuel' index destination 0 s;
        match r with
        | inl required_swap => Some (update_move index (ClearPending destination) s, Some required_swap)
        | inr required_swap => ResolveMove index destination required_swap s
        end
  end
with PerformBlocking (fuel : nat) (index : nat) (destination : Location) (i : nat) (s : Resolver)
  : option (Resolver * (nat + option nat)) :=
  match fuel with
  | O => None
  | S fuel' =>
      match moves_ s !! i with
      | None => Some (s, inr None)
      | Some other_move =>
          if Blocks other_move destination && negb (IsPending other_move) then
            '(s, required_swap) ← PerformMove fuel' i s;
            match required_swap with
            | None => PerformBlocking fuel' index destination (S i) s
            | Some k =>
                if Nat.eqb k index then Some (s, inr (Some k))
                else if Nat.eqb k i then PerformBlocking fuel' index destination 1 s
                else Some (s, inl k)
            end
          else PerformBlocking fuel' index destination (S i) s
      end
  end.

(** The two loops of [EmitNativeCode]. *)
Fixpoint PerformAll (fuel : nat) (indices : list nat) (s : Resolver) : option Resolver :=
  match indices with
  | [] => Some s
  | i :: indices' =>
      move ← moves_ s !! i;
      if negb (IsEliminated move) && negb (IsConstant (source_ move)) then
        '(s, _) ← PerformMove fuel i s;
        PerformAll fuel indices' s
      else PerformAll fuel indices' s
  end.

Fixpoint PerformConstants (indices : list nat) (s : Resolver) : option Resolver :=
  match indices with
  | [] => Some s
  | i :: indices' =>
      move ← moves_ s !! i;
      let s := if negb (IsEliminated move) then update_move i Eliminate (EmitMove move s) else s in
      PerformConstants indices' s
  end.

Definition EmitNativeCode (fuel : nat) (parallel_move : list MoveOperands) : option (list Emitted) :=
  let moves := BuildInitialMoveList parallel_move in
  let indices := seq 0 (length moves) in
  s ← PerformAll fuel indices (mkResolver moves []);
  s ← PerformConstants indices s;
  Some (code s).

(** ** What the emitted code does *)

Section Semantics.
Context {A : Type}.
(** The values of the constants. *)
Variable constant_value : Location -> A.

Definition read (st : Location -> A) (l : Location) : A :=
  if IsConstant l then constant_value l else st l.
Definition write (l : Location) (v : A) (st : Location -> A) : Location -> A :=
  fun l' => if l' =? l then v else st l'.

Definition exec1 (e : Emitted) (st : Location -> A) : Location -> A :=
  match e with
  | EMove source destination => write destination (read st source) st
  | ESwap source destination => write destination (st source) (write source (st destination) st)
  end.
Definition exec (l : list Emitted) (st : Location -> A) : Location -> A :=
  fold_left (fun st e => exec1 e st) l st.
End Semantics.

(** A register, a stack slot or a constant of at most 32 bits. *)
Definition small (l : Location) : bool :=
  IsValid l && negb (IsPair l) && negb (IsDoubleStackSlot l).

Lemma small_overlap (a b : Location) : small a = true -> small b = true -> OverlapsWith a b = (a =? b).
Proof.
  intros [[_ Ha1]%andb_prop Ha2]%andb_prop [[_ Hb1]%andb_prop Hb2]%andb_prop.
  apply negb_true_iff in Ha1, Ha2, Hb1, Hb2. unfold OverlapsWith, Contains, Equals.
  rewrite Ha1, Ha2, Hb1, Hb2, (Z.eqb_sym b a). by destruct (a =? b).
Qed.

Lemma small_valid a : small a = true -> a <> 0.
Proof. intros H ->. discriminate H. Qed.

Lemma small_low a : small a = true -> LowOf a = NoLocation /\ HighOf a = NoLocation.
Proof.
  unfold small, LowOf, HighOf, IsPair. intros Ha.
  apply andb_prop in Ha as [[_ H1]%andb_prop H2]. apply negb_true_iff in H1, H2.
  apply orb_false_elim in H1 as [H1 H3]. by rewrite H1, H2, H3.
Qed.

Lemma Blocks_small m l :
  small l = true -> source_ m = 0 \/ small (source_ m) = true ->
  Blocks m l = (source_ m =? l).
Proof.
  intros Hl [E|Hs]; unfold Blocks, IsEliminated, IsInvalid, IsValid, kInvalid.
  - rewrite E, (proj2 (Z.eqb_neq 0 l)); [done|]. intros <-. discriminate Hl.
  - rewrite small_overlap by done. pose proof (small_valid _ Hs).
    by rewrite (proj2 (Z.eqb_neq (source_ m) 0)) by done.
Qed.

Lemma UpdateSourceOf_small upd new m :
  small upd = true -> source_ m <> 0 -> UpdateSourceOf upd new m = SetSource new m.
Proof.
  intros Hu Hm. destruct (small_low upd Hu) as [E1 E2]. unfold UpdateSourceOf, Equals.
  rewrite E1, E2. unfold NoLocation, kInvalid.
  by rewrite (proj2 (Z.eqb_neq 0 (source_ m))) by congruence.
Qed.

Lemma find_blocking_spec d k ms :
  match find_blocking d k ms with
  | Some (i, m) => exists j, i = (k + j)%nat /\ ms !! j = Some m /\ Blocks m d = true
  | None => forall j m, ms !! j = Some m -> Blocks m d = false
  end.
Proof.
  revert k. induction ms as [|m ms IH]; intros k; cbn [find_blocking]; [done|].
  destruct (Blocks m d) eqn:E.
  - exists 0%nat. split_all; [lia|done|done].
  - specialize (IH (S k)). destruct (find_blocking d (S k) ms) as [[i m']|].
    + destruct IH as (j & -> & H1 & H2). exists (S j). split_all; [lia|done|done].
    + intros [|j] m'; cbn; [by intros [= <-]|apply IH].
Qed.

(** ** Correctness for 32-bit moves *)

#[export] Instance MoveOperands_inhabited : Inhabited MoveOperands :=
  populate (mkMove NoLocation NoLocation kPrimNot).

Definition mv (s : Resolver) (i : nat) : MoveOperands := moves_ s !!! i.

Lemma mv_lookup s i : (i < length (moves_ s))%nat -> moves_ s !! i = Some (mv s i).
Proof. intros H. by apply list_lookup_lookup_total_lt. Qed.

Lemma mv_update i f s j : (i < length (moves_ s))%nat ->
  mv (update_move i f s) j = if decide (i = j) then f (mv s j) else mv s j.
Proof.
  intros H. unfold mv, update_move. cbn. rewrite list_lookup_total_alter.
  by destruct (decide (i = j)) as [->|Hn]; case_decide; naive_solver.
Qed.

Lemma update_length i f s : length (moves_ (update_move i f s)) = length (moves_ s).
Proof. apply length_alter. Qed.

Lemma code_update i f s : code (update_move i f s) = code s.
Proof. done. Qed.

Section Correct.
Context {A : Type}.
Variable constant_value : Location -> A.
(** The values before, the destinations, and the values they should get. *)
Variable st0 : Location -> A.
Variable n : nat.
Variable D : nat -> Location.
Variable V : nat -> A.
Hypothesis D_small : forall i, (i < n)%nat -> small (D i) = true /\ IsConstant (D i) = false.
Hypothesis D_inj : forall i j, (i < n)%nat -> (j < n)%nat -> D i = D j -> i = j.

Abbreviation value_of st l := (read constant_value st l).
Abbreviation after s := (exec constant_value (code s) st0).
Abbreviation src s i := (source_ (mv s i)).

(** A move is done, or its source holds its value; it is pending if on the path. *)
Definition move_ok (path : list nat) (st : Location -> A) (i : nat) (m : MoveOperands) : Prop :=
  Is64BitMove m = false /\
  ((source_ m = 0 /\ destination_ m = 0 /\ i ∉ path /\ st (D i) = V i) \/
   (small (source_ m) = true /\ value_of st (source_ m) = V i /\
    destination_ m = (if decide (i ∈ path) then 0 else D i) /\
    (i ∈ path -> IsConstant (source_ m) = false))).

(** [path]: the pending moves, the innermost first; all but the outermost read the destination of
    the one that called for them. *)
Fixpoint chain (path : list nat) (s : Resolver) : Prop :=
  match path with
  | i :: ((p :: _) as rest) => src s i = D p /\ chain rest s
  | _ => True
  end.

Record Inv (path : list nat) (s : Resolver) : Prop := mkInv {
  inv_length : length (moves_ s) = n;
  inv_ok : forall i, (i < n)%nat -> move_ok path (after s) i (mv s i);
  inv_nodup : NoDup path;
  inv_range : forall i, i ∈ path -> (i < n)%nat;
  inv_chain : chain path s;
  inv_untouched : forall l, (forall i, (i < n)%nat -> l <> D i) -> after s l = st0 l
}.

Definition live (path : list nat) (s : Resolver) (i : nat) : bool :=
  bool_decide (i ∉ path) && negb (src s i =? 0).
Definition nlive (path : list nat) (s : Resolver) : nat :=
  length (filter (fun i => live path s i = true) (seq 0 n)).

(** What performing some of the moves off the path leaves of the others. *)
Record Progress (path : list nat) (s s' : Resolver) : Prop := mkProgress {
  pr_live : forall i, (i < n)%nat -> live path s' i = true -> live path s i = true;
  pr_src : forall i p, (i < n)%nat -> i ∉ path -> p ∈ path -> src s' i = D p -> src s i = D p;
  pr_const : forall i, (i < n)%nat -> i ∉ path -> IsConstant (src s i) = true -> mv s' i = mv s i
}.

Lemma Progress_refl path s : Progress path s s.
Proof. by split. Qed.

Lemma Progress_trans path s1 s2 s3 :
  Progress path s1 s2 -> Progress path s2 s3 -> Progress path s1 s3.
Proof.
  intros [H1 H2 H3] [G1 G2 G3]. split.
  - auto.
  - eauto.
  - intros i Hi Hp Hc. rewrite G3; [by apply H3|done|done|]. by rewrite H3.
Qed.

Lemma nlive_le path s s' : Progress path s s' -> (nlive path s' <= nlive path s)%nat.
Proof.
  intros H. unfold nlive. apply submseteq_length, NoDup_submseteq.
  - apply NoDup_filter, NoDup_seq.
  - intros i [Hl Hi]%list_elem_of_filter. apply list_elem_of_filter. split; [|done].
    apply elem_of_seq in Hi. apply (pr_live _ _ _ H); [lia|done].
Qed.


Lemma D_facts i : (i < n)%nat -> D i <> 0 /\ IsConstant (D i) = false.
Proof.
  intros H. destruct (D_small i H) as [H1 H2]. split; [by apply small_valid|done].
Qed.

(** The moves that [D i] is blocked by are those that read it. *)
Lemma blocks_iff path s i j : Inv path s -> (i < n)%nat -> (j < n)%nat ->
  Blocks (mv s j) (D i) = (src s j =? D i).
Proof.
  intros HI Hi Hj. apply Blocks_small; [by apply D_small|].
  destruct (inv_ok _ _ HI j Hj) as [_ [[? _]|[? _]]]; auto.
Qed.

Lemma pending_iff path s j : Inv path s -> (j < n)%nat ->
  src s j <> 0 -> IsPending (mv s j) = bool_decide (j ∈ path).
Proof.
  intros HI Hj Hs. destruct (inv_ok _ _ HI j Hj) as [_ [[? _]|(Hm & _ & Hd & _)]]; [done|].
  unfold IsPending, IsInvalid, IsValid, kInvalid. rewrite negb_involutive, Hd.
  rewrite (proj2 (Z.eqb_neq _ 0) Hs). destruct (decide (j ∈ path)) as [Hp|Hp].
  - by rewrite bool_decide_eq_true_2.
  - rewrite bool_decide_eq_false_2 by done. destruct (D_facts j Hj) as [H0 _].
    by rewrite (proj2 (Z.eqb_neq _ 0) H0).
Qed.

Lemma path_ok path s j : Inv path s -> j ∈ path ->
  small (src s j) = true /\ value_of (after s) (src s j) = V j /\ destination_ (mv s j) = 0 /\
  IsConstant (src s j) = false.
Proof.
  intros HI Hp. pose proof (inv_range _ _ HI j Hp) as Hj.
  destruct (inv_ok _ _ HI j Hj) as [_ [(_ & _ & Hn & _)|(Hm & Hv & Hd & Hc)]]; [done|].
  rewrite decide_True in Hd by done. auto.
Qed.

(** All but the outermost of the path read the destination of a move of the path. *)
Lemma chain_spec path s j : chain path s -> j ∈ path ->
  last path = Some j \/ exists p, p ∈ tail path /\ src s j = D p.
Proof.
  induction path as [|i [|p path] IH]; [by intros _ ?%not_elem_of_nil| |].
  - intros _ ->%list_elem_of_singleton. by left.
  - intros [H Hc] [->|Hj]%elem_of_cons; [right; exists p; split; [left|done]|].
    destruct (IH Hc Hj) as [?|(q & Hq & Hs)]; [by left|right].
    exists q. split; [by right|done].
Qed.

Lemma chain_tail i path s : chain (i :: path) s -> chain path s.
Proof. destruct path; [done|]. by intros [_ ?]. Qed.

Lemma tail_elem (l : list nat) x : x ∈ tail l -> x ∈ l.
Proof. destruct l; [done|]. by right. Qed.

Lemma chain_ext path s s' : NoDup path ->
  (forall j, j ∈ path -> last path = Some j \/ src s' j = src s j) -> chain path s -> chain path s'.
Proof.
  induction path as [|i [|p path] IH]; [done|done|]. intros [Hi Hnd]%NoDup_cons H [Hs Hc]. split.
  - destruct (H i) as [Hl| ->]; [set_solver| |done].
    destruct Hi. by apply last_Some_elem_of.
  - apply IH; [done| |done]. intros j Hj. apply (H j). set_solver.
Qed.

(** The innermost move of the path is done and leaves the path. *)
Record Retire (index : nat) (path : list nat) (s s' : Resolver) : Prop := mkRetire {
  rt_length : length (moves_ s') = n;
  rt_index : mv s' index = Eliminate (mv s index);
  rt_done : after s' (D index) = V index;
  rt_other : forall j, (j < n)%nat -> j <> index ->
    mv s' j = SetSource (src s' j) (mv s j) /\
    (src s j = 0 /\ src s' j = 0 /\ after s' (D j) = after s (D j) \/
     small (src s j) = true /\ small (src s' j) = true /\
     value_of (after s') (src s' j) = value_of (after s) (src s j));
  rt_const : forall j, (j < n)%nat -> j <> index ->
    IsConstant (src s' j) = IsConstant (src s j) /\
    (IsConstant (src s j) = true -> src s' j = src s j);
  rt_path : forall j, j ∈ path -> last path = Some j \/ src s' j = src s j;
  rt_src : forall j p, (j < n)%nat -> j ∉ path -> j <> index -> p ∈ path ->
    src s' j = D p -> src s j = D p;
  rt_untouched : forall l, (forall i, (i < n)%nat -> l <> D i) -> after s' l = after s l
}.

Lemma SetSource_fields v m :
  destination_ (SetSource v m) = destination_ m /\ Is64BitMove (SetSource v m) = Is64BitMove m.
Proof. done. Qed.

Lemma Retire_Inv index path s s' : Inv (index :: path) s -> Retire index path s s' -> Inv path s'.
Proof.
  intros HI HR. pose proof (inv_nodup _ _ HI) as [Hi Hnd]%NoDup_cons.
  split; [apply HR| |done| | |].
  - intros j Hj. destruct (inv_ok _ _ HI j Hj) as [H64 Hok].
    destruct (decide (j = index)) as [->|Hne].
    + rewrite (rt_index _ _ _ _ HR). split; [done|left]. split_all; [done|done|done|].
      apply HR.
    + destruct (rt_other _ _ _ _ HR j Hj Hne) as [E Ho]. rewrite E. split; [done|].
      destruct (rt_const _ _ _ _ HR j Hj Hne) as [Hc _].
      destruct Hok as [(H0 & Hd & Hp & Hv)|(Hs & Hv & Hd & Hp)].
      * destruct Ho as [(_ & H1 & H2)|[Hs _]]; [|by apply small_valid in Hs].
        left. cbn. rewrite Hd, H2. split_all; [done|done|set_solver|done].
      * destruct Ho as [[H0 _]|(_ & H1 & H2)]; [by apply small_valid in Hs|].
        right. cbn. rewrite H2, Hd, Hc. split_all; [done|done| |].
        -- destruct (decide (j ∈ index :: path)), (decide (j ∈ path)); set_solver.
        -- intros Hjp. apply Hp. by right.
  - intros j Hj. apply (inv_range _ _ HI). by right.
  - apply chain_ext with s; [done|apply HR|]. pose proof (inv_chain _ _ HI) as Hc.
    destruct path; [done|apply Hc].
  - intros l Hl. rewrite (rt_untouched _ _ _ _ HR) by done. by apply HI.
Qed.

Lemma src_pending index s j : (index < length (moves_ s))%nat ->
  src (update_move index MarkPending s) j = src s j.
Proof. intros H. rewrite mv_update by done. by case_decide. Qed.

Lemma Retire_Progress index path s s2 s3 :
  Inv path s -> (index < n)%nat -> index ∉ path -> IsConstant (src s index) = false ->
  src s index <> 0 ->
  Progress (index :: path) (update_move index MarkPending s) s2 -> Retire index path s2 s3 ->
  Progress path s s3.
Proof.
  intros HI Hi Hp Hk H0 HP HR. pose proof (inv_length _ _ HI) as Hl.
  assert (Hsrc : forall j, src (update_move index MarkPending s) j = src s j)
    by (intros; apply src_pending; lia).
  split.
  - intros j Hj [Hjp Hjs]%andb_prop. apply bool_decide_eq_true in Hjp. unfold live.
    rewrite bool_decide_eq_true_2 by done. destruct (decide (j = index)) as [->|Hne].
    { by rewrite (proj2 (Z.eqb_neq _ 0) H0). }
    apply negb_true_iff, Z.eqb_neq in Hjs.
    assert (Hl2 : live (index :: path) s2 j = true).
    { unfold live. rewrite bool_decide_eq_true_2 by set_solver.
      destruct (rt_other _ _ _ _ HR j Hj Hne) as [_ [(_ & ? & _)|(Hs & _)]]; [done|].
      by rewrite (proj2 (Z.eqb_neq _ 0) (small_valid _ Hs)). }
    apply (pr_live _ _ _ HP j Hj) in Hl2. unfold live in Hl2. rewrite Hsrc in Hl2.
    by apply andb_prop in Hl2 as [_ ->].
  - intros j p Hj Hjp Hpp Hs. destruct (decide (j = index)) as [->|Hne].
    { rewrite (rt_index _ _ _ _ HR) in Hs. cbn in Hs. pose proof (inv_range _ _ HI p Hpp) as Hpn.
      by destruct (D_facts p Hpn) as [? _]. }
    rewrite <- Hsrc. apply (pr_src _ _ _ HP); [done|set_solver|set_solver|].
    by apply (rt_src _ _ _ _ HR).
  - intros j Hj Hjp Hc. destruct (decide (j = index)) as [->|Hne]; [congruence|].
    pose proof (pr_const _ _ _ HP j Hj) as H2. rewrite Hsrc in H2. specialize (H2 ltac:(set_solver) Hc).
    rewrite mv_update, decide_False in H2 by (done || lia).
    destruct (rt_const _ _ _ _ HR j Hj Hne) as [_ Hsame].
    destruct (rt_other _ _ _ _ HR j Hj Hne) as [-> _].
    rewrite Hsame, H2; [by destruct (mv s j)|by rewrite H2].
Qed.

Lemma pending_Inv index path s :
  Inv path s -> (index < n)%nat -> index ∉ path -> src s index <> 0 ->
  IsConstant (src s index) = false -> chain (index :: path) s ->
  Inv (index :: path) (update_move index MarkPending s).
Proof.
  intros HI Hi Hp H0 Hk Hc. pose proof (inv_length _ _ HI) as Hl.
  assert (Hsrc : forall j, src (update_move index MarkPending s) j = src s j)
    by (intros; apply src_pending; lia).
  split.
  - by rewrite update_length.
  - intros j Hj. rewrite mv_update, code_update by lia. destruct (inv_ok _ _ HI j Hj) as [H64 Hok].
    destruct (decide (index = j)) as [<-|Hd]; (split; [done|]).
    + destruct Hok as [[? _]|(Hs & Hv & _)]; [done|]. right. cbn.
      rewrite decide_True by set_solver. done.
    + destruct Hok as [(? & ? & ? & ?)|(Hs & Hv & Hd' & Hkk)]; [left|right].
      * split_all; [done|done|set_solver|done].
      * split_all; [done|done| |].
        -- rewrite Hd'. destruct (decide (j ∈ index :: path)), (decide (j ∈ path)); set_solver.
        -- intros [->|Hjp]%elem_of_cons; auto.
  - apply NoDup_cons. split; [done|apply HI].
  - intros j [->|Hj]%elem_of_cons; [done|by apply (inv_range _ _ HI)].
  - destruct path as [|p path]; [done|]. destruct Hc as [Hs Hc]. split; [by rewrite Hsrc|].
    apply chain_ext with s; [apply HI| |done]. intros j _. right. apply Hsrc.
  - apply HI.
Qed.

Lemma src_clear index path s j d : Inv path s -> (index < n)%nat ->
  mv (update_move index (ClearPending d) s) j =
  if decide (index = j) then mkMove (src s j) d (type_ (mv s j)) else mv s j.
Proof. intros HI Hi. apply mv_update. by rewrite (inv_length _ _ HI). Qed.

(** The move reads its own destination by now. *)
Lemma Retire_redundant index path s s' : Inv (index :: path) s ->
  src s index = D index -> code s' = code s -> length (moves_ s') = n ->
  (forall j, (j < n)%nat -> mv s' j = if decide (index = j) then Eliminate (mv s j) else mv s j) ->
  Retire index path s s'.
Proof.
  intros HI Hs Hcode Hl Hmv. pose proof (inv_range _ _ HI index ltac:(set_solver)) as Hi.
  assert (Hne : forall j, (j < n)%nat -> j <> index -> mv s' j = mv s j).
  { intros j Hj Hne. rewrite Hmv, decide_False by done. done. }
  assert (Hnep : forall j, j ∈ path -> j <> index /\ (j < n)%nat).
  { intros j Hj. pose proof (inv_nodup _ _ HI) as [Hp _]%NoDup_cons.
    split; [set_solver|]. apply (inv_range _ _ HI). by right. }
  split.
  - done.
  - by rewrite Hmv, decide_True.
  - rewrite Hcode. destruct (path_ok _ _ index HI) as (_ & Hv & _ & Hk); [set_solver|].
    unfold read in Hv. by rewrite Hk, Hs in Hv.
  - intros j Hj Hjn. rewrite Hne, Hcode by done. split; [by destruct (mv s j)|].
    destruct (inv_ok _ _ HI j Hj) as [_ [[? _]|[? _]]]; auto.
  - intros j Hj Hjn. by rewrite Hne.
  - intros j Hj. destruct (Hnep j Hj). right. by rewrite Hne.
  - intros j p Hj _ Hjn _. by rewrite Hne.
  - by rewrite Hcode.
Qed.

Lemma after_app s s' e : code s' = code s ++ [e] ->
  after s' = exec1 constant_value e (after s).
Proof. intros ->. unfold exec. by rewrite fold_left_app. Qed.

Lemma off_path index path s j : Inv (index :: path) s -> j ∈ path -> j <> index /\ (j < n)%nat.
Proof.
  intros HI Hj. pose proof (inv_nodup _ _ HI) as [Hp _]%NoDup_cons.
  split; [set_solver|]. apply (inv_range _ _ HI). by right.
Qed.

Lemma src_cases path s j : Inv path s -> (j < n)%nat ->
  src s j = 0 /\ after s (D j) = V j \/ small (src s j) = true /\ value_of (after s) (src s j) = V j.
Proof. intros HI Hj. destruct (inv_ok _ _ HI j Hj) as [_ [(? & _ & _ & ?)|(? & ? & _)]]; auto. Qed.

(** A move that nothing blocks. *)
Lemma Retire_move index path s s' : Inv (index :: path) s ->
  (forall j, (j < n)%nat -> src s j <> D index) ->
  code s' = code s ++ [EMove (src s index) (D index)] -> length (moves_ s') = n ->
  (forall j, (j < n)%nat -> mv s' j = if decide (index = j) then Eliminate (mv s j) else mv s j) ->
  Retire index path s s'.
Proof.
  intros HI Hb Hcode Hl Hmv. pose proof (inv_range _ _ HI index ltac:(set_solver)) as Hi.
  apply after_app in Hcode. cbn [exec1] in Hcode.
  assert (Hne : forall j, (j < n)%nat -> j <> index -> mv s' j = mv s j).
  { intros j Hj Hne. rewrite Hmv, decide_False by done. done. }
  assert (Hw : forall l, l <> D index -> after s' l = after s l).
  { intros l Hld. rewrite Hcode. unfold write. by rewrite (proj2 (Z.eqb_neq _ _) Hld). }
  split.
  - done.
  - by rewrite Hmv, decide_True.
  - destruct (path_ok _ _ index HI) as (_ & Hv & _ & _); [set_solver|].
    rewrite Hcode. unfold write. by rewrite Z.eqb_refl.
  - intros j Hj Hjn. rewrite (Hne j) by done. split; [by destruct (mv s j)|].
    destruct (src_cases _ _ j HI Hj) as [[? _]|[? _]]; [left|right].
    + split_all; [done|done|]. apply Hw. intros E%D_inj; done.
    + split_all; [done|done|]. unfold read. destruct (IsConstant (src s j)); [done|].
      by apply Hw, Hb.
  - intros j Hj Hjn. by rewrite Hne.
  - intros j Hj. destruct (off_path _ _ _ j HI Hj). right. by rewrite Hne.
  - intros j p Hj _ Hjn _. by rewrite Hne.
  - intros l Hul. by apply Hw, Hul.
Qed.

Definition swapped (a d l : Location) : Location :=
  if l =? a then d else if l =? d then a else l.

Lemma swapped_cases a d l :
  l = a /\ swapped a d l = d \/ l <> a /\ l = d /\ swapped a d l = a \/
  l <> a /\ l <> d /\ swapped a d l = l.
Proof. unfold swapped. destruct (Z.eqb_spec l a), (Z.eqb_spec l d); auto. Qed.

(** A move that the outermost pending move blocks. *)
Lemma Retire_swap index path s s' k : Inv (index :: path) s ->
  (forall j, (j < n)%nat -> j ∉ path -> src s j <> D index) ->
  k ∈ path -> src s k = D index ->
  code s' = code s ++ [ESwap (src s index) (D index)] -> length (moves_ s') = n ->
  (forall j, (j < n)%nat ->
     mv s' j = if decide (index = j) then Eliminate (mv s j)
               else SetSource (swapped (src s index) (D index) (src s j)) (mv s j)) ->
  Retire index path s s'.
Proof.
  intros HI Hb Hk Hks Hcode Hl Hmv. pose proof (inv_range _ _ HI index ltac:(set_solver)) as Hi.
  destruct (path_ok _ _ index HI) as (Has & Hv & _ & Hka); [set_solver|].
  destruct (D_small index Hi) as [Hds Hkd].
  pose proof (inv_chain _ _ HI) as Hc.
  assert (exists p, p ∈ path /\ src s index = D p /\ p ∉ tail path /\ index ∉ tail path)
    as (p & Hp & Hap & Hhead).
  { pose proof (inv_nodup _ _ HI) as [Hn1 Hn2]%NoDup_cons. destruct path as [|p path']; [set_solver|].
    apply NoDup_cons in Hn2. exists p. split; [set_solver|]. split; [apply Hc|].
    split; [apply Hn2|set_solver]. }
  destruct (off_path _ _ _ p HI Hp) as [Hpi Hpn].
  assert (Had : src s index <> D index) by (rewrite Hap; intros E%D_inj; done).
  apply after_app in Hcode. cbn [exec1] in Hcode.
  assert (Hne : forall j, (j < n)%nat -> j <> index ->
    mv s' j = SetSource (swapped (src s index) (D index) (src s j)) (mv s j)).
  { intros j Hj Hne. by rewrite Hmv, decide_False. }
  assert (Hw : forall l, after s' l = after s (swapped (src s index) (D index) l)).
  { intros l. rewrite Hcode. unfold write.
    destruct (swapped_cases (src s index) (D index) l) as [[-> ->]|[(? & -> & ->)|(? & ? & ->)]].
    - by rewrite (proj2 (Z.eqb_neq _ _) Had), Z.eqb_refl.
    - by rewrite Z.eqb_refl.
    - by rewrite !(proj2 (Z.eqb_neq _ _)). }
  set (a := src s index) in *. set (d := D index) in *.
  split.
  - done.
  - by rewrite Hmv, decide_True.
  - rewrite Hw. fold d. unfold read in Hv. rewrite Hka in Hv.
    destruct (swapped_cases a d d) as [[E _]|[(_ & _ & ->)|(_ & E & _)]]; congruence.
  - intros j Hj Hjn. rewrite (Hne j) by done. split; [done|]. cbn.
    destruct (src_cases _ _ j HI Hj) as [[E _]|[Hsj _]]; [left|right].
    + rewrite E, Hw. apply small_valid in Has, Hds.
      destruct (swapped_cases a d 0) as [[? _]|[(_ & ? & _)|(_ & _ & ->)]]; [done|done|].
      split_all; [done|done|].
      destruct (swapped_cases a d (D j)) as [[Ha _]|[(_ & E' & _)|(_ & _ & ->)]]; [| |done].
      * rewrite Hap in Ha. apply D_inj in Ha; [|done|done]. subst j.
        destruct (path_ok _ _ p HI) as (Hsp & _); [set_solver|]. by apply small_valid in Hsp.
      * apply D_inj in E'; done.
    + split; [done|]. unfold read.
      destruct (swapped_cases a d (src s j)) as [[E ->]|[(_ & E & ->)|(Ha & Hd & E)]].
      * rewrite Hw, Hkd, E, Hka. split; [done|].
        by destruct (swapped_cases a d d) as [[? _]|[(_ & _ & ->)|(_ & ? & _)]].
      * rewrite Hw, Hka, E, Hkd. split; [done|].
        by destruct (swapped_cases a d a) as [[_ ->]|[(? & _)|(? & _)]].
      * rewrite E. split; [done|]. destruct (IsConstant (src s j)); [done|]. by rewrite Hw, E.
  - intros j Hj Hjn. rewrite (Hne j) by done. cbn.
    destruct (swapped_cases a d (src s j)) as [[-> ->]|[(_ & -> & ->)|(_ & _ & ->)]];
      split; congruence.
  - intros j Hj. destruct (off_path _ _ _ j HI Hj) as [Hji Hjn].
    destruct (chain_spec path s j) as [?|(q & Hq & Hs)]; [by apply chain_tail in Hc|done|by left|].
    right. rewrite Hne by done. cbn. rewrite Hs. destruct Hhead as [Hpq Hiq].
    assert (q < n)%nat by (apply (inv_range _ _ HI); right; by apply tail_elem).
    destruct (swapped_cases a d (D q)) as [[E _]|[(_ & E & _)|(_ & _ & ->)]]; [| |done].
    + rewrite Hap in E. apply D_inj in E; [|done|done]. by subst.
    + apply D_inj in E; [|done|done]. by subst.
  - intros j q Hj Hjp Hjn Hq. rewrite Hne by done. cbn. specialize (Hb j Hj Hjp).
    destruct (off_path _ _ _ q HI Hq) as [Hqi Hqn].
    destruct (swapped_cases a d (src s j)) as [[E ->]|[(_ & E & ->)|(_ & _ & ->)]]; [|done|done].
    intros E'%D_inj; done.
  - intros l Hul. rewrite Hw.
    destruct (swapped_cases a d l) as [[E _]|[(_ & E & _)|(_ & _ & ->)]]; [|by apply Hul in E|done].
    rewrite Hap in E. by apply Hul in E.
Qed.

Lemma mv_UpdateSources a d s j : (j < length (moves_ s))%nat ->
  mv (UpdateSources a d s) j =
  (if Blocks (mv s j) a then UpdateSourceOf a d (mv s j)
   else if Blocks (mv s j) d then UpdateSourceOf d a (mv s j) else mv s j).
Proof.
  intros H. unfold mv, UpdateSources. cbn. apply list_lookup_total_fmap with (f := fun _ => _).
  done.
Qed.

(** After a swap, the sources are exchanged. *)
Lemma swap_sources a d s j : (j < length (moves_ s))%nat ->
  small a = true -> small d = true -> src s j = 0 \/ small (src s j) = true ->
  mv (UpdateSources a d s) j = SetSource (swapped a d (src s j)) (mv s j).
Proof.
  intros Hj Ha Hd Hs. rewrite mv_UpdateSources, !Blocks_small by done. unfold swapped.
  pose proof (small_valid _ Ha). pose proof (small_valid _ Hd).
  destruct (Z.eqb_spec (src s j) a) as [E|_]; [by apply UpdateSourceOf_small; [|congruence]|].
  destruct (Z.eqb_spec (src s j) d) as [E|_]; [by apply UpdateSourceOf_small; [|congruence]|].
  by destruct (mv s j).
Qed.

Lemma ResolveMove_spec index path s : Inv (index :: path) s ->
  (forall j, (j < n)%nat -> j ∉ index :: path -> src s j <> D index) ->
  exists s', ResolveMove index (D index) None s = Some (s', None) /\ Retire index path s s'.
Proof.
  intros HI Hb. pose proof (inv_range _ _ HI index ltac:(set_solver)) as Hi.
  pose proof (inv_length _ _ HI) as Hl. unfold ResolveMove.
  set (s1 := update_move index _ s).
  assert (Hl1 : length (moves_ s1) = n) by (by unfold s1; rewrite update_length).
  assert (Hm : forall j, mv s1 j = if decide (index = j) then mkMove (src s j) (D index) (type_ (mv s j)) else mv s j)
    by (intros j; by apply (src_clear _ _ _ _ _ HI)).
  assert (Hs1 : forall j, src s1 j = src s j) by (intros j; rewrite Hm; by case_decide).
  assert (HE : forall j, (j < n)%nat -> mv (update_move index Eliminate s1) j =
                 if decide (index = j) then Eliminate (mv s j) else mv s j).
  { intros j Hj. rewrite mv_update, Hm by lia. by case_decide. }
  rewrite mv_lookup by lia. cbn [mbind option_bind]. rewrite Hs1. unfold Equals.
  destruct (Z.eqb_spec (src s index) (D index)) as [E|Hne].
  { eexists. split; [done|]. apply Retire_redundant; [done|done|done| |done].
    by rewrite update_length. }
  pose proof (find_blocking_spec (D index) 0 (moves_ s1)) as Hfb.
  destruct (find_blocking (D index) 0 (moves_ s1)) as [[i other]|].
  - destruct Hfb as (j & -> & Hj & Hbj). cbn [Nat.add].
    assert (Hjn : (j < n)%nat) by (rewrite <- Hl1; by eapply lookup_lt_Some).
    rewrite mv_lookup in Hj by lia. injection Hj as <-.
    assert (Hsm : forall j, (j < n)%nat -> src s1 j = 0 \/ small (src s1 j) = true).
    { intros k Hk. rewrite Hs1. destruct (src_cases _ _ k HI Hk) as [[? _]|[? _]]; auto. }
    rewrite Blocks_small in Hbj by (by try apply D_small; auto).
    apply Z.eqb_eq in Hbj. rewrite Hs1 in Hbj.
    assert (H64 : forall k, (k < n)%nat -> Is64BitMove (mv s1 k) = false).
    { intros k Hk. rewrite Hm. destruct (inv_ok _ _ HI k Hk) as [H _]. by case_decide. }
    rewrite !H64 by done. cbn [negb andb].
    assert (Hjp : j ∈ path).
    { destruct (decide (j ∈ index :: path)) as [Hin|Hn]; [|by destruct (Hb j Hjn Hn)].
      apply elem_of_cons in Hin as [->|?]; [done|done]. }
    destruct (path_ok _ _ index HI) as (Has & _); [set_solver|].
    eexists. split; [done|]. apply Retire_swap with j; try done.
    + intros k Hk Hkp. destruct (decide (k = index)) as [->|]; [done|]. apply Hb; set_solver.
    + cbn. by rewrite Hs1, Hm, decide_True.
    + cbn. rewrite length_map, length_alter. apply Hl1.
    + intros k Hk. rewrite Hm, decide_True by done. cbn [destination_].
      rewrite swap_sources; [| |done|by apply D_small|].
      * rewrite mv_update by (change (index < length (moves_ s1))%nat; lia). change (mv (EmitSwap _ s1) k) with (mv s1 k).
        rewrite Hm. case_decide; [|done]. subst k. cbn. unfold swapped.
        apply small_valid in Has. destruct (D_facts index Hi) as [Hd0 _].
        by rewrite !(proj2 (Z.eqb_neq _ _)) by done.
      * rewrite update_length. change (k < length (moves_ s1))%nat. lia.
      * rewrite mv_update by (change (index < length (moves_ s1))%nat; lia). change (mv (EmitSwap _ s1) k) with (mv s1 k).
        case_decide; [by left|]. auto.
  - eexists. split; [done|]. apply Retire_move; try done.
    + intros j Hj E. specialize (Hfb j (mv s1 j) ltac:(apply mv_lookup; lia)).
      rewrite Blocks_small, Hs1 in Hfb; [by apply Z.eqb_neq in Hfb|by apply D_small|].
      rewrite Hs1. destruct (src_cases _ _ j HI Hj) as [[? _]|[? _]]; auto.
    + cbn. by rewrite Hs1, Hm, decide_True.
    + cbn. by rewrite length_alter.
Qed.

Lemma live_off path s i : live path s i = true <-> i ∉ path /\ src s i <> 0.
Proof.
  unfold live. rewrite andb_true_iff, bool_decide_eq_true, negb_true_iff, Z.eqb_neq. done.
Qed.

Lemma nlive_pending index path s : length (moves_ s) = n -> (index < n)%nat ->
  index ∉ path -> src s index <> 0 ->
  (nlive (index :: path) (update_move index MarkPending s) < nlive path s)%nat.
Proof.
  intros Hl Hi Hp H0. unfold nlive.
  set (f := filter (fun i => live (index :: path) _ i = true) (seq 0 n)).
  change (length (index :: f) <= nlive path s)%nat. apply submseteq_length, NoDup_submseteq.
  - apply NoDup_cons. split; [|apply NoDup_filter, NoDup_seq].
    intros [[Hn _]%live_off _]%list_elem_of_filter. set_solver.
  - intros i Hin. apply list_elem_of_filter. rewrite live_off.
    apply elem_of_cons in Hin as [->|[[Hn Hs]%live_off Hin]%list_elem_of_filter].
    + split; [done|]. apply elem_of_seq. lia.
    + rewrite src_pending in Hs by lia. set_solver.
Qed.

Definition moves_result (index : nat) (path : list nat) (s : Resolver)
  (r : option (Resolver * option nat)) : Prop :=
  exists s', r = Some (s', None) /\ Inv path s' /\ Progress path s s' /\ src s' index = 0.

Definition blocking_result (index : nat) (path : list nat) (s : Resolver)
  (r : option (Resolver * (nat + option nat))) : Prop :=
  exists s', r = Some (s', inr None) /\ Inv (index :: path) s' /\ Progress (index :: path) s s' /\
    forall j, (j < n)%nat -> j ∉ index :: path -> src s' j <> D index.

Definition PerformMove_ok (fuel : nat) : Prop := forall index path s,
  Inv path s -> (index < n)%nat -> index ∉ path -> src s index <> 0 ->
  IsConstant (src s index) = false -> chain (index :: path) s ->
  ((n + 2) * nlive path s <= fuel)%nat -> moves_result index path s (PerformMove fuel index s).

Definition PerformBlocking_ok (fuel : nat) : Prop := forall index path i s,
  Inv (index :: path) s -> (i <= n)%nat ->
  (forall j, (j < i)%nat -> j ∉ index :: path -> src s j <> D index) ->
  ((n + 2) * nlive (index :: path) s + (n - i) + 1 <= fuel)%nat ->
  blocking_result index path s (PerformBlocking fuel index (D index) i s).

Lemma PerformBlocking_step fuel : PerformMove_ok fuel -> PerformBlocking_ok fuel ->
  PerformBlocking_ok (S fuel).
Proof.
  intros IHm IHb index path i s HI Hi Hb Hf. pose proof (inv_length _ _ HI) as Hl.
  pose proof (inv_range _ _ HI index ltac:(set_solver)) as Hix. cbn [PerformBlocking].
  destruct (decide (i < n)%nat) as [Hin|Hin].
  2:{ rewrite (lookup_ge_None_2 (moves_ s)) by lia. exists s. split_all; [done|done|apply Progress_refl|].
      intros j Hj. apply Hb. lia. }
  rewrite mv_lookup, (blocks_iff (index :: path)) by (done || lia).
  destruct (Z.eqb_spec (src s i) (D index)) as [E|Hne]; cbn [andb].
  2:{ apply IHb; [done|lia| |lia]. intros j Hj Hjp.
      destruct (decide (j = i)) as [->|]; [done|apply Hb; [lia|done]]. }
  destruct (D_facts index Hix) as [HD0 HDk].
  assert (H0 : src s i <> 0) by congruence. rewrite (pending_iff (index :: path)) by done.
  destruct (decide (i ∈ index :: path)) as [Hip|Hip].
  { rewrite bool_decide_eq_true_2 by done. apply IHb; [done|lia| |lia]. intros j Hj Hjp.
    destruct (decide (j = i)) as [->|]; [done|apply Hb; [lia|done]]. }
  rewrite bool_decide_eq_false_2 by done. cbn [negb].
  destruct (IHm i (index :: path) s) as (s' & -> & HI' & HP & Hdone); try done.
  - by rewrite E.
  - split; [done|apply HI].
  - lia.
  - cbn [mbind option_bind]. pose proof (nlive_le _ _ _ HP) as Hle.
    destruct (IHb index path (S i) s') as (s2 & -> & HI2 & HP2 & Hend); [done|lia| |nia|].
    + intros j Hj Hjp Hs. destruct (decide (j = i)) as [->|]; [congruence|].
      apply (Hb j); [lia|done|]. apply (pr_src _ _ _ HP); [lia|done|set_solver|done].
    + exists s2. split_all; [done|done|by eapply Progress_trans|done].
Qed.

Lemma PerformMove_step fuel : PerformBlocking_ok fuel -> PerformMove_ok (S fuel).
Proof.
  intros IHb index path s HI Hi Hp H0 Hk Hc Hf. pose proof (inv_length _ _ HI) as Hl.
  destruct (D_facts index Hi) as [HD0 HDk]. cbn [PerformMove].
  rewrite mv_lookup by lia. cbn [mbind option_bind].
  destruct (inv_ok _ _ HI index Hi) as [_ [[? _]|(_ & _ & Hd & _)]]; [done|].
  rewrite decide_False in Hd by done.
  assert (IsRedundant (mv s index) = (src s index =? D index)) as ->.
  { unfold IsRedundant, IsEliminated, IsInvalid, IsValid, Equals, kInvalid.
    by rewrite Hd, !(proj2 (Z.eqb_neq _ 0)). }
  pose proof (pending_Inv _ _ _ HI Hi Hp H0 Hk Hc) as HI1.
  destruct (Z.eqb_spec (src s index) (D index)) as [E|Hne].
  - assert (HR : Retire index path (update_move index MarkPending s) (update_move index Eliminate s)).
    { apply Retire_redundant; [done|by rewrite src_pending by lia|done|by rewrite update_length|].
      intros j Hj. rewrite !mv_update by lia. by case_decide. }
    eexists. split_all; [done|by eapply Retire_Inv|by eapply Retire_Progress; [..|apply Progress_refl|]|].
    by rewrite (rt_index _ _ _ _ HR).
  - rewrite Hd. pose proof (nlive_pending index path s Hl Hi Hp H0) as Hlt.
    destruct (IHb index path 0%nat _ HI1) as (s2 & -> & HI2 & HP & Hb); [lia|lia|nia|].
    cbn [mbind option_bind].
    destruct (ResolveMove_spec index path s2 HI2 Hb) as (s3 & -> & HR).
    exists s3. split_all; [done|by eapply Retire_Inv|by eapply Retire_Progress|].
    by rewrite (rt_index _ _ _ _ HR).
Qed.

Lemma Perform_spec fuel : PerformMove_ok fuel /\ PerformBlocking_ok fuel.
Proof.
  induction fuel as [|fuel [IHm IHb]].
  - split; [|intros index path i s HI Hi _ Hf; lia].
    intros index path s HI Hi Hp H0 Hk Hc Hf.
    pose proof (nlive_pending index path s (inv_length _ _ HI) Hi Hp H0). nia.
  - split; [by apply PerformMove_step|by apply PerformBlocking_step].
Qed.

Lemma PerformAll_spec fuel k s : ((n + 2) * n <= fuel)%nat -> (k <= n)%nat -> Inv [] s ->
  (forall j, (j < k)%nat -> src s j = 0 \/ IsConstant (src s j) = true) ->
  exists s', PerformAll fuel (seq k (n - k)) s = Some s' /\ Inv [] s' /\
    forall j, (j < n)%nat -> src s' j = 0 \/ IsConstant (src s' j) = true.
Proof.
  intros Hf. remember (n - k)%nat as c eqn:Ec. revert k s Ec.
  induction c as [|c IH]; intros k s Ec Hk HI Hdone; cbn [seq PerformAll].
  { exists s. split_all; [done|done|]. intros j Hj. apply Hdone. lia. }
  rewrite mv_lookup by (rewrite (inv_length _ _ HI); lia). cbn [mbind option_bind].
  unfold IsEliminated, IsInvalid, IsValid, kInvalid. rewrite !negb_involutive.
  assert (Hnext : forall s', Inv [] s' -> Progress [] s s' ->
            src s' k = 0 \/ IsConstant (src s' k) = true ->
            exists s'', PerformAll fuel (seq (S k) c) s' = Some s'' /\ Inv [] s'' /\
              forall j, (j < n)%nat -> src s'' j = 0 \/ IsConstant (src s'' j) = true).
  { intros s' HI' HP Hks. apply IH; [lia|lia|done|]. intros j Hj.
    destruct (decide (j = k)) as [->|]; [done|]. destruct (Hdone j) as [E|E]; [lia| |].
    - left. destruct (decide (src s' j = 0)) as [|Hn]; [done|].
      assert (Hl : live [] s' j = true) by (apply live_off; split; [set_solver|done]).
      apply (pr_live _ _ _ HP) in Hl; [|lia]. by apply live_off in Hl as [_ ?].
    - right. rewrite (pr_const _ _ _ HP j); [done|lia|set_solver|done]. }
  destruct (Z.eqb_spec (src s k) 0) as [E|Hne]; cbn [negb andb].
  { apply Hnext; [done|apply Progress_refl|by left]. }
  destruct (IsConstant (src s k)) eqn:Ek; cbn [negb andb].
  { apply Hnext; [done|apply Progress_refl|by right]. }
  destruct (Perform_spec fuel) as [HM _].
  destruct (HM k [] s) as (s' & -> & HI' & HP & E0); try done; [lia|set_solver| |].
  - assert (nlive [] s <= n)%nat; [|nia]. unfold nlive.
    etransitivity; [apply length_filter|]. by rewrite length_seq.
  - cbn [mbind option_bind]. apply Hnext; [done|done|by left].
Qed.

Lemma move_constant k s : Inv [] s -> (k < n)%nat -> src s k <> 0 ->
  (forall j, (j < n)%nat -> src s j = 0 \/ IsConstant (src s j) = true) ->
  Inv [] (update_move k Eliminate (EmitMove (mv s k) s)).
Proof.
  intros HI Hk H0 Hc. pose proof (inv_length _ _ HI) as Hl.
  set (s' := update_move k Eliminate _).
  assert (Hmv : forall j, mv s' j = if decide (k = j) then Eliminate (mv s j) else mv s j).
  { intros j. unfold s'. rewrite mv_update; [done|]. cbn. lia. }
  destruct (inv_ok _ _ HI k Hk) as [_ [[? _]|(_ & Hv & Hd & _)]]; [done|].
  rewrite decide_False in Hd by set_solver.
  assert (Hw : after s' = write (D k) (value_of (after s) (src s k)) (after s)).
  { rewrite (after_app s s' (EMove (src s k) (D k))); [done|]. cbn. by rewrite Hd. }
  assert (Hwn : forall l, l <> D k -> after s' l = after s l).
  { intros l Hn. rewrite Hw. unfold write. by rewrite (proj2 (Z.eqb_neq _ _) Hn). }
  split; [by unfold s'; rewrite update_length| |apply NoDup_nil_2|set_solver|done|].
  - intros j Hj. rewrite Hmv. destruct (inv_ok _ _ HI j Hj) as [H64 Hok].
    destruct (decide (k = j)) as [<-|Hn]; (split; [done|]).
    + left. split_all; [done|done|set_solver|]. rewrite Hw. unfold write. by rewrite Z.eqb_refl.
    + destruct Hok as [(E & E' & Hp & Hv')|(Hs & Hv' & Hd' & Hp)]; [left|right].
      * split_all; [done|done|done|]. rewrite Hwn; [done|]. intros E2%D_inj; done.
      * split_all; [done| |done|done]. destruct (Hc j Hj) as [E|E].
        -- by apply small_valid in Hs.
        -- unfold read in *. by rewrite E in *.
  - intros l Hul. rewrite Hwn by (by apply Hul). by apply HI.
Qed.

Lemma PerformConstants_spec k s : (k <= n)%nat -> Inv [] s ->
  (forall j, (j < n)%nat -> src s j = 0 \/ IsConstant (src s j) = true) ->
  (forall j, (j < k)%nat -> src s j = 0) ->
  exists s', PerformConstants (seq k (n - k)) s = Some s' /\ Inv [] s' /\
    forall j, (j < n)%nat -> src s' j = 0.
Proof.
  remember (n - k)%nat as c eqn:Ec. revert k s Ec.
  induction c as [|c IH]; intros k s Ec Hk HI Hall Hdone; cbn [seq PerformConstants].
  { exists s. split_all; [done|done|]. intros j Hj. apply Hdone. lia. }
  pose proof (inv_length _ _ HI) as Hl. rewrite mv_lookup by lia. cbn [mbind option_bind].
  unfold IsEliminated, IsInvalid, IsValid, kInvalid. rewrite !negb_involutive.
  destruct (Z.eqb_spec (src s k) 0) as [E|Hne]; cbn [negb].
  { apply IH; [lia|lia|done|done|]. intros j Hj. destruct (decide (j = k)) as [->|]; [done|].
    apply Hdone. lia. }
  assert (Hmv : forall j, mv (update_move k Eliminate (EmitMove (mv s k) s)) j =
                  if decide (k = j) then Eliminate (mv s j) else mv s j).
  { intros j. rewrite mv_update; [done|]. cbn. lia. }
  apply IH; [lia|lia|apply move_constant; try done; lia| |].
  - intros j Hj. rewrite Hmv. case_decide; [by left|auto].
  - intros j Hj. rewrite Hmv. case_decide; [done|]. apply Hdone. lia.
Qed.

Lemma resolve_spec fuel moves : ((n + 2) * n <= fuel)%nat -> Inv [] (mkResolver moves []) ->
  exists s, PerformAll fuel (seq 0 n) (mkResolver moves []) ≫= PerformConstants (seq 0 n) = Some s /\
    (forall j, (j < n)%nat -> after s (D j) = V j) /\
    (forall l, (forall i, (i < n)%nat -> l <> D i) -> after s l = st0 l).
Proof.
  intros Hf HI. destruct (PerformAll_spec fuel 0 _ Hf ltac:(lia) HI) as (s1 & E1 & HI1 & H1); [lia|].
  destruct (PerformConstants_spec 0 s1 ltac:(lia) HI1 H1) as (s2 & E2 & HI2 & H2); [lia|].
  rewrite Nat.sub_0_r in E1, E2. exists s2. rewrite E1. split_all; [done| |apply HI2].
  intros j Hj. destruct (src_cases _ _ j HI2 Hj) as [[_ ?]|[Hs _]]; [done|].
  rewrite H2 in Hs by done. by apply small_valid in Hs.
Qed.

End Correct.

(** A move between locations of at most 32 bits. *)
Definition small_move (m : MoveOperands) : bool :=
  small (source_ m) && small (destination_ m) && negb (IsConstant (destination_ m)) &&
  negb (Is64BitMove m).

Lemma small_move_spec m : small_move m = true ->
  small (source_ m) = true /\ small (destination_ m) = true /\
  IsConstant (destination_ m) = false /\ Is64BitMove m = false.
Proof. unfold small_move. rewrite !andb_true_iff, !negb_true_iff. tauto. Qed.

Lemma redundant_small m : small_move m = true ->
  IsRedundant m = (source_ m =? destination_ m).
Proof.
  intros (Hs & Hd & _)%small_move_spec. apply small_valid in Hs, Hd.
  unfold IsRedundant, IsEliminated, IsInvalid, IsValid, Equals, kInvalid.
  by rewrite !(proj2 (Z.eqb_neq _ 0)).
Qed.

Lemma NoDup_map_filter {A B} (f : A -> B) (P : A -> Prop) `{forall x, Decision (P x)} (l : list A) :
  NoDup (map f l) -> NoDup (map f (filter P l)).
Proof.
  induction l as [|x l IH]; [done|]. intros [Hx Hl]%NoDup_cons. rewrite filter_cons.
  case_decide; [|auto]. apply NoDup_cons. split; [|auto].
  intros (y & E & [_ Hy]%list_elem_of_filter)%list_elem_of_fmap. apply Hx.
  apply list_elem_of_fmap. eauto.
Qed.

Section Initial.
Context {A : Type} (constant_value : Location -> A) (st : Location -> A).
Variable pm : list MoveOperands.
Hypothesis pm_small : forallb small_move pm = true.
Hypothesis pm_distinct : NoDup (map destination_ pm).

Abbreviation moves := (BuildInitialMoveList pm).
Abbreviation D := (fun i => destination_ (moves !!! i)).
Abbreviation V := (fun i => read constant_value st (source_ (moves !!! i))).

Lemma moves_small i : (i < length moves)%nat ->
  (moves !!! i) ∈ pm /\ small_move (moves !!! i) = true.
Proof.
  intros Hi. assert (H : moves !!! i ∈ moves) by (by apply list_elem_of_lookup_total_2).
  apply list_elem_of_filter in H as [_ H]. split; [done|].
  rewrite forallb_forall in pm_small. by apply pm_small, list_elem_of_In.
Qed.

Lemma D_distinct i j : (i < length moves)%nat -> (j < length moves)%nat -> D i = D j -> i = j.
Proof.
  assert (Hn : NoDup (map destination_ moves)).
  { by apply NoDup_map_filter. }
  intros Hi Hj E. apply (NoDup_lookup (map destination_ moves) i j (D i)); [done|..];
    rewrite list_lookup_fmap, list_lookup_lookup_total_lt by done; [done|]. by rewrite E.
Qed.

Lemma initial_Inv : Inv constant_value st (length moves) D V [] (mkResolver moves []).
Proof.
  split; [done| |apply NoDup_nil_2|set_solver|done|done].
  intros i Hi. unfold mv. cbn [moves_].
  destruct (small_move_spec _ (proj2 (moves_small i Hi))) as (Hs & _ & _ & H64).
  split; [done|]. right. split_all; [done|done|by rewrite decide_False by set_solver|set_solver].
Qed.

Lemma EmitNativeCode_spec fuel :
  ((length pm + 2) * length pm <= fuel)%nat ->
  exists c, EmitNativeCode fuel pm = Some c /\
    (forall m, m ∈ pm ->
       exec constant_value c st (destination_ m) = read constant_value st (source_ m)) /\
    (forall l, l ∉ map destination_ pm -> exec constant_value c st l = st l).
Proof.
  intros Hf. assert (Hl : (length moves <= length pm)%nat) by apply length_filter.
  destruct (resolve_spec constant_value st (length moves) D V) with (fuel := fuel) (moves := moves)
    as (s & E & Hd & Hu).
  - intros i Hi. by destruct (small_move_spec _ (proj2 (moves_small i Hi))) as (_ & ? & ? & _).
  - apply D_distinct.
  - nia.
  - apply initial_Inv.
  - exists (code s). unfold EmitNativeCode. fold moves.
    destruct (PerformAll _ _ _) as [s1|]; [|done]. cbn [mbind option_bind] in E |- *. rewrite E.
    assert (Hnm : forall l, (forall m, m ∈ moves -> l <> destination_ m) -> exec constant_value (code s) st l = st l).
    { intros l Hn. apply Hu. intros i Hi. by apply Hn, list_elem_of_lookup_total_2. }
    split_all; [done| |].
    + intros m Hm. destruct (IsRedundant m) eqn:Er.
      * assert (Hsm : small_move m = true)
          by (rewrite forallb_forall in pm_small; by apply pm_small, list_elem_of_In).
        pose proof Er as Er'. rewrite redundant_small in Er by done. apply Z.eqb_eq in Er.
        destruct (small_move_spec _ Hsm) as (_ & _ & Hk & _). unfold read. rewrite Er, Hk.
        apply Hnm. intros m' [Hr Hm']%list_elem_of_filter E'.
        destruct (list_elem_of_lookup_1 _ _ Hm) as [i Hi].
        destruct (list_elem_of_lookup_1 _ _ Hm') as [j Hj].
        assert (i = j); [|congruence].
        apply (NoDup_lookup (map destination_ pm) i j (destination_ m)); [done|..];
          rewrite list_lookup_fmap, ?Hi, ?Hj; [done|]. by rewrite E'.
      * assert (Hin : m ∈ moves) by (by apply list_elem_of_filter).
        apply list_elem_of_lookup_1 in Hin as [i Hi].
        assert (moves !!! i = m) as <- by (by apply list_lookup_total_correct).
        apply Hd. by eapply lookup_lt_Some.
    + intros l Hn. apply Hnm. intros m [_ Hm]%list_elem_of_filter ->. apply Hn.
      by apply list_elem_of_fmap_2.
Qed.
End Initial.

(** ** The properties *)

(** C23: 32-bit moves between distinct destinations (registers, stack slots, constants as sources)
    are all resolved, cycles and chains included: with fuel quadratic in their number the
    resolver terminates, and the moves and swaps it emits, one after the other, give each
    destination the value its source had before, and change no other location. *)
Theorem moves_are_parallel (pm : list MoveOperands) (fuel : nat)
  (Hsmall : forallb small_move pm = true) (Hdistinct : NoDup (map destination_ pm))
  (Hfuel : ((length pm + 2) * length pm <= fuel)%nat) :
  exists c, EmitNativeCode fuel pm = Some c /\
    forall (A : Type) (constant_value st : Location -> A),
      (forall m, m ∈ pm ->
         exec constant_value c st (destination_ m) = read constant_value st (source_ m)) /\
      (forall l, l ∉ map destination_ pm -> exec constant_value c st l = st l).
Proof.
  destruct (EmitNativeCode_spec (fun _ => tt) (fun _ => tt) pm Hsmall Hdistinct fuel Hfuel)
    as (c & E & _).
  exists c. split; [done|]. intros A cv st.
  destruct (EmitNativeCode_spec cv st pm Hsmall Hdistinct fuel Hfuel) as (c' & E' & H).
  rewrite E in E'. by apply (inj Some) in E' as <-.
Qed.

(** A cycle of three registers, a move that hangs off it and a constant. *)
Definition sample_moves : list MoveOperands :=
  [mkMove (RegisterLocation 1) (RegisterLocation 2) kPrimInt;
   mkMove (RegisterLocation 2) (RegisterLocation 3) kPrimInt;
   mkMove (ConstantLocation 4096) (StackSlot 8) kPrimInt;
   mkMove (RegisterLocation 3) (RegisterLocation 1) kPrimInt;
   mkMove (RegisterLocation 3) (FpuRegisterLocation 0) kPrimFloat].

Lemma moves_are_parallel_witness :
  EmitNativeCode 35 sample_moves =
    Some [ESwap (RegisterLocation 3) (RegisterLocation 1);
          ESwap (RegisterLocation 2) (RegisterLocation 3);
          EMove (RegisterLocation 1) (FpuRegisterLocation 0);
          EMove (ConstantLocation 4096) (StackSlot 8)] /\
  exists c, EmitNativeCode 35 sample_moves = Some c /\
    forall (A : Type) (constant_value st : Location -> A),
      (forall m, m ∈ sample_moves ->
         exec constant_value c st (destination_ m) = read constant_value st (source_ m)) /\
      (forall l, l ∉ map destination_ sample_moves -> exec constant_value c st l = st l).
Proof.
  split; [vm_compute; reflexivity|].
  refine (moves_are_parallel sample_moves 35 _ _ _).
  - vm_compute. reflexivity.
  - apply (bool_decide_unpack _). vm_compute. exact I.
  - cbn. lia.
Defined.

(** ** 64-bit moves *)

(** The words of a location, and code that moves and swaps all the words of its operands. *)
Definition words (l : Location) : list Location :=
  if IsPair l || IsDoubleStackSlot l then [ToLow l; ToHigh l] else [l].

Definition write_words {A} (ls : list Location) (vs : list A) (st : Location -> A) : Location -> A :=
  fold_left (fun st '(l, v) => write l v st) (zip ls vs) st.

Definition exec1_words {A} (e : Emitted) (st : Location -> A) : Location -> A :=
  match e with
  | EMove source destination => write_words (words destination) (map st (words source)) st
  | ESwap source destination =>
      write_words (words destination) (map st (words source))
        (write_words (words source) (map st (words destination)) st)
  end.
Definition exec_words {A} (l : list Emitted) (st : Location -> A) : Location -> A :=
  fold_left (fun st e => exec1_words e st) l st.

(** A long in the stack slots 4 and 8 goes to two register pairs, while a register of either pair
    goes to one of the slots. *)
Definition pair_moves : list MoveOperands :=
  [mkMove (RegisterLocation 2) (StackSlot 8) kPrimInt;
   mkMove (DoubleStackSlot 4) (RegisterPairLocation 4 5) kPrimLong;
   mkMove (DoubleStackSlot 4) (RegisterPairLocation 2 3) kPrimLong;
   mkMove (RegisterLocation 4) (StackSlot 4) kPrimInt].

(** With register pairs the resolver can go wrong.  A double stack slot is read by two moves
    and overlaps the destinations of two 32-bit moves: the code emitted for these four moves
    leaves in the pair of registers 2 and 3 their register 2 and the register 5, where the move
    asks for the words of the stack slots 4 and 8. *)
Theorem double_slot_read_twice :
  exists c, EmitNativeCode 200 pair_moves = Some c /\
    forall (A : Type) (st : Location -> A),
      exec_words c st (RegisterLocation 2) = st (RegisterLocation 2) /\
      exec_words c st (RegisterLocation 3) = st (RegisterLocation 5) /\
      words (DoubleStackSlot 4) = [StackSlot 4; StackSlot 8] /\
      words (RegisterPairLocation 2 3) = [RegisterLocation 2; RegisterLocation 3].
Proof.
  eexists. split; [vm_compute; reflexivity|]. intros A st. split_all; vm_compute; reflexivity.
Qed.
