(* ===== verification/TryCatch.v ===== *)
(** Try regions and catch handlers ([dex_file.{h,cc}], [dex_file-inl.h], [bit_utils.h],
    [art_method.cc]).

    [mem] is the file in memory; a [const CodeItem&] is its offset.  The file is mapped at an
    address that is a multiple of 4, so that rounding an address is rounding its offset.
    [None] is a read outside the file. *)
From S2P Require Import Prelude Leb128 DexFile DexInstruction Runtime.
Local Open Scope Z_scope.

(** ** [CodeItem] *)

Section CodeItem.
Variable mem : list Z.

Definition registers_size_ (code : Z) : Z := get_le 2 code mem.
Definition ins_size_ (code : Z) : Z := get_le 2 (code + 2) mem.
Definition outs_size_ (code : Z) : Z := get_le 2 (code + 4) mem.
Definition tries_size_ (code : Z) : Z := get_le 2 (code + 6) mem.
Definition debug_info_off_ (code : Z) : Z := get_le 4 (code + 8) mem.
Definition insns_size_in_code_units_ (code : Z) : Z := get_le 4 (code + 12) mem.

(** [insns_]: the code units from offset 16 on. *)
Definition insns_ (code : Z) : Instruction := fun o => get_le 2 (code + 16 + 2 * o) mem.

(** [RoundDown], [RoundUp]: [n] is a power of two. *)
Definition RoundDown (x n : Z) : Z := Z.land x (- n).
Definition RoundUp (x n : Z) : Z := RoundDown (x + n - 1) n.

(** ** Try items *)

Record TryItem := { start_addr_ : Z; insn_count_ : Z; handler_off_ : Z }.

(** [GetTryItems(code_item, offset)]: 8 is [sizeof(TryItem)]. *)
Definition GetTryItems (code offset : Z) : Z :=
  let insns_end_ := code + 16 + 2 * insns_size_in_code_units_ code in
  RoundUp insns_end_ 4 + 8 * offset.

Definition ReadTryItem (p : Z) : option TryItem :=
  start ← rd 4 p mem;
  count ← rd 2 (p + 4) mem;
  handler ← rd 2 (p + 6) mem;
  Some {| start_addr_ := start; insn_count_ := count; handler_off_ := handler |}.

Definition GetCatchHandlerData (code offset : Z) : Z :=
  GetTryItems code (tries_size_ code) + offset.

(** The binary search; the fuel covers 65535 tries. *)
Fixpoint FindTryItemLoop (fuel : nat) (code address min max : Z) : option Z :=
  match fuel with
  | O => None
  | S fuel' =>
      if min <=? max then
        let mid := min + Z.quot (max - min) 2 in
        ti ← ReadTryItem (GetTryItems code mid);
        let start := start_addr_ ti in
        let end_ := u32 (start + insn_count_ ti) in
        if address <? start then FindTryItemLoop fuel' code address min (mid - 1)
        else if end_ <=? address then FindTryItemLoop fuel' code address (mid + 1) max
        else Some mid
      else Some (-1)
  end.

Definition FindTryItem (code address : Z) : option Z :=
  FindTryItemLoop 17 code address 0 (tries_size_ code - 1).

Definition FindCatchHandlerOffset (code address : Z) : option Z :=
  try_item ← FindTryItem code address;
  if try_item =? -1 then Some (-1)
  else ti ← ReadTryItem (GetTryItems code try_item); Some (handler_off_ ti).

(** ** [CatchHandlerIterator] *)

Record CatchHandlerIterator := {
  type_idx_ : Z;
  address_ : Z;
  current_data_ : list Z;
  remaining_count_ : Z;
  catch_all_ : bool;
}.

Definition HasNextHandler (it : CatchHandlerIterator) : bool :=
  negb (remaining_count_ it =? -1) || catch_all_ it.

Definition NextHandler (it : CatchHandlerIterator) : option CatchHandlerIterator :=
  if 0 <? remaining_count_ it then
    '(type_idx, d) ← DecodeUnsignedLeb128 (current_data_ it);
    '(address, d) ← DecodeUnsignedLeb128 d;
    Some {| type_idx_ := u16 type_idx; address_ := address; current_data_ := d;
            remaining_count_ := remaining_count_ it - 1; catch_all_ := catch_all_ it |}
  else if catch_all_ it then
    '(address, d) ← DecodeUnsignedLeb128 (current_data_ it);
    Some {| type_idx_ := kDexNoIndex16; address_ := address; current_data_ := d;
            remaining_count_ := remaining_count_ it; catch_all_ := false |}
  else
    Some {| type_idx_ := type_idx_ it; address_ := address_ it;
            current_data_ := current_data_ it; remaining_count_ := -1; catch_all_ := false |}.

(** [Init(handler_data)]. *)
Definition InitHandlers (it : CatchHandlerIterator) (handler_data : list Z)
  : option CatchHandlerIterator :=
  '(remaining, d) ← DecodeSignedLeb128 handler_data;
  NextHandler
    {| type_idx_ := type_idx_ it; address_ := address_ it; current_data_ := d;
       remaining_count_ := if remaining <=? 0 then s32 (- remaining) else remaining;
       catch_all_ := remaining <=? 0 |}.

(** [Init(code_item, offset)]. *)
Definition InitAtOffset (it : CatchHandlerIterator) (code offset : Z)
  : option CatchHandlerIterator :=
  if 0 <=? offset then
    InitHandlers it (drop (Z.to_nat (GetCatchHandlerData code offset)) mem)
  else Some {| type_idx_ := type_idx_ it; address_ := address_ it; current_data_ := [];
               remaining_count_ := -1; catch_all_ := false |}.

(** The iterator before its initialisation; [type_idx_] is not set by the constructor. *)
Definition new_iterator (type_idx : Z) : CatchHandlerIterator :=
  {| type_idx_ := type_idx; address_ := u32 (-1); current_data_ := [];
     remaining_count_ := 0; catch_all_ := false |}.

(** The constructor: the offset of the handlers of the region that covers the address. *)
Definition HandlerOffsetFor (code address : Z) : option Z :=
  if tries_size_ code =? 0 then Some (-1)
  else if tries_size_ code =? 1 then
    ti ← ReadTryItem (GetTryItems code 0);
    let start := start_addr_ ti in
    if start <=? address then
      let end_ := u32 (start + insn_count_ ti) in
      if address <? end_ then Some (handler_off_ ti) else Some (-1)
    else Some (-1)
  else FindCatchHandlerOffset code address.

Definition MakeCatchHandlerIterator (code address : Z) : option CatchHandlerIterator :=
  offset ← HandlerOffsetFor code address;
  InitAtOffset (new_iterator 0) code offset.

Definition MakeIteratorForTry (code : Z) (try_item : TryItem) : option CatchHandlerIterator :=
  InitAtOffset (new_iterator 0) code (handler_off_ try_item).

(** [EndDataPointer]: [CHECK(!HasNext())]. *)
Definition EndHandlerData (it : CatchHandlerIterator) : option (list Z) :=
  if negb (HasNextHandler it) then Some (current_data_ it) else None.

(** ** [ArtMethod::FindCatchBlock]

    The handlers in order; [method] is the method whose class linker context resolves the
    types.  One handler takes at least one byte, so the length of the file is enough fuel. *)
Context {W : Type} `{Runtime W}.

Fixpoint FindCatchLoop (fuel : nat) (method exception_type : Z) (it : CatchHandlerIterator)
  (self : Thread W) : option (Thread W * Z) :=
  match fuel with
  | O => None
  | S fuel' =>
      if negb (HasNextHandler it) then Some (self, kDexNoIndex)
      else
        let iter_type_idx := type_idx_ it in
        if iter_type_idx =? kDexNoIndex16 then Some (self, address_ it)
        else
          let '(self, iter_exception_type) := GetClassFromTypeIndex method iter_type_idx self in
          if iter_exception_type =? 0 then
            it ← NextHandler it; FindCatchLoop fuel' method exception_type it (ClearException self)
          else if IsAssignableFrom (world_ self) iter_exception_type exception_type then
            Some (self, address_ it)
          else it ← NextHandler it; FindCatchLoop fuel' method exception_type it self
  end.

(** The last result is [has_no_move_exception] when the code sets it. *)
Definition FindCatchBlock (method code exception_type dex_pc : Z) (self : Thread W)
  : option (Thread W * Z * option bool) :=
  let exception := GetException self in
  let self := ClearException self in
  it ← MakeCatchHandlerIterator code dex_pc;
  '(self, found_dex_pc) ← FindCatchLoop (S (length mem)) method exception_type it self;
  let has_no_move_exception :=
    if negb (found_dex_pc =? kDexNoIndex)
    then Some (negb (bool_decide (Opcode (RelativeAt (insns_ code) found_dex_pc) = MOVE_EXCEPTION)))
    else None in
  let self := if negb (exception =? 0) then SetException exception self else self in
  Some (self, found_dex_pc, has_no_move_exception).

(** [FindNextInstructionFollowingException] of [interpreter_common.cc]; [exception->GetClass()]
    needs a pending exception. *)
Definition FindNextInstructionFollowingException (method code dex_pc : Z) (self : Thread W)
  : option (Thread W * Z) :=
  let exception := GetException self in
  if exception =? 0 then None
  else
  '(self, found_dex_pc, clear) ← FindCatchBlock method code
     (GetClass (world_ self) exception) dex_pc self;
  let clear_exception := default false clear in
  if found_dex_pc =? kDexNoIndex then Some (self, found_dex_pc)
  else Some (if clear_exception then ClearException self else self, found_dex_pc).
End CodeItem.

(** ** Try regions *)

(** The region of a try item covers an address. *)
Definition covers (address : Z) (ti : TryItem) : bool :=
  (start_addr_ ti <=? address) && (address <? start_addr_ ti + insn_count_ ti).

(** Linear search. *)
Definition lookup_try (tries : list TryItem) (address : Z) : option TryItem :=
  snd <$> list_find (fun ti => covers address ti = true) tries.

(** The try items of a code item, in order of address and not overlapping, as the format
    requires. *)
Definition try_table (mem : list Z) (code : Z) (tries : list TryItem) : Prop :=
  tries_size_ mem code = Z.of_nat (length tries) /\ Z.of_nat (length tries) < 0x10000 /\
  (forall k ti, tries !! k = Some ti -> ReadTryItem mem (GetTryItems mem code (Z.of_nat k)) = Some ti) /\
  Forall (fun ti => 0 <= start_addr_ ti /\ 0 <= insn_count_ ti /\ 0 <= handler_off_ ti /\
                    start_addr_ ti + insn_count_ ti < 2 ^ 32) tries /\
  (forall i j ti tj, (i < j)%nat -> tries !! i = Some ti -> tries !! j = Some tj ->
     start_addr_ ti + insn_count_ ti <= start_addr_ tj).

Section Tries.
Variables (mem : list Z) (code address : Z) (tries : list TryItem).
Hypothesis Htab : try_table mem code tries.

(** No region outside [min .. max] covers the address. *)
Definition outside_range (min max : Z) : Prop :=
  forall k ti, tries !! k = Some ti -> Z.of_nat k < min \/ max < Z.of_nat k ->
    covers address ti = false.

Definition found_at (r : Z) : Prop :=
  (r = -1 /\ forall k ti, tries !! k = Some ti -> covers address ti = false) \/
  exists k ti, r = Z.of_nat k /\ tries !! k = Some ti /\ covers address ti = true.

Lemma try_bounds k ti :
  tries !! k = Some ti ->
  0 <= start_addr_ ti /\ 0 <= insn_count_ ti /\ 0 <= handler_off_ ti /\
  start_addr_ ti + insn_count_ ti < 2 ^ 32.
Proof. destruct Htab as (_ & _ & _ & F & _). intros E. by eapply Forall_lookup_1 in F. Qed.

(** Regions below one that starts after the address, or above one that ends before it, do
    not cover it. *)
Lemma covers_outside k ti j tj :
  tries !! k = Some ti -> tries !! j = Some tj ->
  (address < start_addr_ ti -> (k <= j)%nat -> covers address tj = false) /\
  (start_addr_ ti + insn_count_ ti <= address -> (j <= k)%nat -> covers address tj = false).
Proof.
  intros Ek Ej. pose proof (try_bounds _ _ Ek). pose proof (try_bounds _ _ Ej).
  destruct Htab as (_ & _ & _ & _ & Hs). unfold covers. split; intros Ha Hkj.
  - destruct (decide (k = j)) as [->|].
    + simplify_eq. repeat case_Zcmp; cbn; done || lia.
    + pose proof (Hs k j ti tj ltac:(lia) Ek Ej). repeat case_Zcmp; cbn; done || lia.
  - destruct (decide (k = j)) as [->|].
    + simplify_eq. repeat case_Zcmp; cbn; done || lia.
    + pose proof (Hs j k tj ti ltac:(lia) Ej Ek). repeat case_Zcmp; cbn; done || lia.
Qed.

Lemma find_try_loop fuel min max :
  0 <= min -> max < Z.of_nat (length tries) -> max - min + 1 < 2 ^ Z.of_nat fuel ->
  outside_range min max ->
  exists r, FindTryItemLoop mem (S fuel) code address min max = Some r /\ found_at r.
Proof.
  revert min max. induction fuel as [|fuel IH]; intros min max H0 H1 Hf Hout.
  { change (2 ^ Z.of_nat 0) with 1 in Hf. cbn [FindTryItemLoop].
    destruct (Z.leb_spec min max); [lia|]. exists (-1). split; [done|]. left. split; [done|].
    intros k ti Hk. apply (Hout k ti Hk). lia. }
  remember (S fuel) as n. cbn [FindTryItemLoop]. subst n.
  destruct (Z.leb_spec min max) as [Hle|Hgt].
  2: { exists (-1). split; [done|]. left. split; [done|].
       intros k ti Hk. apply (Hout k ti Hk). lia. }
  rewrite Nat2Z.inj_succ, Z.pow_succ_r in Hf by lia.
  rewrite Z.quot_div_nonneg by lia. cbv zeta. set (mid := min + (max - min) / 2).
  assert (Hmid : min <= mid <= max) by (subst mid; div_lia).
  assert (Hlow : mid - 1 - min + 1 < 2 ^ Z.of_nat fuel) by (subst mid; div_lia).
  assert (Hhigh : max - (mid + 1) + 1 < 2 ^ Z.of_nat fuel) by (subst mid; div_lia).
  clearbody mid.
  destruct (lookup_lt_is_Some_2 tries (Z.to_nat mid)) as [ti Hti]; [lia|].
  pose proof Htab as (_ & _ & Hread & _). specialize (Hread _ _ Hti).
  rewrite Z2Nat.id in Hread by lia. rewrite Hread. cbn [mbind option_bind].
  pose proof (try_bounds _ _ Hti). rewrite u_small by (unfold is_u; lia).
  destruct (Z.ltb_spec address (start_addr_ ti)) as [Hb|Hb];
    [|destruct (Z.leb_spec (start_addr_ ti + insn_count_ ti) address) as [Ha|Ha]].
  - apply IH; [lia|lia|lia|]. intros k tk Hk Hkr.
    destruct (decide (Z.of_nat k < min)); [apply (Hout k tk Hk); lia|].
    apply (proj1 (covers_outside (Z.to_nat mid) ti k tk Hti Hk)); lia.
  - apply IH; [lia|lia|lia|]. intros k tk Hk Hkr.
    destruct (decide (max < Z.of_nat k)); [apply (Hout k tk Hk); lia|].
    apply (proj2 (covers_outside (Z.to_nat mid) ti k tk Hti Hk)); lia.
  - exists mid. split; [done|]. right. exists (Z.to_nat mid), ti. split_all; [lia|done|].
    unfold covers. repeat case_Zcmp; done || lia.
Qed.

Lemma lookup_try_found r :
  found_at r ->
  lookup_try tries address = if r =? -1 then None else tries !! Z.to_nat r.
Proof.
  unfold lookup_try. intros [[-> Hnone]|(k & ti & -> & Hk & Hc)].
  - cbn. destruct (list_find _ tries) as [[k ti]|] eqn:E; [|done].
    apply list_find_Some in E as (E1 & E2 & _). rewrite (Hnone _ _ E1) in E2. done.
  - destruct (Z.eqb_spec (Z.of_nat k) (-1)); [lia|]. rewrite Nat2Z.id, Hk.
    destruct (list_find _ tries) as [[j tj]|] eqn:E.
    + apply list_find_Some in E as (E1 & E2 & E3). cbn. f_equal.
      destruct (decide (j = k)) as [->|]; [congruence|].
      destruct (decide (j < k)%nat).
      * pose proof (try_bounds _ _ Hk). pose proof (try_bounds _ _ E1).
        destruct Htab as (_ & _ & _ & _ & Hs). pose proof (Hs j k tj ti ltac:(lia) E1 Hk).
        unfold covers in *. revert E2 Hc. repeat case_Zcmp; cbn; done || lia.
      * exfalso. apply (E3 k ti); [done|lia|done].
    + rewrite list_find_None, Forall_lookup in E. by destruct (E k ti Hk).
Qed.

Lemma handler_offset :
  HandlerOffsetFor mem code address
  = Some (match lookup_try tries address with Some ti => handler_off_ ti | None => -1 end).
Proof.
  pose proof Htab as (Hn & Hlen & Hread & _). unfold HandlerOffsetFor. rewrite Hn.
  destruct (Z.eqb_spec (Z.of_nat (length tries)) 0).
  { assert (tries = []) as -> by (apply nil_length_inv; lia). done. }
  destruct (Z.eqb_spec (Z.of_nat (length tries)) 1).
  - pose proof (try_bounds 0) as Hb0. destruct tries as [|ti [|? ?]]; cbn in *; try lia.
    rewrite (Hread 0%nat ti eq_refl : ReadTryItem mem (GetTryItems mem code 0) = Some ti).
    cbn [mbind option_bind]. pose proof (Hb0 ti eq_refl).
    rewrite u_small by (unfold is_u; lia). unfold lookup_try, covers. cbn.
    destruct (Z.leb_spec (start_addr_ ti) address), (Z.ltb_spec address (start_addr_ ti + insn_count_ ti));
      cbn; by rewrite ?decide_True, ?decide_False by done.
  - unfold FindCatchHandlerOffset, FindTryItem. rewrite Hn.
    destruct (find_try_loop 16 0 (Z.of_nat (length tries) - 1)) as (r & -> & Hr);
      [lia|lia|reduce_pow; lia|intros k ti Hk Hb; apply lookup_lt_Some in Hk; lia|].
    cbn [mbind option_bind]. rewrite (lookup_try_found r Hr).
    destruct (Z.eqb_spec r (-1)); [done|].
    destruct Hr as [[-> _]|(k & ti & -> & Hk & _)]; [done|].
    by rewrite (Hread k ti Hk), Nat2Z.id, Hk.
Qed.
End Tries.

(** ** Handler lists

    An [encoded_catch_handler] of the format: the number of typed handlers (negated when a
    catch-all follows), the handlers, and the address of the catch-all. *)

Definition encode_handler (h : Z * Z) : list Z :=
  EncodeUnsignedLeb128 (fst h) ++ EncodeUnsignedLeb128 (snd h).

Definition encode_catch_all (ca : option Z) : list Z :=
  match ca with Some a => EncodeUnsignedLeb128 a | None => [] end.

Definition encode_handlers (hs : list (Z * Z)) (ca : option Z) : list Z :=
  EncodeSignedLeb128 (match ca with Some _ => - Z.of_nat (length hs) | None => Z.of_nat (length hs) end)
  ++ concat (encode_handler <$> hs) ++ encode_catch_all ca.

Definition wf_handlers (hs : list (Z * Z)) (ca : option Z) : Prop :=
  Forall (fun h => is_u 16 (fst h) /\ is_u 32 (snd h)) hs /\
  match ca with Some a => is_u 32 a | None => hs <> [] end /\
  Z.of_nat (length hs) < 2 ^ 31.

(** The handlers in the order the code tries them. *)
Definition all_handlers (hs : list (Z * Z)) (ca : option Z) : list (Z * Z) :=
  hs ++ match ca with Some a => [(kDexNoIndex16, a)] | None => [] end.

(** What is still to be read. *)
Definition to_read (it : CatchHandlerIterator) (hs : list (Z * Z)) (ca : option Z)
  (rest : list Z) : Prop :=
  remaining_count_ it = Z.of_nat (length hs) /\
  catch_all_ it = match ca with Some _ => true | None => false end /\
  current_data_ it = (concat (encode_handler <$> hs) ++ encode_catch_all ca) ++ rest.

(** The iterator is at the first of [l] and will deliver the others. *)
Definition at_handlers (it : CatchHandlerIterator) (l : list (Z * Z)) (rest : list Z) : Prop :=
  match l with
  | [] => HasNextHandler it = false /\ current_data_ it = rest
  | h :: l' =>
      HasNextHandler it = true /\ type_idx_ it = fst h /\ address_ it = snd h /\
      exists hs ca, l' = all_handlers hs ca /\ to_read it hs ca rest /\
        Forall (fun h => is_u 16 (fst h) /\ is_u 32 (snd h)) hs /\
        match ca with Some a => is_u 32 a | None => True end
  end.

Lemma next_handler it hs ca rest :
  to_read it hs ca rest ->
  Forall (fun h => is_u 16 (fst h) /\ is_u 32 (snd h)) hs ->
  match ca with Some a => is_u 32 a | None => True end ->
  exists it', NextHandler it = Some it' /\ at_handlers it' (all_handlers hs ca) rest.
Proof.
  intros (Hr & Hc & Hd) HF Hca. unfold NextHandler. rewrite Hr, Hc, Hd.
  destruct hs as [|[t a] hs].
  - cbn [length concat fmap list_fmap all_handlers app encode_catch_all]. cbn.
    destruct ca as [a|]; cbn [encode_catch_all].
    + rewrite decode_encode by done. cbn. eexists. split; [done|].
      cbn. unfold HasNextHandler. cbn. split_all; try done. exists [], None.
      unfold to_read, all_handlers. cbn. by split_all.
    + eexists. split; [done|]. cbn. by split.
  - apply Forall_cons in HF as [[Ht Ha] HF]. cbn [fst snd] in *.
    destruct (Z.ltb_spec 0 (Z.of_nat (length ((t, a) :: hs)))); [|cbn in *; lia].
    cbn [fmap list_fmap concat]. unfold encode_handler at 1. cbn [fst snd].
    rewrite <- !app_assoc, decode_encode by (unfold is_u in *; reduce_pow; lia).
    cbn [mbind option_bind]. rewrite decode_encode by done. cbn [mbind option_bind].
    eexists. split; [done|]. cbn [all_handlers app at_handlers].
    unfold HasNextHandler. cbn [remaining_count_ catch_all_ type_idx_ address_ fst snd length].
    rewrite u_small by done. split_all; try done.
    + destruct (Z.eqb_spec (Z.of_nat (S (length hs)) - 1) (-1)); [lia|done].
    + exists hs, ca. unfold to_read. cbn [remaining_count_ catch_all_ current_data_].
      rewrite <- app_assoc. split_all; try done. lia.
Qed.

Lemma at_handlers_next it h l rest :
  at_handlers it (h :: l) rest ->
  exists it', NextHandler it = Some it' /\ at_handlers it' l rest.
Proof. intros (_ & _ & _ & hs & ca & -> & Hr & HF & Hca). by apply next_handler. Qed.

Lemma init_handlers it0 hs ca rest :
  wf_handlers hs ca ->
  exists it, InitHandlers it0 (encode_handlers hs ca ++ rest) = Some it /\
    at_handlers it (all_handlers hs ca) rest.
Proof.
  intros (HF & Hca & Hl). unfold InitHandlers, encode_handlers.
  set (n := match ca with Some _ => _ | None => _ end).
  assert (Hn : is_s 32 n) by (subst n; unfold is_s; reduce_pow; destruct ca; lia).
  rewrite <- app_assoc, encode_signed_digits, decode_signed_digits by done.
  cbn [mbind option_bind]. apply next_handler; [|done|by destruct ca].
  unfold to_read. cbn [remaining_count_ catch_all_ current_data_]. subst n.
  destruct ca as [a|].
  - destruct (Z.leb_spec (- Z.of_nat (length hs)) 0); [|lia].
    rewrite s_small, Z.opp_involutive by (unfold is_s in *; reduce_pow; lia). done.
  - destruct hs as [|h hs]; [done|].
    by destruct (Z.leb_spec (Z.of_nat (length (h :: hs))) 0); [cbn in *; lia|].
Qed.

(** Delivering all handlers. *)
Fixpoint collect_handlers (fuel : nat) (it : CatchHandlerIterator)
  : option (list (Z * Z) * option (list Z)) :=
  match fuel with
  | O => None
  | S fuel' =>
      if HasNextHandler it then
        it' ← NextHandler it;
        '(l, e) ← collect_handlers fuel' it';
        Some ((type_idx_ it, address_ it) :: l, e)
      else Some ([], EndHandlerData it)
  end.

Lemma collect_at l : forall fuel it rest,
  at_handlers it l rest -> (length l < fuel)%nat ->
  collect_handlers fuel it = Some (l, Some rest).
Proof.
  induction l as [|h l IH]; intros fuel it rest Hat Hf; (destruct fuel as [|fuel]; [cbn in *; lia|]);
    cbn [collect_handlers].
  - destruct Hat as [E Hd]. unfold EndHandlerData. by rewrite E, Hd.
  - destruct (at_handlers_next _ _ _ _ Hat) as (it' & -> & Hat').
    destruct Hat as (-> & -> & -> & _). cbn [mbind option_bind].
    rewrite (IH _ _ _ Hat') by (cbn in *; lia). by destruct h.
Qed.

(** ** Which handler catches *)

Section Catch.
Context {W : Type} `{Runtime W}.

(** The first handler that applies: a catch-all, or one whose class resolves and is a
    superclass of the exception's.  A class that does not resolve is skipped, and the
    exception of its resolution dropped. *)
Fixpoint select_handler (method exception_type : Z) (l : list (Z * Z)) (self : Thread W)
  : Thread W * Z :=
  match l with
  | [] => (self, kDexNoIndex)
  | (t, a) :: l' =>
      if t =? kDexNoIndex16 then (self, a)
      else
        let '(self, c) := GetClassFromTypeIndex method t self in
        if c =? 0 then select_handler method exception_type l' (ClearException self)
        else if IsAssignableFrom (world_ self) c exception_type then (self, a)
        else select_handler method exception_type l' self
  end.

Lemma find_catch_loop method exc l : forall fuel it rest self,
  at_handlers it l rest -> (length l < fuel)%nat ->
  FindCatchLoop fuel method exc it self = Some (select_handler method exc l self).
Proof.
  induction l as [|[t a] l IH]; intros fuel it rest self Hat Hf;
    (destruct fuel as [|fuel]; [cbn in *; lia|]); cbn [FindCatchLoop select_handler].
  - destruct Hat as [-> _]. done.
  - destruct (at_handlers_next _ _ _ _ Hat) as (it' & E & Hat').
    destruct Hat as (-> & -> & -> & _). cbn [negb fst snd].
    destruct (t =? kDexNoIndex16); [done|].
    destruct (GetClassFromTypeIndex method t self) as [self' c].
    rewrite E. cbn [mbind option_bind]. cbn in Hf.
    destruct (c =? 0); [apply (IH _ _ _ _ Hat'); lia|].
    destruct (IsAssignableFrom _ _ _); [done|]. apply (IH _ _ _ _ Hat'); lia.
Qed.

Lemma select_handler_in method exc l : forall self,
  (select_handler method exc l self).2 = kDexNoIndex \/
  In (select_handler method exc l self).2 (snd <$> l).
Proof.
  induction l as [|[t a] l IH]; intros self; cbn [select_handler]; [by left|].
  destruct (t =? kDexNoIndex16); [right; by left|].
  destruct (GetClassFromTypeIndex method t self) as [self' c].
  destruct (c =? 0).
  - destruct (IH (ClearException self')) as [|]; [by left|right; by right].
  - destruct (IsAssignableFrom _ _ _); [right; by left|].
    destruct (IH self') as [|]; [by left|right; by right].
Qed.

(** What [FindCatchBlock] answers, given the handlers that cover the address. *)
Definition catch_block_spec (mem : list Z) (code method exc : Z) (l : list (Z * Z))
  (self : Thread W) : Thread W * Z * option bool :=
  let '(self', pc) := select_handler method exc l (ClearException self) in
  (if exception_ self =? 0 then self' else SetException (exception_ self) self', pc,
   if pc =? kDexNoIndex then None
   else Some (negb (bool_decide (Opcode (RelativeAt (insns_ mem code) pc) = MOVE_EXCEPTION)))).
End Catch.

Lemma length_encode_pos v : is_u 32 v -> (1 <= length (EncodeUnsignedLeb128 v))%nat.
Proof. intros. rewrite length_encode by done. lia. Qed.

Lemma handlers_length hs ca :
  wf_handlers hs ca -> (length (all_handlers hs ca) <= length (encode_handlers hs ca))%nat.
Proof.
  intros (HF & Hca & _). unfold encode_handlers, all_handlers. rewrite !length_app.
  assert (E : (length hs <= length (concat (encode_handler <$> hs)))%nat).
  { clear Hca. induction HF as [|h hs [H1 H2] HF IH]; [done|]. cbn [fmap list_fmap concat length].
    unfold encode_handler at 1. rewrite !length_app.
    pose proof (length_encode_pos (snd h) H2). change (list_fmap _ _ encode_handler hs) with (encode_handler <$> hs). lia. }
  destruct ca as [a|]; cbn [length encode_catch_all]; [pose proof (length_encode_pos a Hca)|]; lia.
Qed.

(** A code item with two try regions that share their handlers: class 5 at code unit 4, any
    other exception at unit 3. *)
Definition sample_code : list Z :=
  concat [le_bytes 2 2; le_bytes 2 0; le_bytes 2 0; le_bytes 2 2; le_bytes 4 0; le_bytes 4 6;
          le_bytes 2 0x0093; le_bytes 2 0x0100; le_bytes 2 0x000f; le_bytes 2 0x000d;
          le_bytes 2 0x7012; le_bytes 2 0x000f;
          le_bytes 4 0; le_bytes 2 2; le_bytes 2 1;
          le_bytes 4 3; le_bytes 2 1; le_bytes 2 1;
          [1]; encode_handlers [(5, 4)] (Some 3)].

Definition sample_tries : list TryItem :=
  [{| start_addr_ := 0; insn_count_ := 2; handler_off_ := 1 |};
   {| start_addr_ := 3; insn_count_ := 1; handler_off_ := 1 |}].

Lemma sample_try_table : try_table sample_code 0 sample_tries.
Proof.
  unfold try_table. split_all.
  - vm_compute. reflexivity.
  - cbn. lia.
  - intros [|[|k]] ti E; cbn in E; simplify_eq; vm_compute; reflexivity.
  - repeat constructor; cbn; lia.
  - intros [|[|i]] [|[|j]] ti tj Hij Ei Ej; cbn in Ei, Ej; simplify_eq; cbn; lia.
Qed.

Lemma sample_wf_handlers : wf_handlers [(5, 4)] (Some 3).
Proof. unfold wf_handlers. split_all; [repeat constructor; vm_compute; congruence|..]; vm_compute; intuition congruence. Qed.

(** [FindCatchBlock] on a well-formed table. *)
Lemma catch_block_select {W : Type} `{Runtime W} (mem : list Z) (code dex_pc method exc : Z)
  (tries : list TryItem) (hs : list (Z * Z)) (ca : option Z) (self : Thread W)
  (Htab : try_table mem code tries) (Hwf : wf_handlers hs ca)
  (Hmem : forall ti, lookup_try tries dex_pc = Some ti ->
    holds mem (GetCatchHandlerData mem code (handler_off_ ti)) (encode_handlers hs ca)) :
  exists self' pc flag,
    FindCatchBlock mem method code exc dex_pc self = Some (self', pc, flag) /\
    (self', pc, flag) = catch_block_spec mem code method exc
      (match lookup_try tries dex_pc with Some _ => all_handlers hs ca | None => [] end) self /\
    (exception_ self <> 0 -> exception_ self' = exception_ self) /\
    (pc = kDexNoIndex \/ In pc (snd <$> all_handlers hs ca)).
Proof.
  pose proof Htab as (_ & _ & _ & Hpos & _).
  unfold FindCatchBlock, MakeCatchHandlerIterator. rewrite (handler_offset _ _ _ _ Htab).
  cbn [mbind option_bind]. set (l := match lookup_try tries dex_pc with Some _ => all_handlers hs ca | None => [] end).
  assert (Hit : exists it rest,
    InitAtOffset mem (new_iterator 0) code
      (match lookup_try tries dex_pc with Some ti => handler_off_ ti | None => -1 end) = Some it /\
    at_handlers it l rest /\ (length l <= length mem)%nat).
  { subst l. destruct (lookup_try tries dex_pc) as [ti|] eqn:E.
    - specialize (Hmem ti eq_refl). destruct (holds_drop _ _ _ Hmem) as [rest Hd].
      unfold InitAtOffset. rewrite Hd. unfold lookup_try in E.
      destruct (list_find _ tries) as [[k tk]|] eqn:El; cbn in E; simplify_eq.
      apply list_find_Some in El as (Ek & _).
      pose proof (Forall_lookup_1 _ _ _ _ Hpos Ek) as Hk. cbn in Hk.
      destruct (Z.leb_spec 0 (handler_off_ ti)); [|lia].
      destruct (init_handlers (new_iterator 0) hs ca rest Hwf) as (it & -> & Hat).
      exists it, rest. split_all; [done|done|].
      destruct Hmem as (? & ? & _). pose proof (handlers_length hs ca Hwf). lia.
    - eexists _, []. split; [done|]. cbn. split_all; [done|done|lia]. }
  destruct Hit as (it & rest & -> & Hat & Hlen). cbn [mbind option_bind].
  rewrite (find_catch_loop method exc l _ _ rest) by (done || lia). cbn [mbind option_bind].
  unfold catch_block_spec.
  pose proof (select_handler_in method exc l (ClearException self)) as Hin.
  destruct (select_handler method exc l (ClearException self)) as [self' pc].
  eexists _, pc, _. split; [done|]. split; [|split].
  - unfold GetException. by destruct (exception_ self =? 0), (pc =? kDexNoIndex).
  - intros Hne. unfold GetException. by destruct (Z.eqb_spec (exception_ self) 0).
  - cbn in Hin. subst l. destruct (lookup_try tries dex_pc); [done|].
    destruct Hin as [Hin|[]]. by left.
Qed.

(** ** Properties *)

(** The lookup of the try region of an address, with its short cuts and its binary search
    on [uint32_t] bounds, is linear search: on a table of try items in address order it gives
    the handler offset of the one region that covers the address, and -1 when none does. *)
Theorem find_try_region (mem : list Z) (code address : Z) (tries : list TryItem)
  (Htab : try_table mem code tries) :
  HandlerOffsetFor mem code address
  = Some (match lookup_try tries address with Some ti => handler_off_ ti | None => -1 end).
Proof. by apply handler_offset. Qed.

Lemma find_try_region_witness :
  HandlerOffsetFor sample_code 0 3
  = Some (match lookup_try sample_tries 3 with Some ti => handler_off_ ti | None => -1 end).
Proof. apply (find_try_region sample_code 0 3 sample_tries). exact sample_try_table. Defined.

(** The catch handler iterator reads back an encoded handler list: it delivers the typed
    handlers in order, then the catch-all (as type index 0xFFFF) when there is one, then stops
    exactly at the end of the encoding, where [EndDataPointer] points to the next list. *)
Theorem catch_handlers_roundtrip (it0 : CatchHandlerIterator) (hs : list (Z * Z)) (ca : option Z)
  (rest : list Z) (Hwf : wf_handlers hs ca) :
  (InitHandlers it0 (encode_handlers hs ca ++ rest) ≫= collect_handlers (S (length (all_handlers hs ca))))
  = Some (all_handlers hs ca, Some rest).
Proof.
  destruct (init_handlers it0 hs ca rest Hwf) as (it & -> & Hat). cbn [mbind option_bind].
  apply collect_at; [done|lia].
Qed.

Lemma catch_handlers_roundtrip_witness :
  (InitHandlers (new_iterator 0) (encode_handlers [(5, 4)] (Some 3) ++ [9]) ≫= collect_handlers 3)
  = Some ([(5, 4); (0xFFFF, 3)], Some [9]).
Proof.
  apply (catch_handlers_roundtrip (new_iterator 0) [(5, 4)] (Some 3) [9]).
  exact sample_wf_handlers.
Defined.

(** C31: [FindCatchBlock] answers the first handler, in the order of the table, whose type is a
    catch-all or resolves to a superclass of the exception's class, skipping the types that do
    not resolve; without a covering region or an applicable handler it answers [kDexNoIndex].
    An exception that was pending is pending again afterwards, and the move-exception flag
    describes the instruction at the handler. *)
Theorem find_catch_block {W : Type} `{Runtime W} (mem : list Z) (code dex_pc method exc : Z)
  (tries : list TryItem) (hs : list (Z * Z)) (ca : option Z) (self : Thread W)
  (Htab : try_table mem code tries) (Hwf : wf_handlers hs ca)
  (Hmem : forall ti, lookup_try tries dex_pc = Some ti ->
    holds mem (GetCatchHandlerData mem code (handler_off_ ti)) (encode_handlers hs ca)) :
  exists self' pc flag,
    FindCatchBlock mem method code exc dex_pc self = Some (self', pc, flag) /\
    (self', pc, flag) = catch_block_spec mem code method exc
      (match lookup_try tries dex_pc with Some _ => all_handlers hs ca | None => [] end) self /\
    (exception_ self <> 0 -> exception_ self' = exception_ self) /\
    (pc = kDexNoIndex \/ In pc (snd <$> all_handlers hs ca)).
Proof. exact (catch_block_select mem code dex_pc method exc tries hs ca self Htab Hwf Hmem). Qed.

Lemma find_catch_block_witness :
  exists self' pc flag,
    FindCatchBlock sample_code 0 0 102 0 (mkThread 102 (∅ : Small.World)) = Some (self', pc, flag) /\
    (self', pc, flag) = catch_block_spec sample_code 0 0 102
      (match lookup_try sample_tries 0 with Some _ => all_handlers [(5, 4)] (Some 3) | None => [] end)
      (mkThread 102 (∅ : Small.World)) /\
    (102 <> 0 -> exception_ self' = 102) /\
    (pc = kDexNoIndex \/ In pc (snd <$> all_handlers [(5, 4)] (Some 3))).
Proof.
  apply (find_catch_block sample_code 0 0 0 102 sample_tries [(5, 4)] (Some 3)
    (mkThread 102 (∅ : Small.World))).
  - exact sample_try_table.
  - exact sample_wf_handlers.
  - intros ti E. vm_compute in E. injection E as <-. vm_compute. intuition congruence.
Defined.
