(* ===== verification/DebugInfo.v ===== *)
(** * Debug information ([dex_file.{h,cc}])

    [DecodeDebugInfo] runs the byte code of a [debug_info_item] and reports line positions and
    the live ranges of locals to its callbacks.  A [const uint8_t*] into the file is the list of
    the bytes it points at; [LocalInfo*] is the array [local_in_reg].  [None] is a read outside
    the file or an access outside that array. *)
From Stdlib Require Import Sorting.Sorted.
From S2P Require Import Prelude.
From S2P Require Import Arrays.
From S2P Require Import Leb128.
From S2P Require Import DexFile.
From S2P Require Import TryCatch.
Local Open Scope Z_scope.

Definition DBG_END_SEQUENCE : Z := 0x00.
Definition DBG_ADVANCE_PC : Z := 0x01.
Definition DBG_ADVANCE_LINE : Z := 0x02.
Definition DBG_START_LOCAL : Z := 0x03.
Definition DBG_START_LOCAL_EXTENDED : Z := 0x04.
Definition DBG_END_LOCAL : Z := 0x05.
Definition DBG_RESTART_LOCAL : Z := 0x06.
Definition DBG_SET_PROLOGUE_END : Z := 0x07.
Definition DBG_SET_EPILOGUE_BEGIN : Z := 0x08.
Definition DBG_SET_FILE : Z := 0x09.
Definition DBG_FIRST_SPECIAL : Z := 0x0a.
Definition DBG_LINE_BASE : Z := -4.
Definition DBG_LINE_RANGE : Z := 15.

Record LocalInfo := mkLocalInfo {
  name_ : option (list Z);         (* [None] is [nullptr] *)
  descriptor_ : option (list Z);
  signature_ : option (list Z);
  start_address_ : Z;              (* [uint16_t] *)
  is_live_ : bool;
}.
Definition LocalInfo_new : LocalInfo := mkLocalInfo None None None 0 false.

(** The arguments of a [DexDebugNewLocalCb]. *)
Record LocalEntry := mkLocalEntry {
  e_reg : Z;
  e_start : Z;
  e_end : Z;
  e_name : option (list Z);
  e_descriptor : option (list Z);
  e_signature : option (list Z);
}.

(** The values that change while the byte code runs. *)
Record DebugState (C : Type) := mkDebugState {
  address : Z;
  line : Z;
  stream : list Z;
  local_in_reg : list LocalInfo;
  context : C;
}.
Arguments mkDebugState {C}.
Arguments address {C}.
Arguments line {C}.
Arguments stream {C}.
Arguments local_in_reg {C}.
Arguments context {C}.

(** After an opcode: go on, or return from [DecodeDebugInfo0]. *)
Inductive DebugResult (C : Type) := Continue (st : DebugState C) | Return (st : DebugState C).
Arguments Continue {C}.
Arguments Return {C}.

Definition GetDebugInfoStream (df : DexFile) (code_item : Z) : option (list Z) :=
  let off := debug_info_off_ (begin_ df) code_item in
  if off =? 0 then None else Some (drop (Z.to_nat off) (begin_ df)).

Definition GetDescriptor (df : DexFile) (it : ParameterIterator) : option (option (list Z)) :=
  idx ← GetTypeIdx df it; StringByTypeIdx df idx.

Section Decode.
Context {C : Type} (df : DexFile).
Context (position_cb : option (C -> Z -> Z -> C * bool)) (local_cb : option (C -> LocalEntry -> C)).

Definition need_locals : bool := match local_cb with Some _ => true | None => false end.

Definition InvokeLocalCbIfLive (context : C) (reg end_address : Z) (locals : list LocalInfo) : option C :=
  match local_cb with
  | None => Some context
  | Some local_cb =>
      l ← zlookup locals reg;
      if is_live_ l then
        let signature := match signature_ l with None => Some [0] | s => s end in
        Some (local_cb context (mkLocalEntry (u16 reg) (start_address_ l) end_address (name_ l)
                                  (descriptor_ l) signature))
      else Some context
  end.

(** The parameters: [parameters_size - i] of them are left; the inner [None] is the return on
    an invalid stream. *)
Fixpoint DecodeParameters (n : nat) (registers_size : Z) (it : ParameterIterator) (arg_reg : Z)
  (stream : list Z) (locals : list LocalInfo)
  : option (option (ParameterIterator * list Z * list LocalInfo) * list LocalInfo) :=
  match n with
  | O => Some (Some (it, stream, locals), locals)
  | S n' =>
      if negb (HasNextParameter it) then Some (Some (it, stream, locals), locals)
      else if registers_size <=? arg_reg then Some (None, locals)
      else
        '(id, stream) ← DecodeUnsignedLeb128P1 stream;
        descriptor ← GetDescriptor df it;
        locals ← (if need_locals && negb (u32 id =? kDexNoIndex) then
                    name ← StringDataByIdx df (u32 id);
                    zinsert locals arg_reg (mkLocalInfo name descriptor None 0 true)
                  else Some locals);
        d ← descriptor;
        '(c, _) ← read_u8 d;
        let arg_reg :=
          if (c =? 0x44 (* D *)) || (c =? 0x4a (* J *)) then u16 (arg_reg + 2) else u16 (arg_reg + 1) in
        DecodeParameters n' registers_size (NextParameter it) arg_reg stream locals
  end.

Definition StartLocal (registers_size opcode : Z) (st : DebugState C) : option (DebugResult C) :=
  '(reg, stream) ← DecodeUnsignedLeb128 (stream st);
  let reg := u16 reg in
  if registers_size <? reg
  then Some (Return (mkDebugState (address st) (line st) stream (local_in_reg st) (context st)))
  else
    '(name_idx, stream) ← DecodeUnsignedLeb128P1 stream;
    '(descriptor_idx, stream) ← DecodeUnsignedLeb128P1 stream;
    '(signature_idx, stream) ←
      (if opcode =? DBG_START_LOCAL_EXTENDED then DecodeUnsignedLeb128P1 stream else Some (0, stream));
    if need_locals then
      context ← InvokeLocalCbIfLive (context st) reg (address st) (local_in_reg st);
      old ← zlookup (local_in_reg st) reg;
      name ← StringDataByIdx df (u32 name_idx);
      descriptor ← StringByTypeIdx df (u32 descriptor_idx);
      signature ← (if opcode =? DBG_START_LOCAL_EXTENDED then StringDataByIdx df (u32 signature_idx)
                   else Some (signature_ old));
      locals ← zinsert (local_in_reg st) reg
                 (mkLocalInfo name descriptor signature (u16 (address st)) true);
      Some (Continue (mkDebugState (address st) (line st) stream locals context))
    else Some (Continue (mkDebugState (address st) (line st) stream (local_in_reg st) (context st))).

Definition EndLocal (registers_size : Z) (st : DebugState C) : option (DebugResult C) :=
  '(reg, stream) ← DecodeUnsignedLeb128 (stream st);
  let reg := u16 reg in
  if registers_size <? reg
  then Some (Return (mkDebugState (address st) (line st) stream (local_in_reg st) (context st)))
  else if need_locals then
    context ← InvokeLocalCbIfLive (context st) reg (address st) (local_in_reg st);
    l ← zlookup (local_in_reg st) reg;
    locals ← zinsert (local_in_reg st) reg
               (mkLocalInfo (name_ l) (descriptor_ l) (signature_ l) (start_address_ l) false);
    Some (Continue (mkDebugState (address st) (line st) stream locals context))
  else Some (Continue (mkDebugState (address st) (line st) stream (local_in_reg st) (context st))).

Definition RestartLocal (registers_size : Z) (st : DebugState C) : option (DebugResult C) :=
  '(reg, stream) ← DecodeUnsignedLeb128 (stream st);
  let reg := u16 reg in
  let st := mkDebugState (address st) (line st) stream (local_in_reg st) (context st) in
  if registers_size <? reg then Some (Return st)
  else if need_locals then
    l ← zlookup (local_in_reg st) reg;
    match name_ l, descriptor_ l with
    | Some _, Some _ =>
        if negb (is_live_ l) then
          locals ← zinsert (local_in_reg st) reg
                     (mkLocalInfo (name_ l) (descriptor_ l) (signature_ l) (u16 (address st)) true);
          Some (Continue (mkDebugState (address st) (line st) stream locals (context st)))
        else Some (Continue st)
    | _, _ => Some (Return st)
    end
  else Some (Continue st).

(** [/] and [%] of C on a non-negative [adjopcode]. *)
Definition SpecialOpcode (opcode : Z) (st : DebugState C) : DebugResult C :=
  let adjopcode := opcode - DBG_FIRST_SPECIAL in
  let address := u32 (address st + adjopcode / DBG_LINE_RANGE) in
  let line := u32 (line st + (DBG_LINE_BASE + adjopcode mod DBG_LINE_RANGE)) in
  match position_cb with
  | None => Continue (mkDebugState address line (stream st) (local_in_reg st) (context st))
  | Some position_cb =>
      let '(context, stop) := position_cb (context st) address line in
      let st := mkDebugState address line (stream st) (local_in_reg st) context in
      if stop : bool then Return st else Continue st
  end.

(** One iteration of the loop over opcodes. *)
Definition DebugStep (registers_size : Z) (st : DebugState C) : option (DebugResult C) :=
  '(opcode, str) ← read_u8 (stream st);
  let st := mkDebugState (address st) (line st) str (local_in_reg st) (context st) in
  if opcode =? DBG_END_SEQUENCE then Some (Return st)
  else if opcode =? DBG_ADVANCE_PC then
    '(d, str) ← DecodeUnsignedLeb128 (stream st);
    Some (Continue (mkDebugState (u32 (address st + d)) (line st) str (local_in_reg st) (context st)))
  else if opcode =? DBG_ADVANCE_LINE then
    '(d, str) ← DecodeSignedLeb128 (stream st);
    Some (Continue (mkDebugState (address st) (u32 (line st + d)) str (local_in_reg st) (context st)))
  else if (opcode =? DBG_START_LOCAL) || (opcode =? DBG_START_LOCAL_EXTENDED) then
    StartLocal registers_size opcode st
  else if opcode =? DBG_END_LOCAL then EndLocal registers_size st
  else if opcode =? DBG_RESTART_LOCAL then RestartLocal registers_size st
  else if (opcode =? DBG_SET_PROLOGUE_END) || (opcode =? DBG_SET_EPILOGUE_BEGIN)
          || (opcode =? DBG_SET_FILE) then Some (Continue st)
  else Some (SpecialOpcode opcode st).

(** Every iteration reads a byte: the length of the stream and one more is enough fuel. *)
Fixpoint DebugLoop (fuel : nat) (registers_size : Z) (st : DebugState C) : option (DebugState C) :=
  match fuel with
  | O => None
  | S fuel' =>
      r ← DebugStep registers_size st;
      match r with
      | Return st => Some st
      | Continue st => DebugLoop fuel' registers_size st
      end
  end.

(** The locals and the context when it returns. *)
Definition DecodeDebugInfo0 (code_item : Z) (is_static : bool) (method_idx : Z) (context : C)
  (stream : list Z) (locals : list LocalInfo) : option (list LocalInfo * C) :=
  let registers_size := registers_size_ (begin_ df) code_item in
  '(line, stream) ← DecodeUnsignedLeb128 stream;
  '(parameters_size, stream) ← DecodeUnsignedLeb128 stream;
  let arg_reg := u16 (registers_size - ins_size_ (begin_ df) code_item) in
  method_id ← GetMethodId df method_idx;
  '(arg_reg, locals) ←
    (if negb is_static then
       locals ← (if need_locals then
                   descriptor ← GetMethodDeclaringClassDescriptor df method_id;
                   zinsert locals arg_reg
                     (mkLocalInfo (Some [0x74; 0x68; 0x69; 0x73; 0]) descriptor None 0 true)
                 else Some locals);
       Some (u16 (arg_reg + 1), locals)
     else Some (arg_reg, locals));
  proto ← GetProtoId df (m_proto_idx_ method_id);
  it ← MakeParameterIterator df proto;
  '(r, locals) ← DecodeParameters (Z.to_nat parameters_size) registers_size it arg_reg stream locals;
  match r with
  | None => Some (locals, context)
  | Some (it, stream, locals) =>
      if HasNextParameter it then Some (locals, context)
      else
        st ← DebugLoop (S (length stream)) registers_size (mkDebugState 0 line stream locals context);
        Some (local_in_reg st, DebugInfo.context st)
  end.

(** The loop at the end of [DecodeDebugInfo]. *)
Fixpoint EndLocals (n : nat) (reg end_address : Z) (locals : list LocalInfo) (context : C) : option C :=
  match n with
  | O => Some context
  | S n' =>
      context ← InvokeLocalCbIfLive context reg end_address locals;
      EndLocals n' (reg + 1) end_address locals context
  end.

Definition DecodeDebugInfo (code_item : Z) (is_static : bool) (method_idx : Z) (context : C) : option C :=
  let registers_size := registers_size_ (begin_ df) code_item in
  let locals := if need_locals then repeat LocalInfo_new (Z.to_nat registers_size) else [] in
  '(locals, context) ←
    match GetDebugInfoStream df code_item with
    | Some stream => DecodeDebugInfo0 code_item is_static method_idx context stream locals
    | None => Some (locals, context)
    end;
  EndLocals (Z.to_nat registers_size) 0 (insns_size_in_code_units_ (begin_ df) code_item) locals context.
End Decode.

(** ** Line numbers *)

Record LineNumFromPcContext := mkLineContext { address_ : Z; line_num_ : Z }.

Definition LineNumForPcCb (context : LineNumFromPcContext) (address line_num : Z)
  : LineNumFromPcContext * bool :=
  if address_ context <? address then (context, true)
  else (mkLineContext (address_ context) line_num, address =? address_ context).

Definition GetLineNumFromPC (df : DexFile) (code_item_off : Z) (is_static : bool) (method_idx rel_pc : Z)
  : option Z :=
  match GetCodeItem code_item_off with
  | None => Some (-2)
  | Some code_item =>
      context ← DecodeDebugInfo df (Some LineNumForPcCb) None code_item is_static method_idx
                  (mkLineContext rel_pc (u32 (-1)));
      Some (s32 (line_num_ context))
  end.

(** ** What the byte code means

    The operations of a debug sequence, the bytes they are written as, and the positions
    (address and line) they emit. *)
Inductive DebugOp :=
  | AdvancePc (d : Z)
  | AdvanceLine (d : Z)
  | OpStartLocal (reg name type : Z)
  | OpStartLocalExtended (reg name type sig : Z)
  | OpEndLocal (reg : Z)
  | OpRestartLocal (reg : Z)
  | PrologueEnd
  | EpilogueBegin
  | Special (k : Z).

Definition encode_op (op : DebugOp) : list Z :=
  match op with
  | AdvancePc d => DBG_ADVANCE_PC :: EncodeUnsignedLeb128 d
  | AdvanceLine d => DBG_ADVANCE_LINE :: EncodeSignedLeb128 d
  | OpStartLocal r n t =>
      DBG_START_LOCAL :: EncodeUnsignedLeb128 r ++ EncodeUnsignedLeb128 n ++ EncodeUnsignedLeb128 t
  | OpStartLocalExtended r n t s =>
      DBG_START_LOCAL_EXTENDED :: EncodeUnsignedLeb128 r ++ EncodeUnsignedLeb128 n
        ++ EncodeUnsignedLeb128 t ++ EncodeUnsignedLeb128 s
  | OpEndLocal r => DBG_END_LOCAL :: EncodeUnsignedLeb128 r
  | OpRestartLocal r => DBG_RESTART_LOCAL :: EncodeUnsignedLeb128 r
  | PrologueEnd => [DBG_SET_PROLOGUE_END]
  | EpilogueBegin => [DBG_SET_EPILOGUE_BEGIN]
  | Special k => [DBG_FIRST_SPECIAL + k]
  end.
Definition encode_ops (ops : list DebugOp) : list Z := concat (encode_op <$> ops).

(** Operands of their types, registers of the method. *)
Definition wf_op (registers_size : Z) (op : DebugOp) : Prop :=
  let reg r := 0 <= r < registers_size in
  match op with
  | AdvancePc d => is_u 32 d
  | AdvanceLine d => is_s 32 d
  | OpStartLocal r n t => reg r /\ is_u 32 n /\ is_u 32 t
  | OpStartLocalExtended r n t s => reg r /\ is_u 32 n /\ is_u 32 t /\ is_u 32 s
  | OpEndLocal r | OpRestartLocal r => reg r
  | PrologueEnd | EpilogueBegin => True
  | Special k => 0 <= k < 246
  end.

(** The positions emitted from address [a] and line [l] on, in unbounded arithmetic. *)
Fixpoint positions (a l : Z) (ops : list DebugOp) : list (Z * Z) :=
  match ops with
  | [] => []
  | AdvancePc d :: ops => positions (a + d) l ops
  | AdvanceLine d :: ops => positions a (l + d) ops
  | Special k :: ops =>
      let a := a + k / 15 in
      let l := l + (k mod 15 - 4) in (a, l) :: positions a l ops
  | _ :: ops => positions a l ops
  end.

(** The line of [pc]: that of the first position at [pc], else of the last one before it. *)
Definition line_for_pc (pc : Z) (ps : list (Z * Z)) : Z :=
  match list_find (fun p => p.1 = pc) ps with
  | Some (_, p) => p.2
  | None => match last (filter (fun p => p.1 < pc) ps) with Some p => p.2 | None => -1 end
  end.

(** [n] parameters whose descriptors can be read and whose registers, from [arg_reg] on, are
    registers of the method. *)
Fixpoint arguments_fit (df : DexFile) (n : nat) (it : ParameterIterator) (arg_reg registers_size : Z)
  : Prop :=
  match n with
  | O => HasNextParameter it = false
  | S n =>
      HasNextParameter it = true /\ arg_reg < registers_size /\
      exists d c r, GetDescriptor df it = Some (Some d) /\ read_u8 d = Some (c, r) /\
        arguments_fit df n (NextParameter it)
          (if (c =? 0x44) || (c =? 0x4a) then u16 (arg_reg + 2) else u16 (arg_reg + 1)) registers_size
  end.

(** ** Decoding what was encoded *)

Lemma decode_encode_signed v rest :
  is_s 32 v -> DecodeSignedLeb128 (EncodeSignedLeb128 v ++ rest) = Some (v, rest).
Proof. intros Hv. rewrite encode_signed_digits by done. by apply decode_signed_digits. Qed.

Lemma decode_encode_P1 v rest :
  is_u 32 v -> DecodeUnsignedLeb128P1 (EncodeUnsignedLeb128 v ++ rest) = Some (s32 (u32 (v - 1)), rest).
Proof. intros Hv. unfold DecodeUnsignedLeb128P1. by rewrite decode_encode. Qed.

Lemma encode_unsigned_nonempty v : is_u 32 v -> (1 <= length (EncodeUnsignedLeb128 v))%nat.
Proof. intros. rewrite length_encode by done. lia. Qed.

Ltac unfold_dbg := unfold DBG_END_SEQUENCE, DBG_ADVANCE_PC, DBG_ADVANCE_LINE, DBG_START_LOCAL,
  DBG_START_LOCAL_EXTENDED, DBG_END_LOCAL, DBG_RESTART_LOCAL, DBG_SET_PROLOGUE_END,
  DBG_SET_EPILOGUE_BEGIN, DBG_SET_FILE in *.

(** Evaluates everything but the codecs and the wrap-around. *)
Ltac run_op := cbn -[DecodeUnsignedLeb128 DecodeSignedLeb128 DecodeUnsignedLeb128P1
  EncodeUnsignedLeb128 EncodeSignedLeb128 u s].

#[local] Instance is_special_decision op : Decision (exists k, op = Special k).
Proof. destruct op; (by right; intros [? ?]) || (left; by eexists). Defined.

Section Positions.
Context {C : Type} (df : DexFile) (position_cb : C -> Z -> Z -> C * bool).
Abbreviation Step := (DebugStep df (Some position_cb) None).
Abbreviation Loop := (DebugLoop df (Some position_cb) None).

(** The callback over a list of positions, until it asks to stop. *)
Fixpoint feed (context : C) (ps : list (Z * Z)) : C :=
  match ps with
  | [] => context
  | (a, l) :: ps =>
      let '(context, stop) := position_cb context a l in
      if stop : bool then context else feed context ps
  end.

(** Every operation without positions moves the registers and goes on. *)
Lemma step_silent regs op a l rest locals c :
  regs <= 65536 -> wf_op regs op -> (forall k, op <> Special k) ->
  Step regs (mkDebugState (u32 a) (u32 l) (encode_op op ++ rest) locals c)
  = Some (Continue (mkDebugState
      (u32 (a + match op with AdvancePc d => d | _ => 0 end))
      (u32 (l + match op with AdvanceLine d => d | _ => 0 end)) rest locals c)).
Proof.
  intros Hregs Hwf Hns.
  assert (Hreg : forall r, 0 <= r < regs -> u16 r = r /\ (regs <? r) = false /\ is_u 32 r).
  { intros r Hr. split_all; [word_lia|by apply Z.ltb_ge; lia|word_lia]. }
  destruct op; cbn [wf_op] in Hwf; try (by exfalso; eapply Hns); destruct_and?; rewrite ?Z.add_0_r;
    try match goal with H1 : 0 <= ?r, H2 : ?r < regs |- _ =>
      destruct (Hreg r (conj H1 H2)) as (Er & Lr & ?) end;
    unfold DebugStep, encode_op; cbn [app read_u8 stream address line local_in_reg context];
    unfold StartLocal, EndLocal, RestartLocal, need_locals; rewrite <- ?app_assoc; run_op;
    rewrite ?decode_encode, ?decode_encode_signed by done; run_op; rewrite ?Er, ?Lr;
    do 3 (rewrite ?decode_encode_P1 by done; run_op); do 3 f_equal; word_lia.
Qed.

Lemma step_special regs k a l rest locals c :
  0 <= k < 246 ->
  Step regs (mkDebugState (u32 a) (u32 l) (encode_op (Special k) ++ rest) locals c)
  = let a := a + k / 15 in
    let l := l + (k mod 15 - 4) in
    let '(c, stop) := position_cb c (u32 a) (u32 l) in
    let st := mkDebugState (u32 a) (u32 l) rest locals c in
    Some (if stop : bool then Return st else Continue st).
Proof.
  intros Hk. cbv zeta.
  assert (Ea : u32 (u32 a + k / 15) = u32 (a + k / 15)) by word_lia.
  assert (El : u32 (u32 l + (-4 + k mod 15)) = u32 (l + (k mod 15 - 4))) by word_lia.
  unfold DebugStep, encode_op. cbn [app read_u8 stream address line local_in_reg context].
  cbn [mbind option_bind]. cbv beta iota zeta. unfold DBG_FIRST_SPECIAL.
  repeat match goal with |- context [10 + k =? ?c] =>
    replace (10 + k =? c) with false by (symmetry; apply Z.eqb_neq; unfold_dbg; lia) end.
  cbn [orb]. unfold SpecialOpcode, DBG_FIRST_SPECIAL, DBG_LINE_RANGE, DBG_LINE_BASE.
  cbn [stream address line local_in_reg context].
  replace (10 + k - 10) with k by lia. rewrite Ea, El.
  by destruct (position_cb c _ _) as [c' []].
Qed.

Lemma encode_op_nonempty op : encode_op op <> [].
Proof. by destruct op. Qed.

(** The loop feeds the positions of the operations to the callback. *)
Lemma loop_feeds regs ops a l rest locals c fuel :
  regs <= 65536 -> Forall (wf_op regs) ops ->
  Forall (fun p => is_u 32 p.1 /\ is_u 32 p.2) (positions a l ops) ->
  (length (encode_ops ops ++ DBG_END_SEQUENCE :: rest) < fuel)%nat ->
  exists st, Loop fuel regs (mkDebugState (u32 a) (u32 l)
                 (encode_ops ops ++ DBG_END_SEQUENCE :: rest) locals c) = Some st /\
    context st = feed c (positions a l ops) /\ local_in_reg st = locals.
Proof.
  intros Hregs Hwf. revert a l c fuel. induction Hwf as [|op ops Hop Hwf IH]; intros a l c fuel Hps Hf.
  - destruct fuel as [|fuel]; [simpl in Hf; lia|]. by eexists.
  - change (encode_ops (op :: ops)) with (encode_op op ++ encode_ops ops) in *.
    rewrite <- app_assoc in *. rewrite length_app in Hf.
    pose proof (encode_op_nonempty op) as Hne.
    destruct (encode_op op) as [|b bs] eqn:Eop; [done|]. rewrite <- Eop in *.
    destruct fuel as [|fuel]; [lia|]. rewrite Eop in Hf. simpl length in Hf.
    cbn [DebugLoop].
    destruct (decide (exists k, op = Special k)) as [[k ->]|Hns].
    + rewrite step_special by done. cbn [positions feed] in Hps |- *.
      inversion_clear Hps as [|? ? [Ha Hl] Hps']. cbn [fst snd] in Ha, Hl. cbv zeta.
      pose proof (u_small _ _ Ha) as Ea. pose proof (u_small _ _ Hl) as El.
      replace (position_cb c (a + k / 15) (l + (k mod 15 - 4)))
        with (position_cb c (u32 (a + k / 15)) (u32 (l + (k mod 15 - 4)))) by by rewrite Ea, El.
      destruct (position_cb c _ _) as [c' []]; cbn [mbind option_bind]; [by eexists|].
      apply IH; [done|lia].
    + rewrite step_silent by (try done; intros k ->; by apply Hns; eexists).
      cbn [mbind option_bind].
      destruct op; cbn [positions] in Hps |- *; rewrite ?Z.add_0_r; try (apply IH; [done|lia]).
      exfalso. apply Hns. by eexists.
Qed.
End Positions.

(** Without a callback for locals the parameters are only skipped. *)
Lemma parameters_skipped {C} df n names regs it arg_reg rest locals :
  length names = n -> Forall (is_u 32) names -> arguments_fit df n it arg_reg regs ->
  exists it', DecodeParameters (C:=C) df None n regs it arg_reg
                (concat (EncodeUnsignedLeb128 <$> names) ++ rest) locals
              = Some (Some (it', rest, locals), locals) /\ HasNextParameter it' = false.
Proof.
  revert names it arg_reg. induction n as [|n IH]; intros names it arg_reg Hn Hnames Hfit.
  - destruct names; [|done]. by exists it.
  - destruct names as [|x names]; [done|]. injection Hn as Hn.
    inversion_clear Hnames as [|? ? Hx Hxs]. destruct Hfit as (Hnext & Harg & d & c & r & Ed & Ec & Hfit).
    destruct (IH names _ _ Hn Hxs Hfit) as (it' & E & Hit').
    exists it'. split; [|done]. cbn [DecodeParameters]. rewrite Hnext. cbn [negb].
    rewrite (proj2 (Z.leb_gt _ _)) by lia.
    change (concat (EncodeUnsignedLeb128 <$> x :: names))
      with (EncodeUnsignedLeb128 x ++ concat (EncodeUnsignedLeb128 <$> names)).
    rewrite <- app_assoc, decode_encode_P1 by done. run_op. rewrite Ed. run_op.
    rewrite Ec. run_op. exact E.
Qed.

(** Addresses never decrease. *)
Lemma positions_from regs a l ops :
  Forall (wf_op regs) ops -> Forall (fun p => a <= p.1) (positions a l ops).
Proof.
  intros H. revert a l. induction H as [|op ops Hop _ IH]; intros a l; [constructor|].
  assert (Hmono : forall a' l', a <= a' -> Forall (fun p => a <= p.1) (positions a' l' ops)).
  { intros a' l' Ha. eapply Forall_impl; [apply (IH a' l')|]. cbn beta. lia. }
  destruct op; cbn [wf_op] in Hop; cbn [positions]; try (apply Hmono; word_lia).
  assert (0 <= k / 15) by (apply Z.div_pos; lia).
  constructor; [cbn; lia|apply Hmono; lia].
Qed.

Lemma positions_sorted regs a l ops :
  Forall (wf_op regs) ops -> StronglySorted (fun p q => p.1 <= q.1) (positions a l ops).
Proof.
  intros H. revert a l. induction H as [|op ops Hop Hops IH]; intros a l; [constructor|].
  destruct op; cbn [positions]; try apply IH.
  constructor; [apply IH|]. by apply (positions_from regs).
Qed.

Lemma none_at pc (ps : list (Z * Z)) :
  Forall (fun p => pc < p.1) ps ->
  list_find (fun p => p.1 = pc) ps = None /\ filter (fun p : Z * Z => p.1 < pc) ps = [].
Proof.
  induction 1 as [|p ps Hp _ [IH1 IH2]]; [done|]. cbn [list_find]. rewrite decide_False by lia.
  rewrite IH1. split; [done|]. rewrite filter_cons_False by lia. done.
Qed.

Lemma feed_line pc l0 ps :
  StronglySorted (fun p q => p.1 <= q.1) ps ->
  line_num_ (feed LineNumForPcCb (mkLineContext pc l0) ps)
  = match list_find (fun p => p.1 = pc) ps with
    | Some (_, p) => p.2
    | None => match last (filter (fun p => p.1 < pc) ps) with Some p => p.2 | None => l0 end
    end.
Proof.
  intros Hs. revert l0. induction Hs as [|[a l] ps Hs IH Hle]; intros l0; [done|].
  cbn [feed list_find fst snd]. unfold LineNumForPcCb. cbn [address_ line_num_].
  destruct (pc <? a) eqn:Ea; [apply Z.ltb_lt in Ea|apply Z.ltb_ge in Ea].
  - rewrite decide_False by lia. rewrite filter_cons_False by (cbn; lia).
    destruct (none_at pc ps) as [-> ->]; [|done].
    eapply Forall_impl; [exact Hle|]. cbn. lia.
  - destruct (a =? pc) eqn:Eq; [apply Z.eqb_eq in Eq|apply Z.eqb_neq in Eq].
    + by rewrite decide_True.
    + rewrite decide_False by done. rewrite filter_cons_True by (cbn; lia).
      fold LineNumForPcCb. rewrite IH. destruct (list_find _ ps) as [[i p]|]; [done|]. cbn [fmap option_map].
      rewrite last_cons. by destruct (last _).
Qed.

Lemma no_locals_left {C} n reg e (locals : list LocalInfo) (c : C) : EndLocals None n reg e locals c = Some c.
Proof. revert reg. induction n as [|n IH]; intros reg; [done|]. cbn. apply IH. Qed.

Lemma line_converts pc ps :
  Forall (fun p => 0 <= p.2 < 2 ^ 31) ps ->
  s32 (match list_find (fun p : Z * Z => p.1 = pc) ps with
       | Some (_, p) => p.2
       | None => match last (filter (fun p : Z * Z => p.1 < pc) ps) with Some p => p.2 | None => u32 (-1) end
       end) = line_for_pc pc ps.
Proof.
  intros H. rewrite Forall_forall in H. unfold line_for_pc.
  destruct (list_find _ ps) as [[i p]|] eqn:E.
  - apply list_find_Some in E as (E & _). apply list_elem_of_lookup_2, H in E.
    apply s_small; [done|]. word_lia.
  - destruct (last _) as [p|] eqn:El; [|done]. apply last_Some_elem_of, list_elem_of_filter in El as [_ El].
    apply H in El. apply s_small; [done|]. word_lia.
Qed.

(** ** Properties *)


(** A static method with an [int] parameter, three registers and debug information at 76. *)
Definition sample_ops : list DebugOp :=
  [PrologueEnd; Special 4; OpStartLocal 0 0 0; AdvanceLine 5; Special 34; AdvancePc 3; OpEndLocal 0; Special 20].
Definition sample_debug : list Z :=
  EncodeUnsignedLeb128 10 ++ EncodeUnsignedLeb128 1 ++ EncodeUnsignedLeb128 0 ++ encode_ops sample_ops
    ++ [DBG_END_SEQUENCE].
Definition sample_debug_dex : DexFile :=
  {| begin_ := [0; 0; 0; 0] ++ [3; 0; 1; 0; 0; 0; 0; 0; 76; 0; 0; 0; 8; 0; 0; 0] ++ replicate 12 0
       ++ [0; 0; 0; 0; 0; 0; 0; 0] ++ [0; 0; 0; 0; 0; 0; 0; 0; 56; 0; 0; 0] ++ replicate 4 0
       ++ [1; 0; 0; 0; 0; 0; 0; 0] ++ [0; 0; 0; 0] ++ [72; 0; 0; 0] ++ [1; 0x49; 0; 0] ++ sample_debug;
     header_ :=
  {| magic_ := []; checksum_ := 0; DexFile.signature_ := []; file_size_ := 0; header_size_ := 0;
     endian_tag_ := 0; link_size_ := 0; link_off_ := 0; map_off_ := 0;
     string_ids_size_ := 1; string_ids_off_ := 68; type_ids_size_ := 1; type_ids_off_ := 64;
     proto_ids_size_ := 1; proto_ids_off_ := 40; field_ids_size_ := 0; field_ids_off_ := 0;
     method_ids_size_ := 1; method_ids_off_ := 32; class_defs_size_ := 0;
     class_defs_off_ := 0; data_size_ := 0; data_off_ := 0 |} |}.


(** The register of an operation on a local is checked against the register count with an
    off-by-one: a register below the count updates [local_in_reg]; one above it stops the
    decoder; the count itself passes the check and is used as an index one past the end of the
    array the caller allocated ([None]). *)
Theorem local_register_bounds {C : Type} (df : DexFile) (position_cb : option (C -> Z -> Z -> C * bool))
  (local_cb : C -> LocalEntry -> C) (regs reg a l : Z) (rest : list Z) (locals : list LocalInfo) (c : C)
  (Hreg : 0 <= reg < 65536) (Hlocals : Z.of_nat (length locals) = regs) :
  let str := EncodeUnsignedLeb128 reg ++ rest in
  DebugStep df position_cb (Some local_cb) regs (mkDebugState a l (DBG_END_LOCAL :: str) locals c)
  = match reg ?= regs with
    | Lt => old ← zlookup locals reg;
            Some (Continue (mkDebugState a l rest
              (zset locals reg (mkLocalInfo (name_ old) (descriptor_ old) (signature_ old)
                   (start_address_ old) false))
              (if is_live_ old then local_cb c (mkLocalEntry reg (start_address_ old) a (name_ old)
                 (descriptor_ old) (match signature_ old with None => Some [0] | s => s end)) else c)))
    | Eq => None
    | Gt => Some (Return (mkDebugState a l rest locals c))
    end /\
  (reg = regs ->
   DebugStep df position_cb (Some local_cb) regs (mkDebugState a l (DBG_RESTART_LOCAL :: str) locals c) = None).
Proof.
  cbv zeta. assert (Hu : is_u 32 reg) by word_lia. assert (E16 : u16 reg = reg) by word_lia.
  unfold DebugStep, EndLocal, RestartLocal, InvokeLocalCbIfLive, need_locals. run_op.
  rewrite decode_encode by done. run_op. rewrite E16. split.
  - destruct (Z.compare_spec reg regs) as [Heq|Hlt|Hgt].
    + rewrite (proj2 (Z.ltb_ge _ _)), zlookup_none by lia. done.
    + rewrite (proj2 (Z.ltb_ge _ _)) by lia.
      destruct (zlookup_some locals reg) as [old Eold]; [lia|]. rewrite Eold. run_op.
      rewrite zinsert_some by lia. destruct (is_live_ old); [|done]. run_op. by rewrite E16.
    + by rewrite (proj2 (Z.ltb_lt _ _)) by lia.
  - intros Heq. rewrite (proj2 (Z.ltb_ge _ _)), zlookup_none by lia. done.
Qed.

Lemma local_register_bounds_witness :
  let st := mkDebugState 5 9 (DBG_END_LOCAL :: EncodeUnsignedLeb128 1) [LocalInfo_new] (@nil LocalEntry) in
  DebugStep sample_debug_dex None (Some (fun c e => e :: c)) 1 st = None.
Proof. exact (proj1 (local_register_bounds sample_debug_dex None (fun c e => e :: c) 1 1 5 9 []
  [LocalInfo_new] [] ltac:(lia) eq_refl)). Defined.
