(* ===== verification/Descriptors.v ===== *)
(** * Names and descriptors ([utils.cc])

    [IsValidMemberName], [IsValidDescriptor] and the class name checks.  A [const char*] is the
    list of the bytes it points at; [None] is a read past the end of the memory it points into. *)
From S2P Require Import Prelude.
From S2P Require Import Utf.
Local Open Scope Z_scope.

(** ** Parts of names *)

Definition DEX_MEMBER_VALID_LOW_ASCII : list Z := [0x00000000; 0x03ff2010; 0x87fffffe; 0x07fffffe].

(** The answer, and the pointer after the character (which may have been advanced only in part
    when the answer is false). *)
Definition IsValidPartOfMemberNameUtf8Slow (p : list Z) : option (bool * list Z) :=
  '(code, p) ← GetUtf16FromUtf8 p;
  let leading := GetLeadingUtf16Char code in
  if negb (GetTrailingUtf16Char code =? 0) then Some (true, p)
  else
    let high := leading ≫ 8 in
    if high =? 0x00 then Some (0x00a0 <? leading, p)
    else if (0xd8 <=? high) && (high <=? 0xdb) then
      '(code2, p) ← GetUtf16FromUtf8 p;
      let trailing := GetLeadingUtf16Char code2 in
      Some ((GetTrailingUtf16Char code2 =? 0) && ((0xdc00 <=? trailing) && (trailing <=? 0xdfff)), p)
    else if (0xdc <=? high) && (high <=? 0xdf) then Some (false, p)
    else if (high =? 0x20) || (high =? 0xff) then
      let block := Z.land leading 0xfff8 in
      Some (negb ((block =? 0x2000) || (block =? 0x2008) || (block =? 0x2028) || (block =? 0xfff0)
                  || (block =? 0xfff8)), p)
    else Some (true, p).

Definition IsValidPartOfMemberNameUtf8 (p : list Z) : option (bool * list Z) :=
  '(c, p') ← read_u8 p;
  if c <=? 0x7f then
    let word := nth (Z.to_nat (c ≫ 5)) DEX_MEMBER_VALID_LOW_ASCII 0 in
    Some (negb (Z.land word (1 ≪ Z.land c 0x1f) =? 0), p')
  else IsValidPartOfMemberNameUtf8Slow p.

(** ** Member names *)

(** The [while (true)] loop: every iteration but the last reads a character. *)
Fixpoint MemberNameLoop (fuel : nat) (angle_name : bool) (s : list Z) : option bool :=
  match fuel with
  | O => None
  | S fuel =>
      '(c, s1) ← read_u8 s;
      if c =? 0 then Some (negb angle_name)
      else if c =? 0x3e (* > *) then
        if angle_name then '(d, _) ← read_u8 s1; Some (d =? 0) else Some false
      else
        '(ok, s) ← IsValidPartOfMemberNameUtf8 s;
        if ok : bool then MemberNameLoop fuel angle_name s else Some false
  end.

Definition IsValidMemberName (s : list Z) : option bool :=
  '(c, s1) ← read_u8 s;
  if c =? 0 then Some false
  else
    let angle_name := c =? 0x3c (* < *) in
    let s := if angle_name then s1 else s in
    MemberNameLoop (S (length s)) angle_name s.

(** ** Class names and descriptors *)

Inductive ClassNameType := kName | kDescriptor.

(** [while ( *s == '[')]. *)
Fixpoint SkipBrackets (s : list Z) (arrayCount : Z) : option (Z * list Z) :=
  match s with
  | [] => None
  | c :: s' => if c =? 0x5b then SkipBrackets s' (arrayCount + 1) else Some (arrayCount, s)
  end.

(** The loop over the characters of the class name. *)
Fixpoint ClassNameLoop (fuel : nat) (type : ClassNameType) (kSeparator : Z) (sepOrFirst : bool)
  (s : list Z) : option bool :=
  match fuel with
  | O => None
  | S fuel =>
      '(c, s1) ← read_u8 s;
      if c =? 0 then Some (match type with kName => negb sepOrFirst | kDescriptor => false end)
      else if c =? 0x3b (* ; *) then
        match type with
        | kDescriptor => if sepOrFirst then Some false else '(d, _) ← read_u8 s1; Some (d =? 0)
        | kName => Some false
        end
      else if (c =? 0x2f (* / *)) || (c =? 0x2e (* . *)) then
        if negb (c =? kSeparator) then Some false
        else if sepOrFirst then Some false
        else ClassNameLoop fuel type kSeparator true s1
      else
        '(ok, s) ← IsValidPartOfMemberNameUtf8 s;
        if ok : bool then ClassNameLoop fuel type kSeparator false s else Some false
  end.

(** [B C D F I J S Z]. *)
Definition is_primitive (c : Z) : bool :=
  bool_decide (c ∈ [0x42; 0x43; 0x44; 0x46; 0x49; 0x4a; 0x53; 0x5a]).

Definition IsValidClassName (kType : ClassNameType) (kSeparator : Z) (s : list Z) : option bool :=
  '(arrayCount, s) ← SkipBrackets s 0;
  if 255 <? arrayCount then Some false
  else
    let type := match kType with
                | kDescriptor => kDescriptor
                | kName => if negb (arrayCount =? 0) then kDescriptor else kName
                end in
    match type with
    | kName => ClassNameLoop (S (length s)) type kSeparator true s
    | kDescriptor =>
        '(c, s) ← read_u8 s;
        if is_primitive c then '(d, _) ← read_u8 s; Some (d =? 0)
        else if c =? 0x56 (* V *) then
          if arrayCount =? 0 then '(d, _) ← read_u8 s; Some (d =? 0) else Some false
        else if c =? 0x4c (* L *) then ClassNameLoop (S (length s)) type kSeparator true s
        else Some false
    end.

Definition IsValidBinaryClassName (s : list Z) : option bool := IsValidClassName kName 0x2e s.
Definition IsValidJniClassName (s : list Z) : option bool := IsValidClassName kName 0x2f s.
Definition IsValidDescriptor (s : list Z) : option bool := IsValidClassName kDescriptor 0x2f s.

(** ** The grammar

    A part of a name is the bytes of a character the check accepts. *)
Definition name_part (p : list Z) : Prop :=
  p <> [] /\ forall rest, IsValidPartOfMemberNameUtf8 (p ++ rest) = Some (true, rest).

(** A non-empty sequence of parts. *)
Definition simple_name (s : list Z) : Prop :=
  exists ps, ps <> [] /\ Forall name_part ps /\ s = concat ps.

(** Simple names with separators between them. *)
Inductive class_name (sep : Z) : list Z -> Prop :=
  | class_name_last s : simple_name s -> class_name sep s
  | class_name_sep s t : simple_name s -> class_name sep t -> class_name sep (s ++ sep :: t).

Definition descriptor (s : list Z) : Prop :=
  exists n body, Z.of_nat n <= 255 /\ s = replicate n 0x5b ++ body /\
    ((exists c, is_primitive c = true /\ body = [c]) \/
     (n = O /\ body = [0x56]) \/
     (exists name, class_name 0x2f name /\ body = 0x4c :: name ++ [0x3b])).

Definition member_name (s : list Z) : Prop :=
  simple_name s \/ s = [0x3c; 0x3e] \/ exists t, simple_name t /\ s = 0x3c :: t ++ [0x3e].

(** The same as a word of the automaton the loop runs: [first] tells whether a part has to
    come next. *)
Inductive name_rest (sep : Z) : bool -> list Z -> Prop :=
  | name_rest_end : name_rest sep false []
  | name_rest_part first p t :
      name_part p -> name_rest sep false t -> name_rest sep first (p ++ t)
  | name_rest_sep t : name_rest sep true t -> name_rest sep false (sep :: t).

(** ** Characters *)

(** A reader of a pointer that looks only at the bytes it consumes; [strictly] when it consumes
    one at least. *)
Definition local_reader {A} (strictly : bool) (f : list Z -> option (A * list Z)) : Prop :=
  forall s a r, f s = Some (a, r) ->
    exists p, (strictly = true -> p <> []) /\ s = p ++ r /\ forall r', f (p ++ r') = Some (a, r').

Lemma local_ret {A} (a : A) : local_reader false (fun s => Some (a, s)).
Proof. intros s x r [= <- <-]. by exists []. Qed.

Lemma local_weaken {A} b (f : list Z -> option (A * list Z)) : local_reader b f -> local_reader false f.
Proof. intros Hf s a r H. destruct (Hf s a r H) as (p & _ & H'). by exists p. Qed.

Lemma local_bind {A B} b (f : list Z -> option (A * list Z)) (g : A -> list Z -> option (B * list Z)) :
  local_reader b f -> (forall a, local_reader false (g a)) ->
  local_reader b (fun s => '(a, s) ← f s; g a s).
Proof.
  intros Hf Hg s y r H. destruct (f s) as [[a s1]|] eqn:E; [|done]. cbn in H.
  destruct (Hf _ _ _ E) as (p & Hp & -> & Hp'). destruct (Hg a _ _ _ H) as (q & _ & -> & Hq).
  exists (p ++ q). split_all.
  - intros Hb. specialize (Hp Hb). by destruct p.
  - apply app_assoc.
  - intros r'. rewrite <- app_assoc, Hp'. cbn. apply Hq.
Qed.

Lemma local_if {A} b (c : bool) (f g : list Z -> option (A * list Z)) :
  local_reader b f -> local_reader b g -> local_reader b (fun s => if c then f s else g s).
Proof. by destruct c. Qed.

Lemma local_read_u8 : local_reader true read_u8.
Proof. intros [|x s] a r [= <- <-]. by exists [x]. Qed.

(** Decoding a character looks at its bytes only. *)
Lemma utf16_local : local_reader true GetUtf16FromUtf8.
Proof.
  apply (local_bind true read_u8 (fun one p => _) local_read_u8). intros one.
  apply local_if; [apply local_ret|].
  apply (local_weaken true), (local_bind true read_u8 (fun two p => _) local_read_u8). intros two.
  apply local_if; [apply local_ret|].
  apply (local_weaken true), (local_bind true read_u8 (fun three p => _) local_read_u8). intros three.
  apply local_if; [apply local_ret|].
  apply (local_weaken true), (local_bind true read_u8 (fun four p => _) local_read_u8). intros four.
  apply local_ret.
Qed.

Lemma part_slow_local : local_reader true IsValidPartOfMemberNameUtf8Slow.
Proof.
  apply (local_bind true GetUtf16FromUtf8 (fun code p => _) utf16_local). intros code. cbv zeta.
  repeat first [apply local_ret | apply local_if |
    apply (local_weaken true), (local_bind true GetUtf16FromUtf8 (fun code p => _) utf16_local)].
  intros code2. apply local_ret.
Qed.

Lemma part_local : local_reader true IsValidPartOfMemberNameUtf8.
Proof.
  intros s ok r. unfold IsValidPartOfMemberNameUtf8. destruct s as [|c s]; [done|].
  cbn [read_u8 mbind option_bind]. destruct (c <=? 0x7f) eqn:Ec.
  - intros [= <- <-]. exists [c]. split_all; [done|done|]. intros r'. cbn. by rewrite Ec.
  - intros H. apply part_slow_local in H as (p & Hp & E & Hloc). specialize (Hp eq_refl).
    destruct p as [|c' p]; [done|]. injection E as <- ->. exists (c :: p). split_all; [done..|].
    intros r'. cbn [app read_u8 mbind option_bind]. rewrite Ec. apply Hloc.
Qed.

(** A part does not start with a character that has a meaning in names. *)
Lemma part_head p :
  name_part p -> exists c t, p = c :: t /\
    (c =? 0) = false /\ (c =? 0x3b) = false /\ (c =? 0x2f) = false /\ (c =? 0x2e) = false /\
    (c =? 0x3e) = false /\ (c =? 0x3c) = false /\ (c =? 0x5b) = false.
Proof.
  intros [Hne Hp]. destruct p as [|c t]; [done|]. exists c, t. split; [done|]. specialize (Hp []).
  split_all; apply Z.eqb_neq; intros ->; by cbv in Hp.
Qed.

(** ** The grammar and the automaton *)

Lemma name_rest_parts sep first ps t :
  Forall name_part ps -> (ps = [] -> first = false) -> name_rest sep false t ->
  name_rest sep first (concat ps ++ t).
Proof.
  intros H. revert first. induction H as [|p ps Hp _ IH]; intros first Hf Ht.
  - by rewrite Hf.
  - cbn [concat]. rewrite <- app_assoc. constructor; [done|]. by apply IH.
Qed.

Lemma class_name_rest sep s : class_name sep s -> name_rest sep true s.
Proof.
  induction 1 as [s (ps & Hne & Hps & ->)|s t (ps & Hne & Hps & ->) _ IH].
  - rewrite <- (app_nil_r (concat ps)). apply name_rest_parts; [done|done|constructor].
  - apply name_rest_parts; [done|done|]. by constructor.
Qed.

Lemma rest_class_name sep first s :
  name_rest sep first s ->
  (first = true -> class_name sep s) /\
  (first = false -> s = [] \/ (exists t, s = sep :: t /\ class_name sep t) \/ class_name sep s).
Proof.
  induction 1 as [|first p t Hp _ [_ IH]|t _ [IH _]].
  - split; [done|]. by left.
  - assert (class_name sep (p ++ t)); [|by split; [|right; right]].
    destruct (IH eq_refl) as [->|[(u & -> & Hu)|Hc]].
    + constructor. exists [p]. split_all; [done|by apply Forall_singleton|]. by cbn; rewrite !app_nil_r.
    + constructor; [|done]. exists [p]. split_all; [done|by apply Forall_singleton|]. by cbn; rewrite app_nil_r.
    + destruct Hc as [s (ps & Hne & Hps & ->)|s u (ps & Hne & Hps & ->) Hu].
      * constructor. exists (p :: ps). split_all; [done|by constructor|done].
      * rewrite app_assoc. constructor; [|done]. exists (p :: ps). split_all; [done|by constructor|done].
  - split; [done|]. intros _. right. left. exists t. split; [done|]. by apply IH.
Qed.

Lemma class_name_iff sep s : class_name sep s <-> name_rest sep true s.
Proof. split; [apply class_name_rest|]. intros H. by apply (rest_class_name sep true s). Qed.

(** ** The loops *)

Lemma class_loop_complete (sep : Z) first (body : list Z) (fuel : nat) (rest : list Z) :
  (sep = 0x2f \/ sep = 0x2e) ->
  name_rest sep first body -> (length (body ++ 0x3b :: 0 :: rest)%Z < fuel)%nat ->
  ClassNameLoop fuel kDescriptor sep first (body ++ 0x3b :: 0 :: rest) = Some true.
Proof.
  intros Hsep H. revert fuel.
  induction H as [|first p t Hp _ IH|t _ IH]; intros fuel Hf; (destruct fuel as [|fuel]; [cbn in Hf; lia|]).
  - done.
  - destruct (part_head p Hp) as (c & q & -> & E0 & E1 & E2 & E3 & _). destruct Hp as [_ Hp].
    rewrite <- app_assoc in *. cbn [ClassNameLoop app read_u8 mbind option_bind].
    rewrite E0, E1, E2, E3. cbn [orb]. change (c :: q ++ ?l) with ((c :: q) ++ l). rewrite Hp.
    cbn [mbind option_bind]. apply IH. cbn [app length] in Hf. rewrite length_app in Hf. lia.
  - cbn [ClassNameLoop app read_u8 mbind option_bind] in *.
    destruct Hsep as [-> | ->]; cbn -[ClassNameLoop app length] in *; apply IH; cbn in Hf; lia.
Qed.

Lemma class_loop_sound (sep : Z) (fuel : nat) : forall first (s : list Z),
  (sep = 0x2f \/ sep = 0x2e) ->
  ClassNameLoop fuel kDescriptor sep first s = Some true ->
  exists body rest, s = body ++ 0x3b :: 0 :: rest /\ name_rest sep first body.
Proof.
  induction fuel as [|fuel IH]; intros first s Hsep; [done|]. cbn [ClassNameLoop].
  destruct s as [|c s]; [done|]. cbn [read_u8 mbind option_bind].
  destruct (Z.eqb_spec c 0) as [->|_]; [done|].
  destruct (Z.eqb_spec c 0x3b) as [->|_].
  { destruct first; [done|]. destruct s as [|d s]; [done|]. cbn. intros [= Hd].
    apply Z.eqb_eq in Hd as ->. exists [], s. split; [done|]. constructor. }
  destruct ((c =? 0x2f) || (c =? 0x2e)) eqn:Ec.
  { destruct (Z.eqb_spec c sep) as [->|_]; [|done]. cbn [negb]. destruct first; [done|].
    intros H. apply IH in H as (body & rest & -> & H); [|done]. exists (sep :: body), rest.
    split; [done|]. by constructor. }
  destruct (IsValidPartOfMemberNameUtf8 (c :: s)) as [[[] s']|] eqn:Ep; [|done|done].
  cbn [mbind option_bind]. intros H. apply IH in H as (body & rest & -> & H); [|done].
  apply part_local in Ep as (p & Hne & -> & Hp). exists (p ++ body), rest.
  split; [by rewrite app_assoc|]. constructor; [|done]. split; [by apply Hne|exact Hp].
Qed.

Lemma skip_brackets_complete n c s k :
  (c =? 0x5b) = false -> SkipBrackets (replicate n 0x5b ++ c :: s) k = Some (k + Z.of_nat n, c :: s).
Proof.
  intros Hc. revert k. induction n as [|n IH]; intros k; cbn [replicate app SkipBrackets].
  - rewrite Hc. do 2 f_equal. lia.
  - cbn. rewrite IH. do 2 f_equal. lia.
Qed.

Lemma skip_brackets_sound s k m r :
  SkipBrackets s k = Some (m, r) -> exists n, s = replicate n 0x5b ++ r /\ m = k + Z.of_nat n.
Proof.
  revert k. induction s as [|c s IH]; intros k; [done|]. cbn [SkipBrackets].
  destruct (Z.eqb_spec c 0x5b) as [->|_].
  - intros H. apply IH in H as (n & -> & ->). exists (S n). split; [done|lia].
  - intros [= <- <-]. exists O. split; [done|lia].
Qed.

(** What [while (true)] of [IsValidMemberName] accepts: parts up to the end of the name. *)
Definition member_end (angle_name : bool) (rest : list Z) : list Z :=
  if angle_name then 0x3e :: 0 :: rest else 0 :: rest.

Lemma member_loop_complete angle ps fuel rest :
  Forall name_part ps -> (length (concat ps ++ member_end angle rest) < fuel)%nat ->
  MemberNameLoop fuel angle (concat ps ++ member_end angle rest) = Some true.
Proof.
  intros H. revert fuel. induction H as [|p ps Hp _ IH]; intros fuel Hf;
    (destruct fuel as [|fuel]; [lia|]).
  - by destruct angle.
  - destruct (part_head p Hp) as (c & q & -> & E0 & _ & _ & _ & E4 & _). destruct Hp as [_ Hp].
    cbn [concat] in *. rewrite <- app_assoc in *.
    cbn [MemberNameLoop app read_u8 mbind option_bind]. rewrite E0, E4.
    change (c :: q ++ ?l) with ((c :: q) ++ l). rewrite Hp. cbn [mbind option_bind].
    apply IH. cbn [app length] in Hf. rewrite length_app in Hf. lia.
Qed.

Lemma member_loop_sound angle fuel s :
  MemberNameLoop fuel angle s = Some true ->
  exists ps rest, s = concat ps ++ member_end angle rest /\ Forall name_part ps.
Proof.
  revert s. induction fuel as [|fuel IH]; intros s; [done|]. cbn [MemberNameLoop].
  destruct s as [|c s]; [done|]. cbn [read_u8 mbind option_bind].
  destruct (Z.eqb_spec c 0) as [->|_].
  { destruct angle; [done|]. intros _. by exists [], s. }
  destruct (Z.eqb_spec c 0x3e) as [->|_].
  { destruct angle; [|done]. destruct s as [|d s]; [done|]. cbn. intros [= Hd].
    apply Z.eqb_eq in Hd as ->. by exists [], s. }
  destruct (IsValidPartOfMemberNameUtf8 (c :: s)) as [[[] s']|] eqn:Ep; [|done|done].
  cbn [mbind option_bind]. intros H. apply IH in H as (ps & rest & -> & H).
  apply part_local in Ep as (p & Hne & -> & Hp). exists (p :: ps), rest.
  split; [cbn; by rewrite app_assoc|]. constructor; [|done]. split; [by apply Hne|exact Hp].
Qed.

Lemma member_name_iff s :
  IsValidMemberName s = Some true <-> exists body rest, s = body ++ 0 :: rest /\ member_name body.
Proof.
  unfold IsValidMemberName. split.
  - destruct s as [|c s]; [done|]. cbn [read_u8 mbind option_bind].
    destruct (c =? 0) eqn:E0; [done|]. cbv zeta.
    destruct (Z.eqb_spec c 0x3c) as [->|Hc]; intros H; apply member_loop_sound in H as (ps & rest & E & Hps).
    + subst s. cbn [member_end]. exists (0x3c :: concat ps ++ [0x3e]), rest.
      split; [cbn; by rewrite <- app_assoc|]. destruct ps as [|p ps]; [by right; left|].
      right. right. exists (concat (p :: ps)). split; [|done]. by exists (p :: ps).
    + exists (concat ps), rest. split; [exact E|]. left. exists ps. split_all; [|done|done].
      intros ->. injection E as -> _. done.
  - intros (body & rest & -> & [H|[->|(t & H & ->)]]).
    + destruct H as (ps & Hne & Hps & ->).
      destruct ps as [|p ps]; [done|]. inversion Hps as [|? ? Hp _]; subst.
      destruct (part_head p Hp) as (c & q & -> & E0 & _ & _ & _ & _ & E5 & _).
      cbn [concat app read_u8 mbind option_bind] in *. rewrite E0, E5.
      apply (member_loop_complete false ((c :: q) :: ps)); [done|]. cbn [member_end concat app]. lia.
    + done.
    + destruct H as (ps & Hne & Hps & ->). cbn [app read_u8 mbind option_bind]. cbn -[MemberNameLoop length].
      rewrite <- app_assoc. apply (member_loop_complete true); [done|]. cbn [member_end app]. lia.
Qed.

Lemma descriptor_iff s :
  IsValidDescriptor s = Some true <-> exists body rest, s = body ++ 0 :: rest /\ descriptor body.
Proof.
  unfold IsValidDescriptor, IsValidClassName. split.
  - destruct (SkipBrackets s 0) as [[m r]|] eqn:E; [|done].
    apply skip_brackets_sound in E as (n & -> & ->). cbn [mbind option_bind].
    destruct (Z.ltb_spec 255 (0 + Z.of_nat n)) as [|Hn]; [done|].
    destruct r as [|c r]; [done|]. cbn [read_u8 mbind option_bind].
    destruct (is_primitive c) eqn:Ec.
    { destruct r as [|d r]; [done|]. cbn. intros [= Hd]. apply Z.eqb_eq in Hd as ->.
      exists (replicate n 0x5b ++ [c]), r. rewrite <- app_assoc. split; [done|].
      exists n, [c]. split_all; [lia|done|]. left. by exists c. }
    destruct (Z.eqb_spec c 0x56) as [->|_].
    { destruct (Z.eqb_spec (0 + Z.of_nat n) 0) as [Hz|]; [|done]. replace n with O by lia.
      destruct r as [|d r]; [done|]. cbn. intros [= Hd]. apply Z.eqb_eq in Hd as ->.
      exists [0x56], r. split; [done|]. exists O, [0x56]. split_all; [lia|done|]. right. by left. }
    destruct (Z.eqb_spec c 0x4c) as [->|_]; [|done].
    intros H. apply class_loop_sound in H as (name & rest & -> & H); [|by left].
    exists (replicate n 0x5b ++ 0x4c :: name ++ [0x3b]), rest.
    split; [by rewrite <- !app_assoc; cbn; rewrite <- app_assoc|].
    exists n, (0x4c :: name ++ [0x3b]). split_all; [lia|done|]. right. right.
    exists name. by rewrite class_name_iff.
  - intros (body & rest & -> & n & w & Hn & -> & Hw). rewrite <- app_assoc.
    assert (Hhead : exists c t, w = c :: t /\ (c =? 0x5b) = false).
    { destruct Hw as [(c & Hc & ->)|[[_ ->]|(name & _ & ->)]]; eexists _, _; (split; [done|]); [|done|done].
      apply Z.eqb_neq. intros ->. done. }
    destruct Hhead as (c & t & -> & Hc). cbn [app]. rewrite skip_brackets_complete by done.
    cbn [mbind option_bind]. rewrite (proj2 (Z.ltb_ge _ _)) by lia. cbn [read_u8 mbind option_bind].
    destruct Hw as [(c' & Hp & [= -> ->])|[[-> [= -> ->]]|(name & Hname & [= -> ->])]].
    + by rewrite Hp.
    + done.
    + cbn -[ClassNameLoop length app]. rewrite <- app_assoc. cbn [app].
      apply class_loop_complete; [by left| |lia].
      by apply class_name_iff.
Qed.

(** ** On a C string every check answers *)

Lemma ascii_symbol x l rest b t :
  wf_symbol x -> c_str (x :: l) rest = b :: t -> b <=? 0x7f = true -> t = c_str l rest.
Proof.
  intros Hx E Hb. destruct (read_symbol x l rest Hx) as (b' & t' & E' & _ & Hd).
  rewrite E in E', Hd. injection E' as <- <-. unfold GetUtf16FromUtf8 in Hd.
  cbn [read_u8 mbind option_bind] in Hd.
  destruct (enc_symbol_head x Hx) as (b' & t' & Ex & _ & Hc). rewrite c_str_cons, Ex in E.
  injection E as -> _. inversion Hc as [|? ? Hb' _]; subst. unfold is_char in Hb'.
  apply Z.leb_le in Hb. rewrite ascii_byte in Hd by lia. by injection Hd.
Qed.

Lemma part_total x l rest :
  Forall wf_symbol (x :: l) ->
  exists ok q, IsValidPartOfMemberNameUtf8 (c_str (x :: l) rest) = Some (ok, q) /\
    (ok = true -> exists l', q = c_str l' rest /\ Forall wf_symbol l' /\ (length l' <= length l)%nat).
Proof.
  intros H. inversion H as [|? ? Hx Hl]; subst.
  destruct (read_symbol x l rest Hx) as (b & t & E & _ & Hd).
  unfold IsValidPartOfMemberNameUtf8. rewrite E in *. cbn [read_u8 mbind option_bind].
  destruct (b <=? 0x7f) eqn:Eb.
  { eexists _, _. split; [done|]. intros _. exists l. split_all; [|done|lia]. by eapply ascii_symbol. }
  unfold IsValidPartOfMemberNameUtf8Slow. rewrite Hd. cbn [mbind option_bind]. cbv zeta.
  assert (Hfin : forall ok, exists ok' q, Some (ok, c_str l rest) = Some (ok', q) /\
    (ok' = true -> exists l', q = c_str l' rest /\ Forall wf_symbol l' /\ (length l' <= length l)%nat)).
  { intros ok. eexists _, _. split; [done|]. intros _. by exists l. }
  repeat (case_match; try apply Hfin).
  destruct l as [|y l].
  - cbn. eexists _, _. split; [done|]. done.
  - inversion Hl as [|? ? Hy Hl']; subst. destruct (read_symbol y l rest Hy) as (? & ? & _ & _ & ->).
    cbn [mbind option_bind]. eexists _, _. split; [done|]. intros _. exists l. split_all; [done..|cbn; lia].
Qed.

Lemma skip_brackets_total l rest k :
  Forall wf_symbol l ->
  exists m l', SkipBrackets (c_str l rest) k = Some (m, c_str l' rest) /\ Forall wf_symbol l'.
Proof.
  intros H. revert k. induction H as [|x l Hx Hl IH]; intros k; [by exists k, []|].
  destruct (read_symbol x l rest Hx) as (b & t & E & _). rewrite E. cbn [SkipBrackets].
  destruct (Z.eqb_spec b 0x5b) as [->|_]; [|exists k, (x :: l); split; [by rewrite <- E|by constructor]].
  rewrite (ascii_symbol x l rest _ _ Hx E eq_refl). apply IH.
Qed.

Lemma read_c_str l rest :
  Forall wf_symbol l ->
  (l = [] /\ c_str l rest = 0 :: rest) \/
  exists x l' b t, l = x :: l' /\ wf_symbol x /\ Forall wf_symbol l' /\ c_str l rest = b :: t /\
    (b =? 0) = false /\ (b <=? 0x7f = true -> t = c_str l' rest).
Proof.
  intros [|x l' Hx Hl]; [by left|]. right.
  destruct (read_symbol x l' rest Hx) as (b & t & E & Hb & _). exists x, l', b, t.
  split_all; [done..|]. by eapply ascii_symbol.
Qed.

Lemma class_loop_total l rest type sep first fuel :
  Forall wf_symbol l -> (length l < fuel)%nat ->
  exists b, ClassNameLoop fuel type sep first (c_str l rest) = Some b.
Proof.
  revert l first. induction fuel as [|fuel IH]; intros l first Hl Hf; [lia|]. cbn [ClassNameLoop].
  destruct (read_c_str l rest Hl) as [[-> ->]|(x & l' & b & t & -> & Hx & Hl' & E & Hb & Ht)].
  - cbn. destruct type; by eexists.
  - rewrite E. cbn [read_u8 mbind option_bind]. rewrite Hb.
    destruct (Z.eqb_spec b 0x3b) as [->|_].
    { rewrite Ht by done. destruct type; [by eexists|]. destruct first; [by eexists|].
      destruct (read_c_str l' rest Hl') as [[_ ->]|(? & ? & ? & ? & _ & _ & _ & -> & _)]; by eexists. }
    destruct ((b =? 0x2f) || (b =? 0x2e)) eqn:Es.
    { assert (b <=? 0x7f = true) by (apply Z.leb_le; apply orb_prop in Es as [Es|Es]; apply Z.eqb_eq in Es; lia).
      destruct (negb (b =? sep)); [by eexists|]. destruct first; [by eexists|].
      rewrite Ht by done. apply IH; [done|cbn in Hf; lia]. }
    rewrite <- E. destruct (part_total x l' rest Hl) as ([] & q & -> & Hq); cbn [mbind option_bind]; [|by eexists].
    destruct (Hq eq_refl) as (l'' & -> & Hl'' & Hlen). apply IH; [done|cbn in Hf; lia].
Qed.

Lemma member_loop_total l rest angle fuel :
  Forall wf_symbol l -> (length l < fuel)%nat ->
  exists b, MemberNameLoop fuel angle (c_str l rest) = Some b.
Proof.
  revert l. induction fuel as [|fuel IH]; intros l Hl Hf; [lia|]. cbn [MemberNameLoop].
  destruct (read_c_str l rest Hl) as [[-> ->]|(x & l' & b & t & -> & Hx & Hl' & E & Hb & Ht)]; [by eexists|].
  rewrite E. cbn [read_u8 mbind option_bind]. rewrite Hb.
  destruct (Z.eqb_spec b 0x3e) as [->|_].
  { destruct angle; [|by eexists]. rewrite Ht by done.
    destruct (read_c_str l' rest Hl') as [[_ ->]|(? & ? & ? & ? & _ & _ & _ & -> & _)]; by eexists. }
  rewrite <- E. destruct (part_total x l' rest Hl) as ([] & q & -> & Hq); cbn [mbind option_bind]; [|by eexists].
  destruct (Hq eq_refl) as (l'' & -> & Hl'' & Hlen). apply IH; [done|cbn in Hf; lia].
Qed.

Lemma member_name_total l rest :
  Forall wf_symbol l -> exists b, IsValidMemberName (c_str l rest) = Some b.
Proof.
  intros Hl. unfold IsValidMemberName. pose proof (c_str_length l rest Hl) as Hlen.
  destruct (read_c_str l rest Hl) as [[-> ->]|(x & l' & b & t & -> & Hx & Hl' & E & Hb & Ht)]; [by eexists|].
  rewrite E in *. cbn [read_u8 mbind option_bind]. rewrite Hb. cbv zeta.
  destruct (Z.eqb_spec b 0x3c) as [->|_].
  - rewrite Ht by done. apply member_loop_total; [done|]. pose proof (c_str_length l' rest Hl'). lia.
  - rewrite <- E in *. apply member_loop_total; [done|lia].
Qed.

Lemma class_name_total type sep l rest :
  Forall wf_symbol l -> exists b, IsValidClassName type sep (c_str l rest) = Some b.
Proof.
  intros Hl. unfold IsValidClassName.
  destruct (skip_brackets_total l rest 0 Hl) as (m & l1 & -> & Hl1). cbn [mbind option_bind].
  pose proof (c_str_length l1 rest Hl1) as Hlen.
  destruct (255 <? m); [by eexists|]. cbv zeta.
  destruct (match type with kName => _ | kDescriptor => _ end); [apply class_loop_total; [done|lia]|].
  destruct (read_c_str l1 rest Hl1) as [[-> ->]|(x & l' & b & t & -> & Hx & Hl' & E & Hb & Ht)]; [by eexists|].
  rewrite E. cbn [read_u8 mbind option_bind].
  assert (Hend : b <=? 0x7f = true -> exists r, ('(d, _) ← read_u8 t; Some (d =? 0)) = Some r).
  { intros Hb7. rewrite Ht by done.
    destruct (read_c_str l' rest Hl') as [[_ ->]|(? & ? & ? & ? & _ & _ & _ & -> & _)]; by eexists. }
  destruct (is_primitive b) eqn:Ep.
  { apply Hend. unfold is_primitive in Ep. apply bool_decide_eq_true in Ep. by set_unfold; intuition subst. }
  destruct (Z.eqb_spec b 0x56) as [->|_].
  { destruct (m =? 0); [by apply Hend|by eexists]. }
  destruct (Z.eqb_spec b 0x4c) as [->|_]; [|by eexists].
  rewrite Ht by done. apply class_loop_total; [done|]. pose proof (c_str_length l' rest Hl'). lia.
Qed.

(** ** Properties *)


(** [[[La/b;] and its variants. *)
Definition sample_descriptor : list Symbol := (fun c => (c, 0)) <$> [0x5b; 0x4c; 0x61; 0x2f; 0x62; 0x3b].


Example class_names :
  IsValidJniClassName [0x61; 0x2f; 0x62; 0] = Some true /\
  IsValidBinaryClassName [0x61; 0x2f; 0x62; 0] = Some false /\
  IsValidMemberName [0x3c; 0x61; 0x3e; 0] = Some true /\ IsValidDescriptor [0x5b; 0x56; 0] = Some false.
Proof. by vm_compute. Qed.
