(* ===== verification/MirrorClass.v ===== *)
(** * Classes and their subtype order ([mirror/class.{h,cc}], [class-inl.h])

    What the method verifier asks of [mirror::Class]: access, inheritance, assignability, and
    [RegType::ClassJoin] of [verifier/reg_type.cc].  A [mirror::Class*] is its address, 0 for
    [nullptr]; [info] reads the object behind it.  The loops follow [super_class_] and
    [component_type_], which the class linker builds without cycles; their fuel is [class_count]
    and [None] is a loop that is not over by then, or a null pointer that is followed. *)
From stdpp Require Import list.
From S2P Require Import Prelude.
From S2P Require Import ClassData.
From S2P Require Import Runtime.
Local Open Scope Z_scope.

Record ClassInfo := mkClassInfo {
  super_class_ : Z;
  component_type_ : Z;
  access_flags_ : Z;
  primitive_type_ : PrimitiveType;
  iftable_ : list Z;
  class_loader_ : Z;
  status_ : Z;
  descriptor_of : list Z;
}.

(** [kStatusError], [kStatusLoaded] and the flag of [java.lang.String]. *)
Definition kStatusError : Z := -1.
Definition kStatusLoaded : Z := 2.
Definition kAccClassIsStringClass : Z := 0x00800000.

(** [IsInSamePackage(descriptor1, descriptor2)]: the common prefix, then no ['/'] in the rest. *)
Fixpoint same_package (d1 d2 : list Z) : bool :=
  match d1, d2 with
  | a :: d1', b :: d2' =>
      if a =? b then same_package d1' d2'
      else negb (existsb (Z.eqb 0x2f) d1) && negb (existsb (Z.eqb 0x2f) d2)
  | _, _ => negb (existsb (Z.eqb 0x2f) d1) && negb (existsb (Z.eqb 0x2f) d2)
  end.

Section Operations.
Context (info : Z -> ClassInfo) (class_count : nat) (FindArrayClass : Z -> Z).

Definition GetSuperClass (c : Z) : Z := super_class_ (info c).
Definition GetComponentType (c : Z) : Z := component_type_ (info c).
Definition has_flag (flag c : Z) : bool := negb (Z.land (access_flags_ (info c)) flag =? 0).
Definition IsInterface (c : Z) : bool := has_flag kAccInterface c.
Definition IsPublic (c : Z) : bool := has_flag kAccPublic c.
Definition IsFinal (c : Z) : bool := has_flag kAccFinal c.
Definition IsAbstract (c : Z) : bool := has_flag kAccAbstract c.
Definition IsStringClass (c : Z) : bool := has_flag kAccClassIsStringClass c.
Definition IsPrimitive (c : Z) : bool := bool_decide (primitive_type_ (info c) <> kPrimNot).
Definition IsArrayClass (c : Z) : bool := negb (GetComponentType c =? 0).
Definition IsObjectClass (c : Z) : bool := negb (IsPrimitive c) && (GetSuperClass c =? 0).
Definition IsErroneous (c : Z) : bool := status_ (info c) =? kStatusError.
Definition IsLoaded (c : Z) : bool := kStatusLoaded <=? status_ (info c).

Definition IsInstantiable (c : Z) : bool :=
  (negb (IsPrimitive c) && negb (IsInterface c) && negb (IsAbstract c))
  || (IsAbstract c && IsArrayClass c).

Fixpoint CannotBeAssignedLoop (fuel : nat) (c : Z) : option bool :=
  match fuel with
  | O => None
  | S fuel' =>
      if negb (IsArrayClass c) then Some (IsFinal c)
      else
        let component := GetComponentType c in
        if IsPrimitive component then Some true else CannotBeAssignedLoop fuel' component
  end.
Definition CannotBeAssignedFromOtherTypes (c : Z) : option bool :=
  CannotBeAssignedLoop class_count c.

(** ** Inheritance *)

Definition Implements (c klass : Z) : bool := existsb (Z.eqb klass) (iftable_ (info c)).

Fixpoint IsSubClassLoop (fuel : nat) (klass current : Z) : option bool :=
  match fuel with
  | O => None
  | S fuel' =>
      if current =? klass then Some true
      else
        let current := GetSuperClass current in
        if current =? 0 then Some false else IsSubClassLoop fuel' klass current
  end.
Definition IsSubClass (c klass : Z) : option bool := IsSubClassLoop class_count klass c.

(** [rec] is [IsAssignableFrom]. *)
Definition IsArrayAssignableFromArray (rec : Z -> Z -> option bool) (c src : Z) : option bool :=
  rec (GetComponentType c) (GetComponentType src).

Definition IsAssignableFromArray (rec : Z -> Z -> option bool) (c src : Z) : option bool :=
  if negb (IsArrayClass c) then Some (c =? GetSuperClass src)
  else IsArrayAssignableFromArray rec c src.

Fixpoint IsAssignableFromLoop (fuel : nat) (c src : Z) : option bool :=
  match fuel with
  | O => None
  | S fuel' =>
      if c =? src then Some true
      else if IsObjectClass c then Some (negb (IsPrimitive src))
      else if IsInterface c then Some (Implements src c)
      else if IsArrayClass src then IsAssignableFromArray (IsAssignableFromLoop fuel') c src
      else if IsInterface src then Some false
      else IsSubClass src c
  end.
Definition IsAssignableFrom (c src : Z) : option bool := IsAssignableFromLoop class_count c src.

Fixpoint DepthLoop (fuel : nat) (klass depth : Z) : option Z :=
  match fuel with
  | O => None
  | S fuel' =>
      if GetSuperClass klass =? 0 then Some depth
      else DepthLoop fuel' (GetSuperClass klass) (depth + 1)
  end.
Definition Depth (c : Z) : option Z := DepthLoop class_count c 0.

(** ** Access *)

(** [while (klass->IsArrayClass()) klass = klass->GetComponentType()]. *)
Fixpoint ElementLoop (fuel : nat) (c : Z) : option Z :=
  match fuel with
  | O => None
  | S fuel' => if IsArrayClass c then ElementLoop fuel' (GetComponentType c) else Some c
  end.

Definition IsInSamePackage (c that : Z) : option bool :=
  if c =? that then Some true
  else if negb (class_loader_ (info c) =? class_loader_ (info that)) then Some false
  else
    klass1 ← ElementLoop class_count c;
    klass2 ← ElementLoop class_count that;
    if klass1 =? klass2 then Some true
    else Some (same_package (descriptor_of (info klass1)) (descriptor_of (info klass2))).

Definition CanAccess (c that : Z) : option bool :=
  if IsPublic that then Some true else IsInSamePackage c that.

Definition CanAccessMember (c access_to member_flags : Z) : option bool :=
  if c =? access_to then Some true
  else if negb (Z.land member_flags kAccPublic =? 0) then Some true
  else if negb (Z.land member_flags kAccPrivate =? 0) then Some false
  else
    protected ← (if negb (Z.land member_flags kAccProtected =? 0) && negb (IsInterface c)
                 then IsSubClass c access_to else Some false);
    if (protected : bool) then Some true else IsInSamePackage c access_to.

(** ** [RegType::ClassJoin] *)

(** [while (depth > other) { s = s->GetSuperClass(); depth--; }] *)
Fixpoint climb (count : nat) (c : Z) : option Z :=
  match count with
  | O => Some c
  | S n => if c =? 0 then None else climb n (GetSuperClass c)
  end.

(** [while (s != t) { s = s->GetSuperClass(); t = t->GetSuperClass(); }] *)
Fixpoint MeetLoop (fuel : nat) (s t : Z) : option Z :=
  match fuel with
  | O => None
  | S fuel' =>
      if s =? t then Some s
      else if (s =? 0) || (t =? 0) then None
      else MeetLoop fuel' (GetSuperClass s) (GetSuperClass t)
  end.

Definition CommonParent (s t : Z) : option Z :=
  s_depth ← Depth s;
  t_depth ← Depth t;
  if t_depth <? s_depth then
    s ← climb (Z.to_nat (s_depth - t_depth)) s;
    MeetLoop class_count s t
  else
    t ← climb (Z.to_nat (t_depth - s_depth)) t;
    MeetLoop class_count s t.

Fixpoint ClassJoinLoop (fuel : nat) (s t : Z) : option Z :=
  match fuel with
  | O => None
  | S fuel' =>
      if s =? t then Some s
      else
        above ← IsAssignableFrom s t;
        if (above : bool) then Some s
        else
          below ← IsAssignableFrom t s;
          if (below : bool) then Some t
          else if IsArrayClass s && IsArrayClass t then
            let s_ct := GetComponentType s in
            let t_ct := GetComponentType t in
            if IsPrimitive s_ct || IsPrimitive t_ct then Some (GetSuperClass s)
            else
              common_elem ← ClassJoinLoop fuel' s_ct t_ct;
              Some (FindArrayClass common_elem)
          else CommonParent s t
  end.
Definition ClassJoin (s t : Z) : option Z := ClassJoinLoop class_count s t.

End Operations.

(** ** What the class linker builds

    [rank] witnesses that there is no cycle; it is below [class_count] for every class. *)
Section Hierarchy.
Context (info : Z -> ClassInfo) (class_count : nat) (FindArrayClass : Z -> Z).
Context (is_class : Z -> Prop) (rank : Z -> nat) (Object : Z).

Local Abbreviation super := (GetSuperClass info).
Local Abbreviation component := (GetComponentType info).

(** The subtype order of the language, by its rules. *)
Inductive subtype : Z -> Z -> Prop :=
  | sub_refl c : subtype c c
  | sub_super c d : super c <> 0 -> subtype (super c) d -> subtype c d
  | sub_implements c i : Implements info c i = true -> subtype c i
  | sub_object c : IsPrimitive info c = false -> subtype c Object
  | sub_array c d : IsArrayClass info c = true -> IsArrayClass info d = true ->
      IsPrimitive info (component c) = false -> subtype (component c) (component d) -> subtype c d.

(** The laws of a finished set of classes.  [FindArrayClass] makes an array class when there is
    none; [class_array_of] says that it has been made for every parent of the component of an
    array. *)
Record hierarchy : Prop := {
  class_not_null c : is_class c -> c <> 0;
  class_rank c : is_class c -> (rank c < class_count)%nat;
  class_super c : is_class c -> super c <> 0 ->
    is_class (super c) /\ (rank (super c) < rank c)%nat /\
    IsInterface info (super c) = false /\ IsArrayClass info (super c) = false /\
    IsPrimitive info (super c) = false;
  class_component c : is_class c -> component c <> 0 ->
    is_class (component c) /\ (rank (component c) < rank c)%nat;
  class_object : is_class Object /\ super Object = 0 /\ IsPrimitive info Object = false /\
    IsInterface info Object = false /\ IsArrayClass info Object = false /\
    iftable_ (info Object) = [];
  class_root c : is_class c -> IsPrimitive info c = false -> super c = 0 -> c = Object;
  class_primitive c : is_class c -> IsPrimitive info c = true ->
    super c = 0 /\ IsInterface info c = false /\ IsArrayClass info c = false /\
    iftable_ (info c) = [];
  class_array c : is_class c -> IsArrayClass info c = true ->
    IsPrimitive info c = false /\ IsInterface info c = false /\ super c = Object;
  class_array_canonical c d : is_class c -> is_class d -> IsArrayClass info c = true ->
    component c = component d -> c = d;
  class_interface c : is_class c -> IsInterface info c = true -> super c = Object;
  class_final c : is_class c -> super c <> 0 -> IsFinal info (super c) = false;
  class_interface_final c : is_class c -> IsInterface info c = true -> IsFinal info c = false;
  class_iftable c i : is_class c -> Implements info c i = true ->
    is_class i /\ IsInterface info i = true /\
    forall j, Implements info i j = true -> Implements info c j = true;
  class_iftable_super c i : is_class c -> super c <> 0 -> Implements info (super c) i = true ->
    Implements info c i = true;
  class_iftable_array c d i : is_class c -> is_class d -> IsArrayClass info c = true ->
    IsArrayClass info d = true -> Implements info c i = true -> Implements info d i = true;
  class_array_of s c : is_class s -> IsArrayClass info s = true -> is_class c ->
    IsPrimitive info c = false -> subtype (component s) c ->
    is_class (FindArrayClass c) /\ component (FindArrayClass c) = c;
}.

(** Interfaces and arrays of them, for which there need not be a least common parent. *)
Inductive interface_like : Z -> Prop :=
  | interface_itself c : IsInterface info c = true -> interface_like c
  | interface_array c : IsArrayClass info c = true -> interface_like (component c) ->
      interface_like c.

(** The super classes of a class, itself included. *)
Inductive chain : Z -> Z -> Prop :=
  | chain_refl c : chain c c
  | chain_step c d : super c <> 0 -> chain (super c) d -> chain c d.

Context (H : hierarchy).

(** ** Facts about classes *)

Lemma array_component c : IsArrayClass info c = true <-> component c <> 0.
Proof. unfold IsArrayClass. rewrite negb_true_iff, Z.eqb_neq. done. Qed.

Lemma primitive_has_no_parts c :
  is_class c -> IsPrimitive info c = true -> super c = 0 /\ IsArrayClass info c = false.
Proof. intros Hc Hp. destruct (class_primitive H c Hc Hp) as (? & ? & ? & ?). done. Qed.

Lemma parent_not_primitive c : is_class c -> super c <> 0 -> IsPrimitive info c = false.
Proof.
  intros Hc Hs. destruct (IsPrimitive info c) eqn:E; [|done].
  by destruct (primitive_has_no_parts c Hc E).
Qed.

Lemma object_class c : is_class c -> IsObjectClass info c = bool_decide (c = Object).
Proof.
  intros Hc. unfold IsObjectClass. destruct (class_object H) as (Ho & Hs & Hp & _).
  case_bool_decide as E.
  - subst. by rewrite Hs, Hp.
  - destruct (IsPrimitive info c) eqn:Ep; [done|]. apply Z.eqb_neq. intros E'. apply E.
    by apply (class_root H).
Qed.

Lemma implements_not_object c i : Implements info c i = true -> c <> Object.
Proof.
  intros Hi ->. destruct (class_object H) as (_ & _ & _ & _ & _ & E).
  unfold Implements in Hi. by rewrite E in Hi.
Qed.

Lemma rank_ind (P : Z -> Prop) :
  (forall c, is_class c -> (forall d, is_class d -> (rank d < rank c)%nat -> P d) -> P c) ->
  forall c, is_class c -> P c.
Proof.
  intros Hstep c. remember (rank c) as n eqn:E. revert c E.
  induction (lt_wf n) as [n _ IH]. intros c -> Hc. apply Hstep; [done|].
  intros d Hd Hr. by apply (IH (rank d)).
Qed.

Lemma chain_class c d : is_class c -> chain c d -> is_class d.
Proof. intros Hc. induction 1; [done|]. apply IHchain. by apply (class_super H). Qed.

Lemma chain_not_primitive c d :
  is_class c -> IsPrimitive info c = false -> chain c d -> IsPrimitive info d = false.
Proof.
  intros Hc Hp Hch. induction Hch as [|c d Hn Hch IH]; [done|].
  destruct (class_super H c Hc Hn) as (? & _ & _ & _ & ?). auto.
Qed.

Lemma chain_subtype c d : chain c d -> subtype c d.
Proof. induction 1; econstructor; eauto. Qed.

Lemma chain_trans c d e : chain c d -> chain d e -> chain c e.
Proof. induction 1; eauto using chain_step. Qed.

Lemma chain_object c : is_class c -> IsPrimitive info c = false -> chain c Object.
Proof.
  intros Hc. pattern c. revert c Hc. apply rank_ind. intros c Hc IH Hp.
  destruct (decide (super c = 0)) as [E|E].
  - rewrite (class_root H c Hc Hp E). constructor.
  - destruct (class_super H c Hc E) as (Hs & Hr & _ & _ & Hsp). eauto using chain_step.
Qed.

(** ** Inversion of the subtype order *)

Lemma object_above d : subtype Object d -> d = Object.
Proof.
  destruct (class_object H) as (_ & Hs & _ & _ & Ha & _).
  inversion 1 as [|? ? Hn| ? ? Hi| |? ? Ha']; subst; try done.
  - by destruct (implements_not_object _ _ Hi).
  - by rewrite Ha in Ha'.
Qed.

Lemma subtype_plain c d :
  is_class c -> is_class d -> IsInterface info d = false -> IsArrayClass info d = false ->
  subtype c d -> chain c d.
Proof.
  intros Hc Hd Hi Ha. pattern c. revert c Hc. apply rank_ind. intros c Hc IH.
  inversion 1 as [|? ? Hn Hsub| ? ? Himp| |? ? _ Ha']; subst.
  - constructor.
  - apply chain_step; [done|]. destruct (class_super H c Hc Hn) as (? & ? & _). auto.
  - destruct (class_iftable H c d Hc Himp) as (_ & Hi' & _). congruence.
  - by apply chain_object.
  - congruence.
Qed.

Lemma subtype_array c d :
  is_class c -> is_class d -> IsArrayClass info d = true -> subtype c d ->
  c = d \/ IsArrayClass info c = true /\ IsPrimitive info (component c) = false /\
          subtype (component c) (component d).
Proof.
  intros Hc Hd Ha. pattern c. revert c Hc. apply rank_ind. intros c Hc IH.
  inversion 1 as [|? ? Hn Hsub| ? ? Himp| |? ? Ha']; subst; auto.
  - destruct (class_super H c Hc Hn) as (Hs & Hr & _ & Hsa & _).
    destruct (IH _ Hs Hr Hsub) as [E|(E & _)]; congruence.
  - destruct (class_iftable H c d Hc Himp) as (_ & Hi & _).
    destruct (class_array H d Hd Ha) as (_ & E & _). congruence.
  - destruct (class_object H) as (_ & _ & _ & _ & E & _). congruence.
Qed.

Lemma subtype_interface c d :
  is_class c -> is_class d -> IsInterface info d = true -> subtype c d ->
  c = d \/ Implements info c d = true.
Proof.
  intros Hc Hd Hi. pattern c. revert c Hc. apply rank_ind. intros c Hc IH.
  inversion 1 as [|? ? Hn Hsub| ? ? Himp| |? ? _ Ha']; subst; auto.
  - destruct (class_super H c Hc Hn) as (Hs & Hr & Hsi & _).
    destruct (IH _ Hs Hr Hsub) as [E|E]; [congruence|right]. by apply (class_iftable_super H).
  - destruct (class_object H) as (_ & _ & _ & E & _). congruence.
  - destruct (class_array H d Hd Ha') as (_ & E & _). congruence.
Qed.

Lemma subtype_primitive c d :
  is_class c -> IsPrimitive info c = true -> subtype c d -> c = d.
Proof.
  intros Hc Hp. destruct (class_primitive H c Hc Hp) as (Hs & Hi & Ha & Hf).
  inversion 1 as [|? ? Hn| ? ? Himp|? Hp' |? ? Ha']; subst; try congruence.
  unfold Implements in Himp. by rewrite Hf in Himp.
Qed.

(** Subtyping is a partial order; transitivity is what a merge of reference types relies on. *)
Lemma subtype_trans a b c : is_class a -> is_class b -> is_class c ->
  subtype a b -> subtype b c -> subtype a c.
Proof.
  intros Ha. revert b c. pattern a. revert a Ha. apply rank_ind. intros a Ha IH b c Hb Hc Hab Hbc.
  destruct (IsInterface info c) eqn:Ei.
  { destruct (subtype_interface b c Hb Hc Ei Hbc) as [->|Himp]; [done|].
    inversion Hab as [|? ? Hn Hsub| ? ? Hi| |? ? Aa Ab]; subst; [done| | | |].
    - apply sub_super; [done|]. destruct (class_super H a Ha Hn) as (? & ? & _). eauto.
    - apply sub_implements. destruct (class_iftable H a b Ha Hi) as (_ & _ & E). auto.
    - by destruct (implements_not_object _ _ Himp).
    - apply sub_implements. by apply (class_iftable_array H b a). }
  destruct (IsArrayClass info c) eqn:Ec.
  { destruct (subtype_array b c Hb Hc Ec Hbc) as [->|(Eb & Hpb & Hbc')]; [done|].
    destruct (subtype_array a b Ha Hb Eb Hab) as [->|(Ea & Hpa & Hab')]; [done|].
    apply array_component in Ea as Na, Eb as Nb, Ec as Nc.
    destruct (class_component H a Ha Na), (class_component H b Hb Nb), (class_component H c Hc Nc).
    eauto using sub_array. }
  destruct (IsPrimitive info a) eqn:Ep.
  { by rewrite (subtype_primitive a b). }
  pose proof (subtype_plain b c Hb Hc Ei Ec Hbc) as Hch.
  inversion Hch as [|? ? Hn]; subst; [done|].
  inversion Hab as [|? ? Hn' Hsub| ? ? Hi| |? ? Aa Ab]; subst; [done| | | |].
  - apply sub_super; [done|]. destruct (class_super H a Ha Hn') as (? & ? & _). eauto.
  - destruct (class_iftable H a b Ha Hi) as (_ & Eb & _).
    rewrite (class_interface H b Hb Eb) in *. apply chain_subtype, object_above in H0. subst.
    by apply sub_object.
  - destruct (class_object H) as (_ & E & _). congruence.
  - destruct (class_array H b Hb Ab) as (_ & _ & Es). rewrite Es in *.
    apply chain_subtype, object_above in H0. subst. by apply sub_object.
Qed.

(** ** The queries decide the order *)

Lemma IsSubClass_loop fuel klass c : is_class c -> (rank c < fuel)%nat ->
  exists b, IsSubClassLoop info fuel klass c = Some b /\ (b = true <-> chain c klass).
Proof.
  revert c. induction fuel as [|fuel IH]; intros c Hc Hr; [lia|]. cbn [IsSubClassLoop].
  destruct (Z.eqb_spec c klass) as [->|Hne].
  { exists true. split; [done|]. split; [constructor|done]. }
  destruct (Z.eqb_spec (super c) 0) as [E|E].
  { exists false. split; [done|]. split; [done|]. by inversion 1; subst. }
  destruct (class_super H c Hc E) as (Hs & Hr' & _).
  destruct (IH _ Hs ltac:(lia)) as (b & -> & Hb). exists b. split; [done|]. rewrite Hb.
  split; [by apply chain_step|]. by inversion 1; subst.
Qed.

Lemma assignable_loop fuel c src : is_class c -> is_class src -> (rank src < fuel)%nat ->
  exists b, IsAssignableFromLoop info class_count fuel c src = Some b /\ (b = true <-> subtype src c).
Proof.
  revert c src. induction fuel as [|fuel IH]; intros c src Hc Hsrc Hr; [lia|].
  cbn [IsAssignableFromLoop]. rewrite (object_class c Hc).
  destruct (Z.eqb_spec c src) as [->|Hne].
  { exists true. split; [done|]. split; [constructor|done]. }
  case_bool_decide as Eo.
  { subst. exists (negb (IsPrimitive info src)). split; [done|]. rewrite negb_true_iff.
    split; [by apply sub_object|]. intros Hsub. destruct (IsPrimitive info src) eqn:E; [|done].
    by destruct Hne; symmetry; apply (subtype_primitive src). }
  destruct (IsInterface info c) eqn:Ei.
  { exists (Implements info src c). split; [done|]. split; [by apply sub_implements|].
    intros Hsub. by destruct (subtype_interface src c Hsrc Hc Ei Hsub) as [->|?]. }
  assert (Hobject : super src = Object -> subtype src c -> IsArrayClass info c = true).
  { intros Es Hsub. destruct (IsArrayClass info c) eqn:Ec; [done|].
    pose proof (subtype_plain src c Hsrc Hc Ei Ec Hsub) as Hch.
    inversion Hch as [|? ? Hn Hch']; subst; [done|]. rewrite Es in Hch'.
    by destruct Eo; apply object_above, chain_subtype. }
  destruct (IsArrayClass info src) eqn:Ea.
  { destruct (class_array H src Hsrc Ea) as (Hp & _ & Hs). unfold IsAssignableFromArray.
    destruct (IsArrayClass info c) eqn:Ec; cbn [negb].
    - unfold IsArrayAssignableFromArray. apply array_component in Ea as Na, Ec as Nc.
      destruct (class_component H src Hsrc Na) as (Hcs & Hrs), (class_component H c Hc Nc) as (Hcc & _).
      destruct (IH _ _ Hcc Hcs ltac:(lia)) as (b & -> & Hb). exists b. split; [done|]. rewrite Hb.
      split.
      + intros Hsub. destruct (IsPrimitive info (component src)) eqn:E; [|by apply sub_array].
        destruct Hne. apply (class_array_canonical H); [done..|]. symmetry.
        by apply subtype_primitive.
      + intros Hsub. destruct (subtype_array src c Hsrc Hc Ec Hsub) as [->|(_ & _ & ?)]; done.
    - rewrite Hs. exists false. rewrite (proj2 (Z.eqb_neq _ _) Eo). split; [done|].
      split; [done|]. intros Hsub. by rewrite (Hobject Hs Hsub) in *. }
  destruct (IsInterface info src) eqn:Eis.
  { exists false. split; [done|]. split; [done|]. intros Hsub.
    pose proof (Hobject (class_interface H src Hsrc Eis) Hsub) as Ec.
    destruct (subtype_array src c Hsrc Hc Ec Hsub) as [->|(E & _)]; congruence. }
  destruct (IsSubClass_loop class_count c src Hsrc (class_rank H src Hsrc)) as (b & E & Hb).
  unfold IsSubClass. rewrite E. exists b. split; [done|]. rewrite Hb. split; [apply chain_subtype|].
  intros Hsub. apply subtype_plain; try done. destruct (IsArrayClass info c) eqn:Ec; [|done].
  destruct (subtype_array src c Hsrc Hc Ec Hsub) as [->|(E' & _)]; congruence.
Qed.

Lemma assignable_spec c src : is_class c -> is_class src ->
  exists b, IsAssignableFrom info class_count c src = Some b /\ (b = true <-> subtype src c).
Proof. intros. apply assignable_loop; [done..|]. by apply (class_rank H). Qed.

(** ** The least common parent *)

(** [level c n]: [n] super classes above [c] comes the end of the chain. *)
Inductive level : Z -> nat -> Prop :=
  | level_root c : super c = 0 -> level c 0
  | level_up c n : super c <> 0 -> level (super c) n -> level c (S n).

Lemma DepthLoop_spec fuel c depth : is_class c -> (rank c < fuel)%nat ->
  exists n, level c n /\ DepthLoop info fuel c depth = Some (depth + Z.of_nat n).
Proof.
  revert c depth. induction fuel as [|fuel IH]; intros c depth Hc Hr; [lia|]. cbn [DepthLoop].
  destruct (Z.eqb_spec (super c) 0) as [E|E].
  - exists 0%nat. split; [by constructor|]. f_equal. lia.
  - destruct (class_super H c Hc E) as (Hs & Hr' & _).
    destruct (IH _ (depth + 1) Hs ltac:(lia)) as (n & Hl & ->). exists (S n).
    split; [by constructor|]. f_equal. lia.
Qed.

Lemma level_below_rank c n : is_class c -> level c n -> (n <= rank c)%nat.
Proof.
  intros Hc Hl. revert Hc. induction Hl as [|c n Hn Hl IH]; intros Hc; [lia|].
  destruct (class_super H c Hc Hn) as (Hs & ? & _). pose proof (IH Hs). lia.
Qed.

Lemma level_ancestor c n d : level c n -> chain c d -> exists m, level d m /\ (m <= n)%nat.
Proof.
  intros Hl Hch. revert n Hl. induction Hch as [c|c d Hn Hch IH]; intros n Hl; [eauto|].
  inversion Hl; subst; [done|]. destruct (IH _ H1) as (m & ? & ?). eauto with lia.
Qed.

Lemma level_unique c n m : level c n -> level c m -> n = m.
Proof.
  intros Hl. revert m. induction Hl as [|c n Hn Hl IH]; inversion 1; subst; try done. auto.
Qed.

Lemma climb_spec k c n : is_class c -> level c (k + n) ->
  exists d, climb info k c = Some d /\ is_class d /\ chain c d /\ level d n /\
    (forall u m, chain c u -> level u m -> (m <= n)%nat -> chain d u).
Proof.
  revert c. induction k as [|k IH]; intros c Hc Hl; cbn [climb].
  { exists c. repeat split; try done. constructor. }
  rewrite (proj2 (Z.eqb_neq _ _) (class_not_null H c Hc)).
  inversion Hl as [|? ? Hn Hl']; subst. destruct (class_super H c Hc Hn) as (Hs & _).
  destruct (IH _ Hs Hl') as (d & -> & Hd & Hch & Hld & Hlow). exists d.
  repeat split; [done..| |done|].
  - by apply chain_step.
  - intros u m Hu Hm Hle. inversion Hu; subst; [|by eapply Hlow].
    pose proof (level_unique u m _ Hm Hl). lia.
Qed.

Lemma level_chain_eq c d n : level c n -> level d n -> chain c d -> c = d.
Proof.
  intros Hc Hd Hch. inversion Hch as [|? ? Hn Hch']; subst; [done|].
  inversion Hc as [|? m ? Hm]; subst; [done|].
  destruct (level_ancestor _ _ _ Hm Hch') as (k & Hk & ?).
  pose proof (level_unique _ _ _ Hd Hk). lia.
Qed.

Lemma MeetLoop_spec fuel s t n :
  is_class s -> is_class t -> IsPrimitive info s = false -> IsPrimitive info t = false ->
  level s n -> level t n -> (n < fuel)%nat ->
  exists d, MeetLoop info fuel s t = Some d /\ is_class d /\ chain s d /\ chain t d /\
    forall u, chain s u -> chain t u -> chain d u.
Proof.
  revert s t n. induction fuel as [|fuel IH]; intros s t n Hs Ht Hps Hpt Hls Hlt Hf; [lia|].
  cbn [MeetLoop]. destruct (Z.eqb_spec s t) as [->|Hne].
  { exists t. repeat split; try done; constructor. }
  rewrite (proj2 (Z.eqb_neq _ _) (class_not_null H s Hs)),
    (proj2 (Z.eqb_neq _ _) (class_not_null H t Ht)). cbn [orb].
  destruct n as [|m]; inversion Hls as [? E|? ? Ns Hls']; inversion Hlt as [? E'|? ? Nt Hlt']; subst.
  { destruct Hne. by rewrite (class_root H s), (class_root H t). }
  destruct (class_super H s Hs Ns) as (Hss & _ & _ & _ & Hpss).
  destruct (class_super H t Ht Nt) as (Hst & _ & _ & _ & Hpst).
  destruct (IH (super s) (super t) m) as (d & -> & Hd & Hcs & Hct & Hleast); [done..|lia|].
  exists d. repeat split; [done|by apply chain_step..|].
  intros u Hu Hu'. inversion Hu; inversion Hu'; subst; try done.
  - destruct Hne. symmetry. by apply (level_chain_eq t u (S m)).
  - destruct Hne. by apply (level_chain_eq s u (S m)).
  - by apply Hleast.
Qed.

Lemma CommonParent_spec s t :
  is_class s -> is_class t -> IsPrimitive info s = false -> IsPrimitive info t = false ->
  exists d, CommonParent info class_count s t = Some d /\ is_class d /\ chain s d /\ chain t d /\
    forall u, chain s u -> chain t u -> chain d u.
Proof.
  intros Hs Ht Hps Hpt. unfold CommonParent, Depth.
  destruct (DepthLoop_spec class_count s 0 Hs (class_rank H s Hs)) as (n & Hn & ->).
  destruct (DepthLoop_spec class_count t 0 Ht (class_rank H t Ht)) as (m & Hm & ->).
  cbn [mbind option_bind]. rewrite !Z.add_0_l.
  pose proof (level_below_rank s n Hs Hn). pose proof (class_rank H s Hs).
  pose proof (level_below_rank t m Ht Hm). pose proof (class_rank H t Ht).
  destruct (Z.ltb_spec (Z.of_nat m) (Z.of_nat n)).
  - replace (Z.to_nat _) with (n - m)%nat by lia.
    destruct (climb_spec (n - m) s m Hs) as (d & -> & Hd & Hch & Hl & Hlow).
    { by replace (n - m + m)%nat with n by lia. }
    cbn [mbind option_bind].
    destruct (MeetLoop_spec class_count d t m) as (e & -> & He & Hde & Hte & Hleast);
      [done..| |done|done|done|lia|].
    { by apply (chain_not_primitive s). }
    exists e. repeat split; [done|by eapply chain_trans|done|].
    intros u Hu Hu'. apply Hleast; [|done].
    destruct (level_ancestor t m u Hm Hu') as (k & Hk & Hle). by eapply Hlow.
  - replace (Z.to_nat _) with (m - n)%nat by lia.
    destruct (climb_spec (m - n) t n Ht) as (d & -> & Hd & Hch & Hl & Hlow).
    { by replace (m - n + n)%nat with m by lia. }
    cbn [mbind option_bind].
    pose proof (chain_not_primitive t d Ht Hpt Hch) as Hpd.
    destruct (MeetLoop_spec class_count s d n) as (e & -> & He & Hse & Hde & Hleast);
      [done..|lia|].
    exists e. repeat split; [done|done|by eapply chain_trans|].
    intros u Hu Hu'. apply Hleast; [done|].
    destruct (level_ancestor s n u Hn Hu) as (k & Hk & Hle). by eapply Hlow.
Qed.

Lemma subtype_concrete c u : is_class c -> is_class u -> ~ interface_like u ->
  IsArrayClass info u = false -> subtype c u -> chain c u.
Proof.
  intros Hc Hu Hiu Ha Hsub. apply subtype_plain; try done. apply not_true_is_false.
  intros E. apply Hiu. by apply interface_itself.
Qed.

Lemma join_loop fuel s t :
  is_class s -> is_class t -> IsPrimitive info s = false -> IsPrimitive info t = false ->
  (rank s < fuel)%nat ->
  exists j, ClassJoinLoop info class_count FindArrayClass fuel s t = Some j /\ is_class j /\
    IsPrimitive info j = false /\ subtype s j /\ subtype t j /\
    (forall u, is_class u -> ~ interface_like u -> subtype s u -> subtype t u -> subtype j u).
Proof.
  revert s t. induction fuel as [|fuel IH]; intros s t Hs Ht Hps Hpt Hr; [lia|].
  cbn [ClassJoinLoop]. destruct (Z.eqb_spec s t) as [->|Hne].
  { exists t. repeat split; try done; constructor. }
  destruct (assignable_spec s t Hs Ht) as (b & -> & Hb). cbn [mbind option_bind]. destruct b.
  { exists s. repeat split; try done; [constructor|by apply Hb]. }
  destruct (assignable_spec t s Ht Hs) as (b & -> & Hb'). cbn [mbind option_bind]. destruct b.
  { exists t. repeat split; try done; [by apply Hb'|constructor]. }
  assert (Hnst : ~ subtype s t) by (by rewrite <- Hb'). clear Hb'.
  assert (Hnts : ~ subtype t s) by (by rewrite <- Hb). clear Hb.
  destruct (class_object H) as (Ho & _ & Hpo & _).
  destruct (IsArrayClass info s && IsArrayClass info t) eqn:Ea.
  - apply andb_true_iff in Ea as (Eas & Eat).
    destruct (class_array H s Hs Eas) as (_ & _ & Es).
    apply array_component in Eas as Ns, Eat as Nt.
    destruct (class_component H s Hs Ns) as (Hcs & Hrs), (class_component H t Ht Nt) as (Hct & _).
    destruct (IsPrimitive info (component s) || IsPrimitive info (component t)) eqn:Ep.
    + exists Object. rewrite Es. repeat split; try done; [by apply sub_object..|].
      intros u Hu Hiu Hsu Htu. destruct (IsArrayClass info u) eqn:Eu.
      * destruct (subtype_array s u Hs Hu Eu Hsu) as [->|(_ & Eps & _)]; [done|].
        destruct (subtype_array t u Ht Hu Eu Htu) as [->|(_ & Ept & _)]; [done|].
        by rewrite Eps, Ept in Ep.
      * pose proof (subtype_concrete s u Hs Hu Hiu Eu Hsu) as Hch.
        inversion Hch; subst; [congruence|]. rewrite Es in *. by apply chain_subtype.
    + apply orb_false_iff in Ep as (Eps & Ept).
      destruct (IH _ _ Hcs Hct Eps Ept ltac:(lia)) as (e & -> & He & Hpe & Hse & Hte & Hleast).
      cbn [mbind option_bind]. destruct (class_array_of H s e Hs Eas He Hpe Hse) as (Hj & Ej).
      assert (Ej' : IsArrayClass info (FindArrayClass e) = true).
      { apply array_component. rewrite Ej. by apply (class_not_null H). }
      destruct (class_array H _ Hj Ej') as (Hpj & _ & Esj).
      exists (FindArrayClass e). repeat split; try done; [by apply sub_array; rewrite ?Ej..|].
      intros u Hu Hiu Hsu Htu. destruct (IsArrayClass info u) eqn:Eu.
      * destruct (subtype_array s u Hs Hu Eu Hsu) as [->|(_ & _ & Hsu')]; [done|].
        destruct (subtype_array t u Ht Hu Eu Htu) as [->|(_ & _ & Htu')]; [done|].
        apply array_component in Eu as Nu. destruct (class_component H u Hu Nu) as (Hcu & _).
        apply sub_array; rewrite ?Ej; try done. apply Hleast; try done. intros Hic. apply Hiu.
        by apply interface_array.
      * pose proof (subtype_concrete s u Hs Hu Hiu Eu Hsu) as Hch.
        inversion Hch as [|? ? _ Hch']; subst; [congruence|]. rewrite Es in Hch'.
        apply chain_subtype, object_above in Hch'. subst. by apply sub_object.
  - destruct (CommonParent_spec s t Hs Ht Hps Hpt) as (d & -> & Hd & Hsd & Htd & Hleast).
    exists d. repeat split; [done|by eapply (chain_not_primitive s)|by apply chain_subtype..|].
    intros u Hu Hiu Hsu Htu. destruct (IsArrayClass info u) eqn:Eu.
    + destruct (subtype_array s u Hs Hu Eu Hsu) as [->|(Eas & _)]; [done|].
      destruct (subtype_array t u Ht Hu Eu Htu) as [->|(Eat & _)]; [done|].
      by rewrite Eas, Eat in Ea.
    + apply chain_subtype, Hleast; by apply subtype_concrete.
Qed.

Lemma join_spec s t :
  is_class s -> is_class t -> IsPrimitive info s = false -> IsPrimitive info t = false ->
  exists j, ClassJoin info class_count FindArrayClass s t = Some j /\ is_class j /\
    IsPrimitive info j = false /\ subtype s j /\ subtype t j /\
    (forall u, is_class u -> ~ interface_like u -> subtype s u -> subtype t u -> subtype j u).
Proof. intros. apply join_loop; try done. by apply (class_rank H). Qed.

Lemma cannot_be_assigned_loop fuel c : is_class c -> (rank c < fuel)%nat ->
  exists b, CannotBeAssignedLoop info fuel c = Some b.
Proof.
  revert c. induction fuel as [|fuel IH]; intros c Hc Hr; [lia|]. cbn [CannotBeAssignedLoop].
  destruct (IsArrayClass info c) eqn:E; cbn [negb]; [|eauto].
  apply array_component in E. destruct (class_component H c Hc E) as (Hcc & ?).
  destruct (IsPrimitive info (component c)); [eauto|]. apply IH; [done|lia].
Qed.

(** A class that cannot be assigned from other types has no other sub type. *)
Lemma cannot_be_assigned_subtype fuel c d :
  is_class c -> is_class d -> IsPrimitive info c = false ->
  CannotBeAssignedLoop info fuel c = Some true -> subtype d c -> d = c.
Proof.
  revert c d. induction fuel as [|fuel IH]; intros c d Hc Hd Hp; [done|]. cbn [CannotBeAssignedLoop].
  destruct (IsArrayClass info c) eqn:Ea; cbn [negb].
  - intros Hcannot Hsub. destruct (subtype_array d c Hd Hc Ea Hsub) as [?|(Ed & Hpd & Hsub')]; [done|].
    apply array_component in Ea as Nc, Ed as Nd.
    destruct (class_component H c Hc Nc) as (Hcc & _), (class_component H d Hd Nd) as (Hcd & _).
    apply (class_array_canonical H); try done.
    destruct (IsPrimitive info (component c)) eqn:Epc; [|by apply IH].
    assert (Ec : IsInterface info (component c) = false /\ IsArrayClass info (component c) = false)
      by (by destruct (class_primitive H _ Hcc Epc) as (_ & ? & ? & _)).
    pose proof (subtype_plain _ _ Hcd Hcc (proj1 Ec) (proj2 Ec) Hsub') as Hch.
    pose proof (chain_not_primitive _ _ Hcd Hpd Hch). congruence.
  - intros [= Ef] Hsub. assert (Ei : IsInterface info c = false).
    { apply not_true_is_false. intros Ei. by rewrite (class_interface_final H c Hc Ei) in Ef. }
    pose proof (subtype_plain d c Hd Hc Ei Ea Hsub) as Hch. clear Hsub.
    induction Hch as [|d e Hn Hch IHch]; [done|].
    destruct (class_super H d Hd Hn) as (Hs & _). rewrite <- IHch in Ef by done.
    by rewrite (class_final H d Hd Hn) in Ef.
Qed.

(** ** Properties *)

(** C21: [Class::IsAssignableFrom] terminates and decides the subtype order of the language:
    inheritance, implemented interfaces, [java.lang.Object] above every reference, covariant
    arrays of references; and this order is transitive. *)
Theorem assignable_is_subtyping c src : is_class c -> is_class src ->
  exists b, IsAssignableFrom info class_count c src = Some b /\ (b = true <-> subtype src c) /\
    (forall d, is_class d -> b = true -> IsAssignableFrom info class_count d c = Some true ->
      IsAssignableFrom info class_count d src = Some true).
Proof.
  intros Hc Hsrc. destruct (assignable_spec c src Hc Hsrc) as (b & E & Hb).
  exists b. split; [done|]. split; [done|]. intros d Hd -> Ed.
  destruct (assignable_spec d c Hd Hc) as (b1 & E1 & Hb1).
  destruct (assignable_spec d src Hd Hsrc) as (b2 & -> & Hb2). f_equal. apply Hb2.
  rewrite E1 in Ed. injection Ed as ->. apply (subtype_trans src c d); auto; [by apply Hb|by apply Hb1].
Qed.

(** C22: [RegType::ClassJoin] terminates on classes that are not primitive, without following a
    null pointer.  Its result is a parent of both classes, and is below every common parent that
    is neither an interface nor an array of interfaces. *)
Theorem class_join_least s t :
  is_class s -> is_class t -> IsPrimitive info s = false -> IsPrimitive info t = false ->
  exists j, ClassJoin info class_count FindArrayClass s t = Some j /\ is_class j /\
    IsPrimitive info j = false /\ subtype s j /\ subtype t j /\
    (forall u, is_class u -> ~ interface_like u -> subtype s u -> subtype t u -> subtype j u).
Proof. apply join_spec. Qed.
End Hierarchy.

(** ** A small hierarchy

    1 is [Object], 2 a class [A], 3 and 4 its sub classes [B] and [C], which implement the
    interface 5, 6 is [int]; 11 to 15 are the arrays of 1 to 5, 16 is [int[]]. *)
Module Sample.
Definition reference (super : Z) (flags : Z) (iftable : list Z) : ClassInfo :=
  mkClassInfo super 0 flags kPrimNot iftable 7 kStatusLoaded [0x4c; super; 0x3b].
Definition array (component : Z) : ClassInfo :=
  mkClassInfo 1 component (Z.lor kAccFinal kAccAbstract) kPrimNot [] 7 kStatusLoaded [0x5b; component].
Definition info (c : Z) : ClassInfo :=
  match c with
  | 1 => reference 0 kAccPublic []
  | 2 => reference 1 kAccPublic []
  | 3 => reference 2 kAccPublic [5]
  | 4 => reference 2 (Z.lor kAccPublic kAccFinal) [5]
  | 5 => reference 1 (Z.lor kAccInterface kAccAbstract) []
  | 6 => mkClassInfo 0 0 (Z.lor kAccPublic kAccFinal) kPrimInt [] 0 kStatusLoaded [0x49]
  | 11 | 12 | 13 | 14 | 15 | 16 => array (c - 10)
  | _ => reference 0 0 []
  end.
Definition is_class (c : Z) : Prop := 1 <= c <= 6 \/ 11 <= c <= 16.
Definition rank (c : Z) : nat :=
  match c with 1 | 6 => 0 | 2 | 5 => 1 | 3 | 4 => 2 | _ => 3 end.
Definition class_count : nat := 12.
Definition FindArrayClass (c : Z) : Z := c + 10.

Lemma is_class_cases (P : Z -> Prop) :
  P 1 -> P 2 -> P 3 -> P 4 -> P 5 -> P 6 -> P 11 -> P 12 -> P 13 -> P 14 -> P 15 -> P 16 ->
  forall c, is_class c -> P c.
Proof.
  intros ???????????? c Hc.
  assert (c = 1 \/ c = 2 \/ c = 3 \/ c = 4 \/ c = 5 \/ c = 6 \/ c = 11 \/ c = 12 \/ c = 13
          \/ c = 14 \/ c = 15 \/ c = 16) by (unfold is_class in Hc; lia).
  naive_solver.
Qed.

Ltac cases c Hc := pattern c; revert c Hc; apply is_class_cases.

Lemma implements_five c i : is_class c -> Implements info c i = true -> (c = 3 \/ c = 4) /\ i = 5.
Proof.
  intros Hc. cases c Hc; unfold Implements; cbn; try discriminate;
    rewrite orb_false_r, Z.eqb_eq; intros; lia.
Qed.

Lemma above_component s c : is_class s -> IsArrayClass info s = true ->
  IsPrimitive info c = false -> is_class c -> subtype info 1 (GetComponentType info s) c -> c <= 5.
Proof.
  intros Hs Ha Hp Hc Hsub. destruct (Z.le_gt_cases c 6) as [Hle|Hgt].
  { destruct (decide (c = 6)) as [->|]; [done|lia]. }
  assert (Hsmall : 1 <= GetComponentType info s <= 6).
  { clear Hsub. revert Ha. cases s Hs; vm_compute; try discriminate; intros; split; discriminate. }
  clear Hs Ha. exfalso. induction Hsub as [c|c d Hn Hsub IH|c i Hi|c|c d Ha Ha' _ _ _]; try lia.
  - apply IH; try done. clear - Hsmall Hn.
    assert (c = 1 \/ c = 2 \/ c = 3 \/ c = 4 \/ c = 5 \/ c = 6) as [->|[->|[->|[->|[->| ->]]]]] by lia;
      vm_compute in Hn |- *; try done; split; discriminate.
  - destruct (implements_five c i) as (_ & ->); [|done|lia]. unfold is_class. lia.
  - assert (c = 1 \/ c = 2 \/ c = 3 \/ c = 4 \/ c = 5 \/ c = 6) as [->|[->|[->|[->|[->| ->]]]]] by lia;
      discriminate.
Qed.

Lemma sample_hierarchy : hierarchy info class_count FindArrayClass is_class rank 1.
Proof.
  split.
  - intros c Hc. unfold is_class in Hc. lia.
  - intros c Hc. cases c Hc; vm_compute; lia.
  - intros c Hc. cases c Hc; vm_compute; try done; intros _; repeat split; try done; try lia; left; split; discriminate.
  - intros c Hc. cases c Hc; vm_compute; try done; intros _; (split; [|lia]); left; split; discriminate.
  - repeat split; try done. left; split; discriminate.
  - intros c Hc. cases c Hc; vm_compute; done.
  - intros c Hc. cases c Hc; vm_compute; done.
  - intros c Hc. cases c Hc; vm_compute; done.
  - intros c d Hc. cases c Hc; intros Hd; cases d Hd; vm_compute; done.
  - intros c Hc. cases c Hc; vm_compute; done.
  - intros c Hc. cases c Hc; vm_compute; done.
  - intros c Hc. cases c Hc; vm_compute; done.
  - intros c i Hc Hi. destruct (implements_five c i Hc Hi) as (_ & ->).
    repeat split; try done. left; split; discriminate.
  - intros c i Hc Hn Hi. destruct (implements_five (GetSuperClass info c) i) as (Hs & ->); [|done|].
    + clear Hi. revert Hn. cases c Hc; vm_compute; try done; intros _; left; split; discriminate.
    + clear Hi Hn. revert Hs. cases c Hc; vm_compute; intros [|]; discriminate.
  - intros c d i Hc Hd Ha _ Hi. destruct (implements_five c i Hc Hi) as ([-> | ->] & _); discriminate.
  - intros s c Hs Ha Hc Hp Hsub. pose proof (above_component s c Hs Ha Hp Hc Hsub) as Hle.
    clear - Hc Hle. revert Hle. cases c Hc; unfold FindArrayClass; intros; try lia; split; try done;
      right; lia.
Qed.

Lemma assignable_is_subtyping_witness :
  exists b, IsAssignableFrom info class_count 5 4 = Some b /\ (b = true <-> subtype info 1 4 5) /\
    (forall d, is_class d -> b = true -> IsAssignableFrom info class_count d 5 = Some true ->
      IsAssignableFrom info class_count d 4 = Some true).
Proof.
  apply (assignable_is_subtyping info class_count FindArrayClass is_class rank 1 sample_hierarchy);
    left; split; discriminate.
Defined.

(** The join of [B[]] and [C[]] is [A[]]; the interface they share is not found. *)
Lemma class_join_least_witness :
  ClassJoin info class_count FindArrayClass 13 14 = Some 12 /\
  exists j, ClassJoin info class_count FindArrayClass 13 14 = Some j /\ is_class j /\
    IsPrimitive info j = false /\ subtype info 1 13 j /\ subtype info 1 14 j /\
    (forall u, is_class u -> ~ interface_like info u -> subtype info 1 13 u ->
      subtype info 1 14 u -> subtype info 1 j u).
Proof.
  split; [reflexivity|].
  apply (class_join_least info class_count FindArrayClass is_class rank 1 sample_hierarchy);
    try reflexivity; right; split; discriminate.
Defined.
End Sample.
