(* ===== verification/RegType.v ===== *)
(** * Register types and their cache ([verifier/reg_type.{h,cc}], [reg_type-inl.h],
    [reg_type_cache.{h,cc}], [reg_type_cache-inl.h])

    A [RegType] is what the method verifier knows of a register; its [kind] names the C++ class.
    A [RegTypeCache] keeps the types of one verifier in creation order; the operations take and
    return it.  A reference to a type is its id, the index of the cache entry.  A
    [std::string] is the list of its bytes; a [BitVector] is the set of its bits.  [None] is an
    abort ([CHECK]) or a null pointer that is followed. *)
From stdpp Require Import list gmap.
From S2P Require Import Prelude.
From S2P Require Import ClassData.
From S2P Require Import Runtime.
From S2P Require Import Descriptors.
From S2P Require Import MirrorClass.
Local Open Scope Z_scope.

(** What the types need from the class linker: the classes as they are while a method is
    verified.  [FindClass] and [LookupClass] answer 0 when there is no such class. *)
Class ClassLinker := {
  info : Z -> ClassInfo;
  class_count : nat;
  FindArrayClass : Z -> Z;
  FindSystemClass : list Z -> Z;
  FindClass : Z -> list Z -> Z;
  LookupClass : Z -> list Z -> Z;
  GetJavaLangClass : Z;
  GetJavaLangString : Z;
  GetJavaLangThrowable : Z;
}.

(** ** Types *)

Inductive Kind :=
  | UndefinedType | ConflictType
  | BooleanType | ByteType | ShortType | CharType | IntegerType
  | LongLoType | LongHiType | FloatType | DoubleLoType | DoubleHiType
  | PreciseConstType (constant : Z)
  | PreciseConstLoType (constant : Z) | PreciseConstHiType (constant : Z)
  | ImpreciseConstType (constant : Z)
  | ImpreciseConstLoType (constant : Z) | ImpreciseConstHiType (constant : Z)
  | UninitializedReferenceType (allocation_pc : Z)
  | UnresolvedUninitializedRefType (allocation_pc : Z)
  | UninitializedThisReferenceType | UnresolvedUninitializedThisRefType
  | ReferenceType | PreciseReferenceType
  | UnresolvedReferenceType
  | UnresolvedSuperClass (unresolved_child_id : Z)
  | UnresolvedMergedType (resolved_part : Z) (unresolved_types : gset Z).

#[export] Instance Kind_eq_dec : EqDecision Kind.
Proof. solve_decision. Defined.

Record RegType := mkRegType {
  kind : Kind;
  descriptor_ : list Z;
  klass_ : Z;
  cache_id_ : Z;
}.

#[export] Instance RegType_eq_dec : EqDecision RegType.
Proof. solve_decision. Defined.

Record RegTypeCache := mkCache {
  entries_ : list RegType;
  can_load_classes_ : bool;
}.

Definition GetId (t : RegType) : Z := cache_id_ t.
Definition Equals (t other : RegType) : bool := GetId t =? GetId other.

(** The virtual predicates. *)
Definition IsUndefined (t : RegType) : bool :=
  match kind t with UndefinedType => true | _ => false end.
Definition IsConflict (t : RegType) : bool :=
  match kind t with ConflictType => true | _ => false end.
Definition IsBoolean (t : RegType) : bool := match kind t with BooleanType => true | _ => false end.
Definition IsByte (t : RegType) : bool := match kind t with ByteType => true | _ => false end.
Definition IsShort (t : RegType) : bool := match kind t with ShortType => true | _ => false end.
Definition IsChar (t : RegType) : bool := match kind t with CharType => true | _ => false end.
Definition IsInteger (t : RegType) : bool := match kind t with IntegerType => true | _ => false end.
Definition IsLongLo (t : RegType) : bool := match kind t with LongLoType => true | _ => false end.
Definition IsLongHi (t : RegType) : bool := match kind t with LongHiType => true | _ => false end.
Definition IsFloat (t : RegType) : bool := match kind t with FloatType => true | _ => false end.
Definition IsDoubleLo (t : RegType) : bool := match kind t with DoubleLoType => true | _ => false end.
Definition IsDoubleHi (t : RegType) : bool := match kind t with DoubleHiType => true | _ => false end.
Definition IsPreciseConstant (t : RegType) : bool :=
  match kind t with PreciseConstType _ => true | _ => false end.
Definition IsPreciseConstantLo (t : RegType) : bool :=
  match kind t with PreciseConstLoType _ => true | _ => false end.
Definition IsPreciseConstantHi (t : RegType) : bool :=
  match kind t with PreciseConstHiType _ => true | _ => false end.
Definition IsImpreciseConstant (t : RegType) : bool :=
  match kind t with ImpreciseConstType _ => true | _ => false end.
Definition IsImpreciseConstantLo (t : RegType) : bool :=
  match kind t with ImpreciseConstLoType _ => true | _ => false end.
Definition IsImpreciseConstantHi (t : RegType) : bool :=
  match kind t with ImpreciseConstHiType _ => true | _ => false end.
Definition IsConstantTypes (t : RegType) : bool :=
  match kind t with
  | PreciseConstType _ | PreciseConstLoType _ | PreciseConstHiType _
  | ImpreciseConstType _ | ImpreciseConstLoType _ | ImpreciseConstHiType _ => true
  | _ => false
  end.
Definition IsUninitializedReference (t : RegType) : bool :=
  match kind t with UninitializedReferenceType _ => true | _ => false end.
Definition IsUninitializedThisReference (t : RegType) : bool :=
  match kind t with UninitializedThisReferenceType => true | _ => false end.
Definition IsUnresolvedAndUninitializedReference (t : RegType) : bool :=
  match kind t with UnresolvedUninitializedRefType _ => true | _ => false end.
Definition IsUnresolvedAndUninitializedThisReference (t : RegType) : bool :=
  match kind t with UnresolvedUninitializedThisRefType => true | _ => false end.
Definition IsReference (t : RegType) : bool :=
  match kind t with ReferenceType => true | _ => false end.
Definition IsPreciseReference (t : RegType) : bool :=
  match kind t with PreciseReferenceType => true | _ => false end.
Definition IsUnresolvedReference (t : RegType) : bool :=
  match kind t with UnresolvedReferenceType => true | _ => false end.
Definition IsUnresolvedSuperClass (t : RegType) : bool :=
  match kind t with UnresolvedSuperClass _ => true | _ => false end.
Definition IsUnresolvedMergedReference (t : RegType) : bool :=
  match kind t with UnresolvedMergedType _ _ => true | _ => false end.

Definition IsUninitializedTypes (t : RegType) : bool :=
  match kind t with
  | UninitializedReferenceType _ | UnresolvedUninitializedRefType _
  | UninitializedThisReferenceType | UnresolvedUninitializedThisRefType => true
  | _ => false
  end.
Definition IsUnresolvedTypes (t : RegType) : bool :=
  match kind t with
  | UnresolvedUninitializedRefType _ | UnresolvedUninitializedThisRefType
  | UnresolvedReferenceType | UnresolvedSuperClass _ | UnresolvedMergedType _ _ => true
  | _ => false
  end.
Definition IsNonZeroReferenceTypes (t : RegType) : bool :=
  match kind t with
  | UninitializedReferenceType _ | UnresolvedUninitializedRefType _
  | UninitializedThisReferenceType | UnresolvedUninitializedThisRefType
  | ReferenceType | PreciseReferenceType
  | UnresolvedReferenceType | UnresolvedSuperClass _ | UnresolvedMergedType _ _ => true
  | _ => false
  end.

(** [ConstantType]: [constant_] is a [uint32_t]. *)
Definition constant_ (t : RegType) : Z :=
  match kind t with
  | PreciseConstType c | PreciseConstLoType c | PreciseConstHiType c
  | ImpreciseConstType c | ImpreciseConstLoType c | ImpreciseConstHiType c => c
  | _ => 0
  end.
Definition ConstantValue (t : RegType) : Z := s32 (constant_ t).
Definition ConstantValueLo (t : RegType) : Z := s32 (constant_ t).
Definition ConstantValueHi (t : RegType) : Z := s32 (constant_ t).
Definition GetAllocationPc (t : RegType) : Z :=
  match kind t with
  | UninitializedReferenceType pc | UnresolvedUninitializedRefType pc => pc
  | _ => 0
  end.

Definition IsConstant (t : RegType) : bool := IsImpreciseConstant t || IsPreciseConstant t.
Definition IsConstantLo (t : RegType) : bool := IsImpreciseConstantLo t || IsPreciseConstantLo t.
Definition IsConstantHi (t : RegType) : bool := IsPreciseConstantHi t || IsImpreciseConstantHi t.
Definition IsPrecise (t : RegType) : bool :=
  IsPreciseConstantLo t || IsPreciseConstant t || IsPreciseConstantHi t.
Definition IsLongConstant (t : RegType) : bool := IsConstantLo t.

Definition IsZero (t : RegType) : bool := IsPreciseConstant t && (ConstantValue t =? 0).
Definition IsOne (t : RegType) : bool := IsPreciseConstant t && (ConstantValue t =? 1).
Definition constant_within (lo hi : Z) (t : RegType) : bool :=
  IsConstant t && (lo <=? ConstantValue t) && (ConstantValue t <=? hi).
Definition IsConstantBoolean (t : RegType) : bool := constant_within 0 1 t.
Definition IsConstantChar (t : RegType) : bool := constant_within 0 65535 t.
Definition IsConstantByte (t : RegType) : bool := constant_within (-128) 127 t.
Definition IsConstantShort (t : RegType) : bool := constant_within (-32768) 32767 t.

Definition IsLowHalf (t : RegType) : bool :=
  IsLongLo t || IsDoubleLo t || IsPreciseConstantLo t || IsImpreciseConstantLo t.
Definition IsHighHalf (t : RegType) : bool :=
  IsLongHi t || IsDoubleHi t || IsPreciseConstantHi t || IsImpreciseConstantHi t.
Definition IsLongOrDoubleTypes (t : RegType) : bool := IsLowHalf t.

Definition CheckWidePair (t type_h : RegType) : bool :=
  if IsLowHalf t then
    (IsImpreciseConstantLo t && IsPreciseConstantHi type_h)
    || (IsImpreciseConstantLo t && IsImpreciseConstantHi type_h)
    || (IsPreciseConstantLo t && IsPreciseConstantHi type_h)
    || (IsPreciseConstantLo t && IsImpreciseConstantHi type_h)
    || (IsDoubleLo t && IsDoubleHi type_h) || (IsLongLo t && IsLongHi type_h)
  else false.

Definition IsReferenceTypes (t : RegType) : bool := IsNonZeroReferenceTypes t || IsZero t.
Definition IsCategory1Types (t : RegType) : bool :=
  IsChar t || IsInteger t || IsFloat t || IsConstant t || IsByte t || IsShort t || IsBoolean t.
Definition IsCategory2Types (t : RegType) : bool := IsLowHalf t.
Definition IsBooleanTypes (t : RegType) : bool := IsBoolean t || IsConstantBoolean t.
Definition IsByteTypes (t : RegType) : bool := IsConstantByte t || IsByte t || IsBoolean t.
Definition IsShortTypes (t : RegType) : bool :=
  IsShort t || IsByte t || IsBoolean t || IsConstantShort t.
Definition IsCharTypes (t : RegType) : bool := IsChar t || IsBooleanTypes t || IsConstantChar t.
Definition IsIntegralTypes (t : RegType) : bool :=
  IsInteger t || IsConstant t || IsByte t || IsShort t || IsChar t || IsBoolean t.
Definition IsArrayIndexTypes (t : RegType) : bool := IsIntegralTypes t.
Definition IsFloatTypes (t : RegType) : bool := IsFloat t || IsConstant t.
Definition IsLongTypes (t : RegType) : bool := IsLongLo t || IsLongConstant t.
Definition IsLongHighTypes (t : RegType) : bool :=
  IsLongHi t || IsPreciseConstantHi t || IsImpreciseConstantHi t.
Definition IsDoubleTypes (t : RegType) : bool := IsDoubleLo t || IsLongConstant t.
Definition IsDoubleHighTypes (t : RegType) : bool :=
  IsDoubleHi t || IsPreciseConstantHi t || IsImpreciseConstantHi t.

(** [GetPrimitiveType]. *)
Definition GetPrimitiveType (t : RegType) : PrimitiveType :=
  if IsNonZeroReferenceTypes t then kPrimNot
  else if IsBooleanTypes t then kPrimBoolean
  else if IsByteTypes t then kPrimByte
  else if IsShortTypes t then kPrimShort
  else if IsCharTypes t then kPrimChar
  else if IsFloat t then kPrimFloat
  else if IsIntegralTypes t then kPrimInt
  else if IsDoubleLo t then kPrimDouble
  else kPrimLong.

Definition HasClass (t : RegType) : bool := negb (klass_ t =? 0).
Definition GetClass (t : RegType) : Z := klass_ t.
Definition GetDescriptor (t : RegType) : list Z := descriptor_ t.

Definition SelectNonConstant (a b : RegType) : RegType := if IsConstantTypes a then b else a.

(** [descriptor_[0] == '[']. *)
Definition array_descriptor (d : list Z) : bool :=
  match d with c :: _ => c =? 0x5b | [] => false end.

(** [entries_[i]] of a search from [primitive_count_] on: the first entry that matches. *)
Fixpoint find_entry (matches : RegType -> option bool) (l : list RegType)
  : option (option RegType) :=
  match l with
  | [] => Some None
  | e :: l' => b ← matches e; if (b : bool) then Some (Some e) else find_entry matches l'
  end.

Definition kMinSmallConstant : Z := -1.
Definition kMaxSmallConstant : Z := 4.
Definition kNumPrimitivesAndSmallConstants : Z := 12 + (kMaxSmallConstant - kMinSmallConstant + 1).
Definition primitive_count_ : nat := Z.to_nat kNumPrimitivesAndSmallConstants.

(** [GetFromId]. *)
Definition GetFromId (c : RegTypeCache) (id : Z) : option RegType := entries_ c !! Z.to_nat id.

(** [new Type(..., entries_.size())] and [AddEntry]; the id is a [uint16_t]. *)
Definition AddEntry (k : Kind) (descriptor : list Z) (klass : Z) (c : RegTypeCache)
  : RegTypeCache * RegType :=
  let entry := mkRegType k descriptor klass (u16 (Z.of_nat (length (entries_ c)))) in
  (mkCache (entries_ c ++ [entry]) (can_load_classes_ c), entry).

Definition FindOrAdd (matches : RegType -> option bool) (k : Kind) (descriptor : list Z) (klass : Z)
  (c : RegTypeCache) : option (RegTypeCache * RegType) :=
  found ← find_entry matches (drop primitive_count_ (entries_ c));
  match found with
  | Some entry => Some (c, entry)
  | None => Some (AddEntry k descriptor klass c)
  end.

Section Cache.
Context {CL : ClassLinker}.

Local Abbreviation Result := (option (RegTypeCache * RegType)).

(** ** The global types *)

(** [CreatePrimitiveTypeInstance]. *)
Definition CreatePrimitiveTypeInstance (k : Kind) (descriptor : list Z) (id : Z) : RegType :=
  mkRegType k descriptor (match descriptor with [] => 0 | _ => FindSystemClass descriptor end) id.

Definition Undefined : RegType := CreatePrimitiveTypeInstance UndefinedType [] 0.
Definition Conflict : RegType := CreatePrimitiveTypeInstance ConflictType [] 1.
Definition Boolean : RegType := CreatePrimitiveTypeInstance BooleanType [0x5a] 2.
Definition Byte : RegType := CreatePrimitiveTypeInstance ByteType [0x42] 3.
Definition Short : RegType := CreatePrimitiveTypeInstance ShortType [0x53] 4.
Definition Char : RegType := CreatePrimitiveTypeInstance CharType [0x43] 5.
Definition Integer : RegType := CreatePrimitiveTypeInstance IntegerType [0x49] 6.
Definition LongLo : RegType := CreatePrimitiveTypeInstance LongLoType [0x4a] 7.
Definition LongHi : RegType := CreatePrimitiveTypeInstance LongHiType [0x4a] 8.
Definition Float : RegType := CreatePrimitiveTypeInstance FloatType [0x46] 9.
Definition DoubleLo : RegType := CreatePrimitiveTypeInstance DoubleLoType [0x44] 10.
Definition DoubleHi : RegType := CreatePrimitiveTypeInstance DoubleHiType [0x44] 11.

(** [small_precise_constants_[value - kMinSmallConstant]]. *)
Definition small_precise_constant (value : Z) : RegType :=
  mkRegType (PreciseConstType (u32 value)) [] 0 (12 + (value - kMinSmallConstant)).

(** [FillPrimitiveAndSmallConstantTypes]. *)
Definition primitives : list RegType :=
  [Undefined; Conflict; Boolean; Byte; Short; Char; Integer; LongLo; LongHi; Float; DoubleLo;
   DoubleHi]
  ++ (small_precise_constant <$> seqZ kMinSmallConstant (kMaxSmallConstant - kMinSmallConstant + 1)).

Definition new_cache (can_load_classes : bool) : RegTypeCache := mkCache primitives can_load_classes.

Definition RegTypeFromPrimitiveType (prim_type : PrimitiveType) : RegType :=
  match prim_type with
  | kPrimBoolean => Boolean
  | kPrimByte => Byte
  | kPrimShort => Short
  | kPrimChar => Char
  | kPrimInt => Integer
  | kPrimLong => LongLo
  | kPrimFloat => Float
  | kPrimDouble => DoubleLo
  | _ => Conflict
  end.

(** ** Constants *)

Definition constant_matches (is_constant : RegType -> bool) (value : Z) (precise : bool)
  (cur_entry : RegType) : option bool :=
  Some (is_constant cur_entry && Bool.eqb (IsPrecise cur_entry) precise
        && (s32 (constant_ cur_entry) =? value)).

Definition FromCat1NonSmallConstant (value : Z) (precise : bool) (c : RegTypeCache) : Result :=
  FindOrAdd (fun cur_entry =>
      Some (negb (HasClass cur_entry) && IsConstant cur_entry
            && Bool.eqb (IsPreciseConstant cur_entry) precise && (ConstantValue cur_entry =? value)))
    (if precise then PreciseConstType (u32 value) else ImpreciseConstType (u32 value)) [] 0 c.

Definition FromCat1Const (value : Z) (precise : bool) (c : RegTypeCache) : Result :=
  if precise && (kMinSmallConstant <=? value) && (value <=? kMaxSmallConstant)
  then Some (c, small_precise_constant value)
  else FromCat1NonSmallConstant value precise c.

Definition FromCat2ConstLo (value : Z) (precise : bool) (c : RegTypeCache) : Result :=
  FindOrAdd (constant_matches IsConstantLo value precise)
    (if precise then PreciseConstLoType (u32 value) else ImpreciseConstLoType (u32 value)) [] 0 c.

Definition FromCat2ConstHi (value : Z) (precise : bool) (c : RegTypeCache) : Result :=
  FindOrAdd (constant_matches IsConstantHi value precise)
    (if precise then PreciseConstHiType (u32 value) else ImpreciseConstHiType (u32 value)) [] 0 c.

Definition Zero : RegType := small_precise_constant 0.
Definition One : RegType := small_precise_constant 1.
Definition ByteConstant (c : RegTypeCache) : Result := FromCat1Const (-128) false c.
Definition CharConstant (c : RegTypeCache) : Result := FromCat1Const 65535 false c.
Definition ShortConstant (c : RegTypeCache) : Result := FromCat1Const (-32768) false c.
Definition IntConstant (c : RegTypeCache) : Result := FromCat1Const 2147483647 false c.
Definition PosByteConstant (c : RegTypeCache) : Result := FromCat1Const 127 false c.
Definition PosShortConstant (c : RegTypeCache) : Result := FromCat1Const 32767 false c.

(** ** References *)

Definition MatchingPrecisionForClass (entry : RegType) (precise : bool) : option bool :=
  if Bool.eqb (IsPreciseReference entry) precise then Some true
  else if negb precise then CannotBeAssignedFromOtherTypes info class_count (GetClass entry)
  else Some false.

Definition MatchDescriptor (descriptor : list Z) (precise : bool) (entry : RegType) : option bool :=
  if negb (bool_decide (descriptor = descriptor_ entry)) then Some false
  else if HasClass entry then MatchingPrecisionForClass entry precise
  else Some true.

Definition ResolveClass (c : RegTypeCache) (descriptor : list Z) (loader : Z) : Z :=
  if can_load_classes_ c then FindClass loader descriptor
  else
    let klass := LookupClass loader descriptor in
    if negb (klass =? 0) && negb (IsLoaded info klass) then 0 else klass.

Definition From (loader : Z) (descriptor : list Z) (precise : bool) (c : RegTypeCache) : Result :=
  found ← find_entry (MatchDescriptor descriptor precise) (drop primitive_count_ (entries_ c));
  match found with
  | Some entry => Some (c, entry)
  | None =>
      let klass := ResolveClass c descriptor loader in
      if negb (klass =? 0) then
        cannot ← CannotBeAssignedFromOtherTypes info class_count klass;
        if (cannot : bool) || precise then Some (AddEntry PreciseReferenceType descriptor klass c)
        else Some (AddEntry ReferenceType descriptor klass c)
      else
        valid ← IsValidDescriptor (descriptor ++ [0]);
        if (valid : bool) then Some (AddEntry UnresolvedReferenceType descriptor 0 c)
        else Some (c, Conflict)
  end.

Definition FromDescriptor (loader : Z) (descriptor : list Z) (precise : bool) (c : RegTypeCache)
  : Result :=
  match descriptor with
  | [] => None
  | [x] =>
      Some (c, if x =? 0x5a then Boolean else if x =? 0x42 then Byte else if x =? 0x53 then Short
               else if x =? 0x43 then Char else if x =? 0x49 then Integer
               else if x =? 0x4a then LongLo else if x =? 0x46 then Float
               else if x =? 0x44 then DoubleLo else Conflict)
  | x :: _ =>
      if (x =? 0x4c) || (x =? 0x5b) then From loader descriptor precise c else Some (c, Conflict)
  end.

Definition FromClass (descriptor : list Z) (klass : Z) (precise : bool) (c : RegTypeCache) : Result :=
  if IsPrimitive info klass then Some (c, RegTypeFromPrimitiveType (primitive_type_ (info klass)))
  else
    FindOrAdd (fun cur_entry =>
        if klass_ cur_entry =? klass then MatchingPrecisionForClass cur_entry precise
        else Some false)
      (if precise then PreciseReferenceType else ReferenceType) descriptor klass c.

(** ["Ljava/lang/Object;"] and the other names. *)
Definition ljava_lang (name : list Z) : list Z :=
  [0x4c; 0x6a; 0x61; 0x76; 0x61; 0x2f; 0x6c; 0x61; 0x6e; 0x67; 0x2f] ++ name ++ [0x3b].
Definition JavaLangObject (precise : bool) (c : RegTypeCache) : Result :=
  FromClass (ljava_lang [0x4f; 0x62; 0x6a; 0x65; 0x63; 0x74])
    (MirrorClass.GetSuperClass info GetJavaLangClass) precise c.
Definition JavaLangClass (c : RegTypeCache) : Result :=
  FromClass (ljava_lang [0x43; 0x6c; 0x61; 0x73; 0x73]) GetJavaLangClass true c.
Definition JavaLangString (c : RegTypeCache) : Result :=
  FromClass (ljava_lang [0x53; 0x74; 0x72; 0x69; 0x6e; 0x67]) GetJavaLangString true c.
Definition JavaLangThrowable (precise : bool) (c : RegTypeCache) : Result :=
  FromClass (ljava_lang [0x54; 0x68; 0x72; 0x6f; 0x77; 0x61; 0x62; 0x6c; 0x65])
    GetJavaLangThrowable precise c.

(** ** Objects under construction *)

Definition Uninitialized (type : RegType) (allocation_pc : Z) (c : RegTypeCache) : Result :=
  let descriptor := GetDescriptor type in
  if IsUnresolvedTypes type then
    FindOrAdd (fun cur_entry =>
        Some (IsUnresolvedAndUninitializedReference cur_entry
              && (GetAllocationPc cur_entry =? allocation_pc)
              && bool_decide (GetDescriptor cur_entry = descriptor)))
      (UnresolvedUninitializedRefType allocation_pc) descriptor 0 c
  else
    let klass := GetClass type in
    FindOrAdd (fun cur_entry =>
        Some (IsUninitializedReference cur_entry && (GetAllocationPc cur_entry =? allocation_pc)
              && (GetClass cur_entry =? klass)))
      (UninitializedReferenceType allocation_pc) descriptor klass c.

Definition FromUninitialized (uninit_type : RegType) (c : RegTypeCache) : Result :=
  if IsUnresolvedTypes uninit_type then
    let descriptor := GetDescriptor uninit_type in
    FindOrAdd (fun cur_entry =>
        Some (IsUnresolvedReference cur_entry && bool_decide (GetDescriptor cur_entry = descriptor)))
      UnresolvedReferenceType descriptor 0 c
  else
    let klass := GetClass uninit_type in
    if IsUninitializedThisReference uninit_type && negb (IsFinal info klass) then
      FindOrAdd (fun cur_entry => Some (IsReference cur_entry && (GetClass cur_entry =? klass)))
        ReferenceType [] klass c
    else if IsInstantiable info klass then
      FindOrAdd (fun cur_entry => Some (IsPreciseReference cur_entry && (GetClass cur_entry =? klass)))
        PreciseReferenceType (GetDescriptor uninit_type) klass c
    else Some (c, Conflict).

Definition UninitializedThisArgument (type : RegType) (c : RegTypeCache) : Result :=
  let descriptor := GetDescriptor type in
  if IsUnresolvedTypes type then
    FindOrAdd (fun cur_entry =>
        Some (IsUnresolvedAndUninitializedThisReference cur_entry
              && bool_decide (GetDescriptor cur_entry = descriptor)))
      UnresolvedUninitializedThisRefType descriptor 0 c
  else
    let klass := GetClass type in
    FindOrAdd (fun cur_entry =>
        Some (IsUninitializedThisReference cur_entry && (GetClass cur_entry =? klass)))
      UninitializedThisReferenceType descriptor klass c.

Definition FromUnresolvedSuperClass (child : RegType) (c : RegTypeCache) : Result :=
  FindOrAdd (fun cur_entry =>
      Some (match kind cur_entry with
            | UnresolvedSuperClass unresolved_child_id => unresolved_child_id =? GetId child
            | _ => false
            end))
    (UnresolvedSuperClass (GetId child)) [] 0 c.
End Cache.

(** ** Queries about reference types *)
Section Queries.
Context {CL : ClassLinker}.

Local Abbreviation Result := (option (RegTypeCache * RegType)).

(** An unresolved type that has a descriptor. *)
Definition named_unresolved (t : RegType) : bool :=
  IsUnresolvedTypes t && negb (IsUnresolvedMergedReference t) && negb (IsUnresolvedSuperClass t).

Definition IsObjectArrayTypes (t : RegType) : bool :=
  if named_unresolved t then array_descriptor (descriptor_ t)
  else if HasClass t then
    IsArrayClass info (GetClass t)
    && negb (IsPrimitive info (MirrorClass.GetComponentType info (GetClass t)))
  else false.

Definition IsJavaLangObject (t : RegType) : bool :=
  IsReference t && IsObjectClass info (GetClass t).

Definition IsArrayTypes (t : RegType) : bool :=
  if named_unresolved t then array_descriptor (descriptor_ t)
  else if HasClass t then IsArrayClass info (GetClass t)
  else false.

Definition IsJavaLangObjectArray (t : RegType) : bool :=
  HasClass t && IsArrayClass info (GetClass t)
  && IsObjectClass info (MirrorClass.GetComponentType info (GetClass t)).

Definition IsInstantiableTypes (t : RegType) : bool :=
  IsUnresolvedTypes t || (IsNonZeroReferenceTypes t && IsInstantiable info (GetClass t)).

Definition CanAccess (t other : RegType) : option bool :=
  if Equals t other then Some true
  else if negb (IsUnresolvedTypes t) && negb (IsUnresolvedTypes other) then
    MirrorClass.CanAccess info class_count (GetClass t) (GetClass other)
  else if negb (IsUnresolvedTypes other) then Some (IsPublic info (GetClass other))
  else Some false.

Definition CanAccessMember (t : RegType) (klass access_flags : Z) : option bool :=
  if negb (Z.land access_flags kAccPublic =? 0) then Some true
  else if negb (IsUnresolvedTypes t) then
    MirrorClass.CanAccessMember info class_count (GetClass t) klass access_flags
  else Some false.

(** [AssignableFrom]; [None] is the [CHECK] that fails for the high halves and [Undefined]. *)
Definition AssignableFrom (lhs rhs : RegType) (strict : bool) : option bool :=
  if Equals lhs rhs then Some true
  else if IsBoolean lhs then Some (IsBooleanTypes rhs)
  else if IsByte lhs then Some (IsByteTypes rhs)
  else if IsShort lhs then Some (IsShortTypes rhs)
  else if IsChar lhs then Some (IsCharTypes rhs)
  else if IsInteger lhs then Some (IsIntegralTypes rhs)
  else if IsFloat lhs then Some (IsFloatTypes rhs)
  else if IsLongLo lhs then Some (IsLongTypes rhs)
  else if IsDoubleLo lhs then Some (IsDoubleTypes rhs)
  else if IsConflict lhs then Some false
  else if negb (IsReferenceTypes lhs) then None
  else if IsZero rhs then Some true
  else if negb (IsReferenceTypes rhs) then Some false
  else if IsJavaLangObject lhs then Some true
  else if negb strict && negb (IsUnresolvedTypes lhs) && IsInterface info (GetClass lhs) then Some true
  else if IsJavaLangObjectArray lhs then Some (IsObjectArrayTypes rhs)
  else if HasClass lhs && HasClass rhs then
    MirrorClass.IsAssignableFrom info class_count (GetClass lhs) (GetClass rhs)
  else Some false.

Definition IsAssignableFrom (t src : RegType) : option bool := AssignableFrom t src false.
Definition IsStrictlyAssignableFrom (t src : RegType) : option bool := AssignableFrom t src true.

(** [HighHalf]; in a build without checks every type but [LongLo] and [DoubleLo] is taken for a
    constant. *)
Definition HighHalf (t : RegType) (c : RegTypeCache) : Result :=
  if IsLongLo t then Some (c, LongHi)
  else if IsDoubleLo t then Some (c, DoubleHi)
  else FromCat2ConstHi (ConstantValue t) false c.

Definition GetSuperClass (t : RegType) (c : RegTypeCache) : Result :=
  if negb (IsUnresolvedTypes t) then
    let super_klass := MirrorClass.GetSuperClass info (GetClass t) in
    if negb (super_klass =? 0) then
      FromClass (descriptor_of (info super_klass)) super_klass false c
    else Some (c, Zero)
  else if negb (IsUnresolvedMergedReference t) && negb (IsUnresolvedSuperClass t)
          && array_descriptor (GetDescriptor t) then JavaLangObject true c
  else FromUnresolvedSuperClass t c.

(** [RegTypeCache::GetComponentType]. *)
Definition GetComponentType (array : RegType) (loader : Z) (c : RegTypeCache) : Result :=
  if negb (IsArrayTypes array) then Some (c, Conflict)
  else if IsUnresolvedTypes array then
    FromDescriptor loader (tail (GetDescriptor array)) false c
  else
    let klass := MirrorClass.GetComponentType info (GetClass array) in
    if IsErroneous info klass then FromDescriptor loader (descriptor_of (info klass)) false c
    else
      cannot ← CannotBeAssignedFromOtherTypes info class_count klass;
      FromClass (descriptor_of (info klass)) klass cannot c.

(** [CanAssignArray]: the answer and [*soft_error], which the code leaves alone when the answer is
    true.  Each turn strips a dimension of two resolved arrays. *)
Fixpoint CanAssignArrayLoop (fuel : nat) (t src : RegType) (loader : Z) (soft_error : bool)
    (c : RegTypeCache) : option (RegTypeCache * (bool * bool)) :=
  match fuel with
  | O => None
  | S fuel' =>
      if negb (IsArrayTypes t) || negb (IsArrayTypes src) then Some (c, (false, false))
      else
        '(c, cmp1) ← GetComponentType t loader c;
        '(c, cmp2) ← GetComponentType src loader c;
        assignable ← IsAssignableFrom cmp1 cmp2;
        let known (cmp : RegType) := IsIntegralTypes cmp || IsFloatTypes cmp || IsArrayTypes cmp in
        if (assignable : bool) then Some (c, (true, soft_error))
        else if IsUnresolvedTypes cmp1 then Some (c, (false, negb (known cmp2)))
        else if IsUnresolvedTypes cmp2 then Some (c, (false, negb (known cmp1)))
        else if negb (IsArrayTypes cmp1) || negb (IsArrayTypes cmp2) then Some (c, (false, false))
        else CanAssignArrayLoop fuel' cmp1 cmp2 loader soft_error c
  end.
Definition CanAssignArray : RegType -> RegType -> Z -> bool -> RegTypeCache ->
    option (RegTypeCache * (bool * bool)) := CanAssignArrayLoop (S class_count).

(** ** Merging *)

(** Both arguments of [Merge] are constants of category 1. *)
Definition MergeConstants (type1 type2 : RegType) (c : RegTypeCache) : Result :=
  let val1 := ConstantValue type1 in
  let val2 := ConstantValue type2 in
  let select (left : bool) : Result :=
    let type := if left then type1 else type2 in
    let val := if left then val1 else val2 in
    if negb (IsPreciseConstant type) then Some (c, type) else FromCat1Const val false c in
  if (0 <=? val1) && (0 <=? val2) then select (val2 <=? val1)
  else if (val1 <? 0) && (val2 <? 0) then select (val1 <=? val2)
  else if IsConstantByte type1 then
    if IsConstantByte type2 then ByteConstant c
    else if IsConstantShort type2 then ShortConstant c
    else IntConstant c
  else if IsConstantShort type1 then
    if IsConstantShort type2 then ShortConstant c else IntConstant c
  else IntConstant c.

(** Two resolved references. *)
Definition MergeClasses (t incoming_type : RegType) (c : RegTypeCache) : Result :=
  let c1 := GetClass t in
  let c2 := GetClass incoming_type in
  join_class ← ClassJoin info class_count FindArrayClass c1 c2;
  if (c1 =? join_class) && negb (IsPreciseReference t) then Some (c, t)
  else if (c2 =? join_class) && negb (IsPreciseReference incoming_type) then Some (c, incoming_type)
  else FromClass (descriptor_of (info join_class)) join_class false c.

(** [Merge] and [FromUnresolvedMerge] call each other; [unresolved_merge] is the latter. *)
Definition MergeWith (unresolved_merge : RegType -> RegType -> RegTypeCache -> Result)
  (t incoming_type : RegType) (c : RegTypeCache) : Result :=
  if IsUndefined t || IsUndefined incoming_type then
    Some (c, if IsUndefined t then t else incoming_type)
  else if IsConflict t then Some (c, t)
  else if IsConflict incoming_type then Some (c, incoming_type)
  else if IsConstant t && IsConstant incoming_type then MergeConstants t incoming_type c
  else if IsConstantLo t && IsConstantLo incoming_type then
    FromCat2ConstLo (Z.lor (ConstantValueLo t) (ConstantValueLo incoming_type)) false c
  else if IsConstantHi t && IsConstantHi incoming_type then
    FromCat2ConstHi (Z.lor (ConstantValueHi t) (ConstantValueHi incoming_type)) false c
  else if IsIntegralTypes t && IsIntegralTypes incoming_type then
    Some (c, if IsBooleanTypes t && IsBooleanTypes incoming_type then Boolean
             else if IsByteTypes t && IsByteTypes incoming_type then Byte
             else if IsShortTypes t && IsShortTypes incoming_type then Short
             else if IsCharTypes t && IsCharTypes incoming_type then Char
             else Integer)
  else if (IsFloatTypes t && IsFloatTypes incoming_type)
          || (IsLongTypes t && IsLongTypes incoming_type)
          || (IsLongHighTypes t && IsLongHighTypes incoming_type)
          || (IsDoubleTypes t && IsDoubleTypes incoming_type)
          || (IsDoubleHighTypes t && IsDoubleHighTypes incoming_type) then
    Some (c, SelectNonConstant t incoming_type)
  else if IsReferenceTypes t && IsReferenceTypes incoming_type then
    if IsZero t || IsZero incoming_type then Some (c, SelectNonConstant t incoming_type)
    else if IsJavaLangObject t || IsJavaLangObject incoming_type then JavaLangObject false c
    else if IsUnresolvedTypes t || IsUnresolvedTypes incoming_type then
      unresolved_merge t incoming_type c
    else if IsUninitializedTypes t || IsUninitializedTypes incoming_type then Some (c, Conflict)
    else MergeClasses t incoming_type c
  else Some (c, Conflict).

(** The resolved and the unresolved part of a type. *)
Definition SplitUnresolved (t : RegType) (c : RegTypeCache) : option (RegType * gset Z) :=
  match kind t with
  | UnresolvedMergedType resolved_part unresolved_types =>
      resolved ← GetFromId c resolved_part; Some (resolved, unresolved_types)
  | _ => Some (if IsUnresolvedTypes t then (Zero, {[GetId t]}) else (t, ∅))
  end.

(** [safe_merge] is [SafeMerge]. *)
Definition FromUnresolvedMergeWith (safe_merge : RegType -> RegType -> RegTypeCache -> Result)
  (left right : RegType) (c : RegTypeCache) : Result :=
  '(left_resolved, left_types) ← SplitUnresolved left c;
  '(right_resolved, right_types) ← SplitUnresolved right c;
  let types := left_types ∪ right_types in
  '(c, resolved_parts_merged) ← safe_merge left_resolved right_resolved c;
  if IsConflict resolved_parts_merged then Some (c, Conflict)
  else
    FindOrAdd (fun cur_entry =>
        Some (match kind cur_entry with
              | UnresolvedMergedType resolved_part unresolved_part =>
                  (resolved_part =? GetId resolved_parts_merged)
                  && bool_decide (types = unresolved_part)
              | _ => false
              end))
      (UnresolvedMergedType (GetId resolved_parts_merged) types) [] 0 c.

Definition SafeMergeWith (merge : RegType -> RegType -> RegTypeCache -> Result)
  (t incoming_type : RegType) (c : RegTypeCache) : Result :=
  if Equals t incoming_type then Some (c, t) else merge t incoming_type c.

(** The resolved parts of unresolved types are resolved, so the calls nest twice. *)
Fixpoint MergeLoop (fuel : nat) (t incoming_type : RegType) (c : RegTypeCache) : Result :=
  match fuel with
  | O => None
  | S fuel' =>
      MergeWith (FromUnresolvedMergeWith (SafeMergeWith (MergeLoop fuel'))) t incoming_type c
  end.
Definition Merge : RegType -> RegType -> RegTypeCache -> Result := MergeLoop 2.
Definition SafeMerge : RegType -> RegType -> RegTypeCache -> Result := SafeMergeWith Merge.
Definition FromUnresolvedMerge : RegType -> RegType -> RegTypeCache -> Result :=
  FromUnresolvedMergeWith SafeMerge.
End Queries.
