(* ===== verification/RegTypeFacts.v ===== *)
(** * Register types: the cache invariant and what the types mean

    [cache_ok] is the invariant of a [RegTypeCache]; every operation keeps it, only appends
    entries, and answers an entry ([outcome]).  [has_type] says which contents of a register a
    type describes; [Merge] is sound for it. *)
From stdpp Require Import list gmap.
From S2P Require Import Prelude.
From S2P Require Import Runtime.
From S2P Require Import Utf.
From S2P Require Import Descriptors.
From S2P Require Import MirrorClass.
From S2P Require Import RegType.
Local Open Scope Z_scope.

(** The class linker that the types use is one whose classes form a [hierarchy]. *)
Class ClassLinkerLaws (CL : ClassLinker) := {
  is_class : Z -> Prop;
  rank : Z -> nat;
  Object : Z;
  linker_hierarchy : hierarchy info class_count FindArrayClass is_class rank Object;
  linker_object : MirrorClass.GetSuperClass info GetJavaLangClass = Object;
  linker_find loader x d klass : x = 0x4c \/ x = 0x5b ->
    klass = FindClass loader (x :: d) \/ klass = LookupClass loader (x :: d) ->
    klass = 0 \/ is_class klass /\ IsPrimitive info klass = false;
}.

(** [kinds t] splits on the C++ class of [t]. *)
Ltac kinds t := destruct t as [[] ? ? ?]; try done.

Section Facts.
Context {CL : ClassLinker} {Laws : ClassLinkerLaws CL}.

Local Abbreviation Result := (option (RegTypeCache * RegType)).

(** ** The invariant *)

(** [e] is the entry that a search for the class [k] that need not be precise answers. *)
Definition stands_for (e : RegType) (k : Z) : Prop :=
  klass_ e = k /\ (kind e = ReferenceType \/
    kind e = PreciseReferenceType /\ CannotBeAssignedFromOtherTypes info class_count k = Some true).

Definition covered (entries : list RegType) (i : nat) (k : Z) : Prop :=
  exists j e, (primitive_count_ <= j < i)%nat /\ entries !! j = Some e /\ stands_for e k.

Definition proper_class (k : Z) : Prop := is_class k /\ IsPrimitive info k = false.

Definition resolved_part_ok (e : RegType) : Prop :=
  IsReferenceTypes e = true /\ IsUnresolvedTypes e = false.

Definition unresolved_part_ok (e : RegType) : Prop :=
  IsUnresolvedTypes e = true /\ IsUnresolvedMergedReference e = false.

Definition entry_ok (entries : list RegType) (i : nat) (t : RegType) : Prop :=
  match kind t with
  | ReferenceType | PreciseReferenceType => proper_class (klass_ t)
  | UninitializedReferenceType _ | UninitializedThisReferenceType =>
      proper_class (klass_ t) /\ covered entries i (klass_ t)
  | UnresolvedMergedType r ids =>
      klass_ t = 0 /\
      (exists e, (Z.to_nat r < i)%nat /\ entries !! Z.to_nat r = Some e /\ resolved_part_ok e) /\
      (forall id, id ∈ ids -> exists e, (Z.to_nat id < i)%nat /\ entries !! Z.to_nat id = Some e /\
        unresolved_part_ok e)
  | PreciseConstType k => klass_ t = 0 /\ ~ kMinSmallConstant <= s32 k <= kMaxSmallConstant
  | PreciseConstLoType _ | PreciseConstHiType _
  | ImpreciseConstType _ | ImpreciseConstLoType _ | ImpreciseConstHiType _
  | UnresolvedUninitializedRefType _ | UnresolvedUninitializedThisRefType
  | UnresolvedReferenceType | UnresolvedSuperClass _ => klass_ t = 0
  | _ => False
  end.

Record cache_ok (c : RegTypeCache) : Prop := {
  ok_primitives : take primitive_count_ (entries_ c) = primitives;
  ok_size : Z.of_nat (length (entries_ c)) <= 2 ^ 16;
  ok_ids i t : entries_ c !! i = Some t -> cache_id_ t = Z.of_nat i;
  ok_entries i t : (primitive_count_ <= i)%nat -> entries_ c !! i = Some t ->
    entry_ok (entries_ c) i t;
}.

Definition is_entry (c : RegTypeCache) (t : RegType) : Prop := exists i, entries_ c !! i = Some t.

(** [c'] is [c] with at most [n] entries appended. *)
Definition grows (n : nat) (c c' : RegTypeCache) : Prop :=
  exists l, entries_ c' = entries_ c ++ l /\ (length l <= n)%nat /\
    can_load_classes_ c' = can_load_classes_ c.

(** There is room for [n] entries with different ids. *)
Definition room (n : nat) (c : RegTypeCache) : Prop :=
  Z.of_nat (length (entries_ c)) + Z.of_nat n <= 2 ^ 16.

(** An operation on [c] succeeds and answers an entry for which [Q] holds. *)
Definition outcome (n : nat) (c : RegTypeCache) (r : Result) (Q : RegTypeCache -> RegType -> Prop) : Prop :=
  exists c' t, r = Some (c', t) /\ grows n c c' /\ cache_ok c' /\ is_entry c' t /\ Q c' t.

(** ** Growth *)

Lemma grows_refl n c : grows n c c.
Proof. exists []. rewrite app_nil_r. split_and!; [done|cbn; lia|done]. Qed.

Lemma grows_trans n m c d e : grows n c d -> grows m d e -> grows (n + m) c e.
Proof.
  intros (l & E & Hl & F) (k & E' & Hk & F'). exists (l ++ k).
  rewrite E', E, app_assoc, length_app. split; [done|]. split; [lia|congruence].
Qed.

Lemma grows_weaken n m c d : (n <= m)%nat -> grows n c d -> grows m c d.
Proof. intros ? (l & E & Hl & F). exists l. split_and!; [done|lia|done]. Qed.

Lemma grows_lookup n c c' i t : grows n c c' -> entries_ c !! i = Some t -> entries_ c' !! i = Some t.
Proof. intros (l & -> & _ & _). apply lookup_app_l_Some. Qed.

Lemma grows_entry n c c' t : grows n c c' -> is_entry c t -> is_entry c' t.
Proof. intros Hg (i & Hi). exists i. by eapply grows_lookup. Qed.

Lemma grows_room n m c c' : grows n c c' -> room (n + m) c -> room m c'.
Proof. unfold room. intros (l & -> & Hl & _) Hr. rewrite length_app. lia. Qed.

Lemma room_weaken n m c : (m <= n)%nat -> room n c -> room m c.
Proof. unfold room. lia. Qed.

Lemma from_id n c c' id t : grows n c c' -> GetFromId c id = Some t -> GetFromId c' id = Some t.
Proof. unfold GetFromId. apply grows_lookup. Qed.

Lemma outcome_weaken n m c r (Q Q' : RegTypeCache -> RegType -> Prop) : (n <= m)%nat ->
  (forall c' t, grows n c c' -> cache_ok c' -> is_entry c' t -> Q c' t -> Q' c' t) ->
  outcome n c r Q -> outcome m c r Q'.
Proof.
  intros Hnm HQ (c' & t & -> & Hg & Hok & Ht & H). exists c', t.
  pose proof (grows_weaken n m c c' Hnm Hg). do 4 (split; [done|]). by apply HQ.
Qed.

Lemma outcome_same n c t Q : cache_ok c -> is_entry c t -> Q c t -> outcome n c (Some (c, t)) Q.
Proof. intros. exists c, t. split_and!; try done. apply grows_refl. Qed.

Lemma outcome_bind n m c (r : Result) (f : RegTypeCache -> RegType -> Result) Q Q' :
  outcome n c r Q ->
  (forall c' t, grows n c c' -> cache_ok c' -> is_entry c' t -> Q c' t -> outcome m c' (f c' t) Q') ->
  outcome (n + m) c ('(c', t) ← r; f c' t) Q'.
Proof.
  intros (c' & t & -> & Hg & Hok & Ht & H) Hf. cbn [mbind option_bind].
  destruct (Hf c' t Hg Hok Ht H) as (c2 & t2 & -> & Hg2 & Hok2 & Ht2 & H2).
  exists c2, t2. split_and!; try done. by eapply grows_trans.
Qed.

(** ** Ids *)

Lemma entry_from_id c t : cache_ok c -> is_entry c t -> GetFromId c (GetId t) = Some t.
Proof.
  intros Hok (i & Hi). unfold GetFromId, GetId. rewrite (ok_ids c Hok i t Hi). by rewrite Nat2Z.id.
Qed.

Lemma equals_eq c t t' : cache_ok c -> is_entry c t -> is_entry c t' ->
  Equals t t' = bool_decide (t = t').
Proof.
  intros Hok Ht Ht'. unfold Equals. case_bool_decide as E; [subst; apply Z.eqb_refl|].
  apply Z.eqb_neq. intros Eid. apply E.
  pose proof (entry_from_id c t Hok Ht). pose proof (entry_from_id c t' Hok Ht'). congruence.
Qed.

Lemma entry_invariant c t : cache_ok c -> is_entry c t ->
  t ∈ primitives \/ exists i, (primitive_count_ <= i)%nat /\ entries_ c !! i = Some t /\
    entry_ok (entries_ c) i t.
Proof.
  intros Hok (i & Hi). destruct (decide (i < primitive_count_)%nat) as [Hlt|Hge].
  - left. rewrite <- (ok_primitives c Hok). apply list_elem_of_lookup. exists i.
    by rewrite lookup_take_lt.
  - right. exists i. split; [lia|]. split; [done|]. apply ok_entries; [done|lia|done].
Qed.

(** ** Adding entries *)

Lemma covered_app E l i k : covered E i k -> covered (E ++ l) i k.
Proof. intros (j & e & Hj & He & Hs). exists j, e. eauto using lookup_app_l_Some. Qed.

Lemma entry_ok_app E l i t : entry_ok E i t -> entry_ok (E ++ l) i t.
Proof.
  unfold entry_ok. destruct (kind t); try done.
  - intros (? & ?). eauto using covered_app.
  - intros (? & ?). eauto using covered_app.
  - intros (? & (e & ? & ? & ?) & Hids). split; [done|]. split; [eauto using lookup_app_l_Some|].
    intros id Hid. destruct (Hids id Hid) as (e' & ? & ? & ?). eauto using lookup_app_l_Some.
Qed.

Lemma primitives_length : length primitives = primitive_count_.
Proof. done. Qed.

Lemma cache_length c : cache_ok c -> (primitive_count_ <= length (entries_ c))%nat.
Proof.
  intros Hok. rewrite <- primitives_length, <- (ok_primitives c Hok), length_take. lia.
Qed.

Lemma AddEntry_outcome c k d kl (Q : RegTypeCache -> RegType -> Prop) :
  cache_ok c -> room 1 c ->
  (let t := mkRegType k d kl (Z.of_nat (length (entries_ c))) in
   entry_ok (entries_ c) (length (entries_ c)) t /\
   Q (mkCache (entries_ c ++ [t]) (can_load_classes_ c)) t) ->
  outcome 1 c (Some (AddEntry k d kl c)) Q.
Proof.
  intros Hok Hroom (Ht & HQ). unfold AddEntry, outcome.
  assert (Eid : u16 (Z.of_nat (length (entries_ c))) = Z.of_nat (length (entries_ c))).
  { unfold room in Hroom. change (2 ^ 16) with 65536 in Hroom. word_lia. }
  rewrite Eid. set (t := mkRegType _ _ _ _) in *.
  pose proof (cache_length c Hok) as Hlen.
  exists (mkCache (entries_ c ++ [t]) (can_load_classes_ c)), t. split; [done|]. split_and!; cbn.
  - exists [t]. split_and!; [done|cbn; lia|done].
  - split; cbn.
    + rewrite take_app_le by done. apply (ok_primitives c Hok).
    + unfold room in Hroom. rewrite length_app. cbn [length]. lia.
    + intros i t' Hi. apply lookup_snoc_Some in Hi as [(_ & Hi)|(-> & <-)]; [|done].
      by apply (ok_ids c Hok).
    + intros i t' Hge Hi. apply entry_ok_app.
      apply lookup_snoc_Some in Hi as [(_ & Hi)|(-> & <-)]; [|done]. by apply (ok_entries c Hok).
  - exists (length (entries_ c)). cbn. by apply list_lookup_middle.
  - done.
Qed.

Lemma find_entry_spec p l :
  (forall e, e ∈ l -> exists b, p e = Some b) ->
  (find_entry p l = Some None /\ forall e, e ∈ l -> p e = Some false) \/
  (exists i e, find_entry p l = Some (Some e) /\ l !! i = Some e /\ p e = Some true /\
    forall j e', (j < i)%nat -> l !! j = Some e' -> p e' = Some false).
Proof.
  induction l as [|x l IH]; intros Hp; cbn [find_entry].
  { left. split; [done|]. intros e He. by inversion He. }
  destruct (Hp x) as (b & Eb); [left|]. rewrite Eb. cbn [mbind option_bind]. destruct b.
  { right. exists 0%nat, x. split_and!; try done. lia. }
  destruct IH as [(-> & Hl)|(i & e & -> & Hi & He & Hlow)].
  - intros e He. apply Hp. by right.
  - left. split; [done|]. intros e He. apply elem_of_cons in He as [->|He]; auto.
  - right. exists (S i), e. split_and!; try done. intros [|j] e' Hj Hj'; [naive_solver|].
    apply (Hlow j); [lia|done].
Qed.

(** [FindOrAdd] answers the first match, or the new entry. *)
Lemma FindOrAdd_outcome p k d kl c (Q : RegTypeCache -> RegType -> Prop) :
  cache_ok c -> room 1 c ->
  (forall i e, (primitive_count_ <= i)%nat -> entries_ c !! i = Some e -> entry_ok (entries_ c) i e ->
    exists b, p e = Some b) ->
  (forall i e, (primitive_count_ <= i)%nat -> entries_ c !! i = Some e -> p e = Some true ->
    (forall j e', (primitive_count_ <= j < i)%nat -> entries_ c !! j = Some e' -> p e' = Some false) ->
    Q c e) ->
  (let t := mkRegType k d kl (Z.of_nat (length (entries_ c))) in
   entry_ok (entries_ c) (length (entries_ c)) t /\
   Q (mkCache (entries_ c ++ [t]) (can_load_classes_ c)) t) ->
  outcome 1 c (FindOrAdd p k d kl c) Q.
Proof.
  intros Hok Hroom Hp Hfound Hnew. unfold FindOrAdd.
  destruct (find_entry_spec p (drop primitive_count_ (entries_ c)))
    as [(-> & _)|(i & e & -> & Hi & He & Hlow)].
  - intros e He. apply list_elem_of_lookup in He as (i & Hi). rewrite lookup_drop in Hi.
    eapply (Hp (primitive_count_ + i)%nat); [lia|done|]. apply ok_entries; [done|lia|done].
  - cbn [mbind option_bind]. by apply AddEntry_outcome.
  - cbn [mbind option_bind]. rewrite lookup_drop in Hi. apply outcome_same; [done|by eexists|].
    eapply Hfound; [|done..|].
    + lia.
    + intros j e' Hj Hj'. apply (Hlow (j - primitive_count_)%nat); [lia|]. rewrite lookup_drop.
      by replace (primitive_count_ + (j - primitive_count_))%nat with j by lia.
Qed.

(** ** The operations on the cache *)

Lemma new_cache_ok b : cache_ok (new_cache b).
Proof.
  split; cbn [new_cache entries_].
  - done.
  - vm_compute. done.
  - intros i t Hi. do 18 (destruct i as [|i]; [by injection Hi as <-|]). done.
  - intros i t Hge Hi. apply lookup_lt_Some in Hi. rewrite primitives_length in Hi. lia.
Qed.

Lemma small_constant_entry c v : cache_ok c -> kMinSmallConstant <= v <= kMaxSmallConstant ->
  is_entry c (small_precise_constant v).
Proof.
  intros Hok Hv. exists (Z.to_nat (12 + (v - kMinSmallConstant))).
  assert (Hp : primitives !! Z.to_nat (12 + (v - kMinSmallConstant)) = Some (small_precise_constant v)).
  { unfold kMinSmallConstant, kMaxSmallConstant in *.
    assert (v = -1 \/ v = 0 \/ v = 1 \/ v = 2 \/ v = 3 \/ v = 4) as H by lia.
    by destruct H as [->|[->|[->|[->|[->| ->]]]]]. }
  rewrite <- (ok_primitives c Hok) in Hp. by apply lookup_take_Some in Hp as (? & _).
Qed.

Lemma primitive_entry c t : cache_ok c -> t ∈ primitives -> is_entry c t.
Proof.
  intros Hok Ht. rewrite <- (ok_primitives c Hok) in Ht. apply list_elem_of_lookup in Ht as (i & Hi).
  apply lookup_take_Some in Hi as (Hi & _). by exists i.
Qed.

(** [value] is the value of the constant [t]. *)
Definition const_kind (make : Z -> Kind) (value : Z) (t : RegType) : Prop :=
  exists k, kind t = make k /\ s32 k = value.

Definition cat1_const (precise : bool) : Z -> Kind :=
  if precise then PreciseConstType else ImpreciseConstType.
Definition cat2_const_lo (precise : bool) : Z -> Kind :=
  if precise then PreciseConstLoType else ImpreciseConstLoType.
Definition cat2_const_hi (precise : bool) : Z -> Kind :=
  if precise then PreciseConstHiType else ImpreciseConstHiType.

Lemma s32_u32 v : is_s 32 v -> s32 (u32 v) = v.
Proof. word_lia. Qed.

Lemma FromCat1Const_outcome v precise c : cache_ok c -> room 1 c -> is_s 32 v ->
  outcome 1 c (FromCat1Const v precise c) (fun _ => const_kind (cat1_const precise) v).
Proof.
  intros Hok Hroom Hv. unfold FromCat1Const. destruct (_ && _ && _) eqn:E.
  { repeat rewrite andb_true_iff, ?Z.leb_le in E. destruct E as ((-> & ?) & ?).
    apply outcome_same; [done|by apply small_constant_entry|]. exists (u32 v).
    split; [done|by apply s32_u32]. }
  apply FindOrAdd_outcome; try done.
  - eauto.
  - intros i e _ _ [= Hp] _. rewrite !andb_true_iff, Z.eqb_eq in Hp. destruct Hp as (((_ & Hc) & Hpr) & Hv').
    unfold const_kind. kinds e; destruct precise; try done; eexists; (split; [done|]); done.
  - split; [|exists (u32 v); split; [by destruct precise|by apply s32_u32]].
    destruct precise; [|done]. split; [done|]. cbn [kind]. rewrite s32_u32 by done.
    rewrite <- !Z.leb_le. intros (Hl & Hu). cbn in E. by rewrite Hl, Hu in E.
Qed.

Lemma FromCat2ConstLo_outcome v precise c : cache_ok c -> room 1 c -> is_s 32 v ->
  outcome 1 c (FromCat2ConstLo v precise c) (fun _ => const_kind (cat2_const_lo precise) v).
Proof.
  intros Hok Hroom Hv. apply FindOrAdd_outcome; try done.
  - unfold constant_matches. eauto.
  - intros i e _ _ [= Hp] _. rewrite !andb_true_iff, Z.eqb_eq in Hp. destruct Hp as ((Hc & Hpr) & Hv').
    unfold const_kind. kinds e; destruct precise; try done; eexists; (split; [done|]); done.
  - split; [by destruct precise|]. exists (u32 v). split; [by destruct precise|by apply s32_u32].
Qed.

Lemma FromCat2ConstHi_outcome v precise c : cache_ok c -> room 1 c -> is_s 32 v ->
  outcome 1 c (FromCat2ConstHi v precise c) (fun _ => const_kind (cat2_const_hi precise) v).
Proof.
  intros Hok Hroom Hv. apply FindOrAdd_outcome; try done.
  - unfold constant_matches. eauto.
  - intros i e _ _ [= Hp] _. rewrite !andb_true_iff, Z.eqb_eq in Hp. destruct Hp as ((Hc & Hpr) & Hv').
    unfold const_kind. kinds e; destruct precise; try done; eexists; (split; [done|]); done.
  - split; [by destruct precise|]. exists (u32 v). split; [by destruct precise|by apply s32_u32].
Qed.

(** *** Classes *)

Lemma cannot_be_assigned_total k : is_class k ->
  exists b, CannotBeAssignedFromOtherTypes info class_count k = Some b.
Proof.
  intros Hk. apply (cannot_be_assigned_loop _ _ _ _ _ _ linker_hierarchy); [done|].
  by apply (class_rank _ _ _ _ _ _ linker_hierarchy).
Qed.

Lemma class_nonzero k : is_class k -> k <> 0.
Proof. apply (class_not_null _ _ _ _ _ _ linker_hierarchy). Qed.

(** The answer for a class, precise or not. *)
Definition answers_class (k : Z) (precise : bool) (t : RegType) : Prop :=
  if precise then kind t = PreciseReferenceType /\ klass_ t = k else stands_for t k.

Lemma matching_precision e k precise : is_class k -> klass_ e = k ->
  exists b, MatchingPrecisionForClass e precise = Some b.
Proof.
  intros Hk <-. unfold MatchingPrecisionForClass. destruct (Bool.eqb _ _); [eauto|].
  destruct precise; cbn [negb]; [eauto|]. by apply cannot_be_assigned_total.
Qed.

(** A first match for a class is never an object under construction. *)
Lemma first_match_class E i e k precise :
  is_class k -> entry_ok E i e -> klass_ e = k -> MatchingPrecisionForClass e precise = Some true ->
  (forall j e', (primitive_count_ <= j < i)%nat -> E !! j = Some e' -> klass_ e' = k ->
    MatchingPrecisionForClass e' precise = Some false) ->
  answers_class k precise e.
Proof.
  intros Hk Hok Ek Hm Hfirst.
  assert (Hcov : covered E i k -> precise = true).
  { intros (j & e' & Hj & He' & Ek' & Hkind). destruct precise; [done|].
    specialize (Hfirst j e' Hj He' Ek'). unfold MatchingPrecisionForClass, GetClass in Hfirst.
    rewrite Ek' in Hfirst. unfold IsPreciseReference in Hfirst.
    destruct Hkind as [Ekd|(Ekd & Hc)]; rewrite Ekd in Hfirst; cbn in Hfirst; congruence. }
  pose proof (class_nonzero k Hk) as Hnz. unfold entry_ok in Hok. unfold answers_class, stands_for.
  unfold MatchingPrecisionForClass, IsPreciseReference, GetClass in Hm. rewrite Ek in Hm.
  destruct (kind e) eqn:Ekind; try done; try congruence; destruct precise; cbn in Hm; try done;
    rewrite ?Ek in Hok; try (by destruct Hok as (_ & Hc); specialize (Hcov Hc)); auto;
    destruct Hok as (? & _); congruence.
Qed.

Lemma FromClass_outcome d k precise c : cache_ok c -> room 1 c -> proper_class k ->
  outcome 1 c (FromClass d k precise c) (fun _ => answers_class k precise).
Proof.
  intros Hok Hroom (Hk & Hp). unfold FromClass. rewrite Hp. apply FindOrAdd_outcome; try done.
  - intros i e _ _ Hentry. destruct (Z.eqb_spec (klass_ e) k) as [E|]; [|eauto].
    by eapply matching_precision.
  - intros i e Hge Hi Hm Hfirst. destruct (Z.eqb_spec (klass_ e) k) as [E|]; [|done].
    eapply first_match_class; try done; [by apply (ok_entries c Hok)|].
    intros j e' Hj Hj' Ek. specialize (Hfirst j e' Hj Hj'). by rewrite Ek, Z.eqb_refl in Hfirst.
  - split; destruct precise; try done. split; auto.
Qed.

Lemma object_proper : proper_class Object.
Proof. destruct (class_object _ _ _ _ _ _ linker_hierarchy) as (? & _ & ? & _). done. Qed.

Lemma JavaLangObject_outcome precise c : cache_ok c -> room 1 c ->
  outcome 1 c (JavaLangObject precise c) (fun _ => answers_class Object precise).
Proof.
  intros Hok Hroom. unfold JavaLangObject. rewrite linker_object.
  by apply FromClass_outcome; [..|apply object_proper].
Qed.

(** ** What a type says of a register *)

Lemma zero_entry c : cache_ok c -> is_entry c Zero.
Proof. intros Hok. by apply (small_constant_entry c 0). Qed.

Lemma conflict_entry c : cache_ok c -> is_entry c Conflict.
Proof. intros Hok. apply primitive_entry; [done|]. right. left. Qed.

Lemma is_zero_unique c t : cache_ok c -> is_entry c t -> IsZero t = true -> t = Zero.
Proof.
  intros Hok Ht Hz. destruct (entry_invariant c t Hok Ht) as [Hp|(i & _ & _ & Hi)].
  - repeat (apply elem_of_cons in Hp as [->|Hp]; [done|]). by apply elem_of_nil in Hp.
  - unfold IsZero, ConstantValue, constant_ in Hz. kinds t. cbn in Hi, Hz.
    apply Z.eqb_eq in Hz. rewrite Hz in Hi. destruct Hi as (_ & []). done.
Qed.
End Facts.

(** The state of an object: fresh from [new-instance] at a pc, the receiver of a constructor
    that has not called another one yet, or initialized. *)
Inductive ObjectState := Allocated (pc : Z) | Constructing | Initialized.

(** The objects behind references; [named d k] says that the class [k] is assignable to what the
    descriptor [d] names at run time. *)
Class Objects := {
  class_of : Z -> Z;
  state_of : Z -> ObjectState;
  named : list Z -> Z -> Prop;
}.

(** The values of an imprecise constant: the range that [Merge] builds up. *)
Definition imprecise_range (k x : Z) : Prop :=
  if 0 <=? k then k = 2 ^ 31 - 1 \/ 0 <= x <= k else k <= x <= - k - 1.

Section Meaning.
Context {CL : ClassLinker} {Laws : ClassLinkerLaws CL} {Obj : Objects}.

Definition refers (P : Prop) (r : Z) : Prop :=
  r = 0 \/ proper_class (class_of r) /\ P.

Definition instance_of (k c : Z) : Prop := IsInterface info k = true \/ subtype info Object c k.

(** A register with the bits [v] and the entry [r] of the reference array. *)
Definition base_type (t : RegType) (v r : Z) : Prop :=
  match kind t with
  | BooleanType => 0 <= s32 v <= 1
  | ByteType => -128 <= s32 v <= 127
  | ShortType => -32768 <= s32 v <= 32767
  | CharType => 0 <= s32 v <= 65535
  | PreciseConstType k => s32 v = s32 k /\ r = 0
  | ImpreciseConstType k => imprecise_range (s32 k) (s32 v)
  | PreciseConstLoType k | PreciseConstHiType k => s32 v = s32 k
  | UninitializedReferenceType pc =>
      refers (state_of r = Allocated pc /\ class_of r = klass_ t) r
  | UnresolvedUninitializedRefType pc =>
      refers (state_of r = Allocated pc /\ named (descriptor_ t) (class_of r)) r
  | UninitializedThisReferenceType =>
      refers (state_of r = Constructing /\ subtype info Object (class_of r) (klass_ t)) r
  | UnresolvedUninitializedThisRefType => refers (state_of r = Constructing) r
  | ReferenceType =>
      refers (state_of r = Initialized /\ instance_of (klass_ t) (class_of r)) r
  | PreciseReferenceType => refers (state_of r = Initialized /\ class_of r = klass_ t) r
  | UnresolvedReferenceType => refers (state_of r = Initialized /\ named (descriptor_ t) (class_of r)) r
  | UnresolvedSuperClass _ => refers (state_of r = Initialized) r
  | _ => True
  end.

Definition has_type (c : RegTypeCache) (t : RegType) (v r : Z) : Prop :=
  match kind t with
  | UnresolvedMergedType res ids =>
      (exists e, GetFromId c res = Some e /\ base_type e v r) \/
      (exists id e, id ∈ ids /\ GetFromId c id = Some e /\ base_type e v r)
  | _ => base_type t v r
  end.

(** [m] describes every register that [t] or [t'] describes. *)
Definition above (c c' : RegTypeCache) (t t' m : RegType) : Prop :=
  forall v r, has_type c t v r \/ has_type c t' v r -> has_type c' m v r.

Lemma has_type_grows n c c' t v r : grows n c c' -> has_type c t v r -> has_type c' t v r.
Proof.
  intros Hg. unfold has_type. destruct (kind t); try done.
  intros [(e & He & ?)|(id & e & Hid & He & ?)]; [left|right]; eauto 6 using from_id.
Qed.

(** Types that the merge does not look into. *)
Definition plain (t : RegType) : Prop := IsUnresolvedMergedReference t = false.

Lemma constant_plain t :
  IsConstant t = true \/ IsConstantLo t = true \/ IsConstantHi t = true -> plain t.
Proof. kinds t; by intros [|[|]]. Qed.

Lemma const_kind_plain make k t :
  (forall x, plain (mkRegType (make x) [] 0 0)) -> const_kind make k t -> plain t.
Proof. intros H (x & E & _). specialize (H x). unfold plain, IsUnresolvedMergedReference in *. by rewrite E. Qed.

(** *** Constants *)

Lemma s32_range v : is_s 32 (s32 v).
Proof. word_lia. Qed.

Lemma base_constant t v r : IsConstant t = true -> base_type t v r ->
  imprecise_range (ConstantValue t) (s32 v).
Proof.
  pose proof (s32_range v) as Hv. unfold is_s in Hv. cbn in Hv.
  unfold base_type, ConstantValue, constant_, imprecise_range, IsConstant, IsImpreciseConstant, IsPreciseConstant.
  destruct (kind t); try discriminate; [|done]. intros _ (-> & _). destruct (Z.leb_spec 0 (s32 constant)); [right|]; lia.
Qed.

Lemma imprecise_base t k v r : const_kind ImpreciseConstType k t -> imprecise_range k (s32 v) ->
  base_type t v r.
Proof. intros (x & Ek & <-). unfold base_type. by rewrite Ek. Qed.

Ltac range := intros ?; repeat case_Zcmp; lia.

Lemma constant_bounds t : IsConstant t = true ->
  IsConstantByte t = (-128 <=? ConstantValue t) && (ConstantValue t <=? 127) /\
  IsConstantShort t = (-32768 <=? ConstantValue t) && (ConstantValue t <=? 32767).
Proof. intros Hc. unfold IsConstantByte, IsConstantShort, constant_within. by rewrite Hc. Qed.

Lemma MergeConstants_outcome c t t' : cache_ok c -> room 1 c -> is_entry c t -> is_entry c t' ->
  IsConstant t = true -> IsConstant t' = true ->
  outcome 1 c (MergeConstants t t' c) (fun _ m => plain m /\ forall v r,
    base_type t v r \/ base_type t' v r -> base_type m v r).
Proof.
  intros Hok Hroom Ht Ht' Hc Hc'.
  assert (Hselect : forall x y, is_entry c x -> IsConstant x = true ->
      (forall z, imprecise_range (ConstantValue y) z -> imprecise_range (ConstantValue x) z) ->
      IsConstant y = true ->
      (forall v r, base_type t v r \/ base_type t' v r -> base_type x v r \/ base_type y v r) ->
      outcome 1 c (if negb (IsPreciseConstant x) then Some (c, x)
                   else FromCat1Const (ConstantValue x) false c)
        (fun _ m => plain m /\ forall v r, base_type t v r \/ base_type t' v r -> base_type m v r)).
  { intros x y Hx Hcx Hxy Hcy Hswap. destruct (IsPreciseConstant x) eqn:Ep; cbn [negb].
    - eapply outcome_weaken; [done| |apply FromCat1Const_outcome; [done..|apply s32_range]].
      cbn beta. intros c' m _ _ _ Hm. split; [by eapply const_kind_plain, Hm|].
      intros v r Hv. apply (imprecise_base m _ v r Hm). apply Hswap in Hv as [Hv|Hv]; [|apply Hxy]; by eapply base_constant.
    - apply outcome_same; [done..|]. split; [apply constant_plain; tauto|].
      intros v r [Hv|Hv]%Hswap; [done|].
      apply (imprecise_base x (ConstantValue x)); [|by apply Hxy, (base_constant y v r)].
      unfold ConstantValue, constant_, const_kind. kinds x. eauto. }
  assert (Hwide : forall k, is_s 32 k ->
      (forall z, is_s 32 z -> imprecise_range (ConstantValue t) z -> imprecise_range k z) ->
      (forall z, is_s 32 z -> imprecise_range (ConstantValue t') z -> imprecise_range k z) ->
      outcome 1 c (FromCat1Const k false c)
        (fun _ m => plain m /\ forall v r, base_type t v r \/ base_type t' v r -> base_type m v r)).
  { intros k Hk Hkt Hkt'. eapply outcome_weaken; [done| |by apply FromCat1Const_outcome].
    cbn beta. intros c' m _ _ _ Hm. split; [by eapply const_kind_plain, Hm|].
    intros v r [Hv|Hv]; apply (imprecise_base m _ v r Hm).
    - apply Hkt; [apply s32_range|]. by eapply base_constant.
    - apply Hkt'; [apply s32_range|]. by eapply base_constant. }
  assert (Hint : outcome 1 c (IntConstant c)
      (fun _ m => plain m /\ forall v r, base_type t v r \/ base_type t' v r -> base_type m v r)).
  { apply Hwide; [done| |]; intros; by left. }
  pose proof (s32_range (constant_ t)) as Hb. pose proof (s32_range (constant_ t')) as Hb'.
  unfold is_s in Hb, Hb'. cbn in Hb, Hb'. fold (ConstantValue t) in Hb. fold (ConstantValue t') in Hb'.
  unfold MergeConstants. cbv zeta. unfold imprecise_range, is_s in Hselect, Hwide. cbn in Hwide.
  destruct (Z.leb_spec 0 (ConstantValue t)), (Z.leb_spec 0 (ConstantValue t'));
    cbn [andb]; rewrite ?(proj2 (Z.ltb_lt _ _)), ?(proj2 (Z.ltb_ge _ _)) by done; cbn [andb].
  - destruct (Z.leb_spec (ConstantValue t') (ConstantValue t)).
    + apply (Hselect t t'); [done..| |done|done]. range.
    + apply (Hselect t' t); [done..| |done|tauto]. range.
  - destruct (constant_bounds t Hc) as (-> & ->), (constant_bounds t' Hc') as (-> & ->).
    repeat (case_Zcmp; cbn [andb]); try lia; (apply Hint || apply Hwide); try lia; range.
  - destruct (constant_bounds t Hc) as (-> & ->), (constant_bounds t' Hc') as (-> & ->).
    repeat (case_Zcmp; cbn [andb]); try lia; (apply Hint || apply Hwide); try lia; range.
  - destruct (Z.leb_spec (ConstantValue t) (ConstantValue t')).
    + apply (Hselect t t'); [done..| |done|done]. range.
    + apply (Hselect t' t); [done..| |done|tauto]. range.
Qed.

(** *** Primitive types *)

Lemma has_type_base c t v r : IsUnresolvedMergedReference t = false ->
  has_type c t v r = base_type t v r.
Proof. unfold has_type. by kinds t. Qed.

Lemma within_range lo hi t v r : 0 <= lo \/ - lo - 1 <= hi -> lo <= 0 <= hi -> hi < 2 ^ 31 - 1 ->
  constant_within lo hi t = true -> base_type t v r -> lo <= s32 v <= hi.
Proof.
  unfold constant_within. rewrite !andb_true_iff, !Z.leb_le. intros Hsym Hz Hhi ((Hc & Hlo) & Hk) Hv.
  apply base_constant in Hv; [|done]. unfold imprecise_range in Hv.
  destruct (Z.leb_spec 0 (ConstantValue t)); lia.
Qed.

Lemma boolean_range t v r : IsBooleanTypes t = true -> base_type t v r -> 0 <= s32 v <= 1.
Proof.
  unfold IsBooleanTypes. rewrite orb_true_iff. intros [H|H].
  - by kinds t.
  - by apply within_range; [left| |..].
Qed.

Lemma byte_range t v r : IsByteTypes t = true -> base_type t v r -> -128 <= s32 v <= 127.
Proof.
  unfold IsByteTypes. rewrite !orb_true_iff. intros [[H|H]|H].
  - by apply within_range; [right| |..].
  - by kinds t.
  - unfold base_type. kinds t. cbn. lia.
Qed.

Lemma short_range t v r : IsShortTypes t = true -> base_type t v r -> -32768 <= s32 v <= 32767.
Proof.
  unfold IsShortTypes. rewrite !orb_true_iff. intros [[[H|H]|H]|H].
  - by kinds t.
  - unfold base_type. kinds t. cbn. lia.
  - unfold base_type. kinds t. cbn. lia.
  - by apply within_range; [right| |..].
Qed.

Lemma char_range t v r : IsCharTypes t = true -> base_type t v r -> 0 <= s32 v <= 65535.
Proof.
  unfold IsCharTypes. rewrite !orb_true_iff. intros [[H|H]|H].
  - by kinds t.
  - intros Hv. pose proof (boolean_range t v r H Hv). lia.
  - by apply within_range; [left| |..].
Qed.

Lemma above_conflict c c' t t' : above c c' t t' Conflict.
Proof. intros v r _. done. Qed.

Lemma above_base c c' t t' m : plain t -> plain t' -> plain m ->
  (forall v r, base_type t v r \/ base_type t' v r -> base_type m v r) -> above c c' t t' m.
Proof. intros Ht Ht' Hm H v r. rewrite !has_type_base by done. apply H. Qed.

Definition float_or_wide (t t' : RegType) : bool :=
  (IsFloatTypes t && IsFloatTypes t') || (IsLongTypes t && IsLongTypes t')
  || (IsLongHighTypes t && IsLongHighTypes t') || (IsDoubleTypes t && IsDoubleTypes t')
  || (IsDoubleHighTypes t && IsDoubleHighTypes t').

Lemma select_wide t t' v r : float_or_wide t t' = true ->
  IsConstant t && IsConstant t' = false -> IsConstantLo t && IsConstantLo t' = false ->
  IsConstantHi t && IsConstantHi t' = false ->
  base_type (SelectNonConstant t t') v r /\ plain t /\ plain t' /\ plain (SelectNonConstant t t').
Proof. kinds t; intros H; kinds t'; done. Qed.

Lemma integral_plain t : IsIntegralTypes t = true -> plain t.
Proof. by kinds t. Qed.

Definition merge_integral_type (t t' : RegType) : RegType :=
  if IsBooleanTypes t && IsBooleanTypes t' then Boolean
  else if IsByteTypes t && IsByteTypes t' then Byte
  else if IsShortTypes t && IsShortTypes t' then Short
  else if IsCharTypes t && IsCharTypes t' then Char
  else Integer.

Lemma merge_integral_entry t t' : merge_integral_type t t' ∈ primitives.
Proof.
  unfold merge_integral_type, primitives. apply elem_of_app. left.
  repeat case_match; rewrite !elem_of_cons; tauto.
Qed.

Lemma merge_integral c c' t t' : IsIntegralTypes t = true -> IsIntegralTypes t' = true ->
  above c c' t t' (merge_integral_type t t').
Proof.
  intros Hi Hi'. apply above_base; [by apply integral_plain..| |].
  - unfold merge_integral_type. by repeat case_match.
  - intros v r Hv. unfold merge_integral_type.
    destruct (IsBooleanTypes t && IsBooleanTypes t') eqn:E1; [|
    destruct (IsByteTypes t && IsByteTypes t') eqn:E2; [|
    destruct (IsShortTypes t && IsShortTypes t') eqn:E3; [|
    destruct (IsCharTypes t && IsCharTypes t') eqn:E4; [|done]]]];
      [apply andb_true_iff in E1 as (? & ?)|apply andb_true_iff in E2 as (? & ?)
      |apply andb_true_iff in E3 as (? & ?)|apply andb_true_iff in E4 as (? & ?)];
      destruct Hv as [Hv|Hv]; unfold base_type; cbn [kind Boolean Byte Short Char CreatePrimitiveTypeInstance];
      by (eapply boolean_range; [|exact Hv]) || (eapply byte_range; [|exact Hv])
        || (eapply short_range; [|exact Hv]) || (eapply char_range; [|exact Hv]).
Qed.

Lemma lor_range x y : is_s 32 x -> is_s 32 y -> is_s 32 (Z.lor x y).
Proof.
  unfold is_s. intros Hx Hy.
  assert (H : forall z, - 2 ^ (32 - 1) <= z < 2 ^ (32 - 1) <-> Z.shiftr z 31 = 0 \/ Z.shiftr z 31 = -1).
  { intros z. rewrite Z.shiftr_div_pow2 by lia. change (2 ^ (32 - 1)) with (2 ^ 31).
    reduce_pow. div_lia. }
  rewrite H in *. rewrite Z.shiftr_lor.
  by destruct Hx as [-> | ->], Hy as [-> | ->]; [left|right..].
Qed.

Lemma merge_primitives um c t t' : cache_ok c -> room 1 c -> is_entry c t -> is_entry c t' ->
  IsReferenceTypes t && IsReferenceTypes t' = false ->
  outcome 1 c (MergeWith um t t' c) (fun c' => above c c' t t').
Proof.
  intros Hok Hroom Ht Ht' Href. unfold MergeWith.
  destruct (IsUndefined t) eqn:Eu; cbn [orb].
  { apply outcome_same; try done. intros v r _. unfold has_type. by kinds t. }
  destruct (IsUndefined t') eqn:Eu'.
  { apply outcome_same; try done. intros v r _. unfold has_type. by kinds t'. }
  destruct (IsConflict t) eqn:Ec.
  { apply outcome_same; try done. intros v r _. unfold has_type. by kinds t. }
  destruct (IsConflict t') eqn:Ec'.
  { apply outcome_same; try done. intros v r _. unfold has_type. by kinds t'. }
  destruct (IsConstant t && IsConstant t') eqn:E1.
  { apply andb_true_iff in E1 as (Hc & Hc').
    eapply outcome_weaken; [done| |by apply MergeConstants_outcome]. cbn beta.
    intros c' m _ _ _ (Hm & Hv). apply above_base; [apply constant_plain; tauto..|done|done]. }
  destruct (IsConstantLo t && IsConstantLo t') eqn:E2.
  { apply andb_true_iff in E2 as (Hc & Hc').
    eapply outcome_weaken; [done| |apply FromCat2ConstLo_outcome; try done].
    - cbn beta. intros c' m _ _ _ Hm. apply above_base; [apply constant_plain; tauto..| |].
      + by eapply const_kind_plain, Hm.
      + destruct Hm as (x & E & _). intros v r _. unfold base_type. by rewrite E.
    - apply lor_range; apply s32_range. }
  destruct (IsConstantHi t && IsConstantHi t') eqn:E3.
  { apply andb_true_iff in E3 as (Hc & Hc').
    eapply outcome_weaken; [done| |apply FromCat2ConstHi_outcome; try done].
    - cbn beta. intros c' m _ _ _ Hm. apply above_base; [apply constant_plain; tauto..| |].
      + by eapply const_kind_plain, Hm.
      + destruct Hm as (x & E & _). intros v r _. unfold base_type. by rewrite E.
    - apply lor_range; apply s32_range. }
  destruct (IsIntegralTypes t && IsIntegralTypes t') eqn:E4.
  { apply andb_true_iff in E4 as (Hi & Hi').
    by apply outcome_same; [|apply primitive_entry, merge_integral_entry|apply merge_integral]. }
  fold (float_or_wide t t'). destruct (float_or_wide t t') eqn:E5.
  { destruct (select_wide t t' 0 0 E5 E1 E2 E3) as (_ & Hp & Hp' & Hs). apply outcome_same; [done| |].
    - unfold SelectNonConstant. by destruct (IsConstantTypes t).
    - apply above_base; try done. intros v r _. by apply select_wide. }
  rewrite Href. apply outcome_same; [done|by apply conflict_entry|apply above_conflict].
Qed.

(** *** References *)

Definition is_reference (r : Z) (k : Z) : Prop :=
  refers (state_of r = Initialized /\ instance_of k (class_of r)) r.

Lemma instance_up k j o : is_class k -> is_class j -> proper_class o ->
  instance_of k o -> subtype info Object k j -> instance_of j o.
Proof.
  intros Hk Hj (Ho & Hop) Hi Hsub. pose proof linker_hierarchy as L.
  destruct Hi as [Hi|Hi]; [|right; by eapply (subtype_trans _ _ _ _ _ _ L o k j)].
  destruct (IsInterface info j) eqn:Ej; [by left|right].
  assert (Ea : IsArrayClass info j = false).
  { apply not_true_is_false. intros Ea.
    destruct (class_array _ _ _ _ _ _ L j Hj Ea) as (_ & Eji & _).
    destruct (subtype_array _ _ _ _ _ _ L k j Hk Hj Ea Hsub) as [->|(Eka & _)]; [congruence|].
    destruct (class_array _ _ _ _ _ _ L k Hk Eka) as (_ & Eki & _). congruence. }
  pose proof (subtype_plain _ _ _ _ _ _ L k j Hk Hj Ej Ea Hsub) as Hch.
  inversion Hch as [|? ? Hn Hch']; subst; [congruence|].
  rewrite (class_interface _ _ _ _ _ _ L k Hk Hi) in Hch'.
  apply (chain_subtype _ Object) in Hch'.
  apply (object_above _ _ _ _ _ _ L) in Hch' as ->. by apply sub_object.
Qed.

(** The entry for a class holds every initialized instance of it. *)
Lemma stands_for_base m k v r : proper_class k -> stands_for m k -> is_reference r k -> base_type m v r.
Proof.
  intros (Hk & Hp) (<- & Hkind) Hr. unfold base_type.
  destruct Hkind as [-> | (-> & Hc)]; [done|].
  destruct Hr as [->|(Ho & Hs & Hi)]; [by left|right]. split; [done|]. split; [done|].
  pose proof linker_hierarchy as L. destruct Ho as (Ho & Hop).
  destruct Hi as [Hi|Hi].
  - unfold CannotBeAssignedFromOtherTypes in Hc. destruct class_count; [done|].
    cbn [CannotBeAssignedLoop] in Hc.
    destruct (IsArrayClass info (klass_ m)) eqn:Ea; cbn in Hc.
    + destruct (class_array _ _ _ _ _ _ L _ Hk Ea) as (_ & E & _). congruence.
    + by rewrite (class_interface_final _ _ _ _ _ _ L _ Hk Hi) in Hc.
  - by apply (cannot_be_assigned_subtype _ _ _ _ _ _ L class_count).
Qed.

Lemma stands_for_resolved m k : stands_for m k -> resolved_part_ok m /\ plain m.
Proof. unfold stands_for. intros (_ & [E|(E & _)]); by kinds m. Qed.

(** A resolved reference type of initialized objects. *)
Lemma resolved_reference c t : cache_ok c -> is_entry c t ->
  IsNonZeroReferenceTypes t = true -> IsUnresolvedTypes t = false -> IsUninitializedTypes t = false ->
  proper_class (klass_ t) /\ (kind t = ReferenceType \/ kind t = PreciseReferenceType) /\
  forall v r, base_type t v r -> is_reference r (klass_ t).
Proof.
  intros Hok Ht Hn Hu Hi.
  destruct (entry_invariant c t Hok Ht) as [Hp|(i & _ & _ & He)].
  - repeat (apply elem_of_cons in Hp as [->|Hp]; [done|]). by apply elem_of_nil in Hp.
  - unfold base_type, is_reference, refers, instance_of. unfold entry_ok in He. kinds t; cbn in *.
    + auto.
    + split; [done|]. split; [auto|]. intros v r [->|(? & ? & <-)]; [by left|right].
      split; [done|]. split; [done|]. right. constructor.
Qed.

(** What a merge with [java.lang.Object] or an unresolved type relies on: no object under
    construction. *)
Definition initialized (c : RegTypeCache) (t : RegType) : Prop :=
  IsUninitializedTypes t = false /\
  match kind t with
  | UnresolvedMergedType res ids =>
      (forall e, GetFromId c res = Some e -> IsUninitializedTypes e = false) /\
      (forall id e, id ∈ ids -> GetFromId c id = Some e -> IsUninitializedTypes e = false)
  | _ => True
  end.

Lemma base_initialized t v r : IsReferenceTypes t = true -> plain t -> IsUninitializedTypes t = false ->
  base_type t v r -> refers (state_of r = Initialized) r.
Proof.
  unfold base_type, refers, IsReferenceTypes, IsZero. kinds t; cbn; intros; naive_solver.
Qed.

Lemma merged_parts c t res ids : cache_ok c -> is_entry c t -> kind t = UnresolvedMergedType res ids ->
  (exists e, GetFromId c res = Some e /\ is_entry c e /\ resolved_part_ok e) /\
  (forall id, id ∈ ids -> exists e, GetFromId c id = Some e /\ is_entry c e /\ unresolved_part_ok e).
Proof.
  intros Hok Ht Ek. destruct (entry_invariant c t Hok Ht) as [Hp|(i & _ & _ & He)].
  - repeat (apply elem_of_cons in Hp as [->|Hp]; [done|]). by apply elem_of_nil in Hp.
  - unfold entry_ok in He. rewrite Ek in He. destruct He as (_ & (e & _ & He & Hres) & Hids).
    split; [exists e; split; [done|]; split; [by eexists|done]|].
    intros id Hid. destruct (Hids id Hid) as (e' & _ & He' & Hun).
    exists e'. split; [done|]. split; [by eexists|done].
Qed.

Lemma resolved_plain e : resolved_part_ok e -> plain e.
Proof. unfold resolved_part_ok. kinds e; by intros (_ & ?). Qed.

Lemma has_type_initialized c t v r : cache_ok c -> is_entry c t -> IsReferenceTypes t = true ->
  initialized c t -> has_type c t v r -> refers (state_of r = Initialized) r.
Proof.
  intros Hok Ht Href (Hi & Hparts). unfold has_type.
  destruct (kind t) eqn:Ek;
    try (apply base_initialized; [done| |done]; unfold plain, IsUnresolvedMergedReference; by rewrite Ek).
  destruct (merged_parts c t _ _ Hok Ht Ek) as (_ & Hids).
  intros [(e & He & Hv)|(id & e & Hid & He & Hv)].
  - destruct (merged_parts c t _ _ Hok Ht Ek) as ((e' & He' & _ & Hres) & _).
    assert (e = e') as -> by congruence. apply (base_initialized e' v); try done.
    + apply Hres.
    + by apply resolved_plain.
    + by apply Hparts.
  - destruct (Hids id Hid) as (e' & He' & _ & Hun). assert (e = e') as -> by congruence.
    destruct Hun as (Hun & Hpl). apply (base_initialized e' v); try done.
    + unfold IsReferenceTypes. by kinds e'.
    + destruct Hparts as (_ & Hparts). by apply (Hparts id).
Qed.

Lemma null_has_type c t v : cache_ok c -> is_entry c t -> IsReferenceTypes t = true ->
  s32 v = 0 -> has_type c t v 0.
Proof.
  intros Hok Ht Href Hv.
  assert (Hbase : forall e, IsReferenceTypes e = true -> plain e -> base_type e v 0).
  { intros e. unfold base_type, refers, plain, IsReferenceTypes, IsZero, ConstantValue.
    kinds e; cbn; intros He Hpl; auto. apply Z.eqb_eq in He. by rewrite He. }
  unfold has_type. destruct (kind t) eqn:Ek;
    try (apply Hbase; [done|]; unfold plain, IsUnresolvedMergedReference; by rewrite Ek).
  destruct (merged_parts c t _ _ Hok Ht Ek) as ((e & He & _ & Hres) & _).
  left. exists e. split; [done|]. apply Hbase; [apply Hres|by apply resolved_plain].
Qed.

Definition keeps_initialization (c : RegTypeCache) (t t' : RegType) : Prop :=
  IsZero t = true \/ IsZero t' = true \/ (initialized c t /\ initialized c t') \/
  (IsJavaLangObject t = false /\ IsJavaLangObject t' = false /\
   IsUnresolvedTypes t = false /\ IsUnresolvedTypes t' = false).

(** What the merge of two resolved types is. *)
Definition resolved_result (t t' m : RegType) : Prop :=
  IsUnresolvedTypes t = false -> IsUnresolvedTypes t' = false -> m = Conflict \/ resolved_part_ok m.

Lemma MergeWith_reference um t t' c :
  IsReferenceTypes t = true -> IsReferenceTypes t' = true -> IsZero t && IsZero t' = false ->
  MergeWith um t t' c =
  if IsZero t || IsZero t' then Some (c, SelectNonConstant t t')
  else if IsJavaLangObject t || IsJavaLangObject t' then JavaLangObject false c
  else if IsUnresolvedTypes t || IsUnresolvedTypes t' then um t t' c
  else if IsUninitializedTypes t || IsUninitializedTypes t' then Some (c, Conflict)
  else MergeClasses t t' c.
Proof.
  intros Ht Ht' Hz. unfold MergeWith. rewrite Ht, Ht'. unfold IsReferenceTypes in *.
  destruct t as [[] ? ? ?]; cbn in Ht; try discriminate; cbn; try done;
    destruct t' as [[] ? ? ?]; cbn in Ht'; try discriminate; cbn; try done.
  unfold IsZero in *. cbn in *. by rewrite Ht, Ht' in Hz.
Qed.

Lemma reference_cases t : IsReferenceTypes t = true -> IsZero t = false -> IsNonZeroReferenceTypes t = true.
Proof. unfold IsReferenceTypes. intros H E. by rewrite E, orb_false_r in H. Qed.

Lemma zero_contents t c v r : IsZero t = true -> has_type c t v r -> s32 v = 0 /\ r = 0.
Proof.
  unfold IsZero, has_type, base_type, ConstantValue, constant_. kinds t; cbn.
  rewrite Z.eqb_eq. by intros ->.
Qed.

Lemma java_lang_object_class c t : cache_ok c -> is_entry c t -> IsJavaLangObject t = true ->
  klass_ t = Object.
Proof.
  intros Hok Ht H. unfold IsJavaLangObject in H. apply andb_true_iff in H as (Hr & Ho).
  destruct (resolved_reference c t Hok Ht) as ((Hk & _) & _ & _); try (by kinds t).
  rewrite (object_class _ _ _ _ _ _ linker_hierarchy) in Ho by done. by apply bool_decide_eq_true in Ho.
Qed.

Lemma object_instance r : refers (state_of r = Initialized) r -> is_reference r Object.
Proof.
  intros [->|(Ho & Hs)]; [by left|right]. split; [done|]. split; [done|]. right.
  apply sub_object. apply Ho.
Qed.

Lemma MergeClasses_outcome c t t' : cache_ok c -> room 1 c -> is_entry c t -> is_entry c t' ->
  IsNonZeroReferenceTypes t = true -> IsNonZeroReferenceTypes t' = true ->
  IsUnresolvedTypes t = false -> IsUnresolvedTypes t' = false ->
  IsUninitializedTypes t = false -> IsUninitializedTypes t' = false ->
  outcome 1 c (MergeClasses t t' c) (fun c' m => above c c' t t' m /\ resolved_part_ok m).
Proof.
  intros Hok Hroom Ht Ht' Hn Hn' Hu Hu' Hi Hi'.
  destruct (resolved_reference c t Hok Ht Hn Hu Hi) as (Hp & Hkind & Hbase).
  destruct (resolved_reference c t' Hok Ht' Hn' Hu' Hi') as (Hp' & Hkind' & Hbase').
  destruct (join_spec _ _ _ _ _ _ linker_hierarchy _ _ (proj1 Hp) (proj1 Hp') (proj2 Hp) (proj2 Hp'))
    as (j & Ej & Hj & Hpj & Hsub & Hsub' & _).
  assert (Hresult : forall c' m, stands_for m j -> above c c' t t' m /\ resolved_part_ok m).
  { intros c' m Hm. destruct (stands_for_resolved m j Hm) as (Hres & Hpl). split; [|done].
    apply above_base; [by (destruct Hkind; kinds t)|by (destruct Hkind'; kinds t')|done|].
    intros v r Hv. apply (stands_for_base m j); [done|done|].
    assert (exists k, is_class k /\ subtype info Object k j /\ is_reference r k) as (k & Hk & Hkj & Hr).
    { destruct Hv as [Hv|Hv]; [exists (klass_ t)|exists (klass_ t')]; split; try apply Hp; try apply Hp';
        (split; [done|]); eauto. }
    destruct Hr as [->|(Ho & Hs & Hik)]; [by left|right]. split; [done|]. split; [done|].
    by apply (instance_up k). }
  unfold MergeClasses, GetClass. rewrite Ej. cbn [mbind option_bind].
  destruct (_ && _) eqn:E1; [|destruct ((klass_ t' =? j) && _) eqn:E2].
  - apply andb_true_iff in E1 as (Ek%Z.eqb_eq & Epr%negb_true_iff). apply outcome_same; [done..|].
    apply Hresult. split; [done|left]. by destruct Hkind; [|unfold IsPreciseReference in Epr; kinds t].
  - apply andb_true_iff in E2 as (Ek%Z.eqb_eq & Epr%negb_true_iff). apply outcome_same; [done..|].
    apply Hresult. split; [done|left]. by destruct Hkind'; [|unfold IsPreciseReference in Epr; kinds t'].
  - eapply outcome_weaken; [done| |by apply (FromClass_outcome _ j false)]. cbn beta.
    intros c' m _ _ _ Hm. by apply Hresult.
Qed.

Lemma merge_references um n c t t' : cache_ok c -> room n c -> (1 <= n)%nat ->
  is_entry c t -> is_entry c t' -> IsReferenceTypes t = true -> IsReferenceTypes t' = true ->
  IsZero t && IsZero t' = false ->
  (IsUnresolvedTypes t || IsUnresolvedTypes t' = true ->
   outcome n c (um t t' c) (fun c' m => initialized c t -> initialized c t' -> above c c' t t' m)) ->
  outcome n c (MergeWith um t t' c) (fun c' m =>
    (keeps_initialization c t t' -> above c c' t t' m) /\ resolved_result t t' m).
Proof.
  intros Hok Hroom Hn Ht Ht' Hr Hr' Hz Hum. rewrite MergeWith_reference by done.
  destruct (IsZero t) eqn:Ez; [|destruct (IsZero t') eqn:Ez']; cbn [orb].
  - assert (Es : SelectNonConstant t t' = t') by (unfold SelectNonConstant; by kinds t). rewrite Es.
    apply outcome_same; [done..|]. split.
    + intros _ v r [Hv|Hv]; [|done]. destruct (zero_contents t c v r Ez Hv) as (? & ->).
      by apply null_has_type.
    + intros _ Hu'. by right.
  - assert (Es : SelectNonConstant t t' = t).
    { apply reference_cases in Hr; [|done]. unfold SelectNonConstant. by kinds t. }
    rewrite Es. apply outcome_same; [done..|]. split.
    + intros _ v r [Hv|Hv]; [done|]. destruct (zero_contents t' c v r Ez' Hv) as (? & ->).
      by apply null_has_type.
    + intros Hu _. by right.
  - assert (Hkeep : keeps_initialization c t t' -> (initialized c t /\ initialized c t') \/
      (IsJavaLangObject t = false /\ IsJavaLangObject t' = false /\
       IsUnresolvedTypes t = false /\ IsUnresolvedTypes t' = false)).
    { intros [?|[?|?]]; [congruence..|done]. }
    destruct (IsJavaLangObject t || IsJavaLangObject t') eqn:Ej.
    { eapply outcome_weaken; [exact Hn| |apply (JavaLangObject_outcome false); [done|by eapply room_weaken]].
      cbn beta. intros c' m _ _ _ Hm. destruct (stands_for_resolved m Object Hm) as (Hres & Hpl).
      split; [|by intros _ _; right].
      intros [(Hi & Hi')|(Ej1 & Ej2 & _)]%Hkeep; [|by rewrite Ej1, Ej2 in Ej].
      intros v r Hv. rewrite has_type_base by done. apply (stands_for_base m Object); [apply object_proper|done|].
      apply object_instance. destruct Hv as [Hv|Hv].
      - by apply (has_type_initialized c t v).
      - by apply (has_type_initialized c t' v). }
    destruct (IsUnresolvedTypes t || IsUnresolvedTypes t') eqn:Eu.
    { eapply outcome_weaken; [apply Nat.le_refl| |by apply Hum]. cbn beta. intros c' m _ _ _ Hm. split.
      - intros [(Hi & Hi')|(_ & _ & E1 & E2)]%Hkeep; [by apply Hm|by rewrite E1, E2 in Eu].
      - intros E1 E2. by rewrite E1, E2 in Eu. }
    apply orb_false_iff in Eu as (Eu & Eu').
    destruct (IsUninitializedTypes t || IsUninitializedTypes t') eqn:Ei.
    { apply outcome_same; [done|by apply conflict_entry|]. split; [intros _; apply above_conflict|by left]. }
    apply orb_false_iff in Ei as (Ei & Ei').
    eapply outcome_weaken; [exact Hn| |apply MergeClasses_outcome; try done].
    + cbn beta. intros c' m _ _ _ (Hm & Hres). split; [done|by right].
    + by eapply room_weaken.
    + by apply reference_cases.
    + by apply reference_cases.
Qed.

(** *** Unresolved types *)

Definition parts_ok (c : RegTypeCache) (t : RegType) (res : RegType) (ids : gset Z) : Prop :=
  is_entry c res /\ resolved_part_ok res /\
  (initialized c t -> IsUninitializedTypes res = false) /\
  (forall id, id ∈ ids -> exists e, GetFromId c id = Some e /\ is_entry c e /\ unresolved_part_ok e) /\
  (forall v r, has_type c t v r -> base_type res v r \/
    exists id e, id ∈ ids /\ GetFromId c id = Some e /\ base_type e v r).

Lemma split_unresolved c t : cache_ok c -> is_entry c t -> IsReferenceTypes t = true ->
  exists res ids, SplitUnresolved t c = Some (res, ids) /\ parts_ok c t res ids.
Proof.
  intros Hok Ht Hr. unfold SplitUnresolved.
  destruct (IsUnresolvedMergedReference t) eqn:Em.
  - destruct (kind t) as [| | | | | | | | | | | |?|?|?|?|?|?|?|?| | | | | |?|res ids] eqn:Ek;
      try (unfold IsUnresolvedMergedReference in Em; by rewrite Ek in Em).
    destruct (merged_parts c t _ _ Hok Ht Ek) as ((e & He & Hent & Hres) & Hids).
    rewrite He. cbn [mbind option_bind]. exists e, ids. split; [done|].
    split; [done|]. split; [done|].
    split; [intros (_ & Hparts); rewrite Ek in Hparts; by apply Hparts|]. split; [done|].
    intros v r. unfold has_type. rewrite Ek. intros [(e' & He' & Hv)|?]; [left|by right].
    by assert (e = e') as -> by congruence.
  - set (x := if IsUnresolvedTypes t then (Zero, {[GetId t]}) else (t, ∅)).
    exists (fst x), (snd x). split.
    { unfold IsUnresolvedMergedReference in Em. subst x. destruct (kind t); by destruct (IsUnresolvedTypes t). }
    subst x. destruct (IsUnresolvedTypes t) eqn:Eu; cbn [fst snd].
    + split; [by apply zero_entry|]. split; [done|]. split; [done|]. split.
      * intros id ->%elem_of_singleton. exists t. split; [by apply entry_from_id|done].
      * intros v r Hv. right. exists (GetId t), t. split; [by apply elem_of_singleton|].
        split; [by apply entry_from_id|]. by rewrite has_type_base in Hv.
    + split; [done|]. split; [done|]. split; [by intros (? & _)|]. split.
      * intros id Hid. by apply elem_of_empty in Hid.
      * intros v r Hv. left. by rewrite has_type_base in Hv.
Qed.

Lemma resolved_initialized c e : resolved_part_ok e -> IsUninitializedTypes e = false -> initialized c e.
Proof. intros He Hi. split; [done|]. apply resolved_plain in He. by kinds e. Qed.

Lemma safe_merge_resolved f c t t' : cache_ok c -> room 1 c -> is_entry c t -> is_entry c t' ->
  resolved_part_ok t -> resolved_part_ok t' ->
  outcome 1 c (SafeMergeWith (MergeLoop (S f)) t t' c) (fun c' m =>
    (IsUninitializedTypes t = false -> IsUninitializedTypes t' = false -> above c c' t t' m) /\ (m = Conflict \/ resolved_part_ok m)).
Proof.
  intros Hok Hroom Ht Ht' Hres Hres'. unfold SafeMergeWith. rewrite (equals_eq c) by done.
  case_bool_decide as E.
  { subst. apply outcome_same; [done..|]. split; [by intros _ _ v r [|]|by right]. }
  pose proof (resolved_initialized c t Hres) as Hinit. pose proof (resolved_initialized c t' Hres') as Hinit'.
  destruct Hres as (Hr & Hu), Hres' as (Hr' & Hu').
  eapply outcome_weaken; [apply Nat.le_refl| |apply merge_references; try done].
  - cbn beta. intros c' m _ _ _ (Hm & Hresult). split; [|by apply Hresult].
    intros Hi Hi'. apply Hm. right. right. left. auto.
  - apply not_true_is_false. intros (Ez & Ez')%andb_true_iff. apply E.
    by rewrite (is_zero_unique c t), (is_zero_unique c t').
  - by rewrite Hu, Hu'.
Qed.

Lemma unresolved_merge_outcome f c t t' : cache_ok c -> room 2 c -> is_entry c t -> is_entry c t' ->
  IsReferenceTypes t = true -> IsReferenceTypes t' = true ->
  outcome 2 c (FromUnresolvedMergeWith (SafeMergeWith (MergeLoop (S f))) t t' c)
    (fun c' m => initialized c t -> initialized c t' -> above c c' t t' m).
Proof.
  intros Hok Hroom Ht Ht' Hr Hr'. unfold FromUnresolvedMergeWith.
  destruct (split_unresolved c t Hok Ht Hr) as (res & ids & -> & Hent & Hres & Hri & Hids & Hcov).
  destruct (split_unresolved c t' Hok Ht' Hr') as (res' & ids' & -> & Hent' & Hres' & Hri' & Hids' & Hcov').
  cbn [mbind option_bind].
  apply (outcome_bind 1 1 c _ _ (fun c1 m =>
    (IsUninitializedTypes res = false -> IsUninitializedTypes res' = false -> above c c1 res res' m) /\
    (m = Conflict \/ resolved_part_ok m))).
  { apply safe_merge_resolved; try done. by eapply (room_weaken 2 1); [lia|]. }
  intros c1 m Hg Hok1 Hm (Habove & Hresult). destruct (IsConflict m) eqn:Ec.
  { apply outcome_same; [done|by apply conflict_entry|intros _ _; apply above_conflict]. }
  assert (Hmres : resolved_part_ok m) by (destruct Hresult as [->|?]; done). clear Hresult.
  assert (Hsound : forall c2 e, grows 1 c1 c2 -> is_entry c2 e ->
    kind e = UnresolvedMergedType (GetId m) (ids ∪ ids') ->
    initialized c t -> initialized c t' -> above c c2 t t' e).
  { intros c2 e Hg2 He Ek Hi Hi' v r Hv. specialize (Habove (Hri Hi) (Hri' Hi')). unfold has_type. rewrite Ek.
    assert (Hmid : GetFromId c2 (GetId m) = Some m).
    { eapply from_id; [done|]. by apply entry_from_id. }
    assert (Hpl : plain res /\ plain res' /\ plain m) by (split_and!; by apply resolved_plain).
    assert (Hup : forall id e', GetFromId c id = Some e' -> GetFromId c2 id = Some e').
    { intros id e' H. eapply from_id; [done|]. by eapply from_id. }
    destruct Hv as [Hv|Hv]; [apply Hcov in Hv|apply Hcov' in Hv];
      destruct Hv as [Hv|(id & e' & Hid & He' & Hv)].
    - left. exists m. split; [done|]. rewrite <- (has_type_base c1) by apply Hpl. apply Habove. left.
      by rewrite has_type_base by apply Hpl.
    - right. exists id, e'. split; [set_solver|auto].
    - left. exists m. split; [done|]. rewrite <- (has_type_base c1) by apply Hpl. apply Habove. right.
      by rewrite has_type_base by apply Hpl.
    - right. exists id, e'. split; [set_solver|auto]. }
  apply FindOrAdd_outcome; [done|by eapply (grows_room 1 1)|eauto| |].
  - intros i e _ Hi1 [= Hp] _. apply Hsound; [apply grows_refl|by exists i|].
    destruct (kind e); try done. apply andb_true_iff in Hp as (->%Z.eqb_eq & Hb).
    by apply bool_decide_eq_true in Hb as ->.
  - cbv zeta. split.
    + split; [done|]. assert (Hlt : forall id e, GetFromId c1 id = Some e ->
        (Z.to_nat id < length (entries_ c1))%nat) by (intros id e H; by eapply lookup_lt_Some).
      split.
      * exists m. pose proof (entry_from_id c1 m Hok1 Hm) as H. split; [by eapply Hlt|done].
      * intros id [Hid|Hid]%elem_of_union;
          [destruct (Hids id Hid) as (e & He & _ & Hun)|destruct (Hids' id Hid) as (e & He & _ & Hun)];
          pose proof (from_id _ _ _ _ _ Hg He) as H; exists e; split; [by eapply Hlt|done|by eapply Hlt|done].
    + apply Hsound; [|eexists; by apply list_lookup_middle|done].
      eexists. split; [done|]. done.
Qed.

(** [Merge] terminates within its fuel and is sound. *)
Lemma merge_outcome c t t' : cache_ok c -> room 2 c -> is_entry c t -> is_entry c t' -> t <> t' ->
  outcome 2 c (Merge t t' c) (fun c' m => keeps_initialization c t t' -> above c c' t t' m).
Proof.
  intros Hok Hroom Ht Ht' Hne. unfold Merge. cbn [MergeLoop].
  destruct (IsReferenceTypes t && IsReferenceTypes t') eqn:Er.
  - apply andb_true_iff in Er as (Er & Er').
    eapply outcome_weaken; [apply Nat.le_refl| |apply merge_references; try done; [lia|..]].
    + cbn beta. by intros c' m _ _ _ (Hm & _).
    + apply not_true_is_false. intros (Ez & Ez')%andb_true_iff. apply Hne.
      by rewrite (is_zero_unique c t), (is_zero_unique c t').
    + intros _. by apply (unresolved_merge_outcome 0).
  - eapply outcome_weaken; [| |apply merge_primitives; try done]; [lia|done|].
    by eapply (room_weaken 2 1); [lia|].
Qed.
End Meaning.
