(* ===== verification/CacheInvariant.v ===== *)
(** * The invariant of the register type cache

    Requests to a [RegTypeCache] as the method verifier makes them; every cache that requests can
    reach keeps the invariant of [RegTypeFacts].  What happens at the 65536th entry. *)
From stdpp Require Import list gmap.
From S2P Require Import Prelude.
From S2P Require Import Runtime.
From S2P Require Import Utf.
From S2P Require Import Descriptors.
From S2P Require Import MirrorClass.
From S2P Require Import RegType.
From S2P Require Import RegTypeFacts.
Local Open Scope Z_scope.

Section Requests.
Context {CL : ClassLinker} {Laws : ClassLinkerLaws CL}.

Inductive Request :=
  | RCat1Const (value : Z) (precise : bool)
  | RCat2ConstLo (value : Z) (precise : bool)
  | RCat2ConstHi (value : Z) (precise : bool)
  | RFromClass (descriptor : list Z) (klass : Z) (precise : bool)
  | RFromDescriptor (loader : Z) (descriptor : list Z) (precise : bool)
  | RUninitialized (type : RegType) (allocation_pc : Z)
  | RUninitializedThisArgument (type : RegType)
  | RFromUninitialized (type : RegType)
  | RGetSuperClass (type : RegType)
  | RGetComponentType (array : RegType) (loader : Z)
  | RHighHalf (type : RegType)
  | RMerge (type incoming_type : RegType).

Definition perform (request : Request) (c : RegTypeCache) : option (RegTypeCache * RegType) :=
  match request with
  | RCat1Const value precise => FromCat1Const value precise c
  | RCat2ConstLo value precise => FromCat2ConstLo value precise c
  | RCat2ConstHi value precise => FromCat2ConstHi value precise c
  | RFromClass descriptor klass precise => FromClass descriptor klass precise c
  | RFromDescriptor loader descriptor precise => FromDescriptor loader descriptor precise c
  | RUninitialized type allocation_pc => Uninitialized type allocation_pc c
  | RUninitializedThisArgument type => UninitializedThisArgument type c
  | RFromUninitialized type => FromUninitialized type c
  | RGetSuperClass type => GetSuperClass type c
  | RGetComponentType array loader => GetComponentType array loader c
  | RHighHalf type => HighHalf type c
  | RMerge type incoming_type => SafeMerge type incoming_type c
  end.

(** A descriptor that [IsValidDescriptor] can read to its end. *)
Definition readable (descriptor : list Z) : Prop :=
  descriptor <> [] /\ exists b, IsValidDescriptor (descriptor ++ [0]) = Some b.

(** A type that a [new-instance] or a constructor's [this] may have. *)
Definition declared (type : RegType) : Prop :=
  IsUnresolvedTypes type = true \/ stands_for type (klass_ type).

Definition valid_request (c : RegTypeCache) (request : Request) : Prop :=
  match request with
  | RCat1Const value _ | RCat2ConstLo value _ | RCat2ConstHi value _ => is_s 32 value
  | RFromClass _ klass _ => is_class klass
  | RFromDescriptor _ descriptor _ => readable descriptor
  | RUninitialized type _ | RUninitializedThisArgument type => is_entry c type /\ declared type
  | RFromUninitialized type => is_entry c type /\ IsUninitializedTypes type = true
  | RGetSuperClass type => is_entry c type /\ IsNonZeroReferenceTypes type = true
  | RGetComponentType array _ =>
      is_entry c array /\ IsNonZeroReferenceTypes array = true /\
      (IsUnresolvedTypes array = true -> readable (tail (descriptor_ array))) /\
      readable (descriptor_of (info (MirrorClass.GetComponentType info (klass_ array))))
  | RHighHalf type => is_entry c type
  | RMerge type incoming_type => is_entry c type /\ is_entry c incoming_type
  end.

Lemma any_outcome n m c r Q : (n <= m)%nat -> outcome n c r Q -> outcome m c r (fun _ _ => True).
Proof. intros Hn. by apply outcome_weaken. Qed.

Lemma FindOrAdd_any p k d kl c : cache_ok c -> room 1 c -> (forall e, exists b, p e = Some b) ->
  entry_ok (entries_ c) (length (entries_ c)) (mkRegType k d kl (Z.of_nat (length (entries_ c)))) ->
  outcome 1 c (FindOrAdd p k d kl c) (fun _ _ => True).
Proof. intros. by apply FindOrAdd_outcome. Qed.

Lemma From_outcome loader x d precise c : cache_ok c -> room 1 c -> x = 0x4c \/ x = 0x5b ->
  readable (x :: d) -> outcome 1 c (From loader (x :: d) precise c) (fun _ _ => True).
Proof.
  intros Hok Hroom Hx (_ & b & Hb). unfold From.
  assert (Hmatch : forall e, e ∈ drop primitive_count_ (entries_ c) ->
      exists b, MatchDescriptor (x :: d) precise e = Some b).
  { intros e He. apply list_elem_of_lookup in He as (i & Hi). rewrite lookup_drop in Hi.
    pose proof (ok_entries c Hok (primitive_count_ + i)%nat e ltac:(lia) Hi) as Hent.
    unfold MatchDescriptor, HasClass. case_bool_decide; cbn [negb]; [|eauto].
    destruct (Z.eqb_spec (klass_ e) 0) as [|Hn]; cbn [negb]; [eauto|].
    apply (matching_precision e (klass_ e)); [|done]. unfold entry_ok in Hent.
    destruct (kind e); try done; try (by destruct Hent).
    - by destruct Hent as ((? & _) & _).
    - by destruct Hent as ((? & _) & _). }
  destruct (find_entry_spec _ _ Hmatch) as [(-> & _)|(i & e & -> & Hi & _)]; cbn [mbind option_bind].
  - destruct (Z.eqb_spec (ResolveClass c (x :: d) loader) 0) as [Ek|Hn]; cbn [negb].
    + rewrite Hb. cbn [mbind option_bind]. destruct b.
      * by apply AddEntry_outcome.
      * by apply outcome_same; [|apply conflict_entry|].
    + assert (Hp : proper_class (ResolveClass c (x :: d) loader)).
      { revert Hn. unfold ResolveClass, proper_class. destruct (can_load_classes_ c).
        - intros Hn. by destruct (linker_find loader x d _ Hx (or_introl eq_refl)).
        - destruct (_ && _); intros Hn; [done|].
          by destruct (linker_find loader x d _ Hx (or_intror eq_refl)). }
      destruct (cannot_be_assigned_total _ (proj1 Hp)) as (b' & ->). cbn [mbind option_bind].
      destruct (b' || precise); by apply AddEntry_outcome.
  - rewrite lookup_drop in Hi. apply outcome_same; [done|by eexists|done].
Qed.

Lemma primitive_descriptor_entry x :
  (if x =? 0x5a then Boolean else if x =? 0x42 then Byte else if x =? 0x53 then Short
   else if x =? 0x43 then Char else if x =? 0x49 then Integer
   else if x =? 0x4a then LongLo else if x =? 0x46 then Float
   else if x =? 0x44 then DoubleLo else Conflict) ∈ primitives.
Proof. unfold primitives. apply elem_of_app. left. repeat case_match; rewrite !elem_of_cons; tauto. Qed.

Lemma FromDescriptor_outcome loader d precise c : cache_ok c -> room 1 c -> readable d ->
  outcome 1 c (FromDescriptor loader d precise c) (fun _ _ => True).
Proof.
  intros Hok Hroom Hd. unfold FromDescriptor. destruct d as [|x [|y d]]; [by destruct Hd| |].
  - apply outcome_same; [done| |done]. apply primitive_entry, primitive_descriptor_entry; done.
  - destruct (_ || _) eqn:E.
    + apply From_outcome; try done. by apply orb_true_iff in E as [->%Z.eqb_eq | ->%Z.eqb_eq]; auto.
    + by apply outcome_same; [|apply conflict_entry|].
Qed.

Lemma primitive_type_entry t : RegTypeFromPrimitiveType t ∈ primitives.
Proof. unfold primitives. apply elem_of_app. left. destruct t; rewrite !elem_of_cons; tauto. Qed.

Lemma FromClass_any d k precise c : cache_ok c -> room 1 c -> is_class k ->
  outcome 1 c (FromClass d k precise c) (fun _ _ => True).
Proof.
  intros Hok Hroom Hk. destruct (IsPrimitive info k) eqn:Ep.
  - unfold FromClass. rewrite Ep. apply outcome_same; [done| |done].
    by apply primitive_entry, primitive_type_entry.
  - eapply any_outcome; [done|]. by apply FromClass_outcome.
Qed.

Lemma entry_class c t : cache_ok c -> is_entry c t -> IsNonZeroReferenceTypes t = true ->
  IsUnresolvedTypes t = false -> proper_class (klass_ t).
Proof.
  intros Hok Ht Hn Hu. destruct (entry_invariant c t Hok Ht) as [Hp|(i & _ & _ & He)].
  - repeat (apply elem_of_cons in Hp as [->|Hp]; [done|]). by apply elem_of_nil in Hp.
  - unfold entry_ok in He. kinds t; by destruct He.
Qed.

(** A declared class has an earlier entry. *)
Lemma declared_covered c t : cache_ok c -> is_entry c t -> stands_for t (klass_ t) ->
  proper_class (klass_ t) /\ covered (entries_ c) (length (entries_ c)) (klass_ t).
Proof.
  intros Hok Ht Hs. assert (Hr : IsNonZeroReferenceTypes t = true /\ IsUnresolvedTypes t = false).
  { destruct Hs as (_ & [E|(E & _)]); by kinds t. }
  destruct Hr as (Hr & Hu). split; [by apply (entry_class c)|]. destruct (entry_invariant c t Hok Ht) as [Hp|(i & Hi & Hl & _)].
  - repeat (apply elem_of_cons in Hp as [->|Hp]; [done|]). by apply elem_of_nil in Hp.
  - exists i, t. split; [|done]. apply lookup_lt_Some in Hl. lia.
Qed.

Lemma declared_resolved t : IsUnresolvedTypes t = false -> declared t -> stands_for t (klass_ t).
Proof. intros E [?|?]; [congruence|done]. Qed.

Lemma perform_outcome c request : cache_ok c -> room 2 c -> valid_request c request ->
  outcome 2 c (perform request c) (fun _ _ => True).
Proof.
  intros Hok Hroom Hv. assert (Hroom1 : room 1 c) by (eapply room_weaken; [|done]; lia).
  destruct request as [v p|v p|v p|d k p|loader d p|t pc|t|t|t|t loader|t|t t']; cbn [perform valid_request] in *.
  - eapply any_outcome; [|by apply FromCat1Const_outcome]. lia.
  - eapply any_outcome; [|by apply FromCat2ConstLo_outcome]. lia.
  - eapply any_outcome; [|by apply FromCat2ConstHi_outcome]. lia.
  - eapply any_outcome; [|by apply FromClass_any]. lia.
  - eapply any_outcome; [|by apply FromDescriptor_outcome]. lia.
  - destruct Hv as (Ht & Hd). unfold Uninitialized. destruct (IsUnresolvedTypes t) eqn:Eu;
      (eapply any_outcome; [|apply FindOrAdd_any; eauto]; [lia|]); [done|].
    apply (declared_covered c t); [done..|]. by apply declared_resolved.
  - destruct Hv as (Ht & Hd). unfold UninitializedThisArgument. destruct (IsUnresolvedTypes t) eqn:Eu;
      (eapply any_outcome; [|apply FindOrAdd_any; eauto]; [lia|]); [done|].
    apply (declared_covered c t); [done..|]. by apply declared_resolved.
  - destruct Hv as (Ht & Hd). unfold FromUninitialized. destruct (IsUnresolvedTypes t) eqn:Eu.
    { (eapply any_outcome; [|apply FindOrAdd_any; eauto]); [lia|done..]. }
    assert (Hp : proper_class (klass_ t)) by (apply (entry_class c); [done..|by kinds t|done]).
    destruct (_ && _); [|destruct (IsInstantiable _ _)].
    + (eapply any_outcome; [|apply FindOrAdd_any; eauto]); [lia|done..].
    + (eapply any_outcome; [|apply FindOrAdd_any; eauto]); [lia|done..].
    + by apply outcome_same; [|apply conflict_entry|].
  - destruct Hv as (Ht & Hn). unfold GetSuperClass. destruct (IsUnresolvedTypes t) eqn:Eu; cbn [negb].
    + destruct (_ && _ && _).
      * eapply any_outcome; [|by apply JavaLangObject_outcome]. lia.
      * (eapply any_outcome; [|apply FindOrAdd_any; eauto]); [lia|done..].
    + destruct (Z.eqb_spec (MirrorClass.GetSuperClass info (GetClass t)) 0) as [E|E]; cbn [negb].
      * by apply outcome_same; [|apply zero_entry|].
      * eapply any_outcome; [|apply FromClass_any]; [lia|done|done|].
        destruct (entry_class c t Hok Ht Hn Eu) as (Hk & _).
        by apply (class_super _ _ _ _ _ _ linker_hierarchy).
  - destruct Hv as (Ht & Hn & Hread & Hread'). unfold GetComponentType.
    destruct (IsArrayTypes t) eqn:Ea; cbn [negb]; [|by apply outcome_same; [|apply conflict_entry|]].
    destruct (IsUnresolvedTypes t) eqn:Eu.
    { eapply any_outcome; [|apply FromDescriptor_outcome; auto]. lia. }
    unfold GetClass in *. destruct (IsErroneous _ _).
    { eapply any_outcome; [|apply FromDescriptor_outcome; auto]. lia. }
    assert (Hk : is_class (MirrorClass.GetComponentType info (klass_ t))).
    { destruct (entry_class c t Hok Ht Hn Eu) as (Hk & _).
      apply (class_component _ _ _ _ _ _ linker_hierarchy); [done|].
      unfold IsArrayTypes, named_unresolved in Ea. rewrite Eu in Ea. cbn [andb] in Ea.
      destruct (HasClass t); [|done]. by apply array_component in Ea. }
    destruct (cannot_be_assigned_total _ Hk) as (b & ->). cbn [mbind option_bind].
    eapply any_outcome; [|by apply FromClass_any]. lia.
  - unfold HighHalf. destruct (IsLongLo t); [|destruct (IsDoubleLo t)].
    + apply outcome_same; [done| |done]. apply primitive_entry; [done|].
      unfold primitives. apply elem_of_app. left. rewrite !elem_of_cons. tauto.
    + apply outcome_same; [done| |done]. apply primitive_entry; [done|].
      unfold primitives. apply elem_of_app. left. rewrite !elem_of_cons. tauto.
    + eapply any_outcome; [|apply FromCat2ConstHi_outcome; [done..|]]; [lia|apply s32_range].
  - destruct Hv as (Ht & Ht'). unfold SafeMerge, SafeMergeWith. rewrite (equals_eq c) by done.
    case_bool_decide; [by apply outcome_same|]. eapply any_outcome; [done|].
    by apply (merge_outcome (Obj := {| class_of _ := 0; state_of _ := Initialized; named _ _ := True |})).
Qed.

(** The caches that valid requests build. *)
Inductive reachable (b : bool) : RegTypeCache -> Prop :=
  | reachable_new : reachable b (new_cache b)
  | reachable_request c request c' t : reachable b c -> room 2 c -> valid_request c request ->
      perform request c = Some (c', t) -> reachable b c'.

Lemma reachable_ok b c : reachable b c -> cache_ok c.
Proof.
  induction 1 as [|c request c' t _ IH Hroom Hv E]; [apply new_cache_ok|].
  destruct (perform_outcome c request IH Hroom Hv) as (c1 & t1 & E1 & _ & Hok & _). congruence.
Qed.


(** ** The 65536th entry *)

(** The types of a run of [const] instructions. *)
Fixpoint load_constants (values : list Z) (c : RegTypeCache) : option (RegTypeCache * list RegType) :=
  match values with
  | [] => Some (c, [])
  | v :: values =>
      '(c, t) ← FromCat1Const v true c;
      '(c, ts) ← load_constants values c;
      Some (c, t :: ts)
  end.

Definition nth_constant (i : nat) : RegType :=
  mkRegType (PreciseConstType (u32 (100 + Z.of_nat i))) [] 0
    (u16 (Z.of_nat (primitive_count_ + i))).

Definition filled (b : bool) (n : nat) : RegTypeCache :=
  mkCache (primitives ++ (nth_constant <$> seq 0 n)) b.

Lemma filled_step b n : Z.of_nat n < 2 ^ 30 ->
  FromCat1Const (100 + Z.of_nat n) true (filled b n) = Some (filled b (S n), nth_constant n).
Proof.
  intros Hn. unfold FromCat1Const, kMaxSmallConstant.
  rewrite (proj2 (Z.leb_gt (100 + Z.of_nat n) 4)) by lia. rewrite andb_false_r.
  unfold FromCat1NonSmallConstant, FindOrAdd, filled. cbn [entries_].
  rewrite drop_app_length'; [|done].
  match goal with |- context [find_entry ?p ?l] => destruct (find_entry_spec p l) as [(-> & _)|(i & e & -> & Hi & He & _)] end.
  - eauto.
  - cbn [mbind option_bind]. unfold AddEntry. cbn [entries_ can_load_classes_].
    rewrite length_app, length_fmap, length_seq, primitives_length.
    rewrite seq_S, fmap_app, app_assoc. done.
  - exfalso. apply list_lookup_fmap_Some_1 in Hi as (j & -> & Hj). apply lookup_seq in Hj as (-> & Hlt).
    injection He as He. apply Z.eqb_eq in He.
    unfold nth_constant, ConstantValue in He. cbn in He. revert He. change (2 ^ 30) with 1073741824 in Hn.
    rewrite s32_u32; [lia|]. split; lia.
Qed.

Lemma filled_run b k n : Z.of_nat (n + k) < 2 ^ 30 ->
  load_constants (seqZ (100 + Z.of_nat n) (Z.of_nat k)) (filled b n) =
  Some (filled b (n + k), nth_constant <$> seq n k).
Proof.
  revert n. induction k as [|k IH]; intros n Hn; [by rewrite Nat.add_0_r|].
  rewrite seqZ_cons by lia. cbn [load_constants]. rewrite filled_step by lia. cbn [mbind option_bind].
  replace (Z.succ (100 + Z.of_nat n)) with (100 + Z.of_nat (S n)) by lia.
  replace (Z.pred (Z.of_nat (S k))) with (Z.of_nat k) by lia.
  rewrite IH by lia. cbn [mbind option_bind].
  by replace (n + S k)%nat with (S n + k)%nat by lia.
Qed.

(** C40: A cache id is a [uint16_t] that nothing checks: after 65519 [const] instructions with
    different values the verifier takes the type of the last constant for [Undefined].  The two
    types are [Equals], and the id of the one leads to the other. *)
Theorem cache_ids_wrap b :
  exists c ts t, load_constants (seqZ 100 65519) (new_cache b) = Some (c, ts) /\
    last ts = Some t /\ ConstantValue t = 65618 /\
    Equals t Undefined = true /\ GetFromId c (GetId t) = Some Undefined /\
    t ∈ entries_ c /\ IsUndefined t = false.
Proof.
  set (k := Z.to_nat 65518).
  exists (filled b (0 + S k)), (nth_constant <$> seq 0 (S k)), (nth_constant k).
  assert (Ek : Z.of_nat k = 65518) by (subst k; lia).
  split.
  { change (new_cache b) with (filled b 0). rewrite <- filled_run by lia. do 2 f_equal; lia. }
  assert (Eid : GetId (nth_constant k) = 0).
  { unfold nth_constant, GetId. cbn [cache_id_]. rewrite Nat2Z.inj_add, Ek. done. }
  rewrite seq_S, fmap_app. change (nth_constant <$> [(0 + k)%nat]) with [nth_constant k].
  split; [by rewrite last_snoc|]. split.
  { unfold ConstantValue, nth_constant. cbn [constant_ kind]. rewrite Ek. done. }
  split; [unfold Equals; by rewrite Eid|]. split; [by rewrite Eid|]. split; [|done].
  unfold filled. cbn [entries_]. rewrite Nat.add_0_l, seq_S, fmap_app. apply elem_of_app. right.
  apply elem_of_app. right. by apply list_elem_of_singleton.
Qed.
End Requests.
