(* ===== verification/RegTypeSafety.v ===== *)
(** * Register types: soundness of [Merge] and [AssignableFrom]

    Properties of the types of [RegTypeFacts], the places where they forget that an object has
    not been constructed, and a small class linker on which the definitions run. *)
From stdpp Require Import list gmap.
From S2P Require Import Prelude.
From S2P Require Import Runtime.
From S2P Require Import Utf.
From S2P Require Import Descriptors.
From S2P Require Import MirrorClass.
From S2P Require Import RegType.
From S2P Require Import RegTypeFacts.
From S2P Require Import CacheInvariant.
Local Open Scope Z_scope.

(** The names of reference arrays name reference arrays. *)
Class ObjectsLaws {CL : ClassLinker} {Laws : ClassLinkerLaws CL} (Obj : Objects) : Prop :=
  named_array x d k : x = 0x4c \/ x = 0x5b -> named (0x5b :: x :: d) k ->
    IsArrayClass info k = true /\ IsPrimitive info (MirrorClass.GetComponentType info k) = false.

Section Safety.
Context {CL : ClassLinker} {Laws : ClassLinkerLaws CL} {Obj : Objects} {ObjLaws : ObjectsLaws Obj}.

(** ** Merging *)

(** C14: [RegType::Merge] terminates and is sound: a register whose contents one of the two types
    describes is described by the result, for constants and their ranges, primitive types, halves
    of wide values, classes, interfaces, arrays, unresolved types and merges of them, as long as
    no object under construction meets [java.lang.Object] or an unresolved type. *)
Theorem merge_sound b c t t' :
  reachable b c -> room 2 c -> is_entry c t -> is_entry c t' -> t <> t' ->
  keeps_initialization c t t' ->
  exists c' m, Merge t t' c = Some (c', m) /\ is_entry c' m /\
    forall v r, has_type c t v r \/ has_type c t' v r -> has_type c' m v r.
Proof.
  intros Hr Hroom Ht Ht' Hne Hkeep.
  destruct (merge_outcome c t t' (reachable_ok b c Hr) Hroom Ht Ht' Hne) as (c' & m & E & _ & _ & Hm & Ha).
  exists c', m. split; [done|]. split; [done|]. by apply Ha.
Qed.

(** ** Assignments *)

(** A type that declarations have: of a field, a parameter, an operand. *)
Definition target (lhs : RegType) : Prop :=
  IsZero lhs = false /\ IsUninitializedTypes lhs = false /\
  (IsNonZeroReferenceTypes lhs = true -> IsUnresolvedTypes lhs = false -> stands_for lhs (klass_ lhs)).

(** Primitive arrays always resolve. *)
Definition reference_descriptor (rhs : RegType) : Prop :=
  IsUnresolvedTypes rhs = true -> array_descriptor (descriptor_ rhs) = true ->
  exists x d, descriptor_ rhs = 0x5b :: x :: d /\ (x = 0x4c \/ x = 0x5b).

Definition object_array (k : Z) : Prop :=
  IsArrayClass info k = true /\ IsPrimitive info (MirrorClass.GetComponentType info k) = false.

Lemma object_array_below k j : proper_class k -> is_class j -> object_array k ->
  IsArrayClass info j = true -> MirrorClass.GetComponentType info j = Object -> subtype info Object k j.
Proof.
  intros (Hk & _) Hj (Ha & Hp) Haj Hcj. apply sub_array; try done. rewrite Hcj. by apply sub_object.
Qed.

Lemma subtype_object_array k o : proper_class k -> proper_class o -> object_array k ->
  subtype info Object o k -> object_array o.
Proof.
  intros (Hk & _) (Ho & _) (Ha & Hp) Hsub.
  destruct (subtype_array _ _ _ _ _ _ linker_hierarchy o k Ho Hk Ha Hsub) as [->|(? & ? & _)]; done.
Qed.

Lemma array_not_interface k : is_class k -> IsArrayClass info k = true -> IsInterface info k = false.
Proof. intros Hk Ha. by destruct (class_array _ _ _ _ _ _ linker_hierarchy k Hk Ha) as (_ & ? & _). Qed.

(** A register with a reference array type holds a reference array. *)
Lemma object_array_contents c rhs v r : cache_ok c -> is_entry c rhs -> initialized c rhs ->
  IsNonZeroReferenceTypes rhs = true -> reference_descriptor rhs -> IsObjectArrayTypes rhs = true ->
  has_type c rhs v r -> refers (state_of r = Initialized /\ object_array (class_of r)) r.
Proof.
  intros Hok Hrhs Hi Hn Hd Ha Hv. unfold IsObjectArrayTypes in Ha.
  destruct (named_unresolved rhs) eqn:Eu.
  - unfold named_unresolved in Eu. apply andb_true_iff in Eu as ((Eu & Em%negb_true_iff)%andb_true_iff & Es%negb_true_iff).
    destruct (Hd Eu Ha) as (x & d & Edesc & Hx). rewrite has_type_base in Hv by done.
    destruct Hi as (Hi & _). unfold base_type in Hv. kinds rhs; cbn in Edesc, Hv.
    destruct Hv as [->|(Ho & Hs & Hnamed)]; [by left|right]. split; [done|]. split; [done|].
    rewrite Edesc in Hnamed. by apply (named_array x d).
  - destruct (HasClass rhs) eqn:Eh; [|done]. apply andb_true_iff in Ha as (Ha & Hp%negb_true_iff).
    assert (Eu' : IsUnresolvedTypes rhs = false).
    { destruct (entry_invariant c rhs Hok Hrhs) as [Hp'|(i & _ & _ & Hent)].
      - repeat (apply elem_of_cons in Hp' as [->|Hp']; [done|]). by apply elem_of_nil in Hp'.
      - unfold HasClass in Eh. apply negb_true_iff, Z.eqb_neq in Eh. unfold entry_ok in Hent.
        kinds rhs; cbn in Hent, Eh; try congruence. by destruct Hent. }
    destruct (resolved_reference c rhs Hok Hrhs Hn Eu' (proj1 Hi)) as (Hk & Hkind & Hbase).
    rewrite has_type_base in Hv by (destruct Hkind; by kinds rhs).
    destruct (Hbase v r Hv) as [->|(Ho & Hs & Hinst)]; [by left|right]. split; [done|]. split; [done|].
    unfold GetClass in *. destruct Hinst as [Hint|Hsub].
    + rewrite (array_not_interface _ (proj1 Hk) Ha) in Hint. done.
    + by eapply (subtype_object_array (klass_ rhs)).
Qed.

Lemma assign_primitive c lhs rhs strict v r :
  IsReferenceTypes lhs = false -> Equals lhs rhs = false ->
  AssignableFrom lhs rhs strict = Some true -> has_type c rhs v r -> has_type c lhs v r.
Proof.
  intros Hl He Ha. assert (Hp : plain rhs).
  { unfold plain. apply not_true_is_false. intros Em. unfold AssignableFrom in Ha. rewrite He, Hl in Ha.
    destruct rhs as [[] ? ? ?]; cbn in Em; try discriminate. by kinds lhs. }
  rewrite !has_type_base by (done || by kinds lhs).
  unfold AssignableFrom in Ha. rewrite He, Hl in Ha. intros Hv.
  unfold base_type at 1. kinds lhs; cbn in Ha |- *; try discriminate; try done; injection Ha as Ha.
  - by apply (boolean_range rhs v r).
  - by apply (byte_range rhs v r).
  - by apply (short_range rhs v r).
  - by apply (char_range rhs v r).
Qed.

Lemma unresolved_no_class c t : cache_ok c -> is_entry c t -> IsUnresolvedTypes t = true -> HasClass t = false.
Proof.
  intros Hok Ht Hu. destruct (entry_invariant c t Hok Ht) as [Hp|(i & _ & _ & He)].
  - repeat (apply elem_of_cons in Hp as [->|Hp]; [done|]). by apply elem_of_nil in Hp.
  - unfold entry_ok in He. unfold HasClass. kinds t; cbn in He |- *; try by rewrite He.
    destruct He as (-> & _). done.
Qed.

Lemma has_class_proper c t : cache_ok c -> is_entry c t -> IsNonZeroReferenceTypes t = true ->
  HasClass t = true -> IsUninitializedTypes t = false ->
  proper_class (klass_ t) /\ plain t /\ forall v r, base_type t v r -> is_reference r (klass_ t).
Proof.
  intros Hok Ht Hn Hc Hi. assert (Hu : IsUnresolvedTypes t = false).
  { apply not_true_is_false. intros Hu. by rewrite (unresolved_no_class c t) in Hc. }
  destruct (resolved_reference c t Hok Ht Hn Hu Hi) as (Hk & Hkind & Hbase).
  split; [done|]. split; [|done]. by destruct Hkind; kinds t.
Qed.

Lemma assign_reference c lhs rhs strict v r : cache_ok c -> is_entry c lhs -> is_entry c rhs ->
  target lhs -> initialized c rhs -> reference_descriptor rhs ->
  IsReferenceTypes lhs = true -> Equals lhs rhs = false ->
  AssignableFrom lhs rhs strict = Some true -> has_type c rhs v r -> has_type c lhs v r.
Proof.
  intros Hok Hlhs Hrhs (Hlz & Hlu & Hstands) Hi Hd Hl He Ha Hv.
  pose proof (reference_cases lhs Hl Hlz) as Hln. unfold AssignableFrom in Ha. rewrite He, Hl in Ha.
  replace (IsBoolean lhs) with false in Ha by (by kinds lhs).
  replace (IsByte lhs) with false in Ha by (by kinds lhs).
  replace (IsShort lhs) with false in Ha by (by kinds lhs).
  replace (IsChar lhs) with false in Ha by (by kinds lhs).
  replace (IsInteger lhs) with false in Ha by (by kinds lhs).
  replace (IsFloat lhs) with false in Ha by (by kinds lhs).
  replace (IsLongLo lhs) with false in Ha by (by kinds lhs).
  replace (IsDoubleLo lhs) with false in Ha by (by kinds lhs).
  replace (IsConflict lhs) with false in Ha by (by kinds lhs). cbn [negb] in Ha.
  destruct (IsZero rhs) eqn:Erz.
  { destruct (zero_contents rhs c v r Erz Hv) as (? & ->). by apply null_has_type. }
  destruct (IsReferenceTypes rhs) eqn:Er; cbn [negb] in Ha; [|done].
  pose proof (reference_cases rhs Er Erz) as Hrn.
  assert (Hgoal : forall k, klass_ lhs = k -> IsUnresolvedTypes lhs = false -> is_reference r k ->
    has_type c lhs v r).
  { intros k Hk Hu Hr. specialize (Hstands Hln Hu).
    destruct (stands_for_resolved lhs _ Hstands) as (_ & Hpl). rewrite has_type_base by done.
    rewrite <- Hk in Hr. apply (stands_for_base lhs (klass_ lhs)); [|done..]. by apply (entry_class c). }
  pose proof (has_type_initialized c rhs v r Hok Hrhs Er Hi Hv) as Hinit.
  destruct (IsJavaLangObject lhs) eqn:Ej.
  { apply (Hgoal Object); [by apply (java_lang_object_class c)|by kinds lhs|by apply object_instance]. }
  destruct (negb strict && negb (IsUnresolvedTypes lhs) && IsInterface info (GetClass lhs)) eqn:Ei.
  { apply andb_true_iff in Ei as ((_ & Eu%negb_true_iff)%andb_true_iff & Ei).
    apply (Hgoal (klass_ lhs)); [done..|]. destruct Hinit as [->|(Ho & Hs)]; [by left|right].
    split; [done|]. split; [done|by left]. }
  assert (Hclass : HasClass lhs = true -> IsUnresolvedTypes lhs = false).
  { intros Hc. apply not_true_is_false. intros Hu. by rewrite (unresolved_no_class c lhs) in Hc. }
  destruct (IsJavaLangObjectArray lhs) eqn:Eo.
  { injection Ha as Ha. unfold IsJavaLangObjectArray in Eo.
    apply andb_true_iff in Eo as ((Hc & Haj)%andb_true_iff & Hobj).
    apply (Hgoal (klass_ lhs)); [done|by apply Hclass|].
    destruct (has_class_proper c lhs Hok Hlhs Hln Hc Hlu) as ((Hk & _) & _ & _).
    destruct (object_array_contents c rhs v r Hok Hrhs Hi Hrn Hd Ha Hv) as [->|(Ho & Hs & Hoa)];
      [by left|right]. split; [done|]. split; [done|right].
    apply object_array_below; try done. unfold GetClass in Haj, Hobj.
    apply array_component in Haj as Hcn.
    destruct (class_component _ _ _ _ _ _ linker_hierarchy _ Hk Hcn) as (Hck & _).
    rewrite (object_class _ _ _ _ _ _ linker_hierarchy _ Hck) in Hobj. by apply bool_decide_eq_true in Hobj. }
  destruct (HasClass lhs && HasClass rhs) eqn:Ec; [|done].
  apply andb_true_iff in Ec as (Hcl & Hcr). apply (Hgoal (klass_ lhs)); [done|by apply Hclass|].
  destruct (has_class_proper c lhs Hok Hlhs Hln Hcl Hlu) as (Hpl & _ & _).
  destruct (has_class_proper c rhs Hok Hrhs Hrn Hcr (proj1 Hi)) as (Hpr & Hplain & Hbase).
  rewrite has_type_base in Hv by done.
  destruct (Hbase v r Hv) as [->|(Ho & Hs & Hinst)]; [by left|right]. split; [done|]. split; [done|].
  destruct (assignable_spec _ _ _ _ _ _ linker_hierarchy _ _ (proj1 Hpl) (proj1 Hpr)) as (b & Eb & Hb).
  unfold GetClass in Ha. rewrite Eb in Ha. injection Ha as ->.
  apply (instance_up (klass_ rhs)); [apply Hpr|apply Hpl|done|done|by apply Hb].
Qed.

(** C15: Assignments that the verifier accepts are sound: if [lhs], the type of a field, a
    parameter or an operand, is assignable from the type [rhs] of an initialized register,
    strictly or not, then [lhs] describes what is in the register. *)
Theorem assignable_sound b c lhs rhs strict v r :
  reachable b c -> is_entry c lhs -> is_entry c rhs -> target lhs ->
  initialized c rhs -> reference_descriptor rhs ->
  AssignableFrom lhs rhs strict = Some true -> has_type c rhs v r -> has_type c lhs v r.
Proof.
  intros Hr Hlhs Hrhs Ht Hi Hd Ha Hv. pose proof (reachable_ok b c Hr) as Hok.
  destruct (Equals lhs rhs) eqn:He.
  { rewrite (equals_eq c) in He by done. by apply bool_decide_eq_true in He as ->. }
  destruct (IsReferenceTypes lhs) eqn:El.
  - by apply (assign_reference c lhs rhs strict v r).
  - by apply (assign_primitive c lhs rhs strict v r).
Qed.

(** ** Objects under construction *)

(** C39: The comment of [Merge] wants any merge of an object under construction with an
    initialized one to be a conflict, and two classes do give one; but the tests for
    [java.lang.Object] and for unresolved types come first.  There the result is an ordinary
    reference type, which may be assigned to [java.lang.Object], and with [java.lang.Object]
    itself it no longer describes the register. *)
Theorem merge_forgets_construction b c t other pc :
  reachable b c -> room 2 c -> is_entry c t -> is_entry c other ->
  kind t = UninitializedReferenceType pc -> IsNonZeroReferenceTypes other = true ->
  IsUninitializedTypes other = false ->
  exists c' m, Merge t other c = Some (c', m) /\
    (IsJavaLangObject other = false -> IsUnresolvedTypes other = false -> m = Conflict) /\
    (IsJavaLangObject other = true \/ IsUnresolvedReference other = true ->
      IsUninitializedTypes m = false /\ IsReferenceTypes m = true /\
      (forall object, Equals object m = false -> IsJavaLangObject object = true ->
        AssignableFrom object m true = Some true)) /\
    (IsJavaLangObject other = true ->
      forall v r, r <> 0 -> state_of r = Allocated pc -> class_of r = klass_ t ->
        has_type c t v r /\ ~ has_type c' m v r).
Proof.
  intros Hr Hroom Ht Hother Ek Hn Hi. pose proof (reachable_ok b c Hr) as Hok.
  assert (Hne : t <> other) by (intros ->; by kinds other).
  assert (Htr : IsReferenceTypes t = true /\ IsZero t = false /\ IsUnresolvedTypes t = false /\
    IsUninitializedTypes t = true /\ IsJavaLangObject t = false /\ IsNonZeroReferenceTypes t = true)
    by (split_and!; by kinds t).
  destruct Htr as (Htr & Htz & Htu & Hti & Htj & Htn).
  assert (Hor : IsReferenceTypes other = true) by (unfold IsReferenceTypes; by rewrite Hn).
  assert (Hoz : IsZero other = false) by (by kinds other).
  pose proof (entry_class c t Hok Ht Htn Htu) as Hproper.
  assert (Hassign : forall m, IsReferenceTypes m = true -> IsZero m = false ->
    forall object, Equals object m = false -> IsJavaLangObject object = true ->
      AssignableFrom object m true = Some true).
  { intros m Hm Hz object He Hj. unfold AssignableFrom. rewrite He, Hz, Hm, Hj. by kinds object. }
  unfold Merge. cbn [MergeLoop]. rewrite MergeWith_reference by (done || by rewrite Htz).
  rewrite Htz, Hoz, Htj, Htu, Hti. cbn [orb].
  destruct (IsJavaLangObject other) eqn:Ej.
  - assert (Hroom1 : room 1 c) by (eapply room_weaken; [|done]; lia).
    destruct (JavaLangObject_outcome false c Hok Hroom1) as (c' & m & E & _ & _ & _ & Hm).
    exists c', m. split; [done|]. split; [done|].
    destruct (stands_for_resolved m Object Hm) as ((Href & Hun) & Hpl).
    assert (Hmk : IsUninitializedTypes m = false /\ IsZero m = false).
    { destruct Hm as (_ & [E'|(E' & _)]); by kinds m. }
    split; [intros _; split; [apply Hmk|split; [done|apply Hassign; [done|apply Hmk]]]|].
    intros _ v r Hr0 Hs Hc. split.
    + rewrite has_type_base by (by kinds t). unfold base_type. rewrite Ek. right. by rewrite Hc.
    + rewrite has_type_base by done. unfold base_type, refers.
      destruct Hm as (_ & [-> | (-> & _)]); intros [?|(_ & E' & _)]; congruence.
  - destruct (IsUnresolvedTypes other) eqn:Eu.
    + destruct (unresolved_merge_outcome 0 c t other Hok Hroom Ht Hother Htr Hor)
        as (c' & m & E & _ & _ & _ & _). exists c', m. split; [done|]. split; [done|].
      split; [|done]. intros [?|Hur]; [done|].
      assert (Hm : IsUnresolvedMergedReference m = true).
      { revert E. unfold FromUnresolvedMergeWith, SplitUnresolved.
        replace (kind other) with UnresolvedReferenceType by (by kinds other). rewrite Ek, Eu, Htu.
        cbn [mbind option_bind]. unfold SafeMergeWith.
        rewrite (equals_eq c), bool_decide_eq_false_2; [|intros E0; by rewrite E0 in Htz|done|done|by apply zero_entry].
        cbn [MergeLoop].
        rewrite MergeWith_reference by (done || by rewrite Htz).
        rewrite Htz. cbn [orb]. change (IsZero Zero) with true. cbv iota.
        assert (Es : SelectNonConstant t Zero = t) by (unfold SelectNonConstant; by kinds t).
        rewrite Es. cbn [mbind option_bind].
        replace (IsConflict t) with false by (by kinds t). unfold FindOrAdd.
        match goal with |- context [find_entry ?p ?l] =>
          destruct (find_entry_spec p l) as [(-> & _)|(i & e & -> & _ & He & _)] end.
        - eauto.
        - cbn [mbind option_bind]. unfold AddEntry. by intros [= _ <-].
        - cbn [mbind option_bind]. intros [= _ <-]. injection He as He. by kinds e. }
      split; [by kinds m|]. split; [by kinds m|]. apply Hassign; by kinds m.
    + exists c, Conflict. split; [done|]. split; [done|]. split; [|done]. intros [?|?]; [done|by kinds other].
Qed.
End Safety.

(** ** A small class linker *)
Module SmallLinker.
Definition find (d : list Z) : Z :=
  match d with [0x4c; c; 0x3b] => if (1 <=? c) && (c <=? 5) then c else 0 | _ => 0 end.

#[export] Instance linker : ClassLinker := {
  info := Sample.info;
  class_count := Sample.class_count;
  FindArrayClass := Sample.FindArrayClass;
  FindSystemClass := fun _ => 6;
  FindClass := fun _ => find;
  LookupClass := fun _ => find;
  GetJavaLangClass := 2;
  GetJavaLangString := 4;
  GetJavaLangThrowable := 3;
}.

Lemma find_class x d : find (x :: d) = 0 \/
  Sample.is_class (find (x :: d)) /\ IsPrimitive Sample.info (find (x :: d)) = false.
Proof.
  destruct (Z.eq_dec (find (x :: d)) 0) as [E|E]; [by left|right].
  assert (H : 1 <= find (x :: d) <= 5).
  { unfold find in *. repeat case_match; try done; lia. }
  split; [left; lia|].
  assert (Hc : find (x :: d) = 1 \/ find (x :: d) = 2 \/ find (x :: d) = 3 \/ find (x :: d) = 4
               \/ find (x :: d) = 5) by lia.
  by destruct Hc as [-> | [-> | [-> | [-> | ->]]]].
Qed.

#[export] Instance laws : ClassLinkerLaws linker := {
  is_class := Sample.is_class;
  rank := Sample.rank;
  Object := 1;
  linker_hierarchy := Sample.sample_hierarchy;
  linker_object := eq_refl;
  linker_find := fun loader x d klass _ E =>
    match E with
    | or_introl E' => eq_ind_r (fun k => k = 0 \/ Sample.is_class k /\ IsPrimitive Sample.info k = false) (find_class x d) E'
    | or_intror E' => eq_ind_r (fun k => k = 0 \/ Sample.is_class k /\ IsPrimitive Sample.info k = false) (find_class x d) E'
    end;
}.

(** An object of the class [k] is at the address [k], and one under construction at [k + 100]. *)
#[export] Instance objects : Objects := {
  class_of r := r mod 100;
  state_of r := if r <? 100 then Initialized else Allocated 7;
  named d k := array_descriptor d = true -> IsArrayClass Sample.info k = true /\
    IsPrimitive Sample.info (MirrorClass.GetComponentType Sample.info k) = false;
}.

#[export] Instance objects_laws : ObjectsLaws objects.
Proof. intros x d k _ H. by apply H. Qed.

(** The types of [Object], [B], [C] and an unresolved [LZ;], of a [B] that has no constructor
    call yet, and of two constants. *)
Definition tObject := mkRegType ReferenceType [0x4c; 1; 0x3b] 1 18.
Definition tB := mkRegType ReferenceType [0x4c; 3; 0x3b] 3 19.
Definition tC := mkRegType PreciseReferenceType [0x4c; 4; 0x3b] 4 20.
Definition tZ := mkRegType UnresolvedReferenceType [0x4c; 0x5a; 0x3b] 0 21.
Definition tNewB := mkRegType (UninitializedReferenceType 7) [0x4c; 3; 0x3b] 3 22.
Definition t1000 := mkRegType (PreciseConstType 1000) [] 0 23.
Definition cache : RegTypeCache :=
  mkCache (primitives ++ [tObject; tB; tC; tZ; tNewB; t1000]) true.

Definition requests : list Request :=
  [RFromClass [0x4c; 1; 0x3b] 1 false; RFromClass [0x4c; 3; 0x3b] 3 false;
   RFromClass [0x4c; 4; 0x3b] 4 true; RFromDescriptor 7 [0x4c; 0x5a; 0x3b] false;
   RUninitialized tB 7; RCat1Const 1000 true].

Lemma cache_reachable : reachable true cache.
Proof.
  pose (sub n := mkCache (take n (entries_ cache)) true).
  assert (Hroom : forall n, (n <= 24)%nat -> room 2 (sub n)).
  { intros n Hn. unfold room. subst sub. cbn [entries_]. rewrite length_take. cbn. lia. }
  assert (Hentry : forall n i t, entries_ cache !! i = Some t -> (i < n)%nat -> is_entry (sub n) t).
  { intros n i t Hi Hn. exists i. subst sub. cbn [entries_]. by rewrite lookup_take_lt. }
  assert (H18 : reachable true (sub 18%nat)) by constructor.
  assert (H19 : reachable true (sub 19%nat)).
  { eapply (reachable_request true _ (RFromClass [0x4c; 1; 0x3b] 1 false));
      [exact H18|apply Hroom; lia|left; split; discriminate|by vm_compute]. }
  assert (H20 : reachable true (sub 20%nat)).
  { eapply (reachable_request true _ (RFromClass [0x4c; 3; 0x3b] 3 false));
      [exact H19|apply Hroom; lia|left; split; discriminate|by vm_compute]. }
  assert (H21 : reachable true (sub 21%nat)).
  { eapply (reachable_request true _ (RFromClass [0x4c; 4; 0x3b] 4 true));
      [exact H20|apply Hroom; lia|left; split; discriminate|by vm_compute]. }
  assert (H22 : reachable true (sub 22%nat)).
  { eapply (reachable_request true _ (RFromDescriptor 7 [0x4c; 0x5a; 0x3b] false));
      [exact H21|apply Hroom; lia|split; [done|eexists; by vm_compute]|by vm_compute]. }
  assert (H23 : reachable true (sub 23%nat)).
  { eapply (reachable_request true _ (RUninitialized tB 7)); [exact H22|apply Hroom; lia| |by vm_compute].
    split; [by apply (Hentry _ 19%nat); [|lia]|]. right. split; [done|by left]. }
  eapply (reachable_request true _ (RCat1Const 1000 true)); [exact H23|apply Hroom; lia|by vm_compute|by vm_compute].
Qed.

Lemma small_entry_at i t : entries_ cache !! i = Some t -> is_entry cache t.
Proof. by exists i. Qed.

Lemma cache_room : room 2 cache.
Proof. by vm_compute. Qed.

(** [B] and the exact [C] merge to the [A] that both extend. *)
Lemma merge_sound_witness :
  (klass_ ∘ snd <$> Merge tB tC cache) = Some 2 /\
  exists c' m, Merge tB tC cache = Some (c', m) /\ is_entry c' m /\
    forall v r, has_type cache tB v r \/ has_type cache tC v r -> has_type c' m v r.
Proof.
  split; [by vm_compute|].
  apply (merge_sound true cache tB tC cache_reachable cache_room);
    [by apply (small_entry_at 19)|by apply (small_entry_at 20)|done|].
  right. right. left. done.
Defined.

(** A final class's type is assignable to a class that it extends; the object at 4 is a [C]. *)
Lemma assignable_sound_witness : has_type cache tObject 4 4.
Proof.
  apply (assignable_sound true cache tObject tC true 4 4 cache_reachable);
    [by apply (small_entry_at 18)|by apply (small_entry_at 20)| |done|done|by vm_compute|].
  - split; [done|]. split; [done|]. intros _ _. split; [done|by left].
  - right. split; [|done]. split; [left; by vm_compute|done].
Defined.

Lemma merge_forgets_construction_witness :
  exists c' m, Merge tNewB tObject cache = Some (c', m) /\
    (IsJavaLangObject tObject = false -> IsUnresolvedTypes tObject = false -> m = Conflict) /\
    (IsJavaLangObject tObject = true \/ IsUnresolvedReference tObject = true ->
      IsUninitializedTypes m = false /\ IsReferenceTypes m = true /\
      (forall object, Equals object m = false -> IsJavaLangObject object = true ->
        AssignableFrom object m true = Some true)) /\
    (IsJavaLangObject tObject = true ->
      forall v r, r <> 0 -> state_of r = Allocated 7 -> class_of r = klass_ tNewB ->
        has_type cache tNewB v r /\ ~ has_type c' m v r).
Proof.
  apply (merge_forgets_construction true cache tNewB tObject 7 cache_reachable cache_room);
    try done; [by apply (small_entry_at 22)|by apply (small_entry_at 18)].
Defined.

End SmallLinker.
