(* ===== verification/RegisterLine.v ===== *)
(** * Register lines ([verifier/register_line.{h,cc}], [register_line-inl.h])

    What the method verifier knows of the registers before an instruction: a cache id per
    register, the result register, the stack of entered monitors, and for every register a bit
    vector of the monitors that its object has entered.

    The operations run in [Flow], which threads the state of the verifier and ends in [None] at
    an access outside the line or a failed [CHECK].  [Fail] is [MethodVerifier::Fail]. *)
From stdpp Require Import list gmap fin_maps.
From S2P Require Import Prelude.
From S2P Require Import Runtime.
From S2P Require Import Descriptors.
From S2P Require Import MirrorClass.
From S2P Require Import RegType.
From S2P Require Import DexInstruction.
Local Open Scope Z_scope.

Record RegisterLine := mkLine {
  result_ : Z * Z;
  monitors_ : list Z;
  reg_to_lock_depths_ : gmap Z Z;
  this_initialized_ : bool;
  line_ : list Z;
}.

Inductive TypeCategory := kTypeCategoryUnknown | kTypeCategory1nr | kTypeCategory2 | kTypeCategoryRef.

Inductive VerifyError :=
  | VERIFY_ERROR_BAD_CLASS_HARD | VERIFY_ERROR_BAD_CLASS_SOFT | VERIFY_ERROR_NO_CLASS
  | VERIFY_ERROR_NO_FIELD | VERIFY_ERROR_NO_METHOD | VERIFY_ERROR_ACCESS_CLASS
  | VERIFY_ERROR_ACCESS_FIELD | VERIFY_ERROR_ACCESS_METHOD | VERIFY_ERROR_CLASS_CHANGE
  | VERIFY_ERROR_INSTANTIATION.

(** The members of [MethodVerifier] that the operations use. *)
Record VerifierState := mkState {
  reg_types_ : RegTypeCache;
  work_line_ : RegisterLine;
  saved_line_ : RegisterLine;
  failures_ : list VerifyError;
  have_pending_hard_failure_ : bool;
  have_pending_runtime_throw_failure_ : bool;
  string_init_pc_reg_map_ : gmap Z (gset Z);
}.

(** What does not change while an instruction is verified: [Runtime::IsAotCompiler],
    [can_load_classes_], [allow_soft_failures_], [DexFileVersion], whether the instruction has
    the flag [kThrow], and [CurrentInsnFlags()->IsInTry()]. *)
Record Options := mkOptions {
  is_aot_compiler : bool;
  can_load_classes : bool;
  allow_soft_failures_ : bool;
  dex_file_version : Z;
  insn_can_throw : bool;
  insn_is_in_try : bool;
}.

Definition Flow (A : Type) : Type := VerifierState -> option (A * VerifierState).
#[export] Instance Flow_ret : MRet Flow := fun A x s => Some (x, s).
#[export] Instance Flow_bind : MBind Flow := fun A B f m s =>
  match m s with Some (x, s') => f x s' | None => None end.

(** ** The state *)

Definition get_line : Flow RegisterLine := fun s => Some (work_line_ s, s).
Definition put_line (l : RegisterLine) : Flow () := fun s =>
  Some ((), mkState (reg_types_ s) l (saved_line_ s) (failures_ s) (have_pending_hard_failure_ s)
                    (have_pending_runtime_throw_failure_ s) (string_init_pc_reg_map_ s)).
Definition get_cache : Flow RegTypeCache := fun s => Some (reg_types_ s, s).
Definition undefined {A} : Flow A := fun _ => None.
Definition require {A} (x : option A) : Flow A := fun s =>
  match x with Some a => Some (a, s) | None => None end.

Definition set_cache (c : RegTypeCache) (s : VerifierState) : VerifierState :=
  mkState c (work_line_ s) (saved_line_ s) (failures_ s) (have_pending_hard_failure_ s)
          (have_pending_runtime_throw_failure_ s) (string_init_pc_reg_map_ s).

(** A request to the cache. *)
Definition with_cache (f : RegTypeCache -> option (RegTypeCache * RegType)) : Flow RegType := fun s =>
  match f (reg_types_ s) with Some (c, t) => Some (t, set_cache c s) | None => None end.

Definition set_line_ (ids : list Z) (l : RegisterLine) : RegisterLine :=
  mkLine (result_ l) (monitors_ l) (reg_to_lock_depths_ l) (this_initialized_ l) ids.
Definition set_result (r : Z * Z) (l : RegisterLine) : RegisterLine :=
  mkLine r (monitors_ l) (reg_to_lock_depths_ l) (this_initialized_ l) (line_ l).
Definition set_monitors (m : list Z) (l : RegisterLine) : RegisterLine :=
  mkLine (result_ l) m (reg_to_lock_depths_ l) (this_initialized_ l) (line_ l).
Definition set_depths (d : gmap Z Z) (l : RegisterLine) : RegisterLine :=
  mkLine (result_ l) (monitors_ l) d (this_initialized_ l) (line_ l).
Definition set_this_initialized (b : bool) (l : RegisterLine) : RegisterLine :=
  mkLine (result_ l) (monitors_ l) (reg_to_lock_depths_ l) b (line_ l).

Definition num_regs_ (l : RegisterLine) : Z := Z.of_nat (length (line_ l)).

(** [line_[i]]. *)
Definition id_at (l : RegisterLine) (i : Z) : option Z :=
  if 0 <=? i then line_ l !! Z.to_nat i else None.
Definition store_id (i id : Z) (l : RegisterLine) : option RegisterLine :=
  if (0 <=? i) && (i <? num_regs_ l) then Some (set_line_ (<[Z.to_nat i := id]> (line_ l)) l) else None.

(** [CopyFromLine]; the result register is not copied. *)
Definition CopyFromLine (src l : RegisterLine) : RegisterLine :=
  mkLine (result_ l) (monitors_ src) (reg_to_lock_depths_ src) (this_initialized_ src) (line_ src).

(** ** Lock depths *)

(** [SafeMap::Put] inserts; it does not overwrite. *)
Definition Put (k v : Z) (m : gmap Z Z) : gmap Z Z :=
  match m !! k with Some _ => m | None => <[k := v]> m end.

Definition CopyRegToLockDepth (dst src : Z) (l : RegisterLine) : RegisterLine :=
  match reg_to_lock_depths_ l !! src with
  | Some depths => set_depths (Put dst depths (reg_to_lock_depths_ l)) l
  | None => l
  end.

Definition IsSetLockDepth (reg depth : Z) (l : RegisterLine) : bool :=
  match reg_to_lock_depths_ l !! reg with
  | Some depths => negb (Z.land depths (1 ≪ depth) =? 0)
  | None => false
  end.

Definition SetRegToLockDepth (reg depth : Z) (l : RegisterLine) : option (bool * RegisterLine) :=
  if negb (depth <? 32) then None
  else if IsSetLockDepth reg depth l then Some (false, l)
  else
    match reg_to_lock_depths_ l !! reg with
    | None => Some (true, set_depths (Put reg (u32 (1 ≪ depth)) (reg_to_lock_depths_ l)) l)
    | Some depths =>
        Some (true, set_depths (<[reg := u32 (Z.lor depths (1 ≪ depth))]> (reg_to_lock_depths_ l)) l)
    end.

Definition ClearRegToLockDepth (reg depth : Z) (l : RegisterLine) : option RegisterLine :=
  if negb (depth <? 32) then None
  else
    match reg_to_lock_depths_ l !! reg with
    | None => None
    | Some d =>
        let depths := u32 (Z.lxor d (1 ≪ depth)) in
        if negb (depths =? 0) then Some (set_depths (<[reg := depths]> (reg_to_lock_depths_ l)) l)
        else Some (set_depths (delete reg (reg_to_lock_depths_ l)) l)
    end.

Definition ClearAllRegToLockDepths (reg : Z) (l : RegisterLine) : RegisterLine :=
  set_depths (delete reg (reg_to_lock_depths_ l)) l.

Section Lines.
Context {CL : ClassLinker} (opts : Options).

(** [MethodVerifier::Fail]. *)
Definition retried (error : VerifyError) : bool :=
  match error with
  | VERIFY_ERROR_BAD_CLASS_HARD | VERIFY_ERROR_BAD_CLASS_SOFT => false
  | _ => true
  end.

Definition Fail (error : VerifyError) : Flow () := fun s =>
  let soft := retried error && (is_aot_compiler opts || negb (can_load_classes opts)) in
  let throws := retried error && negb soft in
  let hard := match error with
              | VERIFY_ERROR_BAD_CLASS_HARD => true
              | VERIFY_ERROR_BAD_CLASS_SOFT => negb (allow_soft_failures_ opts)
              | _ => false
              end in
  Some ((), mkState (reg_types_ s) (work_line_ s)
    (if throws && negb (insn_can_throw opts) && insn_is_in_try opts
     then CopyFromLine (work_line_ s) (saved_line_ s) else saved_line_ s)
    (failures_ s ++ [if soft then VERIFY_ERROR_BAD_CLASS_SOFT else error])
    (have_pending_hard_failure_ s || hard) (have_pending_runtime_throw_failure_ s || throws)
    (string_init_pc_reg_map_ s)).

(** ** Registers *)

Definition GetRegisterType (vsrc : Z) : Flow RegType :=
  l ← get_line; c ← get_cache;
  id ← require (id_at l vsrc);
  require (GetFromId c id).

Definition SetRegisterType (vdst : Z) (new_type : RegType) : Flow bool :=
  if IsLowHalf new_type || IsHighHalf new_type then
    _ ← Fail VERIFY_ERROR_BAD_CLASS_HARD; mret false
  else
    l ← get_line;
    l ← require (store_id vdst (GetId new_type) l);
    _ ← put_line (ClearAllRegToLockDepths vdst l);
    mret true.

Definition SetRegisterTypeWide (vdst : Z) (new_type1 new_type2 : RegType) : Flow bool :=
  if negb (CheckWidePair new_type1 new_type2) then
    _ ← Fail VERIFY_ERROR_BAD_CLASS_SOFT; mret false
  else
    l ← get_line;
    l ← require (store_id vdst (GetId new_type1) l);
    l ← require (store_id (vdst + 1) (GetId new_type2) l);
    _ ← put_line (ClearAllRegToLockDepths (vdst + 1) (ClearAllRegToLockDepths vdst l));
    mret true.

Definition SetResultTypeToUnknown : Flow () :=
  l ← get_line; put_line (set_result (GetId Undefined, GetId Undefined) l).
Definition SetResultRegisterType (new_type : RegType) : Flow () :=
  l ← get_line; put_line (set_result (GetId new_type, GetId Undefined) l).
Definition SetResultRegisterTypeWide (new_type1 new_type2 : RegType) : Flow () :=
  l ← get_line; put_line (set_result (GetId new_type1, GetId new_type2) l).

(** [IsAssignableFrom], with its [CHECK]. *)
Definition assignable (check_type src_type : RegType) : Flow bool :=
  require (IsAssignableFrom check_type src_type).

Definition VerifyRegisterType (vsrc : Z) (check_type : RegType) : Flow bool :=
  src_type ← GetRegisterType vsrc;
  ok ← assignable check_type src_type;
  if negb (ok : bool) then
    let fail_type :=
      if negb (IsNonZeroReferenceTypes check_type) || negb (IsNonZeroReferenceTypes src_type)
      then VERIFY_ERROR_BAD_CLASS_HARD
      else if IsUnresolvedTypes check_type || IsUnresolvedTypes src_type then VERIFY_ERROR_NO_CLASS
      else VERIFY_ERROR_BAD_CLASS_SOFT in
    _ ← Fail fail_type; mret false
  else if IsLowHalf check_type then
    src_type_h ← GetRegisterType (vsrc + 1);
    if negb (CheckWidePair src_type src_type_h) then
      _ ← Fail VERIFY_ERROR_BAD_CLASS_HARD; mret false
    else mret true
  else mret true.

Definition VerifyRegisterTypeWide (vsrc : Z) (check_type1 check_type2 : RegType) : Flow bool :=
  src_type ← GetRegisterType vsrc;
  ok ← assignable check_type1 src_type;
  if negb (ok : bool) then _ ← Fail VERIFY_ERROR_BAD_CLASS_HARD; mret false
  else
    src_type_h ← GetRegisterType (vsrc + 1);
    if negb (CheckWidePair src_type src_type_h) then
      _ ← Fail VERIFY_ERROR_BAD_CLASS_HARD; mret false
    else mret true.

(** ** Copies *)

Definition is_cat (cat c : TypeCategory) : bool :=
  match cat, c with
  | kTypeCategoryUnknown, kTypeCategoryUnknown | kTypeCategory1nr, kTypeCategory1nr
  | kTypeCategory2, kTypeCategory2 | kTypeCategoryRef, kTypeCategoryRef => true
  | _, _ => false
  end.

Definition CopyRegister1 (vdst vsrc : Z) (cat : TypeCategory) : Flow () :=
  type ← GetRegisterType vsrc;
  set ← SetRegisterType vdst type;
  if negb (set : bool) then mret ()
  else if negb (IsConflict type)
          && ((is_cat cat kTypeCategory1nr && negb (IsCategory1Types type))
              || (is_cat cat kTypeCategoryRef && negb (IsReferenceTypes type)))
  then Fail VERIFY_ERROR_BAD_CLASS_HARD
  else if is_cat cat kTypeCategoryRef then
    l ← get_line; put_line (CopyRegToLockDepth vdst vsrc l)
  else mret ().

Definition CopyRegister2 (vdst vsrc : Z) : Flow () :=
  type_l ← GetRegisterType vsrc;
  type_h ← GetRegisterType (vsrc + 1);
  if negb (CheckWidePair type_l type_h) then Fail VERIFY_ERROR_BAD_CLASS_HARD
  else _ ← SetRegisterTypeWide vdst type_l type_h; mret ().

Definition CopyResultRegister1 (vdst : Z) (is_reference : bool) : Flow () :=
  l ← get_line; c ← get_cache;
  type ← require (GetFromId c (fst (result_ l)));
  if (negb is_reference && negb (IsCategory1Types type))
     || (is_reference && negb (IsReferenceTypes type)) then Fail VERIFY_ERROR_BAD_CLASS_HARD
  else
    _ ← SetRegisterType vdst type;
    l ← get_line; put_line (set_result (GetId Undefined, snd (result_ l)) l).

Definition CopyResultRegister2 (vdst : Z) : Flow () :=
  l ← get_line; c ← get_cache;
  type_l ← require (GetFromId c (fst (result_ l)));
  type_h ← require (GetFromId c (snd (result_ l)));
  if negb (IsCategory2Types type_l) then Fail VERIFY_ERROR_BAD_CLASS_HARD
  else
    _ ← SetRegisterTypeWide vdst type_l type_h;
    l ← get_line; put_line (set_result (GetId Undefined, GetId Undefined) l).

(** ** Operations on operands *)

Definition CheckUnaryOp (inst : Instruction) (dst_type src_type : RegType) : Flow () :=
  ok ← VerifyRegisterType (VRegB_12x inst) src_type;
  if (ok : bool) then _ ← SetRegisterType (VRegA_12x inst) dst_type; mret () else mret ().

Definition CheckUnaryOpWide (inst : Instruction) (dst_type1 dst_type2 src_type1 src_type2 : RegType)
  : Flow () :=
  ok ← VerifyRegisterTypeWide (VRegB_12x inst) src_type1 src_type2;
  if (ok : bool) then _ ← SetRegisterTypeWide (VRegA_12x inst) dst_type1 dst_type2; mret ()
  else mret ().

Definition CheckUnaryOpToWide (inst : Instruction) (dst_type1 dst_type2 src_type : RegType) : Flow () :=
  ok ← VerifyRegisterType (VRegB_12x inst) src_type;
  if (ok : bool) then _ ← SetRegisterTypeWide (VRegA_12x inst) dst_type1 dst_type2; mret ()
  else mret ().

Definition CheckUnaryOpFromWide (inst : Instruction) (dst_type src_type1 src_type2 : RegType) : Flow () :=
  ok ← VerifyRegisterTypeWide (VRegB_12x inst) src_type1 src_type2;
  if (ok : bool) then _ ← SetRegisterType (VRegA_12x inst) dst_type; mret () else mret ().

(** [a && b], where [b] runs only after [a]. *)
Definition both (a b : Flow bool) : Flow bool := ok ← a; if (ok : bool) then b else mret false.

Definition has_boolean (vsrc : Z) : Flow bool := t ← GetRegisterType vsrc; mret (IsBooleanTypes t).

Definition CheckBinaryOp (inst : Instruction) (dst_type src_type1 src_type2 : RegType)
  (check_boolean_op : bool) : Flow () :=
  let vregB := VRegB_23x inst in
  let vregC := VRegC_23x inst in
  ok ← both (VerifyRegisterType vregB src_type1) (VerifyRegisterType vregC src_type2);
  if (ok : bool) then
    booleans ← (if check_boolean_op then both (has_boolean vregB) (has_boolean vregC) else mret false);
    if (booleans : bool) then
      _ ← SetRegisterType (VRegA_23x inst) Boolean; mret ()
    else _ ← SetRegisterType (VRegA_23x inst) dst_type; mret ()
  else mret ().

Definition CheckBinaryOpWide (inst : Instruction)
  (dst_type1 dst_type2 src_type1_1 src_type1_2 src_type2_1 src_type2_2 : RegType) : Flow () :=
  ok ← both (VerifyRegisterTypeWide (VRegB_23x inst) src_type1_1 src_type1_2)
            (VerifyRegisterTypeWide (VRegC_23x inst) src_type2_1 src_type2_2);
  if (ok : bool) then _ ← SetRegisterTypeWide (VRegA_23x inst) dst_type1 dst_type2; mret ()
  else mret ().

Definition CheckBinaryOpWideShift (inst : Instruction) (long_lo_type long_hi_type int_type : RegType)
  : Flow () :=
  ok ← both (VerifyRegisterTypeWide (VRegB_23x inst) long_lo_type long_hi_type)
            (VerifyRegisterType (VRegC_23x inst) int_type);
  if (ok : bool) then _ ← SetRegisterTypeWide (VRegA_23x inst) long_lo_type long_hi_type; mret ()
  else mret ().

Definition CheckBinaryOp2addr (inst : Instruction) (dst_type src_type1 src_type2 : RegType)
  (check_boolean_op : bool) : Flow () :=
  let vregA := VRegA_12x inst in
  let vregB := VRegB_12x inst in
  ok ← both (VerifyRegisterType vregA src_type1) (VerifyRegisterType vregB src_type2);
  if (ok : bool) then
    booleans ← (if check_boolean_op then both (has_boolean vregA) (has_boolean vregB) else mret false);
    if (booleans : bool) then
      _ ← SetRegisterType vregA Boolean; mret ()
    else _ ← SetRegisterType vregA dst_type; mret ()
  else mret ().

Definition CheckBinaryOp2addrWide (inst : Instruction)
  (dst_type1 dst_type2 src_type1_1 src_type1_2 src_type2_1 src_type2_2 : RegType) : Flow () :=
  let vregA := VRegA_12x inst in
  let vregB := VRegB_12x inst in
  ok ← both (VerifyRegisterTypeWide vregA src_type1_1 src_type1_2)
            (VerifyRegisterTypeWide vregB src_type2_1 src_type2_2);
  if (ok : bool) then _ ← SetRegisterTypeWide vregA dst_type1 dst_type2; mret () else mret ().

Definition CheckBinaryOp2addrWideShift (inst : Instruction)
  (long_lo_type long_hi_type int_type : RegType) : Flow () :=
  let vregA := VRegA_12x inst in
  let vregB := VRegB_12x inst in
  ok ← both (VerifyRegisterTypeWide vregA long_lo_type long_hi_type)
            (VerifyRegisterType vregB int_type);
  if (ok : bool) then _ ← SetRegisterTypeWide vregA long_lo_type long_hi_type; mret () else mret ().

Definition CheckLiteralOp (inst : Instruction) (dst_type src_type : RegType)
  (check_boolean_op is_lit16 : bool) : Flow () :=
  let vregA := if is_lit16 then VRegA_22s inst else VRegA_22b inst in
  let vregB := if is_lit16 then VRegB_22s inst else VRegB_22b inst in
  ok ← VerifyRegisterType vregB src_type;
  if (ok : bool) then
    let val := u32 (if is_lit16 then VRegC_22s inst else VRegC_22b inst) in
    booleans ← (if check_boolean_op then has_boolean vregB else mret false);
    if (booleans : bool) && ((val =? 0) || (val =? 1)) then
      _ ← SetRegisterType vregA Boolean; mret ()
    else _ ← SetRegisterType vregA dst_type; mret ()
  else mret ().

(** ** Objects under construction *)

(** [id] of every register whose type is [type] ([Equals] compares ids). *)
Definition replace_type (type : RegType) (id : Z) (ids : list Z) : list Z :=
  (fun x => if x =? GetId type then id else x) <$> ids.

(** The registers of [ids] that hold [type]. *)
Definition holders (type : RegType) (ids : list Z) : list Z :=
  imap (fun i x => (Z.of_nat i, x)) ids ≫= (fun p => if snd p =? GetId type then [fst p] else []).

(** [GetStringInitPcRegMap], for the registers that hold a string besides the receiver. *)
Definition AddStringInitRegisters (dex_pc : Z) (registers : list Z) : Flow () := fun s =>
  let reg_set := default ∅ (string_init_pc_reg_map_ s !! dex_pc) ∪ list_to_set registers in
  Some ((), mkState (reg_types_ s) (work_line_ s) (saved_line_ s) (failures_ s)
    (have_pending_hard_failure_ s) (have_pending_runtime_throw_failure_ s)
    (<[dex_pc := reg_set]> (string_init_pc_reg_map_ s))).

Definition MarkRefsAsInitialized (uninit_type : RegType) (this_reg dex_pc : Z) : Flow () :=
  let is_string := negb (IsUnresolvedTypes uninit_type)
                   && IsStringClass info (GetClass uninit_type) in
  init_type ← with_cache (FromUninitialized uninit_type);
  l ← get_line;
  let registers := filter (fun i => i <> this_reg) (holders uninit_type (line_ l)) in
  let l := set_line_ (replace_type uninit_type (GetId init_type) (line_ l)) l in
  _ ← put_line (if IsUninitializedThisReference uninit_type
                   || IsUnresolvedAndUninitializedThisReference uninit_type
                then set_this_initialized true l else l);
  if is_string && negb (bool_decide (registers = [])) then AddStringInitRegisters dex_pc registers
  else mret ().

Definition MarkUninitRefsAsInvalid (uninit_type : RegType) : Flow () :=
  l ← get_line;
  let depths := foldr delete (reg_to_lock_depths_ l) (holders uninit_type (line_ l)) in
  put_line (set_depths depths (set_line_ (replace_type uninit_type (GetId Conflict) (line_ l)) l)).

(** [MarkAllRegistersAsConflicts] and its two variants: [keep] tells the registers to leave. *)
Definition MarkRegistersAsConflicts (keep : Z -> bool) : Flow () :=
  l ← get_line;
  put_line (set_line_ (imap (fun i id => if keep (Z.of_nat i) then id else GetId Conflict) (line_ l)) l).
Definition MarkAllRegistersAsConflicts : Flow () := MarkRegistersAsConflicts (fun _ => false).
Definition MarkAllRegistersAsConflictsExcept (vsrc : Z) : Flow () :=
  MarkRegistersAsConflicts (fun i => i =? vsrc).
Definition MarkAllRegistersAsConflictsExceptWide (vsrc : Z) : Flow () :=
  MarkRegistersAsConflicts (fun i => (i =? vsrc) || (i =? vsrc + 1)).

Definition CheckConstructorReturn : Flow bool :=
  l ← get_line;
  if negb (this_initialized_ l) then _ ← Fail VERIFY_ERROR_BAD_CLASS_HARD; mret false
  else mret true.

Definition GetInvocationThis (inst : Instruction) (is_range allow_failure : bool) : Flow RegType :=
  let args_count := if is_range then VRegA_3rc inst else VRegA_35c inst in
  let conflict :=
    if negb allow_failure then _ ← Fail VERIFY_ERROR_BAD_CLASS_HARD; mret Conflict
    else mret Conflict in
  if args_count <? 1 then conflict
  else
    this_type ← GetRegisterType (if is_range then VRegC_3rc inst else VRegC_35c inst);
    if negb (IsReferenceTypes this_type) then conflict else mret this_type.

(** ** Monitors *)

Definition MonitorStackDepth (l : RegisterLine) : Z := Z.of_nat (length (monitors_ l)).

Definition PushMonitor (reg_idx insn_idx : Z) : Flow () :=
  reg_type ← GetRegisterType reg_idx;
  l ← get_line;
  if negb (IsReferenceTypes reg_type) then Fail VERIFY_ERROR_BAD_CLASS_HARD
  else if 32 <=? MonitorStackDepth l then Fail VERIFY_ERROR_BAD_CLASS_HARD
  else
    '(set, l) ← require (SetRegToLockDepth reg_idx (MonitorStackDepth l) l);
    if (set : bool) then put_line (set_monitors (monitors_ l ++ [insn_idx]) l)
    else Fail VERIFY_ERROR_BAD_CLASS_HARD.

Definition PopMonitor (reg_idx : Z) : Flow () :=
  reg_type ← GetRegisterType reg_idx;
  l ← get_line;
  if negb (IsReferenceTypes reg_type) then Fail VERIFY_ERROR_BAD_CLASS_HARD
  else if MonitorStackDepth l =? 0 then Fail VERIFY_ERROR_BAD_CLASS_HARD
  else
    let l := set_monitors (take (length (monitors_ l) - 1) (monitors_ l)) l in
    _ ← put_line l;
    if negb (IsSetLockDepth reg_idx (MonitorStackDepth l) l) then
      if 36 <=? dex_file_version opts then Fail VERIFY_ERROR_BAD_CLASS_SOFT else mret ()
    else
      l ← require (ClearRegToLockDepth reg_idx (MonitorStackDepth l) l); put_line l.

Definition VerifyMonitorStackEmpty : Flow bool :=
  l ← get_line;
  if negb (MonitorStackDepth l =? 0) then _ ← Fail VERIFY_ERROR_BAD_CLASS_HARD; mret false
  else mret true.

(** ** Merging *)

(** The first loop: the registers from [idx] on. *)
Fixpoint MergeTypes (ids incoming_ids : list Z) (c : RegTypeCache)
  : option (RegTypeCache * list Z * bool) :=
  match ids, incoming_ids with
  | id :: ids, incoming_id :: incoming_ids =>
      '(c, new_id, changed) ←
        (if negb (id =? incoming_id) then
           incoming_reg_type ← GetFromId c incoming_id;
           cur_type ← GetFromId c id;
           '(c, new_type) ← Merge cur_type incoming_reg_type c;
           Some (c, GetId new_type, negb (Equals cur_type new_type))
         else Some (c, id, false));
      '(c, new_ids, rest) ← MergeTypes ids incoming_ids c;
      Some (c, new_id :: new_ids, changed || rest)
  | _, _ => Some (c, [], false)
  end.

(** The second loop; [count] of a map is 0 or 1. *)
Definition count (idx : Z) (m : gmap Z Z) : Z := match m !! idx with Some _ => 1 | None => 0 end.

Fixpoint MergeDepths (n : nat) (idx : Z) (depths incoming : gmap Z Z) : gmap Z Z :=
  match n with
  | O => depths
  | S n' =>
      if negb (count idx depths =? count idx incoming) then
        if (count idx depths =? 0) || (count idx incoming =? 0)
        then MergeDepths n' (idx + 1) (delete idx depths) incoming
        else depths
      else MergeDepths n' (idx + 1) depths incoming
  end.

Definition MergeLines (l incoming_line : RegisterLine) (c : RegTypeCache)
  : option (RegTypeCache * RegisterLine * bool) :=
  '(c, new_line, changed) ← MergeTypes (line_ l) (line_ incoming_line) c;
  let depths :=
    if (0 <? MonitorStackDepth l) || (0 <? MonitorStackDepth incoming_line) then
      if negb (MonitorStackDepth l =? MonitorStackDepth incoming_line) then reg_to_lock_depths_ l
      else if negb (bool_decide (reg_to_lock_depths_ l = reg_to_lock_depths_ incoming_line)) then
        MergeDepths (length (line_ l)) 0 (reg_to_lock_depths_ l) (reg_to_lock_depths_ incoming_line)
      else reg_to_lock_depths_ l
    else reg_to_lock_depths_ l in
  let cleared := this_initialized_ l && negb (this_initialized_ incoming_line) in
  Some (c, mkLine (result_ l) (monitors_ l) depths
             (if cleared then false else this_initialized_ l) new_line,
        changed || cleared).

Definition MergeRegisters (incoming_line : RegisterLine) : Flow bool := fun s =>
  match MergeLines (work_line_ s) incoming_line (reg_types_ s) with
  | Some (c, l, changed) =>
      Some (changed, mkState c l (saved_line_ s) (failures_ s) (have_pending_hard_failure_ s)
                       (have_pending_runtime_throw_failure_ s) (string_init_pc_reg_map_ s))
  | None => None
  end.
End Lines.
