(* ===== verification/InstructionTypes.v ===== *)
(** * The instructions on register types ([verifier/method_verifier.cc])

    The cases of the [switch] in [MethodVerifier::CodeFlowVerifyInstruction] that need no more
    than the register line and the cache of types: moves, returns, constants, monitors, array
    accesses, comparisons, branches and arithmetic, in the groups of [Interpreter].  [opts] are
    the options of [RegisterLine]; [None] is an access outside the line, a failed [CHECK], or
    an opcode of another group. *)
From stdpp Require Import list gmap fin_maps.
From S2P Require Import Prelude.
From S2P Require Import Runtime.
From S2P Require Import Descriptors.
From S2P Require Import MirrorClass.
From S2P Require Import RegType.
From S2P Require Import RegisterLine.
From S2P Require Import DexInstruction.
Local Open Scope Z_scope.

Section Instructions.
Context {CL : ClassLinker} (opts : Options).
(** [need_precise_constants_], [GetClassLoader()] and [work_insn_idx_]. *)
Context (need_precise_constants_ : bool) (loader work_insn_idx_ : Z).

(** The value is an [int32_t]. *)
Definition DetermineCat1Constant (value : Z) (precise : bool) : RegTypeCache ->
    option (RegTypeCache * RegType) :=
  if precise then FromCat1Const value true
  else if value <? -32768 then IntConstant
  else if value <? -128 then ShortConstant
  else if value <? 0 then ByteConstant
  else if value =? 0 then (fun c => Some (c, Zero))
  else if value =? 1 then (fun c => Some (c, One))
  else if value <? 128 then PosByteConstant
  else if value <? 32768 then PosShortConstant
  else if value <? 65536 then CharConstant
  else IntConstant.

(** [NOP] and the moves.  A data table begins with a [NOP] whose operand is not 0. *)
Definition VerifyMove (c : Code) (inst : Instruction) : Flow () :=
  match c with
  | NOP => if negb (VRegA_10x inst =? 0) then Fail opts VERIFY_ERROR_BAD_CLASS_HARD else mret ()
  | MOVE => CopyRegister1 opts (VRegA_12x inst) (VRegB_12x inst) kTypeCategory1nr
  | MOVE_FROM16 => CopyRegister1 opts (VRegA_22x inst) (VRegB_22x inst) kTypeCategory1nr
  | MOVE_16 => CopyRegister1 opts (VRegA_32x inst) (VRegB_32x inst) kTypeCategory1nr
  | MOVE_WIDE => CopyRegister2 opts (VRegA_12x inst) (VRegB_12x inst)
  | MOVE_WIDE_FROM16 => CopyRegister2 opts (VRegA_22x inst) (VRegB_22x inst)
  | MOVE_WIDE_16 => CopyRegister2 opts (VRegA_32x inst) (VRegB_32x inst)
  | MOVE_OBJECT => CopyRegister1 opts (VRegA_12x inst) (VRegB_12x inst) kTypeCategoryRef
  | MOVE_OBJECT_FROM16 => CopyRegister1 opts (VRegA_22x inst) (VRegB_22x inst) kTypeCategoryRef
  | MOVE_OBJECT_16 => CopyRegister1 opts (VRegA_32x inst) (VRegB_32x inst) kTypeCategoryRef
  | MOVE_RESULT => CopyResultRegister1 opts (VRegA_11x inst) false
  | MOVE_RESULT_WIDE => CopyResultRegister2 opts (VRegA_11x inst)
  | MOVE_RESULT_OBJECT => CopyResultRegister1 opts (VRegA_11x inst) true
  | _ => undefined
  end.

(** The returns, after the check of constructors; [return_type] is [GetMethodReturnType()]. *)
Definition VerifyReturn (return_type : RegType) (c : Code) (inst : Instruction) : Flow () :=
  match c with
  | RETURN_VOID =>
      if negb (IsConflict return_type) then Fail opts VERIFY_ERROR_BAD_CLASS_HARD else mret ()
  | RETURN =>
      if negb (IsCategory1Types return_type) then Fail opts VERIFY_ERROR_BAD_CLASS_HARD
      else
        let vregA := VRegA_11x inst in
        src_type ← GetRegisterType vregA;
        let use_src :=
          (IsBoolean return_type && IsByte src_type)
          || ((IsBoolean return_type || IsByte return_type || IsShort return_type
               || IsChar return_type) && IsInteger src_type) in
        _ ← VerifyRegisterType opts vregA (if use_src then src_type else return_type); mret ()
  | RETURN_WIDE =>
      if negb (IsCategory2Types return_type) then Fail opts VERIFY_ERROR_BAD_CLASS_HARD
      else _ ← VerifyRegisterType opts (VRegA_11x inst) return_type; mret ()
  | RETURN_OBJECT =>
      if negb (IsReferenceTypes return_type) then Fail opts VERIFY_ERROR_BAD_CLASS_HARD
      else
        reg_type ← GetRegisterType (VRegA_11x inst);
        if IsUninitializedTypes reg_type then Fail opts VERIFY_ERROR_BAD_CLASS_SOFT
        else
          ok ← assignable return_type reg_type;
          if (ok : bool) then mret ()
          else if IsUnresolvedTypes reg_type || IsUnresolvedTypes return_type then
            Fail opts VERIFY_ERROR_NO_CLASS
          else
            soft_error ←
              (if IsArrayTypes reg_type && IsArrayTypes return_type then
                 fun s => match CanAssignArray return_type reg_type loader false (reg_types_ s) with
                          | Some (c, (_, soft_error)) => Some (soft_error, set_cache c s)
                          | None => None
                          end
               else mret false);
            if (soft_error : bool) then Fail opts VERIFY_ERROR_BAD_CLASS_SOFT
            else Fail opts VERIFY_ERROR_BAD_CLASS_HARD
  | _ => undefined
  end.

(** The constants.  [set_constant] and [set_wide_constant] are the common last lines. *)
Definition set_constant (vdst val : Z) : Flow () :=
  type ← with_cache (DetermineCat1Constant val need_precise_constants_);
  _ ← SetRegisterType opts vdst type; mret ().

Definition set_wide_constant (vdst val : Z) : Flow () :=
  lo ← with_cache (FromCat2ConstLo (s32 val) true);
  hi ← with_cache (FromCat2ConstHi (s32 (val ≫ 32)) true);
  _ ← SetRegisterTypeWide opts vdst lo hi; mret ().

Definition VerifyConst (c : Code) (inst : Instruction) : Flow () :=
  match c with
  | CONST_4 => set_constant (VRegA_11n inst) (s32 (VRegB_11n inst ≪ 28) ≫ 28)
  | CONST_16 => set_constant (VRegA_21s inst) (s16 (VRegB_21s inst))
  | CONST => set_constant (VRegA_31i inst) (VRegB_31i inst)
  | CONST_HIGH16 => set_constant (VRegA_21h inst) (s32 (VRegB_21h inst ≪ 16))
  | CONST_WIDE_16 => set_wide_constant (VRegA_21s inst) (s16 (VRegB_21s inst))
  | CONST_WIDE_32 => set_wide_constant (VRegA_31i inst) (VRegB_31i inst)
  | CONST_WIDE => set_wide_constant (VRegA_51l inst) (s64 (VRegB_51l inst))
  | CONST_WIDE_HIGH16 => set_wide_constant (VRegA_21h inst) (s64 (VRegB_21h inst ≪ 48))
  | CONST_STRING =>
      type ← with_cache JavaLangString; _ ← SetRegisterType opts (VRegA_21c inst) type; mret ()
  | CONST_STRING_JUMBO =>
      type ← with_cache JavaLangString; _ ← SetRegisterType opts (VRegA_31c inst) type; mret ()
  | _ => undefined
  end.

(** Monitors, [ARRAY_LENGTH] and [THROW]. *)
Definition VerifyObject (c : Code) (inst : Instruction) : Flow () :=
  match c with
  | MONITOR_ENTER => PushMonitor opts (VRegA_11x inst) work_insn_idx_
  | MONITOR_EXIT => PopMonitor opts (VRegA_11x inst)
  | ARRAY_LENGTH =>
      res_type ← GetRegisterType (VRegB_12x inst);
      if IsReferenceTypes res_type then
        if negb (IsArrayTypes res_type) && negb (IsZero res_type) then
          Fail opts VERIFY_ERROR_BAD_CLASS_HARD
        else _ ← SetRegisterType opts (VRegA_12x inst) Integer; mret ()
      else Fail opts VERIFY_ERROR_BAD_CLASS_HARD
  | THROW =>
      res_type ← GetRegisterType (VRegA_11x inst);
      throwable ← with_cache (JavaLangThrowable false);
      ok ← assignable throwable res_type;
      if negb (ok : bool) then
        Fail opts (if IsUnresolvedTypes res_type then VERIFY_ERROR_NO_CLASS
                   else VERIFY_ERROR_BAD_CLASS_SOFT)
      else mret ()
  | _ => undefined
  end.

Definition VerifyCompare (c : Code) (inst : Instruction) : Flow () :=
  let both_registers (verify : Z -> Flow bool) : Flow () :=
    ok ← both (verify (VRegB_23x inst)) (verify (VRegC_23x inst));
    if (ok : bool) then _ ← SetRegisterType opts (VRegA_23x inst) Integer; mret () else mret () in
  match c with
  | CMPL_FLOAT | CMPG_FLOAT => both_registers (fun v => VerifyRegisterType opts v Float)
  | CMPL_DOUBLE | CMPG_DOUBLE =>
      both_registers (fun v => VerifyRegisterTypeWide opts v DoubleLo DoubleHi)
  | CMP_LONG => both_registers (fun v => VerifyRegisterTypeWide opts v LongLo LongHi)
  | _ => undefined
  end.

(** [goto] and the switches. *)
Definition VerifyGoto (c : Code) (inst : Instruction) : Flow () :=
  match c with
  | GOTO | GOTO_16 | GOTO_32 => mret ()
  | PACKED_SWITCH | SPARSE_SWITCH =>
      _ ← VerifyRegisterType opts (VRegA_31t inst) Integer; mret ()
  | _ => undefined
  end.

Definition VerifyIf (c : Code) (inst : Instruction) : Flow () :=
  reg_type1 ← GetRegisterType (VRegA_22t inst);
  reg_type2 ← GetRegisterType (VRegB_22t inst);
  match c with
  | IF_EQ | IF_NE =>
      let mismatch :=
        if IsZero reg_type1 then
          negb (IsReferenceTypes reg_type2) && negb (IsIntegralTypes reg_type2)
        else if IsReferenceTypes reg_type1 then negb (IsReferenceTypes reg_type2)
        else negb (IsIntegralTypes reg_type1) || negb (IsIntegralTypes reg_type2) in
      if mismatch then Fail opts VERIFY_ERROR_BAD_CLASS_HARD else mret ()
  | IF_LT | IF_GE | IF_GT | IF_LE =>
      if negb (IsIntegralTypes reg_type1) || negb (IsIntegralTypes reg_type2)
      then Fail opts VERIFY_ERROR_BAD_CLASS_HARD else mret ()
  | _ => undefined
  end.

(** The tests against 0; [IF_EQZ] and [IF_NEZ] go on with the pattern of an [instance-of]
    before them, which [MethodVerifier] has. *)
Definition VerifyIfZ (c : Code) (inst : Instruction) : Flow () :=
  reg_type ← GetRegisterType (VRegA_21t inst);
  match c with
  | IF_EQZ | IF_NEZ =>
      if negb (IsReferenceTypes reg_type) && negb (IsIntegralTypes reg_type)
      then Fail opts VERIFY_ERROR_BAD_CLASS_HARD else mret ()
  | IF_LTZ | IF_GEZ | IF_GTZ | IF_LEZ =>
      if negb (IsIntegralTypes reg_type) then Fail opts VERIFY_ERROR_BAD_CLASS_HARD else mret ()
  | _ => undefined
  end.

(** ** Arrays *)

Definition set_pending_runtime_throw : Flow () := fun s =>
  Some ((), mkState (reg_types_ s) (work_line_ s) (saved_line_ s) (failures_ s)
                    (have_pending_hard_failure_ s) true (string_init_pc_reg_map_ s)).

Definition VerifyAGet (inst : Instruction) (insn_type : RegType) (is_primitive : bool) : Flow () :=
  index_type ← GetRegisterType (VRegC_23x inst);
  if negb (IsArrayIndexTypes index_type) then Fail opts VERIFY_ERROR_BAD_CLASS_HARD
  else
    array_type ← GetRegisterType (VRegB_23x inst);
    if IsZero array_type then
      _ ← set_pending_runtime_throw;
      if negb is_primitive || IsCategory1Types insn_type then
        _ ← SetRegisterType opts (VRegA_23x inst) Zero; mret ()
      else
        lo ← with_cache (FromCat2ConstLo 0 false);
        hi ← with_cache (FromCat2ConstHi 0 false);
        _ ← SetRegisterTypeWide opts (VRegA_23x inst) lo hi; mret ()
    else if negb (IsArrayTypes array_type) then Fail opts VERIFY_ERROR_BAD_CLASS_HARD
    else
      component_type ← with_cache (GetComponentType array_type loader);
      if negb (IsReferenceTypes component_type) && negb is_primitive then
        Fail opts VERIFY_ERROR_BAD_CLASS_HARD
      else if IsNonZeroReferenceTypes component_type && is_primitive then
        Fail opts VERIFY_ERROR_BAD_CLASS_HARD
      else if is_primitive && negb (Equals insn_type component_type)
              && negb ((IsInteger insn_type && IsFloat component_type)
                       || (IsLongLo insn_type && IsDoubleLo component_type)) then
        Fail opts VERIFY_ERROR_BAD_CLASS_HARD
      else if negb (IsLowHalf component_type) then
        _ ← SetRegisterType opts (VRegA_23x inst) component_type; mret ()
      else
        high ← with_cache (HighHalf component_type);
        _ ← SetRegisterTypeWide opts (VRegA_23x inst) component_type high; mret ().

(** The values that a store takes; [target_type] is that of the element. *)
Definition VerifyPrimitivePut (target_type insn_type : RegType) (vregA : Z) : Flow () :=
  value_type ← GetRegisterType vregA;
  l ← get_line;
  let wide (compatible : bool) (is_type : RegType -> bool) : Flow (bool * bool) :=
    if compatible && (vregA + 1 <? num_regs_ l) then
      value_type_hi ← GetRegisterType (vregA + 1);
      mret (compatible, is_type value_type && CheckWidePair value_type value_type_hi)
    else mret (compatible, false) in
  '(instruction_compatible, value_compatible) ←
    (if IsIntegralTypes target_type then
       mret (Equals target_type insn_type, IsIntegralTypes value_type)
     else if IsFloat target_type then mret (IsInteger insn_type, IsFloatTypes value_type)
     else if IsLongLo target_type then wide (IsLongLo insn_type) IsLongTypes
     else if IsDoubleLo target_type then wide (IsLongLo insn_type) IsDoubleTypes
     else mret (false, false));
  if negb (instruction_compatible : bool) then Fail opts VERIFY_ERROR_BAD_CLASS_HARD
  else if negb (value_compatible : bool) then Fail opts VERIFY_ERROR_BAD_CLASS_HARD
  else mret ().

Definition VerifyAPut (inst : Instruction) (insn_type : RegType) (is_primitive : bool) : Flow () :=
  index_type ← GetRegisterType (VRegC_23x inst);
  if negb (IsArrayIndexTypes index_type) then Fail opts VERIFY_ERROR_BAD_CLASS_HARD
  else
    array_type ← GetRegisterType (VRegB_23x inst);
    if IsZero array_type then
      modified_reg_type ←
        (if IsInteger insn_type || IsLongLo insn_type then
           value_type ← GetRegisterType (VRegA_23x inst);
           mret (if IsInteger insn_type
                 then if IsFloat value_type then value_type else insn_type
                 else if IsDoubleLo value_type then value_type else insn_type)
         else mret insn_type);
      _ ← VerifyRegisterType opts (VRegA_23x inst) modified_reg_type; mret ()
    else if negb (IsArrayTypes array_type) then Fail opts VERIFY_ERROR_BAD_CLASS_HARD
    else
      component_type ← with_cache (GetComponentType array_type loader);
      if is_primitive then VerifyPrimitivePut component_type insn_type (VRegA_23x inst)
      else if negb (IsReferenceTypes component_type) then Fail opts VERIFY_ERROR_BAD_CLASS_HARD
      else _ ← VerifyRegisterType opts (VRegA_23x inst) insn_type; mret ().

Definition VerifyArray (c : Code) (inst : Instruction) : Flow () :=
  let object (verify : RegType -> Flow ()) : Flow () :=
    type ← with_cache (JavaLangObject false); verify type in
  match c with
  | AGET_BOOLEAN => VerifyAGet inst Boolean true
  | AGET_BYTE => VerifyAGet inst Byte true
  | AGET_CHAR => VerifyAGet inst Char true
  | AGET_SHORT => VerifyAGet inst Short true
  | AGET => VerifyAGet inst Integer true
  | AGET_WIDE => VerifyAGet inst LongLo true
  | AGET_OBJECT => object (fun type => VerifyAGet inst type false)
  | APUT_BOOLEAN => VerifyAPut inst Boolean true
  | APUT_BYTE => VerifyAPut inst Byte true
  | APUT_CHAR => VerifyAPut inst Char true
  | APUT_SHORT => VerifyAPut inst Short true
  | APUT => VerifyAPut inst Integer true
  | APUT_WIDE => VerifyAPut inst LongLo true
  | APUT_OBJECT => object (fun type => VerifyAPut inst type false)
  | FILL_ARRAY_DATA =>
      array_type ← GetRegisterType (VRegA_31t inst);
      if IsZero array_type then mret ()
      else if negb (IsArrayTypes array_type) then Fail opts VERIFY_ERROR_BAD_CLASS_HARD
      else
        component_type ← with_cache (GetComponentType array_type loader);
        if IsNonZeroReferenceTypes component_type then Fail opts VERIFY_ERROR_BAD_CLASS_HARD
        else
          let array_data := RelativeAt inst (VRegB_31t inst) in
          if negb (array_data 0 =? kArrayDataSignature) then Fail opts VERIFY_ERROR_BAD_CLASS_HARD
          else if negb (array_data 1 =? ComponentSize (GetPrimitiveType component_type)) then
            Fail opts VERIFY_ERROR_BAD_CLASS_HARD
          else mret ()
  | _ => undefined
  end.

(** ** Arithmetic *)

Definition VerifyUnary (c : Code) (inst : Instruction) : Flow () :=
  match c with
  | NEG_INT | NOT_INT => CheckUnaryOp opts inst Integer Integer
  | NEG_LONG | NOT_LONG => CheckUnaryOpWide opts inst LongLo LongHi LongLo LongHi
  | NEG_FLOAT => CheckUnaryOp opts inst Float Float
  | NEG_DOUBLE => CheckUnaryOpWide opts inst DoubleLo DoubleHi DoubleLo DoubleHi
  | INT_TO_LONG => CheckUnaryOpToWide opts inst LongLo LongHi Integer
  | INT_TO_FLOAT => CheckUnaryOp opts inst Float Integer
  | INT_TO_DOUBLE => CheckUnaryOpToWide opts inst DoubleLo DoubleHi Integer
  | LONG_TO_INT => CheckUnaryOpFromWide opts inst Integer LongLo LongHi
  | LONG_TO_FLOAT => CheckUnaryOpFromWide opts inst Float LongLo LongHi
  | LONG_TO_DOUBLE => CheckUnaryOpWide opts inst DoubleLo DoubleHi LongLo LongHi
  | FLOAT_TO_INT => CheckUnaryOp opts inst Integer Float
  | FLOAT_TO_LONG => CheckUnaryOpToWide opts inst LongLo LongHi Float
  | FLOAT_TO_DOUBLE => CheckUnaryOpToWide opts inst DoubleLo DoubleHi Float
  | DOUBLE_TO_INT => CheckUnaryOpFromWide opts inst Integer DoubleLo DoubleHi
  | DOUBLE_TO_LONG => CheckUnaryOpWide opts inst LongLo LongHi DoubleLo DoubleHi
  | DOUBLE_TO_FLOAT => CheckUnaryOpFromWide opts inst Float DoubleLo DoubleHi
  | INT_TO_BYTE => CheckUnaryOp opts inst Byte Integer
  | INT_TO_CHAR => CheckUnaryOp opts inst Char Integer
  | INT_TO_SHORT => CheckUnaryOp opts inst Short Integer
  | _ => undefined
  end.

Definition VerifyInt (c : Code) (inst : Instruction) : Flow () :=
  match c with
  | ADD_INT | SUB_INT | MUL_INT | REM_INT | DIV_INT | SHL_INT | SHR_INT | USHR_INT =>
      CheckBinaryOp opts inst Integer Integer Integer false
  | AND_INT | OR_INT | XOR_INT => CheckBinaryOp opts inst Integer Integer Integer true
  | _ => undefined
  end.

Definition VerifyLong (c : Code) (inst : Instruction) : Flow () :=
  match c with
  | ADD_LONG | SUB_LONG | MUL_LONG | DIV_LONG | REM_LONG | AND_LONG | OR_LONG | XOR_LONG =>
      CheckBinaryOpWide opts inst LongLo LongHi LongLo LongHi LongLo LongHi
  | SHL_LONG | SHR_LONG | USHR_LONG => CheckBinaryOpWideShift opts inst LongLo LongHi Integer
  | _ => undefined
  end.

Definition VerifyFloat (c : Code) (inst : Instruction) : Flow () :=
  match c with
  | ADD_FLOAT | SUB_FLOAT | MUL_FLOAT | DIV_FLOAT | REM_FLOAT =>
      CheckBinaryOp opts inst Float Float Float false
  | ADD_DOUBLE | SUB_DOUBLE | MUL_DOUBLE | DIV_DOUBLE | REM_DOUBLE =>
      CheckBinaryOpWide opts inst DoubleLo DoubleHi DoubleLo DoubleHi DoubleLo DoubleHi
  | _ => undefined
  end.

Definition VerifyInt2Addr (c : Code) (inst : Instruction) : Flow () :=
  match c with
  | ADD_INT_2ADDR | SUB_INT_2ADDR | MUL_INT_2ADDR | REM_INT_2ADDR | SHL_INT_2ADDR | SHR_INT_2ADDR
  | USHR_INT_2ADDR | DIV_INT_2ADDR => CheckBinaryOp2addr opts inst Integer Integer Integer false
  | AND_INT_2ADDR | OR_INT_2ADDR | XOR_INT_2ADDR =>
      CheckBinaryOp2addr opts inst Integer Integer Integer true
  | _ => undefined
  end.

Definition VerifyLong2Addr (c : Code) (inst : Instruction) : Flow () :=
  match c with
  | ADD_LONG_2ADDR | SUB_LONG_2ADDR | MUL_LONG_2ADDR | DIV_LONG_2ADDR | REM_LONG_2ADDR
  | AND_LONG_2ADDR | OR_LONG_2ADDR | XOR_LONG_2ADDR =>
      CheckBinaryOp2addrWide opts inst LongLo LongHi LongLo LongHi LongLo LongHi
  | SHL_LONG_2ADDR | SHR_LONG_2ADDR | USHR_LONG_2ADDR =>
      CheckBinaryOp2addrWideShift opts inst LongLo LongHi Integer
  | _ => undefined
  end.

Definition VerifyFloat2Addr (c : Code) (inst : Instruction) : Flow () :=
  match c with
  | ADD_FLOAT_2ADDR | SUB_FLOAT_2ADDR | MUL_FLOAT_2ADDR | DIV_FLOAT_2ADDR | REM_FLOAT_2ADDR =>
      CheckBinaryOp2addr opts inst Float Float Float false
  | ADD_DOUBLE_2ADDR | SUB_DOUBLE_2ADDR | MUL_DOUBLE_2ADDR | DIV_DOUBLE_2ADDR
  | REM_DOUBLE_2ADDR =>
      CheckBinaryOp2addrWide opts inst DoubleLo DoubleHi DoubleLo DoubleHi DoubleLo DoubleHi
  | _ => undefined
  end.

Definition VerifyLit (c : Code) (inst : Instruction) : Flow () :=
  match c with
  | ADD_INT_LIT16 | RSUB_INT | MUL_INT_LIT16 | DIV_INT_LIT16 | REM_INT_LIT16 =>
      CheckLiteralOp opts inst Integer Integer false true
  | AND_INT_LIT16 | OR_INT_LIT16 | XOR_INT_LIT16 => CheckLiteralOp opts inst Integer Integer true true
  | ADD_INT_LIT8 | RSUB_INT_LIT8 | MUL_INT_LIT8 | DIV_INT_LIT8 | REM_INT_LIT8 | SHL_INT_LIT8
  | SHR_INT_LIT8 | USHR_INT_LIT8 => CheckLiteralOp opts inst Integer Integer false false
  | AND_INT_LIT8 | OR_INT_LIT8 | XOR_INT_LIT8 => CheckLiteralOp opts inst Integer Integer true false
  | _ => undefined
  end.

(** The functions above in the order of the [switch]. *)
Definition VerifyRegisters (return_type : RegType) (c : Code) : Code -> Instruction -> Flow () :=
  if between NOP c MOVE_RESULT_OBJECT then VerifyMove
  else if between RETURN_VOID c RETURN_OBJECT then VerifyReturn return_type
  else if between CONST_4 c CONST_STRING_JUMBO then VerifyConst
  else if between MONITOR_ENTER c MONITOR_EXIT || is_code ARRAY_LENGTH c || is_code THROW c
  then VerifyObject
  else if between GOTO c SPARSE_SWITCH then VerifyGoto
  else if between CMPL_FLOAT c CMP_LONG then VerifyCompare
  else if between IF_EQ c IF_LE then VerifyIf
  else if between IF_EQZ c IF_LEZ then VerifyIfZ
  else if between AGET c AGET_SHORT || between APUT c APUT_SHORT || is_code FILL_ARRAY_DATA c
  then VerifyArray
  else if between NEG_INT c INT_TO_SHORT then VerifyUnary
  else if between ADD_INT c USHR_INT then VerifyInt
  else if between ADD_LONG c USHR_LONG then VerifyLong
  else if between ADD_FLOAT c REM_DOUBLE then VerifyFloat
  else if between ADD_INT_2ADDR c USHR_INT_2ADDR then VerifyInt2Addr
  else if between ADD_LONG_2ADDR c USHR_LONG_2ADDR then VerifyLong2Addr
  else if between ADD_FLOAT_2ADDR c REM_DOUBLE_2ADDR then VerifyFloat2Addr
  else if between ADD_INT_LIT16 c USHR_INT_LIT8 then VerifyLit
  else fun _ _ => undefined.
End Instructions.
