(* ===== verification/FlowFacts.v ===== *)
(** * Verification without a failure

    Operations of [RegisterLine] and [InstructionTypes] only ever append to [failures_].  A run
    is [clean] when it appends nothing; the lemmas tell what the clean runs of each operation
    have read, checked and written. *)
From stdpp Require Import list gmap fin_maps.
From S2P Require Import Prelude.
From S2P Require Import Runtime.
From S2P Require Import Descriptors.
From S2P Require Import MirrorClass.
From S2P Require Import RegType.
From S2P Require Import RegTypeFacts.
From S2P Require Import RegisterLine.
From S2P Require Import DexInstruction.
From S2P Require Import InstructionTypes.
Local Open Scope Z_scope.

Create HintDb appends discriminated.

(** ** Failures are only appended *)

(** What only a failure changes. *)
Definition same_pending (s s' : VerifierState) : Prop :=
  have_pending_hard_failure_ s' = have_pending_hard_failure_ s /\
  have_pending_runtime_throw_failure_ s' = have_pending_runtime_throw_failure_ s /\
  saved_line_ s' = saved_line_ s.

Definition appends {A} (m : Flow A) : Prop :=
  forall s x s', m s = Some (x, s') ->
    exists l, failures_ s' = failures_ s ++ l /\ (l = [] -> same_pending s s').

Definition clean {A} (m : Flow A) (s : VerifierState) (x : A) (s' : VerifierState) : Prop :=
  m s = Some (x, s') /\ failures_ s' = failures_ s.

Lemma same_pending_trans s s1 s2 : same_pending s s1 -> same_pending s1 s2 -> same_pending s s2.
Proof. intros (? & ? & ?) (? & ? & ?). split_and!; congruence. Qed.

Lemma appends_pure {A} (m : Flow A) :
  (forall s x s', m s = Some (x, s') -> failures_ s' = failures_ s /\ same_pending s s') -> appends m.
Proof. intros H s x s' E. exists []. rewrite app_nil_r. destruct (H _ _ _ E). by split. Qed.

Lemma appends_ret {A} (x : A) : appends (mret x).
Proof. apply appends_pure. by intros s y s' [= -> ->]. Qed.

Lemma flow_bind_inv {A B} (m : Flow A) (f : A -> Flow B) s x s' : (m ≫= f) s = Some (x, s') ->
  exists y s1, m s = Some (y, s1) /\ f y s1 = Some (x, s').
Proof. unfold mbind, Flow_bind. destruct (m s) as [[y s1]|]; [eauto|done]. Qed.

Lemma appends_bind {A B} (m : Flow A) (f : A -> Flow B) :
  appends m -> (forall x, appends (f x)) -> appends (m ≫= f).
Proof.
  intros Hm Hf s x s' (y & s1 & E & E')%flow_bind_inv.
  destruct (Hm s y s1 E) as (l & El & Pl). destruct (Hf y s1 x s' E') as (k & Ek & Pk).
  exists (l ++ k). split; [by rewrite Ek, El, app_assoc|].
  intros [-> ->]%app_eq_nil. eapply same_pending_trans; [by apply Pl|by apply Pk].
Qed.

Lemma clean_bind {A B} (m : Flow A) (f : A -> Flow B) s x s' :
  appends m -> (forall y, appends (f y)) -> clean (m ≫= f) s x s' ->
  exists y s1, clean m s y s1 /\ clean (f y) s1 x s'.
Proof.
  intros Hm Hf [(y & s1 & E & E')%flow_bind_inv Hs]. exists y, s1.
  destruct (Hm s y s1 E) as (l & El & _). destruct (Hf y s1 x s' E') as (k & Ek & _).
  rewrite El, <- app_assoc in Ek. rewrite Hs in Ek.
  assert (Hlk : l ++ k = []) by (apply (f_equal length) in Ek; rewrite length_app in Ek;
    destruct (l ++ k); [done|cbn in Ek; lia]).
  apply app_eq_nil in Hlk as [-> ->]. rewrite app_nil_r in El. rewrite app_nil_r in Ek.
  split; split; congruence.
Qed.

Lemma clean_pending {A} (m : Flow A) s x s' : appends m -> clean m s x s' -> same_pending s s'.
Proof.
  intros Hm (E & Hf). destruct (Hm s x s' E) as (l & El & Hl). apply Hl.
  rewrite Hf in El. by apply app_inv_head with (l := failures_ s); rewrite app_nil_r.
Qed.

Lemma clean_ret {A} (x y : A) s s' : clean (mret x) s y s' -> y = x /\ s' = s.
Proof. by intros [[= -> ->] _]. Qed.

Lemma appends_get_line : appends get_line.
Proof. apply appends_pure. by intros s x s' [= <- <-]. Qed.
Lemma appends_get_cache : appends get_cache.
Proof. apply appends_pure. by intros s x s' [= <- <-]. Qed.
Lemma appends_put_line l : appends (put_line l).
Proof. apply appends_pure. by intros s x s' [= <- <-]. Qed.
Lemma appends_require {A} (o : option A) : appends (require o).
Proof. apply appends_pure. intros s x s'. unfold require. destruct o; [by intros [= <- <-]|done]. Qed.
Lemma appends_undefined {A} : appends (@undefined A).
Proof. by intros s x s'. Qed.
Lemma appends_with_cache f : appends (with_cache f).
Proof.
  apply appends_pure. intros s x s'. unfold with_cache.
  destruct (f (reg_types_ s)) as [[c t]|]; [by intros [= <- <-]|done].
Qed.

#[export] Hint Resolve appends_ret appends_get_line appends_get_cache appends_put_line
  appends_require appends_undefined appends_with_cache : appends.

(** [appends_tac] goes through an operation; [clean_inv] takes the clean run of one apart. *)
Ltac appends_tac :=
  repeat match goal with
  | |- appends (_ ≫= _) => apply appends_bind; [|intros ?]
  | |- appends (if ?b then _ else _) => destruct b
  | |- appends (let '(_, _) := ?p in _) => destruct p
  | |- appends (match ?p with pair _ _ => _ end) => destruct p
  | |- appends _ => solve [auto with appends]
  end.

Section Lines.
Context {CL : ClassLinker} (opts : Options).

Lemma appends_Fail e : appends (Fail opts e).
Proof. intros s x s' [= <- <-]. by eexists. Qed.
Hint Resolve appends_Fail : appends.

Lemma Fail_not_clean e s x s' : ~ clean (Fail opts e) s x s'.
Proof.
  intros [[= <- <-] E]. cbn in E. apply (f_equal length) in E. rewrite length_app in E. cbn in E. lia.
Qed.

Lemma appends_GetRegisterType v : appends (GetRegisterType v).
Proof. unfold GetRegisterType. appends_tac. Qed.
Hint Resolve appends_GetRegisterType : appends.
Lemma appends_SetRegisterType v t : appends (SetRegisterType opts v t).
Proof. unfold SetRegisterType. appends_tac. Qed.
Lemma appends_SetRegisterTypeWide v t1 t2 : appends (SetRegisterTypeWide opts v t1 t2).
Proof. unfold SetRegisterTypeWide. appends_tac. Qed.
Lemma appends_assignable t t' : appends (assignable t t').
Proof. apply appends_require. Qed.
Hint Resolve appends_SetRegisterType appends_SetRegisterTypeWide appends_assignable : appends.
Lemma appends_VerifyRegisterType v t : appends (VerifyRegisterType opts v t).
Proof. unfold VerifyRegisterType. appends_tac. Qed.
Lemma appends_VerifyRegisterTypeWide v t1 t2 : appends (VerifyRegisterTypeWide opts v t1 t2).
Proof. unfold VerifyRegisterTypeWide. appends_tac. Qed.
Hint Resolve appends_VerifyRegisterType appends_VerifyRegisterTypeWide : appends.
Lemma appends_both a b : appends a -> appends b -> appends (both a b).
Proof. intros. unfold both. appends_tac. Qed.
Lemma appends_has_boolean v : appends (has_boolean v).
Proof. unfold has_boolean. appends_tac. Qed.
End Lines.

#[export] Hint Resolve appends_Fail appends_GetRegisterType appends_SetRegisterType
  appends_SetRegisterTypeWide appends_assignable appends_VerifyRegisterType
  appends_VerifyRegisterTypeWide appends_both appends_has_boolean : appends.

Ltac clean_inv :=
  repeat match goal with
  | H : clean (_ ≫= _) _ _ _ |- _ =>
      let y := fresh "y" in let s1 := fresh "s" in let H' := fresh "H" in
      apply clean_bind in H as (y & s1 & H' & H); [|appends_tac|intros ?; appends_tac]
  | H : clean (Fail _ _) _ _ _ |- _ => destruct (Fail_not_clean _ _ _ _ _ H)
  | H : clean (mret _) _ _ _ |- _ => apply clean_ret in H as [? ?]; subst
  | H : clean (undefined) _ _ _ |- _ => destruct H as [H _]; discriminate H
  | H : clean (if ?b then _ else _) _ _ _ |- _ => destruct b eqn:?
  end.

(** ** Clean runs *)

Definition line_of (s : VerifierState) : list Z := line_ (work_line_ s).

Definition result_of (s : VerifierState) : Z * Z := result_ (work_line_ s).

(** Register [v] has the type [t]. *)
Definition reg_is (s : VerifierState) (v : Z) (t : RegType) : Prop :=
  0 <= v /\ exists id, line_of s !! Z.to_nat v = Some id /\ GetFromId (reg_types_ s) id = Some t.

Definition in_line (s : VerifierState) (v : Z) : Prop := 0 <= v < Z.of_nat (length (line_of s)).

Lemma reg_is_in_line s v t : reg_is s v t -> in_line s v.
Proof. intros (H & id & E & _). apply lookup_lt_Some in E. unfold in_line. lia. Qed.

(** The cache is the same and the register [v] has got the type [t]. *)
Definition sets (s s' : VerifierState) (v : Z) (t : RegType) : Prop :=
  in_line s v /\ reg_types_ s' = reg_types_ s /\ result_of s' = result_of s /\
  line_of s' = <[Z.to_nat v := GetId t]> (line_of s).

Definition sets_wide (s s' : VerifierState) (v : Z) (t1 t2 : RegType) : Prop :=
  in_line s v /\ in_line s (v + 1) /\ reg_types_ s' = reg_types_ s /\ result_of s' = result_of s /\
  line_of s' = <[Z.to_nat (v + 1) := GetId t2]> (<[Z.to_nat v := GetId t1]> (line_of s)).

Section Clean.
Context {CL : ClassLinker} (opts : Options).

Lemma clean_get v s t s' : clean (GetRegisterType v) s t s' -> s' = s /\ reg_is s v t.
Proof.
  intros [E _]. unfold GetRegisterType, mbind, Flow_bind, get_line, get_cache, require, id_at in E.
  destruct (Z.leb_spec 0 v); [|done].
  destruct (line_ (work_line_ s) !! Z.to_nat v) as [id|] eqn:El; [|done].
  destruct (GetFromId (reg_types_ s) id) as [t'|] eqn:Et; [|done]. injection E as <- <-.
  split; [done|]. split; [done|]. by exists id.
Qed.

Lemma store_id_inv i id l l' : store_id i id l = Some l' ->
  0 <= i < Z.of_nat (length (line_ l)) /\ l' = set_line_ (<[Z.to_nat i := id]> (line_ l)) l.
Proof.
  unfold store_id, num_regs_. destruct (Z.leb_spec 0 i); [|done]. destruct (Z.ltb_spec i (Z.of_nat (length (line_ l)))); [|done].
  cbn. intros [= <-]. split; [lia|done].
Qed.

Lemma run_require {A} (o : option A) s x s' : require o s = Some (x, s') -> o = Some x /\ s' = s.
Proof. unfold require. destruct o; [by intros [= -> ->]|done]. Qed.

Lemma clean_require {A} (o : option A) s x s' : clean (require o) s x s' -> o = Some x /\ s' = s.
Proof. intros [E _]. by apply run_require. Qed.

Lemma clean_get_line s l s' : clean get_line s l s' -> l = work_line_ s /\ s' = s.
Proof. by intros [[= -> ->] _]. Qed.

Lemma clean_set v t s b s' : clean (SetRegisterType opts v t) s b s' ->
  b = true /\ sets s s' v t /\ IsLowHalf t = false /\ IsHighHalf t = false.
Proof.
  unfold SetRegisterType. intros H. clean_inv. apply orb_false_iff in Heqb0 as [? ?].
  apply clean_get_line in H0 as [-> ->]. apply clean_require in H1 as [E ->].
  apply store_id_inv in E as [Hi ->]. destruct H2 as [[= <-] _].
  split; [done|]. split; [|done]. subst. by split_and!.
Qed.

Lemma clean_set_wide v t1 t2 s b s' : clean (SetRegisterTypeWide opts v t1 t2) s b s' ->
  b = true /\ sets_wide s s' v t1 t2 /\ CheckWidePair t1 t2 = true.
Proof.
  unfold SetRegisterTypeWide. intros H. clean_inv. apply negb_false_iff in Heqb0.
  apply clean_get_line in H0 as [-> ->]. apply clean_require in H1 as [E ->].
  apply store_id_inv in E as [Hi ->]. apply clean_require in H2 as [E ->].
  apply store_id_inv in E as [Hj ->]. destruct H3 as [[= <-] _]. subst.
  split; [done|]. split; [|done]. unfold sets_wide. split_and!; try done. cbn in Hj.
  rewrite length_insert in Hj. unfold in_line, line_of. lia.
Qed.

Lemma clean_verify v t s b s' : clean (VerifyRegisterType opts v t) s b s' ->
  b = true /\ s' = s /\ exists src, reg_is s v src /\ IsAssignableFrom t src = Some true /\
    (IsLowHalf t = true -> exists h, reg_is s (v + 1) h).
Proof.
  unfold VerifyRegisterType, assignable. cbv zeta. intros H. clean_inv.
  all: apply clean_get in H0 as [-> H0]; apply clean_require in H1 as [E ->];
    apply negb_false_iff in Heqb0 as ->.
  - apply clean_get in H2 as [-> H2]. split; [done|]. split; [done|]. eexists. split; [done|].
    split; [done|]. eauto.
  - split; [done|]. split; [done|]. exists y. split; [done|]. split; [done|]. congruence.
Qed.

Lemma clean_verify_wide v t1 t2 s b s' : clean (VerifyRegisterTypeWide opts v t1 t2) s b s' ->
  b = true /\ s' = s /\ exists src h, reg_is s v src /\ reg_is s (v + 1) h /\ CheckWidePair src h = true.
Proof.
  unfold VerifyRegisterTypeWide, assignable. intros H. clean_inv.
  apply clean_get in H0 as [-> H0]. apply clean_require in H1 as [E ->].
  apply clean_get in H2 as [-> H2]. apply negb_false_iff in Heqb1. eauto 8.
Qed.

Lemma clean_both a b s x s' : appends a -> appends b -> clean (both a b) s x s' ->
  exists y s1, clean a s y s1 /\ (y = true -> clean b s1 x s') /\ (y = false -> x = false /\ s' = s1).
Proof.
  unfold both. intros Ha Hb H. apply clean_bind in H as (y & s1 & Hy & H); [|exact Ha|intros []; [exact Hb|apply appends_ret]].
  exists y, s1. split; [done|]. destruct y; [by split|]. split; [done|]. intros _.
  by apply clean_ret in H.
Qed.

Lemma clean_has_boolean v s x s' : clean (has_boolean v) s x s' ->
  s' = s /\ exists t, reg_is s v t /\ x = IsBooleanTypes t.
Proof.
  unfold has_boolean. intros H. clean_inv. apply clean_get in H0 as [-> H0]. eauto.
Qed.
End Clean.
