(* ===== verification/FrameTypes.v ===== *)
(** * Frames that a register line describes

    The registers of a [ShadowFrame] against the types of a [RegisterLine], and the reads and
    writes of a frame that correspond to the checks and writes of a line. *)
From stdpp Require Import list gmap fin_maps.
From S2P Require Import Prelude.
From S2P Require Import Runtime.
From S2P Require Import ShadowFrame.
From S2P Require Import Descriptors.
From S2P Require Import MirrorClass.
From S2P Require Import RegType.
From S2P Require Import RegTypeFacts.
From S2P Require Import RegisterLine.
From S2P Require Import FlowFacts.
Local Open Scope Z_scope.

Section Frames.
Context {CL : ClassLinker} {Laws : ClassLinkerLaws CL} {Obj : Objects}.

(** Every register of [f] holds what its type in [ids] says. *)
Definition described (c : RegTypeCache) (ids : list Z) (f : ShadowFrame) : Prop :=
  frame_ok f /\ length ids = length (vregs_ f) /\
  forall i id v r, ids !! i = Some id -> vregs_ f !! i = Some v -> references_ f !! i = Some r ->
    exists t, GetFromId c id = Some t /\ has_type c t v r.

(** The result of the last call against the types of the result register. *)
Definition result_described (c : RegTypeCache) (ids : Z * Z) (j : JValue) : Prop :=
  exists t h, GetFromId c (fst ids) = Some t /\ GetFromId c (snd ids) = Some h /\
    (IsReferenceTypes t = true -> is_u 32 (GetL j) /\ has_type c t (GetL j) (GetL j)) /\
    (IsReferenceTypes t = false -> has_type c t (u32 (GetI j)) 0) /\
    (IsLowHalf t = true -> has_type c t (u32 (GetJ j)) 0 /\ has_type c h (u32 (GetJ j ≫ 32)) 0).

Definition safe (s : VerifierState) (f : ShadowFrame) (j : JValue) : Prop :=
  cache_ok (reg_types_ s) /\ described (reg_types_ s) (line_of s) f /\
  result_described (reg_types_ s) (result_of s) j.

(** ** Reads *)

Lemma safe_length s f j v : safe s f j -> in_line s v -> 0 <= v < number_of_vregs_ f.
Proof. intros (_ & ((Hn & _) & Hl & _) & _). unfold in_line. lia. Qed.

Lemma safe_reg s f j v t : safe s f j -> reg_is s v t ->
  exists x r, reg_at (vregs_ f) v = Some x /\ reg_at (references_ f) v = Some r /\
    is_u 32 x /\ (r = 0 \/ r = x) /\ is_entry (reg_types_ s) t /\ has_type (reg_types_ s) t x r.
Proof.
  intros (Hok & (Hf & Hl & Hd) & _) (Hv & id & Hid & Ht).
  destruct Hf as (Hn & Hlr & Hu & _ & Hroots). pose proof (lookup_lt_Some _ _ _ Hid) as Hlt.
  destruct (lookup_lt_is_Some_2 (vregs_ f) (Z.to_nat v)) as (x & Hx); [lia|].
  destruct (lookup_lt_is_Some_2 (references_ f) (Z.to_nat v)) as (r & Hr); [lia|].
  destruct (Hd _ _ _ _ Hid Hx Hr) as (t' & Ht' & Hty).
  assert (t' = t) as -> by congruence. exists x, r. unfold reg_at.
  destruct (Z.leb_spec 0 v); [|lia]. split_and!; try done.
  - by eapply (Forall_lookup_1 _ _ _ _ Hu).
  - destruct (Hroots _ _ Hr); [by left|right]. congruence.
  - by exists (Z.to_nat id).
Qed.

(** The types of a wide value do not depend on the reference. *)
Definition wide_half (t : RegType) : bool := IsLowHalf t || IsHighHalf t.

Lemma wide_half_value c t v r r' : wide_half t = true -> has_type c t v r -> has_type c t v r'.
Proof. unfold wide_half. by kinds t. Qed.

Lemma wide_pair_halves t h : CheckWidePair t h = true -> wide_half t = true /\ wide_half h = true.
Proof. unfold CheckWidePair, wide_half. kinds t; by kinds h. Qed.

Lemma category1_value c t v r : IsCategory1Types t = true \/ IsConflict t = true -> has_type c t v r ->
  has_type c t v 0.
Proof. intros [H|H]; kinds t. by intros (? & _). Qed.

Lemma reference_value c t v r : cache_ok c -> is_entry c t -> IsReferenceTypes t = true \/ IsConflict t = true ->
  has_type c t v r -> has_type c t r r.
Proof.
  intros Hok Ht H. assert (Hplain : forall e, IsReferenceTypes e = true -> base_type e v r -> base_type e r r).
  { intros e He. kinds e. unfold IsReferenceTypes, IsZero, ConstantValue in He. cbn in He.
    apply Z.eqb_eq in He. cbn. rewrite He. by intros (_ & ->). }
  destruct H as [H|H]; [|by kinds t].
  unfold has_type. destruct (kind t) eqn:Ek; try by apply Hplain.
  destruct (merged_parts c t _ _ Hok Ht Ek) as ((e & He & Hent & Hres) & Hids).
  intros [(e' & He' & Hb)|(id & e' & Hid & He' & Hb)].
  - left. exists e'. split; [done|]. apply Hplain; [|done].
    assert (e' = e) as -> by congruence. apply Hres.
  - right. exists id, e'. split; [done|]. split; [done|]. apply Hplain; [|done].
    destruct (Hids id Hid) as (e2 & He2 & _ & Hun). assert (e' = e2) as -> by congruence.
    unfold IsReferenceTypes. destruct Hun as (Hun & _). by kinds e2.
Qed.

(** ** Writes *)

Lemma described_write c ids f i t x r : cache_ok c -> described c ids f -> is_entry c t ->
  0 <= i < number_of_vregs_ f -> is_u 32 x -> r = 0 \/ r = x -> has_type c t x r ->
  described c (<[Z.to_nat i := GetId t]> ids) (write1 i x r f).
Proof.
  intros Hok (Hf & Hl & Hd) Ht Hi Hx Hr Hty.
  destruct (write1_ok i x r f Hf Hi Hx Hr) as (Hf' & _). split; [done|]. cbn.
  split; [by rewrite !length_insert|]. intros k id v ref. destruct Hf as (Hn & Hlr & _).
  destruct (decide (Z.to_nat i = k)) as [<-|Hne].
  - rewrite !list_lookup_insert_eq by lia. intros [= <-] [= <-] [= <-].
    exists t. split; [by apply entry_from_id|done].
  - rewrite !list_lookup_insert_ne by done. apply Hd.
Qed.

Lemma described_grows n c c' ids f : grows n c c' -> described c ids f -> described c' ids f.
Proof.
  intros Hg (Hf & Hl & Hd). split; [done|]. split; [done|]. intros i id v r Hid Hv Hr.
  destruct (Hd i id v r Hid Hv Hr) as (t & Ht & Hty). exists t.
  eauto using from_id, has_type_grows.
Qed.

Lemma safe_write s s' v t f j x r : safe s f j -> sets s s' v t -> is_entry (reg_types_ s) t ->
  is_u 32 x -> r = 0 \/ r = x -> has_type (reg_types_ s) t x r -> safe s' (write1 v x r f) j.
Proof.
  intros Hs Hsets Ht Hx Hr Hty. pose proof (safe_length s f j v Hs (proj1 Hsets)) as Hv.
  destruct Hs as (Hok & Hd & Hres), Hsets as (Hin & Hc & Hresult & Hline).
  unfold safe. rewrite Hc, Hresult, Hline. split; [done|]. split; [|done]. by apply described_write.
Qed.

Lemma safe_set s s' v t f j x : safe s f j -> sets s s' v t -> is_entry (reg_types_ s) t ->
  has_type (reg_types_ s) t (u32 x) 0 -> exists f', SetVReg f v x = Some f' /\ safe s' f' j.
Proof.
  intros Hs Hsets Ht Hty. pose proof (safe_length s f j v Hs (proj1 Hsets)) as Hv.
  rewrite SetVReg_eq by (done || apply Hs). eexists. split; [done|].
  eapply (safe_write s); try done; [by apply (u_range 32)|by left].
Qed.

Lemma safe_set_reference s s' v t f j x : safe s f j -> sets s s' v t -> is_entry (reg_types_ s) t ->
  has_type (reg_types_ s) t (u32 x) (u32 x) ->
  exists f', SetVRegReference f v x = Some f' /\ safe s' f' j.
Proof.
  intros Hs Hsets Ht Hty. pose proof (safe_length s f j v Hs (proj1 Hsets)) as Hv.
  rewrite SetVRegReference_eq by (done || apply Hs). eexists. split; [done|].
  eapply (safe_write s); try done; [by apply (u_range 32)|by right].
Qed.

Lemma safe_set_double s s' v t1 t2 f j x : safe s f j -> sets_wide s s' v t1 t2 ->
  is_entry (reg_types_ s) t1 -> is_entry (reg_types_ s) t2 ->
  has_type (reg_types_ s) t1 (u32 x) 0 -> has_type (reg_types_ s) t2 (u32 (x ≫ 32)) 0 ->
  exists f', SetVRegDouble f v x = Some f' /\ safe s' f' j.
Proof.
  intros Hs (Hin & Hin' & Hc & Hresult & Hline) Ht1 Ht2 Hty1 Hty2.
  pose proof (safe_length s f j v Hs Hin) as Hv. pose proof (safe_length s f j _ Hs Hin') as Hv'.
  rewrite SetVRegDouble_eq by (lia || apply Hs). eexists. split; [done|].
  destruct Hs as (Hok & Hd & Hres). unfold safe. rewrite Hc, Hresult, Hline.
  split; [done|]. split; [|done].
  apply described_write; try done; [|by apply (u_range 32)|by left].
  apply described_write; try done; [by apply (u_range 32)|by left].
Qed.

Lemma safe_set_long s s' v t1 t2 f j x : safe s f j -> sets_wide s s' v t1 t2 ->
  is_entry (reg_types_ s) t1 -> is_entry (reg_types_ s) t2 ->
  has_type (reg_types_ s) t1 (u32 x) 0 -> has_type (reg_types_ s) t2 (u32 (x ≫ 32)) 0 ->
  exists f', SetVRegLong f v x = Some f' /\ safe s' f' j.
Proof.
  intros Hs Hsets Ht1 Ht2 Hty1 Hty2. unfold SetVRegLong. apply (safe_set_double s s' v t1 t2); try done.
  - replace (u32 (u64 x)) with (u32 x); [done|]. word_lia.
  - replace (u32 (u64 x ≫ 32)) with (u32 (x ≫ 32)); [done|].
    rewrite !Z.shiftr_div_pow2 by lia. word_lia.
Qed.

Lemma result_described_grows n c c' ids j : grows n c c' -> result_described c ids j -> result_described c' ids j.
Proof.
  intros Hg (t & h & Ht & Hh & H1 & H2 & H3). exists t, h. split_and!; eauto using from_id.
  - intros E. destruct (H1 E). eauto using has_type_grows.
  - eauto using has_type_grows.
  - intros E. destruct (H3 E). eauto using has_type_grows.
Qed.

Lemma safe_cache n s c f j : grows n (reg_types_ s) c -> cache_ok c -> safe s f j -> safe (set_cache c s) f j.
Proof.
  intros Hg Hc (_ & Hd & Hr). split; [done|].
  split; [by eapply described_grows|by eapply result_described_grows].
Qed.

(** After [move-result] the result has no type. *)
Lemma safe_no_result s s' f j h : safe s f j -> reg_types_ s' = reg_types_ s -> line_of s' = line_of s ->
  result_of s' = (GetId Undefined, h) -> h = snd (result_of s) \/ h = GetId Undefined -> safe s' f j.
Proof.
  intros (Hok & Hd & (_ & e & _ & He & _)) Ec El Er Hh. unfold safe. rewrite Ec, El, Er.
  assert (Hu : GetFromId (reg_types_ s) (GetId Undefined) = Some Undefined).
  { apply entry_from_id; [done|]. apply primitive_entry; [done|].
    unfold primitives. apply elem_of_app. left. by left. }
  split; [done|]. split; [done|].
  exists Undefined, (if decide (h = snd (result_of s)) then e else Undefined). cbn [fst snd].
  split_and!; try done. case_decide; subst; [done|]. destruct Hh as [?| ->]; done.
Qed.

(** ** Constants *)

Lemma const_has_type c t v r : (exists k, const_kind ImpreciseConstType k t /\ imprecise_range k (s32 v)) \/
  const_kind PreciseConstType (s32 v) t /\ r = 0 -> has_type c t v r.
Proof.
  intros [(k & Hk & Hr)|(Hk & ->)].
  - rewrite has_type_base by (by eapply (const_kind_plain ImpreciseConstType)). by eapply imprecise_base.
  - destruct Hk as (k & Hk & Hs). unfold has_type, base_type. by rewrite Hk.
Qed.
End Frames.
