(* ===== verification/LineMerge.v ===== *)
(** * Merging register lines is sound

    [RegisterLine::MergeRegisters]: a frame that one of the lines describes is described by the
    merged line, and a merge that reports no change has not changed the registers. *)
From stdpp Require Import list gmap fin_maps.
From S2P Require Import Prelude.
From S2P Require Import Runtime.
From S2P Require Import ShadowFrame.
From S2P Require Import Descriptors.
From S2P Require Import MirrorClass.
From S2P Require Import RegType.
From S2P Require Import RegTypeFacts.
From S2P Require Import RegisterLine.
From S2P Require Import FlowFacts.
From S2P Require Import FrameTypes.
From S2P Require Import RegTypeSafety.
From S2P Require Import CacheInvariant.
Local Open Scope Z_scope.

Section Merge.
Context {CL : ClassLinker} {Laws : ClassLinkerLaws CL} {Obj : Objects}.

(** The register [id] has a type. *)
Definition typed (c : RegTypeCache) (id : Z) : Prop := 0 <= id /\ exists t, GetFromId c id = Some t.

Definition typed_line (c : RegTypeCache) (ids : list Z) : Prop := Forall (typed c) ids.

(** No register is an object under construction in one of the lines and [java.lang.Object] or an
    unresolved type in the other. *)
Definition mergeable (c : RegTypeCache) (ids incoming : list Z) : Prop :=
  Forall2 (fun id id' => forall t t', GetFromId c id = Some t -> GetFromId c id' = Some t' ->
    keeps_initialization c t t') ids incoming.

Lemma typed_grows n c c' id : grows n c c' -> typed c id -> typed c' id.
Proof. intros Hg (Hi & t & Ht). split; [done|]. exists t. by eapply from_id. Qed.

Lemma typed_line_grows n c c' ids : grows n c c' -> typed_line c ids -> typed_line c' ids.
Proof. intros Hg H. eapply Forall_impl; [exact H|]. intros id. by eapply typed_grows. Qed.

Lemma initialized_grows n c c' t : cache_ok c -> is_entry c t -> grows n c c' -> initialized c t -> initialized c' t.
Proof.
  intros Hok Ht Hg (Hi & Hp). split; [done|]. destruct (kind t) eqn:Ek; try done.
  destruct (merged_parts c t _ _ Hok Ht Ek) as ((e' & He' & _) & Hids). destruct Hp as (Hp & Hp'). split.
  - intros e He. apply Hp. apply (from_id _ _ _ _ _ Hg) in He' as He2. congruence.
  - intros id e Hid He. apply (Hp' id); [done|]. destruct (Hids id Hid) as (e2 & He2 & _).
    apply (from_id _ _ _ _ _ Hg) in He2 as He3. congruence.
Qed.

Lemma keeps_initialization_grows n c c' t t' : cache_ok c -> is_entry c t -> is_entry c t' -> grows n c c' ->
  keeps_initialization c t t' -> keeps_initialization c' t t'.
Proof.
  intros Hok Ht Ht' Hg [?|[?|[(Hi & Hi')|?]]]; [by left|by right; left| |by right; right; right].
  right. right. left. split; by eapply initialized_grows.
Qed.

Lemma typed_id c id t : cache_ok c -> 0 <= id -> GetFromId c id = Some t -> GetId t = id.
Proof. intros Hok Hi H. unfold GetId. rewrite (ok_ids c Hok _ _ H). lia. Qed.

(** What a merged register describes. *)
Definition merged (c c' : RegTypeCache) (id id' new : Z) : Prop :=
  typed c' new /\ forall m, GetFromId c' new = Some m -> forall t t', GetFromId c id = Some t -> GetFromId c id' = Some t' ->
    above c c' t t' m.

Lemma merge_register c id id' : cache_ok c -> room 2 c -> typed c id -> typed c id' -> id <> id' ->
  (forall t t', GetFromId c id = Some t -> GetFromId c id' = Some t' -> keeps_initialization c t t') ->
  exists t t' c' m, GetFromId c id = Some t /\ GetFromId c id' = Some t' /\ Merge t t' c = Some (c', m) /\
    grows 2 c c' /\ cache_ok c' /\ merged c c' id id' (GetId m) /\ (Equals t m = true -> GetId m = id).
Proof.
  intros Hok Hroom (Hi & t & Ht) (Hi' & t' & Ht') Hne Hk.
  assert (Htt : t <> t').
  { intros ->. apply Hne. rewrite <- (typed_id c id t'), <- (typed_id c id' t') by done. done. }
  destruct (merge_outcome c t t' Hok Hroom) as (c' & m & E & Hg & Hok' & Hm & Ha);
    [by exists (Z.to_nat id)|by exists (Z.to_nat id')|done|].
  exists t, t', c', m. split_and!; try done.
  - split; [split; [|exists m; by apply entry_from_id]|].
    + destruct Hm as (i & Hm). unfold GetId. rewrite (ok_ids c' Hok' i m Hm). lia.
    + intros m' Hm'. rewrite entry_from_id in Hm' by done. injection Hm' as <-.
      intros t2 t2' Ht2 Ht2'. assert (t2 = t) as -> by congruence. assert (t2' = t') as -> by congruence.
      apply Ha. by apply Hk.
  - unfold Equals. intros E'%Z.eqb_eq. rewrite <- (typed_id c id t) by done. unfold GetId in *. congruence.
Qed.

Lemma merged_same c c' n id : cache_ok c -> grows n c c' -> typed c id -> merged c c' id id id.
Proof.
  intros Hok Hg Ht. split; [by eapply typed_grows|]. intros m Hm t t' Ht1 Ht2 v r Hv.
  assert (t' = t) as -> by congruence. pose proof (from_id _ _ _ _ _ Hg Ht1).
  assert (m = t) as -> by congruence. destruct Hv; by eapply has_type_grows.
Qed.

Lemma merged_grows n c c1 c2 id id' new : grows n c1 c2 -> merged c c1 id id' new -> merged c c2 id id' new.
Proof.
  intros Hg (Hn & Ha). split; [by eapply typed_grows|]. intros m Hm t t' Ht Ht' v r Hv.
  destruct Hn as (_ & m1 & Hm1). pose proof (from_id _ _ _ _ _ Hg Hm1). assert (m1 = m) as -> by congruence.
  eapply has_type_grows; [done|]. by apply (Ha m Hm1 t t').
Qed.

Lemma merged_before n c0 c c' id id' new : grows n c0 c -> typed c0 id -> typed c0 id' -> merged c c' id id' new ->
  merged c0 c' id id' new.
Proof.
  intros Hg (_ & t1 & Ht1) (_ & t2 & Ht2) (Hn & Ha). split; [done|]. intros m Hm t t' Ht Ht' v r Hv.
  apply (Ha m Hm t t'); [by eapply from_id..|]. destruct Hv; [left|right]; by eapply has_type_grows.
Qed.

Lemma mergeable_grows n c c' ids incoming : cache_ok c -> grows n c c' -> typed_line c ids -> typed_line c incoming ->
  mergeable c ids incoming -> mergeable c' ids incoming.
Proof.
  intros Hok Hg Hids Hinc Hm. induction Hm as [|id id' ids incoming Hk Hm IH]; [constructor|].
  apply Forall_cons in Hids as ((_ & t & Ht) & Hids). apply Forall_cons in Hinc as ((_ & t' & Ht') & Hinc).
  constructor; [|by apply IH]. intros e e' He He'.
  pose proof (from_id _ _ _ _ _ Hg Ht). pose proof (from_id _ _ _ _ _ Hg Ht').
  assert (e = t) as -> by congruence. assert (e' = t') as -> by congruence.
  eapply keeps_initialization_grows; [done|by exists (Z.to_nat id)|by exists (Z.to_nat id')|done|by apply Hk].
Qed.

Definition merged_line (c c' : RegTypeCache) (ids incoming new : list Z) : Prop :=
  Forall2 (fun p new => merged c c' (fst p) (snd p) new) (zip ids incoming) new.

Lemma merged_line_before n c0 c c' ids incoming new : grows n c0 c -> typed_line c0 ids -> typed_line c0 incoming ->
  merged_line c c' ids incoming new -> merged_line c0 c' ids incoming new.
Proof.
  unfold merged_line. intros Hg. revert incoming new. induction ids as [|id ids IH]; intros [|id' incoming] new Hids Hinc Hm;
    try (by inversion Hm; subst; constructor).
  cbn [zip] in *. inversion Hm as [|? new1 ? new' Hm1 Hm2]; subst.
  apply Forall_cons in Hids as (Hid & Hids). apply Forall_cons in Hinc as (Hid' & Hinc).
  constructor; [by eapply merged_before|by apply IH].
Qed.

Lemma merge_types ids : forall incoming c, cache_ok c -> room (2 * length ids) c ->
  typed_line c ids -> typed_line c incoming -> mergeable c ids incoming ->
  exists c' new changed, MergeTypes ids incoming c = Some (c', new, changed) /\
    grows (2 * length ids) c c' /\ cache_ok c' /\ (changed = false -> new = ids) /\
    merged_line c c' ids incoming new.
Proof.
  induction ids as [|id ids IH]; intros incoming c Hok Hroom Hids Hinc Hm.
  { inversion Hm; subst. exists c, [], false. split; [done|]. split; [apply grows_refl|]. split; [done|]. split; [done|constructor]. }
  inversion Hm as [|? id' ? incoming' Hk Hm']; subst. apply Forall_cons in Hids as (Hid & Hids).
  apply Forall_cons in Hinc as (Hid' & Hinc). cbn [MergeTypes].
  assert (Hstep : exists c1 new1 changed1,
    (if negb (id =? id') then
       incoming_reg_type ← GetFromId c id'; cur_type ← GetFromId c id;
       '(c, new_type) ← Merge cur_type incoming_reg_type c;
       Some (c, GetId new_type, negb (Equals cur_type new_type))
     else Some (c, id, false)) = Some (c1, new1, changed1) /\
    grows 2 c c1 /\ cache_ok c1 /\ (changed1 = false -> new1 = id) /\ merged c c1 id id' new1).
  { destruct (Z.eqb_spec id id') as [->|Hne]; cbn [negb].
    - exists c, id', false. split; [done|]. split; [eapply (grows_weaken 0); [lia|apply grows_refl]|].
      split; [done|]. split; [done|]. eapply (merged_same c c 0); [done|apply grows_refl|done].
    - destruct (merge_register c id id' Hok) as (t & t' & c1 & m & Et & Et' & Em & Hg & Hok1 & Hmerged & Heq); try done.
      { eapply room_weaken; [|exact Hroom]. cbn; lia. }
      exists c1, (GetId m), (negb (Equals t m)). rewrite Et, Et'. cbn [mbind option_bind]. rewrite Em.
      split; [done|]. split; [done|]. split; [done|]. split; [|done]. intros E. by apply negb_false_iff, Heq in E. }
  destruct Hstep as (c1 & new1 & changed1 & -> & Hg1 & Hok1 & Hsame1 & Hm1). cbn [mbind option_bind].
  destruct (IH incoming' c1) as (c2 & new & changed & -> & Hg2 & Hok2 & Hsame2 & Hm2); try done.
  { eapply (grows_room 2); [exact Hg1|]. replace (2 + 2 * length ids)%nat with (2 * length (id :: ids))%nat by (cbn; lia). done. }
  { by eapply typed_line_grows. } { by eapply typed_line_grows. }
  { by apply (mergeable_grows 2 c). }
  cbn [mbind option_bind]. exists c2, (new1 :: new), (changed1 || changed). split; [done|]. split_and!.
  - replace (2 * length (id :: ids))%nat with (2 + 2 * length ids)%nat by (cbn; lia). by eapply grows_trans.
  - done.
  - intros (E1 & E2)%orb_false_iff. by rewrite Hsame1, Hsame2.
  - cbn [zip]. constructor; [by eapply merged_grows|]. by apply (merged_line_before 2 c c1).
Qed.

Lemma merged_line_length c c' ids incoming new : merged_line c c' ids incoming new -> length ids = length incoming ->
  length new = length ids.
Proof. intros H Hl. apply Forall2_length in H. rewrite length_zip in H. lia. Qed.

Lemma merged_line_typed c c' ids incoming new : merged_line c c' ids incoming new -> typed_line c' new.
Proof. unfold merged_line. induction 1 as [|p n l l' (Hn & _) _ IH]; constructor; done. Qed.

Lemma merged_described c c' ids incoming new f : typed_line c ids -> typed_line c incoming ->
  length ids = length incoming -> merged_line c c' ids incoming new ->
  described c ids f \/ described c incoming f -> described c' new f.
Proof.
  intros Hids Hinc Hl Hm Hd. pose proof (merged_line_length _ _ _ _ _ Hm Hl) as Hn.
  assert (Hf : frame_ok f /\ length ids = length (vregs_ f)).
  { destruct Hd as [(? & ? & _)|(? & ? & _)]; split; congruence. }
  split; [apply Hf|]. split; [by rewrite Hn; apply Hf|]. intros i nid v r Hnew Hv Hr.
  apply lookup_lt_Some in Hnew as Hlt. destruct (lookup_lt_is_Some_2 ids i) as (id & Hid); [lia|].
  destruct (lookup_lt_is_Some_2 incoming i) as (id' & Hid'); [lia|].
  assert (Hz : zip ids incoming !! i = Some (id, id')) by (by rewrite lookup_zip_with, Hid, Hid').
  destruct (Forall2_lookup_lr _ _ _ _ _ _ Hm Hz Hnew) as ((_ & m & Hmm) & Ha). cbn [fst snd] in Ha.
  destruct (Forall_lookup_1 _ _ _ _ Hids Hid) as (_ & t & Ht).
  destruct (Forall_lookup_1 _ _ _ _ Hinc Hid') as (_ & t' & Ht').
  exists m. split; [done|]. apply (Ha m Hmm t t' Ht Ht' v r).
  destruct Hd as [(_ & _ & Hd)|(_ & _ & Hd)]; [left|right].
  - destruct (Hd i id v r Hid Hv Hr) as (e & He & Hty). assert (e = t) as -> by congruence. done.
  - destruct (Hd i id' v r Hid' Hv Hr) as (e & He & Hty). assert (e = t') as -> by congruence. done.
Qed.

(** [MergeRegisters] on two lines of one method. *)
Lemma merge_lines l incoming c : cache_ok c -> room (2 * length (line_ l)) c -> typed_line c (line_ l) ->
  typed_line c (line_ incoming) -> mergeable c (line_ l) (line_ incoming) ->
  exists c' l' changed, MergeLines l incoming c = Some (c', l', changed) /\
    grows (2 * length (line_ l)) c c' /\ cache_ok c' /\ typed_line c' (line_ l') /\
    result_ l' = result_ l /\ (changed = false -> line_ l' = line_ l) /\
    (forall f, described c (line_ l) f \/ described c (line_ incoming) f -> described c' (line_ l') f).
Proof.
  intros Hok Hroom Hl Hi Hm. unfold MergeLines.
  destruct (merge_types (line_ l) (line_ incoming) c Hok Hroom Hl Hi Hm) as (c' & new & changed & E & Hg & Hok' & Hsame & Hmerged).
  rewrite E. cbn [mbind option_bind]. cbv zeta. eexists c', _, _. split; [done|]. cbn [line_ result_]. split_and!; try done.
  - by eapply merged_line_typed.
  - intros (-> & _)%orb_false_iff. by apply Hsame.
  - intros f Hf. eapply (merged_described c _ (line_ l) (line_ incoming)); try done. by apply Forall2_length in Hm.
Qed.

End Merge.

(** ** Two paths to one instruction *)
Module TwoPaths.
Import SmallLinker.

Definition path (t0 t1 : RegType) : RegisterLine :=
  mkLine (GetId Undefined, GetId Undefined) [] ∅ true [GetId t0; GetId t1].
Definition arrived : VerifierState :=
  mkState cache (path tB Integer) (path tB Integer) [] false false ∅.

End TwoPaths.
