(* ===== verification/DexFileVerifier.v ===== *)
(** * The dex file verifier ([dex_file_verifier.{h,cc}])

    A pointer into the file is its offset from [begin_]; the file is mapped at the address [base_],
    a multiple of 4, and [size_] is the length of its bytes.  A check is an action on the state of
    the verifier that answers [true] or [false]; [Fault] is a read outside the file (which the code
    makes without noticing) or a failed [CHECK], and [OutOfFuel] never happens (see
    [verify_terminates]).  [failure_reason_] is the format string of the message, without its
    arguments. *)
From stdpp Require Import fin_maps gmap strings.
From S2P Require Import Prelude.
From S2P Require Import Leb128.
From S2P Require Import Utf.
From S2P Require Import DexFile.
From S2P Require Import ClassData.
From S2P Require Import TryCatch.
From S2P Require Import DebugInfo.
From S2P Require Import Descriptors.
Local Open Scope Z_scope.

(** ** Constants and raw structures *)

Definition kDexEndianConstant : Z := 0x12345678.

Definition kDexTypeHeaderItem : Z := 0x0000.
Definition kDexTypeStringIdItem : Z := 0x0001.
Definition kDexTypeTypeIdItem : Z := 0x0002.
Definition kDexTypeProtoIdItem : Z := 0x0003.
Definition kDexTypeFieldIdItem : Z := 0x0004.
Definition kDexTypeMethodIdItem : Z := 0x0005.
Definition kDexTypeClassDefItem : Z := 0x0006.
Definition kDexTypeMapList : Z := 0x1000.
Definition kDexTypeTypeList : Z := 0x1001.
Definition kDexTypeAnnotationSetRefList : Z := 0x1002.
Definition kDexTypeAnnotationSetItem : Z := 0x1003.
Definition kDexTypeClassDataItem : Z := 0x2000.
Definition kDexTypeCodeItem : Z := 0x2001.
Definition kDexTypeStringDataItem : Z := 0x2002.
Definition kDexTypeDebugInfoItem : Z := 0x2003.
Definition kDexTypeAnnotationItem : Z := 0x2004.
Definition kDexTypeEncodedArrayItem : Z := 0x2005.
Definition kDexTypeAnnotationsDirectoryItem : Z := 0x2006.

Definition kDexVisibilityBuild : Z := 0x00.
Definition kDexVisibilityRuntime : Z := 0x01.
Definition kDexVisibilitySystem : Z := 0x02.

Definition kDexAnnotationByte : Z := 0x00.
Definition kDexAnnotationShort : Z := 0x02.
Definition kDexAnnotationChar : Z := 0x03.
Definition kDexAnnotationInt : Z := 0x04.
Definition kDexAnnotationLong : Z := 0x06.
Definition kDexAnnotationFloat : Z := 0x10.
Definition kDexAnnotationDouble : Z := 0x11.
Definition kDexAnnotationString : Z := 0x17.
Definition kDexAnnotationType : Z := 0x18.
Definition kDexAnnotationField : Z := 0x19.
Definition kDexAnnotationMethod : Z := 0x1a.
Definition kDexAnnotationEnum : Z := 0x1b.
Definition kDexAnnotationArray : Z := 0x1c.
Definition kDexAnnotationAnnotation : Z := 0x1d.
Definition kDexAnnotationNull : Z := 0x1e.
Definition kDexAnnotationBoolean : Z := 0x1f.
Definition kDexAnnotationValueTypeMask : Z := 0x1f.
Definition kDexAnnotationValueArgShift : Z := 5.

Definition kAccJavaFlagsMask : Z := 0xffff.

Definition MapTypeToBitMask (map_type : Z) : Z :=
  if map_type =? kDexTypeHeaderItem then 1 ≪ 0
  else if map_type =? kDexTypeStringIdItem then 1 ≪ 1
  else if map_type =? kDexTypeTypeIdItem then 1 ≪ 2
  else if map_type =? kDexTypeProtoIdItem then 1 ≪ 3
  else if map_type =? kDexTypeFieldIdItem then 1 ≪ 4
  else if map_type =? kDexTypeMethodIdItem then 1 ≪ 5
  else if map_type =? kDexTypeClassDefItem then 1 ≪ 6
  else if map_type =? kDexTypeMapList then 1 ≪ 7
  else if map_type =? kDexTypeTypeList then 1 ≪ 8
  else if map_type =? kDexTypeAnnotationSetRefList then 1 ≪ 9
  else if map_type =? kDexTypeAnnotationSetItem then 1 ≪ 10
  else if map_type =? kDexTypeClassDataItem then 1 ≪ 11
  else if map_type =? kDexTypeCodeItem then 1 ≪ 12
  else if map_type =? kDexTypeStringDataItem then 1 ≪ 13
  else if map_type =? kDexTypeDebugInfoItem then 1 ≪ 14
  else if map_type =? kDexTypeAnnotationItem then 1 ≪ 15
  else if map_type =? kDexTypeEncodedArrayItem then 1 ≪ 16
  else if map_type =? kDexTypeAnnotationsDirectoryItem then 1 ≪ 17
  else 0.

Definition IsDataSectionType (map_type : Z) : bool :=
  negb ((map_type =? kDexTypeHeaderItem) || (map_type =? kDexTypeStringIdItem)
        || (map_type =? kDexTypeTypeIdItem) || (map_type =? kDexTypeProtoIdItem)
        || (map_type =? kDexTypeFieldIdItem) || (map_type =? kDexTypeMethodIdItem)
        || (map_type =? kDexTypeClassDefItem)).

(** ** The verifier's state and actions *)

Record VerifierState := mkVerifier {
  ptr_ : Z;
  previous_item_ : option Z;       (* [None] is [nullptr] *)
  failure_reason_ : string;
  offset_to_type_map_ : gmap Z Z;
  defined_classes_ : gset Z;
}.

Inductive Outcome (A : Type) := Done (a : A) (st : VerifierState) | Fault | OutOfFuel.
Arguments Done {A}.
Arguments Fault {A}.
Arguments OutOfFuel {A}.

Definition V (A : Type) : Type := VerifierState -> Outcome A.
#[export] Instance V_ret : MRet V := fun A a st => Done a st.
#[export] Instance V_bind : MBind V := fun A B k m st =>
  match m st with Done a st => k a st | Fault => Fault | OutOfFuel => OutOfFuel end.

(** A read of memory. *)
Definition lift {A} (x : option A) : V A := fun st => match x with Some a => Done a st | None => Fault end.
Definition out_of_fuel {A} : V A := fun _ => OutOfFuel.

Definition get_ptr : V Z := fun st => Done (ptr_ st) st.
Definition set_ptr (p : Z) : V unit := fun st =>
  Done tt (mkVerifier p (previous_item_ st) (failure_reason_ st) (offset_to_type_map_ st) (defined_classes_ st)).
Definition advance_ptr (n : Z) : V unit := p ← get_ptr; set_ptr (p + n).
Definition get_previous : V (option Z) := fun st => Done (previous_item_ st) st.
Definition set_previous (p : option Z) : V unit := fun st =>
  Done tt (mkVerifier (ptr_ st) p (failure_reason_ st) (offset_to_type_map_ st) (defined_classes_ st)).
Definition get_reason : V string := fun st => Done (failure_reason_ st) st.
Definition get_map : V (gmap Z Z) := fun st => Done (offset_to_type_map_ st) st.
Definition get_classes : V (gset Z) := fun st => Done (defined_classes_ st) st.

Definition ErrorStringPrintf (fmt : string) : V unit := fun st =>
  Done tt (mkVerifier (ptr_ st) (previous_item_ st) fmt (offset_to_type_map_ st) (defined_classes_ st)).

(** [SafeMap::Put] keeps the element that is there ([std::map::emplace]). *)
Definition PutOffsetType (offset type : Z) : V unit := fun st =>
  Done tt (mkVerifier (ptr_ st) (previous_item_ st) (failure_reason_ st)
    (match offset_to_type_map_ st !! offset with
     | Some _ => offset_to_type_map_ st
     | None => <[offset := type]> (offset_to_type_map_ st)
     end) (defined_classes_ st)).
Definition InsertClass (class_idx : Z) : V unit := fun st =>
  Done tt (mkVerifier (ptr_ st) (previous_item_ st) (failure_reason_ st) (offset_to_type_map_ st)
    ({[class_idx]} ∪ defined_classes_ st)).

(** [ErrorStringPrintf(fmt, ...); return false;] *)
Definition reject (fmt : string) : V bool := ErrorStringPrintf fmt;; mret false.
(** [if (!c) { ErrorStringPrintf(fmt, ...); return false; } return true;] *)
Definition check (c : bool) (fmt : string) : V bool := if c then mret true else reject fmt.

(** [if (!m) { return false; } k] *)
Definition and_then (m k : V bool) : V bool := b ← m; if b : bool then k else mret false.
Notation "'ensure' m ;; k" := (and_then m k) (at level 100, m at level 99, k at level 200, right associativity,
  format "'ensure'  m ;; '//' k").

(** [for (i = 0; i < n; i++) { if (!body(i)) return false; } return true;]: [n] rounds from [i] on. *)
Fixpoint for_each (n : nat) (i : Z) (body : Z -> V bool) : V bool :=
  match n with
  | O => mret true
  | S n => ensure body i;; for_each n (i + 1) body
  end.

(** The same with variables the rounds change. *)
Fixpoint for_each_with {A} (n : nat) (i : Z) (a : A) (body : Z -> A -> V (bool * A)) : V (bool * A) :=
  match n with
  | O => mret (true, a)
  | S n => '(b, a) ← body i a; if b : bool then for_each_with n (i + 1) a body else mret (false, a)
  end.

Section Verifier.
Variables (df : DexFile) (base_ : Z).
(** zlib's [adler32(adler32(0, Z_NULL, 0), ptr, length)] of the bytes from [ptr] on. *)
Variable adler32 : list Z -> Z.

Definition hdr : Header := DexFile.header_ df.

(** The little-endian field of [n] bytes at a pointer. *)
Definition field (n : nat) (off : Z) : V Z := lift (rd n off (begin_ df)).

(** [Decode...Leb128(&ptr_)]. *)
Definition decode (reader : list Z -> option (Z * list Z)) : V Z :=
  p ← get_ptr;
  '(v, rest) ← lift (reader (drop (Z.to_nat p) (begin_ df)));
  set_ptr (Size df - Z.of_nat (length rest));;
  mret v.

(** [*ptr_], and [*(ptr_++)]. *)
Definition byte_at_ptr : V Z := p ← get_ptr; field 1 p.
Definition next_byte : V Z := b ← byte_at_ptr; advance_ptr 1;; mret b.

(** ** Ranges and indices *)

(** [size_t] and [uintptr_t] are 64 bits wide. *)
Definition CheckListSize (start count elem_size : Z) : V bool :=
  let available_bytes_till_end_of_mem := u64 (u64 (0 - 1) - u64 (base_ + start)) in
  let max_count := available_bytes_till_end_of_mem / elem_size in
  if max_count <? count then reject "Overflow in range for %s: %zx for %zu@%zu"
  else
    let range_end := start + count * elem_size in
    check (negb ((start <? 0) || (Size df <? range_end))) "Bad range for %s: %zx to %zx".

(** The pointer is always [&ptr_]. *)
Definition CheckList (element_size : Z) : V bool :=
  p ← get_ptr;
  ensure CheckListSize p 1 4;;
  count ← field 4 p;
  ensure (if 0 <? count then CheckListSize (p + 4) count element_size else mret true);;
  set_ptr (p + 4 + count * element_size);;
  mret true.

Definition CheckIndex (field limit : Z) : V bool :=
  check (field <? limit) "Bad index for %s: %x >= %x".

Definition CheckValidOffsetAndSize (offset size : Z) : V bool :=
  if (size =? 0) && negb (offset =? 0)
  then reject "Offset(%d) should be zero when size is zero for %s."
  else check (negb (Size df <=? offset)) "Offset(%d) should be within file size(%zu) for %s.".

(** ** Loading with an index check: the inner [None] is [nullptr]. *)

Definition CheckLoadStringByIdx (idx : Z) : V (option (list Z)) :=
  ok ← CheckIndex idx (NumStringIds df);
  if ok : bool then lift (StringDataByIdx df idx) else mret None.

Definition CheckLoadStringByTypeIdx (type_idx : Z) : V (option (list Z)) :=
  ok ← CheckIndex type_idx (NumTypeIds df);
  if ok : bool then idx ← lift (GetTypeId df type_idx); CheckLoadStringByIdx idx else mret None.

Definition CheckLoadFieldId (idx : Z) : V (option FieldId) :=
  ok ← CheckIndex idx (NumFieldIds df);
  if ok : bool then f ← lift (GetFieldId df idx); mret (Some f) else mret None.

Definition CheckLoadMethodId (idx : Z) : V (option MethodId) :=
  ok ← CheckIndex idx (NumMethodIds df);
  if ok : bool then m ← lift (GetMethodId df idx); mret (Some m) else mret None.

(** [LOAD_STRING], [LOAD_STRING_BY_TYPE]: return [false] on [nullptr]. *)
Definition LOAD_STRING (idx : Z) (k : list Z -> V bool) : V bool :=
  s ← CheckLoadStringByIdx idx;
  match s with None => mret false | Some s => k s end.
Definition LOAD_STRING_BY_TYPE (type_idx : Z) (k : list Z -> V bool) : V bool :=
  s ← CheckLoadStringByTypeIdx type_idx;
  match s with None => mret false | Some s => k s end.
(** [LOAD_FIELD], [LOAD_METHOD] with the statement for an error. *)
Definition LOAD_FIELD {A} (idx : Z) (error_stmt : V A) (k : FieldId -> V A) : V A :=
  f ← CheckLoadFieldId idx;
  match f with None => error_stmt | Some f => k f end.
Definition LOAD_METHOD {A} (idx : Z) (error_stmt : V A) (k : MethodId -> V A) : V A :=
  m ← CheckLoadMethodId idx;
  match m with None => error_stmt | Some m => k m end.

(** ** Header and map *)

Definition CheckHeader : V bool :=
  let expected_size := file_size_ hdr in
  ensure check (Size df =? expected_size) "Bad file size (%zd, expected %ud)";;
  (let non_sum := 8 + 4 in
   let adler_checksum := adler32 (load non_sum (Z.to_nat (expected_size - non_sum)) (begin_ df)) in
   ensure check (adler_checksum =? checksum_ hdr) "Bad checksum (%08x, expected %08x)";;
   ensure check (endian_tag_ hdr =? kDexEndianConstant) "Unexpected endian_tag: %x";;
   ensure check (header_size_ hdr =? 0x70) "Bad header size: %ud";;
   ensure CheckValidOffsetAndSize (link_off_ hdr) (link_size_ hdr);;
   ensure CheckValidOffsetAndSize (map_off_ hdr) (map_off_ hdr);;
   ensure CheckValidOffsetAndSize (string_ids_off_ hdr) (string_ids_size_ hdr);;
   ensure CheckValidOffsetAndSize (type_ids_off_ hdr) (type_ids_size_ hdr);;
   ensure CheckValidOffsetAndSize (proto_ids_off_ hdr) (proto_ids_size_ hdr);;
   ensure CheckValidOffsetAndSize (field_ids_off_ hdr) (field_ids_size_ hdr);;
   ensure CheckValidOffsetAndSize (method_ids_off_ hdr) (method_ids_size_ hdr);;
   ensure CheckValidOffsetAndSize (class_defs_off_ hdr) (class_defs_size_ hdr);;
   CheckValidOffsetAndSize (data_off_ hdr) (data_size_ hdr)).

Record MapItem := mkMapItem { type_ : Z; item_size_ : Z; offset_ : Z }.
Definition ReadMapItem (off : Z) : V MapItem :=
  t ← field 2 off; n ← field 4 (off + 4); o ← field 4 (off + 8);
  mret (mkMapItem t n o).
(** The [i]-th element of [map->list_]. *)
Definition map_item (i : Z) : V MapItem := ReadMapItem (map_off_ hdr + 4 + 12 * i).

(** The variables of the loop: [last_offset], [data_item_count], [data_items_left], [used_bits]. *)
Definition CheckMapItem (i : Z) (vars : Z * Z * Z * Z) : V (bool * (Z * Z * Z * Z)) :=
  let '(last_offset, data_item_count, data_items_left, used_bits) := vars in
  let fail fmt := ErrorStringPrintf fmt;; mret (false, vars) in
  item ← map_item i;
  if (offset_ item <=? last_offset) && negb (i =? 0) then fail "Out of order map item: %x then %x"
  else if file_size_ hdr <=? offset_ item then fail "Map item after end of file: %x, size %x"
  else
    let data := IsDataSectionType (type_ item) in
    if data && (data_items_left <? item_size_ item) then fail "Too many items in data section: %ud"
    else
      let data_items_left := if data then data_items_left - item_size_ item else data_items_left in
      let data_item_count := if data then u32 (data_item_count + item_size_ item) else data_item_count in
      let bit := MapTypeToBitMask (type_ item) in
      if bit =? 0 then fail "Unknown map section type %x"
      else if negb (Z.land used_bits bit =? 0) then fail "Duplicate map section of type %x"
      else mret (true, (offset_ item, data_item_count, data_items_left, Z.lor used_bits bit)).

(** A section the header mentions and the map does not. *)
Definition CheckSectionMapped (used_bits type off size : Z) (fmt : string) : V bool :=
  check (negb ((Z.land used_bits (MapTypeToBitMask type) =? 0) && (negb (off =? 0) || negb (size =? 0)))) fmt.

Definition CheckMap : V bool :=
  ensure CheckListSize (map_off_ hdr) 1 16;;
  count ← field 4 (map_off_ hdr);
  ensure CheckListSize (map_off_ hdr + 4) count 12;;
  '(ok, vars) ← for_each_with (Z.to_nat count) 0 (0, 0, data_size_ hdr, 0) CheckMapItem;
  if ok : bool then
    let used_bits := vars.2 in
    ensure check (negb (Z.land used_bits (MapTypeToBitMask kDexTypeHeaderItem) =? 0))
      "Map is missing header entry";;
    ensure check (negb (Z.land used_bits (MapTypeToBitMask kDexTypeMapList) =? 0))
      "Map is missing map_list entry";;
    ensure CheckSectionMapped used_bits kDexTypeStringIdItem (string_ids_off_ hdr) (string_ids_size_ hdr)
      "Map is missing string_ids entry";;
    ensure CheckSectionMapped used_bits kDexTypeTypeIdItem (type_ids_off_ hdr) (type_ids_size_ hdr)
      "Map is missing type_ids entry";;
    ensure CheckSectionMapped used_bits kDexTypeProtoIdItem (proto_ids_off_ hdr) (proto_ids_size_ hdr)
      "Map is missing proto_ids entry";;
    ensure CheckSectionMapped used_bits kDexTypeFieldIdItem (field_ids_off_ hdr) (field_ids_size_ hdr)
      "Map is missing field_ids entry";;
    ensure CheckSectionMapped used_bits kDexTypeMethodIdItem (method_ids_off_ hdr) (method_ids_size_ hdr)
      "Map is missing method_ids entry";;
    CheckSectionMapped used_bits kDexTypeClassDefItem (class_defs_off_ hdr) (class_defs_size_ hdr)
      "Map is missing class_defs entry"
  else mret false.

(** ** Checks within a section *)

(** [result |= *(ptr_++) << (i * 8)], [size] times; 0 when the range check fails. *)
Fixpoint ReadLittleEndianLoop (n : nat) (i result : Z) : V Z :=
  match n with
  | O => mret result
  | S n => b ← next_byte; ReadLittleEndianLoop n (i + 1) (Z.lor result (u32 (b ≪ (i * 8))))
  end.
Definition ReadUnsignedLittleEndian (size : Z) : V Z :=
  p ← get_ptr;
  ok ← CheckListSize p size 1;
  if ok : bool then ReadLittleEndianLoop (Z.to_nat size) 0 0 else mret 0.

(** [while (size-- > 0)]: the typed handlers of one list. *)
Definition CheckHandler (code_item _i : Z) : V bool :=
  type_idx ← decode DecodeUnsignedLeb128;
  ensure CheckIndex type_idx (type_ids_size_ hdr);;
  addr ← decode DecodeUnsignedLeb128;
  check (negb (insns_size_in_code_units_ (begin_ df) code_item <=? addr)) "Invalid handler addr: %x".

(** One iteration of the loop over the lists; the offsets are collected in [handler_offsets]. *)
Definition CheckHandlerList (code_item handlers_base : Z) (_i : Z) (handler_offsets : list Z)
  : V (bool * list Z) :=
  p ← get_ptr;
  let offset := p - handlers_base in
  size ← decode DecodeSignedLeb128;
  if (size <? -65536) || (65536 <? size) then
    ErrorStringPrintf "Invalid exception handler size: %d";; mret (false, handler_offsets)
  else
    let catch_all := size <=? 0 in
    let size := if size <=? 0 then - size else size in
    let handler_offsets := handler_offsets ++ [u32 offset] in
    ok ← for_each (Z.to_nat size) 0 (CheckHandler code_item);
    if negb ok then mret (false, handler_offsets)
    else if catch_all then
      addr ← decode DecodeUnsignedLeb128;
      ok ← check (negb (insns_size_in_code_units_ (begin_ df) code_item <=? addr))
             "Invalid handler catch_all_addr: %x";
      mret (ok, handler_offsets)
    else mret (true, handler_offsets).

Definition CheckAndGetHandlerOffsets (code_item handlers_size : Z) : V (bool * list Z) :=
  let handlers_base := GetCatchHandlerData (begin_ df) code_item 0 in
  for_each_with (Z.to_nat handlers_size) 0 [] (CheckHandlerList code_item handlers_base).

Definition CheckClassDataItemField (idx access_flags : Z) (expect_static : bool) : V bool :=
  ensure CheckIndex idx (field_ids_size_ hdr);;
  (let is_static := negb (Z.land access_flags kAccStatic =? 0) in
   ensure check (Bool.eqb is_static expect_static) "Static/instance field not in expected list";;
   check (Z.land access_flags (Z.lnot kAccJavaFlagsMask) =? 0)
     "Bad class_data_item field access_flags %x").

Definition CheckClassDataItemMethod (idx access_flags code_offset : Z) (expect_direct : bool) : V bool :=
  ensure CheckIndex idx (method_ids_size_ hdr);;
  (let has flags := negb (Z.land access_flags flags =? 0) in
   let is_direct := has (or_flags [kAccStatic; kAccPrivate; kAccConstructor]) in
   let expect_code := negb (has (or_flags [kAccNative; kAccAbstract])) in
   let is_synchronized := has kAccSynchronized in
   let allow_synchronized := has kAccNative in
   ensure check (Bool.eqb is_direct expect_direct) "Direct/virtual method not in expected list";;
   (let access_method_mask := or_flags [kAccJavaFlagsMask; kAccConstructor; kAccDeclaredSynchronized] in
    ensure check (negb (has (Z.lnot access_method_mask) || (is_synchronized && negb allow_synchronized)))
      "Bad class_data_item method access_flags %x";;
    if expect_code && (code_offset =? 0) then
      reject "Unexpected zero value for class_data_item method code_off with access flags %x"
    else if negb expect_code && negb (code_offset =? 0) then
      reject "Unexpected non-zero value %x for class_data_item method code_off with access flags %x"
    else mret true)).

(** [aligned_offset] is a [uint32_t]. *)
Definition CheckPadding (offset aligned_offset : Z) : V bool :=
  let aligned_offset := u32 aligned_offset in
  if offset <? aligned_offset then
    ensure CheckListSize offset (aligned_offset - offset) 1;;
    for_each (Z.to_nat (aligned_offset - offset)) offset (fun _ =>
      b ← byte_at_ptr;
      ensure check (b =? 0) "Non-zero padding %x before section start at %zx";;
      advance_ptr 1;;
      mret true)
  else mret true.

(** *** Encoded values

    [CheckEncodedValue], [CheckEncodedArray] and [CheckEncodedAnnotation] call each other: the
    last two take the check of a value as an argument. *)

Definition EncodedArray (check_value : V bool) : V bool :=
  size ← decode DecodeUnsignedLeb128;
  for_each (Z.to_nat size) 0 (fun _ =>
    b ← check_value;
    if b : bool then mret true
    else
      reason ← get_reason;
      ErrorStringPrintf ("Bad encoded_array value: " +:+ reason);;
      mret false).

Definition EncodedAnnotation (check_value : V bool) : V bool :=
  idx ← decode DecodeUnsignedLeb128;
  ensure CheckIndex idx (type_ids_size_ hdr);;
  size ← decode DecodeUnsignedLeb128;
  '(ok, _) ← for_each_with (Z.to_nat size) 0 0 (fun i last_idx =>
    idx ← decode DecodeUnsignedLeb128;
    ok ← CheckIndex idx (string_ids_size_ hdr);
    if negb ok then mret (false, last_idx)
    else if (idx <=? last_idx) && negb (i =? 0) then
      ErrorStringPrintf "Out-of-order annotation_element name_idx: %x then %x";; mret (false, last_idx)
    else
      ok ← check_value;
      mret (ok, idx));
  mret ok.

(** An index of [value_arg + 1] bytes into a table of the file. *)
Definition EncodedIndex (value_arg limit : Z) (fmt : string) : V bool :=
  if 3 <? value_arg then reject fmt
  else idx ← ReadUnsignedLittleEndian (value_arg + 1); CheckIndex idx limit.

Definition EncodedValue (check_value : V bool) : V bool :=
  p ← get_ptr;
  ensure CheckListSize p 1 1;;
  header_byte ← next_byte;
  let value_type := Z.land header_byte kDexAnnotationValueTypeMask in
  let value_arg := header_byte ≫ kDexAnnotationValueArgShift in
  if value_type =? kDexAnnotationByte then
    ensure check (value_arg =? 0) "Bad encoded_value byte size %x";; advance_ptr 1;; mret true
  else if (value_type =? kDexAnnotationShort) || (value_type =? kDexAnnotationChar) then
    ensure check (negb (1 <? value_arg)) "Bad encoded_value char/short size %x";;
    advance_ptr (value_arg + 1);; mret true
  else if (value_type =? kDexAnnotationInt) || (value_type =? kDexAnnotationFloat) then
    ensure check (negb (3 <? value_arg)) "Bad encoded_value int/float size %x";;
    advance_ptr (value_arg + 1);; mret true
  else if (value_type =? kDexAnnotationLong) || (value_type =? kDexAnnotationDouble) then
    advance_ptr (value_arg + 1);; mret true
  else if value_type =? kDexAnnotationString then
    EncodedIndex value_arg (string_ids_size_ hdr) "Bad encoded_value string size %x"
  else if value_type =? kDexAnnotationType then
    EncodedIndex value_arg (type_ids_size_ hdr) "Bad encoded_value type size %x"
  else if (value_type =? kDexAnnotationField) || (value_type =? kDexAnnotationEnum) then
    EncodedIndex value_arg (field_ids_size_ hdr) "Bad encoded_value field/enum size %x"
  else if value_type =? kDexAnnotationMethod then
    EncodedIndex value_arg (method_ids_size_ hdr) "Bad encoded_value method size %x"
  else if value_type =? kDexAnnotationArray then
    ensure check (value_arg =? 0) "Bad encoded_value array value_arg %x";; EncodedArray check_value
  else if value_type =? kDexAnnotationAnnotation then
    ensure check (value_arg =? 0) "Bad encoded_value annotation value_arg %x";;
    EncodedAnnotation check_value
  else if value_type =? kDexAnnotationNull then
    check (value_arg =? 0) "Bad encoded_value null value_arg %x"
  else if value_type =? kDexAnnotationBoolean then
    check (negb (1 <? value_arg)) "Bad encoded_value boolean size %x"
  else reject "Bogus encoded_value value_type %x".

(** Every nested value reads its header byte: the size of the file bounds the depth. *)
Fixpoint CheckEncodedValueFuel (fuel : nat) : V bool :=
  match fuel with
  | O => out_of_fuel
  | S fuel => EncodedValue (CheckEncodedValueFuel fuel)
  end.
Definition value_fuel : nat := S (length (begin_ df)).
Definition CheckEncodedValue : V bool := CheckEncodedValueFuel value_fuel.
Definition CheckEncodedArray : V bool := EncodedArray CheckEncodedValue.
Definition CheckEncodedAnnotation : V bool := EncodedAnnotation CheckEncodedValue.

(** *** Class data *)

(** [for (; has_next(it); it.Next()) { ... prev_index = curr_index; if (!member) return false; }].
    Every [Next] that leaves a member reads two bytes at least. *)
Fixpoint CheckMembers (fuel : nat) (has_next : ClassDataItemIterator -> bool)
  (member : ClassDataItemIterator -> V bool) (fmt : string) (prev_index : Z) (it : ClassDataItemIterator)
  : V (bool * ClassDataItemIterator) :=
  if has_next it then
    match fuel with
    | O => out_of_fuel
    | S fuel =>
        let curr_index := GetMemberIndex it in
        if curr_index <? prev_index then ErrorStringPrintf fmt;; mret (false, it)
        else
          ok ← member it;
          if negb ok then mret (false, it)
          else it ← lift (Next it); CheckMembers fuel has_next member fmt curr_index it
    end
  else mret (true, it).

Definition members_fuel : nat := S (S (length (begin_ df))).

Definition CheckIntraClassDataItem : V bool :=
  let field (expect_static : bool) it :=
    CheckClassDataItemField (GetMemberIndex it) (GetRawMemberAccessFlags it) expect_static in
  let method (expect_direct : bool) it :=
    CheckClassDataItemMethod (GetMemberIndex it) (GetRawMemberAccessFlags it)
      (GetMethodCodeItemOffset it) expect_direct in
  p ← get_ptr;
  it ← lift (MakeClassDataItemIterator (drop (Z.to_nat p) (begin_ df)));
  '(ok, it) ← CheckMembers members_fuel HasNextStaticField (field true)
     "out-of-order static field indexes %d and %d" 0 it;
  if negb ok then mret false else
  '(ok, it) ← CheckMembers members_fuel HasNextInstanceField (field false)
     "out-of-order instance field indexes %d and %d" 0 it;
  if negb ok then mret false else
  '(ok, it) ← CheckMembers members_fuel HasNextDirectMethod (method true)
     "out-of-order direct method indexes %d and %d" 0 it;
  if negb ok then mret false else
  '(ok, it) ← CheckMembers members_fuel HasNextVirtualMethod (method false)
     "out-of-order virtual method indexes %d and %d" 0 it;
  if negb ok then mret false else
  rest ← lift (EndDataPointer it);
  set_ptr (Size df - Z.of_nat (length rest));;
  mret true.

(** *** Code items *)

(** One try item, [last_addr] being the end of the previous one. *)
Definition CheckTryItem (code_item : Z) (handler_offsets : list Z) (i last_addr : Z) : V (bool * Z) :=
  let insns_size := insns_size_in_code_units_ (begin_ df) code_item in
  let fail fmt := ErrorStringPrintf fmt;; mret (false, last_addr) in
  try_items ← lift (ReadTryItem (begin_ df) (GetTryItems (begin_ df) code_item i));
  if start_addr_ try_items <? last_addr then fail "Out-of_order try_item with start_addr: %x"
  else if insns_size <=? start_addr_ try_items then fail "Invalid try_item start_addr: %x"
  else if negb (bool_decide (handler_off_ try_items ∈ handler_offsets)) then
    fail "Bogus handler offset: %x"
  else
    let last_addr := u32 (start_addr_ try_items + insn_count_ try_items) in
    if insns_size <? last_addr then fail "Invalid try_item insn_count: %x" else mret (true, last_addr).

Definition CheckIntraCodeItem : V bool :=
  code_item ← get_ptr;
  ensure CheckListSize code_item 1 20;;
  (let code := begin_ df in
   ensure check (negb (registers_size_ code code_item <? ins_size_ code code_item))
     "ins_size (%ud) > registers_size (%ud)";;
   ensure check (negb ((5 <? outs_size_ code code_item)
                       && (registers_size_ code code_item <? outs_size_ code code_item)))
     "outs_size (%ud) > registers_size (%ud)";;
   (let insns := code_item + 16 in
    let insns_size := insns_size_in_code_units_ code code_item in
    ensure CheckListSize insns insns_size 2;;
    (let try_items_size := tries_size_ code code_item in
     let insns_end := insns + 2 * insns_size in
     if try_items_size =? 0 then set_ptr insns_end;; mret true
     else
       padding ← (if negb (Z.land insns_end 3 =? 0) then field 2 insns_end else mret 0);
       ensure check (padding =? 0) "Non-zero padding: %x";;
       set_ptr (GetCatchHandlerData code code_item 0);;
       handlers_size ← decode DecodeUnsignedLeb128;
       ensure CheckListSize (GetTryItems code code_item 0) try_items_size 8;;
       ensure check (negb ((handlers_size =? 0) || (65536 <=? handlers_size)))
         "Invalid handlers_size: %ud";;
       '(ok, handler_offsets) ← CheckAndGetHandlerOffsets code_item handlers_size;
       if negb ok then mret false
       else
         '(ok, _) ← for_each_with (Z.to_nat try_items_size) 0 0 (CheckTryItem code_item handler_offsets);
         mret ok))).

(** *** Strings *)

Definition CheckStringChar (_i : Z) : V bool :=
  p ← get_ptr;
  ensure check (negb (Size df <=? p)) "String data would go beyond end-of-file";;
  byte ← next_byte;
  let high := byte ≫ 4 in
  if high =? 0x00 then
    check (negb (byte =? 0)) "String data shorter than indicated utf16_size %x"
  else if high <? 0x08 then mret true
  else if (high <? 0x0c) || (high =? 0x0f) then reject "Illegal start byte %x in string data"
  else if high <? 0x0e then
    byte2 ← next_byte;
    ensure check (Z.land byte2 0xc0 =? 0x80) "Illegal continuation byte %x in string data";;
    (let value := Z.lor (Z.land byte 0x1f ≪ 6) (Z.land byte2 0x3f) in
     check (negb (negb (value =? 0) && (value <? 0x80)))
       "Illegal representation for value %x in string data")
  else
    byte2 ← next_byte;
    ensure check (Z.land byte2 0xc0 =? 0x80) "Illegal continuation byte %x in string data";;
    byte3 ← next_byte;
    ensure check (Z.land byte3 0xc0 =? 0x80) "Illegal continuation byte %x in string data";;
    (let value := Z.lor (Z.lor (Z.land byte 0x0f ≪ 12) (Z.land byte2 0x3f ≪ 6)) (Z.land byte3 0x3f) in
     check (negb (value <? 0x800)) "Illegal representation for value %x in string data").

Definition CheckIntraStringDataItem : V bool :=
  size ← decode DecodeUnsignedLeb128;
  ensure for_each (Z.to_nat size) 0 CheckStringChar;;
  b ← next_byte;
  check (b =? 0) "String longer than indicated size %x".

(** *** Debug information *)

(** [uint32_t idx = DecodeUnsignedLeb128(&ptr_); if (idx != 0) { idx--; CheckIndex(...) }] *)
Definition CheckDebugIndex (limit : Z) : V bool :=
  idx ← decode DecodeUnsignedLeb128;
  if negb (idx =? 0) then CheckIndex (idx - 1) limit else mret true.

Definition CheckDebugRegister : V bool :=
  reg_num ← decode DecodeUnsignedLeb128;
  check (negb (65536 <=? reg_num)) "Bad reg_num for opcode %x".

(** One iteration after the opcode was read; an opcode without operands goes on. *)
Definition CheckDebugOpcode (opcode : Z) : V bool :=
  if opcode =? DBG_ADVANCE_PC then decode DecodeUnsignedLeb128;; mret true
  else if opcode =? DBG_ADVANCE_LINE then decode DecodeSignedLeb128;; mret true
  else if opcode =? DBG_START_LOCAL then
    ensure CheckDebugRegister;;
    ensure CheckDebugIndex (string_ids_size_ hdr);;
    CheckDebugIndex (type_ids_size_ hdr)
  else if (opcode =? DBG_END_LOCAL) || (opcode =? DBG_RESTART_LOCAL) then CheckDebugRegister
  else if opcode =? DBG_START_LOCAL_EXTENDED then
    ensure CheckDebugRegister;;
    ensure CheckDebugIndex (string_ids_size_ hdr);;
    ensure CheckDebugIndex (type_ids_size_ hdr);;
    CheckDebugIndex (string_ids_size_ hdr)
  else if opcode =? DBG_SET_FILE then CheckDebugIndex (string_ids_size_ hdr)
  else mret true.

Fixpoint CheckDebugLoop (fuel : nat) : V bool :=
  match fuel with
  | O => out_of_fuel
  | S fuel =>
      opcode ← next_byte;
      if opcode =? DBG_END_SEQUENCE then mret true
      else ensure CheckDebugOpcode opcode;; CheckDebugLoop fuel
  end.

Definition CheckIntraDebugInfoItem : V bool :=
  decode DecodeUnsignedLeb128;;
  parameters_size ← decode DecodeUnsignedLeb128;
  ensure check (negb (65536 <? parameters_size)) "Invalid parameters_size: %x";;
  ensure for_each (Z.to_nat parameters_size) 0 (fun _ => CheckDebugIndex (string_ids_size_ hdr));;
  CheckDebugLoop (S (length (begin_ df))).

(** *** Annotations *)

Definition CheckIntraAnnotationItem : V bool :=
  p ← get_ptr;
  ensure CheckListSize p 1 1;;
  visibility ← next_byte;
  ensure check ((visibility =? kDexVisibilityBuild) || (visibility =? kDexVisibilityRuntime)
                || (visibility =? kDexVisibilitySystem)) "Bad annotation visibility: %x";;
  CheckEncodedAnnotation.

(** The field, method and parameter annotations are lists of pairs of an index and an offset; the
    indices of a list at [list] increase. *)
Definition CheckAnnotationsList (list count : Z) (fmt : string) : V bool :=
  ensure CheckListSize list count 8;;
  '(ok, _) ← for_each_with (Z.to_nat count) 0 0 (fun i last_idx =>
    idx ← field 4 (list + 8 * i);
    if (idx <=? last_idx) && negb (i =? 0) then ErrorStringPrintf fmt;; mret (false, last_idx)
    else mret (true, idx));
  mret ok.

Definition CheckIntraAnnotationsDirectoryItem : V bool :=
  item ← get_ptr;
  ensure CheckListSize item 1 16;;
  field_count ← field 4 (item + 4);
  let field_item := item + 16 in
  ensure CheckAnnotationsList field_item field_count
    "Out-of-order field_idx for annotation: %x then %x";;
  method_count ← field 4 (item + 8);
  let method_item := field_item + 8 * field_count in
  ensure CheckAnnotationsList method_item method_count
    "Out-of-order method_idx for annotation: %x then %x";;
  parameter_count ← field 4 (item + 12);
  let parameter_item := method_item + 8 * method_count in
  ensure CheckAnnotationsList parameter_item parameter_count
    "Out-of-order method_idx for annotation: %x then %x";;
  set_ptr (parameter_item + 8 * parameter_count);;
  mret true.

(** *** Sections *)

(** [if (!CheckListSize(ptr_, 1, sizeof(T), ...)) return false; ptr_ += sizeof(T);] *)
Definition CheckFixedItem (size : Z) : V bool :=
  p ← get_ptr;
  ensure CheckListSize p 1 size;;
  advance_ptr size;;
  mret true.

Definition CheckIntraItem (type : Z) : V bool :=
  if type =? kDexTypeStringIdItem then CheckFixedItem 4
  else if type =? kDexTypeTypeIdItem then CheckFixedItem 4
  else if type =? kDexTypeProtoIdItem then CheckFixedItem 12
  else if type =? kDexTypeFieldIdItem then CheckFixedItem 8
  else if type =? kDexTypeMethodIdItem then CheckFixedItem 8
  else if type =? kDexTypeClassDefItem then CheckFixedItem 32
  else if type =? kDexTypeTypeList then CheckList 2
  else if type =? kDexTypeAnnotationSetRefList then CheckList 4
  else if type =? kDexTypeAnnotationSetItem then CheckList 4
  else if type =? kDexTypeClassDataItem then CheckIntraClassDataItem
  else if type =? kDexTypeCodeItem then CheckIntraCodeItem
  else if type =? kDexTypeStringDataItem then CheckIntraStringDataItem
  else if type =? kDexTypeDebugInfoItem then CheckIntraDebugInfoItem
  else if type =? kDexTypeAnnotationItem then CheckIntraAnnotationItem
  else if type =? kDexTypeEncodedArrayItem then CheckEncodedArray
  else if type =? kDexTypeAnnotationsDirectoryItem then CheckIntraAnnotationsDirectoryItem
  else reject "Unknown map item type %x".

Definition IntraAlignmentMask (type : Z) : Z :=
  if (type =? kDexTypeClassDataItem) || (type =? kDexTypeStringDataItem)
     || (type =? kDexTypeDebugInfoItem) || (type =? kDexTypeAnnotationItem)
     || (type =? kDexTypeEncodedArrayItem) then 1 - 1 else 4 - 1.

(** [(offset + alignment_mask) & ~alignment_mask] *)
Definition Align (alignment_mask offset : Z) : Z := Z.land (offset + alignment_mask) (Z.lnot alignment_mask).

(** One item of a section; the result is the offset after it. *)
Definition CheckIntraSectionItem (type : Z) (_i offset : Z) : V (bool * Z) :=
  let aligned_offset := Align (IntraAlignmentMask type) offset in
  ok ← CheckPadding offset aligned_offset;
  if negb ok then mret (false, offset) else
  ok ← CheckIntraItem type;
  if negb ok then mret (false, offset) else
  (if IsDataSectionType type then PutOffsetType (u32 aligned_offset) type else mret tt);;
  p ← get_ptr;
  ok ← check (negb (Size df <? p)) "Item %d at ends out of bounds";
  mret (ok, p).

Definition CheckIntraSectionIterate (offset section_count type : Z) : V bool :=
  '(ok, _) ← for_each_with (Z.to_nat section_count) 0 offset (CheckIntraSectionItem type);
  mret ok.

(** Offset and size of an id section in the header. *)
Definition expected_section (type : Z) : option (Z * Z) :=
  if type =? kDexTypeStringIdItem then Some (string_ids_off_ hdr, string_ids_size_ hdr)
  else if type =? kDexTypeTypeIdItem then Some (type_ids_off_ hdr, type_ids_size_ hdr)
  else if type =? kDexTypeProtoIdItem then Some (proto_ids_off_ hdr, proto_ids_size_ hdr)
  else if type =? kDexTypeFieldIdItem then Some (field_ids_off_ hdr, field_ids_size_ hdr)
  else if type =? kDexTypeMethodIdItem then Some (method_ids_off_ hdr, method_ids_size_ hdr)
  else if type =? kDexTypeClassDefItem then Some (class_defs_off_ hdr, class_defs_size_ hdr)
  else None.

Definition CheckIntraIdSection (offset count type : Z) : V bool :=
  match expected_section type with
  | None => reject "Bad type for id section: %x"
  | Some (expected_offset, expected_size) =>
      ensure check (offset =? expected_offset) "Bad offset for section: got %zx, expected %x";;
      ensure check (count =? expected_size) "Bad size for section: got %x, expected %x";;
      CheckIntraSectionIterate offset count type
  end.

Definition CheckIntraDataSection (offset count type : Z) : V bool :=
  let data_start := data_off_ hdr in
  let data_end := data_start + data_size_ hdr in
  ensure check (negb ((offset <? data_start) || (data_end <? offset)))
    "Bad offset for data subsection: %zx";;
  ensure CheckIntraSectionIterate offset count type;;
  next_offset ← get_ptr;
  check (negb (data_end <? next_offset)) "Out-of-bounds end of data subsection: %zx".

(** One section of the map; the result is the offset after it. *)
Definition CheckIntraSectionOf (map_size : Z) (i offset : Z) : V (bool * Z) :=
  item ← map_item i;
  let section_offset := offset_ item in
  let section_count := item_size_ item in
  let type := type_ item in
  let fail fmt := ErrorStringPrintf fmt;; mret (false, offset) in
  ok ← CheckPadding offset section_offset;
  if negb ok then mret (false, offset)
  else if section_offset <? offset then fail "Section overlap or out-of-order map: %zx, %x"
  else if type =? kDexTypeHeaderItem then
    if negb (section_count =? 1) then fail "Multiple header items"
    else if negb (section_offset =? 0) then fail "Header at %x, not at start of file"
    else set_ptr (header_size_ hdr);; mret (true, header_size_ hdr)
  else if type =? kDexTypeMapList then
    if negb (section_count =? 1) then fail "Multiple map list items"
    else if negb (section_offset =? map_off_ hdr) then
      fail "Map not at header-defined offset: %x, expected %x"
    else
      advance_ptr (4 + map_size * 12);; mret (true, section_offset + 4 + map_size * 12)
  else
    ok ← (match expected_section type with
          | Some _ => CheckIntraIdSection section_offset section_count type
          | None =>
              if bool_decide (type ∈ [kDexTypeTypeList; kDexTypeAnnotationSetRefList;
                   kDexTypeAnnotationSetItem; kDexTypeClassDataItem; kDexTypeCodeItem;
                   kDexTypeStringDataItem; kDexTypeDebugInfoItem; kDexTypeAnnotationItem;
                   kDexTypeEncodedArrayItem; kDexTypeAnnotationsDirectoryItem])
              then CheckIntraDataSection section_offset section_count type
              else reject "Unknown map item type %x"
          end);
    p ← get_ptr;
    mret (ok, if ok : bool then p else offset).

Definition CheckIntraSection : V bool :=
  count ← field 4 (map_off_ hdr);
  set_ptr 0;;
  '(ok, _) ← for_each_with (Z.to_nat count) 0 0 (CheckIntraSectionOf count);
  mret ok.

(** ** Checks between sections *)

Definition CheckOffsetToTypeMap (offset type : Z) : V bool :=
  m ← get_map;
  match m !! u32 offset with
  | None => reject "No data map entry found @ %zx; expected %x"
  | Some t => check (t =? type) "Unexpected data map entry @ %zx; expected %x, found %x"
  end.
(** [off == 0 || CheckOffsetToTypeMap(off, type)] *)
Definition CheckOptionalOffset (offset type : Z) : V bool :=
  if negb (offset =? 0) then CheckOffsetToTypeMap offset type else mret true.

(** Structures at a pointer, read as a whole. *)
Definition ProtoIdAt (p : Z) : V ProtoId :=
  s ← field 4 p; r ← field 2 (p + 4); o ← field 4 (p + 8);
  mret {| shorty_idx_ := s; return_type_idx_ := r; parameters_off_ := o |}.
Definition FieldIdAt (p : Z) : V FieldId :=
  c ← field 2 p; t ← field 2 (p + 2); n ← field 4 (p + 4);
  mret {| f_class_idx_ := c; f_type_idx_ := t; f_name_idx_ := n |}.
Definition MethodIdAt (p : Z) : V MethodId :=
  c ← field 2 p; t ← field 2 (p + 2); n ← field 4 (p + 4);
  mret {| m_class_idx_ := c; m_proto_idx_ := t; m_name_idx_ := n |}.
Definition ClassDefAt (p : Z) : V ClassDef :=
  a0 ← field 2 p; a1 ← field 4 (p + 4); a2 ← field 2 (p + 8); a3 ← field 4 (p + 12);
  a4 ← field 4 (p + 16); a5 ← field 4 (p + 20); a6 ← field 4 (p + 24); a7 ← field 4 (p + 28);
  mret {| class_idx_ := a0; access_flags_ := a1; superclass_idx_ := a2; interfaces_off_ := a3;
          source_file_idx_ := a4; annotations_off_ := a5; class_data_off_ := a6;
          static_values_off_ := a7 |}.

(** The member index of the first field or method, and its class; the class is [kDexNoIndex16]
    when there is none or (with [success] false) when it cannot be loaded. *)
Definition FindFirstClassDataDefiner (ptr : Z) : V (bool * Z) :=
  it ← lift (MakeClassDataItemIterator (drop (Z.to_nat ptr) (begin_ df)));
  if HasNextStaticField it || HasNextInstanceField it then
    LOAD_FIELD (GetMemberIndex it) (mret (false, kDexNoIndex16)) (fun f => mret (true, f_class_idx_ f))
  else if HasNextDirectMethod it || HasNextVirtualMethod it then
    LOAD_METHOD (GetMemberIndex it) (mret (false, kDexNoIndex16)) (fun m => mret (true, m_class_idx_ m))
  else mret (true, kDexNoIndex16).

Definition FindFirstAnnotationsDirectoryDefiner (item : Z) : V (bool * Z) :=
  fields_size ← field 4 (item + 4);
  if negb (fields_size =? 0) then
    idx ← field 4 (item + 16);
    LOAD_FIELD idx (mret (false, kDexNoIndex16)) (fun f => mret (true, f_class_idx_ f))
  else
    methods_size ← field 4 (item + 8);
    if negb (methods_size =? 0) then
      idx ← field 4 (item + 16);
      LOAD_METHOD idx (mret (false, kDexNoIndex16)) (fun m => mret (true, m_class_idx_ m))
    else
      parameters_size ← field 4 (item + 12);
      if negb (parameters_size =? 0) then
        idx ← field 4 (item + 16);
        LOAD_METHOD idx (mret (false, kDexNoIndex16)) (fun m => mret (true, m_class_idx_ m))
      else mret (true, kDexNoIndex16).

Definition CheckInterStringIdItem : V bool :=
  item ← get_ptr;
  string_data_off ← field 4 item;
  ensure CheckOffsetToTypeMap string_data_off kDexTypeStringDataItem;;
  previous_item ← get_previous;
  ensure (match previous_item with
          | None => mret true
          | Some prev_item =>
              prev_off ← field 4 prev_item;
              prev_str ← lift (GetStringData df prev_off);
              str ← lift (GetStringData df string_data_off);
              c ← lift (CompareModifiedUtf8ToModifiedUtf8AsUtf16CodePointValues prev_str str);
              check (negb (0 <=? c)) "Out-of-order string_ids: '%s' then '%s'"
          end);;
  advance_ptr 4;;
  mret true.

Definition CheckInterTypeIdItem : V bool :=
  item ← get_ptr;
  descriptor_idx ← field 4 item;
  LOAD_STRING descriptor_idx (fun descriptor =>
    ok ← lift (IsValidDescriptor descriptor);
    ensure check ok "Invalid type descriptor: '%s'";;
    previous_item ← get_previous;
    ensure (match previous_item with
            | None => mret true
            | Some prev_item =>
                prev_idx ← field 4 prev_item;
                check (negb (descriptor_idx <=? prev_idx)) "Out-of-order type_ids: %x then %x"
            end);;
    advance_ptr 4;;
    mret true).

(** [descriptor] may be [nullptr]. *)
Definition CheckShortyDescriptorMatch (shorty_char : Z) (descriptor : option (list Z)) (is_return_type : bool)
  : V bool :=
  let c (i : nat) := d ← lift descriptor; lift (d !! i) in
  let void := shorty_char =? 0x56 (* V *) in
  if void && negb is_return_type then reject "Invalid use of void"
  else if void || is_primitive shorty_char then
    c0 ← c 0%nat;
    ok ← (if negb (c0 =? shorty_char) then mret false else c1 ← c 1%nat; mret (c1 =? 0));
    check ok "Shorty vs. primitive type mismatch: '%c', '%s'"
  else if shorty_char =? 0x4c (* L *) then
    c0 ← c 0%nat;
    check ((c0 =? 0x4c) || (c0 =? 0x5b)) "Shorty vs. type mismatch: '%c', '%s'"
  else reject "Bad shorty character: '%c'".

(** [while (it.HasNext() && *shorty != '\0')] and the test after it. *)
Fixpoint CheckShorty (shorty : list Z) (it : ParameterIterator) : V bool :=
  match shorty with
  | [] => lift None
  | c :: shorty =>
      if HasNextParameter it && negb (c =? 0) then
        type_idx ← lift (GetTypeIdx df it);
        ensure CheckIndex type_idx (NumTypeIds df);;
        descriptor ← lift (GetDescriptor df it);
        ensure CheckShortyDescriptorMatch c descriptor false;;
        CheckShorty shorty (NextParameter it)
      else check (negb (HasNextParameter it || negb (c =? 0)))
             "Mismatched length for parameters and shorty"
  end.

(** [while (curr_it.HasNext() && prev_it.HasNext())]: every round reads a list element. *)
Fixpoint CheckProtoOrder (fuel : nat) (curr_it prev_it : ParameterIterator) : V bool :=
  if HasNextParameter curr_it && HasNextParameter prev_it then
    match fuel with
    | O => out_of_fuel
    | S fuel =>
        prev_idx ← lift (GetTypeIdx df prev_it);
        curr_idx ← lift (GetTypeIdx df curr_it);
        if prev_idx =? kDexNoIndex16 then mret true
        else if curr_idx =? kDexNoIndex16 then reject "Out-of-order proto_id arguments"
        else if prev_idx <? curr_idx then mret true
        else if curr_idx <? prev_idx then reject "Out-of-order proto_id arguments"
        else CheckProtoOrder fuel (NextParameter curr_it) (NextParameter prev_it)
    end
  else mret true.

Definition CheckInterProtoIdItem : V bool :=
  p ← get_ptr;
  item ← ProtoIdAt p;
  LOAD_STRING (shorty_idx_ item) (fun shorty =>
    ensure CheckOptionalOffset (parameters_off_ item) kDexTypeTypeList;;
    LOAD_STRING_BY_TYPE (return_type_idx_ item) (fun return_type =>
      '(c, shorty) ← lift (read_u8 shorty);
      ensure CheckShortyDescriptorMatch c (Some return_type) true;;
      it ← lift (MakeParameterIterator df item);
      ensure CheckShorty shorty it;;
      previous_item ← get_previous;
      ensure (match previous_item with
              | None => mret true
              | Some prev =>
                  prev ← ProtoIdAt prev;
                  if return_type_idx_ item <? return_type_idx_ prev then
                    reject "Out-of-order proto_id return types"
                  else if return_type_idx_ prev =? return_type_idx_ item then
                    curr_it ← lift (MakeParameterIterator df item);
                    prev_it ← lift (MakeParameterIterator df prev);
                    CheckProtoOrder (S (length (begin_ df))) curr_it prev_it
                  else mret true
              end);;
      advance_ptr 12;;
      mret true)).

(** [!IsValidDescriptor(s) || s[0] != ...]: a valid descriptor whose first character is as wanted. *)
Definition CheckDescriptor (s : list Z) (first : Z -> bool) (fmt : string) : V bool :=
  ok ← lift (IsValidDescriptor s);
  if negb ok then reject fmt else '(c, _) ← lift (read_u8 s); check (first c) fmt.

(** The order of two triples: class, name, and type or prototype. *)
Definition CheckTripleOrder (prev item : Z * Z * Z) (fmt : string) : V bool :=
  let '(prev_class, prev_name, prev_last) := prev in
  let '(class, name, last) := item in
  if class <? prev_class then reject fmt
  else if prev_class =? class then
    if name <? prev_name then reject fmt
    else if prev_name =? name then check (negb (last <=? prev_last)) fmt
    else mret true
  else mret true.

Definition CheckInterFieldIdItem : V bool :=
  p ← get_ptr;
  item ← FieldIdAt p;
  LOAD_STRING_BY_TYPE (f_class_idx_ item) (fun class_descriptor =>
    ensure CheckDescriptor class_descriptor (fun c => c =? 0x4c) "Invalid descriptor for class_idx: '%s'";;
    LOAD_STRING_BY_TYPE (f_type_idx_ item) (fun type_descriptor =>
      ensure CheckDescriptor type_descriptor (fun c => negb (c =? 0x56))
        "Invalid descriptor for type_idx: '%s'";;
      LOAD_STRING (f_name_idx_ item) (fun descriptor =>
        ok ← lift (IsValidMemberName descriptor);
        ensure check ok "Invalid field name: '%s'";;
        previous_item ← get_previous;
        ensure (match previous_item with
                | None => mret true
                | Some prev_item =>
                    prev_item ← FieldIdAt prev_item;
                    CheckTripleOrder (field_key prev_item) (field_key item) "Out-of-order field_ids"
                end);;
        advance_ptr 8;;
        mret true))).

Definition CheckInterMethodIdItem : V bool :=
  p ← get_ptr;
  item ← MethodIdAt p;
  LOAD_STRING_BY_TYPE (m_class_idx_ item) (fun class_descriptor =>
    ensure CheckDescriptor class_descriptor (fun c => (c =? 0x4c) || (c =? 0x5b))
      "Invalid descriptor for class_idx: '%s'";;
    LOAD_STRING (m_name_idx_ item) (fun descriptor =>
      ok ← lift (IsValidMemberName descriptor);
      ensure check ok "Invalid method name: '%s'";;
      ensure CheckIndex (m_proto_idx_ item) (NumProtoIds df);;
      previous_item ← get_previous;
      ensure (match previous_item with
              | None => mret true
              | Some prev_item =>
                  prev_item ← MethodIdAt prev_item;
                  CheckTripleOrder (method_key prev_item) (method_key item) "Out-of-order method_ids"
              end);;
      advance_ptr 8;;
      mret true)).

(** [type_list->GetTypeItem(i).type_idx_] *)
Definition TypeItemAt (list i : Z) : V Z := field 2 (list + 4 + 2 * i).

(** The two loops over the interfaces. *)
Definition CheckInterfaceDescriptor (list i : Z) : V bool :=
  type_idx ← TypeItemAt list i;
  LOAD_STRING_BY_TYPE type_idx (fun inf_descriptor =>
    CheckDescriptor inf_descriptor (fun c => c =? 0x4c) "Invalid interface: '%s'").
Definition CheckInterfaceUnique (list i : Z) : V bool :=
  idx1 ← TypeItemAt list i;
  for_each (Z.to_nat i) 0 (fun j =>
    idx2 ← TypeItemAt list j;
    check (negb (idx1 =? idx2)) "Duplicate interface: '%s'").

(** The class of the first entry of class data or annotations has to be the class itself. *)
Definition CheckDefiner (off class_idx : Z) (definer : Z -> V (bool * Z)) (fmt : string) : V bool :=
  if negb (off =? 0) then
    '(success, data_definer) ← definer off;
    if negb success then mret false
    else check (negb (negb (data_definer =? class_idx) && negb (data_definer =? kDexNoIndex16))) fmt
  else mret true.

Definition CheckInterClassDefItem : V bool :=
  p ← get_ptr;
  item ← ClassDefAt p;
  classes ← get_classes;
  ensure check (negb (bool_decide (class_idx_ item ∈ classes))) "Redefinition of class with type idx: '%d'";;
  InsertClass (class_idx_ item);;
  LOAD_STRING_BY_TYPE (class_idx_ item) (fun class_descriptor =>
    ensure CheckDescriptor class_descriptor (fun c => c =? 0x4c) "Invalid class descriptor: '%s'";;
    ensure check (Z.land (access_flags_ item) (Z.lnot kAccJavaFlagsMask) =? 0) "Invalid class flags: '%d'";;
    ensure CheckOptionalOffset (interfaces_off_ item) kDexTypeTypeList;;
    ensure CheckOptionalOffset (annotations_off_ item) kDexTypeAnnotationsDirectoryItem;;
    ensure CheckOptionalOffset (class_data_off_ item) kDexTypeClassDataItem;;
    ensure CheckOptionalOffset (static_values_off_ item) kDexTypeEncodedArrayItem;;
    ensure (if negb (superclass_idx_ item =? kDexNoIndex16) then
              LOAD_STRING_BY_TYPE (superclass_idx_ item) (fun superclass_descriptor =>
                CheckDescriptor superclass_descriptor (fun c => c =? 0x4c) "Invalid superclass: '%s'")
            else mret true);;
    ensure (match GetInterfacesList item with
            | None => mret true
            | Some interfaces =>
                size ← field 4 interfaces;
                ensure for_each (Z.to_nat size) 0 (CheckInterfaceDescriptor interfaces);;
                for_each (Z.to_nat (size - 1)) 1 (CheckInterfaceUnique interfaces)
            end);;
    ensure CheckDefiner (class_data_off_ item) (class_idx_ item) FindFirstClassDataDefiner
      "Invalid class_data_item";;
    ensure CheckDefiner (annotations_off_ item) (class_idx_ item) FindFirstAnnotationsDirectoryDefiner
      "Invalid annotations_directory_item";;
    advance_ptr 32;;
    mret true).

Definition CheckInterAnnotationSetRefList : V bool :=
  list ← get_ptr;
  count ← field 4 list;
  ensure for_each (Z.to_nat count) 0 (fun i =>
    annotations_off ← field 4 (list + 4 + 4 * i);
    CheckOptionalOffset annotations_off kDexTypeAnnotationSetItem);;
  set_ptr (list + 4 + 4 * count);;
  mret true.

(** The annotation an offset refers to is decoded even when the offset is 0. *)
Definition CheckInterAnnotationSetItem : V bool :=
  set ← get_ptr;
  count ← field 4 set;
  '(ok, _) ← for_each_with (Z.to_nat count) 0 0 (fun i last_idx =>
    offset ← field 4 (set + 4 + 4 * i);
    ok ← CheckOptionalOffset offset kDexTypeAnnotationItem;
    if negb ok then mret (false, last_idx)
    else
      '(idx, _) ← lift (DecodeUnsignedLeb128 (drop (Z.to_nat (offset + 1)) (begin_ df)));
      if (idx <=? last_idx) && negb (i =? 0) then
        ErrorStringPrintf "Out-of-order entry types: %x then %x";; mret (false, last_idx)
      else mret (true, idx));
  if negb ok then mret false
  else set_ptr (set + 4 + 4 * count);; mret true.

(** The loops over fields and over methods. *)
Fixpoint CheckInterMembers (fuel : nat) (has_next : ClassDataItemIterator -> bool)
  (member : ClassDataItemIterator -> V bool) (it : ClassDataItemIterator) : V (bool * ClassDataItemIterator) :=
  if has_next it then
    match fuel with
    | O => out_of_fuel
    | S fuel =>
        ok ← member it;
        if negb ok then mret (false, it)
        else it ← lift (Next it); CheckInterMembers fuel has_next member it
    end
  else mret (true, it).

Definition CheckInterField (defining_class : Z) (it : ClassDataItemIterator) : V bool :=
  LOAD_FIELD (GetMemberIndex it) (mret false) (fun f =>
    check (f_class_idx_ f =? defining_class) "Mismatched defining class for class_data_item field").

Definition CheckInterMethod (defining_class : Z) (it : ClassDataItemIterator) : V bool :=
  ensure CheckOptionalOffset (GetMethodCodeItemOffset it) kDexTypeCodeItem;;
  LOAD_METHOD (GetMemberIndex it) (mret false) (fun m =>
    check (m_class_idx_ m =? defining_class) "Mismatched defining class for class_data_item method").

Definition CheckInterClassDataItem : V bool :=
  p ← get_ptr;
  it ← lift (MakeClassDataItemIterator (drop (Z.to_nat p) (begin_ df)));
  '(success, defining_class) ← FindFirstClassDataDefiner p;
  if negb success then mret false else
  '(ok, it) ← CheckInterMembers members_fuel (fun it => HasNextStaticField it || HasNextInstanceField it)
                (CheckInterField defining_class) it;
  if negb ok then mret false else
  '(ok, it) ← CheckInterMembers members_fuel (fun it => HasNextDirectMethod it || HasNextVirtualMethod it)
                (CheckInterMethod defining_class) it;
  if negb ok then mret false else
  rest ← lift (EndDataPointer it);
  set_ptr (Size df - Z.of_nat (length rest));;
  mret true.

(** The loop over one of the three lists of a directory: the member at each index belongs to the
    class, and its annotations are of the given type. *)
Definition CheckInterAnnotationsList (list count type : Z) (load : Z -> V (option Z)) (defining_class : Z)
  (fmt : string) : V bool :=
  for_each (Z.to_nat count) 0 (fun i =>
    idx ← field 4 (list + 8 * i);
    class_idx ← load idx;
    match class_idx with
    | None => mret false
    | Some class_idx =>
        ensure check (class_idx =? defining_class) fmt;;
        annotations_off ← field 4 (list + 8 * i + 4);
        CheckOffsetToTypeMap annotations_off type
    end).
Definition load_field_class (idx : Z) : V (option Z) :=
  f ← CheckLoadFieldId idx; mret (f_class_idx_ <$> f).
Definition load_method_class (idx : Z) : V (option Z) :=
  m ← CheckLoadMethodId idx; mret (m_class_idx_ <$> m).

Definition CheckInterAnnotationsDirectoryItem : V bool :=
  item ← get_ptr;
  '(success, defining_class) ← FindFirstAnnotationsDirectoryDefiner item;
  if negb success then mret false else
  class_annotations_off ← field 4 item;
  ensure CheckOptionalOffset class_annotations_off kDexTypeAnnotationSetItem;;
  field_count ← field 4 (item + 4);
  let field_item := item + 16 in
  ensure CheckInterAnnotationsList field_item field_count kDexTypeAnnotationSetItem load_field_class
    defining_class "Mismatched defining class for field_annotation";;
  method_count ← field 4 (item + 8);
  let method_item := field_item + 8 * field_count in
  ensure CheckInterAnnotationsList method_item method_count kDexTypeAnnotationSetItem load_method_class
    defining_class "Mismatched defining class for method_annotation";;
  parameter_count ← field 4 (item + 12);
  let parameter_item := method_item + 8 * method_count in
  ensure CheckInterAnnotationsList parameter_item parameter_count kDexTypeAnnotationSetRefList
    load_method_class defining_class "Mismatched defining class for parameter_annotation";;
  set_ptr (parameter_item + 8 * parameter_count);;
  mret true.

(** *** Sections *)

Definition InterAlignmentMask (type : Z) : Z := if type =? kDexTypeClassDataItem then 1 - 1 else 4 - 1.

Definition CheckInterItem (type : Z) : V bool :=
  if type =? kDexTypeStringIdItem then CheckInterStringIdItem
  else if type =? kDexTypeTypeIdItem then CheckInterTypeIdItem
  else if type =? kDexTypeProtoIdItem then CheckInterProtoIdItem
  else if type =? kDexTypeFieldIdItem then CheckInterFieldIdItem
  else if type =? kDexTypeMethodIdItem then CheckInterMethodIdItem
  else if type =? kDexTypeClassDefItem then CheckInterClassDefItem
  else if type =? kDexTypeAnnotationSetRefList then CheckInterAnnotationSetRefList
  else if type =? kDexTypeAnnotationSetItem then CheckInterAnnotationSetItem
  else if type =? kDexTypeClassDataItem then CheckInterClassDataItem
  else if type =? kDexTypeAnnotationsDirectoryItem then CheckInterAnnotationsDirectoryItem
  else reject "Unknown map item type %x".

Definition CheckInterSectionItem (type : Z) (_i offset : Z) : V (bool * Z) :=
  let new_offset := u32 (Align (InterAlignmentMask type) offset) in
  set_ptr new_offset;;
  ok ← CheckInterItem type;
  if negb ok then mret (false, offset) else
  set_previous (Some new_offset);;
  p ← get_ptr;
  mret (true, p).

Definition CheckInterSectionIterate (offset count type : Z) : V bool :=
  set_previous None;;
  '(ok, _) ← for_each_with (Z.to_nat count) 0 offset (CheckInterSectionItem type);
  mret ok.

(** The types of sections that are cross-checked, and those that need not be. *)
Definition inter_types : list Z :=
  [kDexTypeStringIdItem; kDexTypeTypeIdItem; kDexTypeProtoIdItem; kDexTypeFieldIdItem;
   kDexTypeMethodIdItem; kDexTypeClassDefItem; kDexTypeAnnotationSetRefList;
   kDexTypeAnnotationSetItem; kDexTypeClassDataItem; kDexTypeAnnotationsDirectoryItem].
Definition skipped_types : list Z :=
  [kDexTypeHeaderItem; kDexTypeMapList; kDexTypeTypeList; kDexTypeCodeItem; kDexTypeStringDataItem;
   kDexTypeDebugInfoItem; kDexTypeAnnotationItem; kDexTypeEncodedArrayItem].

Definition CheckInterSectionOf (i : Z) : V bool :=
  item ← map_item i;
  if bool_decide (type_ item ∈ skipped_types) then mret true
  else if bool_decide (type_ item ∈ inter_types) then
    CheckInterSectionIterate (offset_ item) (item_size_ item) (type_ item)
  else reject "Unknown map item type %x".

Definition CheckInterSection : V bool :=
  count ← field 4 (map_off_ hdr);
  for_each (Z.to_nat count) 0 CheckInterSectionOf.

(** ** [Verify] *)

Definition VerifyFile : V bool :=
  ensure CheckHeader;;
  ensure CheckMap;;
  ensure CheckIntraSection;;
  CheckInterSection.

(** The constructor. *)
Definition new_verifier : VerifierState := mkVerifier 0 None "" ∅ ∅.

(** The static [Verify]: the answer and the reason of a failure. *)
Definition Verify : Outcome (bool * string) :=
  match VerifyFile new_verifier with
  | Done b st => Done (b, if b : bool then ""%string else failure_reason_ st) st
  | Fault => Fault
  | OutOfFuel => OutOfFuel
  end.
End Verifier.
