(* ===== verification/VerifierLogic.v ===== *)
(** * Reasoning about the dex file verifier

    Inversion of the verifier's actions, invariants of its loops, and the actions that leave
    [offset_to_type_map_] and [previous_item_] alone. *)
From stdpp Require Import fin_maps gmap strings.
From S2P Require Import Prelude.
From S2P Require Import DexFile.
From S2P Require Import ClassData.
From S2P Require Import DexFileVerifier.
Local Open Scope Z_scope.

(** ** Inversion *)

Lemma bind_done {A B} (m : V A) (k : A -> V B) st b st' :
  (m ≫= k) st = Done b st' -> exists a st1, m st = Done a st1 /\ k a st1 = Done b st'.
Proof. unfold mbind, V_bind. destruct (m st) as [a st1| |]; [|done..]. by exists a, st1. Qed.

Lemma ret_done {A} (a : A) st b st' : (mret a : V A) st = Done b st' -> a = b /\ st = st'.
Proof. by intros [= -> ->]. Qed.

Lemma lift_done {A} (x : option A) st a st' : lift x st = Done a st' -> x = Some a /\ st = st'.
Proof. unfold lift. destruct x; [by intros [= -> ->]|done]. Qed.

Lemma and_then_true m k st st' :
  and_then m k st = Done true st' -> exists st1, m st = Done true st1 /\ k st1 = Done true st'.
Proof.
  unfold and_then. intros H. apply bind_done in H as ([] & st1 & H1 & H2); [by exists st1|].
  by apply ret_done in H2 as [? _].
Qed.

Lemma reject_true fmt st st' : reject fmt st = Done true st' -> False.
Proof. done. Qed.

Lemma check_true c fmt st st' : check c fmt st = Done true st' -> c = true /\ st = st'.
Proof. unfold check. destruct c; [intros H; by apply ret_done in H|done]. Qed.

Lemma get_ptr_done st p st' : get_ptr st = Done p st' -> p = ptr_ st /\ st = st'.
Proof. by intros [= -> ->]. Qed.

Lemma get_previous_done st p st' : get_previous st = Done p st' -> p = previous_item_ st /\ st = st'.
Proof. by intros [= -> ->]. Qed.

Lemma get_map_done st p st' : get_map st = Done p st' -> p = offset_to_type_map_ st /\ st = st'.
Proof. by intros [= -> ->]. Qed.

Definition with_ptr (p : Z) (st : VerifierState) : VerifierState :=
  mkVerifier p (previous_item_ st) (failure_reason_ st) (offset_to_type_map_ st) (defined_classes_ st).
Definition with_previous (q : option Z) (st : VerifierState) : VerifierState :=
  mkVerifier (ptr_ st) q (failure_reason_ st) (offset_to_type_map_ st) (defined_classes_ st).

Lemma set_ptr_done p st u st' : set_ptr p st = Done u st' -> st' = with_ptr p st.
Proof. by intros [= _ <-]. Qed.

Lemma advance_ptr_done n st u st' : advance_ptr n st = Done u st' -> st' = with_ptr (ptr_ st + n) st.
Proof. by intros [= _ <-]. Qed.

Lemma set_previous_done q st u st' : set_previous q st = Done u st' -> st' = with_previous q st.
Proof. by intros [= _ <-]. Qed.

Lemma error_done fmt st u st' : ErrorStringPrintf fmt st = Done u st' ->
  st' = mkVerifier (ptr_ st) (previous_item_ st) fmt (offset_to_type_map_ st) (defined_classes_ st).
Proof. by intros [= _ <-]. Qed.

(** Takes a successful run apart, from left to right. *)
Ltac vinv :=
  repeat match goal with
  | H : (_ ≫= _) _ = Done _ _ |- _ =>
      let a := fresh "a" in let st := fresh "st" in let H1 := fresh "H" in
      apply bind_done in H as (a & st & H1 & H); cbv beta in H1, H
  | H : and_then _ _ _ = Done true _ |- _ =>
      let st := fresh "st" in let H1 := fresh "H" in
      apply and_then_true in H as (st & H1 & H); cbv beta in H1, H
  | H : mret _ _ = Done _ _ |- _ => apply ret_done in H as [? ?]; simplify_eq
  | H : lift _ _ = Done _ _ |- _ => apply lift_done in H as [? ?]; simplify_eq
  | H : reject _ _ = Done true _ |- _ => by apply reject_true in H
  | H : check _ _ _ = Done true _ |- _ =>
      let E := fresh "E" in apply check_true in H as [E ?]; simplify_eq
  | H : get_ptr _ = Done _ _ |- _ => apply get_ptr_done in H as [? ?]; simplify_eq
  | H : get_previous _ = Done _ _ |- _ => apply get_previous_done in H as [? ?]; simplify_eq
  | H : get_map _ = Done _ _ |- _ => apply get_map_done in H as [? ?]; simplify_eq
  | H : set_ptr _ _ = Done _ _ |- _ => apply set_ptr_done in H; simplify_eq
  | H : advance_ptr _ _ = Done _ _ |- _ => apply advance_ptr_done in H; simplify_eq
  | H : set_previous _ _ = Done _ _ |- _ => apply set_previous_done in H; simplify_eq
  | H : ErrorStringPrintf _ _ = Done _ _ |- _ => apply error_done in H; simplify_eq
  | H : (let '(_, _) := ?p in _) _ = Done _ _ |- _ => destruct p
  | H : field _ _ _ _ = Done _ _ |- _ => unfold field in H
  end.

(** ** Loops *)

Lemma for_each_inv (I : Z -> VerifierState -> Prop) n i body st st' :
  I i st ->
  (forall j st st', i <= j < i + Z.of_nat n -> I j st -> body j st = Done true st' -> I (j + 1) st') ->
  for_each n i body st = Done true st' -> I (i + Z.of_nat n) st'.
Proof.
  revert i st. induction n as [|n IH]; intros i st Hi Hb H; cbn [for_each] in H; vinv.
  - by replace (i + Z.of_nat 0) with i by lia.
  - replace (i + Z.of_nat (S n)) with ((i + 1) + Z.of_nat n) by lia. eapply IH; [|intros j ? ? Hj|exact H].
    + eapply Hb; [|exact Hi|done]. lia.
    + apply Hb. lia.
Qed.

Lemma for_each_with_inv {A} (I : Z -> A -> VerifierState -> Prop) n i a body st a' st' :
  I i a st ->
  (forall j a st a' st', i <= j < i + Z.of_nat n -> I j a st -> body j a st = Done (true, a') st' ->
     I (j + 1) a' st') ->
  for_each_with n i a body st = Done (true, a') st' -> I (i + Z.of_nat n) a' st'.
Proof.
  revert i a st. induction n as [|n IH]; intros i a st Hi Hb H; cbn [for_each_with] in H; vinv.
  - by replace (i + Z.of_nat 0) with i by lia.
  - replace (i + Z.of_nat (S n)) with ((i + 1) + Z.of_nat n) by lia.
    destruct b; vinv. eapply IH; [|intros j ? ? ? ? Hj|exact H].
    + eapply Hb; [|exact Hi|done]. lia.
    + apply Hb. lia.
Qed.

(** The rounds of a loop: what holds of the state before and after round [j]. *)
Lemma for_each_rounds n i body st st' :
  for_each n i body st = Done true st' ->
  forall j, i <= j < i + Z.of_nat n -> exists st1 st2, body j st1 = Done true st2.
Proof.
  revert i st. induction n as [|n IH]; intros i st H j Hj; cbn [for_each] in H; [lia|]. vinv.
  destruct (decide (j = i)) as [->|]; [by eexists _, _|]. eapply IH; [exact H|lia].
Qed.

(** ** What actions leave alone

    [f] is a part of the state that neither the cursor nor the failure reason belongs to. *)
Definition keeps {B} (f : VerifierState -> B) {A} (m : V A) : Prop :=
  forall st a st', m st = Done a st' -> f st' = f st.

Section Keeps.
Context {B : Type} (f : VerifierState -> B).
Context (Hptr : forall p st, f (with_ptr p st) = f st).
Context (Hreason : forall r st, f (mkVerifier (ptr_ st) (previous_item_ st) r (offset_to_type_map_ st)
  (defined_classes_ st)) = f st).
Variables (df : DexFile) (base_ : Z).

Lemma keeps_bind {A C} (m : V A) (k : A -> V C) :
  keeps f m -> (forall a, keeps f (k a)) -> keeps f (m ≫= k).
Proof.
  intros Hm Hk st c st' H. apply bind_done in H as (a & st1 & H1 & H2).
  by rewrite (Hk _ _ _ _ H2), (Hm _ _ _ H1).
Qed.
Lemma keeps_ret {A} (a : A) : keeps f (mret a).
Proof. intros st b st' H. by apply ret_done in H as [_ ->]. Qed.
Lemma keeps_and_then m k : keeps f m -> keeps f k -> keeps f (and_then m k).
Proof. intros Hm Hk. apply keeps_bind; [done|]. intros []; [done|]. apply keeps_ret. Qed.
Lemma keeps_lift {A} (x : option A) : keeps f (lift x).
Proof. intros st b st' H. by apply lift_done in H as [_ ->]. Qed.
Lemma keeps_out_of_fuel {A} : keeps f (out_of_fuel (A:=A)).
Proof. by intros st b st' H. Qed.
Lemma keeps_get_ptr : keeps f get_ptr.
Proof. by intros st b st' [= _ <-]. Qed.
Lemma keeps_get_previous : keeps f get_previous.
Proof. by intros st b st' [= _ <-]. Qed.
Lemma keeps_get_map : keeps f get_map.
Proof. by intros st b st' [= _ <-]. Qed.
Lemma keeps_get_reason : keeps f get_reason.
Proof. by intros st b st' [= _ <-]. Qed.
Lemma keeps_get_classes : keeps f get_classes.
Proof. by intros st b st' [= _ <-]. Qed.
Lemma keeps_set_ptr p : keeps f (set_ptr p).
Proof. intros st b st' H. apply set_ptr_done in H as ->. apply Hptr. Qed.
Lemma keeps_error fmt : keeps f (ErrorStringPrintf fmt).
Proof. intros st b st' H. apply error_done in H as ->. apply Hreason. Qed.
Lemma keeps_advance n : keeps f (advance_ptr n).
Proof. apply keeps_bind; [apply keeps_get_ptr|intros; apply keeps_set_ptr]. Qed.
Lemma keeps_reject fmt : keeps f (reject fmt).
Proof. apply keeps_bind; [apply keeps_error|intros; apply keeps_ret]. Qed.
Lemma keeps_check c fmt : keeps f (check c fmt).
Proof. unfold check. destruct c; [apply keeps_ret|apply keeps_reject]. Qed.
Lemma keeps_for_each n i body : (forall j, keeps f (body j)) -> keeps f (for_each n i body).
Proof.
  intros H. revert i. induction n as [|n IH]; intros i; [apply keeps_ret|]. by apply keeps_and_then.
Qed.
Lemma keeps_for_each_with {A} n i (a : A) body :
  (forall j a, keeps f (body j a)) -> keeps f (for_each_with n i a body).
Proof.
  intros H. revert i a. induction n as [|n IH]; intros i a; [apply keeps_ret|].
  apply keeps_bind; [done|]. intros [[] ?]; [done|]. apply keeps_ret.
Qed.
End Keeps.

Ltac keeps_step :=
  match goal with
  | |- keeps _ (_ ≫= _) => apply keeps_bind; [|intros ?]
  | |- keeps _ (and_then _ _) => apply keeps_and_then
  | |- keeps _ (mret _) => apply keeps_ret
  | |- keeps _ (lift _) => apply keeps_lift
  | |- keeps _ (field _ _ _) => apply keeps_lift
  | |- keeps _ out_of_fuel => apply keeps_out_of_fuel
  | |- keeps _ get_ptr => apply keeps_get_ptr
  | |- keeps _ get_previous => apply keeps_get_previous
  | |- keeps _ get_map => apply keeps_get_map
  | |- keeps _ get_reason => apply keeps_get_reason
  | |- keeps _ get_classes => apply keeps_get_classes
  | |- keeps _ (set_ptr _) => apply keeps_set_ptr
  | |- keeps _ (advance_ptr _) => apply keeps_advance
  | |- keeps _ (ErrorStringPrintf _) => apply keeps_error
  | |- keeps _ (reject _) => apply keeps_reject
  | |- keeps _ (check _ _) => apply keeps_check
  | |- keeps _ (for_each _ _ _) => apply keeps_for_each; intros ?
  | |- keeps _ (for_each_with _ _ _ _) => apply keeps_for_each_with; intros ? ?
  | |- keeps _ (if ?b then _ else _) => destruct b
  | |- keeps _ (match ?x with _ => _ end) => destruct x
  | |- keeps _ _ => progress cbv beta zeta
  end.

Create HintDb frames discriminated.
Ltac keeps := repeat (keeps_step || solve [auto with frames]); try done.

Section ItemsKeep.
Context {B : Type} (f : VerifierState -> B).
Context (Hptr : forall p st, f (with_ptr p st) = f st).
Context (Hreason : forall r st, f (mkVerifier (ptr_ st) (previous_item_ st) r (offset_to_type_map_ st)
  (defined_classes_ st)) = f st).
Variables (df : DexFile) (base_ : Z).

Lemma keeps_decode r : keeps f (decode df r).
Proof. unfold decode. keeps. Qed.
Lemma keeps_next_byte : keeps f (next_byte df).
Proof. unfold next_byte, byte_at_ptr. keeps. Qed.
Lemma keeps_CheckListSize start count size : keeps f (CheckListSize df base_ start count size).
Proof. unfold CheckListSize. keeps. Qed.
Lemma keeps_CheckIndex i limit : keeps f (CheckIndex i limit).
Proof. unfold CheckIndex. keeps. Qed.
#[local] Hint Resolve keeps_decode keeps_next_byte keeps_CheckListSize keeps_CheckIndex : frames.
Lemma keeps_CheckList size : keeps f (CheckList df base_ size).
Proof. unfold CheckList. keeps. Qed.
Lemma keeps_CheckPadding o a : keeps f (CheckPadding df base_ o a).
Proof. unfold CheckPadding, byte_at_ptr. keeps. Qed.
#[local] Hint Resolve keeps_CheckList keeps_CheckPadding : frames.

(** *** Items of a section *)

Lemma keeps_ReadUnsignedLittleEndian n : keeps f (ReadUnsignedLittleEndian df base_ n).
Proof.
  assert (Hl : forall n i r, keeps f (ReadLittleEndianLoop df n i r)).
  { intros m. induction m as [|m IH]; intros i r; cbn [ReadLittleEndianLoop]; keeps. }
  unfold ReadUnsignedLittleEndian. keeps.
Qed.
#[local] Hint Resolve keeps_ReadUnsignedLittleEndian : frames.

Lemma keeps_EncodedArray v : keeps f v -> keeps f (EncodedArray df v).
Proof. intros Hv. unfold EncodedArray. keeps. Qed.
Lemma keeps_EncodedAnnotation v : keeps f v -> keeps f (EncodedAnnotation df v).
Proof. intros Hv. unfold EncodedAnnotation. keeps. Qed.
#[local] Hint Resolve keeps_EncodedArray keeps_EncodedAnnotation : frames.
Lemma keeps_value fuel : keeps f (CheckEncodedValueFuel df base_ fuel).
Proof.
  induction fuel as [|fuel IH]; cbn [CheckEncodedValueFuel]; [keeps|].
  unfold EncodedValue, EncodedIndex. keeps.
Qed.
#[local] Hint Resolve keeps_value : frames.

Lemma keeps_members fuel has_next member fmt prev it :
  (forall it, keeps f (member it)) -> keeps f (CheckMembers fuel has_next member fmt prev it).
Proof. intros Hm. revert prev it. induction fuel as [|fuel IH]; intros prev it; cbn [CheckMembers]; keeps. Qed.

Lemma keeps_CheckIntraClassDataItem : keeps f (CheckIntraClassDataItem df).
Proof.
  unfold CheckIntraClassDataItem, CheckClassDataItemField, CheckClassDataItemMethod.
  repeat (keeps_step || (apply keeps_members; intros ?) || solve [auto with frames]).
Qed.
Lemma keeps_handlers code n : keeps f (CheckAndGetHandlerOffsets df code n).
Proof. unfold CheckAndGetHandlerOffsets, CheckHandlerList, CheckHandler. keeps. Qed.
#[local] Hint Resolve keeps_handlers : frames.
Lemma keeps_CheckIntraCodeItem : keeps f (CheckIntraCodeItem df base_).
Proof. unfold CheckIntraCodeItem, CheckTryItem. keeps. Qed.
Lemma keeps_CheckIntraStringDataItem : keeps f (CheckIntraStringDataItem df).
Proof. unfold CheckIntraStringDataItem, CheckStringChar. keeps. Qed.
Lemma keeps_CheckIntraDebugInfoItem : keeps f (CheckIntraDebugInfoItem df).
Proof.
  assert (Hl : forall fuel, keeps f (CheckDebugLoop df fuel)).
  { intros fuel. induction fuel as [|fuel IH]; cbn [CheckDebugLoop]; [keeps|].
    unfold CheckDebugOpcode, CheckDebugRegister, CheckDebugIndex. keeps. }
  unfold CheckIntraDebugInfoItem, CheckDebugIndex. keeps.
Qed.
Lemma keeps_CheckIntraAnnotationItem : keeps f (CheckIntraAnnotationItem df base_).
Proof. unfold CheckIntraAnnotationItem, CheckEncodedAnnotation, CheckEncodedValue. keeps. Qed.
Lemma keeps_CheckIntraAnnotationsDirectoryItem : keeps f (CheckIntraAnnotationsDirectoryItem df base_).
Proof. unfold CheckIntraAnnotationsDirectoryItem, CheckAnnotationsList. keeps. Qed.
#[local] Hint Resolve keeps_CheckIntraClassDataItem keeps_CheckIntraCodeItem
  keeps_CheckIntraStringDataItem keeps_CheckIntraDebugInfoItem keeps_CheckIntraAnnotationItem
  keeps_CheckIntraAnnotationsDirectoryItem : frames.

Lemma keeps_CheckIntraItem type : keeps f (CheckIntraItem df base_ type).
Proof.
  unfold CheckIntraItem, CheckFixedItem, CheckEncodedArray, CheckEncodedValue. keeps.
Qed.

(** *** Items of two sections *)

Lemma keeps_CheckLoadStringByIdx i : keeps f (CheckLoadStringByIdx df i).
Proof. unfold CheckLoadStringByIdx. keeps. Qed.
#[local] Hint Resolve keeps_CheckLoadStringByIdx : frames.
Lemma keeps_CheckLoadStringByTypeIdx i : keeps f (CheckLoadStringByTypeIdx df i).
Proof. unfold CheckLoadStringByTypeIdx. keeps. Qed.
Lemma keeps_CheckLoadFieldId i : keeps f (CheckLoadFieldId df i).
Proof. unfold CheckLoadFieldId. keeps. Qed.
Lemma keeps_CheckLoadMethodId i : keeps f (CheckLoadMethodId df i).
Proof. unfold CheckLoadMethodId. keeps. Qed.
#[local] Hint Resolve keeps_CheckLoadStringByTypeIdx keeps_CheckLoadFieldId keeps_CheckLoadMethodId : frames.
Lemma keeps_CheckOffsetToTypeMap o t : keeps f (CheckOffsetToTypeMap o t).
Proof. unfold CheckOffsetToTypeMap. keeps. Qed.
#[local] Hint Resolve keeps_CheckOffsetToTypeMap : frames.
Lemma keeps_CheckOptionalOffset o t : keeps f (CheckOptionalOffset o t).
Proof. unfold CheckOptionalOffset. keeps. Qed.
Lemma keeps_CheckDescriptor s c fmt : keeps f (CheckDescriptor s c fmt).
Proof. unfold CheckDescriptor. keeps. Qed.
Lemma keeps_CheckTripleOrder a b fmt : keeps f (CheckTripleOrder a b fmt).
Proof. unfold CheckTripleOrder. keeps. Qed.
Lemma keeps_CheckShortyDescriptorMatch c d r : keeps f (CheckShortyDescriptorMatch c d r).
Proof. unfold CheckShortyDescriptorMatch. keeps. Qed.
#[local] Hint Resolve keeps_CheckOptionalOffset keeps_CheckDescriptor keeps_CheckTripleOrder
  keeps_CheckShortyDescriptorMatch : frames.
Lemma keeps_CheckShorty shorty it : keeps f (CheckShorty df shorty it).
Proof. revert it. induction shorty as [|c shorty IH]; intros it; cbn [CheckShorty]; keeps. Qed.
Lemma keeps_CheckProtoOrder fuel a b : keeps f (CheckProtoOrder df fuel a b).
Proof. revert a b. induction fuel as [|fuel IH]; intros a b; cbn [CheckProtoOrder]; keeps. Qed.
#[local] Hint Resolve keeps_CheckShorty keeps_CheckProtoOrder : frames.

Lemma keeps_CheckInterStringIdItem : keeps f (CheckInterStringIdItem df).
Proof. unfold CheckInterStringIdItem. keeps. Qed.
Lemma keeps_CheckInterTypeIdItem : keeps f (CheckInterTypeIdItem df).
Proof. unfold CheckInterTypeIdItem, LOAD_STRING. keeps. Qed.
Lemma keeps_CheckInterProtoIdItem : keeps f (CheckInterProtoIdItem df).
Proof. unfold CheckInterProtoIdItem, LOAD_STRING, LOAD_STRING_BY_TYPE, ProtoIdAt. keeps. Qed.
Lemma keeps_CheckInterFieldIdItem : keeps f (CheckInterFieldIdItem df).
Proof. unfold CheckInterFieldIdItem, LOAD_STRING, LOAD_STRING_BY_TYPE, FieldIdAt. keeps. Qed.
Lemma keeps_CheckInterMethodIdItem : keeps f (CheckInterMethodIdItem df).
Proof. unfold CheckInterMethodIdItem, LOAD_STRING, LOAD_STRING_BY_TYPE, MethodIdAt. keeps. Qed.
End ItemsKeep.

(** Nothing between sections changes the map of offsets. *)
Section KeepsMap.
Variables (df : DexFile) (base_ : Z).
Abbreviation kept := (keeps offset_to_type_map_).

Lemma kept_InsertClass c : kept (InsertClass c).
Proof. by intros st b st' [= _ <-]. Qed.
Lemma kept_set_previous q : kept (set_previous q).
Proof. by intros st b st' [= _ <-]. Qed.
#[local] Hint Resolve kept_InsertClass kept_set_previous keeps_CheckLoadFieldId keeps_CheckLoadMethodId
  keeps_CheckOffsetToTypeMap keeps_CheckOptionalOffset keeps_CheckDescriptor
  keeps_CheckLoadStringByTypeIdx keeps_CheckInterStringIdItem keeps_CheckInterTypeIdItem
  keeps_CheckInterProtoIdItem keeps_CheckInterFieldIdItem keeps_CheckInterMethodIdItem : frames.

Lemma kept_data_definer p : kept (FindFirstClassDataDefiner df p).
Proof. unfold FindFirstClassDataDefiner, LOAD_FIELD, LOAD_METHOD. keeps. Qed.
Lemma kept_annotations_definer p : kept (FindFirstAnnotationsDirectoryDefiner df p).
Proof. unfold FindFirstAnnotationsDirectoryDefiner, LOAD_FIELD, LOAD_METHOD. keeps. Qed.
#[local] Hint Resolve kept_data_definer kept_annotations_definer : frames.
Lemma kept_CheckDefiner o c d fmt : (forall p, kept (d p)) -> kept (CheckDefiner o c d fmt).
Proof. intros Hd. unfold CheckDefiner. keeps. Qed.
#[local] Hint Resolve kept_CheckDefiner : frames.
Lemma kept_CheckInterClassDefItem : kept (CheckInterClassDefItem df).
Proof.
  unfold CheckInterClassDefItem, CheckInterfaceDescriptor, CheckInterfaceUnique, LOAD_STRING_BY_TYPE,
    ClassDefAt, TypeItemAt. keeps.
Qed.
Lemma kept_members fuel has_next member it :
  (forall it, kept (member it)) -> kept (CheckInterMembers fuel has_next member it).
Proof. intros Hm. revert it. induction fuel as [|fuel IH]; intros it; cbn [CheckInterMembers]; keeps. Qed.
Lemma kept_CheckInterClassDataItem : kept (CheckInterClassDataItem df).
Proof.
  unfold CheckInterClassDataItem, CheckInterField, CheckInterMethod, LOAD_FIELD, LOAD_METHOD.
  repeat (keeps_step || (apply kept_members; intros ?) || solve [auto with frames]).
Qed.
Lemma kept_annotations_list l c t load d fmt :
  (forall i, kept (load i)) -> kept (CheckInterAnnotationsList df l c t load d fmt).
Proof. intros Hl. unfold CheckInterAnnotationsList. keeps. Qed.
Lemma kept_load_field_class i : kept (load_field_class df i).
Proof. unfold load_field_class. keeps. Qed.
Lemma kept_load_method_class i : kept (load_method_class df i).
Proof. unfold load_method_class. keeps. Qed.
#[local] Hint Resolve kept_annotations_list kept_load_field_class kept_load_method_class
  kept_CheckInterClassDefItem kept_CheckInterClassDataItem : frames.
Lemma kept_CheckInterAnnotationsDirectoryItem : kept (CheckInterAnnotationsDirectoryItem df).
Proof. unfold CheckInterAnnotationsDirectoryItem. keeps. Qed.
#[local] Hint Resolve kept_CheckInterAnnotationsDirectoryItem : frames.

Lemma kept_CheckInterItem type : kept (CheckInterItem df type).
Proof.
  unfold CheckInterItem, CheckInterAnnotationSetRefList, CheckInterAnnotationSetItem. keeps.
Qed.
#[local] Hint Resolve kept_CheckInterItem : frames.
Lemma kept_CheckInterSectionIterate o c t : kept (CheckInterSectionIterate df o c t).
Proof. unfold CheckInterSectionIterate, CheckInterSectionItem. keeps. Qed.
#[local] Hint Resolve kept_CheckInterSectionIterate : frames.
Lemma kept_CheckInterSectionOf i : kept (CheckInterSectionOf df i).
Proof. unfold CheckInterSectionOf, map_item, ReadMapItem. keeps. Qed.
End KeepsMap.
