(* ===== verification/VerifierInvariant.v ===== *)
(** * What a successful run of the verifier has checked

    The invariant of the pass over the sections: the cursor is where the sections say, and every
    offset in [offset_to_type_map_] is one at which an item of the recorded type was checked. *)
From stdpp Require Import fin_maps gmap strings.
From S2P Require Import Prelude.
From S2P Require Import DexFile.
From S2P Require Import ClassData.
From S2P Require Import DexFileVerifier.
From S2P Require Import VerifierLogic.
Local Open Scope Z_scope.

Section Invariant.
Variables (df : DexFile) (base_ : Z) (adler32 : list Z -> Z).

(** ** Ranges *)

Lemma list_size_true start count size st st' :
  CheckListSize df base_ start count size st = Done true st' ->
  st' = st /\ 0 <= start /\ start + count * size <= Size df.
Proof.
  unfold CheckListSize. intros H. destruct (_ <? count); vinv.
  apply negb_true_iff, orb_false_iff in E as [E1 E2]. split_all; [done|lia|lia].
Qed.

Lemma rd_range n off data v : rd n off data = Some v -> 0 <= off /\ off + Z.of_nat n <= Z.of_nat (length data).
Proof. unfold rd. destruct (_ && _) eqn:E; [|done]. apply andb_prop in E as [E1 E2]. lia. Qed.

(** ** The map *)

Definition read_map_item (i : Z) : option MapItem :=
  let off := map_off_ (hdr df) + 4 + 12 * i in
  t ← rd 2 off (begin_ df); n ← rd 4 (off + 4) (begin_ df); o ← rd 4 (off + 8) (begin_ df);
  Some (mkMapItem t n o).

Lemma map_item_done i st it st' :
  map_item df i st = Done it st' -> read_map_item i = Some it /\ st' = st.
Proof.
  unfold map_item, ReadMapItem, read_map_item. intros H. vinv.
  match goal with H1 : rd 2 _ _ = _, H2 : rd 4 _ _ = _, H3 : rd 4 _ _ = _ |- _ => rewrite H1; cbn; rewrite H2; cbn; rewrite H3 end.
  done.
Qed.

(** The [i]-th item of the map is in the file. *)
Definition mapped (count : Z) (t : Z) : Prop :=
  exists i it, 0 <= i < count /\ read_map_item i = Some it /\ type_ it = t.

(** The types in the order of their bits. *)
Definition map_types : list Z :=
  [kDexTypeHeaderItem; kDexTypeStringIdItem; kDexTypeTypeIdItem; kDexTypeProtoIdItem;
   kDexTypeFieldIdItem; kDexTypeMethodIdItem; kDexTypeClassDefItem; kDexTypeMapList; kDexTypeTypeList;
   kDexTypeAnnotationSetRefList; kDexTypeAnnotationSetItem; kDexTypeClassDataItem; kDexTypeCodeItem;
   kDexTypeStringDataItem; kDexTypeDebugInfoItem; kDexTypeAnnotationItem; kDexTypeEncodedArrayItem;
   kDexTypeAnnotationsDirectoryItem].

Lemma mask_index t :
  MapTypeToBitMask t = 0 \/
  exists k, map_types !! k = Some t /\ MapTypeToBitMask t = 2 ^ Z.of_nat k.
Proof.
  unfold MapTypeToBitMask.
  assert (Hin : forall k : nat, map_types !! k = Some t -> 1 ≪ Z.of_nat k = 0 \/
     exists k', map_types !! k' = Some t /\ 1 ≪ Z.of_nat k = 2 ^ Z.of_nat k').
  { intros k Hk. right. exists k. split; [done|]. rewrite Z.shiftl_1_l. done. }
  repeat match goal with
  | |- (if ?t =? ?c then 1 ≪ ?k else _) = 0 \/ _ =>
      destruct (Z.eqb_spec t c) as [->|_]; [exact (Hin (Z.to_nat k) eq_refl)|]
  end.
  by left.
Qed.

Lemma bit_of_type t t' (k : nat) :
  map_types !! k = Some t -> Z.testbit (MapTypeToBitMask t') (Z.of_nat k) = true -> t' = t.
Proof.
  intros Hk Hb. destruct (mask_index t') as [E|(k' & Hk' & E)]; rewrite E in Hb; [by rewrite Z.bits_0 in Hb|].
  rewrite Z.pow2_bits_eqb in Hb by lia. apply Z.eqb_eq, Nat2Z.inj in Hb as ->. congruence.
Qed.

Lemma land_bit_nonzero used (k : nat) :
  Z.land used (2 ^ Z.of_nat k) <> 0 -> Z.testbit used (Z.of_nat k) = true.
Proof.
  intros H. destruct (Z.testbit used (Z.of_nat k)) eqn:E; [done|]. destruct H.
  apply Z.bits_inj_0. intros i. rewrite Z.land_spec, Z.pow2_bits_eqb by lia.
  destruct (Z.eqb_spec (Z.of_nat k) i) as [<-|]; [by rewrite E|apply andb_false_r].
Qed.

Lemma map_item_checked i vars st vars' st' :
  CheckMapItem df i vars st = Done (true, vars') st' ->
  st' = st /\ exists it, read_map_item i = Some it /\ offset_ it < file_size_ (hdr df) /\
    vars'.2 = Z.lor vars.2 (MapTypeToBitMask (type_ it)).
Proof.
  unfold CheckMapItem. destruct vars as [[[last items] left] used]. intros H.
  vinv. match goal with H : map_item _ _ _ = _ |- _ => apply map_item_done in H as [Hit ->] end.
  destruct (_ && _); [by vinv|]. destruct (Z.leb_spec (file_size_ (hdr df)) (offset_ a)) as [|Ho]; [by vinv|].
  destruct (_ && _); [by vinv|]. destruct (_ =? 0); [by vinv|]. destruct (negb _); [by vinv|].
  vinv. split; [done|]. by exists a.
Qed.

Lemma map_items_checked n last items left st vars' st' :
  for_each_with n 0 (last, items, left, 0) (CheckMapItem df) st = Done (true, vars') st' ->
  st' = st /\
  (forall j, 0 <= j < Z.of_nat n -> exists it, read_map_item j = Some it /\ offset_ it < file_size_ (hdr df)) /\
  (forall k : nat, Z.testbit vars'.2 (Z.of_nat k) = true ->
     exists j it, 0 <= j < Z.of_nat n /\ read_map_item j = Some it /\
       Z.testbit (MapTypeToBitMask (type_ it)) (Z.of_nat k) = true).
Proof.
  intros H.
  apply (for_each_with_inv (fun i vars st2 => st2 = st /\
    (forall j, 0 <= j < i -> exists it, read_map_item j = Some it /\ offset_ it < file_size_ (hdr df)) /\
    (forall k : nat, Z.testbit vars.2 (Z.of_nat k) = true ->
       exists j it, 0 <= j < i /\ read_map_item j = Some it /\
         Z.testbit (MapTypeToBitMask (type_ it)) (Z.of_nat k) = true))) in H; [exact H| |].
  - split_all; [done|lia|]. intros k Hk. cbn in Hk. by rewrite Z.bits_0 in Hk.
  - clear. intros j vars st1 vars' st2 Hj (-> & Hitems & Hbits) H.
    apply map_item_checked in H as (-> & it & Hit & Ho & Eb). split_all; [done| |].
    + intros i Hi. destruct (decide (i = j)) as [->|]; [by exists it|]. apply Hitems. lia.
    + intros k Hk. rewrite Eb, Z.lor_spec in Hk. apply orb_prop in Hk as [Hk|Hk].
      * destruct (Hbits k Hk) as (i & it' & Hi & Hr). exists i, it'. split; [lia|done].
      * exists j, it. split; [lia|done].
Qed.

Lemma section_mapped_true used t o n fmt st st' :
  CheckSectionMapped used t o n fmt st = Done true st' ->
  st' = st /\ (o <> 0 \/ n <> 0 -> Z.land used (MapTypeToBitMask t) <> 0).
Proof.
  unfold CheckSectionMapped. intros H. vinv. split; [done|]. intros Hon Hz. rewrite Hz in E.
  destruct (Z.eqb_spec o 0), (Z.eqb_spec n 0); done || lia.
Qed.

(** The sections of the header that are not empty are in the map, and every section starts in
    the file. *)
Lemma CheckMap_true st st' :
  CheckMap df base_ st = Done true st' ->
  st' = st /\ exists count, rd 4 (map_off_ (hdr df)) (begin_ df) = Some count /\
    (forall i, 0 <= i < count -> exists it, read_map_item i = Some it /\ offset_ it < file_size_ (hdr df)) /\
    (forall t o n, expected_section df t = Some (o, n) -> o <> 0 \/ n <> 0 -> mapped count t).
Proof.
  unfold CheckMap. intros H. vinv.
  repeat match goal with H : CheckListSize _ _ _ _ _ _ = _ |- _ => apply list_size_true in H as [-> _] end.
  destruct b; [|by vinv]. destruct p as [[[? ?] ?] used].
  match goal with H : for_each_with _ _ _ _ _ = _ |- _ =>
    apply map_items_checked in H as (-> & Hitems & Hbits) end.
  cbn [snd] in *. vinv. repeat match goal with H : CheckSectionMapped _ _ _ _ _ _ = _ |- _ =>
    apply section_mapped_true in H as [-> ?] end.
  split; [done|]. eexists. split_all; [done|intros i Hi; apply Hitems; lia|].
  assert (Hm : forall (k : nat) t, map_types !! k = Some t -> MapTypeToBitMask t = 2 ^ Z.of_nat k ->
                 Z.land used (MapTypeToBitMask t) <> 0 -> mapped a t).
  { intros k t Hk Ek Hl. rewrite Ek in Hl. apply land_bit_nonzero, Hbits in Hl as (j & it & Hj & Hr & Hb).
    exists j, it. split; [lia|split; [done|]]. by apply (bit_of_type t _ k). }
  intros t o n. unfold expected_section.
  repeat match goal with
  | |- (if ?t =? ?c then _ else _) = _ -> _ => destruct (Z.eqb_spec t c) as [->|_]; [intros [= <- <-] Hon|]
  end; try done;
  match goal with H : _ -> Z.land used (MapTypeToBitMask ?t) <> 0 |- mapped _ ?t =>
    first [exact (Hm 1%nat t eq_refl eq_refl (H Hon))|exact (Hm 2%nat t eq_refl eq_refl (H Hon))
          |exact (Hm 3%nat t eq_refl eq_refl (H Hon))|exact (Hm 4%nat t eq_refl eq_refl (H Hon))
          |exact (Hm 5%nat t eq_refl eq_refl (H Hon))|exact (Hm 6%nat t eq_refl eq_refl (H Hon))] end.
Qed.

(** ** Sections *)

(** An item of type [t] at [o] passes its check. *)
Definition checked (o t : Z) : Prop :=
  0 <= o /\ exists st st', ptr_ st = o /\ CheckIntraItem df base_ t st = Done true st'.

Definition map_ok (m : gmap Z Z) : Prop := forall o t, m !! o = Some t -> checked o t.

Lemma kept_map : forall p st, offset_to_type_map_ (with_ptr p st) = offset_to_type_map_ st.
Proof. done. Qed.

Lemma padding_true offset aligned st st' :
  CheckPadding df base_ offset aligned st = Done true st' -> ptr_ st = offset ->
  0 <= offset /\ ptr_ st' = Z.max offset (u32 aligned) /\ offset_to_type_map_ st' = offset_to_type_map_ st.
Proof.
  intros H Hp. assert (Hm : offset_to_type_map_ st' = offset_to_type_map_ st).
  { eapply (keeps_CheckPadding offset_to_type_map_); done. }
  assert (Hu : 0 <= u32 aligned) by apply (u_range 32 aligned ltac:(lia)).
  unfold CheckPadding in H. cbv zeta in H. destruct (Z.ltb_spec offset (u32 aligned)); [|vinv; split_all; [lia..|done]].
  vinv. match goal with H : CheckListSize _ _ _ _ _ _ = _ |- _ => apply list_size_true in H as (-> & Ho & _) end.
  split; [done|]. split; [|done].
  apply (for_each_inv (fun j st2 => ptr_ st2 = j)) in H; [lia|done|].
  intros j st1 st2 _ Hj Hb. unfold byte_at_ptr in Hb. vinv. done.
Qed.

Lemma align_bounds m offset :
  (m = 0 \/ m = 3) -> offset <= Align m offset <= offset + 3 /\ (m = 3 -> Align m offset = 4 * ((offset + 3) / 4)).
Proof.
  intros [-> | ->]; unfold Align.
  - change (Z.lnot 0) with (-1). rewrite Z.land_m1_r. split; [lia|done].
  - assert (E : Z.land (offset + 3) (Z.lnot 3) = 4 * ((offset + 3) / 4)).
    { change 3 with (Z.ones 2) at 2. rewrite <- Z.ldiff_land, Z.ldiff_ones_r, Z.shiftr_div_pow2, Z.shiftl_mul_pow2 by lia.
      change (2 ^ 2) with 4. lia. }
    rewrite E. split; [div_lia|done].
Qed.

Lemma intra_mask type : IntraAlignmentMask type = 0 \/ IntraAlignmentMask type = 3.
Proof. unfold IntraAlignmentMask. destruct (_ || _); auto. Qed.

Context (Hsize : Size df + 4 <= 2 ^ 32).

(** One item of a section, from the cursor on. *)
Lemma section_item_true type i offset st offset' st' :
  CheckIntraSectionItem df base_ type i offset st = Done (true, offset') st' ->
  ptr_ st = offset -> offset <= Size df -> map_ok (offset_to_type_map_ st) ->
  ptr_ st' = offset' /\ offset' <= Size df /\ map_ok (offset_to_type_map_ st').
Proof.
  intros H Hp Ho Hm. unfold CheckIntraSectionItem in H. cbv zeta in H. vinv. destruct a; [|by vinv].
  cbn [negb] in H. vinv. destruct a; [|by vinv]. cbn [negb] in H.
  match goal with H : CheckPadding _ _ _ _ _ = _ |- _ => apply padding_true in H as (Hlo & Hp1 & Hm1); [|done] end.
  destruct (align_bounds (IntraAlignmentMask type) offset (intra_mask type)) as [Hal _].
  set (al := Align _ _) in *. clearbody al.
  assert (Eal : u32 al = al) by (apply u_small; unfold is_u; reduce_pow; lia).
  rewrite Eal in *. rewrite Z.max_r in Hp1 by lia.
  match goal with H : CheckIntraItem _ _ _ _ = _ |- _ => rename H into Hi end.
  assert (Hm2 : offset_to_type_map_ st1 = offset_to_type_map_ st0).
  { eapply (keeps_CheckIntraItem offset_to_type_map_); done. }
  assert (Hc : checked al type) by (split; [lia|by exists st0, st1]).
  assert (Hok1 : map_ok (offset_to_type_map_ st1)) by (by rewrite Hm2, Hm1).
  destruct (IsDataSectionType type); vinv; (split; [done|]; split; [lia|]); [|done].
  match goal with H : PutOffsetType _ _ _ = _ |- _ => injection H as H end. subst st'.
  intros o t. cbn [offset_to_type_map_]. destruct (_ !! ptr_ st0) eqn:Em; [apply Hok1|].
  destruct (decide (o = ptr_ st0)) as [->|]; [rewrite lookup_insert_eq; by intros [= <-]|].
  rewrite lookup_insert_ne by done. apply Hok1.
Qed.

Lemma section_iterate_true offset count type st st' :
  CheckIntraSectionIterate df base_ offset count type st = Done true st' ->
  ptr_ st = offset -> offset <= Size df -> map_ok (offset_to_type_map_ st) ->
  map_ok (offset_to_type_map_ st').
Proof.
  unfold CheckIntraSectionIterate. intros H Hp Ho Hm. vinv.
  match goal with H : for_each_with _ _ _ _ _ = _ |- _ =>
    apply (for_each_with_inv (fun _ offset st => ptr_ st = offset /\ offset <= Size df /\
      map_ok (offset_to_type_map_ st))) in H; [tauto|done|] end.
  intros j o st1 o' st2 _ (? & ? & ?) Hb. by eapply section_item_true.
Qed.

(** One section of the map: an id section is the one of the header. *)
Lemma section_of_true count i offset st offset' st' it :
  CheckIntraSectionOf df base_ count i offset st = Done (true, offset') st' ->
  read_map_item i = Some it -> 0 <= offset_ it <= Size df ->
  ptr_ st = offset -> map_ok (offset_to_type_map_ st) ->
  ptr_ st' = offset' /\ map_ok (offset_to_type_map_ st') /\
  (forall o n, expected_section df (type_ it) = Some (o, n) -> offset_ it = o /\ item_size_ it = n).
Proof.
  intros H Hit Ho Hp Hm. unfold CheckIntraSectionOf in H. vinv.
  match goal with H : map_item _ _ _ = _ |- _ => apply map_item_done in H as [Hit' ->] end.
  rewrite Hit in Hit'. injection Hit' as <-.
  destruct a0; [|by vinv]. cbn [negb] in H.
  match goal with H : CheckPadding _ _ _ _ _ = _ |- _ => apply padding_true in H as (Hlo & Hp1 & Hm1); [|done] end.
  rewrite u_small in Hp1 by (unfold is_u; reduce_pow; lia).
  destruct (Z.ltb_spec (offset_ it) offset) as [|Hle]; [by vinv|]. rewrite Z.max_r in Hp1 by lia.
  rewrite <- Hm1 in Hm.
  destruct (Z.eqb_spec (type_ it) kDexTypeHeaderItem) as [Et|_].
  { destruct (negb _); [by vinv|]. destruct (negb _); [by vinv|]. vinv.
    split_all; [done|done|]. by rewrite Et. }
  destruct (Z.eqb_spec (type_ it) kDexTypeMapList) as [Et|_].
  { destruct (negb _); [by vinv|]. destruct (negb _); [by vinv|]. vinv.
    split_all; [cbn; lia|done|]. by rewrite Et. }
  vinv.
  destruct (expected_section df (type_ it)) as [[o n]|] eqn:Ee.
  - match goal with H : CheckIntraIdSection _ _ _ _ _ _ = _ |- _ =>
      unfold CheckIntraIdSection in H; rewrite Ee in H; vinv end.
    split_all; [done| |intros o' n' [= <- <-]; lia].
    eapply section_iterate_true; [done|done|lia|done].
  - split_all; [done| |done].
    destruct (bool_decide _); [|by vinv].
    match goal with H : CheckIntraDataSection _ _ _ _ _ _ = _ |- _ =>
      unfold CheckIntraDataSection in H; cbv zeta in H; vinv end.
    eapply section_iterate_true; [done|done|lia|done].
Qed.

Context (Hbytes : Forall is_byte (begin_ df)).

Lemma rd_bound n off v : rd n off (begin_ df) = Some v -> 0 <= v < 256 ^ Z.of_nat n.
Proof. unfold rd. destruct (_ && _); [|done]. intros [= <-]. by apply get_le_range. Qed.

Lemma map_item_offset i it : read_map_item i = Some it -> 0 <= offset_ it.
Proof.
  unfold read_map_item. intros H.
  destruct (rd 2 _ _) as [t|]; [|done]. cbn in H. destruct (rd 4 (_ + 4) _) as [n|]; [|done]. cbn in H.
  destruct (rd 4 (_ + 8) _) as [o|] eqn:Eo; [|done]. cbn in H. injection H as <-. cbn.
  by apply rd_bound in Eo as [? _].
Qed.

Definition sections_expected (count : Z) : Prop :=
  forall i it o n, 0 <= i < count -> read_map_item i = Some it ->
    expected_section df (type_ it) = Some (o, n) -> offset_ it = o /\ item_size_ it = n.

Lemma CheckIntraSection_true count st st' :
  CheckIntraSection df base_ st = Done true st' ->
  rd 4 (map_off_ (hdr df)) (begin_ df) = Some count -> map_ok (offset_to_type_map_ st) ->
  (forall i, 0 <= i < count -> exists it, read_map_item i = Some it /\ offset_ it <= Size df) ->
  map_ok (offset_to_type_map_ st') /\ sections_expected count.
Proof.
  intros H Hcount Hm Hitems. unfold CheckIntraSection in H. vinv.
  match goal with H : for_each_with _ _ _ _ _ = _ |- _ => rename H into Hloop end.
  apply (for_each_with_inv (fun j offset st2 => ptr_ st2 = offset /\ map_ok (offset_to_type_map_ st2) /\
    forall i it o n, 0 <= i < j -> read_map_item i = Some it ->
      expected_section df (type_ it) = Some (o, n) -> offset_ it = o /\ item_size_ it = n)) in Hloop.
  - destruct Hloop as (_ & Hm' & He). split; [done|]. intros i it o n Hi. apply He. lia.
  - split_all; [done|done|lia].
  - intros j offset st1 offset' st2 Hj (Hp & Hm1 & He) Hb.
    destruct (Hitems j) as (it & Hit & Ho); [lia|]. pose proof (map_item_offset _ _ Hit) as Ho'.
    eapply section_of_true in Hb as (Hp' & Hm' & He'); [|exact Hit|lia|done|done].
    split_all; [done|done|]. intros i it' o n Hi Hr Hx.
    destruct (decide (i = j)) as [->|]; [|apply (He i it' o n); [lia|done|done]].
    rewrite Hit in Hr. injection Hr as <-. by apply He'.
Qed.

(** What the pass between sections has checked, by the map as it is at the end. *)
Definition cross_checked (m : gmap Z Z) (offset count type : Z) : Prop :=
  exists st st', CheckInterSectionIterate df offset count type st = Done true st' /\
    offset_to_type_map_ st = m.

Lemma inter_types_disjoint t : t ∈ inter_types -> t ∈ skipped_types -> False.
Proof.
  intros H. unfold inter_types, skipped_types in *. set_unfold. intros Hs.
  repeat match goal with H : _ \/ _ |- _ => destruct H as [->|H] end; try done;
    intuition discriminate.
Qed.

Lemma inter_sections_true n st st' :
  for_each n 0 (CheckInterSectionOf df) st = Done true st' ->
  offset_to_type_map_ st' = offset_to_type_map_ st /\
  forall i it, 0 <= i < Z.of_nat n -> read_map_item i = Some it -> type_ it ∈ inter_types ->
    cross_checked (offset_to_type_map_ st) (offset_ it) (item_size_ it) (type_ it).
Proof.
  intros H. apply (for_each_inv (fun j st2 => offset_to_type_map_ st2 = offset_to_type_map_ st /\
    forall i it, 0 <= i < j -> read_map_item i = Some it -> type_ it ∈ inter_types ->
      cross_checked (offset_to_type_map_ st) (offset_ it) (item_size_ it) (type_ it))) in H; [exact H| |].
  - split; [done|lia].
  - intros j st1 st2 Hj (Hm & Hc) Hb. split; [by rewrite (kept_CheckInterSectionOf df j _ _ _ Hb)|].
    intros i it Hi Hr Ht. destruct (decide (i = j)) as [->|]; [|apply (Hc i); [lia|done|done]].
    unfold CheckInterSectionOf in Hb. apply bind_done in Hb as (it' & st3 & Hit & Hb).
    apply map_item_done in Hit as [Hr' ->]. rewrite Hr in Hr'. injection Hr' as <-.
    rewrite bool_decide_false in Hb by (intros Hs; by eapply inter_types_disjoint).
    rewrite bool_decide_true in Hb by done. by exists st1, st2.
Qed.

(** The whole of [Verify]. *)
Record verified (m : gmap Z Z) : Prop := {
  verified_size : file_size_ (hdr df) = Size df;
  verified_map : map_ok m;
  verified_section : forall t o n, expected_section df t = Some (o, n) -> o <> 0 \/ n <> 0 ->
    t ∈ inter_types -> cross_checked m o n t;
}.
Lemma CheckHeader_true st st' :
  CheckHeader df adler32 st = Done true st' -> st' = st /\ file_size_ (hdr df) = Size df.
Proof.
  unfold CheckHeader. intros H.
  assert (Hv : forall o n st st', CheckValidOffsetAndSize df o n st = Done true st' -> st' = st).
  { unfold CheckValidOffsetAndSize. intros o n st1 st2 Hv. destruct (_ && _); [by vinv|]. by vinv. }
  vinv. repeat match goal with H : CheckValidOffsetAndSize _ _ _ _ = _ |- _ => apply Hv in H as -> end.
  split; [done|]. lia.
Qed.

Lemma VerifyFile_true st' :
  VerifyFile df base_ adler32 new_verifier = Done true st' -> verified (offset_to_type_map_ st').
Proof.
  unfold VerifyFile. intros H.
  apply and_then_true in H as (st1 & Hh & H). apply CheckHeader_true in Hh as [-> Hsz].
  apply and_then_true in H as (st2 & Hmap & H). apply CheckMap_true in Hmap as (-> & count & Hcount & Hitems & Hmapped).
  apply and_then_true in H as (st3 & Hintra & H).
  apply (CheckIntraSection_true count) in Hintra as [Hok Hexp]; [|done|by intros o t|].
  2:{ intros i Hi. destruct (Hitems i Hi) as (it & Hit & Ho). exists it. split; [done|lia]. }
  unfold CheckInterSection in H. apply bind_done in H as (count' & st4 & Hc & H).
  apply lift_done in Hc as [Hc <-]. rewrite Hcount in Hc. injection Hc as <-.
  apply inter_sections_true in H as [Hm Hcross].
  split; [done|by rewrite Hm|]. intros t o n He Hon Ht.
  destruct (Hmapped t o n He Hon) as (i & it & Hi & Hr & <-).
  destruct (Hexp i it o n Hi Hr He) as [<- <-]. rewrite Hm. apply (Hcross i); [lia|done|done].
Qed.
End Invariant.
