(* ===== verification/VerifiedFile.v ===== *)
(** * Verified dex files

    What the rest of the system relies on, for a file that [DexFileVerifier::Verify] accepts: its
    strings are well-formed modified UTF-8, its tables are strictly sorted and in the file, so that
    the searches of [DexFile] are correct on it. *)
From stdpp Require Import fin_maps gmap strings.
From S2P Require Import Prelude.
From S2P Require Import Leb128.
From S2P Require Import Utf.
From S2P Require Import DexFile.
From S2P Require Import ClassData.
From S2P Require Import TryCatch.
From S2P Require Import Descriptors.
From S2P Require Import DexFileVerifier.
From S2P Require Import VerifierLogic.
From S2P Require Import VerifierInvariant.
Local Open Scope Z_scope.

(** ** Strings of single units

    The strings of a dex file have no four-byte sequences: a surrogate pair is written as two
    units of three bytes. *)
Definition unit_symbols (us : list Z) : list Symbol := (fun u => (u, 0)) <$> us.

Lemma unit_symbols_wf us : Forall is_u16 us -> Forall wf_symbol (unit_symbols us).
Proof. intros H. apply Forall_fmap. eapply Forall_impl; [exact H|]. intros u Hu. by split; [|left]. Qed.

Lemma unit_symbols_flat us : concat (symbol_units <$> unit_symbols us) = us.
Proof. induction us as [|u us IH]; [done|]. cbn. by rewrite <- IH at 2. Qed.

Lemma compare_units us vs r1 r2 :
  Forall is_u16 us -> Forall is_u16 vs ->
  exists r, CompareModifiedUtf8ToModifiedUtf8AsUtf16CodePointValues
              (c_str (unit_symbols us) r1) (c_str (unit_symbols vs) r2) = Some r /\
    (r ?= 0) = lex us vs.
Proof.
  intros Hu Hv. pose proof (unit_symbols_wf us Hu) as Wu. pose proof (unit_symbols_wf vs Hv) as Wv.
  destruct (compare_modified (length (c_str (unit_symbols us) r1)) (unit_symbols us) (unit_symbols vs) r1 r2)
    as (r & E & Hr); try done; [|by apply Utf.c_str_length|].
  - apply Forall_fmap, Forall_true. intros u. apply Forall_fmap, Forall_true. done.
  - exists r. by rewrite !unit_symbols_flat in Hr.
Qed.

Section Strings.
Variables (df : DexFile) (base_ : Z).
Hypothesis (Hbytes : Forall is_byte (begin_ df)).
Abbreviation at_ p := (drop (Z.to_nat p) (begin_ df)).

(** The byte at the cursor. *)
Lemma next_byte_done st b st' :
  next_byte df st = Done b st' ->
  0 <= ptr_ st /\ at_ (ptr_ st) = b :: at_ (ptr_ st') /\ is_byte b /\ ptr_ st' = ptr_ st + 1.
Proof.
  unfold next_byte, byte_at_ptr. intros H. vinv.
  match goal with H : rd 1 _ _ = Some _ |- _ => rename H into Hrd end.
  pose proof (rd_range _ _ _ _ Hrd) as [H0 Hl]. unfold rd in Hrd.
  rewrite (proj2 (Z.leb_le _ _)) in Hrd by lia. rewrite (proj2 (Z.leb_le _ _)) in Hrd by lia. cbn [andb] in Hrd.
  injection Hrd as Hb. unfold get_le, load in Hb. cbn [ptr_ with_ptr].
  destruct (lookup_lt_is_Some_2 (begin_ df) (Z.to_nat (ptr_ st0))) as [x Hx]; [lia|].
  rewrite (drop_S _ _ _ Hx) in Hb. cbn [take firstn le_value] in Hb. rewrite take_0 in Hb. cbn [le_value] in Hb.
  assert (x = b) as -> by lia.
  rewrite (drop_S _ _ _ Hx). replace (Z.to_nat (ptr_ st0 + 1)) with (S (Z.to_nat (ptr_ st0))) by lia.
  split_all; [done|done| |done]. eapply Forall_lookup_1; [exact Hbytes|exact Hx].
Qed.

Lemma decode_done reader st v st' :
  decode df reader st = Done v st' -> local_reader false reader ->
  reader (at_ (ptr_ st)) = Some (v, at_ (ptr_ st')) /\ 0 <= ptr_ st'.
Proof.
  unfold decode. intros H Hr. apply bind_done in H as (q & st1 & Hq & H).
  apply get_ptr_done in Hq as [-> ->]. apply bind_done in H as ([w rest] & st2 & E & H).
  apply lift_done in E as [E ->]. vinv. cbn [ptr_ with_ptr].
  destruct (Hr _ _ _ E) as (p & _ & El & _).
  assert (Hl : length (at_ (ptr_ st2)) = (length p + length rest)%nat) by (by rewrite El, length_app).
  assert (Hb : begin_ df = (take (Z.to_nat (ptr_ st2)) (begin_ df) ++ p) ++ rest)
    by (rewrite <- app_assoc, <- El; symmetry; apply take_drop).
  rewrite length_drop in Hl. unfold Size. split; [|lia]. rewrite E. do 2 f_equal.
  set (n := Z.to_nat _). rewrite Hb. symmetry. apply drop_app_length'.
  subst n. rewrite length_app, length_take. lia.
Qed.

Lemma decode_nonneg l v r : DecodeUnsignedLeb128 l = Some (v, r) -> is_u 32 v.
Proof.
  unfold DecodeUnsignedLeb128. intros H.
  repeat (match type of H with
    | context [read_u8 ?p] => destruct (read_u8 p) as [[? ?]|]; [|done]; cbn [mbind option_bind] in H
    | context [if ?c then _ else _] => destruct c
    end); injection H as <- _; by apply u_range.
Qed.

(** *** Characters *)

Lemma two_byte_unit y x :
  0 <= y < 32 -> 0 <= x < 64 -> y * 64 + x = 0 \/ 0x80 <= y * 64 + x ->
  EncodeUnit (y * 64 + x) = [y + 192; x + 128].
Proof.
  intros Hy Hx Hv. unfold EncodeUnit. rewrite !shr, !land_63 by lia. reduce_pow.
  replace ((y * 64 + x) / 64) with y by div_lia. replace ((y * 64 + x) mod 64) with x by div_lia.
  byte_facts lead2_byte y as [[[-> _] _] _]. byte_facts cont_byte x as [-> _].
  rewrite (proj2 (Z.ltb_ge _ _) (ltac:(lia) : y * 64 + x <= 0x7ff)).
  destruct (Z.ltb_spec 0 (y * 64 + x)), (Z.leb_spec (y * 64 + x) 0x7f); cbn [andb]; done || lia.
Qed.

Lemma three_byte_unit z y x :
  0 <= z < 16 -> 0 <= y < 64 -> 0 <= x < 64 -> 0x800 <= z * 4096 + y * 64 + x ->
  EncodeUnit (z * 4096 + y * 64 + x) = [z + 224; y + 128; x + 128].
Proof.
  intros Hz Hy Hx Hv. unfold EncodeUnit. set (v := z * 4096 + y * 64 + x) in *.
  rewrite !shr, !land_63 by lia. reduce_pow.
  replace (v / 4096) with z by (subst v; div_lia). replace (v / 64 mod 64) with y by (subst v; div_lia).
  replace (v mod 64) with x by (subst v; div_lia).
  byte_facts lead3_byte z as [[[[-> _] _] _] _]. byte_facts cont_byte y as [-> _]. byte_facts cont_byte x as [-> _].
  rewrite (proj2 (Z.ltb_lt 0x7ff v)) by lia. rewrite (proj2 (Z.leb_gt v 0x7f)) by lia. by rewrite andb_false_r.
Qed.

Lemma continuation b : is_byte b -> (Z.land b 0xc0 =? 0x80) = true -> 128 <= b < 192.
Proof.
  intros Hb. assert (H : (if Z.land b 0xc0 =? 0x80 then (128 <=? b) && (b <? 192) else true) = true).
  { unfold is_byte in Hb. by_values 256 b. }
  intros E. rewrite E in H. lia.
Qed.

Lemma string_char_true i st st' :
  CheckStringChar df i st = Done true st' ->
  exists u, is_u16 u /\ at_ (ptr_ st) = EncodeUnit u ++ at_ (ptr_ st').
Proof.
  unfold CheckStringChar. intros H. vinv.
  match goal with H : next_byte _ _ = Done ?b _ |- _ => apply next_byte_done in H as (_ & -> & Hb & _) end.
  rewrite shr in H by lia. change (2 ^ 4) with 16 in H. unfold is_byte in Hb.
  destruct (Z.eqb_spec (a0 / 16) 0) as [E0|].
  { vinv. exists a0. split; [unfold is_u16; lia|]. unfold EncodeUnit.
    rewrite (proj2 (Z.ltb_lt _ _)) by lia. rewrite (proj2 (Z.leb_le _ _)) by div_lia. done. }
  destruct (Z.ltb_spec (a0 / 16) 8).
  { vinv. exists a0. split; [unfold is_u16; lia|]. unfold EncodeUnit.
    rewrite (proj2 (Z.ltb_lt _ _)) by div_lia. rewrite (proj2 (Z.leb_le _ _)) by div_lia. done. }
  destruct (_ || _) eqn:E1; [by vinv|]. apply orb_false_iff in E1 as [E1 E2].
  apply Z.ltb_ge in E1. apply Z.eqb_neq in E2.
  destruct (Z.ltb_spec (a0 / 16) 14); vinv;
    repeat match goal with H : next_byte _ _ = Done ?b _ |- _ =>
      let E := fresh in let Hb := fresh "Hb" in apply next_byte_done in H as (_ & E & Hb & _); rewrite E; clear E end;
    repeat match goal with H : (Z.land _ 0xc0 =? 0x80) = true |- _ => apply continuation in H; [|done] end.
  - rename a into b. assert (exists y x, a0 = y + 192 /\ b = x + 128 /\ 0 <= y < 32 /\ 0 <= x < 64)
      as (y & x & -> & -> & Hy & Hx) by (exists (a0 - 192), (b - 128); div_lia).
    byte_facts lead2_byte y as [[[_ A1] _] _]. byte_facts cont_byte x as [_ A2].
    rewrite A1, A2, two_byte_code in * by lia. exists (y * 64 + x). split; [unfold is_u16; lia|].
    rewrite two_byte_unit; [done|lia|lia|].
    destruct (Z.eqb_spec (y * 64 + x) 0); [by left|]. cbn [negb andb] in *. right. lia.
  - rename a into b. assert (exists z y x, a0 = z + 224 /\ b = y + 128 /\ a1 = x + 128 /\
      0 <= z < 16 /\ 0 <= y < 64 /\ 0 <= x < 64) as (z & y & x & -> & -> & -> & Hz & Hy & Hx)
      by (exists (a0 - 224), (b - 128), (a1 - 128); div_lia).
    byte_facts lead3_byte z as [[[[_ A1] _] _] _]. byte_facts cont_byte y as [_ A2].
    byte_facts cont_byte x as [_ A3]. rewrite A1, A2, A3, three_byte_code in * by lia.
    exists (z * 4096 + y * 64 + x). split; [unfold is_u16; lia|]. rewrite three_byte_unit by lia. done.
Qed.

(** *** String data *)

Ltac local_bytes :=
  repeat match goal with
  | |- local_reader _ (fun s => Some (_, s)) => apply local_ret
  | |- local_reader _ (fun s => if _ then _ else _) => apply local_if
  | |- local_reader true (fun s => read_u8 s ≫= _) =>
      apply (local_bind true read_u8 (fun _ p => _) local_read_u8)
  | |- local_reader false (fun s => read_u8 s ≫= _) =>
      apply (local_weaken true), (local_bind true read_u8 (fun _ p => _) local_read_u8)
  | |- local_reader _ _ => progress cbv beta zeta
  | |- forall _, _ => intro
  end.

Lemma unsigned_local : local_reader true DecodeUnsignedLeb128.
Proof. unfold DecodeUnsignedLeb128. local_bytes. Qed.

Lemma signed_local : local_reader true DecodeSignedLeb128.
Proof. unfold DecodeSignedLeb128. local_bytes. Qed.

Lemma string_chars_true n i st st' :
  for_each n i (CheckStringChar df) st = Done true st' ->
  exists us, length us = n /\ Forall is_u16 us /\
    at_ (ptr_ st) = concat (enc_symbol <$> unit_symbols us) ++ at_ (ptr_ st').
Proof.
  revert i st. induction n as [|n IH]; intros i st H; cbn [for_each] in H.
  - vinv. by exists [].
  - apply and_then_true in H as (st1 & H1 & H). apply string_char_true in H1 as (u & Hu & ->).
    apply IH in H as (us & Hl & Hus & ->). exists (u :: us). split_all; [cbn; lia|by constructor|].
    cbn. by rewrite <- app_assoc.
Qed.

(** A string data item that passes the check is the length and the units of a string. *)
Lemma string_data_true o :
  checked df base_ o kDexTypeStringDataItem ->
  exists us rest, Forall is_u16 us /\
    GetStringDataAndUtf16Length df o = Some (Z.of_nat (length us), c_str (unit_symbols us) rest).
Proof.
  intros (Ho & st & st' & <- & H). change (CheckIntraStringDataItem df st = Done true st') in H.
  unfold CheckIntraStringDataItem in H. apply bind_done in H as (n & st1 & Hn & H).
  apply decode_done in Hn as [Hn _]; [|eapply local_weaken, unsigned_local].
  apply and_then_true in H as (st2 & Hc & H). apply string_chars_true in Hc as (us & Hl & Hus & Eus).
  apply bind_done in H as (b & st3 & Hb & H). apply next_byte_done in Hb as (_ & Eb & _).
  apply check_true in H as [E0 _]. apply Z.eqb_eq in E0 as ->.
  exists us, (at_ (ptr_ st3)). split; [done|]. unfold GetStringDataAndUtf16Length. rewrite Hn, Eus, Eb.
  pose proof (decode_nonneg _ _ _ Hn) as [? _]. by rewrite Hl, Z2Nat.id.
Qed.
End Strings.

(** The next action of a run that reads memory, or the state. *)
Tactic Notation "read_step" hyp(H) ident(x) ident(E) :=
  let st := fresh "st" in apply bind_done in H as (x & st & E & H); apply lift_done in E as [E <-].
Tactic Notation "cursor_step" hyp(H) :=
  let p := fresh "p" in let st := fresh "st" in let E := fresh in
  apply bind_done in H as (p & st & E & H); apply get_ptr_done in E as [-> <-].
Tactic Notation "previous_step" hyp(H) :=
  let q := fresh "q" in let st := fresh "st" in let E := fresh in
  apply bind_done in H as (q & st & E & H); apply get_previous_done in E as [-> <-].
(** The end of an entry: [ptr_ += size; return true;]. *)
Tactic Notation "advance_step" hyp(H) :=
  let u := fresh "u" in let st := fresh "st" in let E := fresh in
  apply bind_done in H as (u & st & E & H); apply advance_ptr_done in E as ->; apply ret_done in H as [_ <-].

(** ** Tables *)

Section Tables.
Variables (df : DexFile) (base_ : Z).
Hypothesis (Hsize : Size df + 4 <= 2 ^ 32) (Hbytes : Forall is_byte (begin_ df)).

Lemma rd_range_size n off v : rd n off (begin_ df) = Some v -> 0 <= off /\ off + Z.of_nat n <= Size df.
Proof. apply rd_range. Qed.

(** Round [i] of an id section whose offset is aligned checks entry [i], the previous one being
    entry [i - 1]. *)
Definition entry_checked (item : V bool) (m : gmap Z Z) (off size i : Z) : Prop :=
  exists st st', item st = Done true st' /\ ptr_ st = off + size * i /\
    previous_item_ st = (if i =? 0 then None else Some (off + size * (i - 1))) /\
    offset_to_type_map_ st = m.

Lemma id_section_true item m off size n type :
  cross_checked df m off n type -> CheckInterItem df type = item ->
  InterAlignmentMask type = 3 -> off mod 4 = 0 -> 0 <= off < 2 ^ 32 -> (size = 4 \/ size = 8 \/ size = 12) ->
  (forall st st', item st = Done true st' ->
     ptr_ st' = ptr_ st + size /\ ptr_ st + size <= Size df /\
     previous_item_ st' = previous_item_ st /\ offset_to_type_map_ st' = offset_to_type_map_ st) ->
  forall i, 0 <= i < n -> entry_checked item m off size i.
Proof.
  intros (st0 & st0' & H & Hm) Hitem Hmask Hal Hoff Hsz Hstep. unfold CheckInterSectionIterate in H.
  apply bind_done in H as (u & st1 & Hprev & H). apply set_previous_done in Hprev as ->.
  apply bind_done in H as ([b o'] & st2 & H & Hb). apply ret_done in Hb as [-> ->].
  apply (for_each_with_inv (fun j o st => o = off + size * j /\ o < 2 ^ 32 - 3 + (if j =? 0 then 3 else 0) /\
    offset_to_type_map_ st = m /\
    previous_item_ st = (if j =? 0 then None else Some (off + size * (j - 1))) /\
    forall i, 0 <= i < j -> entry_checked item m off size i)) in H.
  - destruct H as (_ & _ & _ & _ & H). intros i Hi. apply H. lia.
  - cbn. split_all; [lia|lia|done|done|lia].
  - intros j o st o2 st3 Hj (-> & Hlt & Hm' & Hp' & He) Hround. unfold CheckInterSectionItem in Hround.
    cbv zeta in Hround. rewrite Hmask in Hround.
    assert (Ea : u32 (Align 3 (off + size * j)) = off + size * j).
    { destruct (align_bounds 3 (off + size * j) (or_intror eq_refl)) as [_ ->]; [|done].
      assert ((off + size * j) mod 4 = 0) by (destruct Hsz as [->|[->| ->]]; div_lia).
      rewrite u_small; [div_lia|]. unfold is_u. reduce_pow. destruct (j =? 0); div_lia. }
    rewrite Ea, Hitem in Hround.
    apply bind_done in Hround as (u1 & st4 & Hset & Hround). apply set_ptr_done in Hset as ->.
    apply bind_done in Hround as (ok & st5 & Hi & Hround). destruct ok; [|by vinv]. cbn [negb] in Hround.
    destruct (Hstep _ _ Hi) as (Hp5 & Hsz5 & Hq5 & Hm5). cbn [ptr_ with_ptr] in Hp5, Hsz5.
    apply bind_done in Hround as (u2 & st6 & Hset & Hround). apply set_previous_done in Hset as ->.
    apply bind_done in Hround as (p & st7 & Hget & Hround). apply get_ptr_done in Hget as [-> <-].
    apply ret_done in Hround as [Heq <-]. injection Heq as <-. cbn [ptr_ with_previous].
    rewrite (proj2 (Z.eqb_neq (j + 1) 0)) by lia. cbn [previous_item_ offset_to_type_map_ with_previous].
    split_all; [rewrite Hp5; lia|lia|by rewrite Hm5|do 2 f_equal; lia|].
    intros i Hi'. destruct (decide (i = j)) as [->|]; [|apply He; lia].
    exists (with_ptr (off + size * j) st), st5. by split_all.
Qed.

(** Collecting the entries of a table. *)
Lemma table_entries {A} (P : Z -> A -> Prop) (n : Z) :
  0 <= n -> (forall i, 0 <= i < n -> exists e, P i e) ->
  exists es, n = Z.of_nat (length es) /\ forall i e, es !! i = Some e -> P (Z.of_nat i) e.
Proof.
  intros Hn. pattern n. apply natlike_ind; [|clear n Hn; intros n Hn IH H|done].
  - intros _. by exists [].
  - destruct IH as (es & Hl & Hes); [intros i Hi; apply H; lia|].
    destruct (H n) as [e He]; [lia|]. exists (es ++ [e]).
    split; [rewrite length_app; cbn; lia|]. intros i x Hx.
    apply lookup_app_Some in Hx as [Hx|[Hi Hx]]; [by apply Hes|].
    apply list_lookup_singleton_Some in Hx as [Hi' ->]. by replace (Z.of_nat i) with n by lia.
Qed.

(** Strict order of neighbours is strict order. *)
Lemma neighbours_sorted {A K} (n : Z) (key : A -> K) (lt : K -> K -> Prop) (es : list A) :
  n = Z.of_nat (length es) -> n <= 2 ^ 30 ->
  (forall a b c, lt a b -> lt b c -> lt a c) ->
  (forall i a b, es !! i = Some a -> es !! S i = Some b -> lt (key a) (key b)) ->
  sorted_table n key lt es.
Proof.
  intros Hn Hle Htr Hnext. unfold sorted_table. split_all; [done|done|].
  intros i j a b Hij Ha Hb. revert b Hb. induction Hij as [|j Hij IH]; intros b Hb; [by eapply Hnext|].
  destruct (lookup_lt_is_Some_2 es j) as [c Hc]; [apply lookup_lt_Some in Hb; lia|].
  eapply Htr; [by apply IH|by eapply Hnext].
Qed.

(** *** What each entry satisfies *)

Lemma offset_type_true o t st st' :
  CheckOffsetToTypeMap o t st = Done true st' -> st' = st /\ offset_to_type_map_ st !! u32 o = Some t.
Proof.
  unfold CheckOffsetToTypeMap. intros H. apply bind_done in H as (m & st1 & Hm & H).
  apply get_map_done in Hm as [-> <-]. destruct (_ !! _) as [t'|] eqn:E; [|by vinv].
  apply check_true in H as [Et ->]. apply Z.eqb_eq in Et as ->. done.
Qed.

Lemma load_string_true i k st st' :
  LOAD_STRING df i k st = Done true st' ->
  exists s, i < NumStringIds df /\ StringDataByIdx df i = Some (Some s) /\ k s st = Done true st'.
Proof.
  unfold LOAD_STRING, CheckLoadStringByIdx, CheckIndex. intros H.
  apply bind_done in H as (o & st1 & Ho & H). apply bind_done in Ho as (b & st2 & Hb & Ho).
  unfold check in Hb. destruct (Z.ltb_spec i (NumStringIds df)).
  - apply ret_done in Hb as [<- <-]. apply lift_done in Ho as [Ho <-].
    destruct o as [s|]; [|by vinv]. by exists s.
  - unfold reject in Hb. vinv.
Qed.

Lemma load_type_true i k st st' :
  LOAD_STRING_BY_TYPE df i k st = Done true st' ->
  exists s, i < NumTypeIds df /\ StringByTypeIdx df i = Some (Some s) /\ k s st = Done true st'.
Proof.
  unfold LOAD_STRING_BY_TYPE, CheckLoadStringByTypeIdx, CheckIndex. intros H.
  apply bind_done in H as (o & st1 & Ho & H). apply bind_done in Ho as (b & st2 & Hb & Ho).
  unfold check in Hb. destruct (Z.ltb_spec i (NumTypeIds df)); [|unfold reject in Hb; vinv].
  apply ret_done in Hb as [<- <-]. apply bind_done in Ho as (idx & st3 & Hidx & Ho).
  apply lift_done in Hidx as [Hidx <-]. destruct o as [s|]; [|by vinv].
  unfold CheckLoadStringByIdx, CheckIndex in Ho. apply bind_done in Ho as (b & st4 & Hb & Ho).
  unfold check in Hb. destruct (idx <? NumStringIds df).
  - apply ret_done in Hb as [<- <-]. apply lift_done in Ho as [Ho <-]. exists s. split_all; [done| |done].
    unfold StringByTypeIdx. by rewrite Hidx.
  - unfold reject in Hb. vinv.
Qed.

(** The entry moves the cursor over itself, inside the file, and leaves the rest alone. *)
Definition steps (item : V bool) (size : Z) : Prop :=
  forall st st', item st = Done true st' ->
    ptr_ st' = ptr_ st + size /\ ptr_ st + size <= Size df /\
    previous_item_ st' = previous_item_ st /\ offset_to_type_map_ st' = offset_to_type_map_ st.

Lemma kept_item item st st' :
  keeps previous_item_ item -> keeps offset_to_type_map_ item -> item st = Done true st' ->
  previous_item_ st' = previous_item_ st /\ offset_to_type_map_ st' = offset_to_type_map_ st.
Proof. intros H1 H2 H. by rewrite (H1 _ _ _ H), (H2 _ _ _ H). Qed.

Definition string_entry (m : gmap Z Z) (p : Z) (prev : option Z) : Prop :=
  exists off, rd 4 p (begin_ df) = Some off /\ m !! u32 off = Some kDexTypeStringDataItem /\
    forall q, prev = Some q -> exists poff ps s c, rd 4 q (begin_ df) = Some poff /\
      GetStringData df poff = Some ps /\ GetStringData df off = Some s /\
      CompareModifiedUtf8ToModifiedUtf8AsUtf16CodePointValues ps s = Some c /\ c < 0.

Lemma string_item_true st st' :
  CheckInterStringIdItem df st = Done true st' ->
  string_entry (offset_to_type_map_ st) (ptr_ st) (previous_item_ st) /\ ptr_ st' = ptr_ st + 4.
Proof.
  unfold CheckInterStringIdItem. intros H. cursor_step H. unfold field in H. read_step H off Hoff.
  apply and_then_true in H as (st1 & Hm & H). apply offset_type_true in Hm as [-> Hm]. previous_step H.
  apply and_then_true in H as (st1 & Hprev & H).
  assert (Hst : st1 = st) by (destruct (previous_item_ st); by vinv). subst st1. advance_step H.
  split; [|done]. exists off. split_all; [done|done|]. intros q Hq. rewrite Hq in Hprev.
  read_step Hprev poff H1. read_step Hprev ps H2. read_step Hprev s H3. read_step Hprev c H4.
  apply check_true in Hprev as [Hc _]. exists poff, ps, s, c. split_all; try done. lia.
Qed.

Definition type_entry (p : Z) (prev : option Z) : Prop :=
  exists idx s, rd 4 p (begin_ df) = Some idx /\ StringDataByIdx df idx = Some (Some s) /\
    IsValidDescriptor s = Some true /\
    forall q, prev = Some q -> exists pidx, rd 4 q (begin_ df) = Some pidx /\ pidx < idx.

Lemma type_item_true st st' :
  CheckInterTypeIdItem df st = Done true st' ->
  type_entry (ptr_ st) (previous_item_ st) /\ ptr_ st' = ptr_ st + 4.
Proof.
  unfold CheckInterTypeIdItem. intros H. cursor_step H. unfold field in H. read_step H idx Hidx.
  apply load_string_true in H as (s & _ & Hs & H). read_step H ok Hok.
  apply and_then_true in H as (st1 & Hc & H). apply check_true in Hc as [-> <-]. previous_step H.
  apply and_then_true in H as (st1 & Hprev & H).
  assert (Hst : st1 = st) by (destruct (previous_item_ st); by vinv). subst st1. advance_step H.
  split; [|done]. exists idx, s. split_all; [done..|]. intros q Hq. rewrite Hq in Hprev.
  read_step Hprev pidx H1. apply check_true in Hprev as [Hc _]. exists pidx. split; [done|]. lia.
Qed.

Lemma triple_order_true a b fmt st st' :
  CheckTripleOrder a b fmt st = Done true st' -> st' = st /\ cmp_triple a b < 0.
Proof.
  destruct a as [[a1 a2] a3], b as [[b1 b2] b3]. unfold CheckTripleOrder, cmp_triple, three_way. cbn [fst snd].
  repeat case_Zcmp; intros Hrun; cbn [negb] in Hrun; vinv; try done; try (split; [done|lia]); lia.
Qed.

Definition read_field_id (p : Z) : option FieldId :=
  c ← rd 2 p (begin_ df); t ← rd 2 (p + 2) (begin_ df); n ← rd 4 (p + 4) (begin_ df);
  Some {| f_class_idx_ := c; f_type_idx_ := t; f_name_idx_ := n |}.
Definition read_method_id (p : Z) : option MethodId :=
  c ← rd 2 p (begin_ df); t ← rd 2 (p + 2) (begin_ df); n ← rd 4 (p + 4) (begin_ df);
  Some {| m_class_idx_ := c; m_proto_idx_ := t; m_name_idx_ := n |}.

Lemma field_id_done p st f st' : FieldIdAt df p st = Done f st' -> st' = st /\ read_field_id p = Some f.
Proof.
  unfold FieldIdAt, field, read_field_id. intros H. read_step H c Hc. read_step H t Ht. read_step H n Hn.
  apply ret_done in H as [<- <-]. split; [done|]. rewrite Hc. cbn. rewrite Ht. cbn. by rewrite Hn.
Qed.
Lemma method_id_done p st m st' : MethodIdAt df p st = Done m st' -> st' = st /\ read_method_id p = Some m.
Proof.
  unfold MethodIdAt, field, read_method_id. intros H. read_step H c Hc. read_step H t Ht. read_step H n Hn.
  apply ret_done in H as [<- <-]. split; [done|]. rewrite Hc. cbn. rewrite Ht. cbn. by rewrite Hn.
Qed.

Lemma descriptor_true s c fmt st st' : CheckDescriptor s c fmt st = Done true st' -> st' = st.
Proof. unfold CheckDescriptor. intros H. read_step H ok Hok. destruct ok; [|by vinv]. cbn [negb] in H. by vinv. Qed.

(** An entry of the field or the method table, after its predecessor. *)
Definition ordered_entry {A} (get : Z -> option A) (key : A -> Z * Z * Z) (p : Z) (prev : option Z) : Prop :=
  exists e, get p = Some e /\
    forall q, prev = Some q -> exists e', get q = Some e' /\ cmp_triple (key e') (key e) < 0.

Lemma field_item_true st st' :
  CheckInterFieldIdItem df st = Done true st' ->
  ordered_entry read_field_id field_key (ptr_ st) (previous_item_ st) /\ ptr_ st' = ptr_ st + 8.
Proof.
  unfold CheckInterFieldIdItem. intros H. cursor_step H.
  apply bind_done in H as (f & st1 & Hf & H). apply field_id_done in Hf as [-> Hf].
  apply load_type_true in H as (s1 & _ & _ & H). apply and_then_true in H as (st1 & Hd & H).
  apply descriptor_true in Hd as ->. apply load_type_true in H as (s2 & _ & _ & H).
  apply and_then_true in H as (st1 & Hd & H). apply descriptor_true in Hd as ->.
  apply load_string_true in H as (s3 & _ & _ & H). read_step H ok Hok.
  apply and_then_true in H as (st1 & Hc & H). apply check_true in Hc as [-> <-]. previous_step H.
  apply and_then_true in H as (st1 & Hprev & H).
  assert (Hst : st1 = st /\ forall q, previous_item_ st = Some q ->
    exists e', read_field_id q = Some e' /\ cmp_triple (field_key e') (field_key f) < 0).
  { destruct (previous_item_ st) as [q|]; [|by vinv].
    apply bind_done in Hprev as (f' & st2 & Hf' & Hprev). apply field_id_done in Hf' as [-> Hf'].
    apply triple_order_true in Hprev as [-> Hlt]. split; [done|]. intros ? [= <-]. by exists f'. }
  destruct Hst as [-> Hst]. advance_step H. split; [|done]. by exists f.
Qed.

Lemma method_item_true st st' :
  CheckInterMethodIdItem df st = Done true st' ->
  ordered_entry read_method_id method_key (ptr_ st) (previous_item_ st) /\ ptr_ st' = ptr_ st + 8.
Proof.
  unfold CheckInterMethodIdItem. intros H. cursor_step H.
  apply bind_done in H as (f & st1 & Hf & H). apply method_id_done in Hf as [-> Hf].
  apply load_type_true in H as (s1 & _ & _ & H). apply and_then_true in H as (st1 & Hd & H).
  apply descriptor_true in Hd as ->. apply load_string_true in H as (s3 & _ & _ & H). read_step H ok Hok.
  apply and_then_true in H as (st1 & Hc & H). apply check_true in Hc as [-> <-].
  apply and_then_true in H as (st1 & Hc & H). apply check_true in Hc as [_ <-]. previous_step H.
  apply and_then_true in H as (st1 & Hprev & H).
  assert (Hst : st1 = st /\ forall q, previous_item_ st = Some q ->
    exists e', read_method_id q = Some e' /\ cmp_triple (method_key e') (method_key f) < 0).
  { destruct (previous_item_ st) as [q|]; [|by vinv].
    apply bind_done in Hprev as (f' & st2 & Hf' & Hprev). apply method_id_done in Hf' as [-> Hf'].
    apply triple_order_true in Hprev as [-> Hlt]. split; [done|]. intros ? [= <-]. by exists f'. }
  destruct Hst as [-> Hst]. advance_step H. split; [|done]. by exists f.
Qed.

Lemma string_steps : steps (CheckInterStringIdItem df) 4.
Proof.
  intros st st' H. destruct (kept_item _ _ _ (keeps_CheckInterStringIdItem previous_item_ ltac:(done) ltac:(done) df)
    (keeps_CheckInterStringIdItem offset_to_type_map_ ltac:(done) ltac:(done) df) H).
  apply string_item_true in H as [(off & Hrd & _) Hp]. apply rd_range_size in Hrd. by split_all; [|lia|..].
Qed.
Lemma type_steps : steps (CheckInterTypeIdItem df) 4.
Proof.
  intros st st' H. destruct (kept_item _ _ _ (keeps_CheckInterTypeIdItem previous_item_ ltac:(done) ltac:(done) df)
    (keeps_CheckInterTypeIdItem offset_to_type_map_ ltac:(done) ltac:(done) df) H).
  apply type_item_true in H as [(idx & s & Hrd & _) Hp]. apply rd_range_size in Hrd. by split_all; [|lia|..].
Qed.
Lemma field_id_range p f : read_field_id p = Some f -> p + 8 <= Size df.
Proof.
  unfold read_field_id. intros H. destruct (rd 2 p _); [|done]. cbn in H. destruct (rd 2 (p + 2) _); [|done].
  cbn in H. destruct (rd 4 _ _) eqn:E; [|done]. apply rd_range_size in E. lia.
Qed.
Lemma method_id_range p f : read_method_id p = Some f -> p + 8 <= Size df.
Proof.
  unfold read_method_id. intros H. destruct (rd 2 p _); [|done]. cbn in H. destruct (rd 2 (p + 2) _); [|done].
  cbn in H. destruct (rd 4 _ _) eqn:E; [|done]. apply rd_range_size in E. lia.
Qed.
Lemma field_steps : steps (CheckInterFieldIdItem df) 8.
Proof.
  intros st st' H. destruct (kept_item _ _ _ (keeps_CheckInterFieldIdItem previous_item_ ltac:(done) ltac:(done) df)
    (keeps_CheckInterFieldIdItem offset_to_type_map_ ltac:(done) ltac:(done) df) H).
  apply field_item_true in H as [(f & Hf & _) Hp]. apply field_id_range in Hf. by split_all.
Qed.
Lemma method_steps : steps (CheckInterMethodIdItem df) 8.
Proof.
  intros st st' H. destruct (kept_item _ _ _ (keeps_CheckInterMethodIdItem previous_item_ ltac:(done) ltac:(done) df)
    (keeps_CheckInterMethodIdItem offset_to_type_map_ ltac:(done) ltac:(done) df) H).
  apply method_item_true in H as [(f & Hf & _) Hp]. apply method_id_range in Hf. by split_all.
Qed.

(** *** The tables of a verified file *)

Context (m : gmap Z Z) (Hv : verified df base_ m).

Lemma table_checked t item size (P : Z -> option Z -> Prop) off n :
  expected_section df t = Some (off, n) -> t ∈ inter_types -> CheckInterItem df t = item ->
  InterAlignmentMask t = 3 -> off mod 4 = 0 -> 0 <= off < 2 ^ 32 -> size = 4 \/ size = 8 \/ size = 12 ->
  steps item size ->
  (forall st st', item st = Done true st' -> offset_to_type_map_ st = m -> P (ptr_ st) (previous_item_ st)) ->
  forall i, 0 <= i < n ->
    P (off + size * i) (if i =? 0 then None else Some (off + size * (i - 1))) /\
    off + size * i + size <= Size df.
Proof.
  intros He Ht Hitem Hmask Hal Hoff Hsz Hsteps HP i Hi.
  assert (Hc : cross_checked df m off n t) by (eapply verified_section; [done|done|lia|done]).
  destruct (id_section_true item m off size n t Hc Hitem Hmask Hal Hoff Hsz Hsteps i Hi)
    as (st & st' & H & Hp & Hq & Hm). destruct (Hsteps _ _ H) as (_ & Hsize' & _).
  rewrite Hp in Hsize'. split; [|done]. rewrite <- Hp, <- Hq. by eapply HP.
Qed.

Lemma table_size size off n :
  4 <= size -> 0 <= off -> 0 <= n -> (forall i, 0 <= i < n -> off + size * i + size <= Size df) -> n <= 2 ^ 30.
Proof.
  intros Hs Ho Hn H. destruct (decide (n = 0)) as [->|]; [done|]. specialize (H (n - 1) ltac:(lia)). nia.
Qed.

Definition string_at (i : Z) (us : list Z) : Prop :=
  Forall is_u16 us /\ exists off rest, GetStringId df i = Some off /\
    GetStringData df off = Some (c_str (unit_symbols us) rest).

Lemma string_at_data i us : string_at i us -> 0 <= i < NumStringIds df -> NumStringIds df < 2 ^ 32 - 1 ->
  exists rest, StringDataByIdx df i = Some (Some (c_str (unit_symbols us) rest)).
Proof.
  intros (_ & off & rest & Hid & Hd) Hi Hn. exists rest. unfold StringDataByIdx, kDexNoIndex.
  rewrite (proj2 (Z.eqb_neq _ _)) by lia. rewrite Hid. cbn. by rewrite Hd.
Qed.

Lemma string_entry_at p prev i :
  p = string_ids_off_ (hdr df) + 4 * i -> string_entry m p prev -> exists us, string_at i us.
Proof.
  intros -> (off & Hid & Hm & _). destruct (verified_map _ _ _ Hv _ _ Hm) as [Ho Hc].
  pose proof (rd_bound df Hbytes _ _ _ Hid) as Hb.
  rewrite u_small in Hm by (unfold is_u; reduce_pow; lia).
  destruct (string_data_true df base_ Hbytes off (verified_map _ _ _ Hv _ _ Hm)) as (us & rest & Hus & Hd).
  exists us. split; [done|]. exists off, rest. split; [exact Hid|]. unfold GetStringData. by rewrite Hd.
Qed.

(** Neighbouring strings are in order. *)
Lemma string_entry_order i us vs :
  string_entry m (string_ids_off_ (hdr df) + 4 * (i + 1)) (Some (string_ids_off_ (hdr df) + 4 * i)) ->
  string_at i us -> string_at (i + 1) vs -> lex us vs = Lt.
Proof.
  intros (off & Hid & _ & Hprev) (Hus & off1 & r1 & Hid1 & Hd1) (Hvs & off2 & r2 & Hid2 & Hd2).
  destruct (Hprev _ eq_refl) as (poff & ps & s & c & Hp & Hps & Hs & Hc & Hlt).
  unfold GetStringId in Hid1, Hid2. fold (hdr df) in Hid1, Hid2. rewrite Hp in Hid1. rewrite Hid in Hid2.
  injection Hid1 as <-. injection Hid2 as <-. rewrite Hps in Hd1. rewrite Hs in Hd2. simplify_eq.
  destruct (compare_units us vs r1 r2 Hus Hvs) as (r & E & Hr). rewrite Hc in E. injection E as <-.
  rewrite <- Hr. by destruct (Z.compare_spec c 0); try lia.
Qed.

Lemma lex_trans a b c : lex a b = Lt -> lex b c = Lt -> lex a c = Lt.
Proof. intros Hab Hbc. apply (lex_above b c a Hbc). by rewrite Hab. Qed.

Context (Hn : forall t off n, expected_section df t = Some (off, n) -> is_u 32 off /\ is_u 32 n).

Definition aligned (t : Z) : Prop :=
  forall off n, expected_section df t = Some (off, n) -> off mod 4 = 0.

Lemma verified_strings :
  aligned kDexTypeStringIdItem ->
  exists strings, sorted_table (NumStringIds df) id (fun a b => lex a b = Lt) strings /\
    forall i us, strings !! i = Some us -> string_at (Z.of_nat i) us.
Proof.
  intros Hal. destruct (Hn kDexTypeStringIdItem _ _ eq_refl) as [Ho Hc].
  pose proof (Hal _ _ eq_refl) as Ha. fold (NumStringIds df) in Hc.
  assert (Hent : forall i, 0 <= i < NumStringIds df -> string_entry m (string_ids_off_ (hdr df) + 4 * i)
            (if i =? 0 then None else Some (string_ids_off_ (hdr df) + 4 * (i - 1))) /\
            string_ids_off_ (hdr df) + 4 * i + 4 <= Size df).
  { apply (table_checked kDexTypeStringIdItem (CheckInterStringIdItem df)); try done; [set_solver|by left|apply string_steps|].
    intros st st' H Hm. rewrite <- Hm. by apply string_item_true in H as [? _]. }
  destruct (table_entries string_at (NumStringIds df)) as (strings & Hl & Hs); [apply Hc| |].
  { intros i Hi. destruct (Hent i Hi) as [He _]. by eapply string_entry_at. }
  exists strings. split; [|exact Hs]. apply neighbours_sorted; [done| |apply lex_trans|].
  - apply (table_size 4 (string_ids_off_ (hdr df))); [lia|apply Ho|apply Hc|]. intros i Hi. by apply Hent.
  - intros i a b Hai Hbi. pose proof (lookup_lt_Some _ _ _ Hbi) as Hlt.
    destruct (Hent (Z.of_nat i + 1)) as [He _]; [lia|]. rewrite (proj2 (Z.eqb_neq _ _)) in He by lia.
    replace (Z.of_nat i + 1 - 1) with (Z.of_nat i) in He by lia.
    apply (string_entry_order _ _ _ He); [by apply Hs|].
    apply Hs in Hbi. by replace (Z.of_nat i + 1) with (Z.of_nat (S i)) by lia.
Qed.

Lemma verified_types :
  aligned kDexTypeTypeIdItem ->
  exists types, type_table df types /\
    forall i t, types !! i = Some t -> exists s, StringDataByIdx df t = Some (Some s) /\ IsValidDescriptor s = Some true.
Proof.
  intros Hal. destruct (Hn kDexTypeTypeIdItem _ _ eq_refl) as [Ho Hc].
  pose proof (Hal _ _ eq_refl) as Ha. fold (NumTypeIds df) in Hc.
  assert (Hent : forall i, 0 <= i < NumTypeIds df -> type_entry (type_ids_off_ (hdr df) + 4 * i)
            (if i =? 0 then None else Some (type_ids_off_ (hdr df) + 4 * (i - 1))) /\
            type_ids_off_ (hdr df) + 4 * i + 4 <= Size df).
  { apply (table_checked kDexTypeTypeIdItem (CheckInterTypeIdItem df)); try done; [set_solver|by left|apply type_steps|].
    intros st st' H _. by apply type_item_true in H as [? _]. }
  destruct (table_entries (fun i t => GetTypeId df i = Some t /\
    exists s, StringDataByIdx df t = Some (Some s) /\ IsValidDescriptor s = Some true) (NumTypeIds df))
    as (types & Hl & Hs); [apply Hc| |].
  { intros i Hi. destruct (Hent i Hi) as [(idx & s & Hidx & Hd & Hok & _) _]. exists idx. split; [done|by exists s]. }
  exists types. split; [split|]; [|intros i t Hi; by destruct (Hs i t Hi)|intros i t Hi; by destruct (Hs i t Hi)].
  apply neighbours_sorted; [done| |unfold id; lia|].
  - apply (table_size 4 (type_ids_off_ (hdr df))); [lia|apply Ho|apply Hc|]. intros i Hi. by apply Hent.
  - intros i a b Hai Hbi. pose proof (lookup_lt_Some _ _ _ Hbi) as Hlt.
    destruct (Hent (Z.of_nat i + 1)) as [(idx & s & Hidx & _ & _ & Hprev) _]; [lia|].
    rewrite (proj2 (Z.eqb_neq _ _)) in Hprev by lia.
    replace (Z.of_nat i + 1 - 1) with (Z.of_nat i) in Hprev by lia.
    destruct (Hprev _ eq_refl) as (pidx & Hp & Hlt'). apply Hs in Hai as [Hai _], Hbi as [Hbi _].
    unfold GetTypeId in Hai, Hbi. fold (hdr df) in Hai, Hbi. rewrite Hp in Hai.
    replace (Z.of_nat (S i)) with (Z.of_nat i + 1) in Hbi by lia. rewrite Hidx in Hbi. simplify_eq. done.
Qed.

(** The field and the method table, whose entries are 8 bytes long. *)
Lemma verified_triples {A} t item (get : Z -> option A) (getter : Z -> option A) (key : A -> Z * Z * Z) off n :
  aligned t -> expected_section df t = Some (off, n) -> t ∈ inter_types -> CheckInterItem df t = item ->
  InterAlignmentMask t = 3 -> steps item 8 ->
  (forall st st', item st = Done true st' -> ordered_entry get key (ptr_ st) (previous_item_ st)) ->
  (forall i, getter i = get (off + 8 * i)) ->
  exists es, sorted_table n key (fun a b => cmp_triple a b < 0) es /\
    forall i e, es !! i = Some e -> getter (Z.of_nat i) = Some e.
Proof.
  intros Hal He Ht Hitem Hmask Hsteps HP Hget. destruct (Hn t _ _ He) as [Ho Hc]. pose proof (Hal _ _ He) as Ha.
  assert (Hent : forall i, 0 <= i < n -> ordered_entry get key (off + 8 * i)
            (if i =? 0 then None else Some (off + 8 * (i - 1))) /\ off + 8 * i + 8 <= Size df).
  { apply (table_checked t item); try done; [by right; left|]. intros st st' H _. by eapply HP. }
  destruct (table_entries (fun i e => getter i = Some e) n) as (es & Hl & Hs); [apply Hc| |].
  { intros i Hi. destruct (Hent i Hi) as [(e & Hg & _) _]. exists e. by rewrite Hget. }
  exists es. split; [|exact Hs]. apply neighbours_sorted; [done| | |].
  - apply (table_size 8 off); [lia|apply Ho|apply Hc|]. intros i Hi. by apply Hent.
  - intros a b c Hab Hbc. pose proof (cmp_triple_neg b c a Hbc). lia.
  - intros i a b Hai Hbi. pose proof (lookup_lt_Some _ _ _ Hbi) as Hlt.
    destruct (Hent (Z.of_nat i + 1)) as [(e & Hg & Hprev) _]; [lia|].
    rewrite (proj2 (Z.eqb_neq _ _)) in Hprev by lia.
    replace (Z.of_nat i + 1 - 1) with (Z.of_nat i) in Hprev by lia.
    destruct (Hprev _ eq_refl) as (e' & Hg' & Hlt'). apply Hs in Hai, Hbi. rewrite Hget in Hai, Hbi.
    replace (Z.of_nat (S i)) with (Z.of_nat i + 1) in Hbi by lia. simplify_eq. done.
Qed.

Lemma verified_fields : aligned kDexTypeFieldIdItem -> exists fs, field_table df fs.
Proof.
  intros Hal. apply (verified_triples kDexTypeFieldIdItem (CheckInterFieldIdItem df) read_field_id (GetFieldId df)
    field_key (field_ids_off_ (hdr df)) (NumFieldIds df) Hal); try done; [set_solver|apply field_steps|].
  intros st st' H. by apply field_item_true in H as [? _].
Qed.

Lemma verified_methods : aligned kDexTypeMethodIdItem -> exists ms, method_table df ms.
Proof.
  intros Hal. apply (verified_triples kDexTypeMethodIdItem (CheckInterMethodIdItem df) read_method_id (GetMethodId df)
    method_key (method_ids_off_ (hdr df)) (NumMethodIds df) Hal); try done; [set_solver|apply method_steps|].
  intros st st' H. by apply method_item_true in H as [? _].
Qed.

(** Searching the strings of a verified file. *)
Lemma find_unit_string strings us r :
  sorted_table (NumStringIds df) id (fun a b => lex a b = Lt) strings ->
  (forall i us, strings !! i = Some us -> string_at (Z.of_nat i) us) -> Forall is_u16 us ->
  exists res, FindStringId df (c_str (unit_symbols us) r) = Some res /\
    forall i, res = Some (Z.of_nat i) <-> strings !! i = Some us.
Proof.
  intros Hs Hstr Hu. unfold FindStringId.
  destruct (table_search _ _ _ _ lex_sign us (fun mid =>
      str_id ← GetStringId df mid;
      str ← GetStringData df str_id;
      CompareModifiedUtf8ToModifiedUtf8AsUtf16CodePointValues (c_str (unit_symbols us) r) str) Hs)
    as (res & E & Hres); eauto using lex_sign_pos, lex_sign_neg.
  - intros a b Hab. unfold lex_sign. rewrite Hab. lia.
  - intros i e He. destruct (Hstr i e He) as (Ue & off & rest & -> & Hd).
    cbn [mbind option_bind]. rewrite Hd. cbn [mbind option_bind].
    destruct (compare_units us e r rest Hu Ue) as (c & -> & Hc).
    exists c. split; [done|]. by apply lex_sign_sgn.
  - exists res. split; [done|]. intros i. rewrite Hres. split.
    + intros (e & He & H0). by apply lex_sign_0 in H0 as ->.
    + intros He. exists us. by rewrite lex_sign_0.
Qed.
End Tables.

(** ** A loaded file *)

Lemma make_dex_file bytes df :
  MakeDexFile bytes = Some df -> Forall is_byte bytes ->
  begin_ df = bytes /\
  forall t off n, expected_section df t = Some (off, n) -> is_u 32 off /\ is_u 32 n.
Proof.
  unfold MakeDexFile, ReadHeader. destruct (0x70 <=? _); [|done]. cbn [mbind option_bind].
  destruct (0 <? _); [|done]. intros [= <-] Hb. split; [done|].
  assert (Hw : forall o, is_u 32 (get_le 4 o bytes)).
  { intros o. pose proof (get_le_range 4 o bytes Hb) as H. exact H. }
  intros t off n. unfold expected_section, hdr. cbn.
  repeat match goal with |- (if ?c then _ else _) = _ -> _ => destruct c; [intros [= <- <-]; split; apply Hw|] end.
  done.
Qed.

Lemma verify_true df base_ adler32 reason st :
  Verify df base_ adler32 = Done (true, reason) st ->
  exists st', VerifyFile df base_ adler32 new_verifier = Done true st' /\
    offset_to_type_map_ st' = offset_to_type_map_ st.
Proof.
  unfold Verify. destruct (VerifyFile _ _ _ _) as [[] st'| |]; [|done..].
  intros [= _ <-]. by exists st'.
Qed.

Definition id_sections : list Z :=
  [kDexTypeStringIdItem; kDexTypeTypeIdItem; kDexTypeFieldIdItem; kDexTypeMethodIdItem].

(** *** Sample files

    The checksum of zlib, and a file with six strings, three types, two prototypes, a field, two
    methods, a class with code, try regions and debug information. *)
Definition adler32_sum (l : list Z) : Z :=
  let '(a, b) := foldl (fun '(a, b) x => let a := (a + x) mod 65521 in (a, (b + a) mod 65521)) (1, 0) l in
  b * 65536 + a.

Definition sample_file : list Z := concat (le_bytes 4 <$> [
    0xa786564; 0x353330; 0xbedc21db; 0; 0; 0; 0; 0; 512; 112; 0x12345678; 0; 0; 352; 6; 112; 3;
    136; 2; 148; 1; 172; 2; 180; 1; 196; 284; 228; 308; 316; 319; 324; 327; 331; 1; 2; 3; 3; 2;
    0; 4; 2; 228; 1; 5; 1; 0; 65537; 5; 1; 1; 65535; 0; 0xffffffff; 0; 334; 0; 1; 0x70000; 3591;
    65537; 0; 234; 1; 14; 0x20003; 0x20000; 234; 4; 0xe000d; 0xe000d; 0; 65537; 1; 0x40002;
    0x3010102; 0x302017f; 0x6e693c06; 0x3e7469; 0x3004901; 0x3b614c; 0x2005601; 0x1004956;
    0x1000066; 0x1000101; 0x4808100; 0x10101f0; 644; 13; 0; 1; 0; 1; 6; 112; 2; 3; 136; 3; 2;
    148; 4; 1; 172; 5; 2; 180; 6; 1; 196; 4097; 1; 228; 8195; 1; 234; 8193; 2; 240; 8194; 6; 308;
    8192; 1; 334; 4096; 1; 352]).

Definition load_file (bytes : list Z) : DexFile := default sample_df (MakeDexFile bytes).
Definition state_of {A} (o : Outcome A) : VerifierState :=
  match o with Done _ st => st | _ => new_verifier end.

Lemma sample_file_verified :
  Verify (load_file sample_file) 0x10000 adler32_sum
  = Done (true, ""%string) (state_of (Verify (load_file sample_file) 0x10000 adler32_sum)).
Proof. by vm_compute. Qed.

(** ** Properties *)

(** C11: a verified file can be searched: when [Verify] accepts a file below 4 GB whose id sections
    are 4-byte aligned (which [Verify] does not check), the string table holds well-formed modified
    UTF-8 strings in strict order, the types valid descriptors in strict order, the fields and the
    methods are in strict order of class, name and type or prototype, all of them inside the file,
    and looking up any string finds its index if and only if it is in the table. *)
Theorem verified_file_searches (bytes : list Z) (df : DexFile) (base_ : Z) (adler32 : list Z -> Z)
  (reason : string) (st : VerifierState)
  (Hbytes : Forall is_byte bytes) (Hdf : MakeDexFile bytes = Some df) (Hsize : Size df + 4 <= 2 ^ 32)
  (Hverify : Verify df base_ adler32 = Done (true, reason) st)
  (Hal : forall t, t ∈ id_sections -> aligned df t) :
  exists strings types fields methods,
    (sorted_table (NumStringIds df) id (fun a b => lex a b = Lt) strings /\
     forall i us, strings !! i = Some us -> string_at df (Z.of_nat i) us) /\
    (type_table df types /\ forall i t, types !! i = Some t ->
       exists s, StringDataByIdx df t = Some (Some s) /\ IsValidDescriptor s = Some true) /\
    field_table df fields /\ method_table df methods /\
    (forall us r, Forall is_u16 us ->
       exists res, FindStringId df (c_str (unit_symbols us) r) = Some res /\
         forall i, res = Some (Z.of_nat i) <-> strings !! i = Some us).
Proof.
  destruct (make_dex_file _ _ Hdf Hbytes) as [<- Hn].
  apply verify_true in Hverify as (st' & Hverify & _).
  apply VerifyFile_true in Hverify as Hv; [|done..].
  destruct (verified_strings df base_ Hsize Hbytes _ Hv Hn) as (strings & Hs & Hstr); [apply Hal; set_solver|].
  destruct (verified_types df base_ Hsize Hbytes _ Hv Hn) as (types & Ht); [apply Hal; set_solver|].
  destruct (verified_fields df base_ Hsize Hbytes _ Hv Hn) as (fs & Hf); [apply Hal; set_solver|].
  destruct (verified_methods df base_ Hsize Hbytes _ Hv Hn) as (ms & Hm); [apply Hal; set_solver|].
  exists strings, types, fs, ms. split_all; [done|done|apply Ht|apply Ht|done|done|].
  intros us r Hu. by apply find_unit_string.
Qed.

Lemma verified_file_searches_witness :
  exists strings : list (list Z), strings !! 2%nat = Some [0x4c; 0x61; 0x3b] /\
    FindStringId (load_file sample_file) [0x4c; 0x61; 0x3b; 0] = Some (Some 2).
Proof.
  destruct (verified_file_searches sample_file (load_file sample_file) 0x10000 adler32_sum ""
    (state_of (Verify (load_file sample_file) 0x10000 adler32_sum))) as (strings & _ & _ & _ & _ & _ & _ & _ & H).
  - vm_compute. repeat constructor; discriminate.
  - by vm_compute.
  - by vm_compute.
  - exact sample_file_verified.
  - intros t Ht off n He. unfold id_sections in Ht.
    repeat (apply elem_of_cons in Ht as [->|Ht]; [vm_compute in He; by injection He as <- <-|]).
    by apply not_elem_of_nil in Ht.
  - destruct (H [0x4c; 0x61; 0x3b] []) as (res & E & Hr); [repeat constructor; lia|].
    assert (E2 : FindStringId (load_file sample_file) [0x4c; 0x61; 0x3b; 0] = Some (Some 2)) by (by vm_compute).
    exists strings. split; [|exact E2]. apply Hr. change (c_str (unit_symbols [0x4c; 0x61; 0x3b]) [])
      with [0x4c; 0x61; 0x3b; 0] in E. rewrite E2 in E. by injection E as <-.
Defined.
