(* ===== verification/VerifiedCode.v ===== *)
(** * Code items of verified dex files

    In a file the verifier accepts, looking up the exception handlers of any address of a code
    item stays inside the file and finds handlers inside the method. *)
From stdpp Require Import fin_maps gmap strings.
From S2P Require Import Prelude.
From S2P Require Import Leb128.
From S2P Require Import DexFile.
From S2P Require Import TryCatch.
From S2P Require Import Descriptors.
From S2P Require Import DexFileVerifier.
From S2P Require Import VerifierLogic.
From S2P Require Import VerifierInvariant.
From S2P Require Import VerifiedFile.
Local Open Scope Z_scope.

(** ** Handler lists *)

(** [n] typed handlers, as the iterator and the verifier read them. *)
Fixpoint read_handlers (n : nat) (d : list Z) : option (list (Z * Z) * list Z) :=
  match n with
  | O => Some ([], d)
  | S n =>
      '(t, d) ← DecodeUnsignedLeb128 d;
      '(a, d) ← DecodeUnsignedLeb128 d;
      '(hs, d) ← read_handlers n d;
      Some ((t, a) :: hs, d)
  end.

(** The catch-all, if there is one. *)
Definition read_catch_all (c : bool) (d : list Z) : option (list (Z * Z) * list Z) :=
  if c then '(a, d) ← DecodeUnsignedLeb128 d; Some ([(kDexNoIndex16, a)], d) else Some ([], d).

Definition delivered (h : Z * Z) : Z * Z := (u16 (fst h), snd h).

Lemma collect_next n it :
  collect_handlers (S n) it
  = if HasNextHandler it then
      it' ← NextHandler it; '(l, e) ← collect_handlers n it'; Some ((type_idx_ it, address_ it) :: l, e)
    else Some ([], EndHandlerData it).
Proof. done. Qed.

Lemma collect_read n c d hs d1 ca d2 it :
  read_handlers n d = Some (hs, d1) -> read_catch_all c d1 = Some (ca, d2) ->
  remaining_count_ it = Z.of_nat n -> catch_all_ it = c -> current_data_ it = d ->
  (it' ← NextHandler it; collect_handlers (S (length (hs ++ ca))) it')
  = Some ((delivered <$> hs) ++ ca, Some d2).
Proof.
  revert d hs it. induction n as [|n IH]; intros d hs it Hr Hc En Ec Ed; unfold NextHandler; rewrite En.
  - injection Hr as <- <-. rewrite (proj2 (Z.ltb_ge _ _)) by lia. rewrite Ec. destruct c.
    + unfold read_catch_all in Hc. rewrite Ed. destruct (DecodeUnsignedLeb128 d) as [[a d']|]; [|done].
      cbn in Hc. injection Hc as <- <-. done.
    + cbn in Hc. injection Hc as <- <-. rewrite Ed. done.
  - cbn [read_handlers] in Hr. rewrite (proj2 (Z.ltb_lt _ _)) by lia. rewrite Ed.
    destruct (DecodeUnsignedLeb128 d) as [[t dt]|] eqn:Et; [|done]. cbn [mbind option_bind] in *.
    destruct (DecodeUnsignedLeb128 dt) as [[a da]|] eqn:Ea; [|done]. cbn [mbind option_bind] in *.
    destruct (read_handlers n da) as [[hs' d']|] eqn:Eh; [|done]. cbn [mbind option_bind] in *.
    injection Hr as <- <-. cbn [app length]. rewrite collect_next.
    set (it' := {| type_idx_ := _ |}).
    assert (Hn : HasNextHandler it' = true).
    { unfold HasNextHandler. cbn [remaining_count_ it']. by rewrite (proj2 (Z.eqb_neq _ _)) by lia. }
    rewrite Hn. specialize (IH da hs' it' Eh Hc).
    destruct (NextHandler it') as [it''|]; cbn [mbind option_bind] in *.
    + rewrite IH; [done|cbn [remaining_count_ it']; lia|done|done].
    + discriminate IH; [cbn [remaining_count_ it']; lia|done|done].
Qed.

Section Code.
Variables (df : DexFile) (base_ : Z).
Hypothesis (Hsize : Size df + 4 <= 2 ^ 32) (Hbytes : Forall is_byte (begin_ df)).
Abbreviation at_ p := (drop (Z.to_nat p) (begin_ df)).
Abbreviation insns_size code := (insns_size_in_code_units_ (begin_ df) code).

(** A decoder that reads a byte at least moves the cursor forward, inside the file. *)
Lemma decode_forward reader st v st' :
  decode df reader st = Done v st' -> local_reader true reader ->
  ptr_ st < ptr_ st' <= Size df.
Proof.
  unfold decode. intros H Hr. cursor_step H.
  apply bind_done in H as ([w rest] & st2 & E & H). apply lift_done in E as [E <-]. vinv. cbn [ptr_ with_ptr].
  destruct (Hr _ _ _ E) as (p & Hp & El & _). specialize (Hp eq_refl).
  assert (Hl : length (drop (Z.to_nat (ptr_ st)) (begin_ df)) = (length p + length rest)%nat) by (by rewrite El, length_app).
  rewrite length_drop in Hl. unfold Size. destruct p; [done|]. cbn [length] in Hl. lia.
Qed.

(** The unsigned decoder as the checks use it. *)
Lemma decode_unsigned_true st v st' :
  decode df DecodeUnsignedLeb128 st = Done v st' ->
  DecodeUnsignedLeb128 (at_ (ptr_ st)) = Some (v, at_ (ptr_ st')) /\ is_u 32 v /\ ptr_ st < ptr_ st' <= Size df.
Proof.
  intros H. pose proof (decode_forward _ _ _ _ H unsigned_local).
  apply decode_done in H as [H _]; [|eapply local_weaken, unsigned_local].
  split_all; [done|by eapply decode_nonneg|lia|lia].
Qed.

Definition good_handler (code : Z) (h : Z * Z) : Prop :=
  fst h < type_ids_size_ (hdr df) /\ 0 <= snd h < insns_size code.

Lemma handlers_true code n i st st' :
  for_each n i (CheckHandler df code) st = Done true st' -> ptr_ st <= Size df ->
  exists hs, length hs = n /\ read_handlers n (at_ (ptr_ st)) = Some (hs, at_ (ptr_ st')) /\
    Forall (good_handler code) hs /\ ptr_ st <= ptr_ st' <= Size df.
Proof.
  revert i st. induction n as [|n IH]; intros i st H Hp; cbn [for_each] in H.
  - apply ret_done in H as [_ <-]. exists []. split_all; [done..|lia|lia].
  - apply and_then_true in H as (st1 & H1 & H). unfold CheckHandler in H1.
    apply bind_done in H1 as (t & st2 & Ht & H1). apply decode_unsigned_true in Ht as (Et & _ & Hp1).
    apply and_then_true in H1 as (st3 & Hi & H1). apply check_true in Hi as [Hi <-].
    apply bind_done in H1 as (a & st3 & Ha & H1). apply decode_unsigned_true in Ha as (Ea & Hau & Hp2).
    apply check_true in H1 as [Hlt <-].
    apply IH in H as (hs & Hl & Er & Hf & Hp3); [|lia].
    exists ((t, a) :: hs). cbn [read_handlers length]. rewrite Et. cbn [mbind option_bind]. rewrite Ea.
    cbn [mbind option_bind]. rewrite Er. split_all; [lia|done| |lia|lia].
    constructor; [|done]. unfold good_handler. cbn [fst snd]. unfold is_u in Hau. lia.
Qed.

(** The list of handlers at [p] is read by the iterator, and its handlers are in the method. *)
Definition good_list (code p : Z) : Prop :=
  exists l rest, Forall (fun h => 0 <= snd h < insns_size code /\
      (fst h = kDexNoIndex16 \/ exists idx, idx < type_ids_size_ (hdr df) /\ fst h = u16 idx)) l /\
    forall it0, (InitHandlers it0 (at_ p) ≫= collect_handlers (S (length l))) = Some (l, Some rest).

Lemma good_delivered code hs ca :
  Forall (good_handler code) hs -> Forall (fun h => fst h = kDexNoIndex16 /\ 0 <= snd h < insns_size code) ca ->
  Forall (fun h => 0 <= snd h < insns_size code /\
    (fst h = kDexNoIndex16 \/ exists idx, idx < type_ids_size_ (hdr df) /\ fst h = u16 idx))
    ((delivered <$> hs) ++ ca).
Proof.
  intros Hh Hc. apply Forall_app. split.
  - apply Forall_fmap. eapply Forall_impl; [exact Hh|]. intros [t a] [Ht Ha]. cbn in *. split; [done|]. right. by exists t.
  - eapply Forall_impl; [exact Hc|]. cbn beta. intros h [Ht Ha]. split; [done|by left].
Qed.

Lemma handler_list_true code base i offs st offs' st' :
  CheckHandlerList df code base i offs st = Done (true, offs') st' -> 0 <= ptr_ st ->
  offs' = offs ++ [u32 (ptr_ st - base)] /\ good_list code (ptr_ st) /\ ptr_ st < ptr_ st' <= Size df.
Proof.
  intros H Hp0. unfold CheckHandlerList in H. cursor_step H.
  apply bind_done in H as (size & st1 & Hs & H).
  pose proof (decode_forward _ _ _ _ Hs signed_local) as Hf.
  apply decode_done in Hs as [Es _]; [|eapply local_weaken, signed_local].
  destruct ((size <? -65536) || (65536 <? size)) eqn:Er; [by vinv|]. apply orb_false_iff in Er as [Er1 Er2].
  cbv zeta in H. apply bind_done in H as (ok & st2 & Hh & H). destruct ok; [|by vinv]. cbn [negb] in H.
  apply handlers_true in Hh as (hs & Hl & Eh & Hgood & Hp2); [|lia].
  assert (Hn : (if size <=? 0 then s32 (- size) else size) = Z.of_nat (Z.to_nat (if size <=? 0 then - size else size))).
  { destruct (Z.leb_spec size 0); [rewrite s_small by (unfold is_s; reduce_pow; lia)|]; lia. }
  assert (Hinit : forall it0 ca d2, read_catch_all (size <=? 0) (at_ (ptr_ st2)) = Some (ca, d2) ->
     (InitHandlers it0 (at_ (ptr_ st)) ≫= collect_handlers (S (length ((delivered <$> hs) ++ ca))))
     = Some ((delivered <$> hs) ++ ca, Some d2)).
  { intros it0 ca d2 Hc. unfold InitHandlers. rewrite Es. cbn [mbind option_bind].
    rewrite length_app, length_fmap, <- length_app.
    eapply (collect_read _ (size <=? 0) _ hs _ ca d2); [exact Eh|exact Hc|exact Hn|done|done]. }
  destruct (Z.leb_spec size 0) as [Hneg|Hpos]; cbn match in H.
  - apply bind_done in H as (a & st3 & Ha & H). apply decode_unsigned_true in Ha as (Ea & Hau & Hp3).
    apply bind_done in H as (ok & st4 & Hc & H). apply ret_done in H as [Hres <-]. injection Hres as -> <-.
    apply check_true in Hc as [Hlt <-]. split_all; [done| |lia|lia].
    exists ((delivered <$> hs) ++ [(kDexNoIndex16, a)]), (at_ (ptr_ st3)).
    split; [apply good_delivered; [done|]|].
    + repeat constructor; cbn; unfold is_u in Hau; lia.
    + intros it0. apply Hinit. unfold read_catch_all. by rewrite Ea.
  - apply ret_done in H as [Hres <-]. injection Hres as <-. split_all; [done| |lia|lia].
    exists ((delivered <$> hs) ++ []), (at_ (ptr_ st2)).
    split; [apply good_delivered; [done|constructor]|]. intros it0. by apply Hinit.
Qed.

(** Every offset collected is that of a good list, relative to [base]. *)
Lemma handler_offsets_true code n st offs st' :
  CheckAndGetHandlerOffsets df code n st = Done (true, offs) st' ->
  GetCatchHandlerData (begin_ df) code 0 <= ptr_ st <= Size df -> 0 <= GetCatchHandlerData (begin_ df) code 0 ->
  forall h, h ∈ offs -> good_list code (GetCatchHandlerData (begin_ df) code 0 + h) /\ 0 <= h.
Proof.
  unfold CheckAndGetHandlerOffsets. set (base := GetCatchHandlerData _ _ _). intros H Hp Hb.
  apply (for_each_with_inv (fun _ offs st => base <= ptr_ st <= Size df /\
    forall h, h ∈ offs -> good_list code (base + h) /\ 0 <= h)) in H; [apply H| |].
  - split; [done|]. intros h Hh. by apply not_elem_of_nil in Hh.
  - intros j o st1 o' st2 _ (Hp1 & Ho) Hr. apply handler_list_true in Hr as (-> & Hg & Hp2); [|lia].
    split; [lia|]. intros h Hh. apply elem_of_app in Hh as [Hh|Hh]; [by apply Ho|].
    apply list_elem_of_singleton in Hh as ->. rewrite u_small by (unfold is_u; reduce_pow; lia).
    split; [|lia]. by replace (base + (ptr_ st1 - base)) with (ptr_ st1) by lia.
Qed.

(** ** Try items *)

Definition try_end (ti : TryItem) : Z := start_addr_ ti + insn_count_ ti.

(** The try items up to [n], the last of which ends at [last]. *)
Definition tries_upto (code : Z) (offs : list Z) (n last : Z) (tries : list TryItem) : Prop :=
  Z.of_nat (length tries) = n /\ 0 <= last <= insns_size code /\
  (forall k ti, tries !! k = Some ti -> ReadTryItem (begin_ df) (GetTryItems (begin_ df) code (Z.of_nat k)) = Some ti) /\
  Forall (fun ti => 0 <= start_addr_ ti /\ 0 <= insn_count_ ti /\ try_end ti <= last /\ handler_off_ ti ∈ offs) tries /\
  (forall i j ti tj, (i < j)%nat -> tries !! i = Some ti -> tries !! j = Some tj -> try_end ti <= start_addr_ tj).

Lemma read_try_bounds p ti :
  ReadTryItem (begin_ df) p = Some ti ->
  0 <= start_addr_ ti /\ 0 <= insn_count_ ti < 65536 /\ 0 <= handler_off_ ti.
Proof.
  unfold ReadTryItem. intros H. destruct (rd 4 p _) as [s|] eqn:Es; [|done]. cbn in H.
  destruct (rd 2 (p + 4) _) as [c|] eqn:Ec; [|done]. cbn in H.
  destruct (rd 2 (p + 6) _) as [h|] eqn:Eh; [|done]. cbn in H. injection H as <-. cbn.
  apply (rd_bound df Hbytes) in Es, Ec, Eh. lia.
Qed.

Lemma try_item_true code offs n last tries st last' st' :
  CheckTryItem df code offs n last st = Done (true, last') st' ->
  tries_upto code offs n last tries -> insns_size code < 2 ^ 31 ->
  exists ti, tries_upto code offs (n + 1) last' (tries ++ [ti]).
Proof.
  intros H (Hl & Hlast & Hread & Hall & Hsort) Hins. unfold CheckTryItem in H. cbv zeta in H.
  read_step H ti Hti. pose proof (read_try_bounds _ _ Hti) as (Hs0 & Hc0 & Hh0).
  destruct (Z.ltb_spec (start_addr_ ti) last); [by vinv|].
  destruct (Z.leb_spec (insns_size code) (start_addr_ ti)); [by vinv|].
  destruct (bool_decide (handler_off_ ti ∈ offs)) eqn:Eh; [|by vinv]. cbn [negb] in H.
  apply bool_decide_eq_true in Eh.
  rewrite u_small in H by (unfold is_u; reduce_pow; lia).
  destruct (Z.ltb_spec (insns_size code) (start_addr_ ti + insn_count_ ti)); [by vinv|].
  apply ret_done in H as [Hres _]. injection Hres as <-. exists ti. unfold tries_upto, try_end in *.
  split; [rewrite length_app; cbn; lia|]. split; [lia|]. split_all.
  - intros k t Hk. apply lookup_app_Some in Hk as [Hk|[Hge Hk]]; [by apply Hread|].
    apply list_lookup_singleton_Some in Hk as [Hk <-]. replace (Z.of_nat k) with n by lia. exact Hti.
  - apply Forall_app. split; [|repeat constructor; (done || lia)].
    eapply Forall_impl; [exact Hall|]. cbn beta. intros t (? & ? & ? & ?). split_all; (done || lia).
  - intros i j t1 t2 Hij Ha1 Ha2. apply lookup_app_Some in Ha2 as [Ha2|[Hge Ha2]].
    + pose proof (lookup_lt_Some _ _ _ Ha2). rewrite lookup_app_l in Ha1 by lia. exact (Hsort i j _ _ Hij Ha1 Ha2).
    + apply list_lookup_singleton_Some in Ha2 as [Hj <-].
      rewrite lookup_app_l in Ha1 by lia. rewrite Forall_lookup in Hall. destruct (Hall _ _ Ha1) as (_ & _ & ? & _). lia.
Qed.

Lemma tries_true code offs n st last st' :
  for_each_with n 0 0 (CheckTryItem df code offs) st = Done (true, last) st' ->
  0 <= insns_size code < 2 ^ 31 ->
  exists tries, tries_upto code offs (Z.of_nat n) last tries.
Proof.
  intros H Hins. apply (for_each_with_inv (fun j last _ => exists tries, tries_upto code offs j last tries)) in H.
  - exact H.
  - exists []. unfold tries_upto. cbn. split_all; try lia; try done.
  - intros j last1 st1 last2 st2 _ (tries & Ht) Hr. eapply try_item_true in Hr as [ti Hti]; [|exact Ht|lia].
    by eexists.
Qed.

(** ** Code items *)

Lemma code_item_true code :
  checked df base_ code kDexTypeCodeItem ->
  exists tries, try_table (begin_ df) code tries /\
    Forall (fun ti => try_end ti <= insns_size code /\
      good_list code (GetCatchHandlerData (begin_ df) code (handler_off_ ti))) tries.
Proof.
  intros (Hc & st & st' & <- & H). change (CheckIntraCodeItem df base_ st = Done true st') in H.
  unfold CheckIntraCodeItem in H. cursor_step H.
  apply and_then_true in H as (st1 & H1 & H). apply list_size_true in H1 as (-> & _).
  apply and_then_true in H as (st1 & H1 & H). apply check_true in H1 as [_ <-].
  apply and_then_true in H as (st1 & H1 & H). apply check_true in H1 as [_ <-].
  apply and_then_true in H as (st1 & H1 & H). apply list_size_true in H1 as (-> & _ & Hins).
  set (code := ptr_ st) in *. cbv zeta in H.
  assert (Hi0 : 0 <= insns_size code).
  { unfold insns_size_in_code_units_. by apply get_le_range. }
  assert (Ht0 : 0 <= tries_size_ (begin_ df) code < 65536).
  { unfold tries_size_. by apply (get_le_range 2 _ _ Hbytes). }
  destruct (Z.eqb_spec (tries_size_ (begin_ df) code) 0) as [E0|_].
  { exists []. split; [|constructor]. unfold try_table. split_all; try done. }
  apply bind_done in H as (pad & st1 & Hpad & H).
  assert (st1 = st) as -> by (unfold field in Hpad; destruct (negb _); by vinv).
  apply and_then_true in H as (st1 & H1 & H). apply check_true in H1 as [_ <-].
  apply bind_done in H as (u & st1 & Hset & H). apply set_ptr_done in Hset as ->.
  apply bind_done in H as (n & st1 & Hd & H). apply decode_unsigned_true in Hd as (_ & Hn & Hp). cbn [ptr_ with_ptr] in Hp.
  apply and_then_true in H as (st2 & H1 & H). apply list_size_true in H1 as (-> & Hti & Htries).
  apply and_then_true in H as (st2 & H1 & H). apply check_true in H1 as [_ <-].
  apply bind_done in H as ([ok offs] & st2 & Ho & H). destruct ok; [|by vinv]. cbn [negb] in H.
  assert (Hbase : 0 <= GetCatchHandlerData (begin_ df) code 0).
  { unfold GetCatchHandlerData, GetTryItems in *. lia. }
  pose proof (handler_offsets_true _ _ _ _ _ Ho ltac:(lia) Hbase) as Hgood.
  apply bind_done in H as ([ok last] & st3 & Ht & H). apply ret_done in H as [-> <-].
  apply tries_true in Ht as (tries & Hl & Hlast & Hread & Hall & Hsort); [|lia].
  rewrite Z2Nat.id in Hl by lia. exists tries. rewrite Forall_forall in Hall. split.
  - unfold try_table. split; [lia|]. split; [lia|]. split; [done|]. split; [|done].
    apply Forall_forall. intros ti Hin. destruct (Hall ti Hin) as (? & ? & ? & Hin').
    destruct (Hgood _ Hin'). unfold try_end in *. split_all; lia.
  - apply Forall_forall. intros ti Hin. destruct (Hall ti Hin) as (? & ? & ? & Hin').
    destruct (Hgood _ Hin') as [Hg _]. split; [lia|]. unfold GetCatchHandlerData in *.
    by rewrite Z.add_0_r in Hg.
Qed.
End Code.

(** ** Properties *)

(** C12: exception handling in a verified file: when [Verify] accepts a file below 4 GB, then for
    every code item it checked and every address, the iterator over the catch handlers of that
    address reads inside the file, delivers finitely many handlers, and every one of them is an
    address in the instructions of the method with a type index of the file or the catch-all. *)
Theorem verified_catch_handlers (bytes : list Z) (df : DexFile) (base_ : Z) (adler32 : list Z -> Z)
  (reason : string) (st : VerifierState) (code address : Z)
  (Hbytes : Forall is_byte bytes) (Hdf : MakeDexFile bytes = Some df) (Hsize : Size df + 4 <= 2 ^ 32)
  (Hverify : Verify df base_ adler32 = Done (true, reason) st)
  (Hcode : offset_to_type_map_ st !! code = Some kDexTypeCodeItem) :
  exists l rest,
    (it ← MakeCatchHandlerIterator (begin_ df) code address; collect_handlers (S (length l)) it)
    = Some (l, Some rest) /\
    Forall (fun h => 0 <= snd h < insns_size_in_code_units_ (begin_ df) code /\
      (fst h = kDexNoIndex16 \/ exists idx, idx < type_ids_size_ (hdr df) /\ fst h = u16 idx)) l.
Proof.
  destruct (make_dex_file _ _ Hdf Hbytes) as [<- _].
  apply verify_true in Hverify as (st' & Hverify & Hm). apply VerifyFile_true in Hverify as Hv; [|done..].
  rewrite <- Hm in Hcode. pose proof (verified_map _ _ _ Hv _ _ Hcode) as Hc.
  destruct (code_item_true df base_ Hsize Hbytes code Hc) as (tries & Htab & Hall).
  unfold MakeCatchHandlerIterator. rewrite (handler_offset _ _ address _ Htab). cbn [mbind option_bind].
  destruct (lookup_try tries address) as [ti|] eqn:El; [|by exists [], []].
  assert (Hin : ti ∈ tries).
  { unfold lookup_try in El. apply fmap_Some in El as ([i t] & El & ->). apply list_find_Some in El as (El & _).
    by apply list_elem_of_lookup_2 in El. }
  rewrite Forall_forall in Hall. destruct (Hall ti Hin) as [_ (l & rest & Hl & Hread)].
  exists l, rest. split; [|done]. unfold InitAtOffset.
  destruct Htab as (_ & _ & _ & Htab & _). rewrite Forall_forall in Htab. destruct (Htab ti Hin) as (_ & _ & Hh & _).
  rewrite (proj2 (Z.leb_le _ _)) by lia. exact (Hread (new_iterator 0)).
Qed.

Lemma verified_catch_handlers_witness :
  offset_to_type_map_ (state_of (Verify (load_file sample_file) 0x10000 adler32_sum)) !! 260 = Some kDexTypeCodeItem /\
  exists l rest,
    (it ← MakeCatchHandlerIterator sample_file 260 2; collect_handlers (S (length l)) it) = Some (l, Some rest).
Proof.
  assert (Hm : offset_to_type_map_ (state_of (Verify (load_file sample_file) 0x10000 adler32_sum)) !! 260
    = Some kDexTypeCodeItem) by (by vm_compute).
  split; [exact Hm|].
  destruct (verified_catch_handlers sample_file (load_file sample_file) 0x10000 adler32_sum ""
    (state_of (Verify (load_file sample_file) 0x10000 adler32_sum)) 260 2) as (l & rest & H & _).
  - vm_compute. repeat constructor; discriminate.
  - by vm_compute.
  - by vm_compute.
  - exact sample_file_verified.
  - exact Hm.
  - exists l, rest. change (begin_ (load_file sample_file)) with sample_file in H. exact H.
Defined.
