(* ===== verification/VerifierTermination.v ===== *)
(** * The dex file verifier terminates

    The verifier follows sizes, offsets and nesting it reads from the file, before it knows
    whether they make sense.  Every loop that is not bounded by a count reads at least a byte in
    every round, so that the fuel the definitions start with is never used up. *)
From stdpp Require Import fin_maps gmap strings.
From S2P Require Import Prelude.
From S2P Require Import Leb128.
From S2P Require Import DexFile.
From S2P Require Import ClassData.
From S2P Require Import DebugInfo.
From S2P Require Import Descriptors.
From S2P Require Import DexFileVerifier.
From S2P Require Import VerifierLogic.
From S2P Require Import VerifierInvariant.
From S2P Require Import VerifiedFile.
From S2P Require Import VerifiedCode.
Local Open Scope Z_scope.

Definition halts {A} (m : V A) : Prop := forall st, m st <> OutOfFuel.

(** From a cursor at [p] or behind it: the action halts and does not move the cursor back. *)
Definition advances (p : Z) {A} (m : V A) : Prop :=
  forall st, p <= ptr_ st -> m st <> OutOfFuel /\ forall a st', m st = Done a st' -> ptr_ st <= ptr_ st'.

(** ** Actions that halt from every state *)

Lemma halts_bind {A B} (m : V A) (k : A -> V B) : halts m -> (forall a, halts (k a)) -> halts (m ≫= k).
Proof.
  intros Hm Hk st. unfold mbind, V_bind. specialize (Hm st). destruct (m st); [apply Hk|done..].
Qed.
Lemma halts_ret {A} (a : A) : halts (mret a).
Proof. done. Qed.
Lemma halts_and_then m k : halts m -> halts k -> halts (and_then m k).
Proof. intros Hm Hk. apply halts_bind; [done|]. by intros []. Qed.
Lemma halts_lift {A} (x : option A) : halts (lift x).
Proof. intros st. unfold lift. by destruct x. Qed.
Lemma halts_reject fmt : halts (reject fmt).
Proof. done. Qed.
Lemma halts_check c fmt : halts (check c fmt).
Proof. by destruct c. Qed.
Lemma halts_for_each n i body : (forall j, halts (body j)) -> halts (for_each n i body).
Proof. intros H. revert i. induction n as [|n IH]; intros i; [done|]. by apply halts_and_then. Qed.
Lemma halts_for_each_with {A} n i (a : A) body :
  (forall j a, halts (body j a)) -> halts (for_each_with n i a body).
Proof.
  intros H. revert i a. induction n as [|n IH]; intros i a; [done|].
  apply halts_bind; [done|]. by intros [[] ?].
Qed.

Create HintDb halts discriminated.
Create HintDb advances discriminated.
Ltac halts_step :=
  match goal with
  | |- halts (_ ≫= _) => apply halts_bind; [|intros ?]
  | |- halts (and_then _ _) => apply halts_and_then
  | |- halts (lift _) => apply halts_lift
  | |- halts (field _ _ _) => apply halts_lift
  | |- halts (check _ _) => apply halts_check
  | |- halts (for_each _ _ _) => apply halts_for_each; intros ?
  | |- halts (for_each_with _ _ _ _) => apply halts_for_each_with; intros ? ?
  | |- halts (if ?b then _ else _) => destruct b
  | |- halts (match ?x with _ => _ end) => destruct x
  | |- halts _ => progress cbv beta zeta
  | |- halts _ => by intros ?
  end.
Ltac halts := repeat (halts_step || solve [auto with halts]).

(** ** Actions that move the cursor forward *)

Section Forward.
Variables (df : DexFile) (base_ : Z).
Hypothesis Hbytes : Forall is_byte (begin_ df).

Lemma advances_weaken p q {A} (m : V A) : advances p m -> p <= q -> advances q m.
Proof. intros H Hpq st Hst. apply H. lia. Qed.
Lemma advances_bind {A B} p (m : V A) (k : A -> V B) :
  advances p m -> (forall a, advances p (k a)) -> advances p (m ≫= k).
Proof.
  intros Hm Hk st Hst. destruct (Hm st Hst) as [Hf Hp]. unfold mbind, V_bind.
  destruct (m st) as [a st1| |] eqn:E; [|done..]. specialize (Hp _ _ eq_refl).
  destruct (Hk a st1) as [Hf1 Hp1]; [lia|]. split; [done|]. intros b st' H. specialize (Hp1 _ _ H). lia.
Qed.
Lemma advances_stay {A} p (m : V A) : halts m -> keeps ptr_ m -> advances p m.
Proof. intros Hh Hk st _. split; [apply Hh|]. intros a st' H. rewrite (Hk _ _ _ H). lia. Qed.
Lemma advances_and_then p m k : advances p m -> advances p k -> advances p (and_then m k).
Proof.
  intros Hm Hk. apply advances_bind; [done|]. intros []; [done|]. apply advances_stay; [done|].
  apply keeps_ret.
Qed.
Lemma advances_for_each p n i body : (forall j, advances p (body j)) -> advances p (for_each n i body).
Proof.
  intros H. revert i. induction n as [|n IH]; intros i; [|by apply advances_and_then].
  apply advances_stay; [done|apply keeps_ret].
Qed.
Lemma advances_for_each_with {A} p n i (a : A) body :
  (forall j a, advances p (body j a)) -> advances p (for_each_with n i a body).
Proof.
  intros H. revert i a. induction n as [|n IH]; intros i a; [apply advances_stay; [done|apply keeps_ret]|].
  apply advances_bind; [done|]. intros [[] ?]; [done|]. apply advances_stay; [done|apply keeps_ret].
Qed.
Lemma advances_ptr p n : 0 <= n -> advances p (advance_ptr n).
Proof. intros Hn st _. split; [done|]. intros a st' H. apply advance_ptr_done in H as ->. cbn. lia. Qed.

Lemma advances_decode p r : local_reader true r -> advances p (decode df r).
Proof.
  intros Hr st _. split.
  - revert st. change (halts (decode df r)). unfold decode. halts.
  - intros a st' H. pose proof (decode_forward _ _ _ _ _ H Hr). lia.
Qed.

(** After a byte was read the cursor is a byte further, inside the file. *)
Lemma advances_next_byte {A} p (k : Z -> V A) :
  (forall b, 0 <= b -> p < Size df -> advances (p + 1) (k b)) -> advances p (next_byte df ≫= k).
Proof.
  intros Hk st Hst. unfold mbind, V_bind. destruct (next_byte df st) as [b st1| |] eqn:E.
  - unfold next_byte, byte_at_ptr in E. vinv.
    match goal with Hr : rd 1 _ _ = Some _ |- _ =>
      pose proof (rd_range _ _ _ _ Hr); pose proof (rd_bound _ Hbytes _ _ _ Hr) end.
    match goal with |- k b ?s <> _ /\ _ => destruct (Hk b ltac:(lia) ltac:(unfold Size; lia) s) as [Hf Hp] end.
    { cbn. lia. }
    split; [done|]. intros a2 st2 Hd. specialize (Hp _ _ Hd). cbn in Hp. lia.
  - done.
  - exfalso. revert E. assert (Hh : halts (next_byte df)) by (unfold next_byte, byte_at_ptr; halts).
    apply Hh.
Qed.

Lemma halts_decode r : halts (decode df r).
Proof. unfold decode. halts. Qed.
Lemma halts_next_byte : halts (next_byte df).
Proof. unfold next_byte, byte_at_ptr. halts. Qed.

(** After a number was decoded the cursor is inside the file. *)
Lemma halts_after_decode {A} r (k : Z -> V A) :
  local_reader true r -> (forall v, advances 0 (k v)) -> halts (decode df r ≫= k).
Proof.
  intros Hr Hk st. unfold mbind, V_bind. destruct (decode df r st) as [v st1| |] eqn:E; [|done|].
  - destruct (decode_forward _ _ _ _ _ E Hr) as [_ _].
    assert (Hp : 0 <= ptr_ st1).
    { unfold decode in E. vinv. cbn.
      match goal with Hd : r _ = Some (_, ?rest) |- _ => destruct (Hr _ _ _ Hd) as (pre & _ & El & _) end.
      apply (f_equal length) in El. rewrite length_app, length_drop in El. unfold Size. lia. }
    apply Hk. exact Hp.
  - by apply halts_decode in E.
Qed.

Ltac advances_step :=
  match goal with
  | |- advances _ (_ ≫= _) => apply advances_bind; [|intros ?]
  | |- advances _ (and_then _ _) => apply advances_and_then
  | |- advances _ (for_each _ _ _) => apply advances_for_each; intros ?
  | |- advances _ (for_each_with _ _ _ _) => apply advances_for_each_with; intros ? ?
  | |- advances _ (decode _ _) => apply advances_decode; solve [apply unsigned_local|apply signed_local]
  | |- advances _ (if ?b then _ else _) => destruct b
  | |- advances _ (match ?x with _ => _ end) => destruct x
  | |- advances _ (advance_ptr _) => apply advances_ptr; lia
  | |- advances _ _ => apply advances_stay; [solve [halts]|solve [unfold CheckListSize, CheckIndex; keeps]]
  end.
Ltac advances := repeat (advances_step || assumption).

Lemma advances_CheckIndex p i limit : advances p (CheckIndex i limit).
Proof. unfold CheckIndex. advances. Qed.
Lemma halts_CheckListSize start count size : halts (CheckListSize df base_ start count size).
Proof. unfold CheckListSize. halts. Qed.
Lemma advances_CheckListSize p start count size : advances p (CheckListSize df base_ start count size).
Proof. apply advances_stay; [apply halts_CheckListSize|by apply keeps_CheckListSize]. Qed.
Lemma advances_byte p : advances p (next_byte df).
Proof. unfold next_byte, byte_at_ptr. advances. Qed.
#[local] Hint Resolve advances_CheckIndex advances_CheckListSize advances_byte : advances.
Ltac advances_auto := repeat (solve [auto with advances] || advances_step || assumption).

(** ** Encoded values *)

Lemma advances_little_endian p n : advances p (ReadUnsignedLittleEndian df base_ n).
Proof.
  assert (Hl : forall m i r, advances p (ReadLittleEndianLoop df m i r)).
  { intros m. induction m as [|m IH]; intros i r; cbn [ReadLittleEndianLoop]; advances_auto. }
  unfold ReadUnsignedLittleEndian. advances_auto.
Qed.
Lemma advances_index p arg limit fmt : advances p (EncodedIndex df base_ arg limit fmt).
Proof. unfold EncodedIndex. pose proof (advances_little_endian p). advances_auto. Qed.
Lemma advances_array p check_value : advances p check_value -> advances p (EncodedArray df check_value).
Proof. intros H. unfold EncodedArray. advances_auto. Qed.
Lemma advances_annotation p check_value : advances p check_value -> advances p (EncodedAnnotation df check_value).
Proof. intros H. unfold EncodedAnnotation. advances_auto. Qed.
#[local] Hint Resolve advances_index advances_array advances_annotation : advances.

(** A value reads its header byte before the values it consists of. *)
Lemma advances_value p check_value :
  (p < Size df -> advances (p + 1) check_value) -> advances p (EncodedValue df base_ check_value).
Proof.
  intros Hv. unfold EncodedValue. apply advances_bind; [advances_auto|intros q].
  apply advances_and_then; [advances_auto|]. apply advances_next_byte. intros b Hb Hp. specialize (Hv Hp).
  cbv zeta. assert (0 <= b ≫ kDexAnnotationValueArgShift) by (by apply Z.shiftr_nonneg).
  generalize dependent (b ≫ kDexAnnotationValueArgShift). intros arg Harg.
  generalize (Z.land b kDexAnnotationValueTypeMask). intros t. advances_auto.
Qed.

Lemma advances_value_fuel fuel p :
  p <= Size df -> Size df - p < Z.of_nat fuel -> advances p (CheckEncodedValueFuel df base_ fuel).
Proof.
  revert p. induction fuel as [|fuel IH]; intros p Hp Hf; [lia|]. cbn [CheckEncodedValueFuel].
  apply advances_value. intros Hlt. apply IH; lia.
Qed.

Lemma advances_encoded_value : advances 0 (CheckEncodedValue df base_).
Proof. apply advances_value_fuel; unfold value_fuel, Size; lia. Qed.

Lemma halts_encoded_array : halts (CheckEncodedArray df base_).
Proof.
  apply halts_after_decode; [apply unsigned_local|]. intros n. pose proof advances_encoded_value. advances_auto.
Qed.
Lemma halts_encoded_annotation : halts (CheckEncodedAnnotation df base_).
Proof.
  apply halts_after_decode; [apply unsigned_local|]. intros n. pose proof advances_encoded_value. advances_auto.
Qed.

(** ** Debug information *)

Lemma advances_debug_opcode p opcode : advances p (CheckDebugOpcode df opcode).
Proof. unfold CheckDebugOpcode, CheckDebugRegister, CheckDebugIndex. advances_auto. Qed.

Lemma advances_debug_loop fuel p :
  p <= Size df -> Size df - p < Z.of_nat fuel -> advances p (CheckDebugLoop df fuel).
Proof.
  revert p. induction fuel as [|fuel IH]; intros p Hp Hf; [lia|]. cbn [CheckDebugLoop].
  apply advances_next_byte. intros b _ Hlt. pose proof (advances_debug_opcode (p + 1) b).
  assert (advances (p + 1) (CheckDebugLoop df fuel)) by (apply IH; lia). advances_auto.
Qed.

Lemma halts_debug_info : halts (CheckIntraDebugInfoItem df).
Proof.
  apply halts_after_decode; [apply unsigned_local|]. intros _.
  assert (advances 0 (CheckDebugLoop df (S (length (begin_ df))))) by (apply advances_debug_loop; unfold Size; lia).
  unfold CheckDebugIndex. advances_auto.
Qed.

(** ** Class data *)

Lemma decode_shorter (reader : list Z -> option (Z * list Z)) bytes v rest :
  local_reader true reader -> reader bytes = Some (v, rest) -> (length rest < length bytes)%nat.
Proof.
  intros Hr H. destruct (Hr _ _ _ H) as (p & Hp & -> & _). specialize (Hp eq_refl).
  rewrite length_app. destruct p; [done|]. cbn. lia.
Qed.

Ltac shorter :=
  repeat match goal with
  | H : context [DecodeUnsignedLeb128 ?b ≫= _] |- _ =>
      let E := fresh "E" in
      destruct (DecodeUnsignedLeb128 b) as [[? ?]|] eqn:E; [|done]; cbn [mbind option_bind] in H;
      apply (decode_shorter _ _ _ _ unsigned_local) in E
  end.

Lemma read_field_shorter it it' :
  ReadClassDataField it = Some it' ->
  (length (ptr_pos_ it') < length (ptr_pos_ it))%nat.
Proof. unfold ReadClassDataField. intros H. shorter. injection H as <-. cbn. lia. Qed.
Lemma read_method_shorter it it' :
  ReadClassDataMethod it = Some it' ->
  (length (ptr_pos_ it') < length (ptr_pos_ it))%nat.
Proof. unfold ReadClassDataMethod. intros H. shorter. injection H as <-. cbn. lia. Qed.

(** The member at [it] is in one of the sections. *)
Definition in_section (it : ClassDataItemIterator) : bool :=
  HasNextStaticField it || HasNextInstanceField it || HasNextDirectMethod it || HasNextVirtualMethod it.

(** [Next] reads a member, or there is none left. *)
Lemma next_progress it it' :
  Next it = Some it' ->
  (length (ptr_pos_ it') <= length (ptr_pos_ it))%nat /\
  (in_section it' = true -> (length (ptr_pos_ it') < length (ptr_pos_ it))%nat).
Proof.
  unfold Next. cbv zeta. intros H.
  repeat match type of H with (if ?c then _ else _) = _ => destruct c eqn:? end;
    try (apply read_field_shorter in H; cbn in H; lia);
    try (apply read_method_shorter in H; cbn in H; lia).
  injection H as <-. cbn [set_pos_last ptr_pos_]. split; [lia|]. intros Hin. exfalso. revert Hin.
  unfold in_section, HasNextStaticField, HasNextInstanceField, HasNextDirectMethod, HasNextVirtualMethod.
  cbn [set_pos_last pos_ ClassData.header_]. lia.
Qed.

Section Members.
Variables (has_next : ClassDataItemIterator -> bool) (member : ClassDataItemIterator -> V bool).
Hypothesis (Hnext : forall it, has_next it = true -> in_section it = true) (Hmember : forall it, halts (member it)).

Lemma halts_members_fuel fuel fmt prev it :
  (in_section it = true -> (length (ptr_pos_ it) < fuel)%nat) -> halts (CheckMembers fuel has_next member fmt prev it).
Proof.
  revert prev it. induction fuel as [|fuel IH]; intros prev it Hf; cbn [CheckMembers];
    destruct (has_next it) eqn:E; try done; apply Hnext in E; specialize (Hf E); [lia|].
  cbv zeta. destruct (_ <? prev); [done|]. apply halts_bind; [apply Hmember|]. intros []; [|done]. cbn [negb].
  intros st. unfold lift, mbind, V_bind. destruct (Next it) as [it'|] eqn:En; [|done].
  apply next_progress in En as [Hle Hlt]. apply IH. intros Hin. specialize (Hlt Hin). lia.
Qed.

Lemma halts_inter_members_fuel fuel it :
  (in_section it = true -> (length (ptr_pos_ it) < fuel)%nat) -> halts (CheckInterMembers fuel has_next member it).
Proof.
  revert it. induction fuel as [|fuel IH]; intros it Hf; cbn [CheckInterMembers];
    destruct (has_next it) eqn:E; try done; apply Hnext in E; specialize (Hf E); [lia|].
  apply halts_bind; [apply Hmember|]. intros []; [|done]. cbn [negb].
  intros st. unfold lift, mbind, V_bind. destruct (Next it) as [it'|] eqn:En; [|done].
  apply next_progress in En as [Hle Hlt]. apply IH. intros Hin. specialize (Hlt Hin). lia.
Qed.

(** The iterator the loop ends with does not point behind the one it starts with. *)
Lemma members_shorter fuel fmt prev it st ok it' st' :
  CheckMembers fuel has_next member fmt prev it st = Done (ok, it') st' ->
  (length (ptr_pos_ it') <= length (ptr_pos_ it))%nat.
Proof.
  revert prev it st. induction fuel as [|fuel IH]; intros prev it st H; cbn [CheckMembers] in H;
    destruct (has_next it); vinv; try lia; [done|].
  destruct (_ <? prev); vinv; [lia|]. destruct (negb _); vinv; [lia|].
  match goal with Hn : Next it = Some _ |- _ => apply next_progress in Hn as [? _] end.
  apply IH in H. lia.
Qed.
Lemma inter_members_shorter fuel it st ok it' st' :
  CheckInterMembers fuel has_next member it st = Done (ok, it') st' ->
  (length (ptr_pos_ it') <= length (ptr_pos_ it))%nat.
Proof.
  revert it st. induction fuel as [|fuel IH]; intros it st H; cbn [CheckInterMembers] in H;
    destruct (has_next it); vinv; try lia; [done|].
  destruct (negb _); vinv; [lia|].
  match goal with Hn : Next it = Some _ |- _ => apply next_progress in Hn as [? _] end.
  apply IH in H. lia.
Qed.
End Members.

(** What the value of an action satisfies may be used to show that the rest halts. *)
Lemma halts_bind_with {A B} (Q : A -> Prop) (m : V A) (k : A -> V B) :
  halts m -> (forall st a st', m st = Done a st' -> Q a) -> (forall a, Q a -> halts (k a)) -> halts (m ≫= k).
Proof.
  intros Hm HQ Hk st. unfold mbind, V_bind. destruct (m st) as [a st1| |] eqn:E; [|done|by apply Hm in E].
  apply Hk. by eapply HQ.
Qed.

(** Members are left to read in the file. *)
Definition inside (it : ClassDataItemIterator) : Prop := (length (ptr_pos_ it) <= length (begin_ df))%nat.

Lemma make_iterator_inside p it :
  MakeClassDataItemIterator (drop (Z.to_nat p) (begin_ df)) = Some it -> inside it.
Proof.
  unfold MakeClassDataItemIterator, ReadClassDataHeader, inside. intros H. shorter.
  match goal with E : (_ < length (drop _ _))%nat |- _ => rewrite length_drop in E end.
  cbn in H. repeat match type of H with (if ?c then _ else _) = _ => destruct c end;
    [apply read_field_shorter in H; cbn in H; lia|apply read_method_shorter in H; cbn in H; lia|].
  injection H as <-. cbn. lia.
Qed.

(** A loop over members, and what comes after it. *)
Lemma halts_after_members {B} has_next member fmt it (k : bool * ClassDataItemIterator -> V B) :
  (forall it, has_next it = true -> in_section it = true) -> (forall it, halts (member it)) -> inside it ->
  (forall ok it', inside it' -> halts (k (ok, it'))) ->
  halts (CheckMembers (members_fuel df) has_next member fmt 0 it ≫= k).
Proof.
  intros Hn Hm Hi Hk. apply (halts_bind_with (fun r => inside (snd r))).
  - apply halts_members_fuel; [done..|]. intros _. unfold members_fuel, inside in *. lia.
  - intros st [ok it'] st' H. apply members_shorter in H. unfold inside in *. cbn. lia.
  - intros [ok it'] H. by apply Hk.
Qed.
Lemma halts_after_inter_members {B} has_next member it (k : bool * ClassDataItemIterator -> V B) :
  (forall it, has_next it = true -> in_section it = true) -> (forall it, halts (member it)) -> inside it ->
  (forall ok it', inside it' -> halts (k (ok, it'))) ->
  halts (CheckInterMembers (members_fuel df) has_next member it ≫= k).
Proof.
  intros Hn Hm Hi Hk. apply (halts_bind_with (fun r => inside (snd r))).
  - apply halts_inter_members_fuel; [done..|]. intros _. unfold members_fuel, inside in *. lia.
  - intros st [ok it'] st' H. apply inter_members_shorter in H. unfold inside in *. cbn. lia.
  - intros [ok it'] H. by apply Hk.
Qed.

Ltac members lemma :=
  apply lemma;
    [intros ?; unfold in_section; by repeat destruct (HasNextStaticField _), (HasNextInstanceField _),
       (HasNextDirectMethod _), (HasNextVirtualMethod _)
    |intros ?; unfold CheckClassDataItemField, CheckClassDataItemMethod, CheckInterField, CheckInterMethod,
       LOAD_FIELD, LOAD_METHOD, CheckLoadFieldId, CheckLoadMethodId, CheckIndex, CheckOptionalOffset, CheckOffsetToTypeMap;
       halts
    |assumption
    |intros [] ? ?; cbn [negb]; [|done]].

Lemma halts_class_data : halts (CheckIntraClassDataItem df).
Proof.
  unfold CheckIntraClassDataItem. cbv zeta. apply halts_bind; [done|intros p].
  apply (halts_bind_with inside); [halts|intros st it st' H; vinv; by eapply make_iterator_inside|intros it Hit].
  do 4 members @halts_after_members. halts.
Qed.

Lemma halts_inter_class_data : halts (CheckInterClassDataItem df).
Proof.
  unfold CheckInterClassDataItem. apply halts_bind; [done|intros p].
  apply (halts_bind_with inside); [halts|intros st it st' H; vinv; by eapply make_iterator_inside|intros it Hit].
  apply halts_bind; [|intros [ok cls]; destruct (negb ok); [done|]].
  - unfold FindFirstClassDataDefiner, LOAD_FIELD, LOAD_METHOD, CheckLoadFieldId, CheckLoadMethodId, CheckIndex. halts.
  - do 2 members @halts_after_inter_members. halts.
Qed.

(** ** Parameters of two prototypes *)

(** An iterator over a list in the file. *)
Definition parameters_ok (it : ParameterIterator) : Prop :=
  0 <= DexFile.pos_ it /\ size_ it < 2 ^ 32 /\ (forall l, type_list_ it = Some l -> 0 <= l).

Lemma make_parameters_ok proto it : MakeParameterIterator df proto = Some it -> parameters_ok it.
Proof.
  unfold MakeParameterIterator, parameters_ok. intros H.
  destruct (GetProtoParameters proto) as [l|]; [|injection H as <-; cbn; split; [lia|split; [reduce_pow; lia|done]]].
  destruct (rd 4 l (begin_ df)) as [n|] eqn:E; [|done]. injection H as <-. cbn.
  pose proof (rd_range _ _ _ _ E). apply (rd_bound _ Hbytes) in E.
  split; [lia|]. split; [reduce_pow; lia|]. intros ? [= <-]. lia.
Qed.

Lemma next_parameter_ok it idx :
  parameters_ok it -> HasNextParameter it = true -> GetTypeIdx df it = Some idx ->
  parameters_ok (NextParameter it) /\ DexFile.pos_ (NextParameter it) = DexFile.pos_ it + 1 /\
  2 * DexFile.pos_ it < Size df.
Proof.
  unfold parameters_ok, HasNextParameter, GetTypeIdx. intros (H0 & Hs & Hl) Hn Hi. apply Z.ltb_lt in Hn.
  destruct (type_list_ it) as [l|] eqn:E; [|done]. cbn in Hi. apply rd_range in Hi. specialize (Hl l eq_refl).
  cbn [NextParameter DexFile.pos_ size_ type_list_]. rewrite u_small by (unfold is_u; lia). unfold Size.
  split; [|lia]. split; [lia|]. split; [done|]. rewrite E. intros ? [= <-]. done.
Qed.

Lemma halts_proto_order fuel curr prev :
  parameters_ok curr -> parameters_ok prev -> Size df - DexFile.pos_ curr < Z.of_nat fuel ->
  (0 < fuel)%nat -> halts (CheckProtoOrder df fuel curr prev).
Proof.
  revert curr prev. induction fuel as [|fuel IH]; intros curr prev Hc Hp Hf H0; [lia|]. cbn [CheckProtoOrder].
  destruct (HasNextParameter curr) eqn:Ec; [|done]. destruct (HasNextParameter prev) eqn:Ep; [|done]. cbn [andb].
  apply (halts_bind_with (fun i => GetTypeIdx df prev = Some i)); [halts|intros ? ? ? H; by vinv|intros pi Hpi].
  apply (halts_bind_with (fun i => GetTypeIdx df curr = Some i)); [halts|intros ? ? ? H; by vinv|intros ci Hci].
  destruct (next_parameter_ok _ _ Hc Ec Hci) as (Hc' & Epos & Hlt).
  destruct (next_parameter_ok _ _ Hp Ep Hpi) as (Hp' & _ & _).
  assert (halts (CheckProtoOrder df fuel (NextParameter curr) (NextParameter prev))).
  { destruct Hc as [Hc0 _]. apply IH; [done..|lia|lia]. }
  halts; done.
Qed.

(** ** Items, sections and the whole file *)

Lemma halts_CheckIndex i limit : halts (CheckIndex i limit).
Proof. unfold CheckIndex. halts. Qed.
#[local] Hint Resolve halts_decode halts_next_byte halts_CheckListSize halts_CheckIndex halts_encoded_array
  halts_encoded_annotation halts_debug_info halts_class_data halts_inter_class_data : halts.

Lemma halts_list_size n : halts (CheckList df base_ n).
Proof. unfold CheckList. halts. Qed.
Lemma halts_padding o a : halts (CheckPadding df base_ o a).
Proof. unfold CheckPadding, byte_at_ptr. halts. Qed.
Lemma halts_code_item : halts (CheckIntraCodeItem df base_).
Proof. unfold CheckIntraCodeItem, CheckAndGetHandlerOffsets, CheckHandlerList, CheckHandler, CheckTryItem. halts. Qed.
Lemma halts_string_data : halts (CheckIntraStringDataItem df).
Proof. unfold CheckIntraStringDataItem, CheckStringChar. halts. Qed.
Lemma halts_annotation_item : halts (CheckIntraAnnotationItem df base_).
Proof. unfold CheckIntraAnnotationItem. halts. Qed.
Lemma halts_annotations_directory : halts (CheckIntraAnnotationsDirectoryItem df base_).
Proof. unfold CheckIntraAnnotationsDirectoryItem, CheckAnnotationsList. halts. Qed.
#[local] Hint Resolve halts_list_size halts_padding halts_code_item halts_string_data halts_annotation_item
  halts_annotations_directory : halts.
Lemma halts_intra_item type : halts (CheckIntraItem df base_ type).
Proof. unfold CheckIntraItem, CheckFixedItem. halts. Qed.
#[local] Hint Resolve halts_intra_item : halts.
Lemma halts_intra_iterate o n type : halts (CheckIntraSectionIterate df base_ o n type).
Proof. unfold CheckIntraSectionIterate, CheckIntraSectionItem. halts. Qed.
#[local] Hint Resolve halts_intra_iterate : halts.
Lemma halts_intra_section : halts (CheckIntraSection df base_).
Proof.
  unfold CheckIntraSection, CheckIntraSectionOf, CheckIntraIdSection, CheckIntraDataSection, map_item, ReadMapItem.
  halts.
Qed.

Lemma halts_string_by_idx i : halts (CheckLoadStringByIdx df i).
Proof. unfold CheckLoadStringByIdx. halts. Qed.
#[local] Hint Resolve halts_string_by_idx : halts.
Lemma halts_string_by_type i : halts (CheckLoadStringByTypeIdx df i).
Proof. unfold CheckLoadStringByTypeIdx. halts. Qed.
Lemma halts_load_field i : halts (CheckLoadFieldId df i).
Proof. unfold CheckLoadFieldId. halts. Qed.
Lemma halts_load_method i : halts (CheckLoadMethodId df i).
Proof. unfold CheckLoadMethodId. halts. Qed.
Lemma halts_offset o t : halts (CheckOffsetToTypeMap o t).
Proof. unfold CheckOffsetToTypeMap. halts. Qed.
Lemma halts_descriptor s c fmt : halts (CheckDescriptor s c fmt).
Proof. unfold CheckDescriptor. halts. Qed.
Lemma halts_triple a b fmt : halts (CheckTripleOrder a b fmt).
Proof. unfold CheckTripleOrder. halts. Qed.
Lemma halts_shorty_match c d r : halts (CheckShortyDescriptorMatch c d r).
Proof. unfold CheckShortyDescriptorMatch. halts. Qed.
#[local] Hint Resolve halts_string_by_type halts_load_field halts_load_method halts_offset halts_descriptor
  halts_triple halts_shorty_match : halts.
Lemma halts_shorty shorty it : halts (CheckShorty df shorty it).
Proof. revert it. induction shorty as [|c shorty IH]; intros it; cbn [CheckShorty]; halts. Qed.
Lemma halts_optional o t : halts (CheckOptionalOffset o t).
Proof. unfold CheckOptionalOffset. halts. Qed.
#[local] Hint Resolve halts_shorty halts_optional : halts.

(** The order of two prototypes. *)
Lemma halts_proto_pair item prev :
  halts (curr_it ← lift (MakeParameterIterator df item); prev_it ← lift (MakeParameterIterator df prev);
         CheckProtoOrder df (S (length (begin_ df))) curr_it prev_it).
Proof.
  apply (halts_bind_with parameters_ok); [halts|intros st it st' H; vinv; by eapply make_parameters_ok|intros a Ha].
  apply (halts_bind_with parameters_ok); [halts|intros st it st' H; vinv; by eapply make_parameters_ok|intros b Hb].
  apply halts_proto_order; [done..| |lia]. destruct Ha as [? _]. unfold Size. lia.
Qed.
#[local] Hint Resolve halts_proto_pair : halts.

Lemma halts_data_definer p : halts (FindFirstClassDataDefiner df p).
Proof. unfold FindFirstClassDataDefiner, LOAD_FIELD, LOAD_METHOD. halts. Qed.
Lemma halts_annotations_definer p : halts (FindFirstAnnotationsDirectoryDefiner df p).
Proof. unfold FindFirstAnnotationsDirectoryDefiner, LOAD_FIELD, LOAD_METHOD. halts. Qed.
#[local] Hint Resolve halts_data_definer halts_annotations_definer : halts.

Lemma halts_proto_item : halts (CheckInterProtoIdItem df).
Proof. unfold CheckInterProtoIdItem, LOAD_STRING, LOAD_STRING_BY_TYPE, ProtoIdAt. repeat (solve [auto with halts] || halts_step). Qed.
Lemma halts_class_def_item : halts (CheckInterClassDefItem df).
Proof.
  unfold CheckInterClassDefItem, CheckInterfaceDescriptor, CheckInterfaceUnique, LOAD_STRING_BY_TYPE,
    ClassDefAt, TypeItemAt, CheckDefiner. halts.
Qed.
#[local] Hint Resolve halts_proto_item halts_class_def_item : halts.

Lemma halts_inter_item type : halts (CheckInterItem df type).
Proof.
  unfold CheckInterItem, CheckInterStringIdItem, CheckInterTypeIdItem, CheckInterFieldIdItem, CheckInterMethodIdItem,
    CheckInterAnnotationSetRefList, CheckInterAnnotationSetItem, CheckInterAnnotationsDirectoryItem,
    CheckInterAnnotationsList, load_field_class, load_method_class, LOAD_STRING, LOAD_STRING_BY_TYPE,
    FieldIdAt, MethodIdAt. halts.
Qed.
#[local] Hint Resolve halts_inter_item : halts.
Lemma halts_inter_section : halts (CheckInterSection df).
Proof.
  unfold CheckInterSection, CheckInterSectionOf, CheckInterSectionIterate, CheckInterSectionItem, map_item,
    ReadMapItem. halts.
Qed.

Lemma halts_verify_file adler32 : halts (VerifyFile df base_ adler32).
Proof.
  pose proof halts_intra_section. pose proof halts_inter_section.
  unfold VerifyFile, CheckHeader, CheckValidOffsetAndSize, CheckMap, CheckMapItem, CheckSectionMapped, map_item, ReadMapItem.
  cbv zeta. halts; done.
Qed.
End Forward.

(** ** Property *)

(** C13: the verifier terminates on every file: whatever the sizes, offsets, nested values and
    lists of an arbitrary sequence of bytes are, [Verify] gives an answer or makes one of the
    reads that the code does not check, and never uses up the fuel of its loops. *)
Theorem verify_terminates (bytes : list Z) (df : DexFile) (base_ : Z) (adler32 : list Z -> Z)
  (Hbytes : Forall is_byte bytes) (Hdf : MakeDexFile bytes = Some df) :
  Verify df base_ adler32 <> OutOfFuel.
Proof.
  destruct (make_dex_file _ _ Hdf Hbytes) as [<- _]. unfold Verify.
  pose proof (halts_verify_file df base_ Hbytes adler32 new_verifier) as H. by destruct (VerifyFile _ _ _ _).
Qed.

Lemma verify_terminates_witness : Verify (load_file sample_file) 0x10000 adler32_sum <> OutOfFuel.
Proof.
  apply (verify_terminates sample_file (load_file sample_file)).
  - vm_compute. repeat constructor; discriminate.
  - by vm_compute.
Defined.
