(* ===== verification/VerifierGaps.v ===== *)
(** * What the dex file verifier lets through

    The exact meaning of the range check, and four places at which [Verify] promises less than
    its clients rely on: the order of prototypes whose parameter lists are prefixes of each other,
    an index that lies behind the end of the file, id sections that are not aligned, and the
    operand of [DBG_SET_FILE], which the decoder takes for opcodes. *)
From stdpp Require Import fin_maps gmap strings.
From S2P Require Import Prelude.
From S2P Require Import Leb128.
From S2P Require Import DexFile.
From S2P Require Import DebugInfo.
From S2P Require Import DexFileVerifier.
From S2P Require Import VerifierLogic.
From S2P Require Import VerifiedFile.
Local Open Scope Z_scope.

(** The type indices an iterator delivers. *)
Fixpoint delivers (df : DexFile) (it : ParameterIterator) (l : list Z) : Prop :=
  match l with
  | [] => HasNextParameter it = false
  | t :: l => HasNextParameter it = true /\ GetTypeIdx df it = Some t /\ delivers df (NextParameter it) l
  end.

(** The first difference between two lists of indices is an increase. *)
Definition increases (ps cs : list Z) : Prop :=
  exists l p c ps' cs', ps = l ++ p :: ps' /\ cs = l ++ c :: cs' /\ p < c.

(** *** Sample files

    A string section at an odd offset, two equal prototypes, and an encoded array whose only
    value is an index that the end of the file cuts off. *)
Definition unaligned_file : list Z := concat (le_bytes 4 <$> [
    0xa786564; 0x353330; 0x77ae071e; 0; 0; 0; 0; 0; 184; 112; 0x12345678; 0; 0; 132; 2; 115; 0;
    0; 0; 0; 0; 0; 0; 0; 0; 0; 60; 124; 0; 124; 127; 0x1004101; 66; 4; 0; 1; 0; 1; 2; 115; 8194;
    2; 124; 4096; 1; 132]).

Definition duplicate_file : list Z := concat (le_bytes 4 <$> [
    0xa786564; 0x353330; 0xd480135c; 0; 0; 0; 0; 0; 296; 112; 0x12345678; 0; 0; 208; 6; 112; 3;
    136; 2; 148; 0; 0; 1; 172; 0; 0; 116; 180; 180; 188; 191; 196; 199; 203; 1; 2; 3; 3; 2; 0; 3;
    2; 0; 1; 0; 0x6e693c06; 0x3e7469; 0x3004901; 0x3b614c; 0x2005601; 0x1004956; 102; 7; 0; 1; 0;
    1; 6; 112; 2; 3; 136; 3; 2; 148; 5; 1; 172; 8194; 6; 180; 4096; 1; 208]).

Definition truncated_file : list Z := take 194 (concat (le_bytes 4 <$> [
    0xa786564; 0x353330; 0xd5250877; 0; 0; 0; 0; 0; 194; 112; 0x12345678; 0; 0; 128; 2; 112; 0;
    0; 0; 0; 0; 0; 0; 0; 0; 0; 74; 120; 120; 123; 0x1004101; 66; 5; 0; 1; 0; 1; 2; 112; 8194; 2;
    120; 4096; 1; 128; 8197; 1; 192; 30465])).

(** [Verify] of a file mapped at 0x10000. *)
Definition accepted (bytes : list Z) : bool :=
  match Verify (load_file bytes) 0x10000 adler32_sum with Done (b, _) _ => b | _ => false end.

Lemma increases_cons x ps cs : increases (x :: ps) (x :: cs) <-> increases ps cs.
Proof.
  split.
  - intros (l & p & c & ps' & cs' & Hp & Hc & H). destruct l as [|y l]; cbn in *; simplify_eq; [lia|].
    by exists l, p, c, ps', cs'.
  - intros (l & p & c & ps' & cs' & -> & -> & H). by exists (x :: l), p, c, ps', cs'.
Qed.

Lemma increases_head p c ps cs : p <> c -> increases (p :: ps) (c :: cs) <-> p < c.
Proof.
  intros Hne. split.
  - intros (l & p' & c' & ps' & cs' & Hp & Hc & H). by destruct l as [|y l]; cbn in *; simplify_eq.
  - intros H. by exists [], p, c, ps, cs.
Qed.

(** ** Properties *)

(** [CheckListSize] is exact and free of overflow: for a range that starts in the address space
    and elements that are not empty, it answers true exactly when the whole range is inside the
    file, whatever the 32-bit count, and it then leaves the state alone. *)
Theorem list_size_exact (df : DexFile) (base_ start count elem_size : Z) (st : VerifierState)
  (Hbase : 0 <= base_) (Hend : base_ + Size df < 2 ^ 64) (Hstart : 0 <= base_ + start < 2 ^ 64)
  (Hcount : 0 <= count) (Helem : 0 < elem_size) :
  exists b st', CheckListSize df base_ start count elem_size st = Done b st' /\
    (b = true <-> 0 <= start /\ start + count * elem_size <= Size df) /\ (b = true -> st' = st).
Proof.
  unfold CheckListSize. cbv zeta.
  rewrite (u_small 64 (base_ + start)) by done.
  replace (u64 (u64 (0 - 1) - (base_ + start))) with (2 ^ 64 - 1 - (base_ + start)) by (unfold u; reduce_pow; word_lia).
  destruct (Z.ltb_spec ((2 ^ 64 - 1 - (base_ + start)) / elem_size) count) as [Hlt|Hge].
  - eexists false, _. split; [done|]. split; [|done]. split; [done|]. intros [_ H].
    assert (count <= (2 ^ 64 - 1 - (base_ + start)) / elem_size) by (apply Z.div_le_lower_bound; lia). lia.
  - unfold check. destruct (negb _) eqn:E.
    + exists true, st. split; [done|]. split; [|done]. apply negb_true_iff, orb_false_iff in E. lia.
    + eexists false, _. split; [done|]. split; [|done]. split; [done|].
      apply negb_false_iff, orb_true_iff in E. lia.
Qed.

Lemma list_size_exact_witness :
  exists b st', CheckListSize (load_file sample_file) 0x10000 0x70 6 4 new_verifier = Done b st' /\
    (b = true <-> 0 <= 0x70 /\ 0x70 + 6 * 4 <= Size (load_file sample_file)) /\ (b = true -> st' = new_verifier).
Proof.
  apply (list_size_exact (load_file sample_file) 0x10000 0x70 6 4 new_verifier).
  - lia.
  - vm_compute. reflexivity.
  - lia.
  - lia.
  - lia.
Defined.

(** The order of two prototypes with the same return type that [CheckInterProtoIdItem] checks:
    it accepts the later one exactly when the first difference of the two parameter lists is an
    increase or one list is a prefix of the other; so it accepts equal prototypes, and a shorter
    list after a longer one, although the table has to be in strict order. *)
Theorem proto_order_accepts (df : DexFile) (curr prev : ParameterIterator) (cs ps : list Z) (fuel : nat)
  (st : VerifierState)
  (Hc : delivers df curr cs) (Hp : delivers df prev ps) (Hidx : Forall (fun t => t <> kDexNoIndex16) (cs ++ ps))
  (Hfuel : (length cs < fuel)%nat) :
  exists b st', CheckProtoOrder df fuel curr prev st = Done b st' /\
    (b = true <-> increases ps cs \/ ps `prefix_of` cs \/ cs `prefix_of` ps).
Proof.
  revert curr prev ps fuel Hc Hp Hidx Hfuel. induction cs as [|c cs IH]; intros curr prev ps fuel Hc Hp Hidx Hfuel;
    (destruct fuel as [|fuel]; [cbn in Hfuel; lia|]); cbn [delivers CheckProtoOrder] in *.
  { rewrite Hc. exists true, st. split; [done|]. split; [|done]. intros _. right. right. apply prefix_nil. }
  destruct Hc as (-> & -> & Hc). destruct ps as [|p ps]; cbn [delivers] in Hp.
  { rewrite Hp. exists true, st. split; [done|]. split; [|done]. intros _. right. left. apply prefix_nil. }
  destruct Hp as (-> & -> & Hp). cbn [andb]. unfold lift, mbind, V_bind.
  apply Forall_app in Hidx as [Hi Hj]. inversion_clear Hi as [|? ? Hic Hi']. inversion_clear Hj as [|? ? Hip Hj'].
  rewrite (proj2 (Z.eqb_neq _ _) Hip), (proj2 (Z.eqb_neq _ _) Hic).
  destruct (Z.ltb_spec p c) as [Hlt|Hge].
  { exists true, st. split; [done|]. split; [|done]. intros _. left. by apply increases_head; [lia|]. }
  destruct (Z.ltb_spec c p) as [Hgt|Hle].
  { eexists false, _. split; [done|]. split; [done|]. intros [H|[H|H]].
    - apply increases_head in H; lia.
    - apply prefix_cons_inv_1 in H. lia.
    - apply prefix_cons_inv_1 in H. lia. }
  assert (c = p) as -> by lia.
  destruct (IH _ _ ps fuel Hc Hp) as (b & st' & E & Hb).
  { apply Forall_app. by split. }
  { cbn in Hfuel. lia. }
  exists b, st'. split; [exact E|]. rewrite Hb, increases_cons. split.
  - intros [H|[H|H]]; [by left|right; left|right; right]; by apply prefix_cons.
  - intros [H|[H|H]]; [by left|right; left|right; right]; by eapply prefix_cons_inv_2.
Qed.

(** The same list of one parameter twice. *)
Lemma proto_order_accepts_witness :
  let it := {| type_list_ := Some 56; size_ := 1; pos_ := 0 |} in
  exists st', CheckProtoOrder sample_debug_dex 2 it it new_verifier = Done true st'.
Proof.
  cbv zeta. set (it := {| type_list_ := Some 56; size_ := 1; pos_ := 0 |}).
  destruct (proto_order_accepts sample_debug_dex it it [0] [0] 2 new_verifier) as (b & st' & E & Hb).
  - vm_compute. repeat split.
  - vm_compute. repeat split.
  - repeat constructor; vm_compute; discriminate.
  - cbn. lia.
  - assert (b = true) as -> by (apply Hb; by right; left). by exists st'.
Defined.

(** [ReadUnsignedLittleEndian] swallows the failure of its range check: when fewer bytes are
    left in the file than an encoded index says it has, the value is checked as if it were index 0
    and accepted, without the cursor moving, whenever the table is not empty. *)
Lemma truncated_index_accepted (df : DexFile) (base_ value_arg limit : Z) (fmt : string) (st : VerifierState)
  (Harg : 0 <= value_arg <= 3) (Hlimit : 0 < limit) (Hptr : Size df < ptr_ st + (value_arg + 1)) :
  exists st', EncodedIndex df base_ value_arg limit fmt st = Done true st' /\ ptr_ st' = ptr_ st.
Proof.
  unfold EncodedIndex, ReadUnsignedLittleEndian, CheckListSize. rewrite (proj2 (Z.ltb_ge _ _)) by lia.
  unfold mbind, V_bind, get_ptr. rewrite Z.mul_1_r.
  destruct (_ <? value_arg + 1); [|rewrite (proj2 (Z.ltb_lt (Size df) _)), orb_true_r by lia];
    unfold check; cbn; unfold CheckIndex, check; cbn; unfold reject, mbind, V_bind, ErrorStringPrintf, mret, V_ret;
    rewrite (proj2 (Z.ltb_lt _ _)) by lia; by eexists.
Qed.

(** The verifier and the decoder of debug information disagree about [DBG_SET_FILE]: the
    verifier goes past the operand, the decoder takes the operand for the next opcode.  So with
    the operand 0 (no name) the decoder stops and reports nothing of what follows. *)
Theorem set_file_operand {C} (df : DexFile) (position_cb : option (C -> Z -> Z -> C * bool))
  (local_cb : option (C -> LocalEntry -> C)) (regs a l name : Z) (rest : list Z) (locals : list LocalInfo)
  (c : C) (st : VerifierState)
  (Hname : is_u 32 name) (Hidx : name - 1 < string_ids_size_ (hdr df)) (Hptr : 0 <= ptr_ st)
  (Hops : drop (Z.to_nat (ptr_ st)) (begin_ df) = EncodeUnsignedLeb128 name ++ rest) :
  CheckDebugOpcode df DBG_SET_FILE st
    = Done true (with_ptr (ptr_ st + Z.of_nat (length (EncodeUnsignedLeb128 name))) st) /\
  DebugStep df position_cb local_cb regs
      (mkDebugState a l (DBG_SET_FILE :: EncodeUnsignedLeb128 name ++ rest) locals c)
    = Some (Continue (mkDebugState a l (EncodeUnsignedLeb128 name ++ rest) locals c)) /\
  (name = 0 -> forall fuel, DebugLoop df position_cb local_cb (S (S fuel)) regs
      (mkDebugState a l (DBG_SET_FILE :: EncodeUnsignedLeb128 name ++ rest) locals c)
    = Some (mkDebugState a l rest locals c)).
Proof.
  split; [|split; [done|]].
  - unfold CheckDebugOpcode, CheckDebugIndex. cbn. unfold decode, mbind, V_bind, get_ptr, lift.
    rewrite Hops, decode_encode by done.
    assert (E : Size df - Z.of_nat (length rest) = ptr_ st + Z.of_nat (length (EncodeUnsignedLeb128 name))).
    { pose proof (encode_unsigned_nonempty _ Hname). apply (f_equal length) in Hops. rewrite length_drop, length_app in Hops.
      unfold Size. lia. }
    rewrite E. unfold set_ptr. cbn. destruct (name =? 0); [done|]. cbn. unfold CheckIndex, with_ptr.
    by rewrite (proj2 (Z.ltb_lt _ _)) by lia.
  - by intros -> fuel'.
Qed.

Lemma set_file_operand_witness :
  let stream := [0; 0x0e; 0] in
  let df := {| begin_ := stream; header_ := DexFile.header_ sample_df |} in
  DebugLoop df (Some LineNumForPcCb) None 2 1
    (mkDebugState 0 10 (DBG_SET_FILE :: stream) [] (mkLineContext 0 (u32 (-1))))
  = Some (mkDebugState 0 10 [0x0e; 0] [] (mkLineContext 0 (u32 (-1)))).
Proof.
  cbv zeta.
  apply (set_file_operand {| begin_ := [0; 0x0e; 0]; header_ := DexFile.header_ sample_df |} (Some LineNumForPcCb) None
    1 0 10 0 [0x0e; 0] [] (mkLineContext 0 (u32 (-1))) new_verifier ltac:(word_lia) ltac:(vm_compute; reflexivity)
    ltac:(vm_compute; discriminate) eq_refl).
  reflexivity.
Defined.

