(* ===== verification/Calls.v ===== *)
(** Calls of the interpreter ([interpreter_common.{h,cc}], [entrypoint_utils.cc],
    [art_method.h]).

    [DoCall] builds the frame of the method that is called from the registers of the caller
    and runs it; the method itself runs through the [Runtime] interface.  [DoInvoke] and
    [DoInvokeVirtualQuick] find the method.  [DoFilledNewArray], [FillArrayData] and
    [RecordArrayElementsInTransaction] create, fill and record arrays.  [None] is undefined
    behaviour (a register outside a frame, an argument that was not set) or [LOG(FATAL)]. *)
From S2P Require Import Prelude ClassData DexInstruction ShadowFrame Runtime TryCatch.
Local Open Scope Z_scope.

(** The outcome of an invocation: the thread, the caller's frame (a constructor of [String]
    changes it), the result register, the memory that holds the code. *)
Record InvokeResult (W : Type) := mkInvoke {
  inv_self : Thread W;
  inv_frame : ShadowFrame;
  inv_result : JValue;
  inv_mem : list Z;
  inv_success : bool;
}.
Arguments mkInvoke {W} _ _ _ _ _.
Arguments inv_self {W} _.
Arguments inv_frame {W} _.
Arguments inv_result {W} _.
Arguments inv_mem {W} _.
Arguments inv_success {W} _.

(** ** Arguments *)

(** Both arrays of the frame agree on a register that holds a reference. *)
Definition AssignRegister (new_shadow_frame shadow_frame : ShadowFrame) (dest_reg src_reg : Z)
  : option ShadowFrame :=
  v ← GetVReg shadow_frame src_reg;
  o ← GetVRegReference shadow_frame src_reg;
  let src_value := u32 v in
  if src_value =? o then SetVRegReference new_shadow_frame dest_reg o
  else SetVReg new_shadow_frame dest_reg src_value.

(** The loops of the fast path; the fuel of the first is [num_regs]. *)
Fixpoint AssignRange (fuel : nat) (new_shadow_frame shadow_frame : ShadowFrame)
  (dest_reg src_reg num_regs : Z) : option ShadowFrame :=
  if dest_reg <? num_regs then
    match fuel with
    | O => None
    | S fuel' =>
        new_shadow_frame ← AssignRegister new_shadow_frame shadow_frame dest_reg src_reg;
        AssignRange fuel' new_shadow_frame shadow_frame (dest_reg + 1) (src_reg + 1) num_regs
    end
  else Some new_shadow_frame.

Fixpoint AssignList (count : nat) (new_shadow_frame shadow_frame : ShadowFrame)
  (arg_index first_dest_reg regList : Z) : option ShadowFrame :=
  match count with
  | O => Some new_shadow_frame
  | S count' =>
      new_shadow_frame ← AssignRegister new_shadow_frame shadow_frame
        (u64 (first_dest_reg + arg_index)) (Z.land regList 0x0f);
      AssignList count' new_shadow_frame shadow_frame (arg_index + 1) first_dest_reg (regList ≫ 4)
  end.

(** The fast path: the new frame and the value of [first_dest_reg] after it. *)
Definition FastPath (is_range string_init : bool) (i : Instruction) (inst_data : Z)
  (shadow_frame new_shadow_frame : ShadowFrame) (num_regs num_ins first_dest_reg : Z)
  : option (ShadowFrame * Z) :=
  if is_range then
    let first_src_reg := VRegC_3rc i in
    let first_src_reg := if string_init then u16 (first_src_reg + 1) else first_src_reg in
    let first_dest_reg := if string_init then u64 (first_dest_reg + 1) else first_dest_reg in
    new_shadow_frame ← AssignRange (Z.to_nat num_regs) new_shadow_frame shadow_frame
      first_dest_reg first_src_reg num_regs;
    Some (new_shadow_frame, first_dest_reg)
  else
    let regList := Fetch16 i 2 in
    let count := num_ins in
    new_shadow_frame ←
      (if count =? 5 then
         AssignRegister new_shadow_frame shadow_frame (u64 (first_dest_reg + 4))
           (Z.land (inst_data ≫ 8) 0x0f)
       else Some new_shadow_frame);
    let count := if count =? 5 then count - 1 else count in
    let regList := if string_init then regList ≫ 4 else regList in
    let first_dest_reg := if string_init then u64 (first_dest_reg + 1) else first_dest_reg in
    let count := if string_init then u16 (count - 1) else count in
    new_shadow_frame ← AssignList (Z.to_nat count) new_shadow_frame shadow_frame 0
      first_dest_reg regList;
    Some (new_shadow_frame, first_dest_reg).

Section Calls.
Context {W : Type} `{Runtime W}.

(** [art_method.h]. *)
Definition IsStatic (w : W) (method : Z) : bool :=
  negb (Z.land (GetAccessFlags w method) kAccStatic =? 0).
Definition IsConstructor (w : W) (method : Z) : bool :=
  negb (Z.land (GetAccessFlags w method) kAccConstructor =? 0).
Definition IsAbstract (w : W) (method : Z) : bool :=
  negb (Z.land (GetAccessFlags w method) kAccAbstract =? 0).

(** The loop of the slow path, which checks references against the types of the parameters.
    76, 74 and 68 are the characters [L], [J] and [D] of the shorty; [src] is the register of
    an argument.  A frame [None] inside the result is the [return false]. *)
Fixpoint CheckedArguments (fuel : nat) (method : Z) (shorty : list Z) (src : Z -> option Z)
  (shadow_frame new_shadow_frame : ShadowFrame) (num_regs shorty_pos dest_reg arg_offset : Z)
  (self : Thread W) : option (Thread W * option ShadowFrame) :=
  if dest_reg <? num_regs then
    match fuel with
    | O => None
    | S fuel' =>
        src_reg ← src arg_offset;
        c ← reg_at shorty (shorty_pos + 1);
        if c =? 76 then
          o ← GetVRegReference shadow_frame src_reg;
          '(self, ok) ←
            (if negb (o =? 0) then
              let '(self, arg_type) := GetClassFromTypeIndex method
                (GetParameterTypeIdx (world_ self) method shorty_pos) self in
              if arg_type =? 0 then CheckPending self (self, false)
              else if negb (VerifierInstanceOf (world_ self) o arg_type) then
                Some (Throw (VirtualMachineError o) self, false)
              else Some (self, true)
            else Some (self, true));
          if (ok : bool) then
            new_shadow_frame ← SetVRegReference new_shadow_frame dest_reg o;
            CheckedArguments fuel' method shorty src shadow_frame new_shadow_frame num_regs
              (shorty_pos + 1) (dest_reg + 1) (arg_offset + 1) self
          else Some (self, None)
        else if (c =? 74) || (c =? 68) then
          hi ← GetVReg shadow_frame (src_reg + 1);
          lo ← GetVReg shadow_frame src_reg;
          let wide_value := Z.lor (u64 (u64 hi ≪ 32)) (u32 lo) in
          new_shadow_frame ← SetVRegLong new_shadow_frame dest_reg (s64 wide_value);
          CheckedArguments fuel' method shorty src shadow_frame new_shadow_frame num_regs
            (shorty_pos + 1) (dest_reg + 2) (arg_offset + 2) self
        else
          v ← GetVReg shadow_frame src_reg;
          new_shadow_frame ← SetVReg new_shadow_frame dest_reg v;
          CheckedArguments fuel' method shorty src shadow_frame new_shadow_frame num_regs
            (shorty_pos + 1) (dest_reg + 1) (arg_offset + 1) self
    end
  else Some (self, Some new_shadow_frame).

(** [arg]: only the entries that [GetVarArgs] sets are defined. *)
Definition argument_register (is_range : bool) (i : Instruction) (k : Z) : option Z :=
  if is_range then Some (VRegC_3rc i + k)
  else reg_at (take (Z.to_nat (VRegA_35c i)) (GetVarArgs i [0; 0; 0; 0; 0])) k.

(** The slow path.  The fuel is [num_regs]. *)
Definition SlowPath (is_range string_init : bool) (i : Instruction)
  (shadow_frame new_shadow_frame : ShadowFrame) (num_regs first_dest_reg : Z) (self : Thread W)
  : option (Thread W * option ShadowFrame) :=
  let method := GetMethod new_shadow_frame in
  let shorty := GetShorty (world_ self) method in
  let src := argument_register is_range i in
  let checked new_shadow_frame dest_reg arg_offset :=
    CheckedArguments (Z.to_nat num_regs) method shorty src shadow_frame new_shadow_frame num_regs
      0 dest_reg arg_offset self in
  if negb (IsStatic (world_ self) method) then
    receiver_reg ← src 0;
    receiver ← GetVRegReference shadow_frame receiver_reg;
    new_shadow_frame ← SetVRegReference new_shadow_frame first_dest_reg receiver;
    checked new_shadow_frame (u64 (first_dest_reg + 1)) 1
  else if string_init then checked new_shadow_frame (u64 (first_dest_reg + 1)) 1
  else checked new_shadow_frame first_dest_reg 0.

(** ** The call *)

(** Constructors of [String] are replaced by methods of [StringFactory]. *)
Definition ReplaceStringInit (w : W) (called_method : Z) : Z * bool :=
  if IsStringClass w (GetDeclaringClass w called_method) && IsConstructor w called_method
  then (StringInitToStringFactoryMethodID w called_method, true) else (called_method, false).

(** The number of registers of the new frame; [LIKELY(code_item != nullptr)]. *)
Definition CalleeRegisters (mem : list Z) (code_item : option Z) (string_init : bool) (num_ins : Z)
  : Z :=
  match code_item with
  | Some code_item => registers_size_ mem code_item
  | None => if string_init then u16 (num_ins - 1) else num_ins
  end.

Definition RunMethod (code_item : option Z) (new_shadow_frame : ShadowFrame) (first_dest_reg : Z)
  (result : JValue) (mem : list Z) (self : Thread W) : CallResult W :=
  if IsStarted (world_ self)
  then EntryPointFromInterpreter code_item new_shadow_frame result mem self
  else UnstartedRuntimeInvoke code_item new_shadow_frame first_dest_reg result mem self.

Fixpoint SetReferences (regs : list Z) (l : Z) (shadow_frame : ShadowFrame) : option ShadowFrame :=
  match regs with
  | [] => Some shadow_frame
  | reg :: regs' =>
      shadow_frame ← SetVRegReference shadow_frame reg l;
      SetReferences regs' l shadow_frame
  end.

(** After the call: the new string goes to every register that held the uninitialised one. *)
Definition FinishCall (is_range string_init : bool) (i : Instruction) (shadow_frame : ShadowFrame)
  (r : CallResult W) : option (InvokeResult W) :=
  '(self, shadow_frame) ←
    (if string_init && negb (IsExceptionPending (call_self r)) then
       let vregC := if is_range then VRegC_3rc i else VRegC_35c i in
       shadow_frame ← SetVRegReference shadow_frame vregC (GetL (call_result r));
       let '(self, reg_set) :=
         FindStringInitMap (GetMethod shadow_frame) (GetDexPC shadow_frame) (call_self r) in
       shadow_frame ← SetReferences reg_set (GetL (call_result r)) shadow_frame;
       Some (self, shadow_frame)
     else Some (call_self r, shadow_frame));
  Some (mkInvoke self shadow_frame (call_result r) (call_mem r) (negb (IsExceptionPending self))).

Definition DoCall (is_range do_assignability_check : bool) (called_method : Z) (i : Instruction)
  (inst_data : Z) (shadow_frame : ShadowFrame) (result : JValue) (mem : list Z) (self : Thread W)
  : option (InvokeResult W) :=
  let '(called_method, string_init) := ReplaceStringInit (world_ self) called_method in
  let code_item := GetCodeItem (world_ self) called_method in
  let num_ins := if is_range then InstAA inst_data else InstB inst_data in
  let num_regs := CalleeRegisters mem code_item string_init num_ins in
  let new_shadow_frame :=
    Create num_regs (Some (GetTopShadowFrame (world_ self))) called_method 0 in
  let first_dest_reg := u64 (num_regs - num_ins) in
  if do_assignability_check then
    '(self, assigned) ← SlowPath is_range string_init i shadow_frame new_shadow_frame num_regs
      first_dest_reg self;
    match assigned with
    | None => Some (mkInvoke self shadow_frame result mem false)
    | Some new_shadow_frame =>
        FinishCall is_range string_init i shadow_frame
          (RunMethod code_item new_shadow_frame first_dest_reg result mem self)
    end
  else
    '(new_shadow_frame, first_dest_reg) ← FastPath is_range string_init i inst_data shadow_frame
      new_shadow_frame num_regs num_ins first_dest_reg;
    FinishCall is_range string_init i shadow_frame
      (RunMethod code_item new_shadow_frame first_dest_reg result mem self).

Definition DoInvoke (type : InvokeType) (is_range do_access_check : bool) (i : Instruction)
  (inst_data : Z) (shadow_frame : ShadowFrame) (result : JValue) (mem : list Z) (self : Thread W)
  : option (InvokeResult W) :=
  let method_idx := if is_range then VRegB_3rc i else VRegB_35c i in
  let vregC := if is_range then VRegC_3rc i else VRegC_35c i in
  receiver ← (if decide (type = kStatic) then Some 0 else GetVRegReference shadow_frame vregC);
  let sf_method := GetMethod shadow_frame in
  let '(self, called_method) :=
    FindMethodFromCode type do_access_check method_idx receiver sf_method self in
  if called_method =? 0 then
    CheckPending self (mkInvoke self shadow_frame (SetJ result 0) mem false)
  else if IsAbstract (world_ self) called_method then
    Some (mkInvoke (Throw (AbstractMethodError called_method) self) shadow_frame (SetJ result 0)
            mem false)
  else DoCall is_range do_access_check called_method i inst_data shadow_frame result mem self.

Definition DoInvokeVirtualQuick (is_range : bool) (i : Instruction) (inst_data : Z)
  (shadow_frame : ShadowFrame) (result : JValue) (mem : list Z) (self : Thread W)
  : option (InvokeResult W) :=
  let vregC := if is_range then VRegC_3rc i else VRegC_35c i in
  receiver ← GetVRegReference shadow_frame vregC;
  if receiver =? 0 then
    Some (mkInvoke (Throw NullPointerException self) shadow_frame result mem false)
  else
    let vtable_idx := if is_range then VRegB_3rc i else VRegB_35c i in
    let called_method :=
      GetEmbeddedVTableEntry (world_ self) (GetClass (world_ self) receiver) vtable_idx in
    if called_method =? 0 then
      CheckPending self (mkInvoke self shadow_frame (SetJ result 0) mem false)
    else if IsAbstract (world_ self) called_method then
      Some (mkInvoke (Throw (AbstractMethodError called_method) self) shadow_frame
              (SetJ result 0) mem false)
    else DoCall is_range false called_method i inst_data shadow_frame result mem self.

(** ** Filled arrays *)

(** The stores of [DoFilledNewArray] from element [k] on. *)
Fixpoint FillElements (n : nat) (transaction_active is_primitive_int_component : bool)
  (src : Z -> option Z) (shadow_frame : ShadowFrame) (new_array k : Z) (self : Thread W)
  : option (Thread W) :=
  match n with
  | O => Some self
  | S n' =>
      src_reg ← src k;
      self ←
        (if is_primitive_int_component then
           v ← GetVReg shadow_frame src_reg;
           Some (SetWithoutChecks transaction_active kPrimInt new_array k v self)
         else
           o ← GetVRegReference shadow_frame src_reg;
           Some (SetObjectWithoutChecks transaction_active new_array k o self));
      FillElements n' transaction_active is_primitive_int_component src shadow_frame new_array
        (k + 1) self
  end.

(** The two [CHECK]s abort. *)
Definition DoFilledNewArray (is_range do_access_check transaction_active : bool) (i : Instruction)
  (shadow_frame : ShadowFrame) (result : JValue) (self : Thread W)
  : option (Thread W * JValue * bool) :=
  let length := if is_range then VRegA_3rc i else VRegA_35c i in
  if negb is_range && (5 <? length) then None
  else if length <? 0 then Some (Throw (NegativeArraySizeException length) self, result, false)
  else
    let type_idx := if is_range then VRegB_3rc i else VRegB_35c i in
    let '(self, array_class) :=
      ResolveVerifyAndClinit do_access_check type_idx (GetMethod shadow_frame) self in
    if array_class =? 0 then Some (self, result, false)
    else
      let component_class := GetComponentType (world_ self) array_class in
      if component_class =? 0 then None
      else
        let component_type := GetPrimitiveType (world_ self) component_class in
        let is_primitive_int_component := bool_decide (component_type = kPrimInt) in
        if negb (bool_decide (component_type = kPrimNot)) && negb is_primitive_int_component then
          if bool_decide (component_type = kPrimLong) || bool_decide (component_type = kPrimDouble)
          then Some (Throw (RuntimeException component_class) self, result, false)
          else Some (Throw (InternalError component_class) self, result, false)
        else
          let '(self, new_array) := AllocArray array_class length self in
          if new_array =? 0 then Some (self, result, false)
          else
            self ← FillElements (Z.to_nat length) transaction_active is_primitive_int_component
              (argument_register is_range i) shadow_frame new_array 0 self;
            Some (self, SetL result new_array, true).

(** [Instruction::ArrayDataPayload]: the units after [ident] are the element width, the element
    count (two units) and the data, as bytes. *)
Definition element_width (payload : Instruction) : Z := Fetch16 payload 1.
Definition element_count (payload : Instruction) : Z := Fetch32 payload 2.
Definition payload_data (payload : Instruction) (size : nat) : list Z :=
  map (fun k => Fetch16 payload (4 + Z.of_nat k / 2) / 256 ^ (Z.of_nat k mod 2) mod 256) (seq 0 size).

(** The count is compared as an [int32_t] and multiplied as a [uint32_t]. *)
Definition FillArrayData (obj : Z) (payload : Instruction) (self : Thread W) : Thread W * bool :=
  if obj =? 0 then (Throw NullPointerException self, false)
  else if GetLength (world_ self) obj <? s32 (element_count payload) then
    (Throw (ArrayIndexOutOfBoundsException (element_count payload) (GetLength (world_ self) obj)) self,
     false)
  else
    let size_in_bytes := u32 (element_count payload * element_width payload) in
    (set_world (SetRawData obj (element_width payload)
       (payload_data payload (Z.to_nat size_in_bytes)) (world_ self)) self, true).

Fixpoint RecordArrayElementsInTransactionImpl (count : nat) (t : PrimitiveType) (array k : Z)
  (self : Thread W) : Thread W :=
  match count with
  | O => self
  | S count' =>
      let w := world_ self in
      RecordArrayElementsInTransactionImpl count' t array (k + 1)
        (set_world (RecordWriteArray array k (GetWithoutChecks t w array k) w) self)
  end.

(** [count] is an [int32_t]. *)
Definition RecordArrayElementsInTransaction (array count : Z) (self : Thread W)
  : option (Thread W) :=
  let w := world_ self in
  let primitive_component_type := GetPrimitiveType w (GetComponentType w (GetClass w array)) in
  match primitive_component_type with
  | kPrimNot | kPrimVoid => None
  | t => Some (RecordArrayElementsInTransactionImpl (Z.to_nat (s32 count)) t array 0 self)
  end.
End Calls.

(** ** The caller's frame

    A call changes the caller's frame only through register writes. *)

Lemma SetReferences_keeps regs l f f' : SetReferences regs l f = Some f' -> keeps f f'.
Proof.
  revert f. induction regs as [|r regs IH]; intros f; cbn [SetReferences].
  - intros [= <-]. apply keeps_refl.
  - destruct (SetVRegReference f r l) as [g|] eqn:E; [|done]. intros E'.
    eapply keeps_trans; [by eapply SetVRegReference_keeps|by apply IH].
Qed.
#[export] Hint Resolve SetReferences_keeps : keeps.

Section Keeps.
Context {W : Type} `{Runtime W}.

Lemma FinishCall_keeps is_range string_init i f (r : CallResult W) v :
  FinishCall is_range string_init i f r = Some v -> keeps f (inv_frame v).
Proof.
  unfold FinishCall. intros E. step_inv; simplify_eq; cbn [inv_frame]; [|apply keeps_refl].
  by eapply keeps_trans; [by eapply SetVRegReference_keeps|by eapply SetReferences_keeps].
Qed.

Lemma DoCall_keeps is_range check called i d f result mem (self : Thread W) v :
  DoCall is_range check called i d f result mem self = Some v -> keeps f (inv_frame v).
Proof.
  unfold DoCall. cbv zeta. intros E. step_inv; try (by eapply FinishCall_keeps).
  match goal with E : match ?o with _ => _ end = _ |- _ => destruct o end;
    [by eapply FinishCall_keeps|injection E as <-; apply keeps_refl].
Qed.

Lemma DoInvoke_keeps type is_range check i d f result mem (self : Thread W) v :
  DoInvoke type is_range check i d f result mem self = Some v -> keeps f (inv_frame v).
Proof.
  unfold DoInvoke, CheckPending. cbv zeta. intros E. step_inv; try (by eapply DoCall_keeps);
    injection E as <-; apply keeps_refl.
Qed.

Lemma DoInvokeVirtualQuick_keeps is_range i d f result mem (self : Thread W) v :
  DoInvokeVirtualQuick is_range i d f result mem self = Some v -> keeps f (inv_frame v).
Proof.
  unfold DoInvokeVirtualQuick, CheckPending. cbv zeta. intros E. step_inv; try (by eapply DoCall_keeps);
    injection E as <-; apply keeps_refl.
Qed.
End Keeps.
#[export] Hint Resolve DoInvoke_keeps DoInvokeVirtualQuick_keeps : keeps.

(** ** Argument passing *)

(** The registers an invocation names, in order. *)
Definition argument_registers (is_range : bool) (i : Instruction) : list Z :=
  if is_range then seqZ (VRegC_3rc i) (VRegA_3rc i)
  else take (Z.to_nat (VRegA_35c i)) (GetVarArgs i [0; 0; 0; 0; 0]).

(** The frame a method should start in: the arguments in its last registers, in both arrays. *)
Definition values_of (array : list Z) (srcs : list Z) : list Z := default 0 ∘ reg_at array <$> srcs.

Definition callee_frame (f : ShadowFrame) (num_regs : Z) (link : option Z) (method : Z)
  (srcs : list Z) : ShadowFrame :=
  let locals := replicate (Z.to_nat num_regs - length srcs) 0 in
  set_arrays (locals ++ values_of (vregs_ f) srcs) (locals ++ values_of (references_ f) srcs)
    (Create num_regs link method 0).

Lemma length_values_of l srcs : length (values_of l srcs) = length srcs.
Proof. apply length_fmap. Qed.

Lemma reg_at_default l i d : 0 <= i < Z.of_nat (length l) -> reg_at l i = Some (default d (reg_at l i)).
Proof. intros Hi. by destruct (reg_at_some l i Hi) as [v ->]. Qed.

Section Assign.
Variables (f base : ShadowFrame).
Hypothesis Hok : frame_ok f.

Abbreviation value src := (default 0 (reg_at (vregs_ f) src)).
Abbreviation reference src := (default 0 (reg_at (references_ f) src)).
Abbreviation in_frame src := (0 <= src < number_of_vregs_ f).

(** Under the frame invariant a register is copied with the entry of the reference array. *)
Lemma AssignRegister_copy A B R S x y src d :
  in_frame src -> d = Z.of_nat (length A) -> length A = length R -> length B = length S ->
  AssignRegister (set_arrays (A ++ x :: B) (R ++ y :: S) base) f d src
  = Some (set_arrays (A ++ value src :: B) (R ++ reference src :: S) base).
Proof.
  intros Hsrc -> HAR HBS. pose proof Hok as (H1 & H2 & H3 & H4 & H5).
  unfold AssignRegister, GetVReg, GetVRegReference.
  rewrite (reg_at_default (vregs_ f) src 0), (reg_at_default (references_ f) src 0) by lia.
  cbn [mbind option_bind default].
  assert (Hv : is_u 32 (value src)).
  { destruct (reg_at (vregs_ f) src) eqn:E; [exact (reg_at_u32 _ _ _ H3 E)|by apply (u_range 32 0)]. }
  assert (Hr : is_u 32 (reference src)).
  { destruct (reg_at (references_ f) src) eqn:E; [exact (reg_at_u32 _ _ _ H4 E)|by apply (u_range 32 0)]. }
  assert (Hag : reference src = 0 \/ reference src = value src).
  { destruct (reg_at_some (references_ f) src) as [r Er]; [lia|]. unfold reg_at in *.
    rewrite (proj2 (Z.leb_le 0 src)) in * by lia. rewrite Er. cbn [default].
    destruct (H5 _ _ Er) as [->|E]; [by left|right]. by rewrite E. }
  rewrite u_s, (u_small 32) by (lia || done).
  set (v := value src) in *. set (r := reference src) in *.
  unfold SetVRegReference, SetVReg, clear_reference.
  cbn [kMovingCollector HasReferenceArray andb vregs_ references_ set_arrays].
  rewrite !reg_set_some by (rewrite !length_app; cbn [length]; lia).
  cbn [mbind option_bind]. rewrite !Nat2Z.id. unfold Compress.
  rewrite !(u_small 32) by done. rewrite !insert_middle. rewrite HAR, !insert_middle.
  destruct (Z.eqb_spec v r) as [->|Hne]; [done|]. destruct Hag as [->|]; [done|congruence].
Qed.

Fixpoint nibbles (count : nat) (regList : Z) : list Z :=
  match count with
  | O => []
  | S count' => Z.land regList 0x0f :: nibbles count' (regList ≫ 4)
  end.

Lemma length_nibbles count regList : length (nibbles count regList) = count.
Proof. revert regList. induction count; cbn; auto. Qed.

Lemma AssignList_copy count A R B S idx first regList :
  Forall (fun src => in_frame src) (nibbles count regList) ->
  first + idx = Z.of_nat (length A) -> length A = length R -> length B = length S ->
  Z.of_nat (length A + count) < 2 ^ 64 ->
  AssignList count (set_arrays (A ++ replicate count 0 ++ B) (R ++ replicate count 0 ++ S) base)
    f idx first regList
  = Some (set_arrays (A ++ values_of (vregs_ f) (nibbles count regList) ++ B)
            (R ++ values_of (references_ f) (nibbles count regList) ++ S) base).
Proof.
  revert A R idx regList. induction count as [|count IH]; intros A R idx regList HF Hd HAR HBS Hb; [done|].
  cbn [nibbles] in *. apply Forall_cons in HF as [Hs HF].
  cbn [AssignList replicate app]. rewrite (u_small 64) by (unfold is_u; lia).
  rewrite AssignRegister_copy by (rewrite ?length_app, ?length_replicate; lia).
  cbn [mbind option_bind].
  specialize (IH (A ++ [value (Z.land regList 15)]) (R ++ [reference (Z.land regList 15)])
    (idx + 1) (regList ≫ 4)). rewrite <- !app_assoc in IH. cbn [app] in IH. rewrite IH;
    [|done|rewrite ?length_app; cbn [length]; lia..].
  unfold values_of. rewrite !fmap_cons. cbn [app]. done.
Qed.

Lemma AssignRange_copy n fuel A R src :
  (n <= fuel)%nat ->
  Forall (fun src => in_frame src) (seqZ src (Z.of_nat n)) -> length A = length R ->
  AssignRange fuel (set_arrays (A ++ replicate n 0) (R ++ replicate n 0) base) f
    (Z.of_nat (length A)) src (Z.of_nat (length A + n))
  = Some (set_arrays (A ++ values_of (vregs_ f) (seqZ src (Z.of_nat n)))
            (R ++ values_of (references_ f) (seqZ src (Z.of_nat n))) base).
Proof.
  revert fuel A R src. induction n as [|n IH]; intros fuel A R src Hfuel HF HAR.
  - destruct fuel; cbn [AssignRange]; by rewrite (proj2 (Z.ltb_ge _ _)) by lia.
  - destruct fuel as [|fuel]; [lia|]. cbn [AssignRange replicate].
    rewrite (proj2 (Z.ltb_lt _ _)) by lia. rewrite seqZ_cons in * by lia.
    replace (Z.pred (Z.of_nat (S n))) with (Z.of_nat n) in * by lia.
    apply Forall_cons in HF as [Hs HF].
    rewrite AssignRegister_copy by (rewrite ?length_replicate; lia). cbn [mbind option_bind].
    specialize (IH fuel (A ++ [value src]) (R ++ [reference src]) (Z.succ src)).
    rewrite !length_app, <- !app_assoc in IH. cbn [length app] in IH.
    replace (Z.of_nat (length A) + 1) with (Z.of_nat (length A + 1)) by lia.
    replace (length A + S n)%nat with (length A + 1 + n)%nat by lia.
    replace (src + 1) with (Z.succ src) by lia. rewrite IH by (done || lia).
    unfold values_of. by rewrite !fmap_cons.
Qed.
End Assign.

(** The registers of a [35c] instruction, as the fast path takes them. *)
Lemma arguments_nibbles i :
  wf_units i -> VRegA_35c i <= 5 ->
  argument_registers false i =
    if VRegA_35c i =? 5 then nibbles 4 (Fetch16 i 2) ++ [Z.land (Fetch16 i 0 ≫ 8) 0x0f]
    else nibbles (Z.to_nat (VRegA_35c i)) (Fetch16 i 2).
Proof.
  intros Hwf H5. unfold argument_registers, GetVarArgs. fold (VRegA_35c i).
  assert (0 <= VRegA_35c i).
  { unfold VRegA_35c, Fetch16. rewrite InstB_spec by done. pose proof (Hwf 0). div_lia. }
  assert (Hc : In (VRegA_35c i) [0; 1; 2; 3; 4; 5]) by (cbn; lia).
  unfold InstA. cbn [In] in Hc. unfold Fetch16. unfold VRegA_35c, Fetch16 in *.
  destruct Hc as [<-|[<-|[<-|[<-|[<-|[<-|[]]]]]]];
    cbn [Z.eqb Z.leb Z.compare Pos.compare Pos.compare_cont Pos.eqb andb Z.to_nat Pos.to_nat
      Pos.iter_op Nat.add nibbles app]; rewrite ?Z.shiftr_shiftr by lia; done.
Qed.

(** What a [35c] or [3rc] instruction passes: the new frame is [callee_frame]. *)
Section FastPath.
Variables (i : Instruction) (f : ShadowFrame) (num_regs : Z) (link : option Z) (method : Z).
Hypothesis Hwf : wf_units i.
Hypothesis Hok : frame_ok f.
Hypothesis Hsize : number_of_vregs_ f < 0x10000.
Hypothesis Hregs : num_regs < 0x10000.

Abbreviation fits srcs := (Forall (fun src => 0 <= src < number_of_vregs_ f) srcs /\
  Z.of_nat (length srcs) <= num_regs).
Abbreviation new := (Create num_regs link method 0).

Lemma Create_split n :
  Z.of_nat n <= num_regs ->
  new = set_arrays (replicate (Z.to_nat num_regs - n) 0 ++ replicate n 0)
          (replicate (Z.to_nat num_regs - n) 0 ++ replicate n 0) new.
Proof.
  intros Hn. unfold Create, set_arrays. cbn. rewrite <- replicate_add.
  by replace (Z.to_nat num_regs - n + n)%nat with (Z.to_nat num_regs) by lia.
Qed.

Lemma first_dest num_ins (string_init : bool) :
  let n := if string_init then num_ins - 1 else num_ins in
  0 <= n <= num_regs ->
  (if string_init then u64 (u64 (num_regs - num_ins) + 1) else u64 (num_regs - num_ins))
  = num_regs - n.
Proof. destruct string_init; cbv zeta; intros; word_lia. Qed.

Lemma FastPath_range (string_init : bool) :
  let num_ins := VRegA_3rc i in
  let srcs := drop (if string_init then 1 else 0) (argument_registers true i) in
  fits srcs -> (string_init = true -> 1 <= num_ins) ->
  FastPath true string_init i (Fetch16 i 0) f new num_regs num_ins (u64 (num_regs - num_ins))
  = Some (callee_frame f num_regs link method srcs, num_regs - Z.of_nat (length srcs)).
Proof.
  cbv zeta. intros [HF Hn] Hsi.
  assert (Ha : 0 <= VRegA_3rc i < 256).
  { unfold VRegA_3rc, Fetch16. rewrite InstAA_spec by done. pose proof (Hwf 0). div_lia. }
  set (n := if string_init then VRegA_3rc i - 1 else VRegA_3rc i).
  set (src := if string_init then VRegC_3rc i + 1 else VRegC_3rc i).
  assert (Hs : drop (if string_init then 1 else 0) (argument_registers true i) = seqZ src n).
  { subst n src. unfold argument_registers. destruct string_init; [|done].
    rewrite seqZ_cons by (specialize (Hsi eq_refl); lia). cbn [drop].
    by replace (Z.pred (VRegA_3rc i)) with (VRegA_3rc i - 1) by lia. }
  assert (Hn0 : 0 <= n) by (subst n; destruct string_init; [specialize (Hsi eq_refl)|]; lia).
  rewrite Hs in *. rewrite length_seqZ in Hn. rewrite Z2Nat.id in Hn by lia.
  unfold FastPath. cbv zeta.
  rewrite first_dest by (cbv zeta; fold n; lia). fold n.
  assert (HC : VRegC_3rc i < 0x10000) by (unfold VRegC_3rc; apply Hwf).
  destruct (decide (n = 0)) as [E0|Hn1].
  - rewrite E0. destruct (Z.to_nat num_regs); cbn [AssignRange];
      rewrite (proj2 (Z.ltb_ge _ _)) by lia; cbn [mbind option_bind];
      unfold callee_frame; cbn [length]; rewrite Nat.sub_0_r, !app_nil_r;
      by unfold set_arrays, Create; cbn.
  - assert (Hw : (if string_init then u16 (VRegC_3rc i + 1) else VRegC_3rc i) = src).
    { subst src. destruct string_init; [|done]. rewrite seqZ_cons in HF by lia.
      apply Forall_cons in HF as [? _]. assert (0 <= VRegC_3rc i) by apply Hwf.
      apply (u_small 16). unfold is_u. reduce_pow. lia. }
    rewrite Hw. rewrite (Create_split (Z.to_nat n)) by lia.
    pose proof (AssignRange_copy f new Hok (Z.to_nat n) (Z.to_nat num_regs)
      (replicate (Z.to_nat num_regs - Z.to_nat n) 0) (replicate (Z.to_nat num_regs - Z.to_nat n) 0)
      src) as HR.
    rewrite Z2Nat.id, length_replicate in HR by lia.
    replace (Z.of_nat (Z.to_nat num_regs - Z.to_nat n)) with (num_regs - n) in HR by lia.
    replace (Z.of_nat (Z.to_nat num_regs - Z.to_nat n + Z.to_nat n)) with num_regs in HR by lia.
    rewrite HR by (lia || done). cbn [mbind option_bind].
    unfold callee_frame. by rewrite length_seqZ, Z2Nat.id by lia.
Qed.

Lemma FastPath_list (string_init : bool) :
  let num_ins := VRegA_35c i in
  let srcs := drop (if string_init then 1 else 0) (argument_registers false i) in
  fits srcs -> num_ins <= 5 -> (string_init = true -> 1 <= num_ins) ->
  FastPath false string_init i (Fetch16 i 0) f new num_regs num_ins (u64 (num_regs - num_ins))
  = Some (callee_frame f num_regs link method srcs, num_regs - Z.of_nat (length srcs)).
Proof.
  cbv zeta. intros [HF Hn] H5 Hsi.
  assert (Ha : 0 <= VRegA_35c i).
  { unfold VRegA_35c, Fetch16. rewrite InstB_spec by done. pose proof (Hwf 0). div_lia. }
  set (listed := if VRegA_35c i =? 5 then VRegA_35c i - 1 else VRegA_35c i).
  set (n := if string_init then listed - 1 else listed).
  set (r := if string_init then Fetch16 i 2 ≫ 4 else Fetch16 i 2).
  set (a := Z.land (Fetch16 i 0 ≫ 8) 0x0f).
  set (tail := if VRegA_35c i =? 5 then [a] else []).
  assert (Hn0 : 0 <= n <= 4).
  { subst n listed. destruct string_init; [specialize (Hsi eq_refl)|]; case_Zcmp; lia. }
  assert (Hs : drop (if string_init then 1 else 0) (argument_registers false i)
    = nibbles (Z.to_nat n) r ++ tail).
  { rewrite arguments_nibbles by done. subst n listed r tail. case_Zcmp.
    - replace (VRegA_35c i) with 5 by lia. by destruct string_init.
    - rewrite app_nil_r. destruct string_init; [|done].
      replace (Z.to_nat (VRegA_35c i)) with (S (Z.to_nat (VRegA_35c i - 1)))
        by (specialize (Hsi eq_refl); lia). done. }
  rewrite Hs in *. rewrite length_app, length_nibbles in Hn. apply Forall_app in HF as [HF HF5].
  unfold FastPath. cbv zeta. fold listed r a.
  assert (Hc : (if string_init then u16 (listed - 1) else listed) = n).
  { subst n. destruct string_init; [|done]. apply (u_small 16). unfold is_u. reduce_pow. lia. }
  rewrite Hc. unfold callee_frame. rewrite length_app, length_nibbles.
  set (k := (Z.to_nat num_regs - (Z.to_nat n + length tail))%nat).
  rewrite (Create_split (Z.to_nat n + length tail)) by lia.
  fold k. set (pad := replicate k 0).
  assert (Hd : (if string_init then u64 (u64 (num_regs - VRegA_35c i) + 1)
                else u64 (num_regs - VRegA_35c i)) = Z.of_nat k).
  { subst k listed n. destruct string_init; [specialize (Hsi eq_refl)|];
      revert Hn; subst tail; case_Zcmp; cbn [length]; intros; word_lia. }
  rewrite Hd. clear Hs Hc. rewrite replicate_add. subst tail.
  destruct (Z.eqb_spec (VRegA_35c i) 5) as [E5|N5]; cbn [length replicate] in *.
  - assert (Ho : u64 (u64 (num_regs - VRegA_35c i) + 4) = Z.of_nat (length (pad ++ replicate (Z.to_nat n) 0))).
    { subst pad k n listed. rewrite length_app, !length_replicate. rewrite E5.
      destruct string_init; word_lia. }
    rewrite Ho, app_assoc. rewrite (AssignRegister_copy f new Hok);
      [|by inversion HF5|done..].
    cbn [mbind option_bind]. rewrite <- !app_assoc.
    rewrite (AssignList_copy f new Hok) by (subst pad; rewrite ?length_replicate; first [done|lia]).
    cbn [mbind option_bind]. unfold values_of. rewrite !fmap_app.
    do 3 f_equal; lia.
  - cbn [mbind option_bind]. pose proof (AssignList_copy f new Hok (Z.to_nat n) pad pad [] [] 0
      (Z.of_nat k) r) as HL.
    rewrite HL by (subst pad; rewrite ?length_replicate; first [done|lia]).
    cbn [mbind option_bind]. rewrite !app_nil_r. do 2 f_equal; lia.
Qed.
End FastPath.

Lemma values_of_u32 l srcs : Forall (is_u 32) l -> Forall (is_u 32) (values_of l srcs).
Proof.
  intros HF. unfold values_of. apply Forall_fmap, Forall_true. intros src. cbn.
  destruct (reg_at l src) eqn:E; [exact (reg_at_u32 _ _ _ HF E)|by apply (u_range 32 0)].
Qed.

Lemma callee_frame_ok f num_regs link method srcs :
  frame_ok f -> Z.of_nat (length srcs) <= num_regs ->
  frame_ok (callee_frame f num_regs link method srcs).
Proof.
  intros (H1 & H2 & H3 & H4 & H5) Hn. unfold frame_ok, callee_frame, roots_agree. cbn.
  rewrite !length_app, !length_values_of, !length_replicate.
  assert (Hz : Forall (is_u 32) (replicate (Z.to_nat num_regs - length srcs) 0)).
  { apply Forall_replicate. by apply (u_range 32 0). }
  split_all; [lia|done|by apply Forall_app; eauto using values_of_u32..|].
  intros k r Hk. apply lookup_app_Some in Hk as [Hk|[Hge Hk]].
  { left. by apply lookup_replicate in Hk as [-> _]. }
  rewrite lookup_app_r by done. rewrite length_replicate in *. unfold values_of in *.
  rewrite list_lookup_fmap in *. destruct (srcs !! _) as [src|]; [|done]. cbn in *.
  injection Hk as <-. unfold reg_at. case_Zcmp; [|by left].
  destruct (references_ f !! Z.to_nat src) as [r|] eqn:Er; [|by left]. cbn.
  destruct (H5 _ _ Er) as [->|Ev]; [by left|right]. by rewrite Ev.
Qed.

(** C8: A call passes its arguments: the method starts in a frame of its own register count whose
    last registers are the registers the instruction names, in order, each with the entry the
    collector sees, while the registers before them are zero; the frame is well formed, names the
    method and links to the caller's.  (For a constructor of [String] the method is its
    [StringFactory] replacement and the first argument is left out.)  The number of leading
    registers is what the unstarted runtime gets as the position of the arguments. *)
Theorem call_passes_arguments {W : Type} `{Runtime W} (is_range string_init : bool)
  (called_method callee : Z) (i : Instruction) (f : ShadowFrame) (result : JValue) (mem : list Z)
  (self : Thread W)
  (Hcallee : ReplaceStringInit (world_ self) called_method = (callee, string_init))
  (Hwf : wf_units i) (Hok : frame_ok f) (Hsize : number_of_vregs_ f < 0x10000) :
  let num_ins := if is_range then VRegA_3rc i else VRegA_35c i in
  let srcs := drop (if string_init then 1 else 0) (argument_registers is_range i) in
  let code_item := GetCodeItem (world_ self) callee in
  let num_regs := CalleeRegisters mem code_item string_init num_ins in
  let frame := callee_frame f num_regs (Some (GetTopShadowFrame (world_ self))) callee srcs in
  (is_range = false -> num_ins <= 5) -> (string_init = true -> 1 <= num_ins) ->
  Forall (fun src => 0 <= src < number_of_vregs_ f) srcs ->
  Z.of_nat (length srcs) <= num_regs < 0x10000 ->
  frame_ok frame /\
  DoCall is_range false called_method i (Fetch16 i 0) f result mem self
  = FinishCall is_range string_init i f
      (RunMethod code_item frame (num_regs - Z.of_nat (length srcs)) result mem self).
Proof.
  cbv zeta. intros H5 Hsi HF Hn. split; [apply callee_frame_ok; [done|lia]|].
  unfold DoCall. rewrite Hcallee. cbv zeta. destruct is_range.
  - change (InstAA (Fetch16 i 0)) with (VRegA_3rc i).
    rewrite FastPath_range by first [done|lia|split; [done|lia]]. done.
  - change (InstB (Fetch16 i 0)) with (VRegA_35c i).
    rewrite FastPath_list by first [done|lia|split; [done|lia]|by apply H5]. done.
Qed.

(** [invoke-static {v2, v0}, method 5]: the callee has two registers. *)
Definition sample_call : Instruction := fun o =>
  if o =? 0 then 0x2071 else if o =? 1 then 5 else if o =? 2 then 0x0002 else 0.

Definition sample_caller : ShadowFrame :=
  set_arrays [3; 0; 77] [0; 0; 77] (Create 3 None 9 0).

Lemma call_passes_arguments_witness :
  frame_ok (callee_frame sample_caller 2 (Some 1) 5 [2; 0]) /\
  DoCall false false 5 sample_call 0x2071 sample_caller 0 [] (mkThread 0 (∅ : Small.World))
  = FinishCall false false sample_call sample_caller
      (RunMethod None (callee_frame sample_caller 2 (Some 1) 5 [2; 0]) 0 0 []
         (mkThread 0 (∅ : Small.World))).
Proof.
  refine (call_passes_arguments (W := Small.World) false false 5 5 sample_call sample_caller 0 []
    (mkThread 0 ∅) _ _ _ _ _ _ _ _).
  - reflexivity.
  - intros o. unfold sample_call. repeat case_Zcmp; lia.
  - unfold frame_ok, roots_agree. cbn. split_all; [done|done| | |].
    1,2: repeat constructor; vm_compute; congruence.
    intros [|[|[|k]]] r Hr; cbn in *; try (by left; injection Hr); right; done.
  - vm_compute. done.
  - intros _. vm_compute. congruence.
  - done.
  - repeat constructor; vm_compute; congruence.
  - vm_compute. by split.
Defined.
