(* ===== verification/Interpreter.v ===== *)
(** The switch interpreter ([interpreter_switch_impl.cc], [interpreter_common.{h,cc}],
    [safe_math.h], [gerat/util/Utilproc.h]).

    [Step] executes one instruction of [ExecuteSwitchImpl]: it changes the machine (thread,
    frame, result register, position, and the memory that holds the code) and says whether
    the loop goes on.  [None] is undefined behaviour of the C++ code (a register outside the
    frame, a read outside the code) or [LOG(FATAL)].  Signed shifts and negations that
    overflow wrap around, as on the two's complement targets of the runtime. *)
From S2P Require Import Prelude ClassData DexFile DexInstruction ShadowFrame Floats Runtime TryCatch Calls.
Local Open Scope Z_scope.

(** ** [safe_math.h], [Utilproc.h] *)

(** The operands are converted to the unsigned type of the wider operand, [w] bits. *)
Definition SafeMath (w : Z) (op : Z -> Z -> Z) (a b : Z) : Z := s w (u w (op (u w a) (u w b))).
Definition SafeAdd (w : Z) : Z -> Z -> Z := SafeMath w Z.add.
Definition SafeSub (w : Z) : Z -> Z -> Z := SafeMath w Z.sub.
Definition SafeMul (w : Z) : Z -> Z -> Z := SafeMath w Z.mul.

(** [BKDRHash]; [char] is unsigned on ARM. *)
Definition BKDRHash (str : list Z) : Z := fold_left (fun hash c => u32 (hash * 131 + c)) str 0.
Definition KARL_GERAT_U_CODE : Z := 0x8200666.

(** ** The machine *)

Record Machine (W : Type) := mkMachine {
  self : Thread W;
  frame : ShadowFrame;
  result_register : JValue;
  inst : Z;
  mem : list Z;
}.
Arguments mkMachine {W} _ _ _ _ _.
Arguments self {W} _.
Arguments frame {W} _.
Arguments result_register {W} _.
Arguments inst {W} _.
Arguments mem {W} _.

Inductive Outcome (W : Type) :=
  | Continue (m : Machine W)
  | Return (result : JValue) (m : Machine W)
  | Unwind (m : Machine W)
  | NewCodeItem (new_code_item : Z) (m : Machine W).
Arguments Continue {W} _.
Arguments Return {W} _ _.
Arguments Unwind {W} _.
Arguments NewCodeItem {W} _ _.

Definition set_self {W} (t : Thread W) (m : Machine W) : Machine W :=
  mkMachine t (frame m) (result_register m) (inst m) (mem m).
Definition set_frame {W} (f : ShadowFrame) (m : Machine W) : Machine W :=
  mkMachine (self m) f (result_register m) (inst m) (mem m).
Definition set_result {W} (j : JValue) (m : Machine W) : Machine W :=
  mkMachine (self m) (frame m) j (inst m) (mem m).
Definition set_inst {W} (i : Z) (m : Machine W) : Machine W :=
  mkMachine (self m) (frame m) (result_register m) i (mem m).
Definition set_mem {W} (b : list Z) (m : Machine W) : Machine W :=
  mkMachine (self m) (frame m) (result_register m) (inst m) b.

(** [inst = inst->RelativeAt(offset)], also [Next_1xx] (1), [Next_2xx] (2), [Next_3xx] (3)
    and [Next_51l] (5). *)
Definition relative {W} (offset : Z) (m : Machine W) : option (Outcome W) :=
  Some (Continue (set_inst (inst m + offset) m)).

(** A register write, then the next instruction. *)
Definition write_next {W} (r : option ShadowFrame) (size : Z) (m : Machine W)
  : option (Outcome W) :=
  f ← r; relative size (set_frame f m).

(** ** [interpreter_common.h] *)

(** Divisions: the frame is unchanged and the result [false] when the divisor is 0. *)
Section Division.
Context {W : Type} `{Runtime W}.

Definition DoIntDivide (f : ShadowFrame) (result_reg dividend divisor : Z) (self : Thread W)
  : option (ShadowFrame * Thread W * bool) :=
  let kMinInt := - 2 ^ 31 in
  if divisor =? 0 then Some (f, Throw ArithmeticExceptionDivideByZero self, false)
  else
    f ← (if (dividend =? kMinInt) && (divisor =? -1) then SetVReg f result_reg kMinInt
         else SetVReg f result_reg (Z.quot dividend divisor));
    Some (f, self, true).

Definition DoIntRemainder (f : ShadowFrame) (result_reg dividend divisor : Z) (self : Thread W)
  : option (ShadowFrame * Thread W * bool) :=
  let kMinInt := - 2 ^ 31 in
  if divisor =? 0 then Some (f, Throw ArithmeticExceptionDivideByZero self, false)
  else
    f ← (if (dividend =? kMinInt) && (divisor =? -1) then SetVReg f result_reg 0
         else SetVReg f result_reg (Z.rem dividend divisor));
    Some (f, self, true).

Definition DoLongDivide (f : ShadowFrame) (result_reg dividend divisor : Z) (self : Thread W)
  : option (ShadowFrame * Thread W * bool) :=
  let kMinLong := - 2 ^ 63 in
  if divisor =? 0 then Some (f, Throw ArithmeticExceptionDivideByZero self, false)
  else
    f ← (if (dividend =? kMinLong) && (divisor =? -1) then SetVRegLong f result_reg kMinLong
         else SetVRegLong f result_reg (Z.quot dividend divisor));
    Some (f, self, true).

Definition DoLongRemainder (f : ShadowFrame) (result_reg dividend divisor : Z) (self : Thread W)
  : option (ShadowFrame * Thread W * bool) :=
  let kMinLong := - 2 ^ 63 in
  if divisor =? 0 then Some (f, Throw ArithmeticExceptionDivideByZero self, false)
  else
    f ← (if (dividend =? kMinLong) && (divisor =? -1) then SetVRegLong f result_reg 0
         else SetVRegLong f result_reg (Z.rem dividend divisor));
    Some (f, self, true).
End Division.

(** The switch payload is at [inst + VRegB_31t]; the offset 3 is the size of the switch. *)
Definition DoPackedSwitch (i : Instruction) (f : ShadowFrame) : option Z :=
  let switch_data := RelativeAt i (VRegB_31t i) in
  test_val ← GetVReg f (VRegA_31t i);
  let size := Fetch16 switch_data 1 in
  if size =? 0 then Some 3
  else
    let first_key := int_at switch_data 2 in
    let index := s32 (test_val - first_key) in
    if (0 <=? index) && (index <? size) then Some (int_at switch_data (4 + 2 * index))
    else Some 3.

(** The search; the fuel covers 65535 keys. *)
Fixpoint SparseSearch (fuel : nat) (keys entries : Z -> Z) (test_val lo hi : Z) : option Z :=
  match fuel with
  | O => None
  | S fuel' =>
      if lo <=? hi then
        let mid := Z.quot (lo + hi) 2 in
        let foundVal := keys mid in
        if test_val <? foundVal then SparseSearch fuel' keys entries test_val lo (mid - 1)
        else if foundVal <? test_val then SparseSearch fuel' keys entries test_val (mid + 1) hi
        else Some (entries mid)
      else Some 3
  end.

Definition DoSparseSwitch (i : Instruction) (f : ShadowFrame) : option Z :=
  let switch_data := RelativeAt i (VRegB_31t i) in
  test_val ← GetVReg f (VRegA_31t i);
  let size := Fetch16 switch_data 1 in
  if size =? 0 then Some 3
  else
    let keys k := int_at switch_data (2 + 2 * k) in
    let entries k := int_at switch_data (2 + 2 * (size + k)) in
    SparseSearch 17 keys entries test_val 0 (size - 1).

Definition IsBackwardBranch (branch_offset : Z) : bool := branch_offset <=? 0.

(** ** The instructions *)

Section Execute.
Context {W : Type} `{Runtime W}.
(** The template parameters, the [CodeItem] and the parameters of the U-X hook. *)
Variables (do_access_check transaction_active : bool).
Variable code_item : Z.
Variables (force_invoke_flag insns_len_in_byte hash1 : Z).

Definition insns (m : Machine W) : Instruction := insns_ (mem m) code_item.
Definition current (m : Machine W) : Instruction := RelativeAt (insns m) (inst m).
Definition method (m : Machine W) : Z := GetMethod (frame m).

Definition HANDLE_PENDING_EXCEPTION (dex_pc : Z) (m : Machine W) : option (Outcome W) :=
  '(t, found_dex_pc) ← FindNextInstructionFollowingException (mem m) (method m) code_item (inst m) (self m);
  let m := set_self t m in
  if found_dex_pc =? kDexNoIndex then Some (Unwind m)
  else
    let displacement := s32 (s32 found_dex_pc - s32 dex_pc) in
    relative displacement m.

Definition POSSIBLY_HANDLE_PENDING_EXCEPTION (dex_pc : Z) (is_exception_pending : bool)
  (next : Z) (m : Machine W) : option (Outcome W) :=
  if is_exception_pending then HANDLE_PENDING_EXCEPTION dex_pc m else relative next m.

(** Throwing, then the handler. *)
Definition throw_and_handle (dex_pc : Z) (k : Throwable) (m : Machine W) : option (Outcome W) :=
  HANDLE_PENDING_EXCEPTION dex_pc (set_self (Throw k (self m)) m).

(** [NOP], the moves and [MOVE_EXCEPTION]. *)
Definition ExecuteMove (c : Code) (m : Machine W) : option (Outcome W) :=
  let i := current m in
  let f := frame m in
  match c with
  | NOP => relative 1 m
  | MOVE => v ← GetVReg f (VRegB_12x i); write_next (SetVReg f (VRegA_12x i) v) 1 m
  | MOVE_FROM16 => v ← GetVReg f (VRegB_22x i); write_next (SetVReg f (VRegA_22x i) v) 2 m
  | MOVE_16 => v ← GetVReg f (VRegB_32x i); write_next (SetVReg f (VRegA_32x i) v) 3 m
  | MOVE_WIDE => v ← GetVRegLong f (VRegB_12x i); write_next (SetVRegLong f (VRegA_12x i) v) 1 m
  | MOVE_WIDE_FROM16 =>
      v ← GetVRegLong f (VRegB_22x i); write_next (SetVRegLong f (VRegA_22x i) v) 2 m
  | MOVE_WIDE_16 =>
      v ← GetVRegLong f (VRegB_32x i); write_next (SetVRegLong f (VRegA_32x i) v) 3 m
  | MOVE_OBJECT =>
      v ← GetVRegReference f (VRegB_12x i); write_next (SetVRegReference f (VRegA_12x i) v) 1 m
  | MOVE_OBJECT_FROM16 =>
      v ← GetVRegReference f (VRegB_22x i); write_next (SetVRegReference f (VRegA_22x i) v) 2 m
  | MOVE_OBJECT_16 =>
      v ← GetVRegReference f (VRegB_32x i); write_next (SetVRegReference f (VRegA_32x i) v) 3 m
  | MOVE_RESULT => write_next (SetVReg f (VRegA_11x i) (GetI (result_register m))) 1 m
  | MOVE_RESULT_WIDE => write_next (SetVRegLong f (VRegA_11x i) (GetJ (result_register m))) 1 m
  | MOVE_RESULT_OBJECT =>
      write_next (SetVRegReference f (VRegA_11x i) (GetL (result_register m))) 1 m
  | MOVE_EXCEPTION =>
      let exception := GetException (self m) in
      write_next (SetVRegReference f (VRegA_11x i) exception) 1 (set_self (ClearException (self m)) m)
  | _ => None
  end.

(** The returns.  In [RETURN_OBJECT] with access checks the code goes on after
    [HANDLE_PENDING_EXCEPTION] found a handler: a null return type is then dereferenced, and a
    value of the wrong type is returned all the same. *)
Definition ExecuteReturn (c : Code) (m : Machine W) : option (Outcome W) :=
  let i := current m in
  let f := frame m in
  match c with
  | RETURN_VOID_NO_BARRIER | RETURN_VOID => Some (Return JValue_new m)
  | RETURN =>
      v ← GetVReg f (VRegA_11x i); Some (Return (SetI (SetJ JValue_new 0) v) m)
  | RETURN_WIDE => v ← GetVRegLong f (VRegA_11x i); Some (Return (SetJ JValue_new v) m)
  | RETURN_OBJECT =>
      let dex_pc := inst m in
      obj_result ← GetVRegReference f (VRegA_11x i);
      if do_access_check && negb (obj_result =? 0) then
        let '(t, return_type) := GetReturnType (method m) (self m) in
        let m := set_self t m in
        if return_type =? 0 then
          o ← HANDLE_PENDING_EXCEPTION dex_pc m;
          match o with Continue _ => None | _ => Some o end
        else if negb (VerifierInstanceOf (world_ (self m)) obj_result return_type) then
          o ← throw_and_handle dex_pc (VirtualMachineError obj_result) m;
          match o with
          | Continue m => Some (Return (SetL JValue_new obj_result) m)
          | _ => Some o
          end
        else Some (Return (SetL JValue_new obj_result) m)
      else Some (Return (SetL JValue_new obj_result) m)
  | _ => None
  end.

(** A constant [val] into register [dst]: 0 is also the null reference. *)
Definition set_const (f : ShadowFrame) (dst val : Z) : option ShadowFrame :=
  f ← SetVReg f dst val;
  if val =? 0 then SetVRegReference f dst 0 else Some f.

Definition ExecuteConst (c : Code) (m : Machine W) : option (Outcome W) :=
  let i := current m in
  let f := frame m in
  let dex_pc := inst m in
  match c with
  | CONST_4 => write_next (set_const f (VRegA_11n i) (VRegB_11n i)) 1 m
  | CONST_16 => write_next (set_const f (VRegA_21s i) (VRegB_21s i)) 2 m
  | CONST => write_next (set_const f (VRegA_31i i) (VRegB_31i i)) 3 m
  | CONST_HIGH16 => write_next (set_const f (VRegA_21h i) (s32 (VRegB_21h i ≪ 16))) 2 m
  | CONST_WIDE_16 => write_next (SetVRegLong f (VRegA_21s i) (VRegB_21s i)) 2 m
  | CONST_WIDE_32 => write_next (SetVRegLong f (VRegA_31i i) (VRegB_31i i)) 3 m
  | CONST_WIDE => write_next (SetVRegLong f (VRegA_51l i) (s64 (VRegB_51l i))) 5 m
  | CONST_WIDE_HIGH16 =>
      write_next (SetVRegLong f (VRegA_21h i) (s64 (u64 (VRegB_21h i ≪ 48)))) 2 m
  | CONST_STRING =>
      let '(t, str) := ResolveString (method m) (VRegB_21c i) (self m) in
      let m := set_self t m in
      if str =? 0 then HANDLE_PENDING_EXCEPTION dex_pc m
      else write_next (SetVRegReference f (VRegA_21c i) str) 2 m
  | CONST_STRING_JUMBO =>
      let '(t, str) := ResolveString (method m) (VRegB_31c i) (self m) in
      let m := set_self t m in
      if str =? 0 then HANDLE_PENDING_EXCEPTION dex_pc m
      else write_next (SetVRegReference f (VRegA_31c i) str) 3 m
  | CONST_CLASS =>
      let '(t, k) := ResolveVerifyAndClinit do_access_check (VRegB_21c i) (method m) (self m) in
      let m := set_self t m in
      if k =? 0 then HANDLE_PENDING_EXCEPTION dex_pc m
      else write_next (SetVRegReference f (VRegA_21c i) k) 2 m
  | _ => None
  end.

(** Monitors, casts, allocations, [ARRAY_LENGTH]. *)
Definition ExecuteObject (c : Code) (m : Machine W) : option (Outcome W) :=
  let i := current m in
  let f := frame m in
  let dex_pc := inst m in
  match c with
  | MONITOR_ENTER =>
      obj ← GetVRegReference f (VRegA_11x i);
      if obj =? 0 then throw_and_handle dex_pc NullPointerException m
      else
        let t := DoMonitorEnter obj (self m) in
        POSSIBLY_HANDLE_PENDING_EXCEPTION dex_pc (IsExceptionPending t) 1 (set_self t m)
  | MONITOR_EXIT =>
      obj ← GetVRegReference f (VRegA_11x i);
      if obj =? 0 then throw_and_handle dex_pc NullPointerException m
      else
        let t := DoMonitorExit obj (self m) in
        POSSIBLY_HANDLE_PENDING_EXCEPTION dex_pc (IsExceptionPending t) 1 (set_self t m)
  | CHECK_CAST =>
      let '(t, k) := ResolveVerifyAndClinit do_access_check (VRegB_21c i) (method m) (self m) in
      let m := set_self t m in
      if k =? 0 then HANDLE_PENDING_EXCEPTION dex_pc m
      else
        obj ← GetVRegReference f (VRegA_21c i);
        if negb (obj =? 0) && negb (InstanceOf (world_ t) obj k) then
          throw_and_handle dex_pc (ClassCastException k (GetClass (world_ t) obj)) m
        else relative 2 m
  | INSTANCE_OF =>
      let '(t, k) := ResolveVerifyAndClinit do_access_check (VRegC_22c i) (method m) (self m) in
      let m := set_self t m in
      if k =? 0 then HANDLE_PENDING_EXCEPTION dex_pc m
      else
        obj ← GetVRegReference f (VRegB_22c i);
        write_next (SetVReg f (VRegA_22c i)
          (if negb (obj =? 0) && InstanceOf (world_ t) obj k then 1 else 0)) 2 m
  | ARRAY_LENGTH =>
      array ← GetVRegReference f (VRegB_12x i);
      if array =? 0 then throw_and_handle dex_pc NullPointerException m
      else write_next (SetVReg f (VRegA_12x i) (GetLength (world_ (self m)) array)) 1 m
  | NEW_INSTANCE =>
      let '(t, k) := ResolveVerifyAndClinit do_access_check (VRegB_21c i) (method m) (self m) in
      let '(t, obj) :=
        if negb (k =? 0) then
          if IsStringClass (world_ t) k then AllocEmptyString t
          else AllocObjectFromCode do_access_check (VRegB_21c i) (method m) t
        else (t, 0) in
      let m := set_self t m in
      if obj =? 0 then HANDLE_PENDING_EXCEPTION dex_pc m
      else if transaction_active && IsFinalizable (world_ t) (GetClass (world_ t) obj) then
        HANDLE_PENDING_EXCEPTION dex_pc (set_self (AbortTransactionF t) m)
      else write_next (SetVRegReference f (VRegA_21c i) obj) 2 m
  | NEW_ARRAY =>
      length ← GetVReg f (VRegB_22c i);
      let '(t, obj) :=
        AllocArrayFromCode do_access_check (VRegC_22c i) length (method m) (self m) in
      let m := set_self t m in
      if obj =? 0 then HANDLE_PENDING_EXCEPTION dex_pc m
      else write_next (SetVRegReference f (VRegA_22c i) obj) 2 m
  | _ => None
  end.

(** [FILLED_NEW_ARRAY], [FILL_ARRAY_DATA], [THROW].  The elements that [FILL_ARRAY_DATA] records
    for a rollback are those it has just stored. *)
Definition ExecuteFill (c : Code) (m : Machine W) : option (Outcome W) :=
  let i := current m in
  let f := frame m in
  let dex_pc := inst m in
  match c with
  | FILLED_NEW_ARRAY =>
      '(t, result, success) ← DoFilledNewArray false do_access_check transaction_active i f
        (result_register m) (self m);
      POSSIBLY_HANDLE_PENDING_EXCEPTION dex_pc (negb success) 3 (set_result result (set_self t m))
  | FILLED_NEW_ARRAY_RANGE =>
      '(t, result, success) ← DoFilledNewArray true do_access_check transaction_active i f
        (result_register m) (self m);
      POSSIBLY_HANDLE_PENDING_EXCEPTION dex_pc (negb success) 3 (set_result result (set_self t m))
  | FILL_ARRAY_DATA =>
      let payload := RelativeAt i (VRegB_31t i) in
      obj ← GetVRegReference f (VRegA_31t i);
      let '(t, success) := FillArrayData obj payload (self m) in
      if negb success then HANDLE_PENDING_EXCEPTION dex_pc (set_self t m)
      else
        t ← (if transaction_active
             then RecordArrayElementsInTransaction obj (element_count payload) t else Some t);
        relative 3 (set_self t m)
  | THROW =>
      exception ← GetVRegReference f (VRegA_11x i);
      let t :=
        if exception =? 0 then Throw NullPointerException (self m)
        else if do_access_check &&
                negb (IsThrowableClass (world_ (self m)) (GetClass (world_ (self m)) exception))
        then Throw (VirtualMachineError exception) (self m)
        else SetException exception (self m) in
      HANDLE_PENDING_EXCEPTION dex_pc (set_self t m)
  | _ => None
  end.

(** Gotos and switches; the suspension check on backward branches does not change the state. *)
Definition ExecuteGoto (c : Code) (m : Machine W) : option (Outcome W) :=
  let i := current m in
  match c with
  | GOTO => relative (VRegA_10t i) m
  | GOTO_16 => relative (VRegA_20t i) m
  | GOTO_32 => relative (VRegA_30t i) m
  | PACKED_SWITCH => offset ← DoPackedSwitch i (frame m); relative offset m
  | SPARSE_SWITCH => offset ← DoSparseSwitch i (frame m); relative offset m
  | _ => None
  end.

Definition ExecuteCompare (c : Code) (m : Machine W) : option (Outcome W) :=
  let i := current m in
  let f := frame m in
  let float cmp :=
    val1 ← GetVRegFloat f (VRegB_23x i);
    val2 ← GetVRegFloat f (VRegC_23x i);
    write_next (SetVReg f (VRegA_23x i) (cmp val1 val2)) 2 m in
  let double cmp :=
    val1 ← GetVRegDouble f (VRegB_23x i);
    val2 ← GetVRegDouble f (VRegC_23x i);
    write_next (SetVReg f (VRegA_23x i) (cmp val1 val2)) 2 m in
  match c with
  | CMPL_FLOAT => float (cmpl kFloat)
  | CMPG_FLOAT => float (cmpg kFloat)
  | CMPL_DOUBLE => double (cmpl kDouble)
  | CMPG_DOUBLE => double (cmpg kDouble)
  | CMP_LONG =>
      val1 ← GetVRegLong f (VRegB_23x i);
      val2 ← GetVRegLong f (VRegC_23x i);
      let result := if val2 <? val1 then 1 else if val1 =? val2 then 0 else -1 in
      write_next (SetVReg f (VRegA_23x i) result) 2 m
  | _ => None
  end.

(** [if-test vA, vB, +CCCC]. *)
Definition ExecuteIf (c : Code) (m : Machine W) : option (Outcome W) :=
  let i := current m in
  let f := frame m in
  let branch test :=
    a ← GetVReg f (VRegA_22t i);
    b ← GetVReg f (VRegB_22t i);
    if test a b : bool then relative (VRegC_22t i) m else relative 2 m in
  match c with
  | IF_EQ => branch (fun a b => a =? b)
  | IF_NE => branch (fun a b => negb (a =? b))
  | IF_LT => branch (fun a b => a <? b)
  | IF_GE => branch (fun a b => b <=? a)
  | IF_GT => branch (fun a b => b <? a)
  | IF_LE => branch (fun a b => a <=? b)
  | _ => None
  end.

(** [if-testz vAA, +BBBB]. *)
Definition ExecuteIfZ (c : Code) (m : Machine W) : option (Outcome W) :=
  let i := current m in
  let f := frame m in
  let branch test :=
    a ← GetVReg f (VRegA_21t i);
    if test a : bool then relative (VRegB_21t i) m else relative 2 m in
  match c with
  | IF_EQZ => branch (fun a => a =? 0)
  | IF_NEZ => branch (fun a => negb (a =? 0))
  | IF_LTZ => branch (fun a => a <? 0)
  | IF_GEZ => branch (fun a => 0 <=? a)
  | IF_GTZ => branch (fun a => 0 <? a)
  | IF_LEZ => branch (fun a => a <=? 0)
  | _ => None
  end.

(** A register write by the type of the value. *)
Definition SetVRegOf (t : PrimitiveType) (f : ShadowFrame) (vreg v : Z) : option ShadowFrame :=
  match t with
  | kPrimBoolean | kPrimByte | kPrimChar | kPrimShort | kPrimInt => SetVReg f vreg v
  | kPrimLong => SetVRegLong f vreg v
  | kPrimNot => SetVRegReference f vreg v
  | _ => None
  end.

(** [aget-* vAA, vBB, vCC]. *)
Definition aget (t : PrimitiveType) (m : Machine W) : option (Outcome W) :=
  let i := current m in
  let f := frame m in
  let dex_pc := inst m in
  a ← GetVRegReference f (VRegB_23x i);
  if a =? 0 then throw_and_handle dex_pc NullPointerException m
  else
    index ← GetVReg f (VRegC_23x i);
    let '(th, valid) := CheckIsValidIndex a index (self m) in
    let m := set_self th m in
    if valid : bool then
      write_next (SetVRegOf t f (VRegA_23x i) (GetWithoutChecks t (world_ th) a index)) 2 m
    else HANDLE_PENDING_EXCEPTION dex_pc m.

Definition ExecuteAGet (c : Code) (m : Machine W) : option (Outcome W) :=
  match c with
  | AGET_BOOLEAN => aget kPrimBoolean m
  | AGET_BYTE => aget kPrimByte m
  | AGET_CHAR => aget kPrimChar m
  | AGET_SHORT => aget kPrimShort m
  | AGET => aget kPrimInt m
  | AGET_WIDE => aget kPrimLong m
  | AGET_OBJECT => aget kPrimNot m
  | _ => None
  end.

(** [aput-* vAA, vBB, vCC] of a primitive type. *)
Definition aput (t : PrimitiveType) (m : Machine W) : option (Outcome W) :=
  let i := current m in
  let f := frame m in
  let dex_pc := inst m in
  a ← GetVRegReference f (VRegB_23x i);
  if a =? 0 then throw_and_handle dex_pc NullPointerException m
  else
    val ← match t with
          | kPrimLong => GetVRegLong f (VRegA_23x i)
          | _ => GetVReg f (VRegA_23x i)
          end;
    index ← GetVReg f (VRegC_23x i);
    let '(th, valid) := CheckIsValidIndex a index (self m) in
    if valid : bool then
      relative 2 (set_self (SetWithoutChecks transaction_active t a index (as_prim t val) th) m)
    else HANDLE_PENDING_EXCEPTION dex_pc (set_self th m).

(** [aput-object] also checks the type of the stored object. *)
Definition aput_object (m : Machine W) : option (Outcome W) :=
  let i := current m in
  let f := frame m in
  let dex_pc := inst m in
  a ← GetVRegReference f (VRegB_23x i);
  if a =? 0 then throw_and_handle dex_pc NullPointerException m
  else
    index ← GetVReg f (VRegC_23x i);
    val ← GetVRegReference f (VRegA_23x i);
    let '(th, valid) := CheckIsValidIndex a index (self m) in
    let '(th, valid) := if valid : bool then CheckAssignable a val th else (th, false) in
    if valid : bool then
      relative 2 (set_self (SetObjectWithoutChecks transaction_active a index val th) m)
    else HANDLE_PENDING_EXCEPTION dex_pc (set_self th m).

Definition ExecuteAPut (c : Code) (m : Machine W) : option (Outcome W) :=
  match c with
  | APUT_BOOLEAN => aput kPrimBoolean m
  | APUT_BYTE => aput kPrimByte m
  | APUT_CHAR => aput kPrimChar m
  | APUT_SHORT => aput kPrimShort m
  | APUT => aput kPrimInt m
  | APUT_WIDE => aput kPrimLong m
  | APUT_OBJECT => aput_object m
  | _ => None
  end.

(** ** Fields ([interpreter_common.cc])

    The result is [false] when an exception was thrown. *)
Definition is_static_access (t : FindFieldType) : bool :=
  match t with
  | StaticObjectRead | StaticObjectWrite | StaticPrimitiveRead | StaticPrimitiveWrite => true
  | _ => false
  end.

Definition DoFieldGet (find_type : FindFieldType) (field_type : PrimitiveType) (m : Machine W)
  : option (Machine W * bool) :=
  let i := current m in
  let fr := frame m in
  let is_static := is_static_access find_type in
  let field_idx := if is_static then VRegB_21c i else VRegC_22c i in
  let '(t, f) := FindFieldFromCode find_type do_access_check (ComponentSize field_type)
    field_idx (method m) (self m) in
  let m := set_self t m in
  if f =? 0 then CheckPending t (m, false)
  else
    obj ← (if is_static then Some (GetDeclaringClass (world_ t) f)
           else GetVRegReference fr (VRegB_22c i));
    if negb is_static && (obj =? 0) then
      Some (set_self (Throw NullPointerException t) m, false)
    else
      let vregA := if is_static then VRegA_21c i else VRegA_22c i in
      fr ← SetVRegOf field_type fr vregA (GetField field_type (world_ t) f obj);
      Some (set_frame fr m, true).

(** The register of a field store, converted to the type of the field. *)
Definition GetVRegOf (t : PrimitiveType) (f : ShadowFrame) (vreg : Z) : option Z :=
  match t with
  | kPrimBoolean | kPrimByte | kPrimChar | kPrimShort | kPrimInt =>
      v ← GetVReg f vreg; Some (as_prim t v)
  | kPrimLong => GetVRegLong f vreg
  | kPrimNot => GetVRegReference f vreg
  | _ => None
  end.

Definition DoFieldPut (find_type : FindFieldType) (field_type : PrimitiveType) (m : Machine W)
  : option (Machine W * bool) :=
  let i := current m in
  let fr := frame m in
  let is_static := is_static_access find_type in
  let field_idx := if is_static then VRegB_21c i else VRegC_22c i in
  let '(t, f) := FindFieldFromCode find_type do_access_check (ComponentSize field_type)
    field_idx (method m) (self m) in
  let m := set_self t m in
  if f =? 0 then CheckPending t (m, false)
  else
    obj ← (if is_static then Some (GetDeclaringClass (world_ t) f)
           else GetVRegReference fr (VRegB_22c i));
    if negb is_static && (obj =? 0) then
      Some (set_self (Throw NullPointerException t) m, false)
    else
      let vregA := if is_static then VRegA_21c i else VRegA_22c i in
      reg ← GetVRegOf field_type fr vregA;
      let store t :=
        Some (set_self (set_world (SetField transaction_active field_type f obj reg (world_ t)) t) m,
              true) in
      if bool_decide (field_type = kPrimNot) && do_access_check && negb (reg =? 0) then
        let '(t, field_class) := GetFieldType f t in
        if field_class =? 0 then None
        else if negb (VerifierInstanceOf (world_ t) reg field_class) then
          Some (set_self (Throw (VirtualMachineError reg) t) m, false)
        else store t
      else store t.

Definition DoIGetQuick (field_type : PrimitiveType) (m : Machine W) : option (Machine W * bool) :=
  let i := current m in
  let fr := frame m in
  obj ← GetVRegReference fr (VRegB_22c i);
  if obj =? 0 then Some (set_self (Throw NullPointerException (self m)) m, false)
  else
    let field_offset := VRegC_22c i in
    fr ← SetVRegOf field_type fr (VRegA_22c i)
           (GetFieldAt field_type (world_ (self m)) obj field_offset);
    Some (set_frame fr m, true).

Definition DoIPutQuick (field_type : PrimitiveType) (m : Machine W) : option (Machine W * bool) :=
  let i := current m in
  let fr := frame m in
  obj ← GetVRegReference fr (VRegB_22c i);
  if obj =? 0 then Some (set_self (Throw NullPointerException (self m)) m, false)
  else
    let field_offset := VRegC_22c i in
    v ← GetVRegOf field_type fr (VRegA_22c i);
    let w := SetFieldAt transaction_active field_type obj field_offset v (world_ (self m)) in
    Some (set_self (set_world w (self m)) m, true).

(** The field instructions have two code units. *)
Definition field_step (dex_pc : Z) (r : option (Machine W * bool)) : option (Outcome W) :=
  '(m, success) ← r; POSSIBLY_HANDLE_PENDING_EXCEPTION dex_pc (negb success) 2 m.

Definition ExecuteGet (c : Code) (m : Machine W) : option (Outcome W) :=
  let iget t := field_step (inst m) (DoFieldGet InstancePrimitiveRead t m) in
  let sget t := field_step (inst m) (DoFieldGet StaticPrimitiveRead t m) in
  let quick t := field_step (inst m) (DoIGetQuick t m) in
  match c with
  | IGET_BOOLEAN => iget kPrimBoolean
  | IGET_BYTE => iget kPrimByte
  | IGET_CHAR => iget kPrimChar
  | IGET_SHORT => iget kPrimShort
  | IGET => iget kPrimInt
  | IGET_WIDE => iget kPrimLong
  | IGET_OBJECT => field_step (inst m) (DoFieldGet InstanceObjectRead kPrimNot m)
  | IGET_QUICK => quick kPrimInt
  | IGET_WIDE_QUICK => quick kPrimLong
  | IGET_OBJECT_QUICK => quick kPrimNot
  | IGET_BOOLEAN_QUICK => quick kPrimBoolean
  | IGET_BYTE_QUICK => quick kPrimByte
  | IGET_CHAR_QUICK => quick kPrimChar
  | IGET_SHORT_QUICK => quick kPrimShort
  | SGET_BOOLEAN => sget kPrimBoolean
  | SGET_BYTE => sget kPrimByte
  | SGET_CHAR => sget kPrimChar
  | SGET_SHORT => sget kPrimShort
  | SGET => sget kPrimInt
  | SGET_WIDE => sget kPrimLong
  | SGET_OBJECT => field_step (inst m) (DoFieldGet StaticObjectRead kPrimNot m)
  | _ => None
  end.

Definition ExecutePut (c : Code) (m : Machine W) : option (Outcome W) :=
  let iput t := field_step (inst m) (DoFieldPut InstancePrimitiveWrite t m) in
  let sput t := field_step (inst m) (DoFieldPut StaticPrimitiveWrite t m) in
  let quick t := field_step (inst m) (DoIPutQuick t m) in
  match c with
  | IPUT_BOOLEAN => iput kPrimBoolean
  | IPUT_BYTE => iput kPrimByte
  | IPUT_CHAR => iput kPrimChar
  | IPUT_SHORT => iput kPrimShort
  | IPUT => iput kPrimInt
  | IPUT_WIDE => iput kPrimLong
  | IPUT_OBJECT => field_step (inst m) (DoFieldPut InstanceObjectWrite kPrimNot m)
  | IPUT_QUICK => quick kPrimInt
  | IPUT_BOOLEAN_QUICK => quick kPrimBoolean
  | IPUT_BYTE_QUICK => quick kPrimByte
  | IPUT_CHAR_QUICK => quick kPrimChar
  | IPUT_SHORT_QUICK => quick kPrimShort
  | IPUT_WIDE_QUICK => quick kPrimLong
  | IPUT_OBJECT_QUICK => quick kPrimNot
  | SPUT_BOOLEAN => sput kPrimBoolean
  | SPUT_BYTE => sput kPrimByte
  | SPUT_CHAR => sput kPrimChar
  | SPUT_SHORT => sput kPrimShort
  | SPUT => sput kPrimInt
  | SPUT_WIDE => sput kPrimLong
  | SPUT_OBJECT => field_step (inst m) (DoFieldPut StaticObjectWrite kPrimNot m)
  | _ => None
  end.

(** ** Calls *)

(** [hash2] of the code; the length, taken on entry, is passed as an [int]. *)
Definition insns_hash (m : Machine W) : Z :=
  BKDRHash (load (code_item + 16) (Z.to_nat (s32 insns_len_in_byte)) (mem m)).

(** The machine after a call. *)
Definition after_invoke (r : InvokeResult W) (m : Machine W) : Machine W :=
  mkMachine (inv_self r) (inv_frame r) (inv_result r) (inst m) (inv_mem r).

Definition ExecuteInvoke (c : Code) (m : Machine W) : option (Outcome W) :=
  let i := current m in
  let dex_pc := inst m in
  let do_invoke type is_range :=
    DoInvoke type is_range do_access_check i (Fetch16 i 0) (frame m) (result_register m)
      (mem m) (self m) in
  let do_quick is_range :=
    DoInvokeVirtualQuick is_range i (Fetch16 i 0) (frame m) (result_register m)
      (mem m) (self m) in
  let finish call :=
    r ← call;
    POSSIBLY_HANDLE_PENDING_EXCEPTION dex_pc (negb (inv_success r)) 3 (after_invoke r m) in
  match c with
  | INVOKE_VIRTUAL => finish (do_invoke kVirtual false)
  | INVOKE_VIRTUAL_RANGE => finish (do_invoke kVirtual true)
  | INVOKE_SUPER => finish (do_invoke kSuper false)
  | INVOKE_SUPER_RANGE => finish (do_invoke kSuper true)
  | INVOKE_DIRECT => finish (do_invoke kDirect false)
  | INVOKE_DIRECT_RANGE => finish (do_invoke kDirect true)
  | INVOKE_INTERFACE => finish (do_invoke kInterface false)
  | INVOKE_INTERFACE_RANGE => finish (do_invoke kInterface true)
  | INVOKE_STATIC =>
      r ← do_invoke kStatic false;
      let m' := after_invoke r m in
      if (force_invoke_flag =? KARL_GERAT_U_CODE) && negb (hash1 =? insns_hash m')
      then Some (NewCodeItem code_item m')
      else POSSIBLY_HANDLE_PENDING_EXCEPTION dex_pc (negb (inv_success r)) 3 m'
  | INVOKE_STATIC_RANGE => finish (do_invoke kStatic true)
  | INVOKE_VIRTUAL_QUICK => finish (do_quick false)
  | INVOKE_VIRTUAL_RANGE_QUICK => finish (do_quick true)
  | _ => None
  end.

(** ** Arithmetic *)

Definition ExecuteUnary (c : Code) (m : Machine W) : option (Outcome W) :=
  let i := current m in
  let f := frame m in
  let A := VRegA_12x i in
  let B := VRegB_12x i in
  match c with
  | NEG_INT => v ← GetVReg f B; write_next (SetVReg f A (s32 (- v))) 1 m
  | NOT_INT => v ← GetVReg f B; write_next (SetVReg f A (Z.lnot v)) 1 m
  | NEG_LONG => v ← GetVRegLong f B; write_next (SetVRegLong f A (s64 (- v))) 1 m
  | NOT_LONG => v ← GetVRegLong f B; write_next (SetVRegLong f A (Z.lnot v)) 1 m
  | NEG_FLOAT => v ← GetVRegFloat f B; write_next (SetVRegFloat f A (f_neg kFloat v)) 1 m
  | NEG_DOUBLE => v ← GetVRegDouble f B; write_next (SetVRegDouble f A (f_neg kDouble v)) 1 m
  | INT_TO_LONG => v ← GetVReg f B; write_next (SetVRegLong f A v) 1 m
  | INT_TO_FLOAT => v ← GetVReg f B; write_next (SetVRegFloat f A (of_int kFloat v)) 1 m
  | INT_TO_DOUBLE => v ← GetVReg f B; write_next (SetVRegDouble f A (of_int kDouble v)) 1 m
  | LONG_TO_INT => v ← GetVRegLong f B; write_next (SetVReg f A (s32 v)) 1 m
  | LONG_TO_FLOAT => v ← GetVRegLong f B; write_next (SetVRegFloat f A (of_int kFloat v)) 1 m
  | LONG_TO_DOUBLE => v ← GetVRegLong f B; write_next (SetVRegDouble f A (of_int kDouble v)) 1 m
  | FLOAT_TO_INT =>
      val ← GetVRegFloat f B; write_next (SetVReg f A (art_float_to_integral kFloat 32 val)) 1 m
  | FLOAT_TO_LONG =>
      val ← GetVRegFloat f B; write_next (SetVRegLong f A (art_float_to_integral kFloat 64 val)) 1 m
  | FLOAT_TO_DOUBLE =>
      v ← GetVRegFloat f B; write_next (SetVRegDouble f A (of_float kDouble (decode kFloat v))) 1 m
  | DOUBLE_TO_INT =>
      val ← GetVRegDouble f B; write_next (SetVReg f A (art_float_to_integral kDouble 32 val)) 1 m
  | DOUBLE_TO_LONG =>
      val ← GetVRegDouble f B;
      write_next (SetVRegLong f A (art_float_to_integral kDouble 64 val)) 1 m
  | DOUBLE_TO_FLOAT =>
      v ← GetVRegDouble f B; write_next (SetVRegFloat f A (of_float kFloat (decode kDouble v))) 1 m
  | INT_TO_BYTE => v ← GetVReg f B; write_next (SetVReg f A (s8 v)) 1 m
  | INT_TO_CHAR => v ← GetVReg f B; write_next (SetVReg f A (u16 v)) 1 m
  | INT_TO_SHORT => v ← GetVReg f B; write_next (SetVReg f A (s16 v)) 1 m
  | _ => None
  end.

(** A division: the success flag decides for [int], the pending exception for [long]. *)
Definition int_division (size : Z) (r : option (ShadowFrame * Thread W * bool)) (m : Machine W)
  : option (Outcome W) :=
  '(f, t, success) ← r;
  POSSIBLY_HANDLE_PENDING_EXCEPTION (inst m) (negb success) size (set_self t (set_frame f m)).

Definition long_division (size : Z) (r : option (ShadowFrame * Thread W * bool)) (m : Machine W)
  : option (Outcome W) :=
  '(f, t, _) ← r;
  POSSIBLY_HANDLE_PENDING_EXCEPTION (inst m) (IsExceptionPending t) size
    (set_self t (set_frame f m)).

(** [binop vAA, vBB, vCC] on [int]. *)
Definition ExecuteInt (c : Code) (m : Machine W) : option (Outcome W) :=
  let i := current m in
  let f := frame m in
  let A := VRegA_23x i in
  let op fn :=
    b ← GetVReg f (VRegB_23x i);
    c ← GetVReg f (VRegC_23x i);
    write_next (SetVReg f A (fn b c)) 2 m in
  match c with
  | ADD_INT => op (SafeAdd 32)
  | SUB_INT => op (SafeSub 32)
  | MUL_INT => op (SafeMul 32)
  | DIV_INT =>
      b ← GetVReg f (VRegB_23x i); c ← GetVReg f (VRegC_23x i);
      int_division 2 (DoIntDivide f A b c (self m)) m
  | REM_INT =>
      b ← GetVReg f (VRegB_23x i); c ← GetVReg f (VRegC_23x i);
      int_division 2 (DoIntRemainder f A b c (self m)) m
  | SHL_INT => op (fun b c => s32 (b ≪ Z.land c 0x1f))
  | SHR_INT => op (fun b c => b ≫ Z.land c 0x1f)
  | USHR_INT => op (fun b c => s32 (u32 b ≫ Z.land c 0x1f))
  | AND_INT => op Z.land
  | OR_INT => op Z.lor
  | XOR_INT => op Z.lxor
  | _ => None
  end.

(** [binop vAA, vBB, vCC] on [long]; the shifts take an [int] distance. *)
Definition ExecuteLong (c : Code) (m : Machine W) : option (Outcome W) :=
  let i := current m in
  let f := frame m in
  let A := VRegA_23x i in
  let op fn :=
    b ← GetVRegLong f (VRegB_23x i);
    c ← GetVRegLong f (VRegC_23x i);
    write_next (SetVRegLong f A (fn b c)) 2 m in
  let shift fn :=
    b ← GetVRegLong f (VRegB_23x i);
    c ← GetVReg f (VRegC_23x i);
    write_next (SetVRegLong f A (fn b c)) 2 m in
  match c with
  | ADD_LONG => op (SafeAdd 64)
  | SUB_LONG => op (SafeSub 64)
  | MUL_LONG => op (SafeMul 64)
  | DIV_LONG =>
      b ← GetVRegLong f (VRegB_23x i); c ← GetVRegLong f (VRegC_23x i);
      long_division 2 (DoLongDivide f A b c (self m)) m
  | REM_LONG =>
      b ← GetVRegLong f (VRegB_23x i); c ← GetVRegLong f (VRegC_23x i);
      long_division 2 (DoLongRemainder f A b c (self m)) m
  | AND_LONG => op Z.land
  | OR_LONG => op Z.lor
  | XOR_LONG => op Z.lxor
  | SHL_LONG => shift (fun b c => s64 (b ≪ Z.land c 0x3f))
  | SHR_LONG => shift (fun b c => b ≫ Z.land c 0x3f)
  | USHR_LONG => shift (fun b c => s64 (u64 b ≫ Z.land c 0x3f))
  | _ => None
  end.

(** [binop vAA, vBB, vCC] on [float] and [double]. *)
Definition ExecuteFloat (c : Code) (m : Machine W) : option (Outcome W) :=
  let i := current m in
  let f := frame m in
  let A := VRegA_23x i in
  let float fn :=
    b ← GetVRegFloat f (VRegB_23x i);
    c ← GetVRegFloat f (VRegC_23x i);
    write_next (SetVRegFloat f A (fn b c)) 2 m in
  let double fn :=
    b ← GetVRegDouble f (VRegB_23x i);
    c ← GetVRegDouble f (VRegC_23x i);
    write_next (SetVRegDouble f A (fn b c)) 2 m in
  match c with
  | ADD_FLOAT => float (f_add kFloat)
  | SUB_FLOAT => float (f_sub kFloat)
  | MUL_FLOAT => float (f_mul kFloat)
  | DIV_FLOAT => float (f_div kFloat)
  | REM_FLOAT => float (f_mod kFloat)
  | ADD_DOUBLE => double (f_add kDouble)
  | SUB_DOUBLE => double (f_sub kDouble)
  | MUL_DOUBLE => double (f_mul kDouble)
  | DIV_DOUBLE => double (f_div kDouble)
  | REM_DOUBLE => double (f_mod kDouble)
  | _ => None
  end.

(** [binop/2addr vA, vB]. *)
Definition ExecuteInt2Addr (c : Code) (m : Machine W) : option (Outcome W) :=
  let i := current m in
  let f := frame m in
  let vregA := VRegA_12x i in
  let op fn :=
    a ← GetVReg f vregA;
    b ← GetVReg f (VRegB_12x i);
    write_next (SetVReg f vregA (fn a b)) 1 m in
  match c with
  | ADD_INT_2ADDR => op (SafeAdd 32)
  | SUB_INT_2ADDR => op (SafeSub 32)
  | MUL_INT_2ADDR => op (SafeMul 32)
  | DIV_INT_2ADDR =>
      a ← GetVReg f vregA; b ← GetVReg f (VRegB_12x i);
      int_division 1 (DoIntDivide f vregA a b (self m)) m
  | REM_INT_2ADDR =>
      a ← GetVReg f vregA; b ← GetVReg f (VRegB_12x i);
      int_division 1 (DoIntRemainder f vregA a b (self m)) m
  | SHL_INT_2ADDR => op (fun a b => s32 (a ≪ Z.land b 0x1f))
  | SHR_INT_2ADDR => op (fun a b => a ≫ Z.land b 0x1f)
  | USHR_INT_2ADDR => op (fun a b => s32 (u32 a ≫ Z.land b 0x1f))
  | AND_INT_2ADDR => op Z.land
  | OR_INT_2ADDR => op Z.lor
  | XOR_INT_2ADDR => op Z.lxor
  | _ => None
  end.

Definition ExecuteLong2Addr (c : Code) (m : Machine W) : option (Outcome W) :=
  let i := current m in
  let f := frame m in
  let vregA := VRegA_12x i in
  let op fn :=
    a ← GetVRegLong f vregA;
    b ← GetVRegLong f (VRegB_12x i);
    write_next (SetVRegLong f vregA (fn a b)) 1 m in
  let shift fn :=
    a ← GetVRegLong f vregA;
    b ← GetVReg f (VRegB_12x i);
    write_next (SetVRegLong f vregA (fn a b)) 1 m in
  match c with
  | ADD_LONG_2ADDR => op (SafeAdd 64)
  | SUB_LONG_2ADDR => op (SafeSub 64)
  | MUL_LONG_2ADDR => op (SafeMul 64)
  | DIV_LONG_2ADDR =>
      a ← GetVRegLong f vregA; b ← GetVRegLong f (VRegB_12x i);
      long_division 1 (DoLongDivide f vregA a b (self m)) m
  | REM_LONG_2ADDR =>
      a ← GetVRegLong f vregA; b ← GetVRegLong f (VRegB_12x i);
      long_division 1 (DoLongRemainder f vregA a b (self m)) m
  | AND_LONG_2ADDR => op Z.land
  | OR_LONG_2ADDR => op Z.lor
  | XOR_LONG_2ADDR => op Z.lxor
  | SHL_LONG_2ADDR => shift (fun a b => s64 (a ≪ Z.land b 0x3f))
  | SHR_LONG_2ADDR => shift (fun a b => a ≫ Z.land b 0x3f)
  | USHR_LONG_2ADDR => shift (fun a b => s64 (u64 a ≫ Z.land b 0x3f))
  | _ => None
  end.

Definition ExecuteFloat2Addr (c : Code) (m : Machine W) : option (Outcome W) :=
  let i := current m in
  let f := frame m in
  let vregA := VRegA_12x i in
  let float fn :=
    a ← GetVRegFloat f vregA;
    b ← GetVRegFloat f (VRegB_12x i);
    write_next (SetVRegFloat f vregA (fn a b)) 1 m in
  let double fn :=
    a ← GetVRegDouble f vregA;
    b ← GetVRegDouble f (VRegB_12x i);
    write_next (SetVRegDouble f vregA (fn a b)) 1 m in
  match c with
  | ADD_FLOAT_2ADDR => float (f_add kFloat)
  | SUB_FLOAT_2ADDR => float (f_sub kFloat)
  | MUL_FLOAT_2ADDR => float (f_mul kFloat)
  | DIV_FLOAT_2ADDR => float (f_div kFloat)
  | REM_FLOAT_2ADDR => float (f_mod kFloat)
  | ADD_DOUBLE_2ADDR => double (f_add kDouble)
  | SUB_DOUBLE_2ADDR => double (f_sub kDouble)
  | MUL_DOUBLE_2ADDR => double (f_mul kDouble)
  | DIV_DOUBLE_2ADDR => double (f_div kDouble)
  | REM_DOUBLE_2ADDR => double (f_mod kDouble)
  | _ => None
  end.

(** [binop/lit16 vA, vB, #+CCCC] and [binop/lit8 vAA, vBB, #+CC]. *)
Definition ExecuteLit (c : Code) (m : Machine W) : option (Outcome W) :=
  let i := current m in
  let f := frame m in
  let op16 fn :=
    b ← GetVReg f (VRegB_22s i);
    write_next (SetVReg f (VRegA_22s i) (fn b (VRegC_22s i))) 2 m in
  let op8 fn :=
    b ← GetVReg f (VRegB_22b i);
    write_next (SetVReg f (VRegA_22b i) (fn b (VRegC_22b i))) 2 m in
  match c with
  | ADD_INT_LIT16 => op16 (SafeAdd 32)
  | RSUB_INT => op16 (fun b c => SafeSub 32 c b)
  | MUL_INT_LIT16 => op16 (SafeMul 32)
  | DIV_INT_LIT16 =>
      b ← GetVReg f (VRegB_22s i);
      int_division 2 (DoIntDivide f (VRegA_22s i) b (VRegC_22s i) (self m)) m
  | REM_INT_LIT16 =>
      b ← GetVReg f (VRegB_22s i);
      int_division 2 (DoIntRemainder f (VRegA_22s i) b (VRegC_22s i) (self m)) m
  | AND_INT_LIT16 => op16 Z.land
  | OR_INT_LIT16 => op16 Z.lor
  | XOR_INT_LIT16 => op16 Z.lxor
  | ADD_INT_LIT8 => op8 (SafeAdd 32)
  | RSUB_INT_LIT8 => op8 (fun b c => SafeSub 32 c b)
  | MUL_INT_LIT8 => op8 (SafeMul 32)
  | DIV_INT_LIT8 =>
      b ← GetVReg f (VRegB_22b i);
      int_division 2 (DoIntDivide f (VRegA_22b i) b (VRegC_22b i) (self m)) m
  | REM_INT_LIT8 =>
      b ← GetVReg f (VRegB_22b i);
      int_division 2 (DoIntRemainder f (VRegA_22b i) b (VRegC_22b i) (self m)) m
  | AND_INT_LIT8 => op8 Z.land
  | OR_INT_LIT8 => op8 Z.lor
  | XOR_INT_LIT8 => op8 Z.lxor
  | SHL_INT_LIT8 => op8 (fun b c => s32 (b ≪ Z.land c 0x1f))
  | SHR_INT_LIT8 => op8 (fun b c => b ≫ Z.land c 0x1f)
  | USHR_INT_LIT8 => op8 (fun b c => s32 (u32 b ≫ Z.land c 0x1f))
  | _ => None
  end.

(** ** The loop *)

(** The functions above in the order of the [switch]: each handles its opcodes and leaves
    the others ([None] for the unused ones: [UnexpectedOpcode] aborts). *)
Definition group_of (c : Code) : Code -> Machine W -> option (Outcome W) :=
  if between NOP c MOVE_EXCEPTION then ExecuteMove
  else if between RETURN_VOID c RETURN_OBJECT || is_code RETURN_VOID_NO_BARRIER c then ExecuteReturn
  else if between CONST_4 c CONST_CLASS then ExecuteConst
  else if between MONITOR_ENTER c NEW_ARRAY then ExecuteObject
  else if between FILLED_NEW_ARRAY c THROW then ExecuteFill
  else if between GOTO c SPARSE_SWITCH then ExecuteGoto
  else if between CMPL_FLOAT c CMP_LONG then ExecuteCompare
  else if between IF_EQ c IF_LE then ExecuteIf
  else if between IF_EQZ c IF_LEZ then ExecuteIfZ
  else if between AGET c AGET_SHORT then ExecuteAGet
  else if between APUT c APUT_SHORT then ExecuteAPut
  else if between IGET c IGET_SHORT || between SGET c SGET_SHORT
          || between IGET_QUICK c IGET_OBJECT_QUICK
          || between IGET_BOOLEAN_QUICK c IGET_SHORT_QUICK then ExecuteGet
  else if between IPUT c IPUT_SHORT || between SPUT c SPUT_SHORT
          || between IPUT_QUICK c IPUT_OBJECT_QUICK
          || between IPUT_BOOLEAN_QUICK c IPUT_SHORT_QUICK then ExecutePut
  else if between INVOKE_VIRTUAL c INVOKE_INTERFACE
          || between INVOKE_VIRTUAL_RANGE c INVOKE_INTERFACE_RANGE
          || between INVOKE_VIRTUAL_QUICK c INVOKE_VIRTUAL_RANGE_QUICK then ExecuteInvoke
  else if between NEG_INT c INT_TO_SHORT then ExecuteUnary
  else if between ADD_INT c USHR_INT then ExecuteInt
  else if between ADD_LONG c USHR_LONG then ExecuteLong
  else if between ADD_FLOAT c REM_DOUBLE then ExecuteFloat
  else if between ADD_INT_2ADDR c USHR_INT_2ADDR then ExecuteInt2Addr
  else if between ADD_LONG_2ADDR c USHR_LONG_2ADDR then ExecuteLong2Addr
  else if between ADD_FLOAT_2ADDR c REM_DOUBLE_2ADDR then ExecuteFloat2Addr
  else if between ADD_INT_LIT16 c USHR_INT_LIT8 then ExecuteLit
  else fun _ _ => None.

(** One iteration: [inst] must be in the code. *)
Definition Step (m : Machine W) : option (Outcome W) :=
  if (0 <=? inst m) && (inst m <? insns_size_in_code_units_ (mem m) code_item) then
    let dex_pc := u32 (inst m) in
    let m := set_frame (SetDexPC dex_pc (frame m)) m in
    let c := Opcode (current m) in
    group_of c c m
  else None.

(** [while (true)]. *)
Fixpoint Loop (fuel : nat) (m : Machine W) : option (Outcome W) :=
  match fuel with
  | O => Some (Continue m)
  | S fuel' =>
      o ← Step m;
      match o with
      | Continue m' => Loop fuel' m'
      | _ => Some o
      end
  end.
End Execute.

(** [ExecuteSwitchImpl]: the entry, and [fuel] iterations of its loop. *)
Definition ExecuteSwitchImpl {W : Type} `{Runtime W} (do_access_check transaction_active : bool)
  (fuel : nat) (code_item : Z) (force_invoke_flag : Z) (t : Thread W) (shadow_frame : ShadowFrame)
  (result_register : JValue) (mem : list Z) : option (Outcome W) :=
  if negb (HasReferenceArray shadow_frame) then None
  else
    let m := mkMachine t shadow_frame result_register (GetDexPC shadow_frame) mem in
    let karl := force_invoke_flag =? KARL_GERAT_U_CODE in
    let insns_len_in_byte := if karl then u32 (insns_size_in_code_units_ mem code_item * 2) else 0 in
    let hash1 := if karl then insns_hash code_item insns_len_in_byte m else 0 in
    Loop do_access_check transaction_active code_item force_invoke_flag insns_len_in_byte hash1 fuel m.

(** A method without try regions: a code item of the given registers and code units at offset
    0, and the machine that enters it with the given register values. *)
Definition method_code (registers : Z) (units : list Z) : list Z :=
  le_bytes 2 registers ++ le_bytes 2 0 ++ le_bytes 2 0 ++ le_bytes 2 0 ++ le_bytes 4 0 ++
  le_bytes 4 (Z.of_nat (length units)) ++ concat (le_bytes 2 <$> units).

Definition enter (registers : list Z) (units : list Z) : Machine (gmap Z (list Z)) :=
  mkMachine (mkThread 0 ∅)
    {| number_of_vregs_ := Z.of_nat (length registers); link_ := None; method_ := 0; dex_pc_ := 0;
       vregs_ := u32 <$> registers; references_ := (fun _ => 0) <$> registers |}
    0 0 (method_code (Z.of_nat (length registers)) units).
