(* ===== verification/InterpreterFacts.v ===== *)
(** What the interpreter does ([Interpreter.v]): the shape of a step, the frame invariant,
    control flow against the instruction table, arithmetic, switches, arrays, exceptions and
    the U-X hook. *)
From S2P Require Import Prelude ClassData DexFile DexInstruction ShadowFrame Floats Runtime TryCatch Calls Interpreter.
Local Open Scope Z_scope.

Lemma SetVRegOf_keeps t f i v f' : SetVRegOf t f i v = Some f' -> keeps f f'.
Proof.
  destruct t; cbn; try done; try apply SetVReg_keeps;
    [apply SetVRegReference_keeps|apply SetVRegLong_keeps].
Qed.

Lemma set_const_keeps f i v f' : set_const f i v = Some f' -> keeps f f'.
Proof.
  unfold set_const. destruct (SetVReg f i v) as [g|] eqn:E; [|done]. cbn [mbind option_bind].
  apply SetVReg_keeps in E. destruct (v =? 0).
  - intros E'. apply SetVRegReference_keeps in E'. by eapply keeps_trans.
  - by intros [= <-].
Qed.

#[export] Hint Resolve SetVRegOf_keeps set_const_keeps : keeps.

(** ** The shape of a step

    Every opcode does one of a few things to the position; the flags are those of the
    instruction table ([dex_instruction_list.h]) that the verifier and the compilers read. *)

Section Shape.
Context {W : Type} `{Runtime W}.
Variables (do_access_check transaction_active : bool).
Variable code_item : Z.
Variables (force_invoke_flag insns_len_in_byte hash1 : Z).

Abbreviation handle := (HANDLE_PENDING_EXCEPTION code_item).
Abbreviation cur := (current code_item).

(** The size of the instruction; at the payload pseudo-instructions, which begin with a [NOP],
    the interpreter would step into the payload. *)
Definition step_size (c : Code) : Z :=
  match c with NOP => 1 | _ => kInstructionSizeInCodeUnits c end.

(** A machine that differs from [m] in its registers, thread, result and memory. *)
Definition same_place (m m1 : Machine W) : Prop := keeps (frame m) (frame m1) /\ inst m1 = inst m.

Inductive step_shape (c : Code) (m : Machine W) : Outcome W -> Prop :=
  | shape_next m1 :
      same_place m m1 -> has_flag c kContinue = true ->
      step_shape c m (Continue (set_inst (inst m + step_size c) m1))
  | shape_branch off :
      has_flag c kBranch = true -> GetTargetOffset (cur m) = Some off ->
      step_shape c m (Continue (set_inst (inst m + off) m))
  | shape_switch off :
      has_flag c kSwitch = true -> step_shape c m (Continue (set_inst (inst m + off) m))
  | shape_handler m1 o :
      same_place m m1 -> has_flag c kThrow = true -> handle (inst m) m1 = Some o ->
      step_shape c m o
  | shape_return j m1 :
      keeps (frame m) (frame m1) -> has_flag c kReturn = true -> step_shape c m (Return j m1)
  | shape_return_unwind m1 m2 :
      same_place m m1 -> c = RETURN_OBJECT -> do_access_check = true ->
      handle (inst m) m1 = Some (Unwind m2) -> step_shape c m (Unwind m2)
  | shape_new_code m1 :
      same_place m m1 -> c = INVOKE_STATIC -> force_invoke_flag = KARL_GERAT_U_CODE ->
      step_shape c m (NewCodeItem code_item m1).

Lemma same_place_refl m : same_place m m.
Proof. split; [apply keeps_refl|done]. Qed.

Lemma same_place_trans m m1 m2 : same_place m m1 -> same_place m1 m2 -> same_place m m2.
Proof. intros [A1 A2] [B1 B2]. split; [by eapply keeps_trans|congruence]. Qed.

Lemma same_place_self t m : same_place m (set_self t m).
Proof. split; [apply keeps_refl|done]. Qed.

Lemma same_place_result j m : same_place m (set_result j m).
Proof. split; [apply keeps_refl|done]. Qed.

Lemma same_place_frame f m : keeps (frame m) f -> same_place m (set_frame f m).
Proof. by split. Qed.

Lemma same_place_invoke r m : keeps (frame m) (inv_frame r) -> same_place m (after_invoke r m).
Proof. by split. Qed.

(** Handling an exception moves to a handler or leaves the method; the frame stays. *)
Lemma handle_cases pc m o :
  handle pc m = Some o ->
  exists t found,
    FindNextInstructionFollowingException (mem m) (method m) code_item (inst m) (self m)
      = Some (t, found) /\
    o = if found =? kDexNoIndex then Unwind (set_self t m)
        else Continue (set_inst (inst m + s32 (s32 found - s32 pc)) (set_self t m)).
Proof.
  unfold HANDLE_PENDING_EXCEPTION.
  destruct (FindNextInstructionFollowingException _ _ _ _ _) as [[t found]|]; [|done].
  cbn [mbind option_bind]. intros E. exists t, found. split; [done|].
  destruct (found =? kDexNoIndex); [by injection E|]. unfold relative in E. by injection E.
Qed.

(** The building blocks of the instructions. *)
Lemma relative_shape c m m1 o k :
  same_place m m1 -> has_flag c kContinue = true -> step_size c = k ->
  relative k m1 = Some o -> step_shape c m o.
Proof.
  intros Hs Hf <-. unfold relative. intros [= <-]. destruct Hs as [Hk Hi]. rewrite Hi.
  by apply shape_next.
Qed.

Lemma branch_shape c m o off :
  has_flag c kBranch = true -> GetTargetOffset (cur m) = Some off ->
  relative off m = Some o -> step_shape c m o.
Proof. intros Hf Ht. unfold relative. intros [= <-]. by apply shape_branch. Qed.

Lemma write_shape c m m1 o k r :
  same_place m m1 -> (forall f, r = Some f -> keeps (frame m1) f) ->
  has_flag c kContinue = true -> step_size c = k ->
  write_next r k m1 = Some o -> step_shape c m o.
Proof.
  intros Hs Hr Hf Hk. unfold write_next. destruct r as [f|]; [|done]. cbn [mbind option_bind].
  apply relative_shape; [|done|done]. eapply same_place_trans; [done|].
  apply same_place_frame. auto.
Qed.

Lemma possibly_shape c m m1 o k (b : bool) :
  same_place m m1 -> has_flag c kContinue = true -> has_flag c kThrow = true ->
  step_size c = k ->
  POSSIBLY_HANDLE_PENDING_EXCEPTION code_item (inst m) b k m1 = Some o -> step_shape c m o.
Proof.
  intros Hs Hf Ht Hk. unfold POSSIBLY_HANDLE_PENDING_EXCEPTION. destruct b.
  - intros E. by eapply shape_handler.
  - by apply relative_shape.
Qed.

Lemma throw_shape c m m1 o k :
  same_place m m1 -> has_flag c kThrow = true ->
  throw_and_handle code_item (inst m) k m1 = Some o -> step_shape c m o.
Proof.
  intros Hs Ht E. eapply shape_handler; [|done|exact E].
  eapply same_place_trans; [done|]. apply same_place_self.
Qed.
End Shape.

#[export] Hint Resolve same_place_refl same_place_self same_place_result same_place_frame
  same_place_invoke : keeps.
#[export] Hint Extern 5 (same_place _ (set_self _ (set_frame _ _))) =>
  eapply same_place_trans; [apply same_place_frame|apply same_place_self] : keeps.
#[export] Hint Extern 5 (same_place _ (set_result _ (set_self _ _))) =>
  eapply same_place_trans; [apply same_place_self|apply same_place_result] : keeps.
#[export] Hint Extern 6 (same_place _ (set_self _ (set_self _ _))) =>
  eapply same_place_trans; [apply same_place_self|apply same_place_self] : keeps.

(** [step_shape_tac] concludes with the block that the equation ends in. *)
Ltac step_shape_tac :=
  match goal with
  | E : relative _ _ = Some _ |- _ =>
      first [ eapply relative_shape; [| |reflexivity|exact E]; [eauto with keeps|reflexivity]
            | eapply branch_shape; [reflexivity| |exact E] ]
  | E : write_next _ _ _ = Some _ |- _ =>
      eapply write_shape; [| |reflexivity|reflexivity|exact E]; [eauto with keeps|];
      intros; eauto with keeps
  | E : POSSIBLY_HANDLE_PENDING_EXCEPTION _ _ _ _ _ = Some _ |- _ =>
      eapply possibly_shape; [|reflexivity|reflexivity|reflexivity|exact E]; eauto with keeps
  | E : throw_and_handle _ _ _ _ = Some _ |- _ =>
      eapply throw_shape; [|reflexivity|exact E]; eauto with keeps
  | E : HANDLE_PENDING_EXCEPTION _ _ _ = Some _ |- _ =>
      eapply shape_handler; [|reflexivity|exact E]; eauto with keeps
  end.

Section Groups.
Context {W : Type} `{Runtime W}.
Variables (do_access_check transaction_active : bool).
Variable code_item : Z.
Variables (force_invoke_flag insns_len_in_byte hash1 : Z).
Abbreviation shape := (step_shape do_access_check code_item force_invoke_flag).
Implicit Types (m : Machine W) (o : Outcome W).

Lemma move_shape c m o : ExecuteMove code_item c m = Some o -> shape c m o.
Proof.
  destruct c; try discriminate; unfold ExecuteMove; cbv zeta; intros E; step_inv; step_shape_tac.
Qed.

Lemma const_shape c m o : ExecuteConst do_access_check code_item c m = Some o -> shape c m o.
Proof.
  destruct c; try discriminate; unfold ExecuteConst; cbv zeta; intros E; step_inv; step_shape_tac.
Qed.

Lemma return_shape c m o : ExecuteReturn do_access_check code_item c m = Some o -> shape c m o.
Proof.
  destruct c; try discriminate; unfold ExecuteReturn, throw_and_handle; cbv zeta; intros E; step_inv.
  all: try (injection E as <-; eapply shape_return; [eauto with keeps|reflexivity]).
  all: match goal with
    | Hc : do_access_check && _ = true |- _ => apply andb_prop in Hc as [Hc _] end.
  all: match goal with
    | Hh : HANDLE_PENDING_EXCEPTION _ _ _ = Some ?x |- _ =>
        destruct (handle_cases _ _ _ _ Hh) as (t' & found & _ & Ho) end.
  all: destruct (found =? kDexNoIndex); subst; try discriminate; injection E as <-.
  1,2: by eapply shape_return_unwind; [..|eassumption]; [eauto with keeps| |].
  eapply shape_return; [apply keeps_refl|reflexivity].
Qed.

Lemma object_shape c m o :
  ExecuteObject do_access_check transaction_active code_item c m = Some o -> shape c m o.
Proof.
  destruct c; try discriminate; unfold ExecuteObject; cbv zeta; intros E; step_inv;
    try step_shape_tac.
Qed.

Lemma fill_shape c m o : ExecuteFill do_access_check transaction_active code_item c m = Some o -> shape c m o.
Proof.
  destruct c; try discriminate; unfold ExecuteFill; cbv zeta; intros E; step_inv; step_shape_tac.
Qed.

Lemma goto_shape c m o :
  Opcode (current code_item m) = c -> ExecuteGoto code_item c m = Some o -> shape c m o.
Proof.
  intros Hc. destruct c; try discriminate; unfold ExecuteGoto; cbv zeta; intros E; step_inv.
  1-3: eapply branch_shape; [reflexivity| |exact E]; unfold GetTargetOffset; by rewrite Hc.
  all: unfold relative in E; injection E as <-; by apply shape_switch.
Qed.

Lemma compare_shape c m o : ExecuteCompare code_item c m = Some o -> shape c m o.
Proof.
  destruct c; try discriminate; unfold ExecuteCompare; cbv zeta; intros E; step_inv; step_shape_tac.
Qed.

Lemma if_shape c m o :
  Opcode (current code_item m) = c -> ExecuteIf code_item c m = Some o -> shape c m o.
Proof.
  intros Hc. destruct c; try discriminate; unfold ExecuteIf; cbv zeta; intros E; step_inv.
  all: try (eapply branch_shape; [reflexivity| |exact E]; unfold GetTargetOffset; by rewrite Hc).
  all: step_shape_tac.
Qed.

Lemma ifz_shape c m o :
  Opcode (current code_item m) = c -> ExecuteIfZ code_item c m = Some o -> shape c m o.
Proof.
  intros Hc. destruct c; try discriminate; unfold ExecuteIfZ; cbv zeta; intros E; step_inv.
  all: try (eapply branch_shape; [reflexivity| |exact E]; unfold GetTargetOffset; by rewrite Hc).
  all: step_shape_tac.
Qed.

Lemma aget_shape c m o : ExecuteAGet code_item c m = Some o -> shape c m o.
Proof.
  destruct c; try discriminate; unfold ExecuteAGet, aget; cbv zeta; intros E; step_inv; step_shape_tac.
Qed.

Lemma aput_shape c m o : ExecuteAPut transaction_active code_item c m = Some o -> shape c m o.
Proof.
  destruct c; try discriminate; unfold ExecuteAPut, aput, aput_object; cbv zeta; intros E; step_inv; step_shape_tac.
Qed.

Lemma DoIntDivide_keeps f r a b (t : Thread W) f' t' ok :
  DoIntDivide f r a b t = Some (f', t', ok) -> keeps f f'.
Proof.
  unfold DoIntDivide. cbv zeta. intros E. step_inv; injection E as <- _ _; eauto with keeps.
Qed.

Lemma DoIntRemainder_keeps f r a b (t : Thread W) f' t' ok :
  DoIntRemainder f r a b t = Some (f', t', ok) -> keeps f f'.
Proof.
  unfold DoIntRemainder. cbv zeta. intros E. step_inv; injection E as <- _ _; eauto with keeps.
Qed.

Lemma DoLongDivide_keeps f r a b (t : Thread W) f' t' ok :
  DoLongDivide f r a b t = Some (f', t', ok) -> keeps f f'.
Proof.
  unfold DoLongDivide. cbv zeta. intros E. step_inv; injection E as <- _ _; eauto with keeps.
Qed.

Lemma DoLongRemainder_keeps f r a b (t : Thread W) f' t' ok :
  DoLongRemainder f r a b t = Some (f', t', ok) -> keeps f f'.
Proof.
  unfold DoLongRemainder. cbv zeta. intros E. step_inv; injection E as <- _ _; eauto with keeps.
Qed.

Lemma int_division_shape c m o k r :
  (forall f t ok, r = Some (f, t, ok) -> keeps (frame m) f) ->
  has_flag c kContinue = true -> has_flag c kThrow = true -> step_size c = k ->
  int_division code_item k r m = Some o -> shape c m o.
Proof.
  intros Hr Hf Ht Hk. unfold int_division. destruct r as [[[f t] ok]|]; [|done].
  cbn [mbind option_bind]. apply possibly_shape; try done.
  eapply same_place_trans; [apply same_place_frame; eauto|apply same_place_self].
Qed.

Lemma long_division_shape c m o k r :
  (forall f t ok, r = Some (f, t, ok) -> keeps (frame m) f) ->
  has_flag c kContinue = true -> has_flag c kThrow = true -> step_size c = k ->
  long_division code_item k r m = Some o -> shape c m o.
Proof.
  intros Hr Hf Ht Hk. unfold long_division. destruct r as [[[f t] ok]|]; [|done].
  cbn [mbind option_bind]. apply possibly_shape; try done.
  eapply same_place_trans; [apply same_place_frame; eauto|apply same_place_self].
Qed.

Ltac division_tac :=
  match goal with
  | E : int_division _ _ _ _ = Some _ |- _ =>
      eapply int_division_shape; [|reflexivity|reflexivity|reflexivity|exact E]
  | E : long_division _ _ _ _ = Some _ |- _ =>
      eapply long_division_shape; [|reflexivity|reflexivity|reflexivity|exact E]
  end; intros; eauto using DoIntDivide_keeps, DoIntRemainder_keeps, DoLongDivide_keeps,
    DoLongRemainder_keeps.

Lemma unary_shape c m o : ExecuteUnary code_item c m = Some o -> shape c m o.
Proof.
  destruct c; try discriminate; unfold ExecuteUnary; cbv zeta; intros E; step_inv;
    step_shape_tac || division_tac.
Qed.

Lemma int_shape c m o : ExecuteInt code_item c m = Some o -> shape c m o.
Proof.
  destruct c; try discriminate; unfold ExecuteInt; cbv zeta; intros E; step_inv;
    step_shape_tac || division_tac.
Qed.

Lemma long_shape c m o : ExecuteLong code_item c m = Some o -> shape c m o.
Proof.
  destruct c; try discriminate; unfold ExecuteLong; cbv zeta; intros E; step_inv;
    step_shape_tac || division_tac.
Qed.

Lemma float_shape c m o : ExecuteFloat code_item c m = Some o -> shape c m o.
Proof.
  destruct c; try discriminate; unfold ExecuteFloat; cbv zeta; intros E; step_inv;
    step_shape_tac || division_tac.
Qed.

Lemma int2_shape c m o : ExecuteInt2Addr code_item c m = Some o -> shape c m o.
Proof.
  destruct c; try discriminate; unfold ExecuteInt2Addr; cbv zeta; intros E; step_inv;
    step_shape_tac || division_tac.
Qed.

Lemma long2_shape c m o : ExecuteLong2Addr code_item c m = Some o -> shape c m o.
Proof.
  destruct c; try discriminate; unfold ExecuteLong2Addr; cbv zeta; intros E; step_inv;
    step_shape_tac || division_tac.
Qed.

Lemma float2_shape c m o : ExecuteFloat2Addr code_item c m = Some o -> shape c m o.
Proof.
  destruct c; try discriminate; unfold ExecuteFloat2Addr; cbv zeta; intros E; step_inv;
    step_shape_tac || division_tac.
Qed.

Lemma lit_shape c m o : ExecuteLit code_item c m = Some o -> shape c m o.
Proof.
  destruct c; try discriminate; unfold ExecuteLit; cbv zeta; intros E; step_inv;
    step_shape_tac || division_tac.
Qed.

Lemma DoFieldGet_place find_type t m m' ok :
  DoFieldGet do_access_check code_item find_type t m = Some (m', ok) -> same_place m m'.
Proof.
  unfold DoFieldGet, CheckPending. cbv zeta. intros E. step_inv; injection E as <- <-; eauto with keeps.
  all: eapply same_place_trans; [apply same_place_self|apply same_place_frame; eauto with keeps].
Qed.

Lemma DoFieldPut_place find_type t m m' ok :
  DoFieldPut do_access_check transaction_active code_item find_type t m = Some (m', ok) ->
  same_place m m'.
Proof.
  unfold DoFieldPut, CheckPending. cbv zeta. intros E. step_inv; injection E as <- <-; eauto with keeps.
Qed.

Lemma DoIGetQuick_place t m m' ok :
  DoIGetQuick code_item t m = Some (m', ok) -> same_place m m'.
Proof.
  unfold DoIGetQuick. cbv zeta. intros E. step_inv; injection E as <- <-; eauto with keeps.
Qed.

Lemma DoIPutQuick_place t m m' ok :
  DoIPutQuick transaction_active code_item t m = Some (m', ok) -> same_place m m'.
Proof.
  unfold DoIPutQuick. cbv zeta. intros E. step_inv; injection E as <- <-; eauto with keeps.
Qed.

Lemma field_shape c m o r :
  (forall m' ok, r = Some (m', ok) -> same_place m m') ->
  has_flag c kContinue = true -> has_flag c kThrow = true -> step_size c = 2 ->
  field_step code_item (inst m) r = Some o -> shape c m o.
Proof.
  intros Hr Hf Ht Hk. unfold field_step. destruct r as [[m' ok]|]; [|done].
  cbn [mbind option_bind]. apply possibly_shape; eauto.
Qed.

Lemma get_shape c m o : ExecuteGet do_access_check code_item c m = Some o -> shape c m o.
Proof.
  destruct c; try discriminate; unfold ExecuteGet; cbv zeta;
    (apply field_shape; [|reflexivity|reflexivity|reflexivity]);
    eauto using DoFieldGet_place, DoIGetQuick_place.
Qed.

Lemma put_shape c m o :
  ExecutePut do_access_check transaction_active code_item c m = Some o -> shape c m o.
Proof.
  destruct c; try discriminate; unfold ExecutePut; cbv zeta;
    (apply field_shape; [|reflexivity|reflexivity|reflexivity]);
    eauto using DoFieldPut_place, DoIPutQuick_place.
Qed.

Lemma invoke_shape c m o :
  ExecuteInvoke do_access_check code_item force_invoke_flag insns_len_in_byte hash1 c m = Some o ->
  shape c m o.
Proof.
  destruct c; try discriminate; unfold ExecuteInvoke; cbv zeta; intros E; step_inv;
    try step_shape_tac.
  injection E as <-. match goal with Hb : _ && _ = true |- _ => apply andb_prop in Hb as [Hb _] end.
  apply shape_new_code; [apply same_place_invoke; eauto with keeps|done|by apply Z.eqb_eq].
Qed.

(** Every group. *)
Lemma group_shape c m o :
  Opcode (current code_item m) = c ->
  group_of do_access_check transaction_active code_item force_invoke_flag insns_len_in_byte hash1
    c c m = Some o -> shape c m o.
Proof.
  intros Hc. unfold group_of.
  repeat match goal with
  | |- (if ?b then _ else _) _ _ = _ -> _ => destruct b
  end; eauto using move_shape, return_shape, const_shape, object_shape, fill_shape, goto_shape,
    compare_shape, if_shape, ifz_shape, aget_shape, aput_shape, get_shape, put_shape, invoke_shape,
    unary_shape, int_shape, long_shape, float_shape, int2_shape, long2_shape, float2_shape, lit_shape.
  discriminate.
Qed.
End Groups.

(** ** Steps and runs *)

Definition machine_of {W} (o : Outcome W) : Machine W :=
  match o with Continue m | Return _ m | Unwind m | NewCodeItem _ m => m end.

Section Runs.
Context {W : Type} `{Runtime W}.
Variables (do_access_check transaction_active : bool).
Variable code_item : Z.
Variables (force_invoke_flag insns_len_in_byte hash1 : Z).

Abbreviation step := (Step do_access_check transaction_active code_item force_invoke_flag
  insns_len_in_byte hash1).
Abbreviation loop := (Loop do_access_check transaction_active code_item force_invoke_flag
  insns_len_in_byte hash1).

(** The machine an instruction runs on: its position is recorded in the frame. *)
Definition at_instruction (m : Machine W) : Machine W :=
  set_frame (SetDexPC (u32 (inst m)) (frame m)) m.

Lemma step_shape_of m o :
  step m = Some o ->
  step_shape do_access_check code_item force_invoke_flag (Opcode (current code_item m))
    (at_instruction m) o /\
  0 <= inst m < insns_size_in_code_units_ (mem m) code_item.
Proof.
  unfold Step. destruct (Z.leb_spec 0 (inst m)), (Z.ltb_spec (inst m)
    (insns_size_in_code_units_ (mem m) code_item)); try discriminate. cbn [andb]. cbv zeta.
  intros E. split; [|lia]. exact (group_shape _ _ _ _ _ _ _ _ _ eq_refl E).
Qed.

(** Frames of the same method with the same registers. *)
Definition same_frame (f f' : ShadowFrame) : Prop :=
  number_of_vregs_ f' = number_of_vregs_ f /\ method_ f' = method_ f /\ link_ f' = link_ f.

Lemma keeps_at_instruction m f :
  keeps (frame (at_instruction m)) f ->
  (frame_ok (frame m) -> frame_ok f) /\ same_frame (frame m) f.
Proof. intros (H1 & H2 & H3 & H4 & _). split; [exact H1|by unfold same_frame; split_all]. Qed.

Lemma shape_keeps c m o :
  step_shape do_access_check code_item force_invoke_flag c m o ->
  keeps (frame m) (frame (machine_of o)).
Proof.
  destruct 1 as [m1 [Hk _] _|off _ _|off _|m1 o [Hk _] _ Hh|j m1 Hk _|m1 m2 [Hk _] _ _ Hh|m1 [Hk _] _ _];
    cbn; try done; try apply keeps_refl.
  - apply handle_cases in Hh as (t & found & _ & ->). by destruct (found =? kDexNoIndex).
  - apply handle_cases in Hh as (t & found & _ & E). destruct (found =? kDexNoIndex); [|done].
    by injection E as ->.
Qed.

Lemma step_keeps m o :
  step m = Some o ->
  (frame_ok (frame m) -> frame_ok (frame (machine_of o))) /\
  same_frame (frame m) (frame (machine_of o)).
Proof.
  intros E. apply step_shape_of in E as [Hs _]. by eapply keeps_at_instruction, shape_keeps.
Qed.

Lemma loop_keeps fuel m o :
  loop fuel m = Some o ->
  (frame_ok (frame m) -> frame_ok (frame (machine_of o))) /\
  same_frame (frame m) (frame (machine_of o)).
Proof.
  revert m. induction fuel as [|fuel IH]; intros m; cbn [Loop].
  - intros [= <-]. by split; [|unfold same_frame; split_all].
  - destruct (step m) as [o'|] eqn:E; [|done]. cbn [mbind option_bind].
    destruct (step_keeps m o' E) as [H1 (A1 & A2 & A3)].
    destruct o'; [|intros [= <-]; by split..]. intros E'.
    destruct (IH _ E') as [H2 (B1 & B2 & B3)]. cbn in *. split; [tauto|].
    unfold same_frame; split_all; congruence.
Qed.
End Runs.

(** ** Integer arithmetic of the language *)

Inductive binop := Add | Sub | Mul | Shl | Shr | Ushr | And | Or | Xor.

(** Java's operators on [w]-bit integers; the shift distance is taken modulo [w]. *)
Definition java_binop (w : Z) (op : binop) (a b : Z) : Z :=
  match op with
  | Add => s w (a + b)
  | Sub => s w (a - b)
  | Mul => s w (a * b)
  | Shl => s w (a * 2 ^ (b mod w))
  | Shr => a / 2 ^ (b mod w)
  | Ushr => s w (u w a / 2 ^ (b mod w))
  | And => Z.land a b
  | Or => Z.lor a b
  | Xor => Z.lxor a b
  end.

Lemma SafeMath_spec w op a b :
  0 < w -> (forall x y, u w (op (u w x) (u w y)) = u w (op x y)) ->
  SafeMath w op a b = s w (op a b).
Proof. intros Hw Hop. unfold SafeMath. rewrite Hop. by apply s_u. Qed.

Lemma SafeAdd_spec w a b : 0 < w -> SafeAdd w a b = s w (a + b).
Proof. intros Hw. apply SafeMath_spec; [done|]. intros. unfold u. by rewrite <- Zplus_mod. Qed.

Lemma SafeSub_spec w a b : 0 < w -> SafeSub w a b = s w (a - b).
Proof. intros Hw. apply SafeMath_spec; [done|]. intros. unfold u. by rewrite <- Zminus_mod. Qed.

Lemma SafeMul_spec w a b : 0 < w -> SafeMul w a b = s w (a * b).
Proof. intros Hw. apply SafeMath_spec; [done|]. intros. unfold u. by rewrite <- Zmult_mod. Qed.

Lemma enter_ok registers units : frame_ok (frame (enter registers units)).
Proof.
  unfold frame_ok, enter. cbn. rewrite !length_fmap. split_all; try done.
  - apply Forall_fmap, Forall_true. intros. by apply (u_range 32).
  - apply Forall_fmap, Forall_true. intros. vm_compute. by split.
  - intros i r Hr. left. apply list_lookup_fmap_Some in Hr as (? & <- & _). done.
Qed.
