(* ===== verification/InstructionSafety.v ===== *)
(** * Verified instructions run safely

    The checks of [InstructionTypes] against the instructions of [Interpreter]: after a check
    without a failure the interpreter finds every register it reads, and leaves a frame that
    the new register line describes. *)
From stdpp Require Import list gmap fin_maps.
From S2P Require Import Prelude.
From S2P Require Import Runtime.
From S2P Require Import ShadowFrame.
From S2P Require Import Floats.
From S2P Require Import Descriptors.
From S2P Require Import MirrorClass.
From S2P Require Import RegType.
From S2P Require Import RegTypeFacts.
From S2P Require Import CacheInvariant.
From S2P Require Import RegTypeSafety.
From S2P Require Import RegisterLine.
From S2P Require Import DexInstruction.
From S2P Require Import InstructionTypes.
From S2P Require Import FlowFacts.
From S2P Require Import FrameTypes.
From S2P Require Import TryCatch.
From S2P Require Import Interpreter.
From S2P Require Import InterpreterFacts.
Local Open Scope Z_scope.

Section Operands.
Context {CL : ClassLinker} {Laws : ClassLinkerLaws CL} {Obj : Objects} (opts : Options).

Definition narrow (f : ShadowFrame) (v : Z) : Prop := exists x, reg_at (vregs_ f) v = Some x.
Definition wide (f : ShadowFrame) (v : Z) : Prop := narrow f v /\ narrow f (v + 1).

(** Any value of the type [t] may be written to [v]. *)
Definition writes (s s' : VerifierState) (f : ShadowFrame) (j : JValue) (v : Z) (t : RegType) : Prop :=
  forall y, has_type (reg_types_ s) t (u32 y) 0 ->
    exists f', SetVReg f v y = Some f' /\ safe s' f' j.
Definition writes_wide (s' : VerifierState) (f : ShadowFrame) (j : JValue) (v : Z) : Prop :=
  forall y, exists f', SetVRegDouble f v y = Some f' /\ safe s' f' j.

(** The types of results: they allow every value. *)
Definition free (t : RegType) : Prop := t ∈ primitives /\ forall c v, has_type c t v 0.

Lemma free_type t : t ∈ [Integer; Float; LongLo; LongHi; DoubleLo; DoubleHi] -> free t.
Proof.
  intros H. repeat (apply elem_of_cons in H as [->|H]; [split; [|done]; unfold primitives;
    apply elem_of_app; left; rewrite !elem_of_cons; tauto|]). by apply elem_of_nil in H.
Qed.

Lemma small_type t : t ∈ [Boolean; Byte; Short; Char] -> t ∈ primitives.
Proof.
  intros H. unfold primitives. apply elem_of_app. left. revert H. rewrite !elem_of_cons. tauto.
Qed.

Lemma reg_narrow s f j v t : safe s f j -> reg_is s v t -> narrow f v.
Proof. intros Hs Hv. destruct (safe_reg s f j v t Hs Hv) as (x & r & H & _). by exists x. Qed.

Lemma verify_narrow s f j v t b s' : safe s f j -> clean (VerifyRegisterType opts v t) s b s' ->
  b = true /\ s' = s /\ narrow f v.
Proof.
  intros Hs (-> & -> & src & Hsrc & _)%clean_verify. split; [done|]. split; [done|].
  by eapply reg_narrow.
Qed.

Lemma verify_wide s f j v t1 t2 b s' : safe s f j -> clean (VerifyRegisterTypeWide opts v t1 t2) s b s' ->
  b = true /\ s' = s /\ wide f v.
Proof.
  intros Hs (-> & -> & src & h & Hsrc & Hh & _)%clean_verify_wide. split; [done|]. split; [done|].
  split; by eapply reg_narrow.
Qed.

Lemma set_writes s f j v t b s' : safe s f j -> t ∈ primitives -> clean (SetRegisterType opts v t) s b s' ->
  writes s s' f j v t.
Proof.
  intros Hs Ht (-> & Hsets & _)%clean_set y Hy. eapply safe_set; try done.
  apply primitive_entry; [apply Hs|done].
Qed.

Lemma set_writes_wide s f j v t1 t2 b s' : safe s f j -> free t1 -> free t2 ->
  clean (SetRegisterTypeWide opts v t1 t2) s b s' -> writes_wide s' f j v.
Proof.
  intros Hs (Ht1 & Hf1) (Ht2 & Hf2) (-> & Hsets & _)%clean_set_wide y.
  eapply safe_set_double; try done; (apply primitive_entry; [apply Hs|done]).
Qed.

Lemma boolean_value s f j v t : safe s f j -> reg_is s v t -> IsBooleanTypes t = true ->
  exists x, reg_at (vregs_ f) v = Some x /\ 0 <= s32 x <= 1.
Proof.
  intros Hs Hv Ht. destruct (safe_reg s f j v t Hs Hv) as (x & r & Hx & _ & _ & _ & _ & Hty).
  exists x. split; [done|]. apply (boolean_range t x r Ht). rewrite has_type_base in Hty; [done|].
  by kinds t.
Qed.

(** ** The checks of operands *)

(** What a check that passed has read. *)
Local Ltac checked :=
  match goal with
  | Hs : safe ?s _ _, H : clean (VerifyRegisterType _ _ _) ?s _ _ |- _ =>
      apply (verify_narrow _ _ _ _ _ _ _ Hs) in H as (? & -> & ?); try done
  | Hs : safe ?s _ _, H : clean (VerifyRegisterTypeWide _ _ _ _) ?s _ _ |- _ =>
      apply (verify_wide _ _ _ _ _ _ _ _ Hs) in H as (? & -> & ?); try done
  end.

Lemma unary_safe inst dst src s f j s' : safe s f j -> dst ∈ primitives ->
  clean (CheckUnaryOp opts inst dst src) s () s' ->
  narrow f (VRegB_12x inst) /\ writes s s' f j (VRegA_12x inst) dst.
Proof.
  unfold CheckUnaryOp. intros Hs Hd H. clean_inv; checked. split; [done|]. by eapply set_writes.
Qed.

Lemma unary_wide_safe inst d1 d2 t1 t2 s f j s' : safe s f j -> free d1 -> free d2 ->
  clean (CheckUnaryOpWide opts inst d1 d2 t1 t2) s () s' ->
  wide f (VRegB_12x inst) /\ writes_wide s' f j (VRegA_12x inst).
Proof.
  unfold CheckUnaryOpWide. intros Hs Hd1 Hd2 H. clean_inv; checked. split; [done|].
  by apply (set_writes_wide s _ _ _ d1 d2 y0).
Qed.

Lemma unary_to_wide_safe inst d1 d2 t s f j s' : safe s f j -> free d1 -> free d2 ->
  clean (CheckUnaryOpToWide opts inst d1 d2 t) s () s' ->
  narrow f (VRegB_12x inst) /\ writes_wide s' f j (VRegA_12x inst).
Proof.
  unfold CheckUnaryOpToWide. intros Hs Hd1 Hd2 H. clean_inv; checked. split; [done|].
  by apply (set_writes_wide s _ _ _ d1 d2 y0).
Qed.

Lemma unary_from_wide_safe inst dst t1 t2 s f j s' : safe s f j -> dst ∈ primitives ->
  clean (CheckUnaryOpFromWide opts inst dst t1 t2) s () s' ->
  wide f (VRegB_12x inst) /\ writes s s' f j (VRegA_12x inst) dst.
Proof.
  unfold CheckUnaryOpFromWide. intros Hs Hd H. clean_inv; checked. split; [done|]. by eapply set_writes.
Qed.

(** Two operands, and booleans when the operation keeps them. *)
Definition operands (f : ShadowFrame) (v w : Z) (booleans : bool) : Prop :=
  exists x y, reg_at (vregs_ f) v = Some x /\ reg_at (vregs_ f) w = Some y /\
    (booleans = true -> 0 <= s32 x <= 1 /\ 0 <= s32 y <= 1).

Lemma both_booleans s f j v w b s' : safe s f j ->
  clean (both (has_boolean v) (has_boolean w)) s b s' -> narrow f v -> narrow f w ->
  s' = s /\ operands f v w b.
Proof.
  intros Hs (x & s1 & (-> & t & Ht & ->)%clean_has_boolean & Hyes & Hno)%clean_both (y & Hy) (z & Hz);
    [|apply appends_has_boolean..].
  destruct (IsBooleanTypes t) eqn:E.
  - destruct (clean_has_boolean _ _ _ _ (Hyes eq_refl)) as (-> & t' & Ht' & ->). split; [done|].
    exists y, z. split; [done|]. split; [done|]. intros E'.
    destruct (boolean_value s f j v t Hs Ht E) as (y' & Hy' & ?).
    destruct (boolean_value s f j w t' Hs Ht' E') as (z' & Hz' & ?). split; congruence.
  - destruct (Hno eq_refl) as (-> & ->). split; [done|]. by exists y, z.
Qed.

Lemma both_narrow s f j v w t t' b s' : safe s f j ->
  clean (both (VerifyRegisterType opts v t) (VerifyRegisterType opts w t')) s b s' ->
  b = true /\ s' = s /\ narrow f v /\ narrow f w.
Proof.
  intros Hs (x & s1 & Hx & Hyes & _)%clean_both; [|auto with appends..].
  destruct (verify_narrow _ _ _ _ _ _ _ Hs Hx) as (-> & -> & Hv).
  destruct (verify_narrow _ _ _ _ _ _ _ Hs (Hyes eq_refl)) as (-> & -> & Hw). done.
Qed.

Lemma both_wide s f j v w t1 t2 t1' t2' b s' : safe s f j ->
  clean (both (VerifyRegisterTypeWide opts v t1 t2) (VerifyRegisterTypeWide opts w t1' t2')) s b s' ->
  b = true /\ s' = s /\ wide f v /\ wide f w.
Proof.
  intros Hs (x & s1 & Hx & Hyes & _)%clean_both; [|auto with appends..].
  destruct (verify_wide _ _ _ _ _ _ _ _ Hs Hx) as (-> & -> & Hv).
  destruct (verify_wide _ _ _ _ _ _ _ _ Hs (Hyes eq_refl)) as (-> & -> & Hw). done.
Qed.

Lemma both_shift s f j v w t1 t2 t' b s' : safe s f j ->
  clean (both (VerifyRegisterTypeWide opts v t1 t2) (VerifyRegisterType opts w t')) s b s' ->
  b = true /\ s' = s /\ wide f v /\ narrow f w.
Proof.
  intros Hs (x & s1 & Hx & Hyes & _)%clean_both; [|auto with appends..].
  destruct (verify_wide _ _ _ _ _ _ _ _ Hs Hx) as (-> & -> & Hv).
  destruct (verify_narrow _ _ _ _ _ _ _ Hs (Hyes eq_refl)) as (-> & -> & Hw). done.
Qed.

(** The type of a result that stays boolean. *)
Definition result_type (booleans : bool) (dst : RegType) : RegType := if booleans then Boolean else dst.

Definition binary_result (s s' : VerifierState) (f : ShadowFrame) (j : JValue) (a v w : Z)
  (dst : RegType) (check_boolean_op : bool) : Prop :=
  exists b, operands f v w b /\ (b = true -> check_boolean_op = true) /\
    writes s s' f j a (result_type b dst).

Lemma booleans_result (check : bool) dst s f j a v w s' : safe s f j -> dst ∈ primitives ->
  narrow f v -> narrow f w ->
  clean (booleans ← (if check then both (has_boolean v) (has_boolean w) else mret false);
         if (booleans : bool) then _ ← SetRegisterType opts a Boolean; mret ()
         else _ ← SetRegisterType opts a dst; mret ()) s () s' ->
  binary_result s s' f j a v w dst check.
Proof.
  intros Hs Hd Hv Hw H. apply clean_bind in H as (b & s1 & Hb & H); [|destruct check; appends_tac|
    intros []; appends_tac].
  assert (Hread : s1 = s /\ operands f v w b /\ (b = true -> check = true)).
  { destruct check.
    - destruct (both_booleans s f j v w b s1 Hs Hb Hv Hw) as (-> & ?). done.
    - apply clean_ret in Hb as (-> & ->). destruct Hv as (x & Hx), Hw as (y & Hy).
      split; [done|]. split; [|done]. by exists x, y. }
  destruct Hread as (-> & Hops & Hc). exists b. split; [done|]. split; [done|].
  destruct b; clean_inv; eapply set_writes; try done. apply small_type. left.
Qed.

Lemma binary_safe inst dst t1 t2 check s f j s' : safe s f j -> dst ∈ primitives ->
  clean (CheckBinaryOp opts inst dst t1 t2 check) s () s' ->
  binary_result s s' f j (VRegA_23x inst) (VRegB_23x inst) (VRegC_23x inst) dst check.
Proof.
  unfold CheckBinaryOp. cbv zeta. intros Hs Hd H.
  apply clean_bind in H as (ok & s1 & Hok & H); [|auto with appends|intros []; appends_tac].
  destruct (both_narrow s f j _ _ _ _ _ _ Hs Hok) as (-> & -> & Hv & Hw).
  by apply booleans_result.
Qed.

Lemma binary2_safe inst dst t1 t2 check s f j s' : safe s f j -> dst ∈ primitives ->
  clean (CheckBinaryOp2addr opts inst dst t1 t2 check) s () s' ->
  binary_result s s' f j (VRegA_12x inst) (VRegA_12x inst) (VRegB_12x inst) dst check.
Proof.
  unfold CheckBinaryOp2addr. cbv zeta. intros Hs Hd H.
  apply clean_bind in H as (ok & s1 & Hok & H); [|auto with appends|intros []; appends_tac].
  destruct (both_narrow s f j _ _ _ _ _ _ Hs Hok) as (-> & -> & Hv & Hw).
  by apply booleans_result.
Qed.

Lemma binary_wide_safe inst d1 d2 t1 t2 t1' t2' s f j s' : safe s f j -> free d1 -> free d2 ->
  clean (CheckBinaryOpWide opts inst d1 d2 t1 t2 t1' t2') s () s' ->
  wide f (VRegB_23x inst) /\ wide f (VRegC_23x inst) /\ writes_wide s' f j (VRegA_23x inst).
Proof.
  unfold CheckBinaryOpWide. intros Hs Hd1 Hd2 H.
  apply clean_bind in H as (ok & s1 & Hok & H); [|auto with appends|intros []; appends_tac].
  destruct (both_wide s f j _ _ _ _ _ _ _ _ Hs Hok) as (-> & -> & Hv & Hw). clean_inv.
  split; [done|]. split; [done|]. by apply (set_writes_wide s _ _ _ d1 d2 y).
Qed.

Lemma binary2_wide_safe inst d1 d2 t1 t2 t1' t2' s f j s' : safe s f j -> free d1 -> free d2 ->
  clean (CheckBinaryOp2addrWide opts inst d1 d2 t1 t2 t1' t2') s () s' ->
  wide f (VRegA_12x inst) /\ wide f (VRegB_12x inst) /\ writes_wide s' f j (VRegA_12x inst).
Proof.
  unfold CheckBinaryOp2addrWide. cbv zeta. intros Hs Hd1 Hd2 H.
  apply clean_bind in H as (ok & s1 & Hok & H); [|auto with appends|intros []; appends_tac].
  destruct (both_wide s f j _ _ _ _ _ _ _ _ Hs Hok) as (-> & -> & Hv & Hw). clean_inv.
  split; [done|]. split; [done|]. by apply (set_writes_wide s _ _ _ d1 d2 y).
Qed.

Lemma shift_safe inst t1 t2 t s f j s' : safe s f j -> free t1 -> free t2 ->
  clean (CheckBinaryOpWideShift opts inst t1 t2 t) s () s' ->
  wide f (VRegB_23x inst) /\ narrow f (VRegC_23x inst) /\ writes_wide s' f j (VRegA_23x inst).
Proof.
  unfold CheckBinaryOpWideShift. intros Hs Hd1 Hd2 H.
  apply clean_bind in H as (ok & s1 & Hok & H); [|auto with appends|intros []; appends_tac].
  destruct (both_shift s f j _ _ _ _ _ _ _ Hs Hok) as (-> & -> & Hv & Hw). clean_inv.
  split; [done|]. split; [done|]. by apply (set_writes_wide s _ _ _ t1 t2 y).
Qed.

Lemma shift2_safe inst t1 t2 t s f j s' : safe s f j -> free t1 -> free t2 ->
  clean (CheckBinaryOp2addrWideShift opts inst t1 t2 t) s () s' ->
  wide f (VRegA_12x inst) /\ narrow f (VRegB_12x inst) /\ writes_wide s' f j (VRegA_12x inst).
Proof.
  unfold CheckBinaryOp2addrWideShift. cbv zeta. intros Hs Hd1 Hd2 H.
  apply clean_bind in H as (ok & s1 & Hok & H); [|auto with appends|intros []; appends_tac].
  destruct (both_shift s f j _ _ _ _ _ _ _ Hs Hok) as (-> & -> & Hv & Hw). clean_inv.
  split; [done|]. split; [done|]. by apply (set_writes_wide s _ _ _ t1 t2 y).
Qed.

(** A literal operand: booleans stay booleans with 0 and 1. *)
Definition literal_result (s s' : VerifierState) (f : ShadowFrame) (j : JValue) (a v val : Z)
  (dst : RegType) (check_boolean_op : bool) : Prop :=
  exists x (b : bool), reg_at (vregs_ f) v = Some x /\
    (b = true -> check_boolean_op = true /\ 0 <= s32 x <= 1 /\ (u32 val = 0 \/ u32 val = 1)) /\
    writes s s' f j a (result_type b dst).

Lemma literal_safe inst dst t check is_lit16 s f j s' : safe s f j -> dst ∈ primitives ->
  clean (CheckLiteralOp opts inst dst t check is_lit16) s () s' ->
  literal_result s s' f j (if is_lit16 then VRegA_22s inst else VRegA_22b inst)
    (if is_lit16 then VRegB_22s inst else VRegB_22b inst)
    (if is_lit16 then VRegC_22s inst else VRegC_22b inst) dst check.
Proof.
  unfold CheckLiteralOp. cbv zeta. set (a := if is_lit16 then VRegA_22s inst else _).
  set (v := if is_lit16 then VRegB_22s inst else _). set (val := if is_lit16 then VRegC_22s inst else _).
  intros Hs Hd H. apply clean_bind in H as (ok & s1 & Hok & H); [|auto with appends|
    intros []; destruct check; appends_tac].
  destruct (verify_narrow s f j _ _ _ _ Hs Hok) as (-> & -> & (x & Hx)).
  apply clean_bind in H as (b & s1 & Hb & H); [|destruct check; appends_tac|intros ?; appends_tac].
  assert (Hread : s1 = s /\ (b = true -> check = true /\ 0 <= s32 x <= 1)).
  { destruct check.
    - apply clean_has_boolean in Hb as (-> & t' & Ht' & ->). split; [done|]. intros E.
      destruct (boolean_value s f j v t' Hs Ht' E) as (x' & Hx' & ?). split; congruence.
    - apply clean_ret in Hb as (-> & ->). done. }
  clear Hb. destruct Hread as (-> & Hb'). exists x. destruct (b && ((u32 val =? 0) || (u32 val =? 1))) eqn:E.
  - exists true. split; [done|]. apply andb_true_iff in E as (-> & E).
    rewrite orb_true_iff, !Z.eqb_eq in E. split; [intros _; by destruct (Hb' eq_refl)|].
    clean_inv. eapply set_writes; try done. apply small_type. left.
  - exists false. split; [done|]. split; [done|]. clean_inv. by eapply set_writes.
Qed.

(** ** Copies *)

Lemma clean_copy1 v w cat s s' : clean (CopyRegister1 opts v w cat) s () s' ->
  exists t, reg_is s w t /\ sets s s' v t /\
    (IsConflict t = true \/
     (is_cat cat kTypeCategory1nr = true -> IsCategory1Types t = true) /\
     (is_cat cat kTypeCategoryRef = true -> IsReferenceTypes t = true)).
Proof.
  unfold CopyRegister1. intros H.
  apply clean_bind in H as (t & s1 & (-> & Ht)%clean_get & H); [|auto with appends|intros ?; appends_tac].
  apply clean_bind in H as (b & s1 & (-> & Hsets & _)%clean_set & H); [|auto with appends|intros ?; appends_tac].
  cbn [negb] in H. destruct (_ && _) eqn:E in H; [by apply Fail_not_clean in H|].
  exists t. split; [done|].
  assert (Hcat : IsConflict t = true \/
     (is_cat cat kTypeCategory1nr = true -> IsCategory1Types t = true) /\
     (is_cat cat kTypeCategoryRef = true -> IsReferenceTypes t = true)).
  { destruct (IsConflict t); [by left|right]. cbn [negb andb] in E. apply orb_false_iff in E as (E1 & E2).
    split; intros Hc; rewrite Hc in *; [by apply negb_false_iff in E1|by apply negb_false_iff in E2]. }
  split; [|done]. destruct (is_cat cat kTypeCategoryRef); clean_inv; [|done].
  apply clean_get_line in H0 as (-> & ->). destruct H as [[= <-] _].
  destruct Hsets as (? & ? & ? & ?). unfold sets, result_of, line_of, CopyRegToLockDepth in *.
  by destruct (reg_to_lock_depths_ (work_line_ s1) !! w).
Qed.

Lemma clean_copy2 v w s s' : clean (CopyRegister2 opts v w) s () s' ->
  exists t h, reg_is s w t /\ reg_is s (w + 1) h /\ CheckWidePair t h = true /\ sets_wide s s' v t h.
Proof.
  unfold CopyRegister2. intros H. clean_inv. apply clean_get in H0 as (-> & H0).
  apply clean_get in H1 as (-> & H1). apply negb_false_iff in Heqb.
  apply clean_set_wide in H2 as (-> & H2 & _). eauto 8.
Qed.

Lemma u32_of x y : is_u 32 x -> is_u 32 y ->
  u32 (s64 (x + 2 ^ 32 * y)) = x /\ u32 (s64 (x + 2 ^ 32 * y) ≫ 32) = y.
Proof.
  intros Hx Hy. rewrite Z.shiftr_div_pow2 by lia. revert Hx Hy. split; word_lia.
Qed.

Lemma copy1_safe v w s f j s' : safe s f j -> clean (CopyRegister1 opts v w kTypeCategory1nr) s () s' ->
  exists x f', GetVReg f w = Some x /\ SetVReg f v x = Some f' /\ safe s' f' j.
Proof.
  intros Hs (t & Hw & Hsets & Ht)%clean_copy1. destruct (safe_reg s f j w t Hs Hw) as (x & r & Hx & _ & Hu & _ & He & Hty).
  exists (s32 x). unfold GetVReg. rewrite Hx.
  destruct (safe_set s s' v t f j (s32 x) Hs Hsets He) as (f' & ? & ?); [|by exists f'].
  rewrite u_s, u_small by (done || lia). eapply category1_value, Hty. destruct Ht as [?|(Ht & _)]; auto.
Qed.

Lemma copy_ref_safe v w s f j s' : safe s f j -> clean (CopyRegister1 opts v w kTypeCategoryRef) s () s' ->
  exists x f', GetVRegReference f w = Some x /\ SetVRegReference f v x = Some f' /\ safe s' f' j.
Proof.
  intros Hs (t & Hw & Hsets & Ht)%clean_copy1.
  destruct (safe_reg s f j w t Hs Hw) as (x & r & _ & Hr & Hu & Hrx & He & Hty).
  exists r. unfold GetVRegReference. rewrite Hr.
  assert (Hur : is_u 32 r) by (destruct Hrx as [->| ->]; [by split|done]).
  destruct (safe_set_reference s s' v t f j r Hs Hsets He) as (f' & ? & ?); [|by exists f'].
  rewrite u_small by done. eapply reference_value, Hty; [apply Hs|done|]. destruct Ht as [?|(_ & Ht)]; auto.
Qed.

Lemma copy2_safe v w s f j s' : safe s f j -> clean (CopyRegister2 opts v w) s () s' ->
  exists x f', GetVRegLong f w = Some x /\ SetVRegLong f v x = Some f' /\ safe s' f' j.
Proof.
  intros Hs (t & h & Hw & Hw' & Hp & Hsets)%clean_copy2.
  destruct (safe_reg s f j w t Hs Hw) as (x & r & Hx & _ & Hu & _ & He & Hty).
  destruct (safe_reg s f j _ h Hs Hw') as (y & r' & Hy & _ & Hu' & _ & He' & Hty').
  destruct (wide_pair_halves t h Hp) as (Ht & Hh). destruct (u32_of x y Hu Hu') as (E1 & E2).
  exists (s64 (x + 2 ^ 32 * y)). unfold GetVRegLong, GetVRegDouble. rewrite Hx, Hy.
  destruct (safe_set_long s s' v t h f j (s64 (x + 2 ^ 32 * y)) Hs Hsets He He') as (f' & ? & ?);
    [..|by exists f'].
  - rewrite E1. by eapply wide_half_value.
  - rewrite E2. by eapply wide_half_value.
Qed.

Lemma clean_with_cache f s t s' : clean (with_cache f) s t s' ->
  exists c, f (reg_types_ s) = Some (c, t) /\ s' = set_cache c s.
Proof.
  intros [E _]. unfold with_cache in E. destruct (f (reg_types_ s)) as [[c e]|]; [|done].
  injection E as <- <-. by exists c.
Qed.

Lemma clean_result1 v is_reference s s' : clean (CopyResultRegister1 opts v is_reference) s () s' ->
  exists t s1, GetFromId (reg_types_ s) (fst (result_of s)) = Some t /\ sets s s1 v t /\
    (if is_reference then IsReferenceTypes t else IsCategory1Types t) = true /\
    reg_types_ s' = reg_types_ s1 /\ line_of s' = line_of s1 /\
    result_of s' = (GetId Undefined, snd (result_of s1)).
Proof.
  unfold CopyResultRegister1. intros H.
  apply clean_bind in H as (l & s1 & Hl & H); [|auto with appends|intros ?; appends_tac].
  apply clean_get_line in Hl as (-> & ->).
  apply clean_bind in H as (c & s1 & [Hc _] & H); [|auto with appends|intros ?; appends_tac].
  injection Hc as <- <-.
  apply clean_bind in H as (t & s2 & Ht & H); [|auto with appends|intros ?; appends_tac].
  apply clean_require in Ht as (Ht & ->).
  destruct (_ || _) eqn:E in H; [by apply Fail_not_clean in H|]. clean_inv.
  apply clean_set in H0 as (-> & Hsets & _). apply clean_get_line in H1 as (-> & ->).
  destruct H as [[= <-] _]. exists t, s0. split_and!; try done.
  apply orb_false_iff in E as (E1 & E2). destruct is_reference; cbn [negb andb] in *; by apply negb_false_iff.
Qed.

Lemma clean_result2 v s s' : clean (CopyResultRegister2 opts v) s () s' ->
  exists t h s1, GetFromId (reg_types_ s) (fst (result_of s)) = Some t /\
    GetFromId (reg_types_ s) (snd (result_of s)) = Some h /\ sets_wide s s1 v t h /\ IsLowHalf t = true /\
    reg_types_ s' = reg_types_ s1 /\ line_of s' = line_of s1 /\
    result_of s' = (GetId Undefined, GetId Undefined).
Proof.
  unfold CopyResultRegister2. intros H.
  apply clean_bind in H as (l & s1 & Hl & H); [|auto with appends|intros ?; appends_tac].
  apply clean_get_line in Hl as (-> & ->).
  apply clean_bind in H as (c & s1 & [Hc _] & H); [|auto with appends|intros ?; appends_tac].
  injection Hc as <- <-.
  apply clean_bind in H as (t & s2 & Ht & H); [|auto with appends|intros ?; appends_tac].
  apply clean_require in Ht as (Ht & ->).
  apply clean_bind in H as (h & s2 & Hh & H); [|auto with appends|intros ?; appends_tac].
  apply clean_require in Hh as (Hh & ->).
  destruct (negb _) eqn:E in H; [by apply Fail_not_clean in H|]. clean_inv.
  apply clean_set_wide in H0 as (-> & Hsets & _). apply clean_get_line in H1 as (-> & ->).
  destruct H as [[= <-] _]. exists t, h, s0. apply negb_false_iff in E. by split_and!.
Qed.

Lemma entry_of_id c id t : GetFromId c id = Some t -> is_entry c t.
Proof. intros H. by exists (Z.to_nat id). Qed.

Lemma result1_safe v s f j s' : safe s f j -> clean (CopyResultRegister1 opts v false) s () s' ->
  exists f', SetVReg f v (GetI j) = Some f' /\ safe s' f' j.
Proof.
  intros Hs (t & s1 & Ht & Hsets & Hcat & Ec & El & Er)%clean_result1.
  destruct (safe_set s s1 v t f j (GetI j) Hs Hsets (entry_of_id _ _ _ Ht)) as (f' & Hf & Hs1).
  { destruct Hs as (_ & _ & (t' & h & Ht' & _ & H1 & H2 & _)). assert (t' = t) as -> by congruence.
    destruct (IsReferenceTypes t); [|auto]. destruct (H1 eq_refl) as (Hu & Hty).
    apply (category1_value _ t _ (GetL j)); [by left|].
    replace (u32 (GetI j)) with (GetL j); [done|]. revert Hu. unfold GetL, GetI. word_lia. }
  exists f'. split; [done|]. eapply (safe_no_result s1); try done. by left.
Qed.

Lemma result_ref_safe v s f j s' : safe s f j -> clean (CopyResultRegister1 opts v true) s () s' ->
  exists f', SetVRegReference f v (GetL j) = Some f' /\ safe s' f' j.
Proof.
  intros Hs (t & s1 & Ht & Hsets & Hcat & Ec & El & Er)%clean_result1.
  destruct (safe_set_reference s s1 v t f j (GetL j) Hs Hsets (entry_of_id _ _ _ Ht)) as (f' & Hf & Hs1).
  { destruct Hs as (_ & _ & (t' & h & Ht' & _ & H1 & H2 & _)). assert (t' = t) as -> by congruence.
    destruct (H1 Hcat) as (Hu & Hty). by rewrite u_small. }
  exists f'. split; [done|]. eapply (safe_no_result s1); try done. by left.
Qed.

Lemma result2_safe v s f j s' : safe s f j -> clean (CopyResultRegister2 opts v) s () s' ->
  exists f', SetVRegLong f v (GetJ j) = Some f' /\ safe s' f' j.
Proof.
  intros Hs (t & h & s1 & Ht & Hh & Hsets & Hlow & Ec & El & Er)%clean_result2.
  destruct (safe_set_long s s1 v t h f j (GetJ j) Hs Hsets (entry_of_id _ _ _ Ht) (entry_of_id _ _ _ Hh))
    as (f' & Hf & Hs1).
  1,2: destruct Hs as (_ & _ & (t' & h' & Ht' & Hh' & _ & _ & H3)); assert (t' = t) as -> by congruence;
    assert (h' = h) as -> by congruence; by destruct (H3 Hlow).
  exists f'. split; [done|]. eapply (safe_no_result s1); try done. by right.
Qed.

(** ** Constants *)

Lemma DetermineCat1Constant_outcome v precise c : cache_ok c -> room 1 c -> is_s 32 v ->
  outcome 1 c (DetermineCat1Constant v precise c) (fun c' t => has_type c' t (u32 v) 0).
Proof.
  intros Hok Hroom Hv. unfold DetermineCat1Constant. destruct precise.
  { eapply outcome_weaken; [done| |by apply (FromCat1Const_outcome v true)]. cbn beta. intros c' t _ _ _ Hk.
    apply const_has_type. right. by rewrite s32_u32. }
  assert (Hrange : forall k, is_s 32 k -> imprecise_range k v ->
    outcome 1 c (FromCat1Const k false c) (fun c' t => has_type c' t (u32 v) 0)).
  { intros k Hk Hr. eapply outcome_weaken; [done| |by apply (FromCat1Const_outcome k false)].
    cbn beta. intros c' t _ _ _ Hkind. apply const_has_type. left. exists k. by rewrite s32_u32. }
  unfold is_s in Hv. cbn in Hv. unfold imprecise_range in Hrange.
  unfold IntConstant, ShortConstant, ByteConstant, PosByteConstant, PosShortConstant, CharConstant.
  repeat match goal with |- context [if ?x <? ?y then _ else _] => destruct (Z.ltb_spec x y) end;
    try (apply Hrange; [by split|cbn; lia]);
    (destruct (Z.eqb_spec v 0) as [->|]; [|destruct (Z.eqb_spec v 1) as [->|]]); try lia;
    try (apply Hrange; [by split|cbn; lia]).
  - apply outcome_same; [done|by apply (small_constant_entry c 0)|]. cbn. done.
  - apply outcome_same; [done|by apply (small_constant_entry c 1)|]. cbn. done.
Qed.

Lemma set_constant_safe np v val s f j s' : safe s f j -> room 1 (reg_types_ s) -> is_s 32 val ->
  clean (set_constant opts np v val) s () s' -> exists f', set_const f v val = Some f' /\ safe s' f' j.
Proof.
  unfold set_constant. intros Hs Hroom Hval H. clean_inv. apply clean_with_cache in H0 as (c & E & ->).
  destruct (DetermineCat1Constant_outcome val np _ (proj1 Hs) Hroom Hval) as (c' & t & E' & Hg & Hok & Ht & Hty).
  rewrite E in E'. injection E' as <- <-. pose proof (safe_cache _ _ _ _ _ Hg Hok Hs) as Hs1.
  apply clean_set in H1 as (_ & Hsets & _). pose proof (safe_length _ _ _ _ Hs1 (proj1 Hsets)) as Hv.
  destruct (safe_set _ _ v _ f j val Hs1 Hsets Ht Hty) as (f' & Hf & Hs').
  unfold set_const. rewrite Hf. cbn [mbind option_bind]. destruct (Z.eqb_spec val 0) as [->|]; [|by exists f'].
  rewrite SetVReg_eq in Hf by (done || apply Hs). injection Hf as <-.
  rewrite SetVRegReference_eq by (done || apply Hs'). eexists. split; [done|].
  unfold write1, set_arrays in *. cbn in *. by rewrite !list_insert_insert_eq.
Qed.

Lemma set_wide_constant_safe v val s f j s' : safe s f j -> room 2 (reg_types_ s) ->
  clean (set_wide_constant opts v val) s () s' -> exists f', SetVRegLong f v val = Some f' /\ safe s' f' j.
Proof.
  unfold set_wide_constant. intros Hs Hroom H. clean_inv. apply clean_with_cache in H0 as (c & E & ->).
  apply clean_with_cache in H1 as (c2 & E2 & ->).
  destruct (FromCat2ConstLo_outcome (s32 val) true _ (proj1 Hs)) as (c' & t & E' & Hg & Hok & Ht & (k & Hk & Hks));
    [eapply room_weaken; [|done]; lia|apply s32_range|].
  rewrite E in E'. injection E' as <- <-. pose proof (safe_cache _ _ _ _ _ Hg Hok Hs) as Hs1.
  destruct (FromCat2ConstHi_outcome (s32 (val ≫ 32)) true _ Hok) as (c' & t & E' & Hg2 & Hok2 & Ht2 & (k2 & Hk2 & Hks2));
    [by eapply (grows_room 1 1)|apply s32_range|].
  cbn in E2. rewrite E2 in E'. injection E' as <- <-. pose proof (safe_cache 1 (set_cache c s) _ _ _ Hg2 Hok2 Hs1) as Hs2.
  apply clean_set_wide in H2 as (_ & Hsets & _).
  eapply (safe_set_long _ _ v _ _ f j val Hs2 Hsets); cbn.
  - by eapply grows_entry.
  - done.
  - unfold has_type, base_type. rewrite Hk. cbn [cat2_const_lo]. rewrite Hks. by rewrite s_u.
  - unfold has_type, base_type. rewrite Hk2. cbn [cat2_const_hi]. rewrite Hks2. by rewrite s_u.
Qed.
End Operands.

(** ** Steps of the interpreter *)

Section Steps.
Context {CL : ClassLinker} {Laws : ClassLinkerLaws CL} {Obj : Objects} (opts : Options).
Context {W : Type} `{Runtime W} {RLaws : RuntimeLaws W}.
Variables (do_access_check transaction_active : bool).
Variable code_item : Z.
Variables (force_invoke_flag insns_len_in_byte hash1 : Z).
Implicit Types (m : Machine W) (o : option (Outcome W)).

(** The interpreter goes on, with registers that the verifier state [s'] describes. *)
Definition proceeds (s' : VerifierState) m o : Prop :=
  exists f' next, o = Some (Continue (set_inst next (set_frame f' m))) /\ safe s' f' (result_register m).

(** The registers are unchanged. *)
Definition divides_by_zero m o : Prop :=
  o = throw_and_handle code_item (inst m) ArithmeticExceptionDivideByZero m.

Definition goes_on (s' : VerifierState) m o : Prop := proceeds s' m o \/ divides_by_zero m o.

Lemma write_proceeds s' m r k : (exists f', r = Some f' /\ safe s' f' (result_register m)) ->
  proceeds s' m (write_next r k m).
Proof. intros (f' & -> & Hs). by exists f', (inst m + k). Qed.

Lemma relative_proceeds s' m k : safe s' (frame m) (result_register m) -> proceeds s' m (relative k m).
Proof. intros Hs. by exists (frame m), (inst m + k); destruct m. Qed.

Lemma narrow_reads f v : narrow f v -> exists x, GetVReg f v = Some (s32 x) /\ GetVRegFloat f v = Some x.
Proof. intros (x & Hx). exists x. unfold GetVReg, GetVRegFloat. by rewrite Hx. Qed.

Lemma wide_reads f v : wide f v -> exists x, GetVRegLong f v = Some (s64 x) /\ GetVRegDouble f v = Some x.
Proof.
  intros ((x & Hx) & (y & Hy)). eexists. unfold GetVRegLong, GetVRegDouble. by rewrite Hx, Hy.
Qed.

Lemma writes_any s s' f j v t y : writes s s' f j v t -> free t ->
  exists f', SetVReg f v y = Some f' /\ safe s' f' j.
Proof. intros Hw (_ & Ht). by apply Hw. Qed.

Lemma int_division_goes_on s s' m a k dividend divisor (division : ShadowFrame -> Z -> Z -> Z -> Thread W -> _) :
  division = DoIntDivide \/ division = DoIntRemainder ->
  writes s s' (frame m) (result_register m) a Integer ->
  goes_on s' m (int_division code_item k (division (frame m) a dividend divisor (self m)) m).
Proof.
  intros Hd Hw. assert (Hany := fun y => writes_any _ _ _ _ _ _ y Hw (free_type Integer ltac:(left))).
  destruct Hd as [-> | ->]; unfold int_division, DoIntDivide, DoIntRemainder; cbv zeta;
    destruct (divisor =? 0); [right; by destruct m|left|right; by destruct m|left];
    (destruct ((dividend =? _) && _);
     match goal with |- context [SetVReg ?f ?a ?y] => destruct (Hany y) as (f' & -> & Hs') end;
     by exists f', (inst m + k); destruct m).
Qed.

Lemma long_division_goes_on s' m a k dividend divisor (division : ShadowFrame -> Z -> Z -> Z -> Thread W -> _) :
  division = DoLongDivide \/ division = DoLongRemainder ->
  writes_wide s' (frame m) (result_register m) a -> IsExceptionPending (self m) = false ->
  goes_on s' m (long_division code_item k (division (frame m) a dividend divisor (self m)) m).
Proof.
  intros Hd Hw Hp.
  assert (Ht : forall k t, IsExceptionPending (Throw (W:=W) k t) = true).
  { intros e t. unfold IsExceptionPending. apply negb_true_iff, Z.eqb_neq, Throw_pending. }
  destruct Hd as [-> | ->]; unfold long_division, DoLongDivide, DoLongRemainder, SetVRegLong; cbv zeta;
    (destruct (divisor =? 0); [right; cbn [mbind option_bind]; rewrite Ht; by destruct m|left]);
    (destruct ((dividend =? _) && _);
     match goal with |- context [SetVRegDouble ?f ?a ?y] => destruct (Hw y) as (f' & -> & Hs') end;
     cbn [mbind option_bind]; rewrite Hp; by exists f', (inst m + k); destruct m).
Qed.

(** ** Groups of instructions *)

Abbreviation start s m := (safe s (frame m) (result_register m)).
Abbreviation cur m := (current code_item m).

(** Reads of registers that the checks found. *)
Local Ltac reads :=
  repeat match goal with
  | Hn : narrow _ ?v |- context [GetVReg _ ?v] =>
      let x := fresh "x" in let E := fresh "E" in let E' := fresh "E" in
      destruct (narrow_reads _ _ Hn) as (x & E & E'); rewrite E; cbn [mbind option_bind]
  | Hn : narrow _ ?v |- context [GetVRegFloat _ ?v] =>
      let x := fresh "x" in let E := fresh "E" in let E' := fresh "E" in
      destruct (narrow_reads _ _ Hn) as (x & E' & E); rewrite E; cbn [mbind option_bind]
  | Hn : wide _ ?v |- context [GetVRegLong _ ?v] =>
      let x := fresh "x" in let E := fresh "E" in let E' := fresh "E" in
      destruct (wide_reads _ _ Hn) as (x & E & E'); rewrite E; cbn [mbind option_bind]
  | Hn : wide _ ?v |- context [GetVRegDouble _ ?v] =>
      let x := fresh "x" in let E := fresh "E" in let E' := fresh "E" in
      destruct (wide_reads _ _ Hn) as (x & E' & E); rewrite E; cbn [mbind option_bind]
  end.

Local Ltac free_tac := apply free_type; rewrite !elem_of_cons; tauto.

(** A write of a result that any value of its type fits. *)
Local Ltac written :=
  first
    [ eapply long_division_goes_on; [tauto|done..]
    | eapply int_division_goes_on; [tauto|done]
    | left; apply write_proceeds; change SetVRegFloat with SetVReg;
      first [ (eapply writes_any; [eassumption|free_tac]) | solve [unfold SetVRegLong; auto] ] ].

Lemma unary_goes_on c s s' m : start s m -> clean (VerifyUnary opts c (cur m)) s () s' ->
  goes_on s' m (ExecuteUnary code_item c m).
Proof.
  intros Hs Hv. destruct c; try discriminate (proj1 Hv); cbn [VerifyUnary ExecuteUnary] in *; cbv zeta;
    lazymatch type of Hv with
    | clean (CheckUnaryOpWide _ _ _ _ _ _) _ _ _ =>
        apply (unary_wide_safe _ _ _ _ _ _ s _ _ s' Hs) in Hv as (Hr & Hw); [reads|free_tac..]; written
    | clean (CheckUnaryOpToWide _ _ _ _ _) _ _ _ =>
        apply (unary_to_wide_safe _ _ _ _ _ s _ _ s' Hs) in Hv as (Hr & Hw); [reads|free_tac..]; written
    | clean (CheckUnaryOpFromWide _ _ _ _ _) _ _ _ =>
        apply (unary_from_wide_safe _ _ _ _ _ s _ _ s' Hs) in Hv as (Hr & Hw); [reads|free_tac]; written
    | _ =>
        apply (unary_safe _ _ _ _ s _ _ s' Hs) in Hv as (Hr & Hw);
          [reads|first [free_tac|apply small_type; rewrite !elem_of_cons; tauto]];
          first [written|left; apply write_proceeds, Hw; cbn; word_lia]
    end.
Qed.

(** What an operation on two [int]s may write, once the operands have been read. *)
Lemma binary_reads s s' f j a v w t check : free t -> binary_result s s' f j a v w t check ->
  exists x y, GetVReg f v = Some (s32 x) /\ GetVReg f w = Some (s32 y) /\
    GetVRegFloat f v = Some x /\ GetVRegFloat f w = Some y /\
    (check = false -> writes s s' f j a t) /\
    (forall z, (0 <= s32 x <= 1 -> 0 <= s32 y <= 1 -> 0 <= z <= 1) ->
      exists f', SetVReg f a z = Some f' /\ safe s' f' j).
Proof.
  intros (_ & Ht) (b & (x & y & Hx & Hy & Hb) & Hc & Hw). exists x, y. unfold GetVReg, GetVRegFloat.
  rewrite Hx, Hy. split_and!; try done.
  - intros ->. destruct b; [by specialize (Hc eq_refl)|done].
  - intros z Hz. apply Hw. destruct b; [|apply Ht]. destruct (Hb eq_refl) as (? & ?).
    specialize (Hz ltac:(done) ltac:(done)). unfold has_type, base_type. cbn [kind result_type Boolean].
    rewrite s32_u32; [done|]. word_unfold. lia.
Qed.

Definition bitwise (fn : Z -> Z -> Z) : Prop := fn = Z.land \/ fn = Z.lor \/ fn = Z.lxor.

Lemma bitwise_booleans fn x y : bitwise fn -> 0 <= x <= 1 -> 0 <= y <= 1 -> 0 <= fn x y <= 1.
Proof.
  intros Hfn Hx Hy. assert (x = 0 \/ x = 1) as [-> | ->] by lia; assert (y = 0 \/ y = 1) as [-> | ->] by lia;
    destruct Hfn as [-> | [-> | ->]]; vm_compute; split; discriminate.
Qed.

Local Ltac binary_write Hv :=
  let x := fresh "x" in let y := fresh "y" in let Hw := fresh "Hw" in let Hz := fresh "Hz" in
  let E1 := fresh "E" in let E2 := fresh "E" in let E3 := fresh "E" in let E4 := fresh "E" in
  apply binary_reads in Hv as (x & y & E1 & E2 & E3 & E4 & Hw & Hz); [|free_tac];
  rewrite ?E1, ?E2, ?E3, ?E4; cbn [mbind option_bind];
  first [ (eapply int_division_goes_on; [tauto|by apply Hw])
        | left; apply write_proceeds; change SetVRegFloat with SetVReg;
          first [ (eapply writes_any; [by apply Hw|free_tac])
                | apply Hz, bitwise_booleans; unfold bitwise; tauto ] ].

(** The rule for the check that has passed. *)
Local Ltac operands_tac Hs Hv :=
  let Hr := fresh "Hr" in let Hr' := fresh "Hr" in let Hw := fresh "Hw" in
  lazymatch type of Hv with
  | clean (CheckBinaryOp _ _ _ _ _ _) _ _ _ =>
      apply (binary_safe _ _ _ _ _ _ _ _ _ _ Hs) in Hv; [|free_tac]; binary_write Hv
  | clean (CheckBinaryOp2addr _ _ _ _ _ _) _ _ _ =>
      apply (binary2_safe _ _ _ _ _ _ _ _ _ _ Hs) in Hv; [|free_tac]; binary_write Hv
  | clean (CheckBinaryOpWide _ _ _ _ _ _ _ _) _ _ _ =>
      apply (binary_wide_safe _ _ _ _ _ _ _ _ _ _ _ _ Hs) in Hv as (Hr & Hr' & Hw);
        [reads; written|free_tac..]
  | clean (CheckBinaryOp2addrWide _ _ _ _ _ _ _ _) _ _ _ =>
      apply (binary2_wide_safe _ _ _ _ _ _ _ _ _ _ _ _ Hs) in Hv as (Hr & Hr' & Hw);
        [reads; written|free_tac..]
  | clean (CheckBinaryOpWideShift _ _ _ _ _) _ _ _ =>
      apply (shift_safe _ _ _ _ _ _ _ _ _ Hs) in Hv as (Hr & Hr' & Hw); [reads; written|free_tac..]
  | clean (CheckBinaryOp2addrWideShift _ _ _ _ _) _ _ _ =>
      apply (shift2_safe _ _ _ _ _ _ _ _ _ Hs) in Hv as (Hr & Hr' & Hw); [reads; written|free_tac..]
  end.

Lemma int_goes_on c s s' m : start s m -> clean (VerifyInt opts c (cur m)) s () s' ->
  goes_on s' m (ExecuteInt code_item c m).
Proof.
  intros Hs Hv. destruct c; try discriminate (proj1 Hv); cbn [VerifyInt ExecuteInt] in *; cbv zeta;
    operands_tac Hs Hv.
Qed.

Lemma int2_goes_on c s s' m : start s m -> clean (VerifyInt2Addr opts c (cur m)) s () s' ->
  goes_on s' m (ExecuteInt2Addr code_item c m).
Proof.
  intros Hs Hv. destruct c; try discriminate (proj1 Hv); cbn [VerifyInt2Addr ExecuteInt2Addr] in *;
    cbv zeta; operands_tac Hs Hv.
Qed.

Lemma float_goes_on c s s' m : start s m -> clean (VerifyFloat opts c (cur m)) s () s' ->
  goes_on s' m (ExecuteFloat code_item c m).
Proof.
  intros Hs Hv. destruct c; try discriminate (proj1 Hv); cbn [VerifyFloat ExecuteFloat] in *;
    cbv zeta; operands_tac Hs Hv.
Qed.

Lemma float2_goes_on c s s' m : start s m -> clean (VerifyFloat2Addr opts c (cur m)) s () s' ->
  goes_on s' m (ExecuteFloat2Addr code_item c m).
Proof.
  intros Hs Hv. destruct c; try discriminate (proj1 Hv); cbn [VerifyFloat2Addr ExecuteFloat2Addr] in *;
    cbv zeta; operands_tac Hs Hv.
Qed.

Lemma long_goes_on c s s' m : start s m -> IsExceptionPending (self m) = false ->
  clean (VerifyLong opts c (cur m)) s () s' -> goes_on s' m (ExecuteLong code_item c m).
Proof.
  intros Hs Hp Hv. destruct c; try discriminate (proj1 Hv); cbn [VerifyLong ExecuteLong] in *;
    cbv zeta; operands_tac Hs Hv.
Qed.

Lemma long2_goes_on c s s' m : start s m -> IsExceptionPending (self m) = false ->
  clean (VerifyLong2Addr opts c (cur m)) s () s' -> goes_on s' m (ExecuteLong2Addr code_item c m).
Proof.
  intros Hs Hp Hv. destruct c; try discriminate (proj1 Hv); cbn [VerifyLong2Addr ExecuteLong2Addr] in *;
    cbv zeta; operands_tac Hs Hv.
Qed.

Lemma literal_reads s s' f j a v val t check : free t -> is_s 32 val ->
  literal_result s s' f j a v val t check ->
  exists x, GetVReg f v = Some (s32 x) /\ (check = false -> writes s s' f j a t) /\
    (forall z, (0 <= s32 x <= 1 -> 0 <= val <= 1 -> 0 <= z <= 1) ->
      exists f', SetVReg f a z = Some f' /\ safe s' f' j).
Proof.
  intros (_ & Ht) Hval (x & b & Hx & Hb & Hw). exists x. unfold GetVReg. rewrite Hx. split_and!; try done.
  - intros ->. destruct b; [by destruct (Hb eq_refl)|done].
  - intros z Hz. apply Hw. destruct b; [|apply Ht]. destruct (Hb eq_refl) as (_ & Hx1 & Hv).
    assert (0 <= val <= 1) by (revert Hval Hv; word_lia).
    specialize (Hz ltac:(done) ltac:(done)). unfold has_type, base_type. cbn [kind result_type Boolean].
    rewrite s32_u32; [done|]. word_unfold. lia.
Qed.

Lemma literal_range i : is_s 32 (VRegC_22s i) /\ is_s 32 (VRegC_22b i).
Proof.
  unfold VRegC_22s, VRegC_22b. pose proof (s_range 16 (Fetch16 i 1)). pose proof (s_range 8 (Fetch16 i 1 ≫ 8)).
  word_unfold. lia.
Qed.

Lemma lit_goes_on c s s' m : start s m -> clean (VerifyLit opts c (cur m)) s () s' ->
  goes_on s' m (ExecuteLit code_item c m).
Proof.
  intros Hs Hv. destruct c; try discriminate (proj1 Hv); cbn [VerifyLit ExecuteLit] in *; cbv zeta;
    (apply (literal_safe _ _ _ _ _ _ _ _ _ _ Hs) in Hv; [|free_tac]);
    (apply literal_reads in Hv as (x & -> & Hw & Hz); [|free_tac|apply literal_range]);
    cbn [mbind option_bind];
    first [ (eapply int_division_goes_on; [tauto|by apply Hw])
          | left; apply write_proceeds;
            first [ (eapply writes_any; [by apply Hw|free_tac])
                  | apply Hz, bitwise_booleans; unfold bitwise; tauto ] ].
Qed.

Lemma compare_goes_on c s s' m : start s m -> clean (VerifyCompare opts c (cur m)) s () s' ->
  goes_on s' m (ExecuteCompare code_item c m).
Proof.
  intros Hs Hv. assert (Hset : forall b y s1, clean (SetRegisterType opts (VRegA_23x (cur m)) Integer) s b s1 ->
      exists f', SetVReg (frame m) (VRegA_23x (cur m)) y = Some f' /\ safe s1 f' (result_register m)).
  { intros b y s1 Hset. eapply writes_any; [by eapply set_writes, Hset; [|free_tac]|free_tac]. }
  destruct c; try discriminate (proj1 Hv); cbn [VerifyCompare ExecuteCompare] in *; cbv zeta in *;
    apply clean_bind in Hv as (ok & s1 & Hok & Hv); try (auto with appends); try (intros []; appends_tac);
    (first [apply (both_narrow opts s _ _ _ _ _ _ _ _ Hs) in Hok as (-> & -> & Hr & Hr')
           |apply (both_wide opts s _ _ _ _ _ _ _ _ _ _ Hs) in Hok as (-> & -> & Hr & Hr')]);
    clean_inv; reads; left; apply write_proceeds; by eapply Hset.
Qed.

Lemma SparseSearch_some fuel keys entries v lo hi : hi - lo + 1 < 2 ^ Z.of_nat fuel -> 0 <= lo ->
  is_Some (SparseSearch (S fuel) keys entries v lo hi).
Proof.
  revert lo hi. induction fuel as [|fuel IH]; intros lo hi Hf Hlo.
  { change (2 ^ Z.of_nat 0) with 1 in Hf. cbn [SparseSearch]. destruct (Z.leb_spec lo hi); [lia|eauto]. }
  remember (S fuel) as n. cbn [SparseSearch]. subst n. destruct (Z.leb_spec lo hi); [|eauto].
  rewrite Nat2Z.inj_succ, Z.pow_succ_r in Hf by lia. rewrite Z.quot_div_nonneg by lia. cbv zeta.
  destruct (v <? _); [apply IH; div_lia|]. destruct (_ <? v); [apply IH; div_lia|eauto].
Qed.

Lemma switch_offset i f v : wf_units i -> GetVReg f (VRegA_31t i) = Some v ->
  is_Some (DoPackedSwitch i f) /\ is_Some (DoSparseSwitch i f).
Proof.
  intros Hi Hv. unfold DoPackedSwitch, DoSparseSwitch. rewrite Hv. cbn [mbind option_bind]. cbv zeta.
  pose proof (Hi (VRegB_31t i + 1)) as Hn. unfold Fetch16, RelativeAt. destruct (_ =? 0); [eauto|].
  split; [destruct (_ && _); eauto|]. apply SparseSearch_some; [|lia]. cbn. lia.
Qed.

Lemma goto_goes_on c s s' m : start s m -> wf_units (cur m) -> clean (VerifyGoto opts c (cur m)) s () s' ->
  goes_on s' m (ExecuteGoto code_item c m).
Proof.
  intros Hs Hi Hv. left. destruct c; try discriminate (proj1 Hv); cbn [VerifyGoto ExecuteGoto] in *; cbv zeta;
    clean_inv; try by apply relative_proceeds.
  all: match goal with H : clean (VerifyRegisterType _ _ _) _ _ _ |- _ =>
    apply (verify_narrow _ _ _ _ _ _ _ _ Hs) in H as (-> & -> & Hr) end.
  all: destruct (narrow_reads _ _ Hr) as (x & Hx & _); destruct (switch_offset _ _ _ Hi Hx) as ((p & Hp) & (q & Hq)).
  - rewrite Hp. by apply relative_proceeds.
  - rewrite Hq. by apply relative_proceeds.
Qed.

(** The tests read registers and write none. *)
Lemma tested s m v t s' : start s m -> clean (GetRegisterType v) s t s' -> s' = s /\ narrow (frame m) v.
Proof. intros Hs (-> & Hr)%clean_get. split; [done|]. by eapply reg_narrow. Qed.

Lemma if_goes_on c s s' m : start s m -> clean (VerifyIf opts c (cur m)) s () s' ->
  goes_on s' m (ExecuteIf code_item c m).
Proof.
  intros Hs Hv. unfold VerifyIf in Hv.
  apply clean_bind in Hv as (t1 & s1 & (-> & Hr)%(tested _ _ _ _ _ Hs) & Hv); [|auto with appends|];
    [apply clean_bind in Hv as (t2 & s1 & (-> & Hr')%(tested _ _ _ _ _ Hs) & Hv); [|auto with appends|]|];
    [|intros ?; destruct c; cbv zeta; appends_tac|intros ?; appends_tac; destruct c; cbv zeta; appends_tac].
  left. destruct c; try discriminate (proj1 Hv); cbn [ExecuteIf]; cbv zeta in *; clean_inv; reads;
    match goal with |- proceeds _ _ (if ?b then _ else _) => destruct b end; by apply relative_proceeds.
Qed.

Lemma ifz_goes_on c s s' m : start s m -> clean (VerifyIfZ opts c (cur m)) s () s' ->
  goes_on s' m (ExecuteIfZ code_item c m).
Proof.
  intros Hs Hv. unfold VerifyIfZ in Hv.
  apply clean_bind in Hv as (t1 & s1 & (-> & Hr)%(tested _ _ _ _ _ Hs) & Hv); [|auto with appends|];
    [|intros ?; destruct c; cbv zeta; appends_tac].
  left. destruct c; try discriminate (proj1 Hv); cbn [ExecuteIfZ]; cbv zeta in *; clean_inv; reads;
    match goal with |- proceeds _ _ (if ?b then _ else _) => destruct b end; by apply relative_proceeds.
Qed.

Lemma move_goes_on c s s' m : start s m -> clean (VerifyMove opts c (cur m)) s () s' ->
  goes_on s' m (ExecuteMove code_item c m).
Proof.
  intros Hs Hv. left. destruct c; try discriminate (proj1 Hv); cbn [VerifyMove ExecuteMove] in *; cbv zeta.
  1: clean_inv; by apply relative_proceeds.
  all: lazymatch type of Hv with
    | clean (CopyRegister1 _ _ _ kTypeCategory1nr) _ _ _ =>
        destruct (copy1_safe _ _ _ _ _ _ _ Hs Hv) as (x & f' & -> & E & Hs'); cbn [mbind option_bind];
        apply write_proceeds; by exists f'
    | clean (CopyRegister1 _ _ _ _) _ _ _ =>
        destruct (copy_ref_safe _ _ _ _ _ _ _ Hs Hv) as (x & f' & -> & E & Hs'); cbn [mbind option_bind];
        apply write_proceeds; by exists f'
    | clean (CopyRegister2 _ _ _) _ _ _ =>
        destruct (copy2_safe _ _ _ _ _ _ _ Hs Hv) as (x & f' & -> & E & Hs'); cbn [mbind option_bind];
        apply write_proceeds; by exists f'
    | clean (CopyResultRegister1 _ _ false) _ _ _ =>
        apply write_proceeds; by apply (result1_safe _ _ _ _ _ _ Hs Hv)
    | clean (CopyResultRegister1 _ _ true) _ _ _ =>
        apply write_proceeds; by apply (result_ref_safe _ _ _ _ _ _ Hs Hv)
    | clean (CopyResultRegister2 _ _) _ _ _ =>
        apply write_proceeds; by apply (result2_safe _ _ _ _ _ _ Hs Hv)
    end.
Qed.

(** The literals that the checks and the interpreter decode are the same. *)
Lemma literal_11n i : s32 (VRegB_11n i ≪ 28) ≫ 28 = VRegB_11n i /\ is_s 32 (VRegB_11n i).
Proof.
  unfold VRegB_11n. set (b := InstB (Fetch16 i 0)).
  assert (Hr : -8 <= s32 (b ≪ 28) ≫ 28 <= 7).
  { pose proof (s32_range (b ≪ 28)) as H'. rewrite Z.shiftr_div_pow2 by lia. revert H'. word_lia. }
  set (z := s32 (b ≪ 28) ≫ 28) in *. clearbody z.
  rewrite (s_small 8) by (word_unfold; lia). split; [|word_unfold; lia].
  rewrite Z.shiftr_div_pow2, Z.shiftl_mul_pow2 by lia. rewrite s_small by (word_unfold; lia).
  rewrite Z.div_mul; lia.
Qed.

Lemma const_goes_on np c s s' m : start s m -> room 2 (reg_types_ s) ->
  between CONST_4 c CONST_WIDE_HIGH16 = true -> clean (VerifyConst opts np c (cur m)) s () s' ->
  goes_on s' m (ExecuteConst do_access_check code_item c m).
Proof.
  intros Hs Hroom Hc Hv. left. assert (Hroom1 : room 1 (reg_types_ s)) by (eapply room_weaken; [|done]; lia).
  destruct c; try discriminate Hc; try discriminate (proj1 Hv); cbn [VerifyConst ExecuteConst] in *; cbv zeta;
    apply write_proceeds.
  - destruct (literal_11n (cur m)) as (E & Hr). rewrite E in Hv. by eapply set_constant_safe.
  - unfold VRegB_21s in *. rewrite s_s in Hv by lia. eapply set_constant_safe; try done.
    pose proof (s_range 16 (Fetch16 (cur m) 1)). word_unfold. lia.
  - eapply set_constant_safe; try done. apply s32_range.
  - eapply set_constant_safe; try done. apply s32_range.
  - unfold VRegB_21s in *. rewrite s_s in Hv by lia. by eapply set_wide_constant_safe.
  - by eapply set_wide_constant_safe.
  - by eapply set_wide_constant_safe.
  - rewrite s_u by lia. by eapply set_wide_constant_safe.
Qed.

(** ** One step *)

(** The instructions whose results are registers, constants, branches and arithmetic. *)
Definition register_opcode (c : Code) : bool :=
  between NOP c MOVE_RESULT_OBJECT || between CONST_4 c CONST_WIDE_HIGH16
  || between GOTO c SPARSE_SWITCH || between CMPL_FLOAT c CMP_LONG || between IF_EQ c IF_LEZ
  || between NEG_INT c USHR_INT_LIT8.

Section Groups.
Context (np : bool) (loader pc : Z) (rt : RegType).
Abbreviation verify := (VerifyRegisters opts np loader pc rt).
Abbreviation execute := (group_of do_access_check transaction_active code_item force_invoke_flag
    insns_len_in_byte hash1).

(** The group of an opcode in the verifier and in the interpreter. *)
Inductive same_group (c : Code) : Prop :=
  | group_move : verify c = VerifyMove opts -> execute c = ExecuteMove code_item -> same_group c
  | group_const : between CONST_4 c CONST_WIDE_HIGH16 = true -> verify c = VerifyConst opts np ->
      execute c = ExecuteConst do_access_check code_item -> same_group c
  | group_goto : verify c = VerifyGoto opts -> execute c = ExecuteGoto code_item -> same_group c
  | group_compare : verify c = VerifyCompare opts -> execute c = ExecuteCompare code_item -> same_group c
  | group_if : verify c = VerifyIf opts -> execute c = ExecuteIf code_item -> same_group c
  | group_ifz : verify c = VerifyIfZ opts -> execute c = ExecuteIfZ code_item -> same_group c
  | group_unary : verify c = VerifyUnary opts -> execute c = ExecuteUnary code_item -> same_group c
  | group_int : verify c = VerifyInt opts -> execute c = ExecuteInt code_item -> same_group c
  | group_long : verify c = VerifyLong opts -> execute c = ExecuteLong code_item -> same_group c
  | group_float : verify c = VerifyFloat opts -> execute c = ExecuteFloat code_item -> same_group c
  | group_int2 : verify c = VerifyInt2Addr opts -> execute c = ExecuteInt2Addr code_item -> same_group c
  | group_long2 : verify c = VerifyLong2Addr opts -> execute c = ExecuteLong2Addr code_item -> same_group c
  | group_float2 : verify c = VerifyFloat2Addr opts -> execute c = ExecuteFloat2Addr code_item -> same_group c
  | group_lit : verify c = VerifyLit opts -> execute c = ExecuteLit code_item -> same_group c.

Lemma register_group c : register_opcode c = true -> same_group c.
Proof.
  unfold register_opcode, VerifyRegisters, group_of, between, is_code. intros Hc.
  destruct c; try discriminate Hc; cbn [code_value Z.leb Z.eqb Z.compare Pos.compare Pos.compare_cont Pos.eqb andb orb];
    solve [econstructor; reflexivity].
Qed.

Lemma group_goes_on c s s' m : start s m -> room 2 (reg_types_ s) -> wf_units (cur m) ->
  IsExceptionPending (self m) = false -> register_opcode c = true ->
  clean (verify c c (cur m)) s () s' -> goes_on s' m (execute c c m).
Proof.
  intros Hs Hroom Hi Hp Hc Hv. destruct (register_group c Hc) as [E E'|? E E'|E E'|E E'|E E'|E E'|E E'|E E'|E E'|E E'|E E'|E E'|E E'|E E'];
    rewrite E in Hv; rewrite E';
    eauto using move_goes_on, const_goes_on, goto_goes_on, compare_goes_on, if_goes_on, ifz_goes_on,
      unary_goes_on, int_goes_on, long_goes_on, float_goes_on, int2_goes_on, long2_goes_on,
      float2_goes_on, lit_goes_on.
Qed.

Lemma start_at_instruction s m : start s m -> start s (at_instruction m).
Proof. done. Qed.

(** C16: Type preservation and progress.  If the checks of the method verifier on an instruction of
    the register groups (moves, constants, branches, switches, comparisons, conversions and
    arithmetic) find nothing, in a register line that describes the frame and the result register,
    then the interpreter executes the instruction: every register it reads or writes is in the
    frame, and it goes on with a frame and a result register that the line and the type cache
    after the checks describe, or it throws the exception of a division by zero with the
    registers unchanged. *)
Theorem verified_step_safe s s' m : start s m -> room 2 (reg_types_ s) ->
  0 <= inst m < insns_size_in_code_units_ (mem m) code_item -> Forall is_byte (mem m) ->
  IsExceptionPending (self m) = false -> register_opcode (Opcode (cur m)) = true ->
  clean (verify (Opcode (cur m)) (Opcode (cur m)) (cur m)) s () s' ->
  goes_on s' (at_instruction m)
    (Step do_access_check transaction_active code_item force_invoke_flag insns_len_in_byte hash1 m).
Proof.
  intros Hs Hroom Hin Hi Hp Hc Hv. unfold Step.
  destruct (Z.leb_spec 0 (inst m)), (Z.ltb_spec (inst m) (insns_size_in_code_units_ (mem m) code_item)); try lia.
  apply (group_goes_on _ s s' (at_instruction m)); try done. intros o. by apply (get_le_range 2).
Qed.
End Groups.

(** ** Returns *)

(** Register [v] holds an initialized object, or no object. *)
Definition ordinary (s : VerifierState) (v : Z) : Prop :=
  forall t, reg_is s v t -> initialized (reg_types_ s) t /\ reference_descriptor t.

(** The return types for which any [int] register is accepted. *)
Definition narrow_type (t : RegType) : bool := IsBoolean t || IsByte t || IsShort t || IsChar t.

Lemma assign_described c lhs rhs v r {ObjLaws : ObjectsLaws Obj} : cache_ok c -> is_entry c lhs -> is_entry c rhs ->
  target lhs -> initialized c rhs -> reference_descriptor rhs ->
  IsAssignableFrom lhs rhs = Some true -> has_type c rhs v r -> has_type c lhs v r.
Proof.
  intros Hok Hl Hr Ht Hi Hd Ha Hv. destruct (Equals lhs rhs) eqn:He.
  { rewrite (equals_eq c) in He by done. by apply bool_decide_eq_true in He as ->. }
  destruct (IsReferenceTypes lhs) eqn:El; [by eapply assign_reference|by eapply assign_primitive].
Qed.

Lemma clean_return rt v s b s' src : reg_is s v src ->
  clean (VerifyRegisterType opts v (if (IsBoolean rt && IsByte src) || (narrow_type rt && IsInteger src)
                                    then src else rt)) s b s' ->
  (narrow_type rt = true /\ (IsByte src = true \/ IsInteger src = true)) \/ IsAssignableFrom rt src = Some true.
Proof.
  intros Hv (_ & _ & src' & Hv' & Ha & _)%clean_verify.
  assert (src' = src) as ->.
  { destruct Hv as (_ & id & E & E'), Hv' as (_ & id' & F & F'). congruence. }
  destruct (_ || _) eqn:E; [left|by right]. unfold narrow_type in *.
  apply orb_true_iff in E as [E|E]; apply andb_true_iff in E as (E1 & E2); [|by auto]. by rewrite E1; auto.
Qed.

Lemma GetI_SetI x : GetI (SetI (SetJ JValue_new 0) x) = s32 x.
Proof.
  unfold GetI, SetI, SetJ, set_low. change (u64 (u64 0) / 2 ^ 32) with 0. rewrite Z.mul_0_r, Z.add_0_r.
  apply s_u. lia.
Qed.

Definition returned (rt : RegType) (s : VerifierState) (c : Code) (j : JValue) : Prop :=
  match c with
  | RETURN => has_type (reg_types_ s) rt (u32 (GetI j)) 0 \/ narrow_type rt = true
  | RETURN_OBJECT => has_type (reg_types_ s) rt (GetL j) (GetL j)
  | _ => True
  end.

Section Methods.
Context {ObjLaws : ObjectsLaws Obj} (loader : Z) (rt : RegType).

Lemma return_safe s s' m : start s m -> ordinary s (VRegA_11x (cur m)) -> is_entry (reg_types_ s) rt -> target rt ->
  clean (VerifyReturn opts loader rt RETURN (cur m)) s () s' ->
  exists j, ExecuteReturn false code_item RETURN m = Some (Return j m) /\ returned rt s RETURN j.
Proof.
  intros Hs Hord Hrt Htarget Hv. cbn [VerifyReturn ExecuteReturn] in *. cbv zeta in *.
  destruct (negb _) eqn:Ecat in Hv; [by apply Fail_not_clean in Hv|]. apply negb_false_iff in Ecat.
  apply clean_bind in Hv as (src & s1 & (-> & Hsrc)%clean_get & Hv); [|auto with appends|intros ?; appends_tac].
  apply clean_bind in Hv as (b & s1 & Hv & _); [|auto with appends|intros ?; appends_tac].
  destruct (safe_reg _ _ _ _ _ Hs Hsrc) as (x & r & Hx & _ & Hu & _ & He & Hty).
  unfold GetVReg. rewrite Hx. cbn [mbind option_bind]. eexists. split; [done|]. cbn [returned].
  rewrite GetI_SetI, s_s, u_s, u_small by (done || lia).
  apply clean_return in Hv as [(? & _)|Ha]; [by right|left|done].
  destruct (Hord _ Hsrc). apply (category1_value _ _ _ r); [by left|].
  apply (assign_described _ rt src); try done. apply Hs.
Qed.

Lemma return_wide_safe s s' m : start s m ->
  clean (VerifyReturn opts loader rt RETURN_WIDE (cur m)) s () s' ->
  exists j, ExecuteReturn false code_item RETURN_WIDE m = Some (Return j m).
Proof.
  intros Hs Hv. cbn [VerifyReturn ExecuteReturn] in *. cbv zeta in *.
  destruct (negb _) eqn:Ecat in Hv; [by apply Fail_not_clean in Hv|]. apply negb_false_iff in Ecat.
  apply clean_bind in Hv as (b & s1 & Hv & _); [|auto with appends|intros ?; appends_tac].
  apply clean_verify in Hv as (_ & _ & src & Hsrc & _ & Hh). destruct (Hh Ecat) as (h & Hhigh).
  destruct (wide_reads (frame m) (VRegA_11x (cur m))) as (x & -> & _);
    [split; by eapply reg_narrow|]. by eexists.
Qed.

Lemma return_object_safe s s' m : start s m -> ordinary s (VRegA_11x (cur m)) -> is_entry (reg_types_ s) rt -> target rt ->
  clean (VerifyReturn opts loader rt RETURN_OBJECT (cur m)) s () s' ->
  exists j, ExecuteReturn false code_item RETURN_OBJECT m = Some (Return j m) /\ returned rt s RETURN_OBJECT j.
Proof.
  intros Hs Hord Hrt Htarget Hv. cbn [VerifyReturn ExecuteReturn] in *. cbv zeta in *.
  assert (Hpure : forall src, appends (fun s => match CanAssignArray rt src loader false (reg_types_ s) with
    | Some (c, (_, soft_error)) => Some (soft_error, set_cache c s) | None => None end)).
  { intros src. apply appends_pure. intros s0 x s1. by destruct (CanAssignArray _ _ _ _ _) as [(c & ? & ?)|]; [intros [= <- <-]|]. }
  destruct (negb _) eqn:Ecat in Hv; [by apply Fail_not_clean in Hv|]. apply negb_false_iff in Ecat.
  apply clean_bind in Hv as (src & s1 & (-> & Hsrc)%clean_get & Hv); [|auto with appends|
    intros ?; repeat (progress appends_tac || apply Hpure)].
  destruct (IsUninitializedTypes src); [by apply Fail_not_clean in Hv|].
  apply clean_bind in Hv as (ok & s1 & Hok & Hv); [|auto with appends|
    intros ?; repeat (progress appends_tac || apply Hpure)].
  apply clean_require in Hok as (Ha & ->). destruct ok.
  - destruct (safe_reg _ _ _ _ _ Hs Hsrc) as (x & r & _ & Hr & Hu & Hrx & He & Hty).
    unfold GetVRegReference. rewrite Hr. cbn [mbind option_bind andb]. eexists. split; [done|]. cbn [returned].
    assert (Hr64 : GetL (SetL JValue_new r) = r).
    { assert (is_u 32 r) as H32 by (destruct Hrx as [->| ->]; [by split|done]). revert H32. unfold GetL, SetL. word_lia. }
    rewrite Hr64. destruct (Hord _ Hsrc). apply (reference_value _ _ x); [apply Hs|done|by left|].
    apply (assign_described _ rt src); try done. apply Hs.
  - destruct (_ || _); [by apply Fail_not_clean in Hv|].
    apply clean_bind in Hv as (soft & s1 & _ & Hv); [|destruct (_ && _); [apply Hpure|auto with appends]|
      intros ?; appends_tac].
    destruct soft; by apply Fail_not_clean in Hv.
Qed.

End Methods.
End Steps.

(** ** Examples

    [and-int/lit8 v0, v1, #1] keeps a boolean a boolean, and [return-object v1] returns a [C]
    where an [Object] is declared. *)
Module VerifiedSamples.
Import SmallLinker.
Import Small.

Definition sample_opts : Options := mkOptions false true true 35 false false.

Definition sample_state (t0 t1 : RegType) : VerifierState :=
  let l := mkLine (GetId Undefined, GetId Undefined) [] ∅ true [GetId t0; GetId t1] in
  mkState cache l l [] false false ∅.

Lemma sample_safe t0 t1 units x y : is_entry cache t0 -> is_entry cache t1 ->
  has_type cache t0 (u32 x) 0 -> has_type cache t1 (u32 y) 0 ->
  safe (sample_state t0 t1) (frame (enter [x; y] units)) (result_register (enter [x; y] units)).
Proof.
  intros H0 H1 Hx Hy. pose proof (reachable_ok true cache cache_reachable) as Hok.
  split; [done|]. split; [|exists Undefined, Undefined; split_and!; by vm_compute].
  split; [apply enter_ok|]. split; [done|]. intros [|[|i]] id v r; try done; intros [= <-] [= <-] [= <-];
    eexists; (split; [by apply entry_from_id|done]).
Qed.

Definition and_units : list Z := [0x00dd; 0x0101].
Definition and_machine : Machine World := enter [7; 1] and_units.
Definition verified (s : VerifierState) (m : Machine World) : VerifierState :=
  default s (snd <$> VerifyRegisters sample_opts true 7 0 tObject (Opcode (current 0 m))
    (Opcode (current 0 m)) (current 0 m) s).
Definition and_verified : VerifierState := verified (sample_state Integer Boolean) and_machine.

Lemma verified_step_safe_witness :
  (VRegA_22b (current 0 and_machine) = 0 /\ line_of and_verified !! 0%nat = Some (GetId Boolean)) /\
  goes_on 0 and_verified (at_instruction and_machine) (Step false false 0 0 0 0 and_machine).
Proof.
  split; [by vm_compute|].
  apply (verified_step_safe sample_opts false false 0 0 0 0 true 7 0 tObject (sample_state Integer Boolean));
    [|apply cache_room|by vm_compute| |done|by vm_compute|by vm_compute].
  - apply sample_safe; [by apply (small_entry_at 6)|by apply (small_entry_at 2)|done|by vm_compute].
  - by vm_compute; repeat constructor.
Defined.

Definition return_machine : Machine World := enter [7; 0] [0x0111].

End VerifiedSamples.
