(* ===== verification/MethodChecks.v ===== *)
(** * The static checks of a method ([verifier/method_verifier.cc], [instruction_flags.h])

    The passes before the code flow analysis: [ComputeWidthsAndCountOps] marks where instructions
    start, [ScanTryCatchBlocks] marks the try regions and their handlers, [VerifyInstructions]
    checks the operands of each instruction and marks the targets of branches.

    [mem] is the file in memory and [code] the offset of the code item; the file is mapped at an
    address that is a multiple of 4.  [None] is undefined behaviour: an index outside the flags,
    a read outside the file, or [LOG(FATAL)]. *)
From stdpp Require Import list.
From S2P Require Import Prelude.
From S2P Require Import Leb128.
From S2P Require Import DexFile.
From S2P Require Import DexInstruction.
From S2P Require Import TryCatch.
From S2P Require Import RegisterLine.
Local Open Scope Z_scope.

(** ** [InstructionFlags]: the bits of a [uint8_t] *)

Definition kVisited : Z := 0.
Definition kChanged : Z := 1.
Definition kOpcode : Z := 2.
Definition kInTry : Z := 3.
Definition kBranchTarget : Z := 4.
Definition kCompileTimeInfoPoint : Z := 5.
Definition kReturnPoint : Z := 6.

Definition InstructionFlags : Type := Z.
Definition set_bit (k : Z) (flags : InstructionFlags) : InstructionFlags := u8 (Z.lor flags (1 ≪ k)).
Definition clear_bit (k : Z) (flags : InstructionFlags) : InstructionFlags :=
  u8 (Z.land flags (Z.lnot (1 ≪ k))).
Definition has_bit (k : Z) (flags : InstructionFlags) : bool := negb (Z.land flags (1 ≪ k) =? 0).

Definition SetIsOpcode := set_bit kOpcode.
Definition IsOpcode := has_bit kOpcode.
Definition SetInTry := set_bit kInTry.
Definition IsInTry := has_bit kInTry.
Definition SetBranchTarget := set_bit kBranchTarget.
Definition IsBranchTarget := has_bit kBranchTarget.
Definition SetCompileTimeInfoPoint := set_bit kCompileTimeInfoPoint.
Definition IsCompileTimeInfoPoint := has_bit kCompileTimeInfoPoint.
Definition SetVisited := set_bit kVisited.
Definition IsVisited := has_bit kVisited.
Definition SetChanged := set_bit kChanged.
Definition ClearChanged := clear_bit kChanged.
Definition IsChanged := has_bit kChanged.
Definition IsVisitedOrChanged (flags : InstructionFlags) : bool := IsVisited flags || IsChanged flags.
Definition SetReturn := set_bit kReturnPoint.
Definition IsReturnPoint := has_bit kReturnPoint.
Definition SetCompileTimeInfoPointAndReturn (flags : InstructionFlags) : InstructionFlags :=
  SetReturn (SetCompileTimeInfoPoint flags).

(** ** The state of the passes *)

Record CheckState := mkChecks {
  insn_flags_ : list InstructionFlags;
  check_failures_ : list VerifyError;
  has_check_casts_ : bool;
  has_virtual_or_interface_invokes_ : bool;
  new_instance_count_ : Z;
  monitor_enter_count_ : Z;
}.

Definition Check (A : Type) : Type := CheckState -> option (A * CheckState).
#[export] Instance Check_ret : MRet Check := fun A x s => Some (x, s).
#[export] Instance Check_bind : MBind Check := fun A B f m s =>
  match m s with Some (x, s') => f x s' | None => None end.

Definition check_require {A} (o : option A) : Check A := fun s =>
  match o with Some x => Some (x, s) | None => None end.

Definition set_flags (flags : list InstructionFlags) (s : CheckState) : CheckState :=
  mkChecks flags (check_failures_ s) (has_check_casts_ s) (has_virtual_or_interface_invokes_ s)
    (new_instance_count_ s) (monitor_enter_count_ s).

(** [Fail(VERIFY_ERROR_BAD_CLASS_HARD)], and [return false]. *)
Definition reject : Check bool := fun s =>
  Some (false, mkChecks (insn_flags_ s) (check_failures_ s ++ [VERIFY_ERROR_BAD_CLASS_HARD])
    (has_check_casts_ s) (has_virtual_or_interface_invokes_ s) (new_instance_count_ s)
    (monitor_enter_count_ s)).

(** [insn_flags_[i]]. *)
Definition flag_at (i : Z) : Check InstructionFlags := fun s =>
  if 0 <=? i then (fun f => (f, s)) <$> insn_flags_ s !! Z.to_nat i else None.
Definition change_flag (i : Z) (change : InstructionFlags -> InstructionFlags) : Check () := fun s =>
  if 0 <=? i then
    f ← insn_flags_ s !! Z.to_nat i;
    Some ((), set_flags (<[Z.to_nat i := change f]> (insn_flags_ s)) s)
  else None.

(** [a && b]. *)
Definition and_then (a b : Check bool) : Check bool := ok ← a; if (ok : bool) then b else mret false.

Section Method.
Variables (df : DexFile) (mem : list Z) (code : Z) (is_aot_compiler verify_to_dump_ : bool).

Abbreviation insns := (insns_ mem code).
Abbreviation insns_size := (insns_size_in_code_units_ mem code).
Abbreviation registers_size := (registers_size_ mem code).

(** ** [ComputeWidthsAndCountOps] *)

Definition count_op (opcode : Code) : Check () := fun s =>
  let '(casts, invokes, news, monitors) :=
    match opcode with
    | APUT_OBJECT | CHECK_CAST =>
        (true, has_virtual_or_interface_invokes_ s, new_instance_count_ s, monitor_enter_count_ s)
    | INVOKE_VIRTUAL | INVOKE_VIRTUAL_RANGE | INVOKE_INTERFACE | INVOKE_INTERFACE_RANGE =>
        (has_check_casts_ s, true, new_instance_count_ s, monitor_enter_count_ s)
    | MONITOR_ENTER =>
        (has_check_casts_ s, has_virtual_or_interface_invokes_ s, new_instance_count_ s,
         monitor_enter_count_ s + 1)
    | NEW_INSTANCE =>
        (has_check_casts_ s, has_virtual_or_interface_invokes_ s, new_instance_count_ s + 1,
         monitor_enter_count_ s)
    | _ => (has_check_casts_ s, has_virtual_or_interface_invokes_ s, new_instance_count_ s,
            monitor_enter_count_ s)
    end in
  Some ((), mkChecks (insn_flags_ s) (check_failures_ s) casts invokes news monitors).

Fixpoint ComputeWidthsLoop (fuel : nat) (dex_pc : Z) : Check Z :=
  match fuel with
  | O => fun _ => None
  | S fuel' =>
      if dex_pc <? insns_size then
        let inst := RelativeAt insns dex_pc in
        _ ← count_op (Opcode inst);
        inst_size ← check_require (SizeInCodeUnits inst);
        _ ← change_flag dex_pc SetIsOpcode;
        ComputeWidthsLoop fuel' (dex_pc + inst_size)
      else mret dex_pc
  end.

(** The counters are set only when the widths add up. *)
Definition ComputeWidthsAndCountOps : Check bool := fun s =>
  '(dex_pc, s') ← ComputeWidthsLoop (S (Z.to_nat insns_size)) 0
    (mkChecks (insn_flags_ s) (check_failures_ s) (has_check_casts_ s)
       (has_virtual_or_interface_invokes_ s) 0 0);
  if negb (dex_pc =? insns_size) then
    reject (mkChecks (insn_flags_ s') (check_failures_ s') (has_check_casts_ s')
      (has_virtual_or_interface_invokes_ s') (new_instance_count_ s) (monitor_enter_count_ s))
  else Some (true, s').

(** ** [ScanTryCatchBlocks] *)

(** What [CheckNotMoveResult] and [CheckNotMoveException] reject. *)
Definition is_move_result (insn_idx : Z) : bool :=
  let v := Z.land (insns insn_idx) 0xff in
  (code_value MOVE_RESULT <=? v) && (v <=? code_value MOVE_RESULT_OBJECT).
Definition is_move_exception (insn_idx : Z) : bool :=
  Z.land (insns insn_idx) 0xff =? code_value MOVE_EXCEPTION.

Definition CheckNotMoveResult (insn_idx : Z) : Check bool :=
  if is_move_result insn_idx then reject else mret true.
Definition CheckNotMoveException (insn_idx : Z) : Check bool :=
  if is_move_exception insn_idx then reject else mret true.
Definition CheckNotMoveExceptionOrMoveResult (insn_idx : Z) : Check bool :=
  and_then (CheckNotMoveException insn_idx) (CheckNotMoveResult insn_idx).

Fixpoint MarkInTry (fuel : nat) (dex_pc end_ : Z) : Check () :=
  match fuel with
  | O => fun _ => None
  | S fuel' =>
      if dex_pc <? end_ then
        _ ← change_flag dex_pc SetInTry;
        insn_size ← check_require (SizeInCodeUnits (RelativeAt insns dex_pc));
        MarkInTry fuel' (dex_pc + insn_size) end_
      else mret ()
  end.

Definition ScanTry (try_item : TryItem) : Check bool :=
  let start := start_addr_ try_item in
  let end_ := u32 (start + insn_count_ try_item) in
  if (end_ <=? start) || (insns_size <=? start) || (insns_size <? end_) then reject
  else
    flags ← flag_at start;
    if negb (IsOpcode flags) then reject
    else _ ← MarkInTry (S (Z.to_nat insns_size)) start end_; mret true.

Fixpoint ScanTries (n : nat) (idx : Z) : Check bool :=
  match n with
  | O => mret true
  | S n' =>
      try_item ← check_require (ReadTryItem mem (GetTryItems mem code idx));
      and_then (ScanTry try_item) (ScanTries n' (idx + 1))
  end.

(** The handlers of one list; the types that they catch are resolved, which changes nothing
    here.  Answers the iterator at the end of the list. *)
Fixpoint ScanHandlerList (fuel : nat) (it : CatchHandlerIterator) : Check (bool * CatchHandlerIterator) :=
  match fuel with
  | O => fun _ => None
  | S fuel' =>
      if HasNextHandler it then
        let dex_pc := address_ it in
        flags ← flag_at dex_pc;
        if negb (IsOpcode flags) then _ ← reject; mret (false, it)
        else
          ok ← CheckNotMoveResult dex_pc;
          if negb (ok : bool) then _ ← reject; mret (false, it)
          else
            _ ← change_flag dex_pc SetBranchTarget;
            it ← check_require (NextHandler it);
            ScanHandlerList fuel' it
      else mret (true, it)
  end.

Fixpoint ScanHandlers (n : nat) (handlers_ptr : list Z) : Check bool :=
  match n with
  | O => mret true
  | S n' =>
      it ← check_require (InitHandlers (new_iterator 0) handlers_ptr);
      '(ok, it) ← ScanHandlerList (S (length handlers_ptr)) it;
      if (ok : bool) then
        p ← check_require (EndHandlerData it);
        ScanHandlers n' p
      else mret false
  end.

Definition ScanTryCatchBlocks : Check bool :=
  let tries_size := tries_size_ mem code in
  if tries_size =? 0 then mret true
  else
    and_then (ScanTries (Z.to_nat tries_size) 0)
      ('(handlers_size, handlers_ptr) ←
         check_require (DecodeUnsignedLeb128 (drop (Z.to_nat (GetCatchHandlerData mem code 0)) mem));
       ScanHandlers (Z.to_nat handlers_size) handlers_ptr).

(** ** [VerifyInstruction] *)

Definition CheckRegisterIndex (idx : Z) : Check bool :=
  if registers_size <=? u32 idx then reject else mret true.
Definition CheckWideRegisterIndex (idx : Z) : Check bool :=
  if registers_size <=? u32 (u32 idx + 1) then reject else mret true.
Definition CheckFieldIndex (idx : Z) : Check bool :=
  if field_ids_size_ (header_ df) <=? u32 idx then reject else mret true.
Definition CheckMethodIndex (idx : Z) : Check bool :=
  if method_ids_size_ (header_ df) <=? u32 idx then reject else mret true.
Definition CheckStringIndex (idx : Z) : Check bool :=
  if string_ids_size_ (header_ df) <=? u32 idx then reject else mret true.
Definition CheckTypeIndex (idx : Z) : Check bool :=
  if type_ids_size_ (header_ df) <=? u32 idx then reject else mret true.

(** A type descriptor; the checks follow the pointer, which must not be null. *)
Definition descriptor_of (idx : Z) : Check (list Z) :=
  check_require (d ← StringByTypeIdx df idx; d).

Definition CheckNewInstance (idx : Z) : Check bool :=
  if type_ids_size_ (header_ df) <=? u32 idx then reject
  else
    descriptor ← descriptor_of (u32 idx);
    if negb (nth 0 descriptor 0 =? 0x4c) then reject else mret true.

Fixpoint count_brackets (descriptor : list Z) : Z :=
  match descriptor with c :: d => if c =? 0x5b then 1 + count_brackets d else 0 | [] => 0 end.

Definition CheckNewArray (idx : Z) : Check bool :=
  if type_ids_size_ (header_ df) <=? u32 idx then reject
  else
    descriptor ← descriptor_of (u32 idx);
    let bracket_count := count_brackets descriptor in
    if bracket_count =? 0 then reject else if 255 <? bracket_count then reject else mret true.

(** [reinterpret_cast<uintptr_t>(insns_ + i) & 0x03]. *)
Definition unaligned (i : Z) : bool := negb (Z.land (code + 16 + 2 * i) 3 =? 0).

Definition CheckArrayData (cur_offset : Z) : Check bool :=
  let array_data_offset := s32 (Z.lor (insns (cur_offset + 1)) (s32 (insns (cur_offset + 2) ≪ 16))) in
  if (s32 (s32 cur_offset + array_data_offset) <? 0)
     || (insns_size <=? u32 (cur_offset + array_data_offset + 2)) then reject
  else
    let array_data := RelativeAt insns (cur_offset + array_data_offset) in
    if unaligned (cur_offset + array_data_offset) then reject
    else
      let value_width := array_data 1 in
      let value_count := Fetch32 array_data 2 in
      let table_size := u32 (4 + u32 (u32 (value_width * value_count) + 1) / 2) in
      if insns_size <? u32 (cur_offset + array_data_offset + table_size) then reject else mret true.

(** The answers are the offset, [isConditional] and [selfOkay]. *)
Definition GetBranchOffset (cur_offset : Z) : option (Z * bool * bool) :=
  let i k := insns (cur_offset + k) in
  match code_of_Z (Z.land (i 0) 0xff) with
  | GOTO => Some (s16 (i 0) ≫ 8, false, false)
  | GOTO_32 => Some (s32 (Z.lor (i 1) (u32 (i 2 ≪ 16))), false, true)
  | GOTO_16 => Some (s16 (i 1), false, false)
  | IF_EQ | IF_NE | IF_LT | IF_GE | IF_GT | IF_LE
  | IF_EQZ | IF_NEZ | IF_LTZ | IF_GEZ | IF_GTZ | IF_LEZ => Some (s16 (i 1), true, false)
  | _ => None
  end.

(** The target must be an instruction; it is marked. *)
Definition mark_target (abs_offset : Z) (in_range : bool) : Check bool :=
  if negb in_range then reject
  else
    flags ← flag_at abs_offset;
    if negb (IsOpcode flags) then reject
    else _ ← change_flag abs_offset SetBranchTarget; mret true.

Definition CheckBranchTarget (cur_offset : Z) : Check bool :=
  match GetBranchOffset cur_offset with
  | None => mret false
  | Some (offset, _, selfOkay) =>
      if negb selfOkay && (offset =? 0) then reject
      else if negb (cur_offset + offset =? u32 (cur_offset + offset)) then reject
      else
        let abs_offset := s32 (cur_offset + offset) in
        mark_target abs_offset ((0 <=? abs_offset) && (u32 abs_offset <? insns_size))
  end.

(** The keys of a sparse switch from [targ] on. *)
Fixpoint CheckKeys (n : nat) (keys : Z -> Z) (targ last_key : Z) : bool :=
  match n with
  | O => true
  | S n' => let key := keys targ in if key <=? last_key then false else CheckKeys n' keys (targ + 1) key
  end.

Fixpoint CheckTargets (n : nat) (targets : Z -> Z) (cur_offset targ : Z) : Check bool :=
  match n with
  | O => mret true
  | S n' =>
      let abs_offset := s32 (cur_offset + targets targ) in
      and_then (mark_target abs_offset ((0 <=? abs_offset) && (abs_offset <? s32 insns_size)))
        (CheckTargets n' targets cur_offset (targ + 1))
  end.

Definition CheckSwitchTargets (cur_offset : Z) : Check bool :=
  let switch_offset := s32 (Z.lor (insns (cur_offset + 1)) (s32 (insns (cur_offset + 2) ≪ 16))) in
  if (s32 (s32 cur_offset + switch_offset) <? 0)
     || (insns_size <? u32 (cur_offset + switch_offset + 2)) then reject
  else
    let switch_insns := RelativeAt insns (cur_offset + switch_offset) in
    if unaligned (cur_offset + switch_offset) then reject
    else
      let switch_count := switch_insns 1 in
      let packed := Z.land (insns cur_offset) 0xff =? code_value PACKED_SWITCH in
      let targets_offset := if packed then 4 else 2 + 2 * switch_count in
      let keys_offset := if packed then -1 else 2 in
      let expected_signature := if packed then kPackedSwitchSignature else kSparseSwitchSignature in
      let table_size := u32 (targets_offset + switch_count * 2) in
      if negb (switch_insns 0 =? expected_signature) then reject
      else if insns_size <? u32 (cur_offset + switch_offset + table_size) then reject
      else
        let keys targ := int_at switch_insns (keys_offset + targ * 2) in
        if (0 <? keys_offset) && (1 <? switch_count)
           && negb (CheckKeys (Z.to_nat (switch_count - 1)) keys 1 (keys 0)) then reject
        else
          CheckTargets (Z.to_nat switch_count) (fun targ => int_at switch_insns (targets_offset + targ * 2))
            cur_offset 0.

Fixpoint CheckVarArgRegs (args : list Z) : Check bool :=
  match args with
  | [] => mret true
  | arg :: args => if registers_size <=? arg then reject else CheckVarArgRegs args
  end.

Definition CheckVarArgRangeRegs (vA vC : Z) : Check bool :=
  if registers_size <? u32 (u32 vA + u32 vC) then reject else mret true.

(** [VRegB()] and [VRegC()]; an instruction without the operand aborts. *)
Definition with_operand (operand : option Z) (check : Z -> Check bool) : Check bool :=
  v ← check_require operand; check v.

Definition VerifyOperandA (inst : Instruction) : Check bool :=
  let kind := GetVerifyTypeArgumentA inst in
  if kind =? kVerifyRegA then CheckRegisterIndex (VRegA inst)
  else if kind =? kVerifyRegAWide then CheckWideRegisterIndex (VRegA inst)
  else mret true.

Definition VerifyOperandB (inst : Instruction) : Check bool :=
  let kind := GetVerifyTypeArgumentB inst in
  let check := with_operand (VRegB inst) in
  if kind =? kVerifyRegB then check CheckRegisterIndex
  else if kind =? kVerifyRegBField then check CheckFieldIndex
  else if kind =? kVerifyRegBMethod then check CheckMethodIndex
  else if kind =? kVerifyRegBNewInstance then check CheckNewInstance
  else if kind =? kVerifyRegBString then check CheckStringIndex
  else if kind =? kVerifyRegBType then check CheckTypeIndex
  else if kind =? kVerifyRegBWide then check CheckWideRegisterIndex
  else mret true.

Definition VerifyOperandC (inst : Instruction) : Check bool :=
  let kind := GetVerifyTypeArgumentC inst in
  let check := with_operand (VRegC inst) in
  if kind =? kVerifyRegC then check CheckRegisterIndex
  else if kind =? kVerifyRegCField then check CheckFieldIndex
  else if kind =? kVerifyRegCNewArray then check CheckNewArray
  else if kind =? kVerifyRegCType then check CheckTypeIndex
  else if kind =? kVerifyRegCWide then check CheckWideRegisterIndex
  else mret true.

(** The last [switch].  [result] is what the operands gave.  The first answer tells that the
    method returned: the checks of the number of arguments do not look at [result]. *)
Definition VerifyExtra (inst : Instruction) (code_offset : Z) (result : bool) : Check (bool * bool) :=
  let kind := GetVerifyExtraFlags inst in
  let check (c : Check bool) : Check (bool * bool) := r ← and_then (mret result) c; mret (false, r) in
  if kind =? kVerifyArrayData then check (CheckArrayData code_offset)
  else if kind =? kVerifyBranchTarget then check (CheckBranchTarget code_offset)
  else if kind =? kVerifySwitchTargets then check (CheckSwitchTargets code_offset)
  else if (kind =? kVerifyVarArg) || (kind =? kVerifyVarArgNonZero) then
    let v_a := u32 (VRegA inst) in
    if ((kind =? kVerifyVarArgNonZero) && (v_a =? 0)) || (kMaxVarArgRegs <? v_a)
    then _ ← reject; mret (true, false)
    else check (CheckVarArgRegs (take (Z.to_nat v_a) (GetVarArgs inst [0; 0; 0; 0; 0])))
  else if (kind =? kVerifyVarArgRange) || (kind =? kVerifyVarArgRangeNonZero) then
    if (kind =? kVerifyVarArgRangeNonZero) && (VRegA inst <=? 0)
    then _ ← reject; mret (true, false)
    else check (with_operand (VRegC inst) (CheckVarArgRangeRegs (VRegA inst)))
  else if kind =? kVerifyError then _ ← reject; mret (false, false)
  else mret (false, result).

Definition VerifyInstruction (inst : Instruction) (code_offset : Z) : Check bool :=
  result ← and_then (VerifyOperandA inst) (and_then (VerifyOperandB inst) (VerifyOperandC inst));
  '(returned, result) ← VerifyExtra inst code_offset result;
  if returned : bool then mret false
  else if GetVerifyIsRuntimeOnly inst && is_aot_compiler && negb verify_to_dump_ then reject
  else mret result.

(** ** [VerifyInstructions] *)

Definition mark_points (inst : Instruction) (dex_pc : Z) : Check () :=
  if IsBranch inst then
    _ ← change_flag dex_pc SetCompileTimeInfoPoint;
    '(offset, _, _) ← check_require (GetBranchOffset dex_pc);
    change_flag (dex_pc + offset) SetCompileTimeInfoPoint
  else if IsSwitch inst || IsThrow inst then change_flag dex_pc SetCompileTimeInfoPoint
  else if IsReturn inst then change_flag dex_pc SetCompileTimeInfoPointAndReturn
  else mret ().

Fixpoint VerifyInstructionsLoop (fuel : nat) (dex_pc : Z) : Check bool :=
  match fuel with
  | O => fun _ => None
  | S fuel' =>
      if dex_pc <? insns_size then
        let inst := RelativeAt insns dex_pc in
        ok ← VerifyInstruction inst dex_pc;
        if negb (ok : bool) then mret false
        else
          _ ← mark_points inst dex_pc;
          size ← check_require (SizeInCodeUnits inst);
          VerifyInstructionsLoop fuel' (dex_pc + size)
      else mret true
  end.

Definition VerifyInstructions : Check bool :=
  _ ← change_flag 0 SetBranchTarget;
  _ ← change_flag 0 SetCompileTimeInfoPoint;
  VerifyInstructionsLoop (S (Z.to_nat insns_size)) 0.

(** The passes as [MethodVerifier::Verify] runs them. *)
Definition StaticChecks : Check bool :=
  and_then ComputeWidthsAndCountOps (and_then ScanTryCatchBlocks VerifyInstructions).
End Method.
