(* ===== verification/CodeFlow.v ===== *)
(** * The code flow analysis of a method ([verifier/method_verifier.cc])

    The work list of [CodeFlowVerifyMethod]: the register line before an instruction is merged
    over the paths to it ([UpdateRegisters]) until nothing changes.  Lines are kept in a table
    for the branch targets and the points of interest to the compiler; between them the line is
    handed from an instruction to the next.

    [mem] is the file in memory and [code] the offset of the code item.  [None] is an access
    outside the flags, the table or a line, a failed [CHECK], or an opcode whose case is not in
    [InstructionTypes].  [Fail] is only called here for hard failures, so that it does not matter
    which line [Fail] would save. *)
From stdpp Require Import list gmap fin_maps.
From S2P Require Import Prelude.
From S2P Require Import Runtime.
From S2P Require Import Descriptors.
From S2P Require Import MirrorClass.
From S2P Require Import RegType.
From S2P Require Import DexFile.
From S2P Require Import DexInstruction.
From S2P Require Import TryCatch.
From S2P Require Import RegisterLine.
From S2P Require Import InstructionTypes.
From S2P Require Import MethodChecks.
Local Open Scope Z_scope.

#[export] Instance VerifyError_eq_dec : EqDecision VerifyError := ltac:(solve_decision).

(** The members of [MethodVerifier] besides those of [VerifierState]. *)
Record FlowState := mkFlow {
  verifier_ : VerifierState;
  flags_ : list InstructionFlags;
  reg_table_ : list (option RegisterLine);
  return_type_ : option RegType;
  have_any_pending_runtime_throw_failure_ : bool;
}.

Definition Work (A : Type) : Type := FlowState -> option (A * FlowState).
#[export] Instance Work_ret : MRet Work := fun A x s => Some (x, s).
#[export] Instance Work_bind : MBind Work := fun A B f m s =>
  match m s with Some (x, s') => f x s' | None => None end.

(** ** The state *)

Definition set_verifier (v : VerifierState) (s : FlowState) : FlowState :=
  mkFlow v (flags_ s) (reg_table_ s) (return_type_ s) (have_any_pending_runtime_throw_failure_ s).
Definition set_flags_ (flags : list InstructionFlags) (s : FlowState) : FlowState :=
  mkFlow (verifier_ s) flags (reg_table_ s) (return_type_ s) (have_any_pending_runtime_throw_failure_ s).
Definition set_table (table : list (option RegisterLine)) (s : FlowState) : FlowState :=
  mkFlow (verifier_ s) (flags_ s) table (return_type_ s) (have_any_pending_runtime_throw_failure_ s).
Definition set_return_type (t : RegType) (s : FlowState) : FlowState :=
  mkFlow (verifier_ s) (flags_ s) (reg_table_ s) (Some t) (have_any_pending_runtime_throw_failure_ s).

Definition with_line (l : RegisterLine) (v : VerifierState) : VerifierState :=
  mkState (reg_types_ v) l (saved_line_ v) (failures_ v) (have_pending_hard_failure_ v)
    (have_pending_runtime_throw_failure_ v) (string_init_pc_reg_map_ v).
Definition with_saved_line (l : RegisterLine) (v : VerifierState) : VerifierState :=
  mkState (reg_types_ v) (work_line_ v) l (failures_ v) (have_pending_hard_failure_ v)
    (have_pending_runtime_throw_failure_ v) (string_init_pc_reg_map_ v).

(** An operation on [work_line_], and on another line. *)
Definition lift {A} (m : Flow A) : Work A := fun s =>
  match m (verifier_ s) with Some (x, v) => Some (x, set_verifier v s) | None => None end.
Definition on_line {A} (l : RegisterLine) (m : Flow A) : Work (A * RegisterLine) := fun s =>
  match m (with_line l (verifier_ s)) with
  | Some (x, v) => Some (x, work_line_ v, set_verifier (with_line (work_line_ (verifier_ s)) v) s)
  | None => None
  end.

Definition need {A} (o : option A) : Work A := fun s =>
  match o with Some x => Some (x, s) | None => None end.
Definition verifier : Work VerifierState := fun s => Some (verifier_ s, s).
Definition put_verifier (v : VerifierState) : Work () := fun s => Some ((), set_verifier v s).

(** [insn_flags_[i]], [reg_table_.GetLine(i)]. *)
Definition flags_of (i : Z) : Work InstructionFlags := fun s =>
  if 0 <=? i then (fun f => (f, s)) <$> flags_ s !! Z.to_nat i else None.
Definition change_flags (i : Z) (change : InstructionFlags -> InstructionFlags) : Work () := fun s =>
  if 0 <=? i then
    f ← flags_ s !! Z.to_nat i; Some ((), set_flags_ (<[Z.to_nat i := change f]> (flags_ s)) s)
  else None.
Definition GetLine (i : Z) : Work (option RegisterLine) := fun s =>
  if 0 <=? i then (fun l => (l, s)) <$> reg_table_ s !! Z.to_nat i else None.
Definition put_table (i : Z) (l : RegisterLine) : Work () := fun s =>
  Some ((), set_table (<[Z.to_nat i := Some l]> (reg_table_ s)) s).

Section Flow.
Context {CL : ClassLinker}.

(** [RegisterLine::Create], and [PcToRegisterLineTable::Init] with the mode
    [kTrackCompilerInterestPoints]. *)
Definition Create (num_regs : Z) : RegisterLine :=
  mkLine (GetId Undefined, GetId Undefined) [] ∅ false (replicate (Z.to_nat num_regs) 0).
Definition TableInit (flags : list InstructionFlags) (registers_size : Z) : list (option RegisterLine) :=
  (fun f => if IsCompileTimeInfoPoint f || IsBranchTarget f then Some (Create registers_size) else None) <$> flags.

Variables (mem : list Z) (code : Z).
(** [Runtime::IsAotCompiler], [can_load_classes_], [allow_soft_failures_], the version of the
    file, [need_precise_constants_], [GetClassLoader()], [IsInstanceConstructor()]. *)
Variables (aot can_load allow_soft : bool) (version : Z) (need_precise_constants_ : bool) (loader : Z).
Variable is_instance_constructor : bool.
(** [mirror_method_->GetReturnType(can_load_classes_)], 0 when it or the method is null, and the
    descriptor of the return type; [ClassLinker::ResolveType] on the types of handlers. *)
Variables (return_class : Z) (return_descriptor : list Z) (ResolveType : Z -> Z).

Abbreviation insns := (insns_ mem code).
Abbreviation insns_size := (insns_size_in_code_units_ mem code).
Abbreviation inst_at i := (RelativeAt insns i).

(** The options of the instruction at [pc], where its flags are [f]. *)
Definition options (pc : Z) (f : InstructionFlags) : Options :=
  mkOptions aot can_load allow_soft version (has_flag (Opcode (inst_at pc)) kThrow) (IsInTry f).

Definition FailHard : Flow () := Fail (options 0 0) VERIFY_ERROR_BAD_CLASS_HARD.

(** [Fail(VERIFY_ERROR_BAD_CLASS_HARD)], and [return false]. *)
Definition fail_false : Work bool := _ ← lift FailHard; mret false.

(** ** [UpdateRegisters] *)

Definition SafelyMarkAllRegistersAsConflicts : Flow () :=
  if is_instance_constructor then
    _ ← CheckConstructorReturn (options 0 0); MarkAllRegistersAsConflicts
  else MarkAllRegistersAsConflicts.

Definition is_return_void (c : Code) : bool := is_code RETURN_VOID c || is_code RETURN_VOID_NO_BARRIER c.

(** The registers that are dead at the return [ret_inst]. *)
Definition mark_dead (ret_inst : Instruction) : Flow () :=
  if is_return_void (Opcode ret_inst) then SafelyMarkAllRegistersAsConflicts
  else if is_code RETURN_WIDE (Opcode ret_inst) then MarkAllRegistersAsConflictsExceptWide (VRegA_11x ret_inst)
  else MarkAllRegistersAsConflictsExcept (VRegA_11x ret_inst).

(** The line that is copied to the [target] of a return. *)
Definition return_line (ret_inst : Instruction) (merge_line target : RegisterLine) : RegisterLine :=
  if is_return_void (Opcode ret_inst) then set_this_initialized (this_initialized_ merge_line) target
  else CopyFromLine merge_line target.

(** With [update_merge_line] the line is [work_line_].  The first answer is [false] where the
    code returns [false], the second is [changed]. *)
Definition update_line (next_insn : Z) (merge_line : RegisterLine) (update_merge_line : bool)
  : Work (bool * bool) :=
  target_line ← GetLine next_insn;
  flags ← flags_of next_insn;
  if negb (IsVisitedOrChanged flags) then
    if negb (IsReturnPoint flags) then
      target ← need target_line;
      _ ← put_table next_insn (CopyFromLine merge_line target);
      mret (true, true)
    else
      '(empty, _) ← on_line merge_line (VerifyMonitorStackEmpty (options 0 0));
      if negb (empty : bool) then mret (false, true)
      else
        target ← need target_line;
        let ret_inst := inst_at next_insn in
        '(_, target) ← on_line (return_line ret_inst merge_line target) (mark_dead ret_inst);
        _ ← put_table next_insn target;
        mret (true, true)
  else
    target ← need target_line;
    '(changed, target) ← on_line target (MergeRegisters merge_line);
    _ ← put_table next_insn target;
    v ← verifier;
    if have_pending_hard_failure_ v then mret (false, changed)
    else if update_merge_line && changed then
      _ ← put_verifier (with_line (CopyFromLine target (work_line_ v)) v); mret (true, changed)
    else mret (true, changed).

Definition UpdateRegisters (next_insn : Z) (merge_line : RegisterLine) (update_merge_line : bool)
  : Work bool :=
  '(ok, changed) ← update_line next_insn merge_line update_merge_line;
  if negb ok then mret false
  else if (changed : bool) then _ ← change_flags next_insn SetChanged; mret true
  else mret true.

(** ** The cases of the [switch] *)

Definition FromClassChecked (opts : Options) (descriptor : list Z) (klass : Z) (precise : bool) : Flow RegType :=
  if precise && negb (IsInstantiable info klass) && negb (IsPrimitive info klass) then
    _ ← Fail opts VERIFY_ERROR_NO_CLASS; with_cache (FromClass descriptor klass false)
  else with_cache (FromClass descriptor klass precise).

Definition put_return_type (t : RegType) : Work RegType := fun s => Some (t, set_return_type t s).

Definition GetMethodReturnType (opts : Options) : Work RegType :=
  cached ← (fun s => Some (return_type_ s, s));
  match cached with
  | Some t => mret t
  | None =>
      t ← (if negb (return_class =? 0) then
             precise ← need (CannotBeAssignedFromOtherTypes info class_count return_class);
             lift (FromClassChecked opts return_descriptor return_class precise)
           else lift (with_cache (FromDescriptor loader return_descriptor false)));
      put_return_type t
  end.

(** The opcode before the instruction at [pc], for the pattern of an [instance-of] before
    [IF_EQZ] and [IF_NEZ]; the fuel covers the instructions of the code. *)
Fixpoint previous_opcode (fuel : nat) (flags : list InstructionFlags) (idx : Z) : Z :=
  match fuel with
  | O => idx
  | S fuel' =>
      if negb (0 =? idx) && negb (IsOpcode (nth (Z.to_nat idx) flags 0))
      then previous_opcode fuel' flags (idx - 1) else idx
  end.

(** The pattern sharpens the type of the tested register; its operations are not modelled. *)
Definition instance_of_pattern (pc : Z) (flags : list InstructionFlags) : bool :=
  let idx := previous_opcode (length flags) flags (pc - 1) in
  let inst := inst_at pc in
  let instance_of_inst := inst_at idx in
  negb (IsBranchTarget (nth (Z.to_nat pc) flags 0)) && is_code INSTANCE_OF (Opcode instance_of_inst)
  && (VRegA_21t inst =? VRegA_22c instance_of_inst)
  && negb (VRegA_22c instance_of_inst =? VRegB_22c instance_of_inst).

Definition VerifyPattern (pc : Z) : Work () := fun s =>
  if 0 =? pc then Some ((), s)
  else
    let idx := previous_opcode (length (flags_ s)) (flags_ s) (pc - 1) in
    if negb (IsOpcode (nth (Z.to_nat idx) (flags_ s) 0)) then lift FailHard s
    else if instance_of_pattern pc (flags_ s) then None else Some ((), s).

Definition VerifyOpcode (opts : Options) (pc : Z) : Work () :=
  let inst := inst_at pc in
  let c := Opcode inst in
  let registers rt := lift (VerifyRegisters opts need_precise_constants_ loader pc rt c c inst) in
  if between RETURN_VOID c RETURN_OBJECT then
    ok ← (if is_instance_constructor then lift (CheckConstructorReturn opts) else mret true);
    if (ok : bool) then t ← GetMethodReturnType opts; registers t else mret ()
  else
    _ ← registers Conflict;
    if is_code IF_EQZ c || is_code IF_NEZ c then VerifyPattern pc else mret ().

(** ** After the [switch]: the ways on from an instruction *)

Definition has (opcode_flags flag : Z) : bool := negb (Z.land opcode_flags flag =? 0).

(** What [CheckNotMoveException] and [CheckNotMoveResult] answer. *)
Definition not_move_exception (idx : Z) : Work bool :=
  if is_move_exception mem code idx then fail_false else mret true.
Definition not_move_exception_or_result (idx : Z) : Work bool :=
  ok ← not_move_exception idx;
  if negb ok then mret false
  else if is_move_result mem code idx then fail_false else mret true.

(** A branch: the line is that of the instruction.  Answers the offset. *)
Definition TakeBranch (pc : Z) : Work (bool * Z) :=
  match GetBranchOffset mem code pc with
  | None => _ ← fail_false; mret (false, 0)
  | Some (branch_target, _, _) =>
      ok ← not_move_exception_or_result (u32 (pc + branch_target));
      if negb (ok : bool) then mret (false, branch_target)
      else
        v ← verifier;
        ok ← UpdateRegisters (u32 (pc + branch_target)) (work_line_ v) false;
        mret (ok, branch_target)
  end.

(** The targets of a switch from [targ] on. *)
Fixpoint TakeTargets (n : nat) (targets : Z -> Z) (pc targ : Z) : Work bool :=
  match n with
  | O => mret true
  | S n' =>
      let abs_offset := u32 (pc + targets targ) in
      ok ← not_move_exception_or_result abs_offset;
      if negb (ok : bool) then mret false
      else
        v ← verifier;
        ok ← UpdateRegisters abs_offset (work_line_ v) false;
        if negb (ok : bool) then mret false else TakeTargets n' targets pc (targ + 1)
  end.

Definition TakeSwitch (pc : Z) : Work bool :=
  let inst := inst_at pc in
  let offset_to_switch := s32 (Z.lor (inst 1) (s32 (inst 2 ≪ 16))) in
  let switch_insns := RelativeAt inst offset_to_switch in
  let switch_count := switch_insns 1 in
  let offset_to_targets :=
    if Z.land (inst 0) 0xff =? code_value PACKED_SWITCH then 4 else 2 + 2 * switch_count in
  TakeTargets (Z.to_nat switch_count) (fun targ => int_at switch_insns (offset_to_targets + targ * 2)) pc 0.

(** The handlers of the instruction.  The answers are whether to go on, and
    [has_catch_all_handler].  One handler takes at least one byte of the file. *)
Fixpoint TakeHandlersLoop (fuel : nat) (it : CatchHandlerIterator) (has_catch_all_handler : bool)
  : Work (bool * bool) :=
  match fuel with
  | O => fun _ => None
  | S fuel' =>
      if HasNextHandler it then
        let catch_all :=
          (type_idx_ it =? kDexNoIndex16)
          || (negb (ResolveType (type_idx_ it) =? 0) && (ResolveType (type_idx_ it) =? GetJavaLangThrowable)) in
        let has_catch_all_handler := has_catch_all_handler || catch_all in
        v ← verifier;
        ok ← UpdateRegisters (address_ it) (saved_line_ v) false;
        if negb (ok : bool) then mret (false, has_catch_all_handler)
        else it ← need (NextHandler it); TakeHandlersLoop fuel' it has_catch_all_handler
      else mret (true, has_catch_all_handler)
  end.

Definition TakeHandlers (pc : Z) : Work bool :=
  it ← need (MakeCatchHandlerIterator mem code pc);
  '(ok, has_catch_all_handler) ← TakeHandlersLoop (S (length mem)) it false;
  if negb ok then mret false
  else
    v ← verifier;
    let depth := MonitorStackDepth (work_line_ v) in
    if (0 <? depth) && negb has_catch_all_handler
       && (negb (is_code MONITOR_ENTER (Opcode (inst_at pc))) || negb (depth =? 1))
    then fail_false else mret true.

(** The next instruction, at [next_insn_idx]. *)
Definition TakeNext (next_insn_idx : Z) : Work bool :=
  if insns_size <=? next_insn_idx then fail_false
  else
    ok ← not_move_exception next_insn_idx;
    if negb (ok : bool) then mret false
    else
      flags ← flags_of next_insn_idx;
      _ ← (if IsReturnPoint flags then lift (mark_dead (inst_at next_insn_idx)) else mret ());
      next_line ← GetLine next_insn_idx;
      match next_line with
      | Some _ => v ← verifier; UpdateRegisters next_insn_idx (work_line_ v) true
      | None => _ ← change_flags next_insn_idx SetChanged; mret true
      end.

(** [a && b], for steps that may [return false]. *)
Definition when (b : bool) (m : Work bool) : Work bool := if b then m else mret true.
Definition next_if (a b : Work bool) : Work bool := ok ← a; if (ok : bool) then b else mret false.

(** The reaction to failures: the flags of the opcode, or [None] to reject the method. *)
Definition after_failures (opcode_flags : Z) : Work (option Z) := fun s =>
  let v := verifier_ s in
  if have_pending_hard_failure_ v then
    if aot && negb (bool_decide (last (failures_ v) = Some VERIFY_ERROR_BAD_CLASS_HARD)) then None
    else Some (None, s)
  else if have_pending_runtime_throw_failure_ v then
    Some (Some kThrow,
      mkFlow (mkState (reg_types_ v) (work_line_ v) (saved_line_ v) (failures_ v) false false
                (string_init_pc_reg_map_ v))
             (flags_ s) (reg_table_ s) (return_type_ s) true)
  else Some (Some opcode_flags, s).

(** The answers are the result and the new [start_guess].  None of the cases that are modelled
    sets the result register. *)
Definition FlowOn (pc start_guess opcode_flags : Z) : Work (bool * Z) :=
  _ ← lift SetResultTypeToUnknown;
  '(ok, branch_target) ← (if has opcode_flags kBranch then TakeBranch pc else mret (true, 0));
  if negb ok then mret (false, start_guess)
  else
    flags ← flags_of pc;
    size ← (if has opcode_flags kContinue then need (SizeInCodeUnits (inst_at pc)) else mret 0);
    ok ← next_if (when (has opcode_flags kSwitch) (TakeSwitch pc))
        (next_if (when (has opcode_flags kThrow && IsInTry flags) (TakeHandlers pc))
        (next_if (when (has opcode_flags kContinue) (TakeNext (u32 (pc + size))))
                 (when (has opcode_flags kReturn) (lift (VerifyMonitorStackEmpty (options pc flags))))));
    if negb (ok : bool) then mret (false, start_guess)
    else mret (true, if has opcode_flags kContinue then u32 (pc + size)
                     else if has opcode_flags kBranch then u32 (pc + branch_target) else start_guess).

(** [CodeFlowVerifyInstruction] with [work_insn_idx_ = pc]. *)
Definition CodeFlowVerifyInstruction (pc start_guess : Z) : Work (bool * Z) :=
  let inst := inst_at pc in
  flags ← flags_of pc;
  let opts := options pc flags in
  v ← verifier;
  _ ← (if has (FlagsOf (Opcode inst)) kThrow && IsInTry flags
       then put_verifier (with_saved_line (CopyFromLine (work_line_ v) (saved_line_ v)) v) else mret ());
  _ ← VerifyOpcode opts pc;
  let opcode_flags := if is_code MONITOR_EXIT (Opcode inst)
                      then Z.land (FlagsOf (Opcode inst)) (Z.lnot kThrow) else FlagsOf (Opcode inst) in
  go_on ← after_failures opcode_flags;
  match go_on with
  | None => mret (false, start_guess)
  | Some opcode_flags => FlowOn pc start_guess opcode_flags
  end.

(** ** The work list *)

(** The first changed instruction from [idx] on. *)
Fixpoint first_changed (flags : list InstructionFlags) (idx : Z) : Z :=
  match flags with
  | [] => idx
  | f :: flags => if IsChanged f then idx else first_changed flags (idx + 1)
  end.

(** One turn of the loop: the answer is [inl] of the result, or [inr] of [start_guess]. *)
Definition find_changed (start_guess : Z) : Work Z := fun s =>
  Some (first_changed (drop (Z.to_nat start_guess) (flags_ s)) start_guess, s).

(** The line before the instruction, and its verification. *)
Definition ProcessInstruction (insn_idx start_guess : Z) : Work (bool * Z) :=
  flags ← flags_of insn_idx;
  _ ← (if IsBranchTarget flags then
         line ← GetLine insn_idx; line ← need line;
         v ← verifier; put_verifier (with_line (CopyFromLine line (work_line_ v)) v)
       else mret ());
  '(ok, start_guess) ← CodeFlowVerifyInstruction insn_idx start_guess;
  if negb ok then mret (false, start_guess)
  else
    _ ← change_flags insn_idx SetVisited;
    _ ← change_flags insn_idx ClearChanged;
    mret (true, start_guess).

Definition WorkStep (start_guess : Z) : Work (bool + Z) :=
  insn_idx ← find_changed start_guess;
  if insn_idx =? insns_size then
    if negb (start_guess =? 0) then mret (inr 0) else mret (inl true)
  else
    '(ok, start_guess) ← ProcessInstruction insn_idx start_guess;
    if negb ok then mret (inl false) else mret (inr start_guess).

Fixpoint WorkLoop (fuel : nat) (start_guess : Z) : Work bool :=
  match fuel with
  | O => fun _ => None
  | S fuel' =>
      next ← WorkStep start_guess;
      match next with
      | inl result => mret result
      | inr start_guess => WorkLoop fuel' start_guess
      end
  end.

Definition CodeFlowVerifyMethod (fuel : nat) : Work bool :=
  _ ← change_flags 0 SetChanged; WorkLoop fuel 0.
End Flow.
