(* ===== verification/MethodChecksFacts.v ===== *)
(** * What the static checks establish

    The flag [kOpcode] marks exactly the positions that instructions start at, the later passes
    keep it, and every branch and switch target of an accepted method has it. *)
From stdpp Require Import list.
From S2P Require Import Prelude.
From S2P Require Import Leb128.
From S2P Require Import DexFile.
From S2P Require Import DexInstruction.
From S2P Require Import ShadowFrame.
From S2P Require Import Runtime.
From S2P Require Import TryCatch.
From S2P Require Import RegisterLine.
From S2P Require Import MethodChecks.
From S2P Require Import Interpreter.
From S2P Require Import InterpreterFacts.
Local Open Scope Z_scope.

Create HintDb marks discriminated.

(** ** Bits *)

Lemma has_bit_testbit k f : 0 <= k -> has_bit k f = Z.testbit f k.
Proof.
  intros Hk. unfold has_bit. rewrite Z.shiftl_mul_pow2, Z.mul_1_l by lia.
  destruct (Z.testbit f k) eqn:E.
  - apply negb_true_iff, Z.eqb_neq. intros E'. apply (f_equal (fun x => Z.testbit x k)) in E'.
    by rewrite Z.land_spec, E, Z.pow2_bits_true, Z.bits_0 in E'.
  - apply negb_false_iff, Z.eqb_eq. apply Z.bits_inj'. intros n Hn.
    rewrite Z.land_spec, Z.bits_0. destruct (Z.eq_dec n k) as [->|]; [by rewrite E|].
    rewrite Z.pow2_bits_false by done. apply andb_false_r.
Qed.

Lemma testbit_u8 f k : 0 <= k < 8 -> Z.testbit (u8 f) k = Z.testbit f k.
Proof. intros Hk. unfold u8, u. rewrite Z.mod_pow2_bits_low by lia. done. Qed.

Lemma set_bit_spec k j f : 0 <= k < 8 -> 0 <= j < 8 ->
  has_bit j (set_bit k f) = (has_bit j f || (j =? k)).
Proof.
  intros Hk Hj. rewrite !has_bit_testbit by lia. unfold set_bit.
  rewrite testbit_u8, Z.lor_spec, Z.shiftl_mul_pow2, Z.mul_1_l by lia. f_equal.
  destruct (Z.eqb_spec j k) as [->|]; [by rewrite Z.pow2_bits_true by lia|by rewrite Z.pow2_bits_false].
Qed.

Lemma clear_bit_spec k j f : 0 <= k < 8 -> 0 <= j < 8 ->
  has_bit j (clear_bit k f) = (has_bit j f && negb (j =? k)).
Proof.
  intros Hk Hj. rewrite !has_bit_testbit by lia. unfold clear_bit.
  rewrite testbit_u8, Z.land_spec, Z.lnot_spec, Z.shiftl_mul_pow2, Z.mul_1_l by lia. f_equal. f_equal.
  destruct (Z.eqb_spec j k) as [->|]; [by rewrite Z.pow2_bits_true by lia|by rewrite Z.pow2_bits_false].
Qed.

(** ** Passes that keep [kOpcode] *)

Definition opcode_at (s : CheckState) (i : Z) : Prop :=
  0 <= i /\ exists f, insn_flags_ s !! Z.to_nat i = Some f /\ IsOpcode f = true.

(** The later passes change neither [kOpcode] nor the flags of the work list, and clear nothing
    of the try regions. *)
Definition later_flags (f f' : InstructionFlags) : Prop :=
  IsOpcode f' = IsOpcode f /\ IsVisitedOrChanged f' = IsVisitedOrChanged f /\
  (IsInTry f = true -> IsInTry f' = true).

Lemma later_flags_refl f : later_flags f f.
Proof. done. Qed.

Lemma later_flags_trans f g h : later_flags f g -> later_flags g h -> later_flags f h.
Proof. intros (? & ? & ?) (? & ? & ?). split_and!; [congruence..|auto]. Qed.

Definition same_opcodes (s s' : CheckState) : Prop :=
  length (insn_flags_ s') = length (insn_flags_ s) /\
  forall i f, insn_flags_ s !! i = Some f ->
    exists f', insn_flags_ s' !! i = Some f' /\ later_flags f f'.

Lemma same_opcodes_refl s : same_opcodes s s.
Proof. split; [done|eauto using later_flags_refl]. Qed.

Lemma same_opcodes_trans s s1 s2 : same_opcodes s s1 -> same_opcodes s1 s2 -> same_opcodes s s2.
Proof.
  intros (L1 & H1) (L2 & H2). split; [congruence|]. intros i f Hf.
  destruct (H1 i f Hf) as (g & Hg & Hfg). destruct (H2 i g Hg) as (h & Hh & Hgh).
  exists h. split; [done|]. by eapply later_flags_trans.
Qed.

Lemma same_opcodes_at s s' i : same_opcodes s s' -> opcode_at s i <-> opcode_at s' i.
Proof.
  intros (Hl & H). split; intros (Hi & f & Hf & Ho); split; try done.
  - destruct (H _ f Hf) as (g & Hg & E & _). exists g. split; [done|congruence].
  - destruct (lookup_lt_is_Some_2 (insn_flags_ s) (Z.to_nat i)) as (g & Hg).
    { apply lookup_lt_Some in Hf. lia. }
    destruct (H _ g Hg) as (f' & Hf' & E & _). exists g. split; [done|congruence].
Qed.

Definition marks {A} (m : Check A) : Prop := forall s x s', m s = Some (x, s') -> same_opcodes s s'.

Lemma marks_ret {A} (x : A) : marks (mret x).
Proof. intros s y s' [= _ <-]. apply same_opcodes_refl. Qed.
Lemma check_bind_inv {A B} (m : Check A) (f : A -> Check B) s x s' : (m ≫= f) s = Some (x, s') ->
  exists y s1, m s = Some (y, s1) /\ f y s1 = Some (x, s').
Proof. unfold mbind, Check_bind. destruct (m s) as [[y s1]|]; [eauto|done]. Qed.
Lemma marks_bind {A B} (m : Check A) (f : A -> Check B) :
  marks m -> (forall x, marks (f x)) -> marks (m ≫= f).
Proof.
  intros Hm Hf s x s' (y & s1 & E & E')%check_bind_inv. eapply same_opcodes_trans; [by eapply Hm|by eapply Hf].
Qed.
Lemma marks_reject : marks reject.
Proof. intros s x s' [= _ <-]. split; [done|eauto using later_flags_refl]. Qed.
Lemma check_require_inv {A} (o : option A) s x s' : check_require o s = Some (x, s') -> o = Some x /\ s' = s.
Proof. unfold check_require. destruct o; [by intros [= <- <-]|done]. Qed.
Lemma marks_require {A} (o : option A) : marks (check_require o).
Proof. intros s x s' (_ & ->)%check_require_inv. apply same_opcodes_refl. Qed.
Lemma flag_at_inv i s f s' : flag_at i s = Some (f, s') ->
  s' = s /\ 0 <= i /\ insn_flags_ s !! Z.to_nat i = Some f.
Proof.
  unfold flag_at. destruct (Z.leb_spec 0 i); [|done].
  destruct (insn_flags_ s !! Z.to_nat i); [|done]. by intros [= <- <-].
Qed.
Lemma marks_flag_at i : marks (flag_at i).
Proof. intros s x s' (-> & _)%flag_at_inv. apply same_opcodes_refl. Qed.
Lemma change_flag_inv i change s x s' : change_flag i change s = Some (x, s') ->
  0 <= i /\ exists f, insn_flags_ s !! Z.to_nat i = Some f /\
    s' = set_flags (<[Z.to_nat i := change f]> (insn_flags_ s)) s.
Proof.
  unfold change_flag. destruct (Z.leb_spec 0 i); [|done].
  destruct (insn_flags_ s !! Z.to_nat i) as [f|]; [|done]. intros [= <-]. eauto.
Qed.
Lemma marks_change i change : (forall f, later_flags f (change f)) -> marks (change_flag i change).
Proof.
  intros Hc s x s' (Hi & f & Hf & ->)%change_flag_inv. split; [by cbn; rewrite length_insert|]. cbn.
  intros j g Hg. destruct (decide (Z.to_nat i = j)) as [<-|Hne].
  - exists (change f). simplify_eq. split; [|apply Hc].
    apply list_lookup_insert_eq. by apply lookup_lt_Some in Hf.
  - exists g. rewrite list_lookup_insert_ne by done. split; [done|apply later_flags_refl].
Qed.

Lemma set_bit_later k f : 3 <= k < 8 -> later_flags f (set_bit k f).
Proof.
  intros Hk. unfold later_flags, IsOpcode, IsVisitedOrChanged, IsVisited, IsChanged, IsInTry.
  rewrite !set_bit_spec by (unfold kOpcode, kVisited, kChanged, kInTry; lia).
  unfold kOpcode, kVisited, kChanged, kInTry. repeat case_Zcmp; try lia; by rewrite ?orb_false_r, ?orb_true_r.
Qed.

Lemma marks_set i k : 3 <= k < 8 -> marks (change_flag i (set_bit k)).
Proof. intros. apply marks_change. intros. by apply set_bit_later. Qed.
Lemma marks_branch_target i : marks (change_flag i SetBranchTarget).
Proof. by apply marks_set. Qed.
Lemma marks_info_point i : marks (change_flag i SetCompileTimeInfoPoint).
Proof. by apply marks_set. Qed.
Lemma marks_in_try i : marks (change_flag i SetInTry).
Proof. by apply marks_set. Qed.
Lemma marks_return_point i : marks (change_flag i SetCompileTimeInfoPointAndReturn).
Proof.
  apply marks_change. intros f. unfold SetCompileTimeInfoPointAndReturn, SetReturn, SetCompileTimeInfoPoint.
  eapply later_flags_trans; by apply set_bit_later.
Qed.

#[export] Hint Resolve marks_ret marks_reject marks_require marks_flag_at marks_branch_target
  marks_info_point marks_in_try marks_return_point : marks.

Ltac marks_tac :=
  repeat match goal with
  | |- marks (_ ≫= _) => apply marks_bind; [|intros ?]
  | |- marks (and_then _ _) => apply marks_bind; [|intros ?]
  | |- marks (if ?b then _ else _) => destruct b
  | |- marks (let '(_, _) := ?p in _) => destruct p
  | |- marks (match ?p with pair _ _ => _ end) => destruct p
  | |- marks (match ?o with Some _ => _ | None => _ end) => destruct o
  | |- marks _ => solve [auto with marks]
  end.

(** ** Where instructions start *)

Section Method.
Variables (df : DexFile) (mem : list Z) (code : Z) (is_aot_compiler verify_to_dump_ : bool).
Hypothesis bytes : Forall is_byte mem.

Abbreviation insns := (insns_ mem code).
Abbreviation insns_size := (insns_size_in_code_units_ mem code).
Abbreviation inst_at i := (RelativeAt insns i).

(** The positions from [p] on, by the sizes of the instructions. *)
Inductive reach (p : Z) : Z -> Prop :=
  | reach_here : p < insns_size -> reach p p
  | reach_next n i : p < insns_size -> SizeInCodeUnits (inst_at p) = Some n -> reach (p + n) i -> reach p i.

Definition starts : Z -> Prop := reach 0.

Lemma reach_bound p i : reach p i -> i < insns_size.
Proof. by induction 1. Qed.

Lemma reach_step p i n : reach p i -> SizeInCodeUnits (inst_at i) = Some n -> i + n < insns_size -> reach p (i + n).
Proof.
  induction 1 as [|p k i Hp Hk _ IH]; intros Hn Hlt.
  - eapply reach_next; [done|done|by constructor].
  - eapply reach_next; [done|done|auto].
Qed.

Lemma wf_insns i : wf_units (inst_at i).
Proof. intros o. by apply (get_le_range 2). Qed.

Lemma size_positive i n : SizeInCodeUnits (inst_at i) = Some n -> 1 <= n.
Proof.
  unfold SizeInCodeUnits.
  assert (Hk : forall c, (kInstructionSizeInCodeUnits c <? 0) || (1 <=? kInstructionSizeInCodeUnits c) = true)
    by (intros []; reflexivity).
  destruct (Z.ltb_spec (kInstructionSizeInCodeUnits (Opcode (inst_at i))) 0) as [Hneg|Hpos].
  - unfold SizeInCodeUnitsComplexOpcode. pose proof (wf_insns i 1) as H1.
    repeat match goal with |- (if ?b then _ else _) = _ -> _ => destruct b end; intros [= <-]; try lia.
    word_unfold. div_lia.
  - intros [= <-]. specialize (Hk (Opcode (inst_at i))). rewrite orb_true_iff, Z.ltb_lt, Z.leb_le in Hk. lia.
Qed.

Lemma reach_ge p i : reach p i -> p <= i.
Proof. induction 1 as [|p k i _ E _ IH]; [lia|]. apply size_positive in E. lia. Qed.

Lemma count_op_flags c s x s' : count_op c s = Some (x, s') -> insn_flags_ s' = insn_flags_ s.
Proof.
  unfold count_op. destruct (match c with APUT_OBJECT => _ | _ => _ end) as [[[a b] d] e]. by intros [= _ <-].
Qed.

Lemma opcode_at_mark s p i f : 0 <= p -> insn_flags_ s !! Z.to_nat p = Some f ->
  opcode_at (set_flags (<[Z.to_nat p := SetIsOpcode f]> (insn_flags_ s)) s) i <-> opcode_at s i \/ i = p.
Proof.
  intros Hp Hf. pose proof (lookup_lt_Some _ _ _ Hf) as Hlt. unfold opcode_at. cbn [insn_flags_ set_flags]. split.
  - intros (Hi & g & Hg & Ho). destruct (Z.eq_dec i p) as [->|Hne]; [by right|left].
    rewrite list_lookup_insert_ne in Hg by lia. eauto.
  - intros [(Hi & g & Hg & Ho)| ->].
    + split; [done|]. destruct (Z.eq_dec i p) as [->|Hne].
      * exists (SetIsOpcode f). rewrite list_lookup_insert_eq by done. split; [done|].
        unfold IsOpcode, SetIsOpcode. rewrite set_bit_spec by (unfold kOpcode; lia). by rewrite orb_true_r.
      * exists g. by rewrite list_lookup_insert_ne by lia.
    + split; [done|]. exists (SetIsOpcode f). rewrite list_lookup_insert_eq by done. split; [done|].
      unfold IsOpcode, SetIsOpcode. rewrite set_bit_spec by (unfold kOpcode; lia). by rewrite orb_true_r.
Qed.

Lemma widths_loop fuel p s e s' : 0 <= p -> ComputeWidthsLoop mem code fuel p s = Some (e, s') ->
  p <= e /\ length (insn_flags_ s') = length (insn_flags_ s) /\
  (forall i, opcode_at s' i <-> opcode_at s i \/ reach p i) /\
  (forall i n, reach p i -> SizeInCodeUnits (inst_at i) = Some n -> i + n <= e).
Proof.
  revert p s. induction fuel as [|fuel IH]; intros p s Hp; [done|]. cbn [ComputeWidthsLoop].
  destruct (Z.ltb_spec p insns_size) as [Hlt|Hge].
  - intros (x & s1 & E1 & E)%check_bind_inv. apply count_op_flags in E1.
    apply check_bind_inv in E as (n & s2 & E2 & E). apply check_require_inv in E2 as (En & ->).
    apply check_bind_inv in E as ([] & s2 & E2 & E). apply change_flag_inv in E2 as (_ & f & Hf & ->).
    pose proof (size_positive p n En). apply IH in E as (Hpe & Hl & Ho & He); [|lia]. split_and!.
    + lia.
    + rewrite Hl. cbn. by rewrite length_insert, E1.
    + intros i. rewrite Ho, opcode_at_mark by done.
      assert (opcode_at s1 i <-> opcode_at s i) as -> by (unfold opcode_at; by rewrite E1). split.
      * intros [[?| ->]|?]; [by left|right; by constructor|right; by eapply reach_next].
      * intros [?|Hr]; [by left; left|]. inversion Hr as [|k j _ Ek Hj]; subst; [by left; right|right].
        congruence.
    + intros i k Hr Ek. inversion Hr as [|k' j _ Ek' Hj]; subst.
      * assert (k = n) as -> by congruence. lia.
      * assert (k' = n) as -> by congruence. by apply (He i).
  - intros [= <- <-]. split; [done|]. split; [done|]. split.
    + intros i. split; [by left|]. intros [?|Hr]; [done|]. inversion Hr; lia.
    + intros i n Hr. inversion Hr; lia.
Qed.

(** *** The later passes *)

Lemma marks_not_result i : marks (CheckNotMoveResult mem code i).
Proof. unfold CheckNotMoveResult. marks_tac. Qed.
Lemma marks_mark_in_try fuel p e : marks (MarkInTry mem code fuel p e).
Proof. revert p. induction fuel as [|fuel IH]; intros p; [done|]. cbn [MarkInTry]. marks_tac. Qed.
Hint Resolve marks_not_result marks_mark_in_try : marks.
Lemma marks_scan_try t : marks (ScanTry mem code t).
Proof. unfold ScanTry. cbv zeta. marks_tac. Qed.
Hint Resolve marks_scan_try : marks.
Lemma marks_scan_tries n idx : marks (ScanTries mem code n idx).
Proof. revert idx. induction n as [|n IH]; intros idx; cbn [ScanTries]; marks_tac. Qed.
Lemma marks_handler_list fuel it : marks (ScanHandlerList mem code fuel it).
Proof. revert it. induction fuel as [|fuel IH]; intros it; [done|]. cbn [ScanHandlerList]. cbv zeta. marks_tac. Qed.
Hint Resolve marks_scan_tries marks_handler_list : marks.
Lemma marks_handlers n p : marks (ScanHandlers mem code n p).
Proof. revert p. induction n as [|n IH]; intros p; cbn [ScanHandlers]; marks_tac. Qed.
Hint Resolve marks_handlers : marks.
Lemma marks_scan : marks (ScanTryCatchBlocks mem code).
Proof. unfold ScanTryCatchBlocks. cbv zeta. marks_tac. Qed.

Lemma marks_target i b : marks (mark_target i b).
Proof. unfold mark_target. marks_tac. Qed.
Hint Resolve marks_target : marks.
Lemma marks_branch i : marks (CheckBranchTarget mem code i).
Proof. unfold CheckBranchTarget. cbv zeta. destruct (GetBranchOffset mem code i) as [[[? ?] ?]|]; marks_tac. Qed.
Lemma marks_targets n targets p k : marks (CheckTargets mem code n targets p k).
Proof. revert k. induction n as [|n IH]; intros k; cbn [CheckTargets]; cbv zeta; marks_tac. Qed.
Hint Resolve marks_branch marks_targets : marks.
Lemma marks_switch i : marks (CheckSwitchTargets mem code i).
Proof. unfold CheckSwitchTargets. cbv zeta. marks_tac. Qed.
Lemma marks_array i : marks (CheckArrayData mem code i).
Proof. unfold CheckArrayData. cbv zeta. marks_tac. Qed.
Lemma marks_args l : marks (CheckVarArgRegs mem code l).
Proof. induction l as [|a l IH]; cbn [CheckVarArgRegs]; marks_tac. Qed.
Hint Resolve marks_switch marks_array marks_args : marks.

Lemma marks_operand o c : (forall v, marks (c v)) -> marks (with_operand o c).
Proof. intros H. unfold with_operand. marks_tac. Qed.

Ltac check_tac := apply marks_operand; intros ?;
  unfold CheckRegisterIndex, CheckWideRegisterIndex, CheckFieldIndex, CheckMethodIndex, CheckStringIndex,
    CheckTypeIndex, CheckNewInstance, CheckNewArray, CheckVarArgRangeRegs, descriptor_of; cbv zeta; marks_tac.

Lemma marks_operand_a i : marks (VerifyOperandA mem code i).
Proof. unfold VerifyOperandA, CheckRegisterIndex, CheckWideRegisterIndex. cbv zeta. marks_tac. Qed.
Lemma marks_operand_b i : marks (VerifyOperandB df mem code i).
Proof. unfold VerifyOperandB. cbv zeta. repeat (case_match; [check_tac|]). all: marks_tac. Qed.
Lemma marks_operand_c i : marks (VerifyOperandC df mem code i).
Proof. unfold VerifyOperandC. cbv zeta. repeat (case_match; [check_tac|]). all: marks_tac. Qed.
Lemma marks_range i : marks (with_operand (VRegC i) (CheckVarArgRangeRegs mem code (VRegA i))).
Proof. check_tac. Qed.
Hint Resolve marks_operand_a marks_operand_b marks_operand_c marks_range : marks.
Lemma marks_extra i p r : marks (VerifyExtra mem code i p r).
Proof. unfold VerifyExtra. cbv zeta. marks_tac. Qed.
Hint Resolve marks_extra : marks.

Abbreviation verify := (VerifyInstruction df mem code is_aot_compiler verify_to_dump_).

Lemma marks_verify i p : marks (verify i p).
Proof. unfold VerifyInstruction. marks_tac. Qed.
Lemma marks_points i p : marks (mark_points mem code i p).
Proof. unfold mark_points. marks_tac. Qed.

Lemma verify_loop fuel p s s' : VerifyInstructionsLoop df mem code is_aot_compiler verify_to_dump_ fuel p s = Some (true, s') ->
  same_opcodes s s' /\ forall i, reach p i -> exists s1 s2, verify (inst_at i) i s1 = Some (true, s2) /\ same_opcodes s s1.
Proof.
  revert p s. induction fuel as [|fuel IH]; intros p s; [done|]. cbn [VerifyInstructionsLoop].
  destruct (Z.ltb_spec p insns_size) as [Hlt|Hge].
  - intros (ok & s1 & E1 & E)%check_bind_inv. destruct ok; cbn [negb] in E; [|done].
    apply check_bind_inv in E as ([] & s2 & E2 & E). apply check_bind_inv in E as (n & s3 & E3 & E).
    apply check_require_inv in E3 as (En & ->). apply IH in E as (Hs & Hall).
    pose proof (marks_verify _ _ _ _ _ E1) as H1. pose proof (marks_points _ _ _ _ _ E2) as H2.
    pose proof (same_opcodes_trans _ _ _ H1 H2) as H12.
    split; [by eapply same_opcodes_trans|]. intros i Hr. inversion Hr as [|k j _ Ek Hj]; subst.
    + exists s, s1. split; [done|apply same_opcodes_refl].
    + assert (k = n) as -> by congruence. destruct (Hall i Hj) as (s4 & s5 & Hv & Hs4).
      exists s4, s5. split; [done|]. by eapply same_opcodes_trans.
  - intros [= <-]. split; [apply same_opcodes_refl|]. intros i Hr. inversion Hr; lia.
Qed.

(** No instruction is marked yet. *)
Definition fresh (s : CheckState) : Prop := forall i, ~ opcode_at s i.

Lemma static_checks s s' : fresh s -> StaticChecks df mem code is_aot_compiler verify_to_dump_ s = Some (true, s') ->
  (forall i, opcode_at s' i <-> starts i) /\
  (forall i n, starts i -> SizeInCodeUnits (inst_at i) = Some n -> i + n <= insns_size) /\
  (forall i, starts i -> exists s1 s2, verify (inst_at i) i s1 = Some (true, s2) /\
    forall j, opcode_at s1 j <-> starts j).
Proof.
  intros Hfresh. unfold StaticChecks, and_then.
  intros (ok & s1 & E1 & E)%check_bind_inv. destruct ok; [|done].
  apply check_bind_inv in E as (ok & s2 & E2 & E). destruct ok; [|done].
  unfold ComputeWidthsAndCountOps in E1.
  destruct (ComputeWidthsLoop _ _ _ _ _) as [[e s0]|] eqn:E0; [|done]. cbn [mbind option_bind] in E1.
  destruct (Z.eqb_spec e insns_size) as [->|]; cbn [negb] in E1; [|done]. injection E1 as <-.
  apply widths_loop in E0 as (_ & _ & Ho & Hend); [|lia].
  assert (Hstart : forall i, opcode_at s0 i <-> starts i).
  { intros i. rewrite Ho. split; [intros [H|H]; [|done]|by right]. by destruct (Hfresh i). }
  assert (H2 : same_opcodes s0 s2) by (by eapply marks_scan).
  unfold VerifyInstructions in E. apply check_bind_inv in E as ([] & s3 & E3 & E).
  apply check_bind_inv in E as ([] & s4 & E4 & E). apply marks_branch_target in E3. apply marks_info_point in E4.
  apply verify_loop in E as (Hs & Hall).
  assert (H4 : same_opcodes s0 s4) by (eauto using same_opcodes_trans).
  split_and!; [|done|].
  - intros i. rewrite <- Hstart. symmetry. apply same_opcodes_at. by eapply same_opcodes_trans.
  - intros i Hr. destruct (Hall i Hr) as (s5 & s6 & Hv & H5). exists s5, s6. split; [done|].
    intros j. rewrite <- Hstart. symmetry. apply same_opcodes_at. by eapply same_opcodes_trans.
Qed.

(** ** Targets *)

Lemma mark_target_inv i b s s' : mark_target i b s = Some (true, s') -> b = true /\ opcode_at s i.
Proof.
  unfold mark_target. destruct b; cbn [negb]; [|done].
  intros (f & s1 & (-> & Hi & Hf)%flag_at_inv & E)%check_bind_inv. split; [done|]. split; [done|]. exists f.
  split; [done|]. by destruct (IsOpcode f).
Qed.

Lemma targets_inv n targets p k s s' : CheckTargets mem code n targets p k s = Some (true, s') ->
  forall j, k <= j < k + Z.of_nat n ->
    let abs := s32 (p + targets j) in 0 <= abs < s32 insns_size /\ opcode_at s abs.
Proof.
  revert k s. induction n as [|n IH]; intros k s; cbn [CheckTargets]; [intros _ j; lia|]. cbv zeta. unfold and_then.
  intros (ok & s1 & E1 & E)%check_bind_inv. destruct ok; [|done]. pose proof (marks_target _ _ _ _ _ E1) as Hs.
  apply mark_target_inv in E1 as (Hb & Ho). apply andb_true_iff in Hb as (Hb1%Z.leb_le & Hb2%Z.ltb_lt).
  intros j Hj. destruct (Z.eq_dec j k) as [->|Hne]; [done|].
  destruct (IH _ _ E j) as (Hr & Hj'); [lia|]. split; [done|]. by rewrite (same_opcodes_at s s1).
Qed.

(** The checks of one instruction that concern control flow. *)
Lemma verify_extra i p s s' : verify i p s = Some (true, s') ->
  exists s1 s2 r, same_opcodes s s1 /\ VerifyExtra mem code i p r s1 = Some ((false, true), s2).
Proof.
  unfold VerifyInstruction. intros (r & s1 & E1 & E)%check_bind_inv.
  apply check_bind_inv in E as ([ret r'] & s2 & E2 & E).
  assert (Hs : same_opcodes s s1) by (revert E1; apply (marks_bind _ _ (marks_operand_a i)); intros []; marks_tac).
  destruct ret; [done|]. destruct (_ && _ && _) in E; [done|]. injection E as -> ->. by eexists s1, _, r.
Qed.

Lemma extra_of_branch c : implb (has_flag c kBranch) (Z.land (VerifyFlagsOf c) 0x5FC000 =? kVerifyBranchTarget) = true.
Proof. by destruct c. Qed.
Lemma extra_of_switch c : implb (has_flag c kSwitch) (Z.land (VerifyFlagsOf c) 0x5FC000 =? kVerifySwitchTargets) = true.
Proof. by destruct c. Qed.

Lemma branch_offset i off : has_flag (Opcode (inst_at i)) kBranch = true -> GetTargetOffset (inst_at i) = Some off ->
  exists cond self, GetBranchOffset mem code i = Some (off, cond, self).
Proof.
  intros Hf. unfold GetTargetOffset, GetBranchOffset. cbv zeta.
  change (code_of_Z (Z.land (insns (i + 0)) 255)) with (Opcode (inst_at i)).
  pose proof (wf_insns i 0) as H0.
  destruct (Opcode (inst_at i)) eqn:Ec; try discriminate Hf; intros E;
    match type of E with context [FormatOf ?c] =>
      let f := eval vm_compute in (FormatOf c) in change (FormatOf c) with f in E end;
    cbv iota in E; injection E as <-; eexists _, _; try reflexivity.
  do 3 f_equal. unfold VRegA_10t, InstAA, Fetch16, RelativeAt in *. rewrite !Z.shiftr_div_pow2 by lia.
  revert H0. generalize (insns (i + 0)). word_lia.
Qed.

Lemma branch_start i off cond self s s' : starts i -> (forall j, opcode_at s j <-> starts j) ->
  verify (inst_at i) i s = Some (true, s') -> has_flag (Opcode (inst_at i)) kBranch = true ->
  GetBranchOffset mem code i = Some (off, cond, self) -> starts (i + off).
Proof.
  intros Hi Ho Hv Hf Eb. apply verify_extra in Hv as (s1 & s2 & r & Hs & Hv).
  pose proof (extra_of_branch (Opcode (inst_at i))) as Hk. rewrite Hf in Hk. apply Z.eqb_eq in Hk.
  unfold VerifyExtra in Hv. cbv zeta in Hv. change (GetVerifyExtraFlags (inst_at i)) with (Z.land (VerifyFlagsOf (Opcode (inst_at i))) 0x5FC000) in Hv.
  rewrite Hk in Hv. cbn [Z.eqb kVerifyBranchTarget kVerifyArrayData Pos.eqb] in Hv.
  apply check_bind_inv in Hv as (b & s3 & E & Hv). injection Hv as -> ->.
  apply check_bind_inv in E as (r' & s4 & E1 & E). injection E1 as -> ->. destruct r'; [|done].
  unfold CheckBranchTarget in E. rewrite Eb in E. destruct (_ && _) in E; [done|].
  destruct (Z.eqb_spec (i + off) (u32 (i + off))) as [Eu|]; cbn [negb] in E; [|done].
  apply mark_target_inv in E as (Hb & Hop). apply andb_true_iff in Hb as (Hb1%Z.leb_le & Hb2%Z.ltb_lt).
  rewrite <- (same_opcodes_at s), Ho in Hop by done.
  replace (i + off) with (s32 (i + off)); [done|]. revert Eu Hb1. word_lia.
Qed.

Lemma switch_offset_eq i : s32 (Z.lor (insns (i + 1)) (s32 (insns (i + 2) ≪ 16))) = VRegB_31t (inst_at i).
Proof.
  unfold VRegB_31t, Fetch32, Fetch16, RelativeAt. replace (i + (1 + 1)) with (i + 2) by lia.
  pose proof (wf_insns i 1) as H1. pose proof (wf_insns i 2) as H2. unfold RelativeAt in H1, H2.
  revert H1 H2. generalize (insns (i + 1)), (insns (i + 2)). intros a b Ha Hb.
  assert (E1 : s32 (b ≪ 16) = s16 b ≪ 16) by (rewrite !Z.shiftl_mul_pow2 by lia; revert Hb; word_lia).
  assert (E2 : u32 (b ≪ 16) = b ≪ 16) by (rewrite !Z.shiftl_mul_pow2 by lia; revert Hb; word_lia).
  rewrite E1, E2, !lor_low_shiftl by (reduce_pow; lia). revert Ha Hb. word_lia.
Qed.

(** The targets of a switch, as the interpreter reads them. *)
Definition switch_target (c : Code) (data : Instruction) (k : Z) : Z :=
  match c with PACKED_SWITCH => packed_target data k | _ => GetTargets data k end.

Lemma packed_offset inst f off : DoPackedSwitch inst f = Some off -> off = 3 \/
  exists k, 0 <= k < case_count (RelativeAt inst (VRegB_31t inst)) /\
    off = packed_target (RelativeAt inst (VRegB_31t inst)) k.
Proof.
  unfold DoPackedSwitch. cbv zeta. destruct (GetVReg f _) as [v|]; [|done]. cbn [mbind option_bind].
  destruct (_ =? 0); [intros [= <-]; by left|]. destruct (_ && _) eqn:E; [|intros [= <-]; by left].
  apply andb_true_iff in E as (E1%Z.leb_le & E2%Z.ltb_lt). intros [= <-]. right. eexists. split; [|reflexivity]. done.
Qed.

Lemma sparse_search_target fuel keys entries v lo hi off : SparseSearch fuel keys entries v lo hi = Some off ->
  0 <= lo -> off = 3 \/ exists k, lo <= k <= hi /\ off = entries k.
Proof.
  revert lo hi. induction fuel as [|fuel IH]; intros lo hi; [done|]. cbn [SparseSearch]. cbv zeta.
  destruct (Z.leb_spec lo hi); [|intros [= <-]; by left]. intros E Hlo.
  rewrite Z.quot_div_nonneg in E by lia. set (mid := (lo + hi) / 2) in *.
  assert (lo <= mid <= hi) by (subst mid; div_lia).
  destruct (v <? keys mid); [|destruct (keys mid <? v)].
  - destruct (IH _ _ E) as [?|(k & ? & ?)]; [lia|by left|right; exists k; split; [lia|done]].
  - destruct (IH _ _ E) as [?|(k & ? & ?)]; [lia|by left|right; exists k; split; [lia|done]].
  - injection E as <-. right. by exists mid.
Qed.

Lemma sparse_offset inst f off : DoSparseSwitch inst f = Some off -> off = 3 \/
  exists k, 0 <= k < case_count (RelativeAt inst (VRegB_31t inst)) /\
    off = GetTargets (RelativeAt inst (VRegB_31t inst)) k.
Proof.
  unfold DoSparseSwitch. cbv zeta. destruct (GetVReg f _) as [v|]; [|done]. cbn [mbind option_bind].
  destruct (_ =? 0); [intros [= <-]; by left|]. intros E.
  apply sparse_search_target in E as [->|(k & Hk & ->)]; [by left| |lia]. right. exists k.
  split; [|done]. unfold case_count. lia.
Qed.

Lemma switch_target_starts i k s s' : starts i -> (forall j, opcode_at s j <-> starts j) ->
  verify (inst_at i) i s = Some (true, s') -> has_flag (Opcode (inst_at i)) kSwitch = true ->
  let data := RelativeAt (inst_at i) (VRegB_31t (inst_at i)) in
  0 <= k < case_count data -> starts (i + switch_target (Opcode (inst_at i)) data k).
Proof.
  intros Hi Ho Hv Hf data Hk. apply verify_extra in Hv as (s1 & s2 & r & Hs & Hv).
  pose proof (extra_of_switch (Opcode (inst_at i))) as Hx. rewrite Hf in Hx. apply Z.eqb_eq in Hx.
  unfold VerifyExtra in Hv. cbv zeta in Hv. change (GetVerifyExtraFlags (inst_at i)) with (Z.land (VerifyFlagsOf (Opcode (inst_at i))) 0x5FC000) in Hv.
  rewrite Hx in Hv. cbn [Z.eqb kVerifyBranchTarget kVerifyArrayData kVerifySwitchTargets Pos.eqb] in Hv.
  apply check_bind_inv in Hv as (b & s3 & E & Hv). injection Hv as -> ->.
  apply check_bind_inv in E as (r' & s4 & E1 & E). injection E1 as -> ->. destruct r'; [|done].
  unfold CheckSwitchTargets in E. cbv zeta in E. rewrite switch_offset_eq in E.
  destruct (_ || _) in E; [done|]. destruct (unaligned _ _) in E; [done|]. destruct (negb (_ =? _)) in E; [done|].
  destruct (_ <? _) in E; [done|]. destruct (_ && _) in E; [done|].
  assert (Hdata : forall o, insns (i + VRegB_31t (inst_at i) + o) = data o) by (intros o; unfold data, RelativeAt; f_equal; lia).
  destruct (targets_inv _ _ _ _ _ _ E k) as (Hr & Hop).
  { unfold RelativeAt at 1. rewrite Hdata. change (data 1) with (case_count data). lia. }
  rewrite <- (same_opcodes_at s), Ho in Hop by done.
  match type of Hr with 0 <= s32 (i + ?t) < _ => replace t with (switch_target (Opcode (inst_at i)) data k) in * end.
  - replace (i + switch_target (Opcode (inst_at i)) data k) with (s32 (i + switch_target (Opcode (inst_at i)) data k)); [done|].
    pose proof (reach_bound _ _ Hi). pose proof (reach_ge _ _ Hi).
    assert (is_s 32 (switch_target (Opcode (inst_at i)) data k)).
    { unfold switch_target, packed_target, GetTargets, int_at. destruct (Opcode (inst_at i)); apply (s_range 32); lia. }
    revert Hr H H0 H1. assert (Hu : is_u 32 insns_size) by (by apply (get_le_range 4)). revert Hu. word_lia.
  - assert (Hd : RelativeAt insns (i + VRegB_31t (inst_at i)) 1 = case_count data) by apply Hdata.
    assert (Hi_at : forall o, int_at (RelativeAt insns (i + VRegB_31t (inst_at i))) o = int_at data o).
    { intros o. unfold int_at, Fetch32, Fetch16, RelativeAt. by rewrite !Hdata. }
    rewrite Hd, Hi_at. pose proof (opcode_low (inst_at i)) as Hlow.
    rewrite <- land_255 in Hlow. unfold RelativeAt in Hlow at 2. rewrite Z.add_0_r in Hlow.
    rewrite <- Hlow. destruct (Opcode (inst_at i)); try discriminate Hf; cbn [switch_target code_value Z.eqb Pos.eqb];
      unfold packed_target, GetTargets; f_equal; lia.
Qed.

(** ** The interpreter on checked code *)

Lemma step_size_eq i : (Opcode (inst_at i) = NOP -> VRegA_10x (inst_at i) = 0) ->
  has_flag (Opcode (inst_at i)) kContinue = true ->
  SizeInCodeUnits (inst_at i) = Some (step_size (Opcode (inst_at i))).
Proof.
  intros Hnop Hf. unfold SizeInCodeUnits, step_size.
  assert (Hsize : forall c, has_flag c kContinue = true -> c <> NOP -> kInstructionSizeInCodeUnits c <? 0 = false)
    by (intros []; done || reflexivity).
  destruct (decide (Opcode (inst_at i) = NOP)) as [En|Nn].
  - specialize (Hnop En). pose proof (opcode_low (inst_at i)) as Hlow. rewrite En in *.
    pose proof (wf_insns i 0) as H0. unfold VRegA_10x, Fetch16 in Hnop. rewrite InstAA_spec in Hnop by done.
    assert (Hz : inst_at i 0 = 0) by (cbn in Hlow; div_lia).
    cbn. unfold SizeInCodeUnitsComplexOpcode. by rewrite Hz.
  - rewrite Hsize by done. by destruct (Opcode (inst_at i)).
Qed.

Context {W : Type} `{Runtime W}.
Variables (do_access_check transaction_active : bool).
Variables (force_invoke_flag insns_len_in_byte hash1 : Z).
Abbreviation step := (Step do_access_check transaction_active code force_invoke_flag insns_len_in_byte hash1).

Lemma switch_step (m m' : Machine W) c : Opcode (current code m) = c -> has_flag c kSwitch = true ->
  step m = Some (Continue m') ->
  let data := RelativeAt (current code m) (VRegB_31t (current code m)) in
  inst m' = inst m + 3 \/ exists k, 0 <= k < case_count data /\ inst m' = inst m + switch_target c data k.
Proof.
  intros Hc Hf. unfold Step. destruct (_ && _); [|done]. cbv zeta.
  change (Opcode (current code (set_frame _ m))) with (Opcode (current code m)). rewrite Hc.
  destruct c; try discriminate Hf; unfold group_of, between, is_code;
    cbn [code_value Z.leb Z.eqb Z.compare Pos.compare Pos.compare_cont Pos.eqb andb orb];
    cbn [ExecuteGoto]; change (current code (set_frame _ m)) with (current code m).
  - destruct (DoPackedSwitch _ _) as [off|] eqn:E; [|done]. intros [= <-].
    apply packed_offset in E as [->|(k & Hk & ->)]; [by left|right; by exists k].
  - destruct (DoSparseSwitch _ _) as [off|] eqn:E; [|done]. intros [= <-].
    apply sparse_offset in E as [->|(k & Hk & ->)]; [by left|right; by exists k].
Qed.

(** Where a step goes in checked code. *)
Inductive goes (m m' : Machine W) : Prop :=
  | goes_next n : has_flag (Opcode (current code m)) kContinue = true ->
      SizeInCodeUnits (current code m) = Some n -> inst m + n <= insns_size -> inst m' = inst m + n -> goes m m'
  | goes_branch off cond self : has_flag (Opcode (current code m)) kBranch = true ->
      GetBranchOffset mem code (inst m) = Some (off, cond, self) -> starts (inst m + off) ->
      inst m' = inst m + off -> goes m m'
  | goes_switch k : has_flag (Opcode (current code m)) kSwitch = true ->
      let data := RelativeAt (current code m) (VRegB_31t (current code m)) in
      let target := inst m + switch_target (Opcode (current code m)) data k in
      0 <= k < case_count data -> starts target -> inst m' = target -> goes m m'
  | goes_handler m1 : has_flag (Opcode (current code m)) kThrow = true -> same_place (at_instruction m) m1 ->
      HANDLE_PENDING_EXCEPTION code (inst m) m1 = Some (Continue m') -> goes m m'.

Lemma checked_step_goes s s' (m m' : Machine W) : fresh s ->
  StaticChecks df mem code is_aot_compiler verify_to_dump_ s = Some (true, s') ->
  Interpreter.mem m = mem -> starts (inst m) ->
  (Opcode (current code m) = NOP -> VRegA_10x (current code m) = 0) ->
  step m = Some (Continue m') -> goes m m'.
Proof.
  intros Hfresh Hok Hmem Hi Hnop E. destruct (static_checks s s' Hfresh Hok) as (_ & Hend & Hall).
  destruct (Hall _ Hi) as (s1 & s2 & Hv & Ho).
  assert (Hcur : current code m = inst_at (inst m)) by (unfold current, Interpreter.insns; by rewrite Hmem).
  destruct (has_flag (Opcode (current code m)) kSwitch) eqn:Esw.
  - destruct (switch_step m m' _ eq_refl Esw E) as [Em|(k & Hk & Em)].
    + assert (Hs : SizeInCodeUnits (current code m) = Some 3 /\ has_flag (Opcode (current code m)) kContinue = true).
      { unfold SizeInCodeUnits. by destruct (Opcode (current code m)). }
      apply (goes_next m m' 3); [apply Hs|apply Hs| |done]. apply Hend; [done|]. rewrite <- Hcur. apply Hs.
    + apply (goes_switch m m' k); [done|done| |done].
      rewrite Hcur in *. by eapply switch_target_starts.
  - apply step_shape_of in E as (Hs & _). inversion Hs; subst.
    + assert (Hn : SizeInCodeUnits (current code m) = Some (step_size (Opcode (current code m)))).
      { rewrite Hcur in *. by apply step_size_eq. }
      apply (goes_next m _ (step_size (Opcode (current code m)))); [done|done| |done].
      apply Hend; [done|]. by rewrite <- Hcur.
    + change (current code (at_instruction m)) with (current code m) in *. rewrite Hcur in *.
      destruct (branch_offset (inst m) off) as (cond & self & Eb); [done|done|].
      apply (goes_branch m _ off cond self); [by rewrite Hcur|done| |done]. by eapply branch_start.
    + congruence.
    + by apply (goes_handler m m' m1).
Qed.

End Method.

(** ** An example

    [const/4 v0, #0], [add-int/lit8 v0, v0, #1] and a [goto] back to the addition. *)
Module SmallMethod.
Import Small.

Definition units : list Z := [0x0012; 0x00d8; 0x0100; 0xfe28].
Definition machine : Machine World := enter [0] units.
Definition at_goto : Machine World := set_inst 3 machine.
Definition fresh_state : CheckState := mkChecks [0; 0; 0; 0] [] false false 0 0.

Lemma fresh_state_fresh : fresh fresh_state.
Proof.
  intros i (_ & f & Hf & Ho). apply list_elem_of_lookup_2 in Hf.
  repeat (apply elem_of_cons in Hf as [->|Hf]; [discriminate Ho|]). by apply elem_of_nil in Hf.
Qed.

Definition checked : CheckState :=
  default fresh_state (snd <$> StaticChecks sample_df (mem machine) 0 false false fresh_state).
Definition after_goto : Machine World :=
  match Step false false 0 0 0 0 at_goto with Some (Continue m) => m | _ => machine end.

Lemma goto_starts : starts (mem machine) 0 3.
Proof.
  apply (reach_next _ _ _ 1); [by vm_compute..|]. apply (reach_next _ _ _ 2); [by vm_compute..|].
  constructor. by vm_compute.
Qed.

End SmallMethod.
