(* ===== verification/IntArith.v ===== *)
(** Integer arithmetic of the interpreter: the operators of [int] and [long] in their four
    encodings, and the divisions. *)
From S2P Require Import Prelude ClassData DexFile DexInstruction ShadowFrame Floats Runtime TryCatch.
From S2P Require Import Interpreter InterpreterFacts.
Local Open Scope Z_scope.

(** ** The operator and the operands of an instruction *)

Definition int_op_23x (c : Code) : option binop :=
  match c with
  | ADD_INT => Some Add | SUB_INT => Some Sub | MUL_INT => Some Mul
  | SHL_INT => Some Shl | SHR_INT => Some Shr | USHR_INT => Some Ushr
  | AND_INT => Some And | OR_INT => Some Or | XOR_INT => Some Xor
  | _ => None
  end.

Definition int_op_2addr (c : Code) : option binop :=
  match c with
  | ADD_INT_2ADDR => Some Add | SUB_INT_2ADDR => Some Sub | MUL_INT_2ADDR => Some Mul
  | SHL_INT_2ADDR => Some Shl | SHR_INT_2ADDR => Some Shr | USHR_INT_2ADDR => Some Ushr
  | AND_INT_2ADDR => Some And | OR_INT_2ADDR => Some Or | XOR_INT_2ADDR => Some Xor
  | _ => None
  end.

Definition int_op_lit16 (c : Code) : option binop :=
  match c with
  | ADD_INT_LIT16 => Some Add | MUL_INT_LIT16 => Some Mul | AND_INT_LIT16 => Some And
  | OR_INT_LIT16 => Some Or | XOR_INT_LIT16 => Some Xor
  | _ => None
  end.

Definition int_op_lit8 (c : Code) : option binop :=
  match c with
  | ADD_INT_LIT8 => Some Add | MUL_INT_LIT8 => Some Mul | AND_INT_LIT8 => Some And
  | OR_INT_LIT8 => Some Or | XOR_INT_LIT8 => Some Xor | SHL_INT_LIT8 => Some Shl
  | SHR_INT_LIT8 => Some Shr | USHR_INT_LIT8 => Some Ushr
  | _ => None
  end.

(** Operator, destination and operand values of an [int] instruction: two registers, the
    destination and a register, a register and a literal (which [rsub] exchanges). *)
Definition int_operands (c : Code) (i : Instruction) (f : ShadowFrame) : option (binop * Z * Z * Z) :=
  match int_op_23x c, int_op_2addr c, int_op_lit16 c, int_op_lit8 c with
  | Some op, _, _, _ =>
      a ← GetVReg f (VRegB_23x i); b ← GetVReg f (VRegC_23x i); Some (op, VRegA_23x i, a, b)
  | _, Some op, _, _ =>
      a ← GetVReg f (VRegA_12x i); b ← GetVReg f (VRegB_12x i); Some (op, VRegA_12x i, a, b)
  | _, _, Some op, _ => a ← GetVReg f (VRegB_22s i); Some (op, VRegA_22s i, a, VRegC_22s i)
  | _, _, _, Some op => a ← GetVReg f (VRegB_22b i); Some (op, VRegA_22b i, a, VRegC_22b i)
  | _, _, _, _ =>
      match c with
      | RSUB_INT => b ← GetVReg f (VRegB_22s i); Some (Sub, VRegA_22s i, VRegC_22s i, b)
      | RSUB_INT_LIT8 => b ← GetVReg f (VRegB_22b i); Some (Sub, VRegA_22b i, VRegC_22b i, b)
      | _ => None
      end
  end.

(** The same for [long]; the distance of a shift is an [int]. *)
Definition long_op_23x (c : Code) : option binop :=
  match c with
  | ADD_LONG => Some Add | SUB_LONG => Some Sub | MUL_LONG => Some Mul
  | SHL_LONG => Some Shl | SHR_LONG => Some Shr | USHR_LONG => Some Ushr
  | AND_LONG => Some And | OR_LONG => Some Or | XOR_LONG => Some Xor
  | _ => None
  end.

Definition long_op_2addr (c : Code) : option binop :=
  match c with
  | ADD_LONG_2ADDR => Some Add | SUB_LONG_2ADDR => Some Sub | MUL_LONG_2ADDR => Some Mul
  | SHL_LONG_2ADDR => Some Shl | SHR_LONG_2ADDR => Some Shr | USHR_LONG_2ADDR => Some Ushr
  | AND_LONG_2ADDR => Some And | OR_LONG_2ADDR => Some Or | XOR_LONG_2ADDR => Some Xor
  | _ => None
  end.

Definition is_shift (op : binop) : bool := match op with Shl | Shr | Ushr => true | _ => false end.

Definition long_operand (op : binop) (f : ShadowFrame) (r : Z) : option Z :=
  if is_shift op then GetVReg f r else GetVRegLong f r.

Definition long_operands (c : Code) (i : Instruction) (f : ShadowFrame) : option (binop * Z * Z * Z) :=
  match long_op_23x c, long_op_2addr c with
  | Some op, _ =>
      a ← GetVRegLong f (VRegB_23x i); b ← long_operand op f (VRegC_23x i);
      Some (op, VRegA_23x i, a, b)
  | _, Some op =>
      a ← GetVRegLong f (VRegA_12x i); b ← long_operand op f (VRegB_12x i);
      Some (op, VRegA_12x i, a, b)
  | _, _ => None
  end.

(** ** The operators stay in range *)

Lemma is_s_shiftr w x : 0 < w -> is_s w x <-> x ≫ (w - 1) = 0 \/ x ≫ (w - 1) = -1.
Proof.
  intros Hw. unfold is_s. rewrite Z.shiftr_div_pow2 by lia.
  assert (0 < 2 ^ (w - 1)) by (apply Z.pow_pos_nonneg; lia).
  generalize dependent (2 ^ (w - 1)). intros p Hp. split.
  - intros Hx. destruct (Z.le_gt_cases 0 x).
    + left. apply Z.div_small. lia.
    + right. symmetry. apply Z.div_unique with (x + p); lia.
  - pose proof (Z.div_mod x p ltac:(lia)). pose proof (Z.mod_pos_bound x p Hp). nia.
Qed.

Lemma java_binop_range w op a b : 0 < w -> is_s w a -> is_s w b -> is_s w (java_binop w op a b).
Proof.
  intros Hw Ha Hb. destruct op; cbn [java_binop]; try by apply s_range.
  - unfold is_s in *. assert (0 < 2 ^ (b mod w))
      by (apply Z.pow_pos_nonneg; [lia|apply Z.mod_pos_bound; lia]).
    assert (0 < 2 ^ (w - 1)) by (apply Z.pow_pos_nonneg; lia).
    split; [apply Z.div_le_lower_bound; nia|apply Z.div_lt_upper_bound; nia].
  - rewrite is_s_shiftr in * by done. rewrite Z.shiftr_land.
    destruct Ha as [->| ->], Hb as [->| ->]; auto.
  - rewrite is_s_shiftr in * by done. rewrite Z.shiftr_lor.
    destruct Ha as [->| ->], Hb as [->| ->]; auto.
  - rewrite is_s_shiftr in * by done. rewrite Z.shiftr_lxor.
    destruct Ha as [->| ->], Hb as [->| ->]; auto.
Qed.

(** The C++ expressions are Java's operators. *)
Create Rewrite HintDb java.
#[export] Hint Rewrite SafeAdd_spec SafeSub_spec SafeMul_spec land_31 land_63 using lia : java.
#[export] Hint Rewrite Z.shiftl_mul_pow2 Z.shiftr_div_pow2
  using (apply Z.mod_pos_bound; lia) : java.

Lemma reg_range f r v : GetVReg f r = Some v -> is_s 32 v.
Proof. unfold GetVReg. destruct (reg_at _ r); [|done]. intros [= <-]. by apply (s_range 32). Qed.

Lemma long_range f r v : GetVRegLong f r = Some v -> is_s 64 v.
Proof. unfold GetVRegLong. destruct (GetVRegDouble f r); [|done]. intros [= <-]. by apply (s_range 64). Qed.

Section Arith.
Context {W : Type} `{Runtime W}.
Variables (do_access_check transaction_active : bool).
Variable code_item : Z.
Variables (force_invoke_flag insns_len_in_byte hash1 : Z).
Abbreviation step := (Step do_access_check transaction_active code_item force_invoke_flag
  insns_len_in_byte hash1).

Definition in_code (m : Machine W) : Prop :=
  0 <= inst m < insns_size_in_code_units_ (mem m) code_item.

Lemma step_group m c :
  in_code m -> Opcode (current code_item m) = c ->
  step m = group_of do_access_check transaction_active code_item force_invoke_flag
    insns_len_in_byte hash1 c c (at_instruction m).
Proof.
  intros [H0 H1] <-. unfold Step. destruct (Z.leb_spec 0 (inst m)); [|lia].
  by destruct (Z.ltb_spec (inst m) (insns_size_in_code_units_ (mem m) code_item)); [|lia].
Qed.

Ltac java_case :=
  repeat match goal with
  | |- context [GetVReg ?f ?r ≫= _] => destruct (GetVReg f r) eqn:?; cbn [mbind option_bind]
  | |- context [GetVRegLong ?f ?r ≫= _] => destruct (GetVRegLong f r) eqn:?; cbn [mbind option_bind]
  end; intros E; simplify_eq; try done; autorewrite with java; reflexivity.

(** An integer instruction writes the result of its operator and moves on. *)
Lemma int_group c m op dst a b :
  int_operands c (current code_item m) (frame m) = Some (op, dst, a, b) ->
  group_of do_access_check transaction_active code_item force_invoke_flag insns_len_in_byte hash1
    c c m = write_next (SetVReg (frame m) dst (java_binop 32 op a b)) (step_size c) m.
Proof.
  destruct c; try discriminate; cbn [int_operands int_op_23x int_op_2addr int_op_lit16 int_op_lit8];
    match goal with |- _ -> ?l = _ => let l' := eval lazy [group_of between is_code code_value
      Z.leb Z.eqb Z.compare Pos.compare Pos.compare_cont Pos.eqb andb orb] in l in change l with l' end;
    cbv [ExecuteInt ExecuteInt2Addr ExecuteLit]; cbv zeta; java_case.
Qed.
Lemma long_group c m op dst a b :
  long_operands c (current code_item m) (frame m) = Some (op, dst, a, b) ->
  group_of do_access_check transaction_active code_item force_invoke_flag insns_len_in_byte hash1
    c c m = write_next (SetVRegLong (frame m) dst (java_binop 64 op a b)) (step_size c) m.
Proof.
  destruct c; try discriminate;
    cbn [long_operands long_op_23x long_op_2addr long_operand is_shift];
    match goal with |- _ -> ?l = _ => let l' := eval lazy [group_of between is_code code_value
      Z.leb Z.eqb Z.compare Pos.compare Pos.compare_cont Pos.eqb andb orb] in l in change l with l' end;
    cbv [ExecuteLong ExecuteLong2Addr]; cbv zeta; java_case.
Qed.

(** The effect of an instruction that computes a value into registers from [dst] on and goes to
    the next one. *)
Definition computes (m : Machine W) (dst width : Z) (get : ShadowFrame -> Prop) : Prop :=
  exists m', step m = Some (Continue m') /\
    frame_ok (frame m') /\ same_except dst width (SetDexPC (u32 (inst m)) (frame m)) (frame m') /\
    get (frame m') /\
    inst m' = inst m + step_size (Opcode (current code_item m)) /\
    self m' = self m /\ result_register m' = result_register m /\ mem m' = mem m.

Lemma int_computes m op dst a b :
  frame_ok (frame m) -> in_code m ->
  int_operands (Opcode (current code_item m)) (current code_item m) (frame m) = Some (op, dst, a, b) ->
  0 <= dst < number_of_vregs_ (frame m) -> is_s 32 (java_binop 32 op a b) ->
  computes m dst 1 (fun f => GetVReg f dst = Some (java_binop 32 op a b) /\
                             GetVRegReference f dst = Some 0).
Proof.
  intros Hok Hin Hop Hdst Hr. unfold computes.
  rewrite (step_group m _ Hin eq_refl), (int_group _ (at_instruction m) op dst a b) by done.
  destruct (SetVReg_spec (SetDexPC (u32 (inst m)) (frame m)) dst (java_binop 32 op a b)) as
    (f' & E & Hf & Hs & Hg & Href); [done|done|].
  rewrite s_small in Hg by (lia || done). unfold write_next. cbn [frame at_instruction set_frame].
  rewrite E. cbn [mbind option_bind]. eexists. split; [done|]. by split_all.
Qed.

Lemma long_computes m op dst a b :
  frame_ok (frame m) -> in_code m ->
  long_operands (Opcode (current code_item m)) (current code_item m) (frame m) = Some (op, dst, a, b) ->
  0 <= dst -> dst + 1 < number_of_vregs_ (frame m) -> is_s 64 (java_binop 64 op a b) ->
  computes m dst 2 (fun f => GetVRegLong f dst = Some (java_binop 64 op a b) /\
                             GetVRegReference f dst = Some 0 /\ GetVRegReference f (dst + 1) = Some 0).
Proof.
  intros Hok Hin Hop Hd0 Hd1 Hr. unfold computes.
  rewrite (step_group m _ Hin eq_refl), (long_group _ (at_instruction m) op dst a b) by done.
  destruct (SetVRegLong_spec (SetDexPC (u32 (inst m)) (frame m)) dst (java_binop 64 op a b)) as
    (f' & E & Hf & Hs & Hg & Href & Href'); [done|done|done|].
  rewrite s_small in Hg by (lia || done). unfold write_next. cbn [frame at_instruction set_frame].
  rewrite E. cbn [mbind option_bind]. eexists. split; [done|]. by split_all.
Qed.

Lemma lit_range i : is_s 32 (VRegC_22s i) /\ is_s 32 (VRegC_22b i).
Proof. unfold VRegC_22s, VRegC_22b. split; word_lia. Qed.

Lemma int_operands_range c i f op dst a b :
  int_operands c i f = Some (op, dst, a, b) -> is_s 32 a /\ is_s 32 b.
Proof.
  destruct (lit_range i) as [H16 H8].
  destruct c; try discriminate; cbn [int_operands int_op_23x int_op_2addr int_op_lit16 int_op_lit8];
    intros E;
    repeat match goal with
    | E : (_ ≫= _) = Some _ |- _ => apply bind_Some in E as (? & ? & E)
    end; simplify_eq; eauto using reg_range.
Qed.

Lemma long_operands_range c i f op dst a b :
  long_operands c i f = Some (op, dst, a, b) -> is_s 64 a /\ is_s 64 b.
Proof.
  assert (Ho : forall op r v, long_operand op f r = Some v -> is_s 64 v).
  { intros o r v. unfold long_operand. destruct (is_shift o); [|apply long_range].
    intros E. apply reg_range in E. unfold is_s in *. reduce_pow. lia. }
  destruct c; try discriminate; cbn [long_operands long_op_23x long_op_2addr]; intros E;
    repeat match goal with
    | E : (_ ≫= _) = Some _ |- _ => apply bind_Some in E as (? & ? & E)
    end; simplify_eq; eauto using long_range.
Qed.
End Arith.

(** ** Divisions *)

Lemma quot_rem_facts a b :
  b <> 0 ->
  a = Z.quot a b * b + Z.rem a b /\ Z.abs (Z.rem a b) < Z.abs b /\
  (Z.rem a b = 0 \/ Z.sgn (Z.rem a b) = Z.sgn a).
Proof.
  intros Hb. pose proof (Z.quot_rem' a b). pose proof (Z.rem_bound_abs a b Hb).
  split_all; [lia|lia|]. destruct (Z.eq_dec (Z.rem a b) 0); [by left|right].
  by apply Z.rem_sign_nz.
Qed.

Lemma quot_range w a b :
  0 < w -> is_s w a -> b <> 0 -> ~ (a = - 2 ^ (w - 1) /\ b = -1) -> is_s w (Z.quot a b).
Proof.
  intros Hw Ha Hb Hne. unfold is_s in *. set (p := 2 ^ (w - 1)) in *.
  assert (Hq : Z.abs (Z.quot a b) <= Z.abs a).
  { rewrite <- Z.quot_abs by done. destruct (Z.eq_dec (Z.abs a) 0) as [->|]; [by rewrite Z.quot_0_l by lia|].
    apply Z.quot_le_upper_bound; nia. }
  destruct (Z.eq_dec a (- p)) as [->|]; [|lia].
  assert (Hb2 : Z.quot (- p) b < p); [|lia].
  destruct (Z.le_gt_cases 0 b).
  - assert (Z.quot (- p) b <= 0); [|lia]. rewrite Z.quot_opp_l by done.
    assert (0 <= Z.quot p b) by (apply Z.quot_pos; lia). lia.
  - replace b with (- (- b)) by lia. rewrite Z.quot_opp_opp by lia.
    apply Z.quot_lt_upper_bound; [lia|lia|]. nia.
Qed.

Lemma rem_range w a b : is_s w b -> b <> 0 -> is_s w (Z.rem a b).
Proof. intros Hb Hne. pose proof (Z.rem_bound_abs a b Hne). unfold is_s in *. lia. Qed.

(** The quotient and the remainder the code stores, for both widths. *)
Definition div_result (w a b : Z) : Z := s w (Z.quot a b).

Lemma min_quot w : 0 < w -> div_result w (- 2 ^ (w - 1)) (-1) = - 2 ^ (w - 1).
Proof.
  intros Hw. unfold div_result, s. change (-1) with (- (1)). rewrite Z.quot_opp_opp, Z.quot_1_r by lia.
  pose proof (pow2_half w Hw).
  replace (2 ^ (w - 1) + 2 ^ (w - 1)) with (1 * 2 ^ w) by lia.
  rewrite Z.mod_mul by lia. lia.
Qed.

Section Division.
Context {W : Type} `{Runtime W}.
Variables (f : ShadowFrame) (dst a b : Z) (t : Thread W).
Hypothesis Hok : frame_ok f.

(** The checks of the divisions, for both widths. *)
Lemma min_case w :
  0 < w -> is_s w a -> is_s w b -> b <> 0 ->
  (if (a =? - 2 ^ (w - 1)) && (b =? -1) then - 2 ^ (w - 1) else Z.quot a b) = div_result w a b /\
  (if (a =? - 2 ^ (w - 1)) && (b =? -1) then 0 else Z.rem a b) = Z.rem a b /\
  is_s w (Z.rem a b).
Proof.
  intros Hw Ha Hb Hb0.
  destruct (Z.eqb_spec a (- 2 ^ (w - 1))) as [Ea|Ea], (Z.eqb_spec b (-1)) as [Eb|Eb]; cbn [andb].
  1: { rewrite Ea, Eb, min_quot by done. split_all; [done| |].
       - change (-1) with (- (1)). by rewrite Z.rem_opp_r, Z.rem_1_r by lia.
       - apply rem_range; [|lia]. by rewrite <- Eb. }
  all: unfold div_result; rewrite s_small by (done || (apply quot_range; tauto));
    split_all; try done; by apply rem_range.
Qed.
Lemma int_divisions :
  0 <= dst < number_of_vregs_ f -> is_s 32 a -> is_s 32 b -> b <> 0 ->
  exists f1 f2,
    DoIntDivide f dst a b t = Some (f1, t, true) /\ frame_ok f1 /\ same_except dst 1 f f1 /\
    GetVReg f1 dst = Some (div_result 32 a b) /\
    DoIntRemainder f dst a b t = Some (f2, t, true) /\ frame_ok f2 /\ same_except dst 1 f f2 /\
    GetVReg f2 dst = Some (Z.rem a b).
Proof.
  intros Hd Ha Hb Hb0. destruct (min_case 32) as (Q & R & Hr); try done.
  destruct (SetVReg_spec f dst (div_result 32 a b)) as (f1 & E1 & O1 & S1 & G1 & _); [done|done|].
  destruct (SetVReg_spec f dst (Z.rem a b)) as (f2 & E2 & O2 & S2 & G2 & _); [done|done|].
  exists f1, f2. unfold DoIntDivide, DoIntRemainder. cbv zeta.
  destruct (Z.eqb_spec b 0) as [|_]; [done|].
  rewrite <- Q in E1. rewrite <- R in E2. change (32 - 1) with 31 in *.
  destruct ((a =? - 2 ^ 31) && (b =? -1)); rewrite E1, E2; cbn [mbind option_bind];
    split_all; try done.
  all: unfold div_result in *; rewrite ?s_s in G1 by lia; rewrite ?s_small in G2 by (done || lia);
    done.
Qed.

Lemma long_divisions :
  0 <= dst -> dst + 1 < number_of_vregs_ f -> is_s 64 a -> is_s 64 b -> b <> 0 ->
  exists f1 f2,
    DoLongDivide f dst a b t = Some (f1, t, true) /\ frame_ok f1 /\ same_except dst 2 f f1 /\
    GetVRegLong f1 dst = Some (div_result 64 a b) /\
    DoLongRemainder f dst a b t = Some (f2, t, true) /\ frame_ok f2 /\ same_except dst 2 f f2 /\
    GetVRegLong f2 dst = Some (Z.rem a b).
Proof.
  intros Hd Hd1 Ha Hb Hb0. destruct (min_case 64) as (Q & R & Hr); try done.
  destruct (SetVRegLong_spec f dst (div_result 64 a b)) as (f1 & E1 & O1 & S1 & G1 & _);
    [done|done|done|].
  destruct (SetVRegLong_spec f dst (Z.rem a b)) as (f2 & E2 & O2 & S2 & G2 & _); [done|done|done|].
  exists f1, f2. unfold DoLongDivide, DoLongRemainder. cbv zeta.
  destruct (Z.eqb_spec b 0) as [|_]; [done|].
  rewrite <- Q in E1. rewrite <- R in E2. change (64 - 1) with 63 in *.
  destruct ((a =? - 2 ^ 63) && (b =? -1)); rewrite E1, E2; cbn [mbind option_bind];
    split_all; try done.
  all: unfold div_result in *; rewrite ?s_s in G1 by lia; rewrite ?s_small in G2 by (done || lia);
    done.
Qed.
End Division.

(** ** Properties *)


(** [v2 := v0 * v1], then [v0 := v0 shl v1]. *)
Definition sample_arith : Machine (gmap Z (list Z)) :=
  enter [100000; 100001; 0] [0x0292; 0x0100; 0x10b8; 0x020f].


(** Every [long] instruction of the language (three registers and [/2addr]) writes to its
    destination pair the value of Java's operator on its operands, wrapped to 64 bits, the shift
    distance, an [int], taken modulo 64; it changes no other register, no thread state and no
    memory, clears the references the collector sees, and goes to the next instruction. *)
Theorem long_arithmetic {W : Type} `{Runtime W} (do_access_check transaction_active : bool)
  (code_item force_invoke_flag insns_len_in_byte hash1 : Z) (m : Machine W)
  (op : binop) (dst a b : Z)
  (Hok : frame_ok (frame m)) (Hin : in_code code_item m)
  (Hop : long_operands (Opcode (current code_item m)) (current code_item m) (frame m)
         = Some (op, dst, a, b))
  (Hd0 : 0 <= dst) (Hd1 : dst + 1 < number_of_vregs_ (frame m)) :
  computes do_access_check transaction_active code_item force_invoke_flag insns_len_in_byte hash1
    m dst 2 (fun f => GetVRegLong f dst = Some (java_binop 64 op a b) /\
      GetVRegReference f dst = Some 0 /\ GetVRegReference f (dst + 1) = Some 0).
Proof.
  apply long_computes; try done. destruct (long_operands_range _ _ _ _ _ _ _ Hop).
  by apply java_binop_range.
Qed.

(** [v0,v1 := v0,v1 ushr v2]. *)
Definition sample_long : Machine (gmap Z (list Z)) := enter [-8; -1; 60] [0x20c5; 0x0010].

Lemma long_arithmetic_witness :
  computes false false 0 0 0 0 sample_long 0 2
    (fun f => GetVRegLong f 0 = Some (java_binop 64 Ushr (-8) 60) /\
      GetVRegReference f 0 = Some 0 /\ GetVRegReference f (0 + 1) = Some 0) /\
  java_binop 64 Ushr (-8) 60 = 15.
Proof.
  split.
  - apply (long_arithmetic false false 0 0 0 0 sample_long Ushr 0 (-8) 60).
    + apply enter_ok.
    + vm_compute. by split.
    + vm_compute. reflexivity.
    + lia.
    + vm_compute. reflexivity.
  - vm_compute. reflexivity.
Defined.

(** The [int] divisions are total: a zero divisor throws the division exception and leaves
    the frame alone; for any other divisor, the least integer by -1 included, the destination
    gets the truncated quotient, wrapped, or the remainder, and these satisfy the division
    identity with a remainder smaller than the divisor and of the sign of the dividend. *)
Theorem divide_int {W : Type} `{Runtime W} (f : ShadowFrame) (dst a b : Z) (t : Thread W)
  (Hok : frame_ok f) (Hd : 0 <= dst < number_of_vregs_ f) (Ha : is_s 32 a) (Hb : is_s 32 b) :
  (b = 0 ->
    DoIntDivide f dst a b t = Some (f, Throw ArithmeticExceptionDivideByZero t, false) /\
    DoIntRemainder f dst a b t = Some (f, Throw ArithmeticExceptionDivideByZero t, false)) /\
  (b <> 0 -> exists f1 f2 q r,
    DoIntDivide f dst a b t = Some (f1, t, true) /\ frame_ok f1 /\ same_except dst 1 f f1 /\
    GetVReg f1 dst = Some q /\
    DoIntRemainder f dst a b t = Some (f2, t, true) /\ frame_ok f2 /\ same_except dst 1 f f2 /\
    GetVReg f2 dst = Some r /\
    q = s32 (Z.quot a b) /\ a = Z.quot a b * b + r /\ Z.abs r < Z.abs b /\
    (r = 0 \/ Z.sgn r = Z.sgn a)).
Proof.
  split; [by intros ->|]. intros Hb0.
  destruct (int_divisions f dst a b t Hok Hd Ha Hb Hb0) as (f1 & f2 & ? & ? & ? & ? & ? & ? & ? & ?).
  exists f1, f2, (div_result 32 a b), (Z.rem a b).
  destruct (quot_rem_facts a b Hb0) as (? & ? & ?). by split_all.
Qed.

Lemma divide_int_witness :
  exists f1 f2 q r,
    DoIntDivide (Create 2 None 0 0) 1 (- 2 ^ 31) (-1) (mkThread 0 (∅ : Small.World))
      = Some (f1, mkThread 0 ∅, true) /\ frame_ok f1 /\ same_except 1 1 (Create 2 None 0 0) f1 /\
    GetVReg f1 1 = Some q /\
    DoIntRemainder (Create 2 None 0 0) 1 (- 2 ^ 31) (-1) (mkThread 0 (∅ : Small.World))
      = Some (f2, mkThread 0 ∅, true) /\ frame_ok f2 /\ same_except 1 1 (Create 2 None 0 0) f2 /\
    GetVReg f2 1 = Some r /\
    q = s32 (Z.quot (- 2 ^ 31) (-1)) /\ - 2 ^ 31 = Z.quot (- 2 ^ 31) (-1) * -1 + r /\
    Z.abs r < Z.abs (-1) /\ (r = 0 \/ Z.sgn r = Z.sgn (- 2 ^ 31)).
Proof.
  apply (divide_int (Create 2 None 0 0) 1 (- 2 ^ 31) (-1) (mkThread 0 (∅ : Small.World))).
  - apply Create_ok. lia.
  - cbn. lia.
  - vm_compute. split; congruence.
  - vm_compute. split; congruence.
  - lia.
Defined.

(** The [long] divisions, on register pairs, are total: a zero divisor throws and leaves the
    frame alone; for any other one the destination pair gets the truncated quotient, wrapped to
    64 bits, or the remainder, which satisfy the division identity. *)
Theorem divide_long {W : Type} `{Runtime W} (f : ShadowFrame) (dst a b : Z) (t : Thread W)
  (Hok : frame_ok f) (Hd : 0 <= dst) (Hd1 : dst + 1 < number_of_vregs_ f)
  (Ha : is_s 64 a) (Hb : is_s 64 b) :
  (b = 0 ->
    DoLongDivide f dst a b t = Some (f, Throw ArithmeticExceptionDivideByZero t, false) /\
    DoLongRemainder f dst a b t = Some (f, Throw ArithmeticExceptionDivideByZero t, false)) /\
  (b <> 0 -> exists f1 f2 q r,
    DoLongDivide f dst a b t = Some (f1, t, true) /\ frame_ok f1 /\ same_except dst 2 f f1 /\
    GetVRegLong f1 dst = Some q /\
    DoLongRemainder f dst a b t = Some (f2, t, true) /\ frame_ok f2 /\ same_except dst 2 f f2 /\
    GetVRegLong f2 dst = Some r /\
    q = s64 (Z.quot a b) /\ a = Z.quot a b * b + r /\ Z.abs r < Z.abs b /\
    (r = 0 \/ Z.sgn r = Z.sgn a)).
Proof.
  split; [by intros ->|]. intros Hb0.
  destruct (long_divisions f dst a b t Hok Hd Hd1 Ha Hb Hb0)
    as (f1 & f2 & ? & ? & ? & ? & ? & ? & ? & ?).
  exists f1, f2, (div_result 64 a b), (Z.rem a b).
  destruct (quot_rem_facts a b Hb0) as (? & ? & ?). by split_all.
Qed.

Lemma divide_long_witness :
  DoLongDivide (Create 2 None 0 0) 0 7 0 (mkThread 0 (∅ : Small.World))
    = Some (Create 2 None 0 0, Throw ArithmeticExceptionDivideByZero (mkThread 0 (∅ : Small.World)), false) /\
  DoLongRemainder (Create 2 None 0 0) 0 7 0 (mkThread 0 (∅ : Small.World))
    = Some (Create 2 None 0 0, Throw ArithmeticExceptionDivideByZero (mkThread 0 (∅ : Small.World)), false).
Proof.
  apply (divide_long (Create 2 None 0 0) 0 7 0 (mkThread 0 (∅ : Small.World)));
    [apply Create_ok; lia|lia|cbn; lia|vm_compute; split; congruence|vm_compute; split; congruence|done].
Defined.
