(* ===== verification/Control.v ===== *)
(** Control flow of the interpreter: runs and the frame invariant, the flags of the instruction
    table, branches, switches, array accesses, exceptions and the U-X hook. *)
From S2P Require Import Prelude ClassData DexFile DexInstruction ShadowFrame Floats Runtime TryCatch.
From S2P Require Import Calls Interpreter InterpreterFacts IntArith.
Local Open Scope Z_scope.

(** ** Switches *)

(** The key of case [k] of a packed switch wraps around like the [int] it is compared with. *)
Definition packed_key (payload : Instruction) (k : Z) : Z := s32 (packed_first_key payload + k).

Lemma int_at_range p o : is_s 32 (int_at p o).
Proof. apply (s_range 32). lia. Qed.

Lemma packed_index first k v :
  is_s 32 v -> 0 <= k < 0x10000 -> s32 (first + k) = v <-> s32 (v - first) = k.
Proof. intros. word_lia. Qed.

Lemma packed_switch_spec i f v :
  wf_units i -> GetVReg f (VRegA_31t i) = Some v ->
  let p := RelativeAt i (VRegB_31t i) in
  (forall k, 0 <= k < case_count p -> packed_key p k = v ->
     DoPackedSwitch i f = Some (packed_target p k)) /\
  ((forall k, 0 <= k < case_count p -> packed_key p k <> v) -> DoPackedSwitch i f = Some 3).
Proof.
  intros Hi Hv p. assert (Hn : 0 <= case_count p < 0x10000) by apply Hi.
  unfold DoPackedSwitch. rewrite Hv. cbn [mbind option_bind]. cbv zeta. fold p.
  change (Fetch16 p 1) with (case_count p). change (int_at p 2) with (packed_first_key p).
  pose proof (reg_range _ _ _ Hv) as Hr. set (index := s32 (v - packed_first_key p)).
  split.
  - intros k Hk E. apply packed_index in E; [|done|lia]. fold index in E. subst k.
    destruct (Z.eqb_spec (case_count p) 0); [lia|]. unfold packed_target.
    repeat case_Zcmp; cbn [andb]; done || lia.
  - intros Hne. destruct (Z.eqb_spec (case_count p) 0); [done|].
    destruct (Z.leb_spec 0 index), (Z.ltb_spec index (case_count p)); cbn [andb]; try done.
    exfalso. apply (Hne index); [lia|]. apply packed_index; [done|lia|done].
Qed.

(** Keys in strictly increasing order, as the verifier requires. *)
Definition increasing (n : Z) (keys : Z -> Z) : Prop :=
  forall i j, 0 <= i < j -> j < n -> keys i < keys j.

Lemma sparse_search_spec n keys entries v fuel lo hi :
  increasing n keys -> 0 <= lo -> hi < n -> hi - lo + 1 < 2 ^ Z.of_nat fuel ->
  (forall k, lo <= k <= hi -> keys k = v ->
     SparseSearch (S fuel) keys entries v lo hi = Some (entries k)) /\
  ((forall k, lo <= k <= hi -> keys k <> v) -> SparseSearch (S fuel) keys entries v lo hi = Some 3).
Proof.
  intros Hinc. revert lo hi. induction fuel as [|fuel IH]; intros lo hi Hlo Hhi Hf.
  { change (2 ^ Z.of_nat 0) with 1 in Hf. cbn [SparseSearch].
    destruct (Z.leb_spec lo hi); [lia|]. split; [intros; lia|done]. }
  remember (S fuel) as n'. cbn [SparseSearch]. subst n'.
  destruct (Z.leb_spec lo hi) as [Hle|Hgt]; [|split; [intros; lia|done]].
  rewrite Nat2Z.inj_succ, Z.pow_succ_r in Hf by lia.
  rewrite Z.quot_div_nonneg by lia. cbv zeta. set (mid := (lo + hi) / 2).
  assert (Hmid : lo <= mid <= hi) by (subst mid; div_lia).
  assert (Hl : mid - 1 - lo + 1 < 2 ^ Z.of_nat fuel) by (subst mid; div_lia).
  assert (Hh : hi - (mid + 1) + 1 < 2 ^ Z.of_nat fuel) by (subst mid; div_lia).
  clearbody mid.
  destruct (Z.ltb_spec v (keys mid)) as [Hlt|Hge]; [|destruct (Z.ltb_spec (keys mid) v) as [Hlt'|Hge']].
  - destruct (IH lo (mid - 1)) as [I1 I2]; [lia|lia|lia|]. split.
    + intros k Hk E. apply I1; [|done]. destruct (Z.eq_dec k mid) as [->|]; [lia|].
      destruct (Z.lt_ge_cases k mid); [lia|]. pose proof (Hinc mid k). lia.
    + intros Hne. apply I2. intros k Hk. apply Hne. lia.
  - destruct (IH (mid + 1) hi) as [I1 I2]; [lia|lia|lia|]. split.
    + intros k Hk E. apply I1; [|done]. destruct (Z.eq_dec k mid) as [->|]; [lia|].
      destruct (Z.lt_ge_cases mid k); [lia|]. pose proof (Hinc k mid). lia.
    + intros Hne. apply I2. intros k Hk. apply Hne. lia.
  - assert (E : keys mid = v) by lia. split.
    + intros k Hk Ek. do 2 f_equal. destruct (Z.lt_trichotomy k mid) as [|[|]]; [|done|].
      * pose proof (Hinc k mid). lia.
      * pose proof (Hinc mid k). lia.
    + intros Hne. by destruct (Hne mid).
Qed.

Lemma sparse_switch_spec i f v :
  wf_units i -> GetVReg f (VRegA_31t i) = Some v ->
  let p := RelativeAt i (VRegB_31t i) in
  increasing (case_count p) (GetKeys p) ->
  (forall k, 0 <= k < case_count p -> GetKeys p k = v ->
     DoSparseSwitch i f = Some (GetTargets p k)) /\
  ((forall k, 0 <= k < case_count p -> GetKeys p k <> v) -> DoSparseSwitch i f = Some 3).
Proof.
  intros Hi Hv p Hinc. assert (Hn : 0 <= case_count p < 0x10000) by apply Hi.
  unfold DoSparseSwitch. rewrite Hv. cbn [mbind option_bind]. cbv zeta. fold p.
  change (Fetch16 p 1) with (case_count p).
  destruct (Z.eqb_spec (case_count p) 0) as [E0|]; [split; [intros; lia|done]|].
  set (entries := fun k => int_at p (2 + 2 * (case_count p + k))).
  destruct (sparse_search_spec (case_count p) (GetKeys p) entries v 16 0 (case_count p - 1) Hinc)
    as [S1 S2]; [lia|lia|reduce_pow; lia|]. split.
  - intros k Hk E. etransitivity; [apply (S1 k); [lia|done]|]. reflexivity.
  - intros Hne. apply S2. intros k Hk. apply Hne. lia.
Qed.

(** ** Branches *)

(** The condition of an [if-test] on the comparison of its first operand with the second. *)
Definition test_of (c : Code) : option (comparison -> bool) :=
  match c with
  | IF_EQ | IF_EQZ => Some (fun r => match r with Eq => true | _ => false end)
  | IF_NE | IF_NEZ => Some (fun r => match r with Eq => false | _ => true end)
  | IF_LT | IF_LTZ => Some (fun r => match r with Lt => true | _ => false end)
  | IF_GE | IF_GEZ => Some (fun r => match r with Lt => false | _ => true end)
  | IF_GT | IF_GTZ => Some (fun r => match r with Gt => true | _ => false end)
  | IF_LE | IF_LEZ => Some (fun r => match r with Gt => false | _ => true end)
  | _ => None
  end.

(** What is compared: two registers, or one with 0. *)
Definition if_operands (c : Code) (i : Instruction) (f : ShadowFrame) : option (Z * Z) :=
  if between IF_EQ c IF_LE
  then a ← GetVReg f (VRegA_22t i); b ← GetVReg f (VRegB_22t i); Some (a, b)
  else a ← GetVReg f (VRegA_21t i); Some (a, 0).

Ltac open_group :=
  match goal with |- ?l = _ => let l' := eval lazy [group_of between is_code code_value
    Z.leb Z.eqb Z.compare Pos.compare Pos.compare_cont Pos.eqb andb orb] in l in change l with l' end.

Ltac compare_case a b :=
  destruct (Z.compare_spec a b); repeat case_Zcmp; cbn [negb];
    first [reflexivity | exfalso; lia].

Section Groups.
Context {W : Type} `{Runtime W}.
Variables (do_access_check transaction_active : bool).
Variable code_item : Z.
Variables (force_invoke_flag insns_len_in_byte hash1 : Z).

Lemma if_group c (m : Machine W) test a b off :
  Opcode (current code_item m) = c ->
  test_of c = Some test -> if_operands c (current code_item m) (frame m) = Some (a, b) ->
  GetTargetOffset (current code_item m) = Some off ->
  group_of do_access_check transaction_active code_item force_invoke_flag insns_len_in_byte hash1
    c c m = relative (if test (a ?= b) then off else 2) m.
Proof.
  intros Hc Ht Ho Hoff. unfold GetTargetOffset in Hoff. rewrite Hc in Hoff.
  destruct c; try discriminate Ht; injection Ht as <-; cbn in Hoff; injection Hoff as <-;
    open_group; unfold if_operands in Ho; cbn in Ho;
    repeat match goal with
    | Ho : (GetVReg ?f ?r ≫= _) = Some _ |- _ => destruct (GetVReg f r) eqn:?; [|discriminate Ho];
        cbn [mbind option_bind] in Ho
    end; injection Ho as <- <-; cbv [ExecuteIf ExecuteIfZ]; cbv zeta;
    repeat match goal with
    | E : GetVReg ?f ?r = Some _ |- _ => rewrite E; cbn [mbind option_bind]; clear E
    end;
    match goal with |- _ = relative (match ?a ?= ?b with _ => _ end) _ => idtac | _ => idtac end;
    match goal with |- context [?a ?= ?b] => compare_case a b end.
Qed.
End Groups.

(** ** Arrays *)

Section Arrays.
Context {W : Type} `{Runtime W}.
Variables (transaction_active : bool) (code_item : Z).

(** The machine after a throw at the current instruction. *)
Definition throws (k : Throwable) (m : Machine W) : option (Outcome W) :=
  HANDLE_PENDING_EXCEPTION code_item (inst m) (set_self (Throw k (self m)) m).

Lemma valid_index (t : Thread W) a idx :
  is_s 32 idx -> 0 <= GetLength (world_ t) a < 2 ^ 31 ->
  CheckIsValidIndex a idx t =
  if decide (0 <= idx < GetLength (world_ t) a) then (t, true)
  else (Throw (ArrayIndexOutOfBoundsException idx (GetLength (world_ t) a)) t, false).
Proof.
  intros Hi Hl. unfold CheckIsValidIndex.
  rewrite (u_small 32 (GetLength _ _)) by (unfold is_u; reduce_pow; lia).
  case_decide; case_Zcmp; try done; exfalso; word_lia.
Qed.

(** Element types with their registers: one, or a pair for [long]. *)
Definition prim_element (t : PrimitiveType) : Prop :=
  In t [kPrimBoolean; kPrimByte; kPrimChar; kPrimShort; kPrimInt; kPrimLong].

Definition source_value (t : PrimitiveType) (f : ShadowFrame) (r : Z) : option Z :=
  match t with kPrimLong => GetVRegLong f r | _ => GetVReg f r end.

Lemma aput_cases t m a idx v :
  GetVRegReference (frame m) (VRegB_23x (current code_item m)) = Some a ->
  GetVReg (frame m) (VRegC_23x (current code_item m)) = Some idx ->
  source_value t (frame m) (VRegA_23x (current code_item m)) = Some v ->
  0 <= GetLength (world_ (self m)) a < 2 ^ 31 ->
  aput transaction_active code_item t m =
    if a =? 0 then throws NullPointerException m
    else if decide (0 <= idx < GetLength (world_ (self m)) a)
    then relative 2 (set_self (SetWithoutChecks transaction_active t a idx (as_prim t v) (self m)) m)
    else throws (ArrayIndexOutOfBoundsException idx (GetLength (world_ (self m)) a)) m.
Proof.
  intros Ha Hi Hv Hl. unfold aput. cbv zeta. rewrite Ha. cbn [mbind option_bind].
  destruct (a =? 0); [done|]. unfold source_value in Hv.
  assert (E : (match t with
    | kPrimLong => GetVRegLong (frame m) (VRegA_23x (current code_item m))
    | _ => GetVReg (frame m) (VRegA_23x (current code_item m)) end) = Some v) by (by destruct t).
  rewrite E, Hi. cbn [mbind option_bind].
  rewrite valid_index by (done || by eapply reg_range). by case_decide.
Qed.

Lemma aget_cases t m a idx :
  GetVRegReference (frame m) (VRegB_23x (current code_item m)) = Some a ->
  GetVReg (frame m) (VRegC_23x (current code_item m)) = Some idx ->
  0 <= GetLength (world_ (self m)) a < 2 ^ 31 ->
  aget code_item t m =
    if a =? 0 then throws NullPointerException m
    else if decide (0 <= idx < GetLength (world_ (self m)) a)
    then write_next (SetVRegOf t (frame m) (VRegA_23x (current code_item m))
           (GetElement t (world_ (self m)) a idx)) 2 m
    else throws (ArrayIndexOutOfBoundsException idx (GetLength (world_ (self m)) a)) m.
Proof.
  intros Ha Hi Hl. unfold aget. cbv zeta. rewrite Ha. cbn [mbind option_bind].
  destruct (a =? 0); [done|]. rewrite Hi. cbn [mbind option_bind].
  rewrite valid_index by (done || by eapply reg_range). by case_decide; destruct m.
Qed.
End Arrays.

Lemma as_prim_idem t v : as_prim t (as_prim t v) = as_prim t v.
Proof. destruct t; cbn; try done; by autorewrite with word. Qed.

Section Store.
Context {W : Type} `{RuntimeLaws W}.

(** A store into an array, outside a transaction. *)
Lemma store_element t a i v (self : Thread W) :
  0 <= i < GetLength (world_ self) a ->
  let self' := SetWithoutChecks false t a i v self in
  exception_ self' = exception_ self /\
  GetElement t (world_ self') a i = as_prim t v /\
  (forall b, GetLength (world_ self') b = GetLength (world_ self) b) /\
  (forall b j, 0 <= j -> (b, j) <> (a, i) -> GetElement t (world_ self') b j = GetElement t (world_ self) b j).
Proof.
  intros Hi self'. subst self'. unfold SetWithoutChecks. cbn. split_all; [done| |intros b|intros b j Hj Hne].
  - apply GetElement_SetElement; [done|apply as_prim_idem].
  - apply GetLength_SetElement.
  - apply GetElement_SetElement_ne; [lia|done|done].
Qed.
End Store.

(** ** Exceptions *)

Section Handlers.
Context {W : Type} `{Runtime W}.
Variable code_item : Z.

(** [HANDLE_PENDING_EXCEPTION] with an exception pending, on a well-formed table. *)
Lemma handle_select (m : Machine W) tries hs ca :
  exception_ (self m) <> 0 ->
  try_table (mem m) code_item tries -> wf_handlers hs ca ->
  (forall ti, lookup_try tries (inst m) = Some ti ->
    holds (mem m) (GetCatchHandlerData (mem m) code_item (handler_off_ ti)) (encode_handlers hs ca)) ->
  let exc := GetClass (world_ (self m)) (exception_ (self m)) in
  let l := match lookup_try tries (inst m) with Some _ => all_handlers hs ca | None => [] end in
  let '(t, pc) := select_handler (method m) exc l (ClearException (self m)) in
  let pending := SetException (exception_ (self m)) t in
  HANDLE_PENDING_EXCEPTION code_item (inst m) m =
    if pc =? kDexNoIndex then Some (Unwind (set_self pending m))
    else
      let keeps_exception :=
        bool_decide (Opcode (RelativeAt (insns_ (mem m) code_item) pc) = MOVE_EXCEPTION) in
      relative (s32 (s32 pc - s32 (inst m)))
        (set_self (if keeps_exception then pending else ClearException t) m).
Proof.
  intros He Htab Hwf Hmem exc l.
  destruct (catch_block_select (mem m) code_item (inst m) (method m) exc tries hs ca (self m)
    Htab Hwf Hmem) as (t' & pc' & flag & E & Es & _). revert Es. unfold catch_block_spec. fold l.
  destruct (select_handler (method m) exc l (ClearException (self m))) as [t pc]. intros Es.
  injection Es as -> -> ->.
  unfold HANDLE_PENDING_EXCEPTION, FindNextInstructionFollowingException, GetException.
  change (GetClass (world_ (self m)) (exception_ (self m))) with exc. rewrite E.
  cbn [mbind option_bind]. destruct (Z.eqb_spec (exception_ (self m)) 0); [done|].
  destruct (pc =? kDexNoIndex) eqn:Ep; cbn [mbind option_bind]; rewrite ?Ep; [done|].
  cbn [default]. by case_bool_decide.
Qed.
End Handlers.

(** ** The U-X hook *)

Section Hook.
Context {W : Type} `{Runtime W}.
Variables (do_access_check transaction_active : bool).
Variable code_item : Z.
Variables (insns_len_in_byte hash1 : Z).

(** The call of an [INVOKE_STATIC] at the machine's instruction, and the machine after it. *)
Definition static_call (m : Machine W) : option (InvokeResult W) :=
  DoInvoke kStatic false do_access_check (current code_item m) (Fetch16 (current code_item m) 0)
    (frame m) (result_register m) (mem m) (self m).

Lemma invoke_static_step flag m :
  in_code code_item m -> Opcode (current code_item m) = INVOKE_STATIC ->
  Step do_access_check transaction_active code_item flag insns_len_in_byte hash1 m =
  let m1 := at_instruction m in
  r ← static_call m1;
  let m2 := after_invoke r m1 in
  if (flag =? KARL_GERAT_U_CODE) && negb (hash1 =? insns_hash code_item insns_len_in_byte m2)
  then Some (NewCodeItem code_item m2)
  else POSSIBLY_HANDLE_PENDING_EXCEPTION code_item (inst m) (negb (inv_success r)) 3 m2.
Proof. intros Hin Hc. by rewrite (step_group _ _ _ _ _ _ _ _ Hin Hc). Qed.
End Hook.

(** ** Properties *)

(** C3: whatever a method does for however many iterations, the frame it runs on stays well
    formed (one 32-bit entry per register in both arrays, and every reference the collector
    sees is the value of its register) and stays the frame of the same method, caller and
    register count. *)
Theorem execution_keeps_frame {W : Type} `{Runtime W} (do_access_check transaction_active : bool)
  (fuel : nat) (code_item force_invoke_flag : Z) (t : Thread W) (shadow_frame : ShadowFrame)
  (result_register : JValue) (mem : list Z) (o : Outcome W)
  (Hok : frame_ok shadow_frame)
  (Hrun : ExecuteSwitchImpl do_access_check transaction_active fuel code_item force_invoke_flag t
            shadow_frame result_register mem = Some o) :
  frame_ok (frame (machine_of o)) /\ same_frame shadow_frame (frame (machine_of o)).
Proof.
  unfold ExecuteSwitchImpl in Hrun. cbn [HasReferenceArray negb] in Hrun.
  apply loop_keeps in Hrun as [H1 H2]. split; [by apply H1|done].
Qed.

Lemma execution_keeps_frame_witness :
  exists o, ExecuteSwitchImpl false false 10 0 0 (mkThread 0 (∅ : Small.World)) (Create 2 None 0 0)
    0 sample_code = Some o /\
  frame_ok (frame (machine_of o)) /\ same_frame (Create 2 None 0 0) (frame (machine_of o)).
Proof.
  destruct (ExecuteSwitchImpl false false 10 0 0 (mkThread 0 (∅ : Small.World)) (Create 2 None 0 0)
    0 sample_code) as [o|] eqn:E; [|vm_compute in E; discriminate E].
  exists o. split; [reflexivity|].
  apply (execution_keeps_frame false false 10 0 0 (mkThread 0 (∅ : Small.World)) (Create 2 None 0 0)
    0 sample_code o); [apply Create_ok; lia|exact E].
Defined.



(** Each [if-test] and [if-testz] jumps by its offset exactly when its operands compare as
    its name says, goes on to the next instruction otherwise, and changes nothing else. *)
Theorem if_branches {W : Type} `{Runtime W} (do_access_check transaction_active : bool)
  (code_item force_invoke_flag insns_len_in_byte hash1 : Z) (m : Machine W)
  (test : comparison -> bool) (a b off : Z)
  (Hin : in_code code_item m)
  (Ht : test_of (Opcode (current code_item m)) = Some test)
  (Ho : if_operands (Opcode (current code_item m)) (current code_item m) (frame m) = Some (a, b))
  (Hoff : GetTargetOffset (current code_item m) = Some off) :
  Step do_access_check transaction_active code_item force_invoke_flag insns_len_in_byte hash1 m
  = relative (if test (a ?= b) then off else 2) (at_instruction m).
Proof.
  rewrite (step_group _ _ _ _ _ _ _ _ Hin eq_refl).
  by apply (if_group _ _ _ _ _ _ _ (at_instruction m)).
Qed.

Lemma if_branches_witness :
  Step false false 0 0 0 0 (enter [5; 7] [0x1034; 0x0003; 0x000f; 0x000f])
  = relative (if match 5 ?= 7 with Lt => true | _ => false end then 3 else 2)
      (at_instruction (enter [5; 7] [0x1034; 0x0003; 0x000f; 0x000f])).
Proof.
  apply (if_branches false false 0 0 0 0 (enter [5; 7] [0x1034; 0x0003; 0x000f; 0x000f])
    (fun r => match r with Lt => true | _ => false end) 5 7 3);
    [vm_compute; by split|reflexivity..].
Defined.

(** A packed switch jumps to the target of the case whose key equals the tested value, keys
    counted up from the first one with wrap-around, and otherwise goes on to the next
    instruction (3 code units further). *)
Theorem packed_switch (i : Instruction) (f : ShadowFrame) (v : Z)
  (Hi : wf_units i) (Hv : GetVReg f (VRegA_31t i) = Some v) :
  let p := RelativeAt i (VRegB_31t i) in
  (forall k, 0 <= k < case_count p -> packed_key p k = v ->
     DoPackedSwitch i f = Some (packed_target p k)) /\
  ((forall k, 0 <= k < case_count p -> packed_key p k <> v) -> DoPackedSwitch i f = Some 3).
Proof. by apply packed_switch_spec. Qed.

(** A packed switch on register 0 with the keys 10 and 11, targets 7 and 9. *)
Definition sample_switch : Instruction := fun o =>
  default 0 (nth_error [0x002b; 4; 0; 0; 0x0100; 2; 10; 0; 7; 0; 9; 0] (Z.to_nat o)).

Lemma sample_units_wf l : Forall (fun x => 0 <= x < 0x10000) l ->
  wf_units (fun o => default 0 (nth_error l (Z.to_nat o))).
Proof.
  intros Hl o. destruct (nth_error l (Z.to_nat o)) eqn:E; cbn; [|lia].
  apply nth_error_In, list_elem_of_In in E. rewrite Forall_forall in Hl. by apply Hl.
Qed.

Lemma packed_switch_witness :
  DoPackedSwitch sample_switch (frame (enter [11] [])) = Some 9.
Proof.
  refine (proj1 (packed_switch sample_switch (frame (enter [11] [])) 11 _ _) 1 _ _).
  - apply sample_units_wf. repeat constructor; lia.
  - reflexivity.
  - vm_compute. by split.
  - reflexivity.
Defined.

(** On keys in increasing order the binary search of a sparse switch is exact: it jumps to
    the entry of the key that equals the tested value, and goes on to the next instruction when
    no key does; it terminates within the fuel for every 16-bit size. *)
Theorem sparse_switch (i : Instruction) (f : ShadowFrame) (v : Z)
  (Hi : wf_units i) (Hv : GetVReg f (VRegA_31t i) = Some v)
  (Hinc : let p := RelativeAt i (VRegB_31t i) in increasing (case_count p) (GetKeys p)) :
  let p := RelativeAt i (VRegB_31t i) in
  (forall k, 0 <= k < case_count p -> GetKeys p k = v ->
     DoSparseSwitch i f = Some (GetTargets p k)) /\
  ((forall k, 0 <= k < case_count p -> GetKeys p k <> v) -> DoSparseSwitch i f = Some 3).
Proof. by apply sparse_switch_spec. Qed.

(** A sparse switch on register 0 with the keys -1 and 500, targets 7 and 9. *)
Definition sample_sparse : Instruction := fun o =>
  default 0 (nth_error [0x002c; 4; 0; 0; 0x0200; 2; 0xFFFF; 0xFFFF; 500; 0; 7; 0; 9; 0] (Z.to_nat o)).

Lemma sparse_switch_witness :
  DoSparseSwitch sample_sparse (frame (enter [500] [])) = Some 9.
Proof.
  refine (proj1 (sparse_switch sample_sparse (frame (enter [500] [])) 500 _ _ _) 1 _ _).
  - apply sample_units_wf. repeat constructor; lia.
  - reflexivity.
  - cbv zeta. intros i j Hij Hj. change (case_count _) with 2 in Hj.
    assert (i = 0) as -> by lia. assert (j = 1) as -> by lia. vm_compute. reflexivity.
  - vm_compute. by split.
  - reflexivity.
Defined.

(** An array access checks the reference, then the index, before it touches the array.  A
    null reference and an index outside [0 .. length) throw and go to the handler with nothing
    else changed; a load in range writes the element to the destination register; a store in
    range (outside a transaction) replaces exactly that element by the value converted to the
    element type and goes on, with every other element and every length unchanged. *)
Theorem array_access {W : Type} `{RuntimeLaws W} (code_item : Z) (t : PrimitiveType)
  (m : Machine W) (a idx v : Z)
  (Ha : GetVRegReference (frame m) (VRegB_23x (current code_item m)) = Some a)
  (Hi : GetVReg (frame m) (VRegC_23x (current code_item m)) = Some idx)
  (Hv : source_value t (frame m) (VRegA_23x (current code_item m)) = Some v)
  (Hl : 0 <= GetLength (world_ (self m)) a < 2 ^ 31) :
  let len := GetLength (world_ (self m)) a in
  (a = 0 ->
     aget code_item t m = throws code_item NullPointerException m /\
     aput false code_item t m = throws code_item NullPointerException m) /\
  (a <> 0 -> ~ 0 <= idx < len ->
     aget code_item t m = throws code_item (ArrayIndexOutOfBoundsException idx len) m /\
     aput false code_item t m = throws code_item (ArrayIndexOutOfBoundsException idx len) m) /\
  (a <> 0 -> 0 <= idx < len ->
     aget code_item t m = write_next (SetVRegOf t (frame m) (VRegA_23x (current code_item m))
                            (GetElement t (world_ (self m)) a idx)) 2 m /\
     exists self',
       aput false code_item t m = relative 2 (set_self self' m) /\
       exception_ self' = exception_ (self m) /\
       GetElement t (world_ self') a idx = as_prim t v /\
       (forall b, GetLength (world_ self') b = GetLength (world_ (self m)) b) /\
       (forall b j, 0 <= j -> (b, j) <> (a, idx) ->
          GetElement t (world_ self') b j = GetElement t (world_ (self m)) b j)).
Proof.
  intros len. rewrite (aget_cases code_item t m a idx Ha Hi Hl).
  rewrite (aput_cases false code_item t m a idx v Ha Hi Hv Hl). fold len. split_all.
  - intros ->. done.
  - intros Hne Hr. destruct (Z.eqb_spec a 0); [done|]. by rewrite !decide_False.
  - intros Hne Hr. destruct (Z.eqb_spec a 0); [done|]. rewrite !decide_True by done.
    split; [done|]. eexists. split; [done|].
    destruct (store_element t a idx (as_prim t v) (self m) Hr) as (E1 & E2 & E3 & E4).
    rewrite as_prim_idem in E2. by split_all.
Qed.

(** [aput-byte v0, v1, v2] of 511 into element 1 of the array 40. *)
Definition sample_aput : Machine (gmap Z (list Z)) :=
  let m := enter [511; 40; 1] [0x004f; 0x0201] in
  mkMachine (mkThread 0 {[40 := [7; 8; 9]]})
    {| number_of_vregs_ := 3; link_ := None; method_ := 0; dex_pc_ := 0;
       vregs_ := [511; 40; 1]; references_ := [0; 40; 0] |} 0 0 (mem m).

Lemma array_access_witness :
  exists self' : Thread Small.World,
    aput false 0 kPrimByte sample_aput = relative 2 (set_self self' sample_aput) /\
    exception_ self' = 0 /\ GetElement kPrimByte (world_ self') 40 1 = -1 /\
    (forall b, GetLength (world_ self') b = GetLength (world_ (self sample_aput)) b) /\
    (forall b j, 0 <= j -> (b, j) <> (40, 1) ->
       GetElement kPrimByte (world_ self') b j = GetElement kPrimByte (world_ (self sample_aput)) b j).
Proof.
  refine (proj2 (proj2 (proj2 (array_access 0 kPrimByte sample_aput 40 1 511 _ _ _ _)) _ _)).
  - reflexivity.
  - reflexivity.
  - reflexivity.
  - vm_compute. by split.
  - lia.
  - vm_compute. by split.
Defined.

(** C5: an exception pending at an instruction is dispatched to the first handler of its try
    region that applies.  Without one the method is left with the exception pending; otherwise
    the interpreter goes on at the handler's address, and the exception is cleared exactly when
    the handler does not begin with [move-exception]. *)
Theorem exception_dispatch {W : Type} `{Runtime W} (code_item : Z) (m : Machine W)
  (tries : list TryItem) (hs : list (Z * Z)) (ca : option Z)
  (He : exception_ (self m) <> 0)
  (Htab : try_table (mem m) code_item tries) (Hwf : wf_handlers hs ca)
  (Hmem : forall ti, lookup_try tries (inst m) = Some ti ->
    holds (mem m) (GetCatchHandlerData (mem m) code_item (handler_off_ ti)) (encode_handlers hs ca))
  (Hpc : 0 <= inst m < 2 ^ 31)
  (Haddr : Forall (fun h => 0 <= snd h < 2 ^ 31) (all_handlers hs ca)) :
  let exc := GetClass (world_ (self m)) (exception_ (self m)) in
  let l := match lookup_try tries (inst m) with Some _ => all_handlers hs ca | None => [] end in
  let '(t, pc) := select_handler (method m) exc l (ClearException (self m)) in
  let pending := SetException (exception_ (self m)) t in
  HANDLE_PENDING_EXCEPTION code_item (inst m) m =
    if pc =? kDexNoIndex then Some (Unwind (set_self pending m))
    else
      let is_move_exception :=
        bool_decide (Opcode (RelativeAt (insns_ (mem m) code_item) pc) = MOVE_EXCEPTION) in
      Some (Continue (set_inst pc
        (set_self (if is_move_exception then pending else ClearException t) m))).
Proof.
  pose proof (handle_select code_item m tries hs ca He Htab Hwf Hmem) as Hh. cbv zeta in *.
  set (l := match lookup_try tries (inst m) with Some _ => all_handlers hs ca | None => [] end) in *.
  pose proof (select_handler_in (method m) (GetClass (world_ (self m)) (exception_ (self m))) l
    (ClearException (self m))) as Hin.
  destruct (select_handler _ _ l _) as [t pc]. cbn [snd] in Hin. rewrite Hh.
  destruct (Z.eqb_spec pc kDexNoIndex) as [|Hne]; [done|]. destruct Hin as [|Hin]; [done|].
  assert (Hr : 0 <= pc < 2 ^ 31).
  { subst l. destruct (lookup_try tries (inst m)); [|done].
    apply in_map_iff in Hin as (h & <- & Hin). rewrite Forall_forall in Haddr.
    apply Haddr. by apply list_elem_of_In. }
  unfold relative. do 3 f_equal. cbn [inst set_self].
  rewrite (s_small 32 pc), (s_small 32 (inst m)), s_small by (unfold is_s; reduce_pow; lia).
  lia.
Qed.

(** The division by zero of [sample_code]: no class 5, so the catch-all at unit 3, which is a
    [move-exception]. *)
Definition sample_thrown : Machine (gmap Z (list Z)) :=
  mkMachine (mkThread 102 ∅) (Create 2 None 0 0) 0 0 sample_code.

Lemma exception_dispatch_witness :
  HANDLE_PENDING_EXCEPTION 0 0 sample_thrown
  = Some (Continue (set_inst 3 (set_self (mkThread 102 (∅ : Small.World)) sample_thrown))).
Proof.
  refine (exception_dispatch 0 sample_thrown sample_tries [(5, 4)] (Some 3) _ _ _ _ _ _).
  - cbn. lia.
  - exact sample_try_table.
  - exact sample_wf_handlers.
  - intros ti E. vm_compute in E. injection E as <-. vm_compute. intuition congruence.
  - vm_compute. by split.
  - repeat constructor; vm_compute; congruence.
Defined.


(** [invoke-static {}, method 0]; the bytes before the call had another first instruction. *)
Definition sample_invoke : Machine (gmap Z (list Z)) := enter [0] [0x0071; 1; 0; 0x000e].

