(* ===== verification/Goto.v ===== *)
(** The goto interpreter ([interpreter/interpreter_goto_table_impl.cc]) and the entry points of
    [interpreter/interpreter.cc].

    Each instruction has a handler that ends in a jump to the handler of the next one ([ADVANCE]),
    to [exception_pending_label] or in a return.  The machine is that of [Interpreter]; the local
    [dex_pc] and [inst] are both the index [inst].  Handlers of one kind are one function, the
    names are those of the labels [op_X].  The alternative handlers only add instrumentation.
    [None] is undefined behaviour, as in [Interpreter]. *)
From S2P Require Import Prelude ClassData DexFile DexInstruction ShadowFrame Floats Runtime TryCatch Calls Interpreter InterpreterFacts IntArith Control.
Local Open Scope Z_scope.

Section Goto.
Context {W : Type} `{Runtime W}.
Variables (do_access_check transaction_active : bool).
Variable code_item : Z.
Variables (force_invoke_flag insns_len_in_byte hash1 : Z).

Abbreviation current := (current code_item).
Abbreviation insns_hash := (insns_hash code_item insns_len_in_byte).
Abbreviation DoFieldGet := (DoFieldGet do_access_check code_item).
Abbreviation DoFieldPut := (DoFieldPut do_access_check transaction_active code_item).
Abbreviation DoIGetQuick := (DoIGetQuick code_item).
Abbreviation DoIPutQuick := (DoIPutQuick transaction_active code_item).

(** The new position goes to the frame before the jump. *)
Definition ADVANCE (_offset : Z) (m : Machine W) : option (Outcome W) :=
  let disp := s32 _offset in
  let dex_pc := u32 (s32 (inst m) + disp) in
  Some (Continue (set_frame (SetDexPC dex_pc (frame m)) (set_inst (inst m + disp) m))).

Definition write_ADVANCE (r : option ShadowFrame) (size : Z) (m : Machine W) : option (Outcome W) :=
  f ← r; ADVANCE size (set_frame f m).

Definition exception_pending_label (m : Machine W) : option (Outcome W) :=
  let dex_pc := inst m in
  '(t, found_dex_pc) ←
    FindNextInstructionFollowingException (mem m) (method m) code_item dex_pc (self m);
  let m := set_self t m in
  if found_dex_pc =? kDexNoIndex then Some (Unwind m)
  else
    let displacement := s32 (s32 found_dex_pc - s32 dex_pc) in
    ADVANCE displacement m.

(** [POSSIBLY_HANDLE_PENDING_EXCEPTION]. *)
Definition POSSIBLY (_is_exception_pending : bool) (_offset : Z) (m : Machine W)
  : option (Outcome W) :=
  if _is_exception_pending then exception_pending_label m else ADVANCE _offset m.

(** Throwing, then [HANDLE_PENDING_EXCEPTION]. *)
Definition throw_label (k : Throwable) (m : Machine W) : option (Outcome W) :=
  exception_pending_label (set_self (Throw k (self m)) m).

(** [op_NOP] to [op_MOVE_EXCEPTION]. *)
Definition op_move (c : Code) (m : Machine W) : option (Outcome W) :=
  let i := current m in
  let f := frame m in
  match c with
  | NOP => ADVANCE 1 m
  | MOVE => v ← GetVReg f (VRegB_12x i); write_ADVANCE (SetVReg f (VRegA_12x i) v) 1 m
  | MOVE_FROM16 => v ← GetVReg f (VRegB_22x i); write_ADVANCE (SetVReg f (VRegA_22x i) v) 2 m
  | MOVE_16 => v ← GetVReg f (VRegB_32x i); write_ADVANCE (SetVReg f (VRegA_32x i) v) 3 m
  | MOVE_WIDE => v ← GetVRegLong f (VRegB_12x i); write_ADVANCE (SetVRegLong f (VRegA_12x i) v) 1 m
  | MOVE_WIDE_FROM16 =>
      v ← GetVRegLong f (VRegB_22x i); write_ADVANCE (SetVRegLong f (VRegA_22x i) v) 2 m
  | MOVE_WIDE_16 =>
      v ← GetVRegLong f (VRegB_32x i); write_ADVANCE (SetVRegLong f (VRegA_32x i) v) 3 m
  | MOVE_OBJECT =>
      v ← GetVRegReference f (VRegB_12x i); write_ADVANCE (SetVRegReference f (VRegA_12x i) v) 1 m
  | MOVE_OBJECT_FROM16 =>
      v ← GetVRegReference f (VRegB_22x i); write_ADVANCE (SetVRegReference f (VRegA_22x i) v) 2 m
  | MOVE_OBJECT_16 =>
      v ← GetVRegReference f (VRegB_32x i); write_ADVANCE (SetVRegReference f (VRegA_32x i) v) 3 m
  | MOVE_RESULT => write_ADVANCE (SetVReg f (VRegA_11x i) (GetI (result_register m))) 1 m
  | MOVE_RESULT_WIDE => write_ADVANCE (SetVRegLong f (VRegA_11x i) (GetJ (result_register m))) 1 m
  | MOVE_RESULT_OBJECT =>
      write_ADVANCE (SetVRegReference f (VRegA_11x i) (GetL (result_register m))) 1 m
  | MOVE_EXCEPTION =>
      let exception := GetException (self m) in
      write_ADVANCE (SetVRegReference f (VRegA_11x i) exception) 1 (set_self (ClearException (self m)) m)
  | _ => None
  end.

(** The returns: an exception in [op_RETURN_OBJECT] jumps away. *)
Definition op_return (c : Code) (m : Machine W) : option (Outcome W) :=
  let i := current m in
  let f := frame m in
  match c with
  | RETURN_VOID_NO_BARRIER | RETURN_VOID => Some (Return JValue_new m)
  | RETURN =>
      v ← GetVReg f (VRegA_11x i); Some (Return (SetI (SetJ JValue_new 0) v) m)
  | RETURN_WIDE => v ← GetVRegLong f (VRegA_11x i); Some (Return (SetJ JValue_new v) m)
  | RETURN_OBJECT =>
      obj_result ← GetVRegReference f (VRegA_11x i);
      if do_access_check && negb (obj_result =? 0) then
        let '(t, return_type) := GetReturnType (method m) (self m) in
        let m := set_self t m in
        if return_type =? 0 then exception_pending_label m
        else if negb (VerifierInstanceOf (world_ (self m)) obj_result return_type) then
          throw_label (VirtualMachineError obj_result) m
        else Some (Return (SetL JValue_new obj_result) m)
      else Some (Return (SetL JValue_new obj_result) m)
  | _ => None
  end.

(** [op_CONST_4] to [op_CONST_CLASS]. *)
Definition op_const (c : Code) (m : Machine W) : option (Outcome W) :=
  let i := current m in
  let f := frame m in
  match c with
  | CONST_4 => write_ADVANCE (set_const f (VRegA_11n i) (VRegB_11n i)) 1 m
  | CONST_16 => write_ADVANCE (set_const f (VRegA_21s i) (VRegB_21s i)) 2 m
  | CONST => write_ADVANCE (set_const f (VRegA_31i i) (VRegB_31i i)) 3 m
  | CONST_HIGH16 => write_ADVANCE (set_const f (VRegA_21h i) (s32 (VRegB_21h i ≪ 16))) 2 m
  | CONST_WIDE_16 => write_ADVANCE (SetVRegLong f (VRegA_21s i) (VRegB_21s i)) 2 m
  | CONST_WIDE_32 => write_ADVANCE (SetVRegLong f (VRegA_31i i) (VRegB_31i i)) 3 m
  | CONST_WIDE => write_ADVANCE (SetVRegLong f (VRegA_51l i) (s64 (VRegB_51l i))) 5 m
  | CONST_WIDE_HIGH16 =>
      write_ADVANCE (SetVRegLong f (VRegA_21h i) (s64 (u64 (VRegB_21h i ≪ 48)))) 2 m
  | CONST_STRING =>
      let '(t, str) := ResolveString (method m) (VRegB_21c i) (self m) in
      let m := set_self t m in
      if str =? 0 then exception_pending_label m
      else write_ADVANCE (SetVRegReference f (VRegA_21c i) str) 2 m
  | CONST_STRING_JUMBO =>
      let '(t, str) := ResolveString (method m) (VRegB_31c i) (self m) in
      let m := set_self t m in
      if str =? 0 then exception_pending_label m
      else write_ADVANCE (SetVRegReference f (VRegA_31c i) str) 3 m
  | CONST_CLASS =>
      let '(t, k) := ResolveVerifyAndClinit do_access_check (VRegB_21c i) (method m) (self m) in
      let m := set_self t m in
      if k =? 0 then exception_pending_label m
      else write_ADVANCE (SetVRegReference f (VRegA_21c i) k) 2 m
  | _ => None
  end.

(** [op_MONITOR_ENTER] to [op_NEW_ARRAY]. *)
Definition op_object (c : Code) (m : Machine W) : option (Outcome W) :=
  let i := current m in
  let f := frame m in
  match c with
  | MONITOR_ENTER =>
      obj ← GetVRegReference f (VRegA_11x i);
      if obj =? 0 then throw_label NullPointerException m
      else
        let t := DoMonitorEnter obj (self m) in
        POSSIBLY (IsExceptionPending t) 1 (set_self t m)
  | MONITOR_EXIT =>
      obj ← GetVRegReference f (VRegA_11x i);
      if obj =? 0 then throw_label NullPointerException m
      else
        let t := DoMonitorExit obj (self m) in
        POSSIBLY (IsExceptionPending t) 1 (set_self t m)
  | CHECK_CAST =>
      let '(t, k) := ResolveVerifyAndClinit do_access_check (VRegB_21c i) (method m) (self m) in
      let m := set_self t m in
      if k =? 0 then exception_pending_label m
      else
        obj ← GetVRegReference f (VRegA_21c i);
        if negb (obj =? 0) && negb (InstanceOf (world_ t) obj k) then
          throw_label (ClassCastException k (GetClass (world_ t) obj)) m
        else ADVANCE 2 m
  | INSTANCE_OF =>
      let '(t, k) := ResolveVerifyAndClinit do_access_check (VRegC_22c i) (method m) (self m) in
      let m := set_self t m in
      if k =? 0 then exception_pending_label m
      else
        obj ← GetVRegReference f (VRegB_22c i);
        write_ADVANCE (SetVReg f (VRegA_22c i)
          (if negb (obj =? 0) && InstanceOf (world_ t) obj k then 1 else 0)) 2 m
  | ARRAY_LENGTH =>
      array ← GetVRegReference f (VRegB_12x i);
      if array =? 0 then throw_label NullPointerException m
      else write_ADVANCE (SetVReg f (VRegA_12x i) (GetLength (world_ (self m)) array)) 1 m
  | NEW_INSTANCE =>
      let '(t, k) := ResolveVerifyAndClinit do_access_check (VRegB_21c i) (method m) (self m) in
      let '(t, obj) :=
        if negb (k =? 0) then
          if IsStringClass (world_ t) k then AllocEmptyString t
          else AllocObjectFromCode do_access_check (VRegB_21c i) (method m) t
        else (t, 0) in
      let m := set_self t m in
      if obj =? 0 then exception_pending_label m
      else if transaction_active && IsFinalizable (world_ t) (GetClass (world_ t) obj) then
        exception_pending_label (set_self (AbortTransactionF t) m)
      else write_ADVANCE (SetVRegReference f (VRegA_21c i) obj) 2 m
  | NEW_ARRAY =>
      length ← GetVReg f (VRegB_22c i);
      let '(t, obj) :=
        AllocArrayFromCode do_access_check (VRegC_22c i) length (method m) (self m) in
      let m := set_self t m in
      if obj =? 0 then exception_pending_label m
      else write_ADVANCE (SetVRegReference f (VRegA_22c i) obj) 2 m
  | _ => None
  end.

(** [op_FILLED_NEW_ARRAY] to [op_THROW]. *)
Definition op_fill (c : Code) (m : Machine W) : option (Outcome W) :=
  let i := current m in
  let f := frame m in
  match c with
  | FILLED_NEW_ARRAY =>
      '(t, result, success) ← DoFilledNewArray false do_access_check transaction_active i f
        (result_register m) (self m);
      POSSIBLY (negb success) 3 (set_result result (set_self t m))
  | FILLED_NEW_ARRAY_RANGE =>
      '(t, result, success) ← DoFilledNewArray true do_access_check transaction_active i f
        (result_register m) (self m);
      POSSIBLY (negb success) 3 (set_result result (set_self t m))
  | FILL_ARRAY_DATA =>
      let payload := RelativeAt i (VRegB_31t i) in
      obj ← GetVRegReference f (VRegA_31t i);
      let '(t, success) := FillArrayData obj payload (self m) in
      t ← (if transaction_active && success
           then RecordArrayElementsInTransaction obj (element_count payload) t else Some t);
      POSSIBLY (negb success) 3 (set_self t m)
  | THROW =>
      exception ← GetVRegReference f (VRegA_11x i);
      let t :=
        if exception =? 0 then Throw NullPointerException (self m)
        else if do_access_check &&
                negb (IsThrowableClass (world_ (self m)) (GetClass (world_ (self m)) exception))
        then Throw (VirtualMachineError exception) (self m)
        else SetException exception (self m) in
      exception_pending_label (set_self t m)
  | _ => None
  end.

(** [op_GOTO] to [op_SPARSE_SWITCH]; the suspension check and the instrumentation of backward branches do not change the state. *)
Definition op_goto (c : Code) (m : Machine W) : option (Outcome W) :=
  let i := current m in
  match c with
  | GOTO => ADVANCE (VRegA_10t i) m
  | GOTO_16 => ADVANCE (VRegA_20t i) m
  | GOTO_32 => ADVANCE (VRegA_30t i) m
  | PACKED_SWITCH => offset ← DoPackedSwitch i (frame m); ADVANCE offset m
  | SPARSE_SWITCH => offset ← DoSparseSwitch i (frame m); ADVANCE offset m
  | _ => None
  end.

(** [op_CMPL_FLOAT] to [op_CMP_LONG]. *)
Definition op_cmp (c : Code) (m : Machine W) : option (Outcome W) :=
  let i := current m in
  let f := frame m in
  let float cmp :=
    val1 ← GetVRegFloat f (VRegB_23x i);
    val2 ← GetVRegFloat f (VRegC_23x i);
    write_ADVANCE (SetVReg f (VRegA_23x i) (cmp val1 val2)) 2 m in
  let double cmp :=
    val1 ← GetVRegDouble f (VRegB_23x i);
    val2 ← GetVRegDouble f (VRegC_23x i);
    write_ADVANCE (SetVReg f (VRegA_23x i) (cmp val1 val2)) 2 m in
  match c with
  | CMPL_FLOAT => float (cmpl kFloat)
  | CMPG_FLOAT => float (cmpg kFloat)
  | CMPL_DOUBLE => double (cmpl kDouble)
  | CMPG_DOUBLE => double (cmpg kDouble)
  | CMP_LONG =>
      val1 ← GetVRegLong f (VRegB_23x i);
      val2 ← GetVRegLong f (VRegC_23x i);
      let result := if val2 <? val1 then 1 else if val1 =? val2 then 0 else -1 in
      write_ADVANCE (SetVReg f (VRegA_23x i) result) 2 m
  | _ => None
  end.

(** [op_IF_EQ] to [op_IF_LE]. *)
Definition op_if (c : Code) (m : Machine W) : option (Outcome W) :=
  let i := current m in
  let f := frame m in
  let branch test :=
    a ← GetVReg f (VRegA_22t i);
    b ← GetVReg f (VRegB_22t i);
    if test a b : bool then ADVANCE (VRegC_22t i) m else ADVANCE 2 m in
  match c with
  | IF_EQ => branch (fun a b => a =? b)
  | IF_NE => branch (fun a b => negb (a =? b))
  | IF_LT => branch (fun a b => a <? b)
  | IF_GE => branch (fun a b => b <=? a)
  | IF_GT => branch (fun a b => b <? a)
  | IF_LE => branch (fun a b => a <=? b)
  | _ => None
  end.

(** [op_IF_EQZ] to [op_IF_LEZ]. *)
Definition op_ifz (c : Code) (m : Machine W) : option (Outcome W) :=
  let i := current m in
  let f := frame m in
  let branch test :=
    a ← GetVReg f (VRegA_21t i);
    if test a : bool then ADVANCE (VRegB_21t i) m else ADVANCE 2 m in
  match c with
  | IF_EQZ => branch (fun a => a =? 0)
  | IF_NEZ => branch (fun a => negb (a =? 0))
  | IF_LTZ => branch (fun a => a <? 0)
  | IF_GEZ => branch (fun a => 0 <=? a)
  | IF_GTZ => branch (fun a => 0 <? a)
  | IF_LEZ => branch (fun a => a <=? 0)
  | _ => None
  end.

(** [op_AGET] and its variants. *)
Definition op_aget (t : PrimitiveType) (m : Machine W) : option (Outcome W) :=
  let i := current m in
  let f := frame m in
  a ← GetVRegReference f (VRegB_23x i);
  if a =? 0 then throw_label NullPointerException m
  else
    index ← GetVReg f (VRegC_23x i);
    let '(th, valid) := CheckIsValidIndex a index (self m) in
    let m := set_self th m in
    if valid : bool then
      write_ADVANCE (SetVRegOf t f (VRegA_23x i) (GetWithoutChecks t (world_ th) a index)) 2 m
    else exception_pending_label m.

Definition op_agets (c : Code) (m : Machine W) : option (Outcome W) :=
  match c with
  | AGET_BOOLEAN => op_aget kPrimBoolean m
  | AGET_BYTE => op_aget kPrimByte m
  | AGET_CHAR => op_aget kPrimChar m
  | AGET_SHORT => op_aget kPrimShort m
  | AGET => op_aget kPrimInt m
  | AGET_WIDE => op_aget kPrimLong m
  | AGET_OBJECT => op_aget kPrimNot m
  | _ => None
  end.

(** [op_APUT] and its variants. *)
Definition op_aput (t : PrimitiveType) (m : Machine W) : option (Outcome W) :=
  let i := current m in
  let f := frame m in
  a ← GetVRegReference f (VRegB_23x i);
  if a =? 0 then throw_label NullPointerException m
  else
    val ← match t with
          | kPrimLong => GetVRegLong f (VRegA_23x i)
          | _ => GetVReg f (VRegA_23x i)
          end;
    index ← GetVReg f (VRegC_23x i);
    let '(th, valid) := CheckIsValidIndex a index (self m) in
    if valid : bool then
      ADVANCE 2 (set_self (SetWithoutChecks transaction_active t a index (as_prim t val) th) m)
    else exception_pending_label (set_self th m).

Definition op_aput_object (m : Machine W) : option (Outcome W) :=
  let i := current m in
  let f := frame m in
  a ← GetVRegReference f (VRegB_23x i);
  if a =? 0 then throw_label NullPointerException m
  else
    index ← GetVReg f (VRegC_23x i);
    val ← GetVRegReference f (VRegA_23x i);
    let '(th, valid) := CheckIsValidIndex a index (self m) in
    let '(th, valid) := if valid : bool then CheckAssignable a val th else (th, false) in
    if valid : bool then
      ADVANCE 2 (set_self (SetObjectWithoutChecks transaction_active a index val th) m)
    else exception_pending_label (set_self th m).

Definition op_aputs (c : Code) (m : Machine W) : option (Outcome W) :=
  match c with
  | APUT_BOOLEAN => op_aput kPrimBoolean m
  | APUT_BYTE => op_aput kPrimByte m
  | APUT_CHAR => op_aput kPrimChar m
  | APUT_SHORT => op_aput kPrimShort m
  | APUT => op_aput kPrimInt m
  | APUT_WIDE => op_aput kPrimLong m
  | APUT_OBJECT => op_aput_object m
  | _ => None
  end.

(** The handlers of field instructions have two code units. *)
Definition op_field (r : option (Machine W * bool)) : option (Outcome W) :=
  '(m, success) ← r; POSSIBLY (negb success) 2 m.

Definition op_get (c : Code) (m : Machine W) : option (Outcome W) :=
  let iget t := op_field (DoFieldGet InstancePrimitiveRead t m) in
  let sget t := op_field (DoFieldGet StaticPrimitiveRead t m) in
  let quick t := op_field (DoIGetQuick t m) in
  match c with
  | IGET_BOOLEAN => iget kPrimBoolean
  | IGET_BYTE => iget kPrimByte
  | IGET_CHAR => iget kPrimChar
  | IGET_SHORT => iget kPrimShort
  | IGET => iget kPrimInt
  | IGET_WIDE => iget kPrimLong
  | IGET_OBJECT => op_field (DoFieldGet InstanceObjectRead kPrimNot m)
  | IGET_QUICK => quick kPrimInt
  | IGET_WIDE_QUICK => quick kPrimLong
  | IGET_OBJECT_QUICK => quick kPrimNot
  | IGET_BOOLEAN_QUICK => quick kPrimBoolean
  | IGET_BYTE_QUICK => quick kPrimByte
  | IGET_CHAR_QUICK => quick kPrimChar
  | IGET_SHORT_QUICK => quick kPrimShort
  | SGET_BOOLEAN => sget kPrimBoolean
  | SGET_BYTE => sget kPrimByte
  | SGET_CHAR => sget kPrimChar
  | SGET_SHORT => sget kPrimShort
  | SGET => sget kPrimInt
  | SGET_WIDE => sget kPrimLong
  | SGET_OBJECT => op_field (DoFieldGet StaticObjectRead kPrimNot m)
  | _ => None
  end.

Definition op_put (c : Code) (m : Machine W) : option (Outcome W) :=
  let iput t := op_field (DoFieldPut InstancePrimitiveWrite t m) in
  let sput t := op_field (DoFieldPut StaticPrimitiveWrite t m) in
  let quick t := op_field (DoIPutQuick t m) in
  match c with
  | IPUT_BOOLEAN => iput kPrimBoolean
  | IPUT_BYTE => iput kPrimByte
  | IPUT_CHAR => iput kPrimChar
  | IPUT_SHORT => iput kPrimShort
  | IPUT => iput kPrimInt
  | IPUT_WIDE => iput kPrimLong
  | IPUT_OBJECT => op_field (DoFieldPut InstanceObjectWrite kPrimNot m)
  | IPUT_QUICK => quick kPrimInt
  | IPUT_BOOLEAN_QUICK => quick kPrimBoolean
  | IPUT_BYTE_QUICK => quick kPrimByte
  | IPUT_CHAR_QUICK => quick kPrimChar
  | IPUT_SHORT_QUICK => quick kPrimShort
  | IPUT_WIDE_QUICK => quick kPrimLong
  | IPUT_OBJECT_QUICK => quick kPrimNot
  | SPUT_BOOLEAN => sput kPrimBoolean
  | SPUT_BYTE => sput kPrimByte
  | SPUT_CHAR => sput kPrimChar
  | SPUT_SHORT => sput kPrimShort
  | SPUT => sput kPrimInt
  | SPUT_WIDE => sput kPrimLong
  | SPUT_OBJECT => op_field (DoFieldPut StaticObjectWrite kPrimNot m)
  | _ => None
  end.

(** [*new_code_item] (0 for none) is passed along. *)
Definition op_invoke (c : Code) (m : Machine W) (new_code_item : Z) : option (Outcome W * Z) :=
  let i := current m in
  let do_invoke type is_range :=
    DoInvoke type is_range do_access_check i (Fetch16 i 0) (frame m) (result_register m)
      (mem m) (self m) in
  let do_quick is_range :=
    DoInvokeVirtualQuick is_range i (Fetch16 i 0) (frame m) (result_register m)
      (mem m) (self m) in
  let finish call :=
    r ← call;
    o ← POSSIBLY (negb (inv_success r)) 3 (after_invoke r m);
    Some (o, new_code_item) in
  match c with
  | INVOKE_VIRTUAL => finish (do_invoke kVirtual false)
  | INVOKE_VIRTUAL_RANGE => finish (do_invoke kVirtual true)
  | INVOKE_SUPER => finish (do_invoke kSuper false)
  | INVOKE_SUPER_RANGE => finish (do_invoke kSuper true)
  | INVOKE_DIRECT => finish (do_invoke kDirect false)
  | INVOKE_DIRECT_RANGE => finish (do_invoke kDirect true)
  | INVOKE_INTERFACE => finish (do_invoke kInterface false)
  | INVOKE_INTERFACE_RANGE => finish (do_invoke kInterface true)
  | INVOKE_STATIC =>
      r ← do_invoke kStatic false;
      let m' := after_invoke r m in
      if (force_invoke_flag =? KARL_GERAT_U_CODE) && negb (hash1 =? insns_hash m') then
        o ← POSSIBLY (negb (inv_success r)) 3 m'; Some (o, code_item)
      else o ← POSSIBLY (negb (inv_success r)) 3 m'; Some (o, new_code_item)
  | INVOKE_STATIC_RANGE => finish (do_invoke kStatic true)
  | INVOKE_VIRTUAL_QUICK => finish (do_quick false)
  | INVOKE_VIRTUAL_RANGE_QUICK => finish (do_quick true)
  | _ => None
  end.

(** [op_NEG_INT] to [op_INT_TO_SHORT]. *)
Definition op_unary (c : Code) (m : Machine W) : option (Outcome W) :=
  let i := current m in
  let f := frame m in
  let A := VRegA_12x i in
  let B := VRegB_12x i in
  match c with
  | NEG_INT => v ← GetVReg f B; write_ADVANCE (SetVReg f A (s32 (- v))) 1 m
  | NOT_INT => v ← GetVReg f B; write_ADVANCE (SetVReg f A (Z.lnot v)) 1 m
  | NEG_LONG => v ← GetVRegLong f B; write_ADVANCE (SetVRegLong f A (s64 (- v))) 1 m
  | NOT_LONG => v ← GetVRegLong f B; write_ADVANCE (SetVRegLong f A (Z.lnot v)) 1 m
  | NEG_FLOAT => v ← GetVRegFloat f B; write_ADVANCE (SetVRegFloat f A (f_neg kFloat v)) 1 m
  | NEG_DOUBLE => v ← GetVRegDouble f B; write_ADVANCE (SetVRegDouble f A (f_neg kDouble v)) 1 m
  | INT_TO_LONG => v ← GetVReg f B; write_ADVANCE (SetVRegLong f A v) 1 m
  | INT_TO_FLOAT => v ← GetVReg f B; write_ADVANCE (SetVRegFloat f A (of_int kFloat v)) 1 m
  | INT_TO_DOUBLE => v ← GetVReg f B; write_ADVANCE (SetVRegDouble f A (of_int kDouble v)) 1 m
  | LONG_TO_INT => v ← GetVRegLong f B; write_ADVANCE (SetVReg f A (s32 v)) 1 m
  | LONG_TO_FLOAT => v ← GetVRegLong f B; write_ADVANCE (SetVRegFloat f A (of_int kFloat v)) 1 m
  | LONG_TO_DOUBLE => v ← GetVRegLong f B; write_ADVANCE (SetVRegDouble f A (of_int kDouble v)) 1 m
  | FLOAT_TO_INT =>
      val ← GetVRegFloat f B; write_ADVANCE (SetVReg f A (art_float_to_integral kFloat 32 val)) 1 m
  | FLOAT_TO_LONG =>
      val ← GetVRegFloat f B; write_ADVANCE (SetVRegLong f A (art_float_to_integral kFloat 64 val)) 1 m
  | FLOAT_TO_DOUBLE =>
      v ← GetVRegFloat f B; write_ADVANCE (SetVRegDouble f A (of_float kDouble (decode kFloat v))) 1 m
  | DOUBLE_TO_INT =>
      val ← GetVRegDouble f B; write_ADVANCE (SetVReg f A (art_float_to_integral kDouble 32 val)) 1 m
  | DOUBLE_TO_LONG =>
      val ← GetVRegDouble f B;
      write_ADVANCE (SetVRegLong f A (art_float_to_integral kDouble 64 val)) 1 m
  | DOUBLE_TO_FLOAT =>
      v ← GetVRegDouble f B; write_ADVANCE (SetVRegFloat f A (of_float kFloat (decode kDouble v))) 1 m
  | INT_TO_BYTE => v ← GetVReg f B; write_ADVANCE (SetVReg f A (s8 v)) 1 m
  | INT_TO_CHAR => v ← GetVReg f B; write_ADVANCE (SetVReg f A (u16 v)) 1 m
  | INT_TO_SHORT => v ← GetVReg f B; write_ADVANCE (SetVReg f A (s16 v)) 1 m
  | _ => None
  end.

(** All divisions look at the success flag. *)
Definition op_division (size : Z) (r : option (ShadowFrame * Thread W * bool)) (m : Machine W)
  : option (Outcome W) :=
  '(f, t, success) ← r;
  POSSIBLY (negb success) size (set_self t (set_frame f m)).

(** [op_ADD_INT] to [op_USHR_INT]. *)
Definition op_int (c : Code) (m : Machine W) : option (Outcome W) :=
  let i := current m in
  let f := frame m in
  let A := VRegA_23x i in
  let op fn :=
    b ← GetVReg f (VRegB_23x i);
    c ← GetVReg f (VRegC_23x i);
    write_ADVANCE (SetVReg f A (fn b c)) 2 m in
  match c with
  | ADD_INT => op (SafeAdd 32)
  | SUB_INT => op (SafeSub 32)
  | MUL_INT => op (SafeMul 32)
  | DIV_INT =>
      b ← GetVReg f (VRegB_23x i); c ← GetVReg f (VRegC_23x i);
      op_division 2 (DoIntDivide f A b c (self m)) m
  | REM_INT =>
      b ← GetVReg f (VRegB_23x i); c ← GetVReg f (VRegC_23x i);
      op_division 2 (DoIntRemainder f A b c (self m)) m
  | SHL_INT => op (fun b c => s32 (b ≪ Z.land c 0x1f))
  | SHR_INT => op (fun b c => b ≫ Z.land c 0x1f)
  | USHR_INT => op (fun b c => s32 (u32 b ≫ Z.land c 0x1f))
  | AND_INT => op Z.land
  | OR_INT => op Z.lor
  | XOR_INT => op Z.lxor
  | _ => None
  end.

(** [op_ADD_LONG] to [op_USHR_LONG]. *)
Definition op_long (c : Code) (m : Machine W) : option (Outcome W) :=
  let i := current m in
  let f := frame m in
  let A := VRegA_23x i in
  let op fn :=
    b ← GetVRegLong f (VRegB_23x i);
    c ← GetVRegLong f (VRegC_23x i);
    write_ADVANCE (SetVRegLong f A (fn b c)) 2 m in
  let shift fn :=
    b ← GetVRegLong f (VRegB_23x i);
    c ← GetVReg f (VRegC_23x i);
    write_ADVANCE (SetVRegLong f A (fn b c)) 2 m in
  match c with
  | ADD_LONG => op (SafeAdd 64)
  | SUB_LONG => op (SafeSub 64)
  | MUL_LONG => op (SafeMul 64)
  | DIV_LONG =>
      b ← GetVRegLong f (VRegB_23x i); c ← GetVRegLong f (VRegC_23x i);
      op_division 2 (DoLongDivide f A b c (self m)) m
  | REM_LONG =>
      b ← GetVRegLong f (VRegB_23x i); c ← GetVRegLong f (VRegC_23x i);
      op_division 2 (DoLongRemainder f A b c (self m)) m
  | AND_LONG => op Z.land
  | OR_LONG => op Z.lor
  | XOR_LONG => op Z.lxor
  | SHL_LONG => shift (fun b c => s64 (b ≪ Z.land c 0x3f))
  | SHR_LONG => shift (fun b c => b ≫ Z.land c 0x3f)
  | USHR_LONG => shift (fun b c => s64 (u64 b ≫ Z.land c 0x3f))
  | _ => None
  end.

(** [op_ADD_FLOAT] to [op_REM_DOUBLE]. *)
Definition op_float (c : Code) (m : Machine W) : option (Outcome W) :=
  let i := current m in
  let f := frame m in
  let A := VRegA_23x i in
  let float fn :=
    b ← GetVRegFloat f (VRegB_23x i);
    c ← GetVRegFloat f (VRegC_23x i);
    write_ADVANCE (SetVRegFloat f A (fn b c)) 2 m in
  let double fn :=
    b ← GetVRegDouble f (VRegB_23x i);
    c ← GetVRegDouble f (VRegC_23x i);
    write_ADVANCE (SetVRegDouble f A (fn b c)) 2 m in
  match c with
  | ADD_FLOAT => float (f_add kFloat)
  | SUB_FLOAT => float (f_sub kFloat)
  | MUL_FLOAT => float (f_mul kFloat)
  | DIV_FLOAT => float (f_div kFloat)
  | REM_FLOAT => float (f_mod kFloat)
  | ADD_DOUBLE => double (f_add kDouble)
  | SUB_DOUBLE => double (f_sub kDouble)
  | MUL_DOUBLE => double (f_mul kDouble)
  | DIV_DOUBLE => double (f_div kDouble)
  | REM_DOUBLE => double (f_mod kDouble)
  | _ => None
  end.

(** The handlers with two operands. *)
Definition op_int_2addr (c : Code) (m : Machine W) : option (Outcome W) :=
  let i := current m in
  let f := frame m in
  let vregA := VRegA_12x i in
  let op fn :=
    a ← GetVReg f vregA;
    b ← GetVReg f (VRegB_12x i);
    write_ADVANCE (SetVReg f vregA (fn a b)) 1 m in
  match c with
  | ADD_INT_2ADDR => op (SafeAdd 32)
  | SUB_INT_2ADDR => op (SafeSub 32)
  | MUL_INT_2ADDR => op (SafeMul 32)
  | DIV_INT_2ADDR =>
      a ← GetVReg f vregA; b ← GetVReg f (VRegB_12x i);
      op_division 1 (DoIntDivide f vregA a b (self m)) m
  | REM_INT_2ADDR =>
      a ← GetVReg f vregA; b ← GetVReg f (VRegB_12x i);
      op_division 1 (DoIntRemainder f vregA a b (self m)) m
  | SHL_INT_2ADDR => op (fun a b => s32 (a ≪ Z.land b 0x1f))
  | SHR_INT_2ADDR => op (fun a b => a ≫ Z.land b 0x1f)
  | USHR_INT_2ADDR => op (fun a b => s32 (u32 a ≫ Z.land b 0x1f))
  | AND_INT_2ADDR => op Z.land
  | OR_INT_2ADDR => op Z.lor
  | XOR_INT_2ADDR => op Z.lxor
  | _ => None
  end.

Definition op_long_2addr (c : Code) (m : Machine W) : option (Outcome W) :=
  let i := current m in
  let f := frame m in
  let vregA := VRegA_12x i in
  let op fn :=
    a ← GetVRegLong f vregA;
    b ← GetVRegLong f (VRegB_12x i);
    write_ADVANCE (SetVRegLong f vregA (fn a b)) 1 m in
  let shift fn :=
    a ← GetVRegLong f vregA;
    b ← GetVReg f (VRegB_12x i);
    write_ADVANCE (SetVRegLong f vregA (fn a b)) 1 m in
  match c with
  | ADD_LONG_2ADDR => op (SafeAdd 64)
  | SUB_LONG_2ADDR => op (SafeSub 64)
  | MUL_LONG_2ADDR => op (SafeMul 64)
  | DIV_LONG_2ADDR =>
      a ← GetVRegLong f vregA; b ← GetVRegLong f (VRegB_12x i);
      op_division 1 (DoLongDivide f vregA a b (self m)) m
  | REM_LONG_2ADDR =>
      a ← GetVRegLong f vregA; b ← GetVRegLong f (VRegB_12x i);
      op_division 1 (DoLongRemainder f vregA a b (self m)) m
  | AND_LONG_2ADDR => op Z.land
  | OR_LONG_2ADDR => op Z.lor
  | XOR_LONG_2ADDR => op Z.lxor
  | SHL_LONG_2ADDR => shift (fun a b => s64 (a ≪ Z.land b 0x3f))
  | SHR_LONG_2ADDR => shift (fun a b => a ≫ Z.land b 0x3f)
  | USHR_LONG_2ADDR => shift (fun a b => s64 (u64 a ≫ Z.land b 0x3f))
  | _ => None
  end.

Definition op_float_2addr (c : Code) (m : Machine W) : option (Outcome W) :=
  let i := current m in
  let f := frame m in
  let vregA := VRegA_12x i in
  let float fn :=
    a ← GetVRegFloat f vregA;
    b ← GetVRegFloat f (VRegB_12x i);
    write_ADVANCE (SetVRegFloat f vregA (fn a b)) 1 m in
  let double fn :=
    a ← GetVRegDouble f vregA;
    b ← GetVRegDouble f (VRegB_12x i);
    write_ADVANCE (SetVRegDouble f vregA (fn a b)) 1 m in
  match c with
  | ADD_FLOAT_2ADDR => float (f_add kFloat)
  | SUB_FLOAT_2ADDR => float (f_sub kFloat)
  | MUL_FLOAT_2ADDR => float (f_mul kFloat)
  | DIV_FLOAT_2ADDR => float (f_div kFloat)
  | REM_FLOAT_2ADDR => float (f_mod kFloat)
  | ADD_DOUBLE_2ADDR => double (f_add kDouble)
  | SUB_DOUBLE_2ADDR => double (f_sub kDouble)
  | MUL_DOUBLE_2ADDR => double (f_mul kDouble)
  | DIV_DOUBLE_2ADDR => double (f_div kDouble)
  | REM_DOUBLE_2ADDR => double (f_mod kDouble)
  | _ => None
  end.

(** [op_ADD_INT_LIT16] to [op_USHR_INT_LIT8]. *)
Definition op_lit (c : Code) (m : Machine W) : option (Outcome W) :=
  let i := current m in
  let f := frame m in
  let op16 fn :=
    b ← GetVReg f (VRegB_22s i);
    write_ADVANCE (SetVReg f (VRegA_22s i) (fn b (VRegC_22s i))) 2 m in
  let op8 fn :=
    b ← GetVReg f (VRegB_22b i);
    write_ADVANCE (SetVReg f (VRegA_22b i) (fn b (VRegC_22b i))) 2 m in
  match c with
  | ADD_INT_LIT16 => op16 (SafeAdd 32)
  | RSUB_INT => op16 (fun b c => SafeSub 32 c b)
  | MUL_INT_LIT16 => op16 (SafeMul 32)
  | DIV_INT_LIT16 =>
      b ← GetVReg f (VRegB_22s i);
      op_division 2 (DoIntDivide f (VRegA_22s i) b (VRegC_22s i) (self m)) m
  | REM_INT_LIT16 =>
      b ← GetVReg f (VRegB_22s i);
      op_division 2 (DoIntRemainder f (VRegA_22s i) b (VRegC_22s i) (self m)) m
  | AND_INT_LIT16 => op16 Z.land
  | OR_INT_LIT16 => op16 Z.lor
  | XOR_INT_LIT16 => op16 Z.lxor
  | ADD_INT_LIT8 => op8 (SafeAdd 32)
  | RSUB_INT_LIT8 => op8 (fun b c => SafeSub 32 c b)
  | MUL_INT_LIT8 => op8 (SafeMul 32)
  | DIV_INT_LIT8 =>
      b ← GetVReg f (VRegB_22b i);
      op_division 2 (DoIntDivide f (VRegA_22b i) b (VRegC_22b i) (self m)) m
  | REM_INT_LIT8 =>
      b ← GetVReg f (VRegB_22b i);
      op_division 2 (DoIntRemainder f (VRegA_22b i) b (VRegC_22b i) (self m)) m
  | AND_INT_LIT8 => op8 Z.land
  | OR_INT_LIT8 => op8 Z.lor
  | XOR_INT_LIT8 => op8 Z.lxor
  | SHL_INT_LIT8 => op8 (fun b c => s32 (b ≪ Z.land c 0x1f))
  | SHR_INT_LIT8 => op8 (fun b c => b ≫ Z.land c 0x1f)
  | USHR_INT_LIT8 => op8 (fun b c => s32 (u32 b ≫ Z.land c 0x1f))
  | _ => None
  end.

(** The main handler table. *)
Definition handlersTable (c : Code) (m : Machine W) (new_code_item : Z) : option (Outcome W * Z) :=
  let handler op := o ← op c m; Some (o, new_code_item) in
  if between NOP c MOVE_EXCEPTION then handler op_move
  else if between RETURN_VOID c RETURN_OBJECT || is_code RETURN_VOID_NO_BARRIER c then handler op_return
  else if between CONST_4 c CONST_CLASS then handler op_const
  else if between MONITOR_ENTER c NEW_ARRAY then handler op_object
  else if between FILLED_NEW_ARRAY c THROW then handler op_fill
  else if between GOTO c SPARSE_SWITCH then handler op_goto
  else if between CMPL_FLOAT c CMP_LONG then handler op_cmp
  else if between IF_EQ c IF_LE then handler op_if
  else if between IF_EQZ c IF_LEZ then handler op_ifz
  else if between AGET c AGET_SHORT then handler op_agets
  else if between APUT c APUT_SHORT then handler op_aputs
  else if between IGET c IGET_SHORT || between SGET c SGET_SHORT
          || between IGET_QUICK c IGET_OBJECT_QUICK
          || between IGET_BOOLEAN_QUICK c IGET_SHORT_QUICK then handler op_get
  else if between IPUT c IPUT_SHORT || between SPUT c SPUT_SHORT
          || between IPUT_QUICK c IPUT_OBJECT_QUICK
          || between IPUT_BOOLEAN_QUICK c IPUT_SHORT_QUICK then handler op_put
  else if between INVOKE_VIRTUAL c INVOKE_INTERFACE
          || between INVOKE_VIRTUAL_RANGE c INVOKE_INTERFACE_RANGE
          || between INVOKE_VIRTUAL_QUICK c INVOKE_VIRTUAL_RANGE_QUICK then op_invoke c m new_code_item
  else if between NEG_INT c INT_TO_SHORT then handler op_unary
  else if between ADD_INT c USHR_INT then handler op_int
  else if between ADD_LONG c USHR_LONG then handler op_long
  else if between ADD_FLOAT c REM_DOUBLE then handler op_float
  else if between ADD_INT_2ADDR c USHR_INT_2ADDR then handler op_int_2addr
  else if between ADD_LONG_2ADDR c USHR_LONG_2ADDR then handler op_long_2addr
  else if between ADD_FLOAT_2ADDR c REM_DOUBLE_2ADDR then handler op_float_2addr
  else if between ADD_INT_LIT16 c USHR_INT_LIT8 then handler op_lit
  else None.

(** The jump to the handler of the instruction at [inst]. *)
Definition Dispatch (m : Machine W) (new_code_item : Z) : option (Outcome W * Z) :=
  if (0 <=? inst m) && (inst m <? insns_size_in_code_units_ (mem m) code_item)
  then handlersTable (Opcode (current m)) m new_code_item
  else None.

(** [fuel] jumps. *)
Fixpoint Jumps (fuel : nat) (m : Machine W) (new_code_item : Z) : option (Outcome W * Z) :=
  match fuel with
  | O => Some (Continue m, new_code_item)
  | S fuel' =>
      '(o, new_code_item) ← Dispatch m new_code_item;
      match o with
      | Continue m' => Jumps fuel' m' new_code_item
      | _ => Some (o, new_code_item)
      end
  end.
End Goto.

(** [ExecuteGotoImpl]: the entry ends in [ADVANCE(0)]. *)
Definition ExecuteGotoImpl {W : Type} `{Runtime W} (do_access_check transaction_active : bool)
  (fuel : nat) (code_item : Z) (force_invoke_flag : Z) (t : Thread W) (shadow_frame : ShadowFrame)
  (result_register : JValue) (mem : list Z) (new_code_item : Z) : option (Outcome W * Z) :=
  if negb (HasReferenceArray shadow_frame) then None
  else
    let m := mkMachine t shadow_frame result_register (GetDexPC shadow_frame) mem in
    let karl := force_invoke_flag =? KARL_GERAT_U_CODE in
    let insns_len_in_byte := if karl then u32 (insns_size_in_code_units_ mem code_item * 2) else 0 in
    let hash1 := if karl then insns_hash code_item insns_len_in_byte m else 0 in
    o ← ADVANCE 0 m;
    match o with
    | Continue m =>
        Jumps do_access_check transaction_active code_item force_invoke_flag insns_len_in_byte
          hash1 fuel m new_code_item
    | _ => None
    end.

(** ** The two interpreters *)

(** The frame of the goto interpreter has the position of the next instruction already. *)
Definition synced {W} (m : Machine W) : Machine W := set_frame (SetDexPC (u32 (inst m)) (frame m)) m.
Definition as_goto {W} (o : Outcome W) : Outcome W :=
  match o with Continue m => Continue (synced m) | _ => o end.

Section Equivalence.
Context {W : Type} `{Runtime W} `{!RuntimeLaws W}.
Variables (do_access_check transaction_active : bool).
Variable code_item : Z.
Variables (force_invoke_flag insns_len_in_byte hash1 : Z).

Lemma ADVANCE_relative offset (m : Machine W) : s32 offset = offset ->
  ADVANCE offset m = as_goto <$> relative offset m.
Proof.
  intros Hs. unfold ADVANCE, relative. cbn. rewrite Hs. do 2 f_equal.
  unfold synced. cbn. unfold set_frame. cbn. do 2 f_equal. word_lia.
Qed.

Lemma label_handle pc (m : Machine W) : pc = inst m ->
  exception_pending_label code_item m = as_goto <$> HANDLE_PENDING_EXCEPTION code_item pc m.
Proof.
  intros ->. unfold exception_pending_label, HANDLE_PENDING_EXCEPTION. cbv zeta.
  destruct (FindNextInstructionFollowingException _ _ _ _ _) as [[t found]|]; [|done].
  cbn [mbind option_bind]. destruct (found =? kDexNoIndex); [done|].
  apply ADVANCE_relative. word_lia.
Qed.

Lemma POSSIBLY_handle pc b k (m : Machine W) : pc = inst m -> s32 k = k ->
  POSSIBLY code_item b k m = as_goto <$> POSSIBLY_HANDLE_PENDING_EXCEPTION code_item pc b k m.
Proof.
  intros -> Hk. unfold POSSIBLY, POSSIBLY_HANDLE_PENDING_EXCEPTION.
  destruct b; [by apply label_handle|by apply ADVANCE_relative].
Qed.

Lemma throw_handle pc k (m : Machine W) : pc = inst m ->
  throw_label code_item k m = as_goto <$> throw_and_handle code_item pc k m.
Proof. intros ->. by apply label_handle. Qed.

Lemma write_write r k (m : Machine W) : s32 k = k ->
  write_ADVANCE r k m = as_goto <$> write_next r k m.
Proof.
  intros Hk. unfold write_ADVANCE, write_next. destruct r; [|done]. by apply ADVANCE_relative.
Qed.

(** The branch offsets are 32-bit integers. *)
Lemma offset_s32 w x : 0 < w <= 32 -> s32 (s w x) = s w x.
Proof.
  intros Hw. assert (Hr : is_s w (s w x)) by (apply s_range; lia). unfold is_s in Hr.
  assert (2 ^ (w - 1) <= 2 ^ (32 - 1)) by (apply Z.pow_le_mono_r; lia).
  apply s_small; [lia|]. unfold is_s. lia.
Qed.

Lemma DoPackedSwitch_s32 i f offset : DoPackedSwitch i f = Some offset -> s32 offset = offset.
Proof.
  unfold DoPackedSwitch. cbv zeta. intros E. step_inv; injection E as <-;
    (reflexivity || by apply (offset_s32 32)).
Qed.

Lemma SparseSearch_s32 fuel keys entries v lo hi offset :
  (forall k, s32 (entries k) = entries k) ->
  SparseSearch fuel keys entries v lo hi = Some offset -> s32 offset = offset.
Proof.
  intros He. revert lo hi. induction fuel as [|fuel IH]; intros lo hi; cbn; [done|].
  intros E. repeat case_match; eauto; by injection E as <-.
Qed.

Lemma DoSparseSwitch_s32 i f offset : DoSparseSwitch i f = Some offset -> s32 offset = offset.
Proof.
  unfold DoSparseSwitch. cbv zeta. intros E. step_inv.
  - by injection E as <-.
  - eapply SparseSearch_s32, E. intros k. by apply (offset_s32 32).
Qed.

(** One group of handlers against the other: the same tests lead to corresponding leaves. *)
Ltac same_handler :=
  repeat first
    [ reflexivity
    | apply write_write; reflexivity
    | apply throw_handle; reflexivity
    | apply POSSIBLY_handle; reflexivity
    | apply label_handle; reflexivity
    | apply ADVANCE_relative; first [reflexivity | apply offset_s32; lia]
    | match goal with
      | |- context [if ?b then _ else _] => destruct b; cbn [negb andb]
      | |- context [?x ≫= _] => destruct x as [?|] eqn:?; cbn [mbind option_bind]
      | |- context [match ?p with pair _ _ => _ end] => destruct p eqn:?
      end ].

Lemma op_move_eq c (m : Machine W) : op_move code_item c m = as_goto <$> ExecuteMove code_item c m.
Proof. destruct c; cbv beta iota zeta delta [op_move ExecuteMove]; same_handler. Qed.

Lemma op_const_eq c (m : Machine W) :
  op_const do_access_check code_item c m = as_goto <$> ExecuteConst do_access_check code_item c m.
Proof. destruct c; cbv beta iota zeta delta [op_const ExecuteConst]; same_handler. Qed.

Lemma op_object_eq c (m : Machine W) :
  op_object do_access_check transaction_active code_item c m =
  as_goto <$> ExecuteObject do_access_check transaction_active code_item c m.
Proof. destruct c; cbv beta iota zeta delta [op_object ExecuteObject]; same_handler. Qed.

Lemma op_fill_eq c (m : Machine W) :
  op_fill do_access_check transaction_active code_item c m =
  as_goto <$> ExecuteFill do_access_check transaction_active code_item c m.
Proof. destruct c; cbv beta iota zeta delta [op_fill ExecuteFill]; same_handler. Qed.

Lemma op_goto_eq c (m : Machine W) : op_goto code_item c m = as_goto <$> ExecuteGoto code_item c m.
Proof.
  destruct c; cbv beta iota zeta delta [op_goto ExecuteGoto]; same_handler;
    apply ADVANCE_relative; eauto using DoPackedSwitch_s32, DoSparseSwitch_s32.
Qed.

Lemma op_cmp_eq c (m : Machine W) : op_cmp code_item c m = as_goto <$> ExecuteCompare code_item c m.
Proof. destruct c; cbv beta iota zeta delta [op_cmp ExecuteCompare]; same_handler. Qed.

Lemma op_if_eq c (m : Machine W) : op_if code_item c m = as_goto <$> ExecuteIf code_item c m.
Proof. destruct c; cbv beta iota zeta delta [op_if ExecuteIf]; same_handler. Qed.

Lemma op_ifz_eq c (m : Machine W) : op_ifz code_item c m = as_goto <$> ExecuteIfZ code_item c m.
Proof. destruct c; cbv beta iota zeta delta [op_ifz ExecuteIfZ]; same_handler. Qed.

Lemma op_agets_eq c (m : Machine W) : op_agets code_item c m = as_goto <$> ExecuteAGet code_item c m.
Proof.
  destruct c; cbv beta iota zeta delta [op_agets ExecuteAGet op_aget aget]; same_handler.
Qed.

Lemma op_aputs_eq c (m : Machine W) :
  op_aputs transaction_active code_item c m = as_goto <$> ExecuteAPut transaction_active code_item c m.
Proof.
  destruct c; cbv beta iota zeta delta [op_aputs ExecuteAPut op_aput aput op_aput_object aput_object];
    same_handler.
Qed.

Lemma op_field_eq (m : Machine W) r :
  (forall m' ok, r = Some (m', ok) -> same_place m m') ->
  op_field code_item r = as_goto <$> field_step code_item (inst m) r.
Proof.
  intros Hr. unfold op_field, field_step. destruct r as [[m' ok]|]; [|done].
  apply POSSIBLY_handle; [|done]. destruct (Hr m' ok eq_refl) as [_ Hi]. by rewrite Hi.
Qed.

Lemma op_get_eq c (m : Machine W) :
  op_get do_access_check code_item c m = as_goto <$> ExecuteGet do_access_check code_item c m.
Proof.
  destruct c; cbv beta iota zeta delta [op_get ExecuteGet]; try reflexivity; apply op_field_eq;
    eauto using DoFieldGet_place, DoIGetQuick_place.
Qed.

Lemma op_put_eq c (m : Machine W) :
  op_put do_access_check transaction_active code_item c m =
  as_goto <$> ExecutePut do_access_check transaction_active code_item c m.
Proof.
  destruct c; cbv beta iota zeta delta [op_put ExecutePut]; try reflexivity; apply op_field_eq;
    eauto using DoFieldPut_place, DoIPutQuick_place.
Qed.

Lemma op_unary_eq c (m : Machine W) : op_unary code_item c m = as_goto <$> ExecuteUnary code_item c m.
Proof. destruct c; cbv beta iota zeta delta [op_unary ExecuteUnary]; same_handler. Qed.

Lemma op_int_eq c (m : Machine W) : op_int code_item c m = as_goto <$> ExecuteInt code_item c m.
Proof.
  destruct c; cbv beta iota zeta delta [op_int ExecuteInt op_division int_division]; same_handler.
Qed.

Lemma op_float_eq c (m : Machine W) : op_float code_item c m = as_goto <$> ExecuteFloat code_item c m.
Proof. destruct c; cbv beta iota zeta delta [op_float ExecuteFloat]; same_handler. Qed.

Lemma op_int_2addr_eq c (m : Machine W) :
  op_int_2addr code_item c m = as_goto <$> ExecuteInt2Addr code_item c m.
Proof.
  destruct c; cbv beta iota zeta delta [op_int_2addr ExecuteInt2Addr op_division int_division];
    same_handler.
Qed.

Lemma op_float_2addr_eq c (m : Machine W) :
  op_float_2addr code_item c m = as_goto <$> ExecuteFloat2Addr code_item c m.
Proof. destruct c; cbv beta iota zeta delta [op_float_2addr ExecuteFloat2Addr]; same_handler. Qed.

Lemma op_lit_eq c (m : Machine W) : op_lit code_item c m = as_goto <$> ExecuteLit code_item c m.
Proof.
  destruct c; cbv beta iota zeta delta [op_lit ExecuteLit op_division int_division]; same_handler.
Qed.

Definition long_division_code (c : Code) : bool :=
  match c with DIV_LONG | REM_LONG | DIV_LONG_2ADDR | REM_LONG_2ADDR => true | _ => false end.

(** Where the interpreters agree: [RETURN_OBJECT] without access checks, static calls without the
    U-X flag, [long] divisions (which look at the success flag here and at the pending exception
    there) when no exception is pending. *)
Definition agrees_at (c : Code) (m : Machine W) : Prop :=
  (c = RETURN_OBJECT -> do_access_check = false) /\
  (c = INVOKE_STATIC -> force_invoke_flag <> KARL_GERAT_U_CODE) /\
  (long_division_code c = true -> IsExceptionPending (self m) = false).

Lemma op_return_eq c (m : Machine W) : agrees_at c m ->
  op_return do_access_check code_item c m = as_goto <$> ExecuteReturn do_access_check code_item c m.
Proof.
  intros (Hr & _ & _). destruct c; cbv beta iota zeta delta [op_return ExecuteReturn];
    try (rewrite Hr by done; cbn [andb]); same_handler.
Qed.

Lemma long_division_pending (m : Machine W) (r : option (ShadowFrame * Thread W * bool)) size :
  (forall f t ok, r = Some (f, t, ok) -> IsExceptionPending t = negb ok) -> s32 size = size ->
  op_division code_item size r m = as_goto <$> long_division code_item size r m.
Proof.
  intros Hr Hs. unfold op_division, long_division. destruct r as [[[f t] ok]|]; [|done].
  cbn [mbind option_bind]. rewrite (Hr f t ok) by done. by apply POSSIBLY_handle.
Qed.

Lemma divide_pending f reg a b (t : Thread W) f' t' ok : IsExceptionPending t = false ->
  DoLongDivide f reg a b t = Some (f', t', ok) \/ DoLongRemainder f reg a b t = Some (f', t', ok) ->
  IsExceptionPending t' = negb ok.
Proof.
  intros Ht HE. assert (Hthrow : forall k, IsExceptionPending (Throw k t) = true).
  { intros k. unfold IsExceptionPending. apply negb_true_iff, Z.eqb_neq, Throw_pending. }
  destruct HE as [E|E]; [unfold DoLongDivide in E|unfold DoLongRemainder in E]; cbv zeta in E;
    step_inv; simplify_eq; by rewrite ?Hthrow, ?Ht.
Qed.

Lemma op_long_eq c (m : Machine W) : agrees_at c m ->
  op_long code_item c m = as_goto <$> ExecuteLong code_item c m.
Proof.
  intros (_ & _ & Hd). destruct c; cbv beta iota zeta delta [op_long ExecuteLong]; try same_handler;
    (apply long_division_pending; [|done]); intros; eapply divide_pending; eauto.
Qed.

Lemma op_long_2addr_eq c (m : Machine W) : agrees_at c m ->
  op_long_2addr code_item c m = as_goto <$> ExecuteLong2Addr code_item c m.
Proof.
  intros (_ & _ & Hd). destruct c; cbv beta iota zeta delta [op_long_2addr ExecuteLong2Addr];
    try same_handler; (apply long_division_pending; [|done]); intros; eapply divide_pending; eauto.
Qed.

Lemma op_invoke_eq c (m : Machine W) new_code_item : agrees_at c m ->
  op_invoke do_access_check code_item force_invoke_flag insns_len_in_byte hash1 c m new_code_item =
  o ← ExecuteInvoke do_access_check code_item force_invoke_flag insns_len_in_byte hash1 c m;
  Some (as_goto o, new_code_item).
Proof.
  intros (_ & Hu & _).
  assert (Hf : forall call,
    (r ← call; o ← POSSIBLY code_item (negb (inv_success r)) 3 (after_invoke r m); Some (o, new_code_item)) =
    (o ← (r ← call; POSSIBLY_HANDLE_PENDING_EXCEPTION code_item (inst m) (negb (inv_success r)) 3
                      (after_invoke r m)); Some (as_goto o, new_code_item))).
  { intros [r|]; [|done]. cbn [mbind option_bind]. rewrite (POSSIBLY_handle (inst m)) by done.
    by destruct (POSSIBLY_HANDLE_PENDING_EXCEPTION _ _ _ _ _). }
  destruct c; cbv beta iota zeta delta [op_invoke ExecuteInvoke]; try apply Hf; try reflexivity.
  rewrite (proj2 (Z.eqb_neq _ _) (Hu eq_refl)). cbn [andb]. apply Hf.
Qed.

Lemma lift_eq (x y : option (Outcome W)) (new_code_item : Z) : x = as_goto <$> y ->
  (o ← x; Some (o, new_code_item)) = (o ← y; Some (as_goto o, new_code_item)).
Proof. intros ->. by destruct y. Qed.

Lemma handlersTable_eq c (m : Machine W) new_code_item : agrees_at c m ->
  handlersTable do_access_check transaction_active code_item force_invoke_flag insns_len_in_byte hash1
    c m new_code_item =
  o ← group_of do_access_check transaction_active code_item force_invoke_flag insns_len_in_byte hash1
        c c m;
  Some (as_goto o, new_code_item).
Proof.
  intros Ha. unfold handlersTable, group_of. cbv beta zeta.
  repeat match goal with |- (if ?b then _ else _) = _ => destruct b end;
    first [by apply op_invoke_eq | reflexivity | apply lift_eq];
    auto using op_move_eq, op_return_eq, op_const_eq, op_object_eq, op_fill_eq, op_goto_eq,
      op_cmp_eq, op_if_eq, op_ifz_eq, op_agets_eq, op_aputs_eq, op_get_eq, op_put_eq, op_unary_eq,
      op_int_eq, op_long_eq, op_float_eq, op_int_2addr_eq, op_long_2addr_eq, op_float_2addr_eq,
      op_lit_eq.
Qed.

Lemma Dispatch_eq (m : Machine W) new_code_item : agrees_at (Opcode (current code_item m)) m ->
  Dispatch do_access_check transaction_active code_item force_invoke_flag insns_len_in_byte hash1
    (synced m) new_code_item =
  o ← Step do_access_check transaction_active code_item force_invoke_flag insns_len_in_byte hash1 m;
  Some (as_goto o, new_code_item).
Proof.
  intros Ha. unfold Dispatch, Step.
  change (inst (synced m)) with (inst m). change (mem (synced m)) with (mem m).
  destruct (Z.leb_spec 0 (inst m)) as [H0|]; [|done].
  destruct (Z.ltb_spec (inst m) (insns_size_in_code_units_ (mem m) code_item)) as [H1|]; [|done].
  apply handlersTable_eq. exact Ha.
Qed.

Abbreviation reaches k m m' := (Loop do_access_check transaction_active code_item force_invoke_flag
  insns_len_in_byte hash1 k m = Some (Continue m')).

Lemma Jumps_eq fuel (m : Machine W) new_code_item :
  (forall k m', (k < fuel)%nat -> reaches k m m' -> agrees_at (Opcode (current code_item m')) m') ->
  Jumps do_access_check transaction_active code_item force_invoke_flag insns_len_in_byte hash1 fuel
    (synced m) new_code_item =
  o ← Loop do_access_check transaction_active code_item force_invoke_flag insns_len_in_byte hash1
        fuel m;
  Some (as_goto o, new_code_item).
Proof.
  revert m. induction fuel as [|fuel IH]; intros m Ha; [done|]. cbn [Jumps Loop].
  rewrite Dispatch_eq by (apply (Ha 0%nat); [lia|done]).
  destruct (Step _ _ _ _ _ _ m) as [o|] eqn:E; [|done]. cbn [mbind option_bind].
  destruct o; try done. apply IH. intros k m' Hk Hr. apply (Ha (S k)); [lia|].
  cbn [Loop]. by rewrite E.
Qed.
End Equivalence.

(** The two interpreters differ in the U-X hook.  After a static call that changed the
    method's code, the switch interpreter leaves with the code item as the new code; the goto
    interpreter jumps to the next instruction before its [return] is reached: it notes the code
    item and goes on with the method. *)
Theorem goto_ux_goes_on {W : Type} `{Runtime W} (do_access_check transaction_active : bool)
  (code_item insns_len_in_byte hash1 new_code_item : Z) (m : Machine W) (r : InvokeResult W)
  (Hin : in_code code_item m)
  (Hc : Opcode (current code_item m) = INVOKE_STATIC)
  (Hr : static_call do_access_check code_item (at_instruction m) = Some r)
  (Hok : inv_success r = true) :
  let m2 := after_invoke r (at_instruction m) in
  hash1 <> insns_hash code_item insns_len_in_byte m2 ->
  Step do_access_check transaction_active code_item KARL_GERAT_U_CODE insns_len_in_byte hash1 m =
    Some (NewCodeItem code_item m2) /\
  Dispatch do_access_check transaction_active code_item KARL_GERAT_U_CODE insns_len_in_byte hash1
    (synced m) new_code_item =
    Some (Continue (synced (set_inst (inst m + 3) m2)), code_item).
Proof.
  cbv zeta. intros Hne.
  rewrite (invoke_static_step _ _ _ _ _ _ _ Hin Hc). cbv zeta. rewrite Hr.
  unfold Dispatch. change (current code_item (synced m)) with (current code_item m).
  change (inst (synced m)) with (inst m). change (mem (synced m)) with (mem m).
  destruct Hin as [H0 H1]. rewrite (proj2 (Z.leb_le _ _) H0), (proj2 (Z.ltb_lt _ _) H1), Hc.
  change (synced m) with (at_instruction m).
  change (handlersTable _ _ _ _ _ _ INVOKE_STATIC ?n ?k) with
    (op_invoke do_access_check code_item KARL_GERAT_U_CODE insns_len_in_byte hash1 INVOKE_STATIC n k).
  unfold op_invoke. cbv zeta. change (DoInvoke kStatic _ _ _ _ _ _ _ _) with
    (static_call do_access_check code_item (at_instruction m)).
  rewrite Hr. cbn [mbind option_bind]. rewrite Z.eqb_refl, (proj2 (Z.eqb_neq _ _) Hne), Hok.
  split; [reflexivity|]. cbn [andb negb POSSIBLY].
  by rewrite ADVANCE_relative.
Qed.

Lemma goto_ux_goes_on_witness :
  exists m2, Step false false 0 KARL_GERAT_U_CODE 8 5 sample_invoke = Some (NewCodeItem 0 m2) /\
  Dispatch false false 0 KARL_GERAT_U_CODE 8 5 (synced sample_invoke) 0 =
    Some (Continue (synced (set_inst 3 m2)), 0).
Proof.
  destruct (static_call false 0 (at_instruction sample_invoke)) as [r|] eqn:E;
    [|vm_compute in E; discriminate E].
  eexists. refine (goto_ux_goes_on false false 0 8 5 0 sample_invoke r _ _ E _ _).
  - vm_compute. by split.
  - reflexivity.
  - vm_compute in E. by injection E as <-.
  - vm_compute in E. injection E as <-. vm_compute. discriminate.
Defined.
