(* ===== verification/Entry.v ===== *)
(** The entry points of the interpreter ([interpreter/interpreter.cc]).

    [Execute] chooses one of the two interpreters; [EnterInterpreterFromInvoke] builds the frame
    of a method from the words of its arguments, [EnterInterpreterFromDeoptimize] runs the frames
    of compiled code that was given up, [artInterpreterToInterpreterBridge] is the entry point of
    interpreted methods.  The stack of frames that stack walks see is not modelled.  [None] is
    undefined behaviour, a failed [CHECK] or fuel that has run out. *)
From S2P Require Import Prelude ClassData DexFile DexInstruction ShadowFrame Runtime TryCatch Calls Interpreter InterpreterFacts Goto.
Local Open Scope Z_scope.

Definition kAccPreverified : Z := 0x00080000.

Inductive InterpreterImplKind := kSwitchImpl | kComputedGotoImplKind.

Section Entry.
Context {W : Type} `{Runtime W}.
(** The state of the runtime, the class linker, the native stack, and native methods. *)
Variable IsActiveTransaction : W -> bool.
Variable IsInitialized : W -> Z -> bool.
Variable EnsureInitialized : Z -> Thread W -> Thread W * bool.
Variable StackExhausted : W -> bool.
Variables InterpreterJni UnstartedRuntimeJni :
  Z -> Z -> list Z -> option JValue -> Thread W -> Thread W * option JValue.
(** The interpreter the build has. *)
Variable kInterpreterImplKind : InterpreterImplKind.

Definition IsPreverified (w : W) (method : Z) : bool :=
  negb (Z.land (GetAccessFlags w method) kAccPreverified =? 0).
Definition IsNative (w : W) (method : Z) : bool :=
  negb (Z.land (GetAccessFlags w method) kAccNative =? 0).

(** The end of the execution, and [*new_code_item]. *)
Definition RunSwitch (do_access_check transaction_active : bool) (fuel : nat) (code_item flag : Z)
  (t : Thread W) (shadow_frame : ShadowFrame) (result_register : JValue) (mem : list Z)
  (new_code_item : Z) : option (Outcome W * Z) :=
  o ← ExecuteSwitchImpl do_access_check transaction_active fuel code_item flag t shadow_frame
        result_register mem;
  Some (o, match o with NewCodeItem c _ => c | _ => new_code_item end).

Definition Execute (fuel : nat) (code_item force_invoke_flag : Z) (t : Thread W)
  (shadow_frame : ShadowFrame) (result_register : JValue) (mem : list Z) (new_code_item : Z)
  : option (Outcome W * Z) :=
  if force_invoke_flag =? KARL_GERAT_U_CODE then
    RunSwitch false false fuel code_item force_invoke_flag t shadow_frame result_register mem
      new_code_item
  else
    let transaction_active := IsActiveTransaction (world_ t) in
    let do_access_check := negb (IsPreverified (world_ t) (GetMethod shadow_frame)) in
    match kInterpreterImplKind with
    | kSwitchImpl =>
        RunSwitch do_access_check transaction_active fuel code_item force_invoke_flag t
          shadow_frame result_register mem new_code_item
    | kComputedGotoImplKind =>
        ExecuteGotoImpl do_access_check transaction_active fuel code_item force_invoke_flag t
          shadow_frame result_register mem new_code_item
    end.

(** The [JValue] that an execution returns, and the machine it leaves. *)
Definition returned (o : Outcome W) : option (JValue * Machine W) :=
  match o with
  | Continue _ => None
  | Return result m => Some (result, m)
  | Unwind m | NewCodeItem _ m => Some (JValue_new, m)
  end.

(** ** [EnterInterpreterFromInvoke] *)

(** [ArtMethod::NumArgRegisters]; 68 is [D], 74 is [J], 76 is [L]. *)
Definition NumArgRegisters (shorty : list Z) : option Z :=
  match shorty with
  | [] => None
  | _ :: params =>
      Some (fold_left (fun n ch => if (ch =? 68) || (ch =? 74) then u32 (n + 2) else u32 (n + 1))
              params 0)
  end.

(** The loop over the shorty.  The fuel is [num_regs]. *)
Fixpoint FillFrame (fuel : nat) (shorty args : list Z) (shadow_frame : ShadowFrame)
  (cur_reg num_regs shorty_pos arg_pos : Z) : option ShadowFrame :=
  if cur_reg <? num_regs then
    match fuel with
    | O => None
    | S fuel' =>
        c ← reg_at shorty (shorty_pos + 1);
        if c =? 76 then
          o ← reg_at args arg_pos;
          shadow_frame ← SetVRegReference shadow_frame cur_reg o;
          FillFrame fuel' shorty args shadow_frame (cur_reg + 1) num_regs (shorty_pos + 1)
            (arg_pos + 1)
        else if (c =? 74) || (c =? 68) then
          hi ← reg_at args (arg_pos + 1);
          lo ← reg_at args arg_pos;
          let wide_value := Z.lor (u64 (hi ≪ 32)) lo in
          shadow_frame ← SetVRegLong shadow_frame cur_reg (s64 wide_value);
          FillFrame fuel' shorty args shadow_frame (cur_reg + 2) num_regs (shorty_pos + 1)
            (arg_pos + 2)
        else
          v ← reg_at args arg_pos;
          shadow_frame ← SetVReg shadow_frame cur_reg (s32 v);
          FillFrame fuel' shorty args shadow_frame (cur_reg + 1) num_regs (shorty_pos + 1)
            (arg_pos + 1)
    end
  else Some shadow_frame.

(** The frame of the method with its arguments. *)
Definition InvokeFrame (w : W) (method receiver num_regs num_ins : Z) (args : list Z)
  : option ShadowFrame :=
  let shadow_frame := Create num_regs (Some (GetTopShadowFrame w)) method 0 in
  let cur_reg := u64 (num_regs - num_ins) in
  '(shadow_frame, cur_reg) ←
    (if negb (IsStatic w method) then
       if receiver =? 0 then None
       else
         shadow_frame ← SetVRegReference shadow_frame cur_reg receiver;
         Some (shadow_frame, u64 (cur_reg + 1))
     else Some (shadow_frame, cur_reg));
  FillFrame (Z.to_nat num_regs) (GetShorty w method) args shadow_frame cur_reg num_regs 0 0.

(** The initialisation of the class of a static method: [false] is an exception. *)
Definition EnsureStaticInitialized (method : Z) (self : Thread W) : option (Thread W * bool) :=
  let declaring_class := GetDeclaringClass (world_ self) method in
  if IsStatic (world_ self) method && negb (IsInitialized (world_ self) declaring_class) then
    let '(self, ok) := EnsureInitialized declaring_class self in
    if ok then Some (self, true) else CheckPending self (self, false)
  else Some (self, true).

Record EnterResult := mkEnter {
  enter_self : Thread W;
  enter_result : option JValue;   (* [*result], if [result] is not null *)
  enter_mem : list Z;
  enter_new_code_item : Z;
}.

(** The registers of the frame; [inl] is the return after an exception. *)
Definition FrameSizes (mem : list Z) (method : Z) (self : Thread W) : option (Thread W + Z * Z) :=
  match GetCodeItem (world_ self) method with
  | Some code_item => Some (inr (registers_size_ mem code_item, ins_size_ mem code_item))
  | None =>
      if IsAbstract (world_ self) method then Some (inl (Throw (AbstractMethodError method) self))
      else
        n ← NumArgRegisters (GetShorty (world_ self) method);
        let n := u16 n in
        let n := if negb (IsStatic (world_ self) method) then u16 (n + 1) else n in
        Some (inr (n, n))
  end.

Definition EnterInterpreterFromInvoke (fuel : nat) (self : Thread W) (method receiver : Z)
  (args : list Z) (result : option JValue) (force_invoke_flag : Z) (mem : list Z)
  (new_code_item : Z) : option EnterResult :=
  if StackExhausted (world_ self) then
    Some (mkEnter (Throw StackOverflowError self) result mem new_code_item)
  else
    sizes ← FrameSizes mem method self;
    match sizes with
    | inl self => Some (mkEnter self result mem new_code_item)
    | inr (num_regs, num_ins) =>
        let w := world_ self in
        shadow_frame ← InvokeFrame w method receiver num_regs num_ins args;
        '(self, initialized) ← EnsureStaticInitialized method self;
        if negb initialized then Some (mkEnter self result mem new_code_item)
        else if negb (IsNative w method) then
          code_item ← GetCodeItem w method;
          '(o, new_code_item) ← Execute fuel code_item force_invoke_flag self shadow_frame
            JValue_new mem new_code_item;
          '(r, m) ← returned o;
          Some (mkEnter (Interpreter.self m) ((fun _ => r) <$> result) (Interpreter.mem m)
                  new_code_item)
        else
          let args := drop (if IsStatic w method then 0 else 1) (vregs_ shadow_frame) in
          let '(self, result) :=
            if negb (IsStarted (world_ self)) then UnstartedRuntimeJni method receiver args result self
            else InterpreterJni method receiver args result self in
          Some (mkEnter self result mem new_code_item)
    end.

(** ** [EnterInterpreterFromDeoptimize]

    The frames are given from the innermost to the outermost ([GetLink]). *)
Fixpoint EnterInterpreterFromDeoptimize (fuel : nat) (frames : list ShadowFrame) (value : JValue)
  (self : Thread W) (mem : list Z) : option (Thread W * JValue * list Z) :=
  match frames with
  | [] => Some (self, value, mem)
  | shadow_frame :: frames' =>
      let method := GetMethod shadow_frame in
      code_item ← GetCodeItem (world_ self) method;
      let dex_pc := GetDexPC shadow_frame in
      '(self, new_dex_pc) ←
        (if IsExceptionPending self then
           FindNextInstructionFollowingException mem method code_item dex_pc self
         else
           let instr := RelativeAt (insns_ mem code_item) dex_pc in
           size ← (if IsInvoke instr then SizeInCodeUnits instr else Some 0);
           Some (self, u32 (dex_pc + size)));
      if negb (new_dex_pc =? kDexNoIndex) then
        '(o, _) ← Execute fuel code_item 0 self (SetDexPC new_dex_pc shadow_frame) value mem 0;
        '(value, m) ← returned o;
        EnterInterpreterFromDeoptimize fuel frames' value (Interpreter.self m) (Interpreter.mem m)
      else EnterInterpreterFromDeoptimize fuel frames' value self mem
  end.

(** ** Entry points of frames that are complete *)

Definition EnterInterpreterFromEntryPoint (fuel : nat) (code_item : Z) (shadow_frame : ShadowFrame)
  (mem : list Z) (self : Thread W) : option (Thread W * JValue * list Z) :=
  if StackExhausted (world_ self) then Some (Throw StackOverflowError self, JValue_new, mem)
  else
    '(o, _) ← Execute fuel code_item 0 self shadow_frame JValue_new mem 0;
    '(value, m) ← returned o;
    Some (Interpreter.self m, value, Interpreter.mem m).

Definition artInterpreterToInterpreterBridge (fuel : nat) (code_item : option Z)
  (shadow_frame : ShadowFrame) (result : JValue) (mem : list Z) (self : Thread W)
  : option (CallResult W) :=
  let method := GetMethod shadow_frame in
  if StackExhausted (world_ self) then Some (mkCall (Throw StackOverflowError self) result mem)
  else
    '(self, initialized) ← EnsureStaticInitialized method self;
    if negb initialized then Some (mkCall self result mem)
    else if negb (IsNative (world_ self) method) then
      code_item ← code_item;
      '(o, _) ← Execute fuel code_item 0 self shadow_frame JValue_new mem 0;
      '(value, m) ← returned o;
      Some (mkCall (Interpreter.self m) (SetJ result (GetJ value)) (Interpreter.mem m))
    else if IsStarted (world_ self) then None
    else
      let is_static := IsStatic (world_ self) method in
      receiver ← (if is_static then Some 0 else GetVRegReference shadow_frame 0);
      let args := drop (if is_static then 0 else 1) (vregs_ shadow_frame) in
      let '(self, r) := UnstartedRuntimeJni method receiver args (Some result) self in
      Some (mkCall self (default result r) mem).
End Entry.

(** ** Both interpreters do the same *)

Section Kinds.
Context {W : Type} `{Runtime W} `{!RuntimeLaws W}.

Definition finished (o : Outcome W) : bool := match o with Continue _ => false | _ => true end.

(** The machine before the instruction at [inst] runs, [k] instructions into an execution. *)
Definition reaches (transaction_active : bool) (code_item force_invoke_flag : Z) (t : Thread W)
  (shadow_frame : ShadowFrame) (result_register : JValue) (mem : list Z) (k : nat)
  (m : Machine W) : Prop :=
  ExecuteSwitchImpl false transaction_active k code_item force_invoke_flag t shadow_frame
    result_register mem = Some (Continue m).

Lemma goto_as_switch transaction_active fuel code_item flag t f result_register mem new_code_item :
  flag <> KARL_GERAT_U_CODE ->
  (forall k m, (k < fuel)%nat ->
     reaches transaction_active code_item flag t f result_register mem k m ->
     long_division_code (Opcode (current code_item m)) = true -> IsExceptionPending (self m) = false) ->
  ExecuteGotoImpl false transaction_active fuel code_item flag t f result_register mem new_code_item =
  o ← ExecuteSwitchImpl false transaction_active fuel code_item flag t f result_register mem;
  Some (as_goto o, new_code_item).
Proof.
  intros Hflag Hclean. unfold ExecuteGotoImpl, ExecuteSwitchImpl, reaches, ExecuteSwitchImpl in *.
  cbn [HasReferenceArray negb] in *. cbv zeta in *.
  rewrite (proj2 (Z.eqb_neq flag _) Hflag) in *. rewrite ADVANCE_relative by done.
  cbn [relative fmap option_fmap option_map mbind option_bind as_goto].
  set (m0 := mkMachine t f result_register (GetDexPC f) mem) in *.
  replace (set_inst (inst m0 + 0) m0) with m0 by (unfold m0, set_inst; cbn; by rewrite Z.add_0_r).
  apply Jumps_eq. intros k m Hk Hr. unfold agrees_at. split_all; [done|done|by apply (Hclean k)].
Qed.

(** The switch interpreter stores the new code item only under the U-X flag. *)
Lemma no_new_code_item dc transaction_active fuel code_item flag len hash1 (m : Machine W) c m' :
  flag <> KARL_GERAT_U_CODE ->
  Loop dc transaction_active code_item flag len hash1 fuel m <> Some (NewCodeItem c m').
Proof.
  intros Hflag. revert m. induction fuel as [|fuel IH]; intros m; cbn [Loop]; [done|].
  destruct (Step _ _ _ _ _ _ m) as [o|] eqn:E; [|done]. cbn [mbind option_bind].
  destruct o as [m1|j m1|m1|c' m1]; [apply IH|done|done|]. intros _.
  apply step_shape_of in E as [E _]. inversion E as [| | |m2 o Hs Hf Hh| | |]; [|done].
  apply handle_cases in Hh as (t & found & _ & Eo). by destruct (found =? kDexNoIndex).
Qed.

Variable IsActiveTransaction : W -> bool.

Abbreviation execute kind := (Execute IsActiveTransaction kind).

Lemma kinds_agree fuel code_item flag t f result_register mem new_code_item o n :
  IsPreverified (world_ t) (GetMethod f) = true ->
  (forall k m, (k < fuel)%nat ->
     reaches (IsActiveTransaction (world_ t)) code_item flag t f result_register mem k m ->
     long_division_code (Opcode (current code_item m)) = true -> IsExceptionPending (self m) = false) ->
  finished o = true ->
  execute kComputedGotoImplKind fuel code_item flag t f result_register mem new_code_item = Some (o, n) <->
  execute kSwitchImpl fuel code_item flag t f result_register mem new_code_item = Some (o, n).
Proof.
  intros Hp Hclean Ho. unfold Execute. rewrite Hp. cbn [negb].
  destruct (Z.eqb_spec flag KARL_GERAT_U_CODE) as [|Hflag]; [done|].
  rewrite goto_as_switch by done. unfold RunSwitch.
  pose proof (fun c m => no_new_code_item false (IsActiveTransaction (world_ t)) fuel code_item flag 0 0
    (mkMachine t f result_register (GetDexPC f) mem) c m Hflag) as Hn.
  unfold ExecuteSwitchImpl. cbn [HasReferenceArray negb]. cbv zeta.
  rewrite (proj2 (Z.eqb_neq flag _) Hflag).
  destruct (Loop _ _ _ _ _ _ _ _) as [o'|]; [|done]. cbn [mbind option_bind].
  destruct o' as [m'|j m'|m'|c m']; cbn [as_goto]; try done; [|by destruct (Hn c m')].
  split; intros E; apply (inj Some) in E; injection E as <- _; discriminate Ho.
Qed.
End Kinds.

(** ** The frame of an invocation *)

(** The words of the arguments, and those among them that are references. *)
Definition is_wide (c : Z) : bool := (c =? 74) || (c =? 68).

Fixpoint arg_words (params : list Z) : nat :=
  match params with
  | [] => 0
  | c :: params' => (if is_wide c then 2 else 1) + arg_words params'
  end.

Fixpoint arg_references (params args : list Z) : list Z :=
  match params, args with
  | c :: params', a :: args' =>
      if c =? 76 then a :: arg_references params' args'
      else if is_wide c then 0 :: 0 :: arg_references params' (tail args')
      else 0 :: arg_references params' args'
  | _, _ => []
  end.

Lemma arg_references_length params args :
  length args = arg_words params -> length (arg_references params args) = length args.
Proof.
  revert args. induction params as [|c params IH]; intros [|a args] Hl; try done.
  cbn [arg_words arg_references length] in *. destruct (Z.eqb_spec c 76) as [->|].
  - cbn in *. rewrite IH; lia.
  - destruct (is_wide c); [destruct args as [|b args]; [cbn in Hl; lia|]|]; cbn in *; rewrite IH; lia.
Qed.

Section Fill.
Variable base : ShadowFrame.

Abbreviation zeros n := (replicate n 0).

Lemma insert_after {X} (l k : list X) (x y z : X) i : i = S (length l) ->
  <[i := z]> (l ++ x :: y :: k) = l ++ x :: z :: k.
Proof.
  intros ->. pose proof (insert_middle (l ++ [x]) k y z) as E.
  rewrite length_app, <- !app_assoc in E. cbn [length app] in E. by rewrite Nat.add_1_r in E.
Qed.

Lemma set_first A n x v i : i = Z.of_nat (length A) -> reg_set (A ++ x :: n) i v = Some (A ++ v :: n).
Proof.
  intros ->. rewrite reg_set_some by (rewrite length_app; cbn [length]; lia).
  by rewrite Nat2Z.id, insert_middle.
Qed.

Lemma set_second A n x y v i : i = Z.of_nat (length A) + 1 ->
  reg_set (A ++ x :: y :: n) i v = Some (A ++ x :: v :: n).
Proof.
  intros ->. rewrite reg_set_some by (rewrite length_app; cbn [length]; lia).
  by rewrite insert_after by lia.
Qed.

Lemma set_reference A R n m v : length A = length R -> is_u 32 v ->
  SetVRegReference (set_arrays (A ++ 0 :: n) (R ++ 0 :: m) base) (Z.of_nat (length A)) v =
  Some (set_arrays (A ++ v :: n) (R ++ v :: m) base).
Proof.
  intros HAR Hv. unfold SetVRegReference. cbn [HasReferenceArray vregs_ references_ set_arrays].
  assert (Compress v = v) as -> by (by apply u_small).
  rewrite (set_first A), (set_first R) by lia. done.
Qed.

Lemma set_word A R n m v : length A = length R -> is_u 32 v ->
  SetVReg (set_arrays (A ++ 0 :: n) (R ++ 0 :: m) base) (Z.of_nat (length A)) (s32 v) =
  Some (set_arrays (A ++ v :: n) (R ++ 0 :: m) base).
Proof.
  intros HAR Hv. unfold SetVReg, clear_reference.
  cbn [kMovingCollector HasReferenceArray andb vregs_ references_ set_arrays].
  rewrite u_s, (u_small 32) by (done || lia). rewrite (set_first A), (set_first R) by lia. done.
Qed.

Lemma set_wide A R n m lo hi : length A = length R -> is_u 32 lo -> is_u 32 hi ->
  SetVRegLong (set_arrays (A ++ 0 :: 0 :: n) (R ++ 0 :: 0 :: m) base) (Z.of_nat (length A))
    (s64 (Z.lor (u64 (hi ≪ 32)) lo)) =
  Some (set_arrays (A ++ lo :: hi :: n) (R ++ 0 :: 0 :: m) base).
Proof.
  intros HAR Hlo Hhi. unfold SetVRegLong, SetVRegDouble.
  assert (E : Z.lor (u64 (hi ≪ 32)) lo = lo + hi * 2 ^ 32).
  { rewrite (u_small 64) by (rewrite Z.shiftl_mul_pow2 by lia; unfold is_u in *; lia).
    rewrite Z.lor_comm. apply lor_low_shiftl; [lia|exact Hlo]. }
  rewrite E. set (v := lo + hi * 2 ^ 32).
  assert (Ev : u64 (s64 v) = v) by (rewrite u_s by lia; apply u_small; unfold v, is_u in *; lia).
  rewrite Ev. assert (El : u32 v = lo) by (unfold v, u, is_u in *; div_lia).
  assert (Eh : u32 (v ≫ 32) = hi).
  { rewrite Z.shiftr_div_pow2 by lia. unfold v, u, is_u in *. div_lia. }
  rewrite El, Eh. cbn [kMovingCollector HasReferenceArray andb vregs_ references_ set_arrays].
  rewrite (set_first A), (set_first R) by lia. cbn [mbind option_bind].
  rewrite (set_second A), (set_second R) by lia. done.
Qed.

Lemma FillFrame_spec params args fuel pre apre A R :
  (length args <= fuel)%nat -> length args = arg_words params -> Forall (is_u 32) args ->
  length A = length R ->
  FillFrame fuel (pre ++ params) (apre ++ args)
    (set_arrays (A ++ zeros (length args)) (R ++ zeros (length args)) base)
    (Z.of_nat (length A)) (Z.of_nat (length A + length args)) (Z.of_nat (length pre) - 1)
    (Z.of_nat (length apre)) =
  Some (set_arrays (A ++ args) (R ++ arg_references params args) base).
Proof.
  assert (Hat : forall (l k : list Z) x n, n = Z.of_nat (length l) -> reg_at (l ++ x :: k) n = Some x).
  { intros l k x n ->. unfold reg_at. rewrite (proj2 (Z.leb_le _ _)), Nat2Z.id by lia.
    by apply list_lookup_middle. }
  revert args fuel pre apre A R. induction params as [|c params IH];
    intros args fuel pre apre A R Hf Hl HF HAR.
  { destruct args; [|done]. destruct fuel; cbn [FillFrame]; rewrite (proj2 (Z.ltb_ge _ _)) by (cbn; lia);
      done. }
  cbn [arg_words] in Hl. destruct args as [|a args]; [destruct (is_wide c); cbn in Hl; lia|].
  destruct fuel as [|fuel]; [cbn in Hf; lia|]. cbn [FillFrame length replicate] in *.
  rewrite (proj2 (Z.ltb_lt _ _)) by lia. rewrite (Hat pre) by lia. cbn [mbind option_bind].
  apply Forall_cons in HF as [Ha HF]. cbn [arg_references].
  destruct (Z.eqb_spec c 76) as [->|Hc].
  - rewrite (Hat apre) by lia. cbn [mbind option_bind].
    rewrite set_reference by done. cbn [mbind option_bind].
    specialize (IH args fuel (pre ++ [76]) (apre ++ [a]) (A ++ [a]) (R ++ [a])).
    rewrite !length_app, <- !app_assoc in IH. cbn [length app] in IH.
    rewrite <- IH by (done || (cbn in Hl; lia)). f_equal; lia.
  - fold (is_wide c). destruct (is_wide c) eqn:Ew.
    + destruct args as [|b args]; [cbn in Hl; lia|]. apply Forall_cons in HF as [Hb HF].
      assert (Hhi : reg_at (apre ++ a :: b :: args) (Z.of_nat (length apre) + 1) = Some b).
      { pose proof (Hat (apre ++ [a]) args b) as E. rewrite <- app_assoc in E. apply E.
        rewrite length_app. cbn. lia. }
      rewrite Hhi. cbn [mbind option_bind]. rewrite (Hat apre) by lia. cbn [mbind option_bind].
      cbn [length replicate]. rewrite set_wide by done. cbn [mbind option_bind tail].
      specialize (IH args fuel (pre ++ [c]) (apre ++ [a; b]) (A ++ [a; b]) (R ++ [0; 0])).
      rewrite !length_app, <- !app_assoc in IH. cbn [length app] in *.
      rewrite <- IH by (done || lia). f_equal; lia.
    + rewrite (Hat apre) by lia. cbn [mbind option_bind].
      rewrite set_word by done. cbn [mbind option_bind].
      specialize (IH args fuel (pre ++ [c]) (apre ++ [a]) (A ++ [a]) (R ++ [0])).
      rewrite !length_app, <- !app_assoc in IH. cbn [length app] in IH.
      rewrite <- IH by (done || (cbn in Hl; lia)). f_equal; lia.
Qed.
End Fill.

(** ** The properties *)

(** C7: which interpreter a build has does not matter.  A preverified method runs to the same
    end in the computed goto interpreter and in the switch interpreter: the same value or
    exception, thread, heap, frame and code, and the same [*new_code_item]; under the U-X flag
    [Execute] takes the switch interpreter in either build.  The [long] divisions of the two
    report failure differently and need that no exception is pending when they run. *)
Theorem implementations_agree {W : Type} `{Runtime W} `{!RuntimeLaws W}
  (IsActiveTransaction : W -> bool) (fuel : nat) (code_item flag : Z) (t : Thread W)
  (f : ShadowFrame) (result_register : JValue) (mem : list Z) (new_code_item : Z)
  (o : Outcome W) (n : Z)
  (Hpreverified : IsPreverified (world_ t) (GetMethod f) = true)
  (Hclean : forall k m, (k < fuel)%nat ->
     reaches (IsActiveTransaction (world_ t)) code_item flag t f result_register mem k m ->
     long_division_code (Opcode (current code_item m)) = true -> IsExceptionPending (self m) = false)
  (Hend : finished o = true) :
  let execute kind := Execute IsActiveTransaction kind fuel code_item flag t f result_register mem
    new_code_item in
  execute kComputedGotoImplKind = Some (o, n) <-> execute kSwitchImpl = Some (o, n).
Proof. by apply kinds_agree. Qed.

(** [const-wide/16 v0, 7; const-wide/16 v2, 2; div-long v0, v0, v2; return-wide v0]. *)
Definition sample_division : list Z :=
  method_code 4 [0x0016; 7; 0x0216; 2; 0x009e; 0x0200; 0x0010].

Lemma implementations_agree_witness :
  Execute (fun _ => false) kComputedGotoImplKind 4 0 0 (mkThread 0 (∅ : Small.World))
    (Create 4 None 0 0) JValue_new sample_division 0 =
  Some (Return 3 (mkMachine (mkThread 0 ∅)
          {| number_of_vregs_ := 4; link_ := None; method_ := 0; dex_pc_ := 6;
             vregs_ := [3; 0; 2; 0]; references_ := [0; 0; 0; 0] |} 0 6 sample_division), 0).
Proof.
  refine (proj2 (implementations_agree (fun _ => false) 4 0 0 (mkThread 0 (∅ : Small.World))
    (Create 4 None 0 0) JValue_new sample_division 0 _ 0 _ _ _) _).
  - reflexivity.
  - intros k m Hk Hr _. unfold reaches in Hr.
    destruct k as [|[|[|[|k]]]]; [..|lia]; vm_compute in Hr; injection Hr as <-; reflexivity.
  - reflexivity.
  - vm_compute. reflexivity.
Defined.

(** The frame a method starts in: the receiver and the arguments in its last registers, the
    references among them in the reference array as well. *)
Definition entry_frame (num_regs : Z) (link : option Z) (method : Z) (this params args : list Z)
  : ShadowFrame :=
  let locals := replicate (Z.to_nat num_regs - length this - length args) 0 in
  set_arrays (locals ++ this ++ args) (locals ++ this ++ arg_references params args)
    (Create num_regs link method 0).

Lemma agree_app v1 v2 r1 r2 : length r1 = length v1 ->
  roots_agree v1 r1 -> roots_agree v2 r2 -> roots_agree (v1 ++ v2) (r1 ++ r2).
Proof.
  intros Hl H1 H2 i r Hi. apply lookup_app_Some in Hi as [Hi|[Hge Hi]].
  - destruct (H1 i r Hi) as [->|E]; [by left|right]. by apply lookup_app_l_Some.
  - rewrite Hl in *. rewrite lookup_app_r by done. by apply H2.
Qed.

Lemma agree_cons v vs r rs : r = 0 \/ v = r -> roots_agree vs rs -> roots_agree (v :: vs) (r :: rs).
Proof.
  intros Hr Hs [|i] x; cbn; [|apply Hs]. intros [= <-]. destruct Hr as [->| ->]; auto.
Qed.

Lemma agree_refl l : roots_agree l l.
Proof. intros i r. by right. Qed.

Lemma arg_references_agree params args : length args = arg_words params -> Forall (is_u 32) args ->
  roots_agree args (arg_references params args) /\ Forall (is_u 32) (arg_references params args).
Proof.
  assert (H0 : is_u 32 0) by (by apply (u_range 32 0)).
  revert args. induction params as [|c params IH]; intros [|a args] Hl HF; try by (split; [intros i r Hi|]).
  cbn [arg_words arg_references length] in *. apply Forall_cons in HF as [Ha HF].
  destruct (Z.eqb_spec c 76) as [->|].
  - destruct (IH args); [cbn in Hl; lia|done|]. split; [apply agree_cons; auto|by constructor].
  - destruct (is_wide c).
    + destruct args as [|b args]; [cbn in Hl; lia|]. apply Forall_cons in HF as [Hb HF].
      destruct (IH args); [cbn in Hl; lia|done|].
      split; [by repeat (apply agree_cons; [by left|])|by repeat constructor].
    + destruct (IH args); [cbn in Hl; lia|done|]. split; [by apply agree_cons; [left|]|by constructor].
Qed.

Lemma entry_frame_ok num_regs link method this params args :
  Forall (is_u 32) this -> length args = arg_words params -> Forall (is_u 32) args ->
  Z.of_nat (length this + length args) <= num_regs ->
  frame_ok (entry_frame num_regs link method this params args).
Proof.
  intros Ht Hl HF Hn. destruct (arg_references_agree params args Hl HF) as [Ha HF'].
  unfold frame_ok, entry_frame. cbn.
  set (locals := replicate (Z.to_nat num_regs - length this - length args) 0).
  assert (Hz : Forall (is_u 32) locals) by (by apply Forall_replicate, (u_range 32 0)).
  rewrite !length_app, arg_references_length by done. split_all.
  - unfold locals. rewrite length_replicate. lia.
  - done.
  - by repeat apply Forall_app_2.
  - by repeat apply Forall_app_2.
  - repeat apply agree_app; auto using agree_refl.
Qed.

Lemma Create_app num_regs a b c link method : Z.of_nat (a + b + c) = num_regs ->
  Create num_regs link method 0 =
  set_arrays (replicate a 0 ++ replicate b 0 ++ replicate c 0)
    (replicate a 0 ++ replicate b 0 ++ replicate c 0) (Create num_regs link method 0).
Proof.
  intros Hn. unfold Create, set_arrays. cbn. rewrite <- !replicate_add.
  by replace (Z.to_nat num_regs) with (a + (b + c))%nat by lia.
Qed.

(** C9: an invocation from compiled or native code finds its arguments.  The words of the
    arguments, read by the method's shorty, arrive in the last registers of a new frame behind
    the receiver; the registers of reference parameters (and no others) are references for the
    collector, [long] and [double] arguments take two registers, all other registers are zero,
    and the frame is well formed. *)
Theorem invoke_frame {W : Type} `{Runtime W} (w : W) (method receiver num_regs ret : Z)
  (params args : list Z)
  (Hshorty : GetShorty w method = ret :: params) (Hwords : length args = arg_words params)
  (Hargs : Forall (is_u 32) args) (Hreceiver : is_u 32 receiver)
  (Hthis : IsStatic w method = false -> receiver <> 0) :
  let this := if IsStatic w method then [] else [receiver] in
  let num_ins := Z.of_nat (length this + length args) in
  num_ins <= num_regs < 0x10000 ->
  let f := entry_frame num_regs (Some (GetTopShadowFrame w)) method this params args in
  InvokeFrame w method receiver num_regs num_ins args = Some f /\ frame_ok f.
Proof.
  cbv zeta. set (this := if IsStatic w method then [] else [receiver]). intros Hn.
  assert (Hu : Forall (is_u 32) this).
  { unfold this. destruct (IsStatic w method); repeat constructor; apply Hreceiver. }
  split; [|apply entry_frame_ok; done || lia]. unfold InvokeFrame. cbv zeta.
  set (locals := replicate (Z.to_nat num_regs - length this - length args) 0).
  assert (Hl : Z.of_nat (length locals) = num_regs - Z.of_nat (length this + length args))
    by (unfold locals; rewrite length_replicate; lia).
  rewrite (u_small 64 (num_regs - _)) by (unfold is_u; lia).
  rewrite (Create_app num_regs (length locals) (length this) (length args)), Hshorty by lia.
  pose proof (FillFrame_spec (Create num_regs (Some (GetTopShadowFrame w)) method 0) params args
    (Z.to_nat num_regs) [ret] [] (locals ++ this) (locals ++ this)) as HF.
  rewrite <- !app_assoc in HF. cbn [app length] in HF. rewrite length_app in HF.
  replace (Z.of_nat (length locals + length this + length args)) with num_regs in HF by lia.
  rewrite <- Hl. unfold entry_frame. fold locals. rewrite <- HF by (done || lia).
  replace (replicate (length locals) 0) with locals by (unfold locals; by rewrite length_replicate).
  unfold this in *. destruct (IsStatic w method) eqn:Es; cbn [negb length replicate app Z.of_nat Nat.add].
  - cbn [mbind option_bind]. f_equal; lia.
  - rewrite (proj2 (Z.eqb_neq receiver 0)) by auto. rewrite set_reference by done.
    cbn [mbind option_bind]. cbn [length] in *. rewrite (u_small 64) by (unfold is_u; lia). f_equal; lia.
Qed.

(** A method of the small runtime has an empty shorty; this one takes an object and a [long]. *)
Definition sample_runtime : Runtime Small.World :=
  let r := Small.runtime in
  {| Throw := @Throw _ r; AbortTransactionF := @AbortTransactionF _ r;
     GetClassFromTypeIndex := @GetClassFromTypeIndex _ r; ResolveString := @ResolveString _ r;
     ResolveVerifyAndClinit := @ResolveVerifyAndClinit _ r;
     FindFieldFromCode := @FindFieldFromCode _ r; GetReturnType := @GetReturnType _ r;
     GetFieldType := @GetFieldType _ r; GetClass := @GetClass _ r;
     GetComponentType := @GetComponentType _ r; IsAssignableFrom := @IsAssignableFrom _ r;
     IsInterface := @IsInterface _ r; IsThrowableClass := @IsThrowableClass _ r;
     IsStringClass := @IsStringClass _ r; IsFinalizable := @IsFinalizable _ r;
     GetDeclaringClass := @GetDeclaringClass _ r; GetField := @GetField _ r; SetField := @SetField _ r;
     GetFieldAt := @GetFieldAt _ r; SetFieldAt := @SetFieldAt _ r; GetLength := @GetLength _ r;
     GetElement := @GetElement _ r; SetElement := @SetElement _ r;
     RecordWriteArray := @RecordWriteArray _ r;
     RecordWriteFieldReference := @RecordWriteFieldReference _ r;
     AllocEmptyString := @AllocEmptyString _ r; AllocObjectFromCode := @AllocObjectFromCode _ r;
     AllocArrayFromCode := @AllocArrayFromCode _ r; DoMonitorEnter := @DoMonitorEnter _ r;
     DoMonitorExit := @DoMonitorExit _ r; GetPrimitiveType := @GetPrimitiveType _ r;
     AllocArray := @AllocArray _ r; SetRawData := @SetRawData _ r;
     FindMethodFromCode := @FindMethodFromCode _ r; GetEmbeddedVTableEntry := @GetEmbeddedVTableEntry _ r;
     GetAccessFlags := fun _ _ => 0; GetCodeItem := @GetCodeItem _ r;
     GetShorty := fun _ _ => [86; 76; 74]; GetParameterTypeIdx := @GetParameterTypeIdx _ r;
     StringInitToStringFactoryMethodID := @StringInitToStringFactoryMethodID _ r;
     FindStringInitMap := @FindStringInitMap _ r; GetTopShadowFrame := @GetTopShadowFrame _ r;
     IsStarted := @IsStarted _ r; EntryPointFromInterpreter := @EntryPointFromInterpreter _ r;
     UnstartedRuntimeInvoke := @UnstartedRuntimeInvoke _ r |}.

Lemma invoke_frame_witness :
  @InvokeFrame _ sample_runtime ∅ 5 70 6 4 [80; 1; 2] =
  Some (set_arrays [0; 0; 70; 80; 1; 2] [0; 0; 70; 80; 0; 0] (Create 6 (Some 1) 5 0)).
Proof.
  refine (proj1 (@invoke_frame _ sample_runtime ∅ 5 70 6 86 [76; 74] [80; 1; 2] _ _ _ _ _ _)).
  - reflexivity.
  - reflexivity.
  - repeat constructor; unfold is_u; lia.
  - unfold is_u. lia.
  - lia.
  - vm_compute. split; [discriminate|reflexivity].
Defined.
